(* ===== verification/_CoqProject ===== *)
-Q . S2P
Prelude.v
Checksum.v
Rss.v
Skbuff.v
SkbuffMem.v
SkbuffOps.v
SkbuffSplit.v
SkbuffFrame.v
SkbuffProps.v
Trie.v
Route.v
Neigh.v
Net.v
NetInv.v
IpFrag.v
IpFragHdr.v
IpFragOut.v
IpFragIn.v
NetFrame.v
IpFragProps.v
Ip.v
IpHdr.v
IpOut.v
IpIn.v
IpProps.v
LinkedList.v
Mpsc.v
FrameRing.v
FramePool.v
FrameCache.v
TimerWheel.v
TcpDefs.v
TcpSeq.v
TcpMetrics.v
TcpTimer.v
TcpWindow.v
TcpCongestion.v
TcpOptions.v
TcpOutput.v
TcpSendInv.v
TcpRecv.v
TcpInput.v
TcpFrame.v
TcpStates.v
BindTable.v
TcpApi.v
HashTable.v
TupleTable.v
TcpWorld.v
TcpPlace.v
TcpTables.v
TcpLinks.v
TcpWorldSafe.v
TcpWorldProps.v
