(* ===== verification/Prelude.v ===== *)
(** Shared vocabulary of the development: fixed-width integers as [Z] with
    explicit wrap-around, host/network byte order, byte buffers, functional
    record update, and the list and arithmetic lemmas the components share. *)

From stdpp Require Import prelude gmap list.
From Stdlib Require Import ZArith Lia.
#[global] Open Scope Z_scope.

Declare Scope netfast_scope.
Delimit Scope netfast_scope with netfast.
#[global] Open Scope netfast_scope.

(** ** Tactics *)

(** Case analysis on the boolean tests of an [if] in the goal or context. *)
Ltac case_if :=
  match goal with
  | |- context [if ?b then _ else _] => destruct b eqn:?
  | H : context [if ?b then _ else _] |- _ => destruct b eqn:?
  end.

(** Turn boolean connectives and comparisons in hypotheses into propositions. *)
Ltac bool_prop :=
  repeat match goal with
  | H : _ && _ = true |- _ => apply andb_true_iff in H; destruct H
  | H : _ || _ = false |- _ => apply orb_false_iff in H; destruct H
  | H : negb _ = true |- _ => apply negb_true_iff in H
  | H : negb _ = false |- _ => apply negb_false_iff in H
  | H : (_ =? _) = true |- _ => apply Z.eqb_eq in H
  | H : (_ =? _) = false |- _ => apply Z.eqb_neq in H
  | H : (_ <? _) = true |- _ => apply Z.ltb_lt in H
  | H : (_ <? _) = false |- _ => apply Z.ltb_ge in H
  | H : (_ <=? _) = true |- _ => apply Z.leb_le in H
  | H : (_ <=? _) = false |- _ => apply Z.leb_gt in H
  end.

(** [lia] after evaluating powers of two and expanding division. *)
Ltac norm_pow :=
  repeat match goal with
  | |- context [2 ^ ?n] =>
      let v := eval vm_compute in (2 ^ n) in
      lazymatch v with Z.pos _ => change (2 ^ n) with v end
  | H : context [2 ^ ?n] |- _ =>
      let v := eval vm_compute in (2 ^ n) in
      lazymatch v with Z.pos _ => change (2 ^ n) with v in H end
  end.
Ltac zlia := norm_pow; Z.div_mod_to_equations; lia.

(** ** Functional record update

    [r <| f := v |>] replaces field [f] of record [r].  A record type joins
    the notation by an [Eta] instance; the setter of each field is then
    derived by [mk_setter]. *)
Class Eta (R : Type) := eta : R -> R.
Class Setter {R T : Type} (proj : R -> T) := set_field : (T -> T) -> R -> R.
Arguments set_field {R T} proj {_} _ _.

Ltac mk_setter :=
  match goal with
  | |- @Setter ?R ?T ?proj =>
      let e := constr:(_ : Eta R) in
      let e := eval hnf in e in
      match eval pattern proj in e with
      | ?h _ =>
          let s := eval cbv beta in
            (fun (f : T -> T) (r : R) => h (fun r' => f (proj r')) r) in
          exact s
      end
  end.

Notation "r <| f := v |>" := (set_field f (fun _ => v) r)
  (at level 1, f at level 200, v at level 200, left associativity,
   format "r <| f  :=  v |>") : netfast_scope.
Notation "r <| f ::= g |>" := (set_field f g r)
  (at level 1, f at level 200, g at level 200, left associativity,
   format "r <| f  ::=  g |>") : netfast_scope.

(** ** Fixed-width integers *)

(** The value of a [w]-bit unsigned object after an assignment of [x]. *)
Definition wrap (w x : Z) : Z := x mod 2 ^ w.
Abbreviation u8 := (wrap 8).
Abbreviation u16 := (wrap 16).
Abbreviation u32 := (wrap 32).
Abbreviation u64 := (wrap 64).

Definition UINT16_MAX : Z := 65535.
Definition UINT32_MAX : Z := 4294967295.
Definition UINT64_MAX : Z := 18446744073709551615.

(** Conversion of a 32-bit pattern to [int32_t] (two's complement). *)
Definition s32 (x : Z) : Z :=
  let y := u32 x in if y <? 2 ^ 31 then y else y - 2 ^ 32.

Definition is_u (w x : Z) : Prop := 0 <= x < 2 ^ w.
Abbreviation is_u8 := (is_u 8).
Abbreviation is_u16 := (is_u 16).
Abbreviation is_u32 := (is_u 32).
Abbreviation is_u64 := (is_u 64).

Lemma wrap_range w x : 0 <= w -> is_u w (wrap w x).
Proof. intros. apply Z.mod_pos_bound. lia. Qed.

Lemma wrap_id w x : is_u w x -> wrap w x = x.
Proof. apply Z.mod_small. Qed.

Lemma wrap_wrap w x : 0 <= w -> wrap w (wrap w x) = wrap w x.
Proof. intros. apply wrap_id, wrap_range. done. Qed.

Lemma wrap_add_l w x y : wrap w (wrap w x + y) = wrap w (x + y).
Proof. apply Zplus_mod_idemp_l. Qed.

Lemma wrap_add_r w x y : wrap w (x + wrap w y) = wrap w (x + y).
Proof. apply Zplus_mod_idemp_r. Qed.

Lemma wrap_sub_l w x y : wrap w (wrap w x - y) = wrap w (x - y).
Proof. apply Zminus_mod_idemp_l. Qed.

Lemma wrap_sub_r w x y : wrap w (x - wrap w y) = wrap w (x - y).
Proof. apply Zminus_mod_idemp_r. Qed.

Lemma s32_range x : - 2 ^ 31 <= s32 x < 2 ^ 31.
Proof. unfold s32, wrap. case_if; bool_prop; zlia. Qed.

Lemma lor_disjoint a b : Z.land a b = 0 -> Z.lor a b = a + b.
Proof.
  intros H. rewrite <- Z.lxor_lor by done. symmetry.
  by apply Z.add_nocarry_lxor.
Qed.

(** Concatenation of bit fields written with shift and or. *)
Lemma lor_shiftl_add a b n :
  0 <= n -> 0 <= b < 2 ^ n -> Z.lor (Z.shiftl a n) b = 2 ^ n * a + b.
Proof.
  intros Hn Hb. rewrite lor_disjoint.
  - rewrite Z.shiftl_mul_pow2 by done. lia.
  - apply Z.bits_inj'. intros m Hm. rewrite Z.land_spec, Z.bits_0.
    destruct (decide (m < n)).
    + by rewrite Z.shiftl_spec_low by lia.
    + rewrite <- (Z.mod_small b (2 ^ n)), Z.mod_pow2_bits_high by lia.
      apply andb_false_r.
Qed.

(** Testing one bit with a mask. *)
Lemma land_pow2_eqb x k :
  0 <= k -> (Z.land x (2 ^ k) =? 0) = negb (Z.testbit x k).
Proof.
  intros Hk. destruct (Z.testbit x k) eqn:E; cbn.
  - apply Z.eqb_neq. intros H. apply (f_equal (fun z => Z.testbit z k)) in H.
    rewrite Z.land_spec, E, Z.pow2_bits_true, Z.bits_0 in H by lia. done.
  - apply Z.eqb_eq. apply Z.bits_inj'. intros n Hn.
    rewrite Z.land_spec, Z.bits_0, Z.pow2_bits_eqb by lia.
    destruct (Z.eqb_spec k n); subst; rewrite ?E, ?andb_false_r; done.
Qed.

(** ** Bytes and byte order

    Buffers are lists of bytes, a byte being a [Z] in [0, 256).  The target
    is little endian (x86-64): a 16-bit load of two consecutive bytes has the
    first byte in its low half, and [htons]/[htonl] swap. *)
Definition is_byte (b : Z) : Prop := 0 <= b < 256.
Abbreviation is_bytes := (Forall is_byte).

(** Byte-ness of a literal buffer. *)
Ltac solve_bytes :=
  repeat (apply Forall_cons_2; [unfold is_byte; lia|]); apply Forall_nil_2.

Definition le16 (b0 b1 : Z) : Z := b0 + 256 * b1.
Definition le16_bytes (x : Z) : list Z := [x mod 256; (x / 256) mod 256].
Definition le32_bytes (x : Z) : list Z :=
  [x mod 256; (x / 256) mod 256; (x / 65536) mod 256; (x / 16777216) mod 256].
Definition be16_bytes (x : Z) : list Z := [(x / 256) mod 256; x mod 256].
Definition be32_bytes (x : Z) : list Z :=
  [(x / 16777216) mod 256; (x / 65536) mod 256; (x / 256) mod 256; x mod 256].

Definition htons (x : Z) : Z := le16 ((x / 256) mod 256) (x mod 256).
Abbreviation ntohs := htons.

Lemma le16_range b0 b1 : is_byte b0 -> is_byte b1 -> is_u16 (le16 b0 b1).
Proof. unfold is_byte, is_u, le16. lia. Qed.

Lemma le16_le16_bytes x :
  is_u16 x -> le16 (x mod 256) ((x / 256) mod 256) = x.
Proof. unfold is_u, le16. intros. zlia. Qed.

Lemma htons_involutive x : is_u16 x -> htons (htons x) = x.
Proof. unfold is_u, htons, le16. intros. zlia. Qed.

Lemma htons_range x : is_u16 (htons x).
Proof. unfold htons. apply le16_range; apply Z.mod_pos_bound; lia. Qed.

Lemma le16_bytes_bytes x : is_bytes (le16_bytes x).
Proof. repeat constructor; apply Z.mod_pos_bound; lia. Qed.

Lemma le32_bytes_bytes x : is_bytes (le32_bytes x).
Proof. repeat constructor; apply Z.mod_pos_bound; lia. Qed.

(** ** Automation *)
Create HintDb netfast discriminated.
#[export] Hint Resolve le16_range htons_range le16_bytes_bytes
  le32_bytes_bytes s32_range : netfast.
#[export] Hint Extern 1 (is_u _ (wrap _ _)) => apply wrap_range; lia : netfast.
Create Rewrite HintDb wrap.
#[export] Hint Rewrite wrap_add_l wrap_add_r wrap_sub_l wrap_sub_r : wrap.
