(* ===== verification/Checksum.v ===== *)
(** Internet checksum (src/lib/base.c).

    [checksum_partial] sums the little-endian 16-bit words of a buffer into a
    [uint32_t]; [checksum] folds the carries and complements.  The theorems
    relate the sums to ones'-complement arithmetic (a number modulo 65535),
    show that the folding loop terminates, that a buffer carrying its own
    checksum verifies, and that a checksum can be computed piecewise. *)

From stdpp Require Import prelude list.
From Stdlib Require Import ZArith Lia.
From S2P Require Import Prelude.

(** *** Definitions *)

(** [checksum_partial(buff, len, start_sum)]; [data] holds the [len] bytes
    at [buff]. *)
Fixpoint checksum_partial (data : list Z) (start_sum : Z) : Z :=
  match data with
  | b0 :: b1 :: rest => checksum_partial rest (u32 (start_sum + le16 b0 b1))
  | [b] => u32 (start_sum + le16 b 0)
  | [] => start_sum
  end.

(** [while (sum >> 16) sum = (sum & 0xFFFF) + (sum >> 16)]; [None] means the
    fuel ran out before the loop test failed. *)
Fixpoint checksum_fold (fuel : nat) (sum : Z) : option Z :=
  match fuel with
  | O => None
  | S f =>
      if Z.shiftr sum 16 =? 0 then Some sum
      else checksum_fold f (u32 (Z.land sum 0xFFFF + Z.shiftr sum 16))
  end.

(** Three loop tests are enough for any [uint32_t] ([checksum_fold_total]). *)
Definition FOLD_FUEL : nat := 3.

(** [checksum(buff, len, start_sum)]. *)
Definition checksum (data : list Z) (start_sum : Z) : option Z :=
  match checksum_fold FOLD_FUEL (checksum_partial data start_sum) with
  | Some sum => Some (u16 (Z.lnot sum))
  | None => None
  end.

(** [struct pseudo_head]; addresses are in network order, as stored. *)
Record pseudo_head := mk_pseudo_head {
  ph_saddr : Z; ph_daddr : Z; ph_zero : Z; ph_proto : Z; ph_len : Z
}.

(** The packed object representation of a [pseudo_head]. *)
Definition pseudo_head_bytes (h : pseudo_head) : list Z :=
  le32_bytes (ph_saddr h) ++ le32_bytes (ph_daddr h) ++
  [u8 (ph_zero h); u8 (ph_proto h)] ++ le16_bytes (ph_len h).

(** [checksum_protocol(data, len, saddr, daddr, protocol)]. *)
Definition checksum_protocol (data : list Z) (saddr daddr protocol : Z)
    : option Z :=
  let head := mk_pseudo_head saddr daddr 0 protocol
                (htons (u16 (Z.of_nat (length data)))) in
  checksum data (checksum_partial (pseudo_head_bytes head) 0).

(** Reference: the mathematical sum of the 16-bit words, odd tail padded. *)
Fixpoint word_sum (data : list Z) : Z :=
  match data with
  | b0 :: b1 :: rest => le16 b0 b1 + word_sum rest
  | [b] => b
  | [] => 0
  end.

(** *** Lemmas *)

(** Induction two bytes at a time, the way the loop advances. *)
Lemma pair_ind (P : list Z -> Prop) :
  P [] -> (forall b, P [b]) ->
  (forall b0 b1 l, P l -> P (b0 :: b1 :: l)) -> forall l, P l.
Proof.
  intros H0 H1 H2. fix IH 1. intros [|b0 [|b1 l]]; [done|apply H1|].
  apply H2, IH.
Qed.

Lemma checksum_partial_word_sum data s :
  checksum_partial data s = u32 (s + word_sum data) \/ data = [].
Proof.
  revert s. induction data as [|b|b0 b1 l IH] using pair_ind; intros s.
  - by right.
  - left. cbn. unfold le16. f_equal. lia.
  - left. cbn [checksum_partial word_sum].
    destruct (IH (u32 (s + le16 b0 b1))) as [-> | ->]; cbn.
    + rewrite wrap_add_l. f_equal. lia.
    + f_equal. lia.
Qed.

Lemma checksum_partial_sum data s :
  is_u32 s -> checksum_partial data s = u32 (s + word_sum data).
Proof.
  intros Hs. destruct (checksum_partial_word_sum data s) as [H | ->]; [done|].
  cbn. rewrite Z.add_0_r. symmetry. by apply wrap_id.
Qed.

Lemma word_sum_app l1 l2 :
  Nat.even (length l1) = true -> word_sum (l1 ++ l2) = word_sum l1 + word_sum l2.
Proof.
  induction l1 as [|b|b0 b1 l IH] using pair_ind; intros He; [done|done|].
  cbn [word_sum app]. rewrite IH; [lia|done].
Qed.

Lemma word_sum_bounds data :
  is_bytes data -> 0 <= word_sum data <= 65535 * Z.of_nat (length data).
Proof.
  induction data as [|b|b0 b1 l IH] using pair_ind; intros Hb.
  - done.
  - apply Forall_cons in Hb as [Hb _]. unfold is_byte in Hb. cbn. lia.
  - apply Forall_cons in Hb as [H0 Hb]. apply Forall_cons in Hb as [H1 Hb].
    specialize (IH Hb). unfold is_byte in *. cbn [word_sum length].
    unfold le16. lia.
Qed.

Lemma word_sum_half data :
  is_bytes data -> 2 * word_sum data <= 65535 * (Z.of_nat (length data) + 1).
Proof.
  induction data as [|b|b0 b1 l IH] using pair_ind; intros Hb.
  - cbn. lia.
  - apply Forall_cons in Hb as [Hb _]. unfold is_byte in Hb. cbn. lia.
  - apply Forall_cons in Hb as [H0 Hb]. apply Forall_cons in Hb as [H1 Hb].
    specialize (IH Hb). unfold is_byte in *. cbn [word_sum length].
    unfold le16. lia.
Qed.

(** The ones'-complement representative of [x] in [0, 65535]: zero only for
    zero, 65535 for the other multiples of 65535. *)
Definition ones_complement (x : Z) : Z :=
  if x =? 0 then 0 else (x - 1) mod 65535 + 1.

Lemma ones_complement_range x : 0 <= x -> 0 <= ones_complement x <= 65535.
Proof. unfold ones_complement. intros. case_if; bool_prop; zlia. Qed.

Lemma ones_complement_small x :
  0 <= x < 65536 -> ones_complement x = x.
Proof. unfold ones_complement. intros. case_if; bool_prop; zlia. Qed.

Lemma ones_complement_fold x :
  0 <= x -> ones_complement (x mod 65536 + x / 65536) = ones_complement x.
Proof.
  intros Hx. unfold ones_complement.
  destruct (x =? 0) eqn:E; bool_prop; [subst; done|].
  destruct (x mod 65536 + x / 65536 =? 0) eqn:E1; bool_prop; [zlia|].
  f_equal. replace (x - 1) with (x mod 65536 + x / 65536 - 1 + (x / 65536) * 65535)
    by (pose proof (Z.div_mod x 65536); lia).
  rewrite Z_mod_plus_full. done.
Qed.

Lemma fold_step s :
  is_u32 s ->
  u32 (Z.land s 0xFFFF + s / 2 ^ 16) = s mod 65536 + s / 65536.
Proof.
  unfold is_u. intros Hs.
  change 0xFFFF with (Z.ones 16). rewrite Z.land_ones by lia.
  apply wrap_id. unfold is_u. zlia.
Qed.

(** One test more than the number of folds: a [uint32_t] needs at most two. *)
Lemma checksum_fold_total s :
  is_u32 s -> checksum_fold FOLD_FUEL s = Some (ones_complement s).
Proof.
  intros Hs. assert (Hz : 0 <= s) by (unfold is_u in Hs; lia).
  unfold FOLD_FUEL. cbn [checksum_fold]. rewrite !Z.shiftr_div_pow2 by lia.
  case_if; bool_prop.
  { rewrite ones_complement_small; [done|]. unfold is_u in Hs. zlia. }
  rewrite fold_step by done.
  assert (H1 : is_u32 (s mod 65536 + s / 65536)) by (unfold is_u in *; zlia).
  rewrite <- (ones_complement_fold s) by lia.
  case_if; bool_prop.
  { rewrite ones_complement_small; [done|]. unfold is_u in *. zlia. }
  rewrite fold_step by done.
  set (t := s mod 65536 + s / 65536) in *.
  assert (Ht : 0 <= t < 131071) by (unfold is_u in *; zlia).
  rewrite <- (ones_complement_fold t) by lia.
  replace (_ =? 0) with true by (symmetry; apply Z.eqb_eq; zlia).
  rewrite ones_complement_small; [done|]. zlia.
Qed.

Lemma u16_lnot x : is_u16 x -> u16 (Z.lnot x) = 65535 - x.
Proof.
  unfold is_u, wrap. intros H. unfold Z.lnot.
  replace (Z.pred (- x)) with (65535 - x + (-1) * 2 ^ 16) by lia.
  rewrite Z_mod_plus_full. apply Z.mod_small. lia.
Qed.

(** Characterisation of [checksum] when the [uint32_t] sum does not wrap. *)
Lemma checksum_char data s :
  is_bytes data -> 0 <= s -> s + word_sum data < 2 ^ 32 ->
  checksum data s = Some (65535 - ones_complement (s + word_sum data)).
Proof.
  intros Hb Hs Hlt. pose proof (word_sum_bounds data Hb) as Hw.
  assert (Hu : is_u32 (s + word_sum data)) by (unfold is_u; lia).
  unfold checksum.
  rewrite checksum_partial_sum by (unfold is_u; lia).
  rewrite (wrap_id _ _ Hu), checksum_fold_total by done. f_equal.
  apply u16_lnot. pose proof (ones_complement_range (s + word_sum data)).
  unfold is_u. lia.
Qed.

Lemma word_sum_set pre c post :
  Nat.even (length pre) = true -> is_u16 c ->
  word_sum (pre ++ le16_bytes c ++ post) =
  word_sum (pre ++ [0; 0] ++ post) + c.
Proof.
  intros He Hc. rewrite !word_sum_app by done.
  unfold le16_bytes. cbn [app word_sum]. rewrite le16_le16_bytes by done.
  unfold le16. lia.
Qed.

Lemma ones_complement_own x :
  0 <= x -> ones_complement (x + (65535 - ones_complement x)) = 65535.
Proof.
  intros Hx. unfold ones_complement.
  destruct (x =? 0) eqn:E; bool_prop; [subst; done|].
  case_if; bool_prop; zlia.
Qed.

Lemma word_sum_packet data :
  is_bytes data -> Z.of_nat (length data) <= 65536 ->
  0 <= word_sum data <= 2147483648.
Proof.
  intros Hb Hl. pose proof (word_sum_half data Hb).
  pose proof (word_sum_bounds data Hb). lia.
Qed.

Lemma pseudo_head_bytes_bytes h : is_bytes (pseudo_head_bytes h).
Proof.
  unfold pseudo_head_bytes. rewrite !Forall_app.
  repeat split; auto with netfast.
  repeat constructor; apply (wrap_range 8); lia.
Qed.

Lemma checksum_store pre post s :
  Nat.even (length pre) = true -> is_bytes pre -> is_bytes post ->
  Z.of_nat (length pre + 2 + length post) <= 65536 -> 0 <= s <= 2 ^ 20 ->
  exists c, checksum (pre ++ [0; 0] ++ post) s = Some c /\ is_u16 c /\
    checksum (pre ++ le16_bytes c ++ post) s = Some 0.
Proof.
  intros He Hp Hq Hl Hs.
  assert (Hd : is_bytes (pre ++ [0; 0] ++ post)).
  { rewrite !Forall_app. repeat split; try done. repeat constructor; done. }
  pose proof (word_sum_packet _ Hd) as Hw. rewrite !length_app in Hw. cbn [length] in Hw.
  set (x := s + word_sum (pre ++ [0; 0] ++ post)).
  pose proof (ones_complement_range x) as Hr.
  assert (Hx : 0 <= x <= 2 ^ 20 + 2147483648) by (unfold x; lia).
  assert (Hc : is_u16 (65535 - ones_complement x)) by (unfold is_u; lia).
  exists (65535 - ones_complement x). split_and!; [|done|].
  - apply checksum_char; [done|lia|]. fold x. lia.
  - rewrite checksum_char; rewrite ?word_sum_set by done.
    + fold x. rewrite Z.add_assoc. fold x.
      rewrite ones_complement_own; [done|lia].
    + rewrite !Forall_app. auto using le16_bytes_bytes.
    + lia.
    + rewrite Z.add_assoc. fold x. lia.
Qed.

Lemma pseudo_head_sum h :
  0 <= checksum_partial (pseudo_head_bytes h) 0 <= 2 ^ 20.
Proof.
  rewrite checksum_partial_sum by done.
  pose proof (word_sum_bounds _ (pseudo_head_bytes_bytes h)) as H.
  change (length (pseudo_head_bytes h)) with 12%nat in H.
  rewrite wrap_id; unfold is_u; lia.
Qed.

(** *** Properties *)

(** a buffer that carries its own checksum verifies.  Computing
    [checksum] over a packet whose 16-bit checksum field, at an even offset,
    is zero and storing the result in the field makes a second [checksum] of
    the packet return 0, for every initial partial sum of a pseudo header and
    every packet of at most 64 KiB. *)
Theorem checksum_verifies pre post s :
  Nat.even (length pre) = true -> is_bytes pre -> is_bytes post ->
  Z.of_nat (length pre + 2 + length post) <= 65536 -> 0 <= s <= 2 ^ 20 ->
  exists c, checksum (pre ++ [0; 0] ++ post) s = Some c /\ is_u16 c /\
    checksum (pre ++ le16_bytes c ++ post) s = Some 0.
Proof. apply checksum_store. Qed.

Lemma checksum_verifies_witness :
  exists c, checksum ([69; 0; 0; 20] ++ [0; 0] ++ [10; 0; 7]) 12 = Some c /\
    is_u16 c /\ checksum ([69; 0; 0; 20] ++ le16_bytes c ++ [10; 0; 7]) 12 = Some 0.
Proof.
  apply (checksum_verifies [69; 0; 0; 20] [10; 0; 7] 12);
    [done|solve_bytes|solve_bytes|cbn; lia|lia].
Defined.

(** a TCP or UDP segment filled in by the sender verifies at the
    receiver.  Whatever the addresses, the protocol and the payload, storing
    [checksum_protocol] of the segment (checksum field zero, at an even
    offset) in the checksum field makes [checksum_protocol] of the received
    segment with the same pseudo header return 0. *)
Theorem checksum_protocol_verifies pre post saddr daddr protocol :
  Nat.even (length pre) = true -> is_bytes pre -> is_bytes post ->
  Z.of_nat (length pre + 2 + length post) <= 65536 ->
  exists c, checksum_protocol (pre ++ [0; 0] ++ post) saddr daddr protocol = Some c
    /\ is_u16 c
    /\ checksum_protocol (pre ++ le16_bytes c ++ post) saddr daddr protocol = Some 0.
Proof.
  intros He Hp Hq Hl. unfold checksum_protocol.
  assert (Hlen : forall c, length (pre ++ le16_bytes c ++ post) =
                           length (pre ++ [0; 0] ++ post))
    by (intros; rewrite !length_app; done).
  setoid_rewrite Hlen. apply checksum_store; try done.
  apply pseudo_head_sum.
Qed.

Lemma checksum_protocol_verifies_witness :
  exists c,
    checksum_protocol ([4; 210; 0; 53; 0; 11] ++ [0; 0] ++ [97; 98; 99]) 16777343 33554559 17
      = Some c /\ is_u16 c /\
    checksum_protocol ([4; 210; 0; 53; 0; 11] ++ le16_bytes c ++ [97; 98; 99])
      16777343 33554559 17 = Some 0.
Proof.
  apply (checksum_protocol_verifies [4; 210; 0; 53; 0; 11] [97; 98; 99]);
    [done|solve_bytes|solve_bytes|cbn; lia].
Defined.

(** [checksum] returns 0 exactly when the 16-bit words of the buffer and
    the initial sum add up to a positive multiple of 65535: a received packet
    is accepted iff its ones'-complement sum is minus zero. *)
Theorem checksum_zero_iff data s :
  is_bytes data -> 0 <= s -> s + word_sum data < 2 ^ 32 ->
  checksum data s = Some 0 <->
    0 < s + word_sum data /\ (s + word_sum data) mod 65535 = 0.
Proof.
  intros Hb Hs Hlt. rewrite checksum_char by done.
  pose proof (word_sum_bounds data Hb).
  unfold ones_complement. case_if; bool_prop; split; intros Hx.
  - discriminate.
  - lia.
  - injection Hx as Hx. split; [lia|]. zlia.
  - f_equal. destruct Hx as [? Hx]. zlia.
Qed.

Lemma checksum_zero_iff_witness :
  checksum [255; 255; 1; 0; 254; 255] 0 = Some 0 <->
    0 < 0 + word_sum [255; 255; 1; 0; 254; 255] /\
    (0 + word_sum [255; 255; 1; 0; 254; 255]) mod 65535 = 0.
Proof.
  apply (checksum_zero_iff [255; 255; 1; 0; 254; 255] 0);
    [solve_bytes|lia|reflexivity].
Defined.
