(* ===== verification/Rss.v ===== *)
(** Receive-side scaling (src/lib/rss.c): the Toeplitz hash over the flow
    tuple and the choice of a worker by it.

    The code keeps a sliding 32-bit window over the key and updates it one
    bit per data bit.  It is shown equal to the defining sum of Toeplitz
    hashing: the exclusive or, over the set bits [i] of the input, of the key
    bits [i .. i+31]. *)

From stdpp Require Import prelude list.
From Stdlib Require Import ZArith Lia.
From S2P Require Import Prelude.

(** *** Definitions *)

Definition TOEPLITZ_RSS_DEFAULT_KEY : list Z :=
  [0x6d; 0x5a; 0x56; 0xda; 0x25; 0x5b; 0x0e; 0xc2;
   0x41; 0x67; 0x25; 0x3d; 0x43; 0xa3; 0x8f; 0xb0;
   0xd0; 0xca; 0x2b; 0xcb; 0xae; 0x7b; 0x30; 0xb4;
   0x77; 0xcb; 0x2d; 0xa3; 0x80; 0x30; 0xf2; 0x0c;
   0x6a; 0x42; 0xb7; 0x3b; 0xbe; 0xac; 0x01; 0xfa].

(** The values of [mask] in [for (mask = 0x80; mask != 0; mask >>= 1)]. *)
Definition masks : list Z := [0x80; 0x40; 0x20; 0x10; 8; 4; 2; 1].

(** Body of the inner loop on the pair [(hash, key_window)]. *)
Definition toeplitz_bit (data_byte key_byte : Z) (st : Z * Z) (mask : Z)
    : Z * Z :=
  let '(hash, key_window) := st in
  (if Z.land data_byte mask =? 0 then hash else Z.lxor hash key_window,
   Z.lor (u32 (Z.shiftl key_window 1))
         (if Z.land key_byte mask =? 0 then 0 else 1)).

(** The outer loop from byte [i] on; [data] is the rest of the input. *)
Fixpoint toeplitz_loop (key : list Z) (key_position : nat) (data : list Z)
    (st : Z * Z) : Z * Z :=
  match data with
  | [] => st
  | data_byte :: data' =>
      let '(key_byte, key_position') :=
        if (key_position <? length key)%nat
        then (default 0 (key !! key_position), S key_position)
        else (0, key_position) in
      toeplitz_loop key key_position' data'
        (foldl (toeplitz_bit data_byte key_byte) st masks)
  end.

Definition toeplitz_hash (key data : list Z) : Z :=
  match key with
  | k0 :: k1 :: k2 :: k3 :: _ =>
      let key_window :=
        Z.lor (Z.lor (Z.lor (Z.shiftl k0 24) (Z.shiftl k1 16)) (Z.shiftl k2 8)) k3 in
      fst (toeplitz_loop key 4 data (0, key_window))
  | _ => 0
  end.

Definition AF_INET : Z := 2.
Definition AF_INET6 : Z := 10.

(** [select_worker_by_tuple]: the index into [g_workers] (the code returns
    the element's address); ports are in network order, as stored. *)
Definition select_worker_by_tuple (g_workers_null : bool) (g_worker_num : Z)
    (family : Z) (saddr daddr : list Z) (sport dport : Z) : option Z :=
  if g_workers_null || (g_worker_num <=? 0) then None
  else
    let addr_len := if family =? AF_INET6 then 16%nat else 4%nat in
    let tuple := take addr_len saddr ++ take addr_len daddr ++
                 le16_bytes sport ++ le16_bytes dport in
    Some (toeplitz_hash TOEPLITZ_RSS_DEFAULT_KEY tuple mod g_worker_num).

(** Reference definition.  Bit 0 of a byte string is the top bit of its first
    byte; bits past the end are 0. *)
Definition bit_at (l : list Z) (i : nat) : bool :=
  Z.testbit (default 0 (l !! (i / 8)%nat)) (7 - Z.of_nat (i mod 8)).

(** The number whose [k] bits, most significant first, are [f 0 .. f (k-1)]. *)
Fixpoint of_bits (f : nat -> bool) (k : nat) : Z :=
  match k with
  | O => 0
  | S k' => 2 * of_bits f k' + Z.b2z (f k')
  end.

Definition key_bits (key : list Z) (i : nat) : Z :=
  of_bits (fun j => bit_at key (i + j)) 32.

Definition toeplitz_term (key data : list Z) (i : nat) : Z :=
  if bit_at data i then key_bits key i else 0.

Definition toeplitz_spec (key data : list Z) : Z :=
  foldl Z.lxor 0 (toeplitz_term key data <$> seq 0 (8 * length data)).

(** *** Lemmas *)

Lemma of_bits_range f k : 0 <= of_bits f k < 2 ^ Z.of_nat k.
Proof.
  induction k as [|k IH]; [cbn; lia|].
  rewrite Nat2Z.inj_succ, Z.pow_succ_r by lia. cbn [of_bits].
  destruct (f k); cbn; lia.
Qed.

Lemma of_bits_S f k : of_bits f (S k) = 2 * of_bits f k + Z.b2z (f k).
Proof. done. Qed.

Lemma of_bits_shift f k :
  of_bits f (S k) = 2 ^ Z.of_nat k * Z.b2z (f O) + of_bits (fun j => f (S j)) k.
Proof.
  induction k as [|k IH]; [cbn; lia|].
  rewrite of_bits_S.
  rewrite IH, Nat2Z.inj_succ, Z.pow_succ_r by lia. cbn [of_bits]. lia.
Qed.

Lemma of_bits_ext f g k :
  (forall j, (j < k)%nat -> f j = g j) -> of_bits f k = of_bits g k.
Proof.
  induction k as [|k IH]; intros H; [done|]. cbn [of_bits].
  rewrite IH by auto. rewrite H by lia. done.
Qed.

Lemma of_bits_app f a b :
  of_bits f (a + b) = 2 ^ Z.of_nat b * of_bits f a + of_bits (fun j => f (a + j)%nat) b.
Proof.
  induction b as [|b IH]; [rewrite Nat.add_0_r; cbn; lia|].
  rewrite Nat.add_succ_r, Nat2Z.inj_succ, Z.pow_succ_r by lia.
  cbn [of_bits]. rewrite IH. lia.
Qed.

Lemma lor_even_bit x (b : bool) :
  x mod 2 = 0 -> Z.lor x (Z.b2z b) = x + Z.b2z b.
Proof.
  intros Hx. apply lor_disjoint. destruct b; cbn; [|apply Z.land_0_r].
  change 1 with (Z.ones 1). by rewrite Z.land_ones by lia.
Qed.

Lemma byte_bits b : is_byte b -> of_bits (fun j => Z.testbit b (7 - Z.of_nat j)) 8 = b.
Proof.
  intros Hb. unfold is_byte in Hb.
  assert (Hall : forallb (fun n => of_bits (fun j => Z.testbit (Z.of_nat n) (7 - Z.of_nat j)) 8
                                   =? Z.of_nat n) (seq 0 256) = true) by (vm_compute; done).
  rewrite forallb_forall in Hall. specialize (Hall (Z.to_nat b)).
  rewrite Z2Nat.id in Hall by lia. apply Z.eqb_eq, Hall, in_seq. lia.
Qed.

Lemma bit_at_cons k l i : bit_at (k :: l) (8 + i) = bit_at l i.
Proof.
  unfold bit_at. pose proof (Nat.div_add_l 1 8 i ltac:(lia)) as Hd.
  pose proof (Nat.Div0.mod_add i 1 8) as Hm. rewrite Nat.mul_1_l in Hd, Hm.
  rewrite Hd. rewrite (Nat.add_comm 8 i), Hm. done.
Qed.

Lemma bit_at_head k l j :
  (j < 8)%nat -> bit_at (k :: l) j = Z.testbit k (7 - Z.of_nat j).
Proof.
  intros Hj. unfold bit_at. by rewrite Nat.div_small, Nat.mod_small by done.
Qed.

Lemma of_bits_cons k l n :
  is_byte k ->
  of_bits (bit_at (k :: l)) (8 + n) = 2 ^ Z.of_nat n * k + of_bits (bit_at l) n.
Proof.
  intros Hk. rewrite of_bits_app. f_equal.
  - f_equal. rewrite (of_bits_ext _ (fun j => Z.testbit k (7 - Z.of_nat j))).
    + by apply byte_bits.
    + intros j Hj. by apply bit_at_head.
  - apply of_bits_ext. intros j _. apply bit_at_cons.
Qed.

Lemma key_bits_unfold key i :
  key_bits key i = of_bits (fun j => bit_at key (i + j)) 32.
Proof. done. Qed.

(** The initial window is the first four key bytes. *)
Lemma key_window_init k0 k1 k2 k3 l :
  is_byte k0 -> is_byte k1 -> is_byte k2 -> is_byte k3 ->
  Z.lor (Z.lor (Z.lor (Z.shiftl k0 24) (Z.shiftl k1 16)) (Z.shiftl k2 8)) k3
  = key_bits (k0 :: k1 :: k2 :: k3 :: l) 0.
Proof.
  intros H0 H1 H2 H3. rewrite key_bits_unfold. cbn [Nat.add].
  change 32%nat with (8 + (8 + (8 + (8 + 0))))%nat.
  rewrite !of_bits_cons by done. cbn [of_bits Nat.add Z.of_nat Pos.of_succ_nat Pos.succ].
  unfold is_byte in *. rewrite <- !Z.lor_assoc.
  rewrite (lor_shiftl_add k2), (lor_shiftl_add k1), (lor_shiftl_add k0)
    by (norm_pow; lia).
  norm_pow. lia.
Qed.

#[local] Opaque of_bits bit_at key_bits.

(** Sliding the window by one bit. *)
Lemma key_bits_step key i :
  Z.lor (u32 (Z.shiftl (key_bits key i) 1)) (Z.b2z (bit_at key (i + 32)))
  = key_bits key (S i).
Proof.
  rewrite Z.shiftl_mul_pow2 by lia. unfold wrap.
  rewrite lor_even_bit by zlia.
  pose proof (of_bits_shift (fun j => bit_at key (i + j)) 32) as Hs.
  rewrite of_bits_S, <- key_bits_unfold in Hs.
  assert (He : of_bits (fun j => bit_at key (i + S j)) 32 = key_bits key (S i)).
  { rewrite key_bits_unfold. apply of_bits_ext. intros j _. by rewrite Nat.add_succ_r. }
  rewrite He in Hs.
  pose proof (of_bits_range (fun j => bit_at key (S i + j)) 32) as Hr.
  rewrite <- key_bits_unfold in Hr.
  change (Z.of_nat 32) with 32 in *.
  destruct (bit_at key (i + 32)), (bit_at key (i + 0)); cbn [Z.b2z] in *; zlia.
Qed.

Lemma toeplitz_bit_step key data d kb i h r :
  (r < 8)%nat ->
  Z.testbit d (7 - Z.of_nat r) = bit_at data i ->
  Z.testbit kb (7 - Z.of_nat r) = bit_at key (i + 32) ->
  toeplitz_bit d kb (h, key_bits key i) (2 ^ (7 - Z.of_nat r))
  = (Z.lxor h (toeplitz_term key data i), key_bits key (S i)).
Proof.
  intros Hr Hd Hk. unfold toeplitz_bit, toeplitz_term.
  rewrite !land_pow2_eqb, Hd, Hk by lia. f_equal.
  - destruct (bit_at data i); [done|]. by rewrite Z.lxor_0_r.
  - rewrite <- key_bits_step. by destruct (bit_at key (i + 32)).
Qed.

(** The inner loop from bit [r] on handles the input bits [i+r ..]. *)
Lemma toeplitz_byte_steps key data d kb i m :
  (forall r, (r < 8)%nat -> Z.testbit d (7 - Z.of_nat r) = bit_at data (i + r)) ->
  (forall r, (r < 8)%nat -> Z.testbit kb (7 - Z.of_nat r) = bit_at key (i + r + 32)) ->
  forall r h, (r + m <= 8)%nat ->
  foldl (toeplitz_bit d kb) (h, key_bits key (i + r))
    ((fun r => 2 ^ (7 - Z.of_nat r)) <$> seq r m)
  = (foldl Z.lxor h (toeplitz_term key data <$> seq (i + r) m),
     key_bits key (i + r + m)).
Proof.
  intros Hd Hk. induction m as [|m IH]; intros r h Hr.
  - cbn. by rewrite Nat.add_0_r.
  - cbn [seq fmap list_fmap foldl].
    rewrite (toeplitz_bit_step key data) by auto with lia.
    rewrite <- Nat.add_succ_r, IH by lia.
    by replace (i + S r + m)%nat with (i + r + S m)%nat by lia.
Qed.

Lemma bit_at_skip l1 b l2 r :
  (r < 8)%nat ->
  bit_at (l1 ++ b :: l2) (8 * length l1 + r) = Z.testbit b (7 - Z.of_nat r).
Proof.
  intros Hr. induction l1 as [|a l1 IH].
  - by apply bit_at_head.
  - cbn [length app]. replace (8 * S (length l1) + r)%nat
      with (8 + (8 * length l1 + r))%nat by lia.
    by rewrite bit_at_cons.
Qed.

(** The key byte fetched in iteration [n] supplies the bits entering the
    window, zeros once the key is used up. *)
Lemma bit_at_key key n r :
  (r < 8)%nat ->
  bit_at key (8 * n + r + 32) =
  Z.testbit (default 0 (key !! (4 + n)%nat)) (7 - Z.of_nat r).
Proof.
  intros Hr. Transparent bit_at. unfold bit_at.
  replace (8 * n + r + 32)%nat with ((4 + n) * 8 + r)%nat by lia.
  rewrite Nat.div_add_l, Nat.div_small by lia.
  rewrite (Nat.add_comm ((4 + n) * 8) r), Nat.Div0.mod_add, Nat.mod_small by lia.
  by rewrite Nat.add_0_r.
Qed.

#[local] Opaque bit_at.

Lemma toeplitz_loop_correct key rest : forall prefix h,
  (4 <= length key)%nat ->
  let n := length prefix in
  fst (toeplitz_loop key (Nat.min (4 + n) (length key)) rest (h, key_bits key (8 * n)))
  = foldl Z.lxor h
      (toeplitz_term key (prefix ++ rest) <$> seq (8 * n) (8 * length rest)).
Proof.
  induction rest as [|d rest IH]; intros prefix h Hk n; [done|].
  cbn [toeplitz_loop].
  set (kb := default 0 (key !! (4 + n)%nat)).
  assert (Hn : (if (Nat.min (4 + n) (length key) <? length key)%nat
     then (default 0 (key !! Nat.min (4 + n) (length key)), S (Nat.min (4 + n) (length key)))
     else (0, Nat.min (4 + n) (length key))) = (kb, Nat.min (4 + S n) (length key))).
  { unfold kb. destruct (Nat.ltb_spec (Nat.min (4 + n) (length key)) (length key)).
    - rewrite Nat.min_l by lia. apply (f_equal2 pair); [done|lia].
    - rewrite lookup_ge_None_2 by lia. apply (f_equal2 pair); [done|lia]. }
  rewrite Hn.
  pose proof (toeplitz_byte_steps key (prefix ++ d :: rest) d kb (8 * n) 8) as Hb.
  specialize (Hb (fun r Hr => eq_sym (bit_at_skip prefix d rest r Hr))).
  specialize (Hb (fun r Hr => eq_sym (bit_at_key key n r Hr)) O h ltac:(lia)).
  rewrite !Nat.add_0_r in Hb.
  change masks with ((fun r => 2 ^ (7 - Z.of_nat r)) <$> seq 0 8). rewrite Hb.
  specialize (IH (prefix ++ [d])). cbn zeta in IH.
  rewrite length_app in IH. cbn [length] in IH.
  replace (8 * n + 8)%nat with (8 * (n + 1))%nat by lia.
  replace (4 + S n)%nat with (4 + (n + 1))%nat by lia.
  fold n in IH. rewrite IH by done. rewrite <- app_assoc. cbn [app length].
  replace (8 * S (length rest))%nat with (8 + 8 * length rest)%nat by lia.
  rewrite seq_app, fmap_app, foldl_app.
  by replace (8 * (n + 1))%nat with (8 * n + 8)%nat by lia.
Qed.

Lemma foldl_lxor_acc l : forall a, foldl Z.lxor a l = Z.lxor a (foldl Z.lxor 0 l).
Proof.
  induction l as [|x l IH]; intros a; cbn [foldl]; [by rewrite Z.lxor_0_r|].
  rewrite IH, (IH (Z.lxor 0 x)), Z.lxor_0_l. by rewrite Z.lxor_assoc.
Qed.

Lemma toeplitz_hash_eq key data :
  is_bytes key -> (4 <= length key)%nat ->
  toeplitz_hash key data = toeplitz_spec key data.
Proof.
  intros Hb Hl. destruct key as [|k0 [|k1 [|k2 [|k3 l]]]]; cbn in Hl; try lia.
  unfold toeplitz_hash. rewrite !Forall_cons in Hb.
  rewrite (key_window_init k0 k1 k2 k3 l) by tauto.
  apply (toeplitz_loop_correct (k0 :: k1 :: k2 :: k3 :: l) data [] 0). cbn. lia.
Qed.

Lemma bit_at_lxor l1 l2 i :
  length l1 = length l2 ->
  bit_at (zip_with Z.lxor l1 l2) i = xorb (bit_at l1 i) (bit_at l2 i).
Proof.
  intros Hl. Transparent bit_at. unfold bit_at. rewrite lookup_zip_with.
  destruct (l1 !! (i / 8)%nat) as [x|] eqn:E1, (l2 !! (i / 8)%nat) as [y|] eqn:E2; cbn.
  - apply Z.lxor_spec.
  - apply lookup_lt_Some in E1. apply lookup_ge_None in E2. lia.
  - apply lookup_lt_Some in E2. apply lookup_ge_None in E1. lia.
  - by rewrite Z.bits_0.
Qed.

#[local] Opaque bit_at.

Lemma foldl_lxor_split (f g h : nat -> Z) l :
  (forall i, h i = Z.lxor (f i) (g i)) ->
  foldl Z.lxor 0 (h <$> l) = Z.lxor (foldl Z.lxor 0 (f <$> l)) (foldl Z.lxor 0 (g <$> l)).
Proof.
  intros Hh. induction l as [|i l IH]; [done|].
  cbn [fmap list_fmap foldl]. rewrite !Z.lxor_0_l.
  rewrite (foldl_lxor_acc _ (h i)), (foldl_lxor_acc _ (f i)), (foldl_lxor_acc _ (g i)), IH, Hh.
  apply Z.bits_inj'. intros n _. rewrite !Z.lxor_spec.
  by destruct (Z.testbit (f i) n), (Z.testbit (g i) n),
    (Z.testbit (foldl Z.lxor 0 (f <$> l)) n), (Z.testbit (foldl Z.lxor 0 (g <$> l)) n).
Qed.

(** *** Properties *)

(** the sliding-window implementation computes the Toeplitz hash: the
    exclusive or of the key windows [key bits i .. i+31] over the set bits
    [i] of the data, for every key of at least four bytes and data of any
    length, including data that outruns the key. *)
Theorem toeplitz_hash_correct key data :
  is_bytes key -> (4 <= length key)%nat ->
  toeplitz_hash key data = toeplitz_spec key data.
Proof. apply toeplitz_hash_eq. Qed.

Lemma toeplitz_hash_correct_witness :
  toeplitz_hash [0x6d; 0x5a; 0x56; 0xda; 0x25] [0xff; 0x01; 0x80] =
    toeplitz_spec [0x6d; 0x5a; 0x56; 0xda; 0x25] [0xff; 0x01; 0x80].
Proof.
  apply (toeplitz_hash_correct [0x6d; 0x5a; 0x56; 0xda; 0x25]);
    [solve_bytes|cbn; lia].
Defined.

(** the hash is linear over exclusive or, so flipping a set of tuple bits
    changes the hash by a value that depends only on the set. *)
Theorem toeplitz_hash_linear key d1 d2 :
  is_bytes key -> length d1 = length d2 ->
  toeplitz_hash key (zip_with Z.lxor d1 d2) =
    Z.lxor (toeplitz_hash key d1) (toeplitz_hash key d2).
Proof.
  intros Hb Hl. destruct (decide (4 <= length key)%nat) as [Hk|Hk].
  - rewrite !toeplitz_hash_eq by done. unfold toeplitz_spec.
    rewrite length_zip_with_l by lia. rewrite <- Hl. apply foldl_lxor_split.
    intros i. unfold toeplitz_term. rewrite bit_at_lxor by done.
    destruct (bit_at d1 i), (bit_at d2 i); cbn [xorb];
      by rewrite ?Z.lxor_0_l, ?Z.lxor_0_r, ?Z.lxor_nilpotent.
  - by destruct key as [|k0 [|k1 [|k2 [|k3 l]]]]; cbn in *; try lia.
Qed.

Lemma toeplitz_hash_linear_witness :
  toeplitz_hash TOEPLITZ_RSS_DEFAULT_KEY (zip_with Z.lxor [10; 0; 0; 1] [0; 0; 0; 3])
  = Z.lxor (toeplitz_hash TOEPLITZ_RSS_DEFAULT_KEY [10; 0; 0; 1])
           (toeplitz_hash TOEPLITZ_RSS_DEFAULT_KEY [0; 0; 0; 3]).
Proof.
  apply (toeplitz_hash_linear TOEPLITZ_RSS_DEFAULT_KEY); [solve_bytes|done].
Defined.

(** a worker is selected exactly when the worker table exists and is not
    empty, and the selected index is inside the table. *)
Theorem select_worker_in_range null num family saddr daddr sport dport :
  match select_worker_by_tuple null num family saddr daddr sport dport with
  | Some i => null = false /\ 0 <= i < num
  | None => null = true \/ num <= 0
  end.
Proof.
  unfold select_worker_by_tuple. destruct null; cbn [orb]; [by left|].
  case_if; bool_prop; [by right|]. split; [done|]. apply Z.mod_pos_bound. lia.
Qed.

(** Published verification vector of the default key
    (66.9.149.187:2794 to 161.142.100.80:1766). *)
Example toeplitz_vector :
  toeplitz_hash TOEPLITZ_RSS_DEFAULT_KEY
    [66; 9; 149; 187; 161; 142; 100; 80; 10; 234; 6; 230] = 0x51ccc178.
Proof. reflexivity. Qed.
