(* ===== verification/Skbuff.v ===== *)
(** Packet buffers (src/main/skbuff.c, skbuff.h, and the buffer descriptors of
    src/lib/frame_cache.c): a packet is a chain of [data_info], each a window
    [start, end) on the memory of a reference-counted frame slot.  Slots are
    shared between a packet and its clones, so the model has a memory of slots
    and the descriptors point into it.

    Pointers into a slot are offsets from its [data].  Operations run in a monad
    whose failure is a fault: a null or freed slot is used, or memory outside a
    slot is touched.  Which allocations succeed is given by a list, one entry for
    each; a new slot has the bytes its last user left.  The lists of fragments
    and queue links, and the references to routes and interfaces, are not here. *)

From stdpp Require Import prelude list gmap.
From Stdlib Require Import ZArith Lia.
From S2P Require Import Prelude Checksum.

Module Skb.

(** *** Memory *)

Record frame_slot := mk_slot { data : list Z; ref_cnt : nat }.

(** [full_size] is the data a slot holds that takes a whole frame. *)
Record mem := mk_mem {
  slots : gmap nat frame_slot; next_slot : nat; junk : nat -> nat -> Z; full_size : nat; allocs : list bool
}.

Definition set_slots (m : mem) (h : gmap nat frame_slot) : mem :=
  mk_mem h (next_slot m) (junk m) (full_size m) (allocs m).

Definition M (A : Type) : Type := mem -> option (A * mem).
#[export] Instance M_ret : MRet M := fun A x m => Some (x, m).
#[export] Instance M_bind : MBind M := fun A B f x m =>
  match x m with Some (a, m) => f a m | None => None end.

Definition fault {A} : M A := fun _ => None.

Definition load (s : option nat) : M frame_slot := fun m =>
  match s with
  | Some s => match slots m !! s with Some fs => Some (fs, m) | None => None end
  | None => None
  end.

Definition INC_REF (s : option nat) : M unit := fun m =>
  match s with
  | Some s =>
      match slots m !! s with
      | Some fs => Some (tt, set_slots m (<[s := mk_slot (data fs) (S (ref_cnt fs))]> (slots m)))
      | None => None
      end
  | None => None
  end.

(** The last reference frees the slot. *)
Definition PUT_REF (s : option nat) : M unit := fun m =>
  match s with
  | None => Some (tt, m)
  | Some s =>
      match slots m !! s with
      | Some (mk_slot d (S (S n))) => Some (tt, set_slots m (<[s := mk_slot d (S n)]> (slots m)))
      | Some (mk_slot _ 1) => Some (tt, set_slots m (delete s (slots m)))
      | _ => None
      end
  end.

Definition bytes_at (l : list Z) (off n : nat) : list Z := take n (drop off l).
Definition overwrite (l : list Z) (off : nat) (bs : list Z) : list Z := take off l ++ bs ++ drop (off + length bs) l.

(** [memcpy] out of a slot and into one; no bytes touch no memory. *)
Definition read (s : option nat) (off n : nat) : M (list Z) := fun m =>
  match n, s with
  | O, _ => Some ([], m)
  | _, Some s =>
      match slots m !! s with
      | Some fs => if (off + n <=? length (data fs))%nat then Some (bytes_at (data fs) off n, m) else None
      | None => None
      end
  | _, None => None
  end.

Definition write (s : option nat) (off : nat) (bs : list Z) : M unit := fun m =>
  match bs, s with
  | [], _ => Some (tt, m)
  | _, Some s =>
      match slots m !! s with
      | Some fs =>
          if (off + length bs <=? length (data fs))%nat
          then Some (tt, set_slots m (<[s := mk_slot (overwrite (data fs) off bs) (ref_cnt fs)]> (slots m)))
          else None
      | None => None
      end
  | _, None => None
  end.

(** Does the next allocation succeed? *)
Definition try_alloc : M bool := fun m =>
  match allocs m with
  | b :: l => Some (b, mk_mem (slots m) (next_slot m) (junk m) (full_size m) l)
  | [] => Some (false, m)
  end.

(** *** Frame slots *)

Definition frame_slot_sizes (full : nat) : list nat := [128; 254; 512; 1024; 1800; full]%nat.

Definition frame_size_class (full min_data_len : nat) : option nat :=
  let n := if (min_data_len =? 0)%nat then full else min_data_len in
  List.find (fun s => n <=? s)%nat (frame_slot_sizes full).

Definition fresh (sz : nat) : M nat := fun m =>
  let s := next_slot m in
  Some (s, mk_mem (<[s := mk_slot (junk m s <$> seq 0 sz) 1]> (slots m)) (S s) (junk m) (full_size m) (allocs m)).

(** A new slot and its size. *)
Definition frame_slot_alloc (min_data_len : nat) : M (option (nat * nat)) := fun m =>
  match frame_size_class (full_size m) min_data_len with
  | None => Some (None, m)
  | Some sz => (ok ← try_alloc; if ok : bool then s ← fresh sz; mret (Some (s, sz)) else mret None) m
  end.

Record data_info := mk_di { slot : option nat; start : nat; end_ : nat; size : nat }.

(** What [memset] leaves. *)
Definition zero_di : data_info := mk_di None 0 0 0.

Definition di_len (d : data_info) : nat := end_ d - start d.

Definition free_data_info (d : data_info) : M unit := PUT_REF (slot d).

Definition alloc_data_info (sz : nat) : M (option data_info) :=
  r ← frame_slot_alloc sz;
  match r with
  | None => mret None
  | Some (s, slot_size) =>
      ok ← try_alloc;
      if ok : bool then mret (Some (mk_di (Some s) 0 0 (if (sz =? 0)%nat then slot_size else sz)))
      else PUT_REF (Some s);; mret None
  end.

(** *** Packets *)

Definition SKB_DATA_MAX_NUM : nat := 32.

Record skb_flag := mk_flag {
  is_clone : bool; is_copy : bool; is_frag : bool; is_defrag : bool; is_forward : bool; is_hw_rcv_checksum : bool
}.

(** What a packet is for: protocol, socket, sequence number and flags of TCP,
    receiving interface, route. *)
Record skb_meta := mk_meta {
  family : Z; protocol : Z; sock : option nat; tcp_seq : Z; tcp_flag : Z; recv_if : option nat; route : option nat
}.

(** [data0], then the linked ones.  Headers are a slot and an offset. *)
Record skbuff := mk_skb {
  meta : skb_meta; tx_checksum_offset : Z;
  l2_hdr : option (nat * nat); l3_hdr : option (nat * nat); l4_hdr : option (nat * nat);
  flag : skb_flag;
  data_num : nat; data_total_len : nat; data0 : data_info; more : list data_info
}.

Definition chain (k : skbuff) : list data_info := data0 k :: more k.

Definition with_data (k : skbuff) (num total : nat) (d0 : data_info) (rest : list data_info) : skbuff :=
  mk_skb (meta k) (tx_checksum_offset k) (l2_hdr k) (l3_hdr k) (l4_hdr k) (flag k) num total d0 rest.

Definition no_meta : skb_meta := mk_meta 0 0 None 0 0 None None.
Definition no_flag : skb_flag := mk_flag false false false false false false.

(** What [CREATE_REF] gives. *)
Definition new_skb : skbuff := mk_skb no_meta 0 None None None no_flag 0 0 zero_di [].

Definition last_di (k : skbuff) : data_info := List.last (chain k) (data0 k).

(** The chain with its last descriptor replaced. *)
Definition set_last (k : skbuff) (d : data_info) : skbuff :=
  match more k with
  | [] => with_data k (data_num k) (data_total_len k) d []
  | rest => with_data k (data_num k) (data_total_len k) (data0 k) (removelast rest ++ [d])
  end.

Definition set_total (k : skbuff) (n : nat) : skbuff := with_data k (data_num k) n (data0 k) (more k).

Definition skb_data0_len (k : skbuff) : nat := di_len (data0 k).

Definition skb_pre_space (k : skbuff) : M nat := _ ← load (slot (data0 k)); mret (start (data0 k)).
Definition skb_end_space (k : skbuff) : M nat :=
  let d := last_di k in _ ← load (slot d); mret (size d - end_ d)%nat.

Fixpoint free_all (l : list data_info) : M unit :=
  match l with [] => mret tt | d :: l => free_data_info d;; free_all l end.

Definition skb_destroy (k : skbuff) : M unit := free_all (more k);; PUT_REF (slot (data0 k)).

Definition skb_alloc (sz : nat) : M (option skbuff) :=
  ok ← try_alloc;
  if negb ok then mret None
  else
    r ← frame_slot_alloc sz;
    match r with
    | None => skb_destroy new_skb;; mret None
    | Some (s, slot_size) =>
        mret (Some (with_data new_skb 1 0 (mk_di (Some s) 0 0 (if (sz =? 0)%nat then slot_size else sz)) []))
    end.

Definition skb_reserve (k : skbuff) (n : nat) : skbuff :=
  let d := data0 k in
  with_data k (data_num k) (data_total_len k) (mk_di (slot d) (start d + n) (end_ d + n) (size d)) (more k).

(** *** Taking bytes off the front *)

(** The loop of [skb_consume] when the bytes may span descriptors. *)
Fixpoint consume_loop (d0 : data_info) (rest : list data_info) (num remaining : nat) : M (data_info * list data_info * nat) :=
  if (remaining =? 0)%nat then mret (d0, rest, num)
  else
    let len := di_len d0 in
    if (remaining <? len)%nat then mret (mk_di (slot d0) (start d0 + remaining) (end_ d0) (size d0), rest, num)
    else if (num =? 1)%nat then PUT_REF (slot d0);; mret (zero_di, [], 0%nat)
    else
      match rest with
      | [] => fault
      | next :: rest => PUT_REF (slot d0);; consume_loop next rest (num - 1) (remaining - len)
      end.

Definition skb_consume (k : skbuff) (n : nat) (linear : bool) : M (nat * skbuff) :=
  let consumed := Nat.min n (data_total_len k) in
  if (consumed =? 0)%nat then mret (0%nat, k)
  else if linear then
    let consumed := Nat.min consumed (skb_data0_len k) in
    let d := data0 k in
    let d := mk_di (slot d) (start d + consumed) (end_ d) (size d) in
    let total := (data_total_len k - consumed)%nat in
    if (di_len d =? 0)%nat then
      if (1 <? data_num k)%nat then
        match more k with
        | [] => fault
        | next :: rest => PUT_REF (slot d);; mret (consumed, with_data k (data_num k - 1) total next rest)
        end
      else PUT_REF (slot d);; mret (consumed, with_data k 0 total zero_di [])
    else mret (consumed, with_data k (data_num k) total d (more k))
  else
    '(d0, rest, num) ← consume_loop (data0 k) (more k) (data_num k) consumed;
    mret (consumed, with_data k num (data_total_len k - consumed) d0 rest).

(** *** Growing *)

Definition skb_data_expand (k : skbuff) (n : nat) (begin : bool) : M (bool * skbuff) :=
  if begin then
    pre_space ← skb_pre_space k;
    let d := data0 k in
    if (n <=? pre_space)%nat then
      mret (true, with_data k (data_num k) (data_total_len k + n) (mk_di (slot d) (start d - n) (end_ d) (size d)) (more k))
    else mret (false, k)
  else
    end_space ← skb_end_space k;
    let d := last_di k in
    if (n <=? end_space)%nat then
      mret (true, set_total (set_last k (mk_di (slot d) (start d) (end_ d + n) (size d))) (data_total_len k + n))
    else mret (false, k).

(** True when there is room; the bytes are the caller's to write at [start]. *)
Definition skb_data_push (k : skbuff) (n : nat) : M (bool * skbuff) :=
  '(ok, k') ← skb_data_expand k n true;
  if ok : bool then mret (true, k')
  else if (SKB_DATA_MAX_NUM <=? data_num k)%nat then mret (false, k)
  else
    ok ← try_alloc;
    if negb ok then mret (false, k)
    else
      r ← frame_slot_alloc n;
      match r with
      | None => mret (false, k)
      | Some (s, slot_size) =>
          mret (true, with_data k (data_num k + 1) (data_total_len k + n) (mk_di (Some s) 0 n slot_size) (chain k))
      end.

(** A header in front, as the callers of [skb_data_push] write it. *)
Definition push_header (k : skbuff) (bs : list Z) : M (bool * skbuff) :=
  '(ok, k') ← skb_data_push k (length bs);
  if ok : bool then write (slot (data0 k')) (start (data0 k')) bs;; mret (true, k') else mret (false, k').

(** The slot and offset of the new bytes. *)
Definition skb_data_put (k : skbuff) (n : nat) : M (option (option nat * nat) * skbuff) :=
  let d := last_di k in
  '(ok, k) ← skb_data_expand k n false;
  mret (if ok : bool then Some (slot d, end_ d) else None, k).

(** *** Shortening *)

(** The walk of [skb_truncate]: the descriptors kept, the last of them cut, and
    those to free; [None] when the chain ends first. *)
Fixpoint truncate_walk (l : list data_info) (cum new_len : nat) : option (list data_info * list data_info) :=
  match l with
  | [] => None
  | d :: rest =>
      if (new_len <=? cum + di_len d)%nat then
        Some ([mk_di (slot d) (start d) (start d + (new_len - cum)) (size d)], rest)
      else
        match truncate_walk rest (cum + di_len d) new_len with
        | Some (keep, gone) => Some (d :: keep, gone)
        | None => None
        end
  end.

Definition skb_truncate (k : skbuff) (new_len : nat) : M skbuff :=
  if (data_total_len k <=? new_len)%nat then mret k
  else if (new_len =? 0)%nat then
    free_all (more k);; PUT_REF (slot (data0 k));; mret (with_data k 0 0 zero_di [])
  else
    match truncate_walk (chain k) 0 new_len with
    | Some (d0 :: keep, gone) => free_all gone;; mret (with_data k (data_num k - length gone) new_len d0 keep)
    | _ => mret k
    end.

(** *** Appending bytes *)

(** The loop of [skb_data_append] that adds descriptors: those added, and whether
    all the bytes found room. *)
Fixpoint append_loop (fuel : nat) (src : list Z) (pre_size seg_len capacity : nat) : M (bool * list data_info) :=
  match src, fuel with
  | [], _ => mret (true, [])
  | _, O => fault
  | _, S fuel =>
      let chunk := if (length src <? capacity)%nat then length src else capacity in
      r ← alloc_data_info seg_len;
      match r with
      | None => mret (false, [])
      | Some d =>
          let d := mk_di (slot d) pre_size (pre_size + chunk) (size d) in
          write (slot d) pre_size (take chunk src);;
          '(ok, added) ← append_loop fuel (drop chunk src) pre_size seg_len capacity;
          mret (ok, d :: added)
      end
  end.

Definition skb_data_append (k : skbuff) (src : list Z) (pre_size seg_len : nat) : M (bool * skbuff) :=
  let remaining := length src in
  let capacity := Z.to_nat (u32 (Z.of_nat seg_len - Z.of_nat pre_size)) in
  end_space ← skb_end_space k;
  if (end_space + capacity * (SKB_DATA_MAX_NUM - data_num k) <? remaining)%nat then mret (false, k)
  else
    let use := if (end_space =? 0)%nat then 0%nat else Nat.min remaining end_space in
    '(dst, k1) ← (if (end_space =? 0)%nat then mret (None, k) else skb_data_put k use);
    match dst with Some (s, off) => write s off (take use src) | None => mret tt end;;
    '(ok, added) ← append_loop remaining (drop use src) pre_size seg_len capacity;
    if ok : bool then
      mret (true, with_data k1 (data_num k1 + length added)
                    (data_total_len k1 + (remaining - use)) (data0 k1) (more k1 ++ added))
    else free_all added;; mret (false, k).

(** *** Reading *)

(** The copying loop of [skb_copy_bits]; [pos] is where [l] starts. *)
Fixpoint copy_loop (l : list data_info) (pos offset len : nat) : M (list Z * nat) :=
  match l with
  | [] => mret ([], len)
  | d :: rest =>
      if (len =? 0)%nat then mret ([], 0%nat)
      else
        let n := di_len d in
        let inn := if (pos <? offset)%nat then (offset - pos)%nat else 0%nat in
        let tk := if (n - inn <? len)%nat then (n - inn)%nat else len in
        bs ← read (slot d) (start d + inn) tk;
        '(out, rem) ← copy_loop rest (pos + n) (offset + tk) (len - tk);
        mret (bs ++ out, rem)
  end.

(** The loop that skips descriptors before the offset. *)
Fixpoint skip_loop (l : list data_info) (pos offset : nat) : list data_info * nat :=
  match l with
  | [] => ([], pos)
  | d :: rest => if (offset <? pos + di_len d)%nat then (l, pos) else skip_loop rest (pos + di_len d) offset
  end.

Definition skb_copy_bits (k : skbuff) (offset len : nat) : M (option (list Z)) :=
  if u32 (Z.of_nat (data_total_len k) - Z.of_nat offset) <? Z.of_nat len then mret None
  else
    let '(l, pos) := skip_loop (chain k) 0 offset in
    '(out, rem) ← copy_loop l pos offset len;
    mret (if (rem =? 0)%nat then Some out else None).

(** *** Checksums *)

(** The loop of [skb_checksum]: the sum, and the odd byte carried between
    descriptors. *)
Fixpoint checksum_loop (l : list data_info) (len : nat) (sum : Z) (pending : option Z) : M (Z * option Z) :=
  match l with
  | [] => mret (sum, pending)
  | d :: rest =>
      if (len =? 0)%nat then mret (sum, pending)
      else
        let n := if (len <? di_len d)%nat then len else di_len d in
        bs ← read (slot d) (start d) n;
        let '(bs, sum, pending) :=
          match pending, bs with
          | Some p, b :: bs => (bs, checksum_partial [p; b] sum, None)
          | _, _ => (bs, sum, pending)
          end in
        let even := (length bs - length bs mod 2)%nat in
        let sum := if (even =? 0)%nat then sum else checksum_partial (take even bs) sum in
        let pending := match drop even bs with b :: _ => Some b | [] => pending end in
        checksum_loop rest (len - n) sum pending
  end.

Definition skb_checksum (k : skbuff) (len : nat) (start_sum : Z) : M (option Z) :=
  '(sum, pending) ← checksum_loop (chain k) len start_sum None;
  let sum := match pending with Some p => checksum_partial [p] sum | None => sum end in
  mret (match checksum_fold FOLD_FUEL sum with Some sum => Some (u16 (Z.lnot sum)) | None => None end).

Definition skb_checksum_protocol (k : option skbuff) (len : nat) (saddr daddr protocol : Z) : M (option Z) :=
  let sum := checksum_partial (le32_bytes saddr) 0 in
  let sum := checksum_partial (le32_bytes daddr) sum in
  let sum := checksum_partial (le16_bytes (htons (u16 protocol))) sum in
  let sum := checksum_partial (le16_bytes (htons (u16 (Z.of_nat len)))) sum in
  match k with
  | None => mret (match checksum [] sum with Some c => Some (u16 (Z.lnot c)) | None => None end)
  | Some k => skb_checksum k len sum
  end.

Definition skb_checksum_protocol6 (k : option skbuff) (len : nat) (saddr daddr : list Z) (protocol : Z) : M (option Z) :=
  let sum := checksum_partial saddr 0 in
  let sum := checksum_partial daddr sum in
  let sum := checksum_partial (be32_bytes (u32 (Z.of_nat len))) sum in
  let sum := checksum_partial [0; 0; 0; protocol] sum in
  match k with
  | None => mret (match checksum [] sum with Some c => Some (u16 (Z.lnot c)) | None => None end)
  | Some k => skb_checksum k len sum
  end.

(** *** Copies *)

Fixpoint rebase (old new : list data_info) (p : nat * nat) : option (nat * nat) :=
  match old, new with
  | o :: old, n :: new =>
      if bool_decide (slot o = Some p.1) && (start o <=? p.2)%nat && (p.2 <? end_ o)%nat then
        match slot n with Some s => Some (s, (start n + (p.2 - start o))%nat) | None => None end
      else rebase old new p
  | _, _ => None
  end.

Definition skb_rebase_data_ptr (old new : skbuff) (p : option (nat * nat)) : option (nat * nat) :=
  match p with None => None | Some p => rebase (chain old) (chain new) p end.

Definition skb_alloc_with_data_info (infos : list data_info) : M (option skbuff) :=
  ok ← try_alloc;
  if negb ok then mret None
  else
    match take SKB_DATA_MAX_NUM infos with
    | [] => mret (Some new_skb)
    | d0 :: rest =>
        mret (Some (with_data new_skb (S (length rest)) (sum_list_with di_len (d0 :: rest)) d0 rest))
    end.

(** The linked descriptors of a clone: those made, and whether all were. *)
Fixpoint clone_loop (l : list data_info) : M (bool * list data_info) :=
  match l with
  | [] => mret (true, [])
  | d :: rest =>
      ok ← try_alloc;
      if negb ok then mret (false, [])
      else
        INC_REF (slot d);;
        '(ok, l) ← clone_loop rest;
        mret (ok, d :: l)
  end.

Definition as_clone (f : skb_flag) : skb_flag :=
  mk_flag true (is_copy f) (is_frag f) (is_defrag f) (is_forward f) (is_hw_rcv_checksum f).
Definition as_copy (f : skb_flag) : skb_flag :=
  mk_flag (is_clone f) true (is_frag f) (is_defrag f) (is_forward f) (is_hw_rcv_checksum f).

Definition skb_clone (k : skbuff) : M (option skbuff) :=
  ok ← try_alloc;
  if negb ok then mret None
  else
    INC_REF (slot (data0 k));;
    '(ok, rest) ← clone_loop (more k);
    let c := mk_skb (meta k) (tx_checksum_offset k) (l2_hdr k) (l3_hdr k) (l4_hdr k) (as_clone (flag k))
               (S (length rest)) (data_total_len k) (data0 k) rest in
    if ok : bool then mret (Some c) else skb_destroy c;; mret None.

(** One descriptor copied into [s]; the headroom is kept. *)
Definition copy_into (d : data_info) (s : option nat) : M data_info :=
  bs ← read (slot d) (start d) (di_len d);
  write s (start d) bs;;
  mret (mk_di s (start d) (start d + di_len d) (size d)).

Fixpoint copy_rest (l : list data_info) : M (bool * list data_info) :=
  match l with
  | [] => mret (true, [])
  | d :: rest =>
      r ← alloc_data_info (size d);
      match r with
      | None => mret (false, [])
      | Some n =>
          _ ← load (slot d);
          n ← copy_into d (slot n);
          '(ok, l) ← copy_rest rest;
          mret (ok, n :: l)
      end
  end.

Definition skb_copy (k : skbuff) : M (option skbuff) :=
  ok ← try_alloc;
  if negb ok then mret None
  else
    _ ← load (slot (data0 k));
    r ← frame_slot_alloc (size (data0 k));
    match r with
    | None => skb_destroy new_skb;; mret None
    | Some (s, _) =>
        d0 ← copy_into (data0 k) (Some s);
        '(ok, rest) ← copy_rest (more k);
        let c := with_data new_skb (S (length rest)) (data_total_len k) d0 rest in
        if ok : bool then
          mret (Some (mk_skb (meta k) (tx_checksum_offset k)
            (skb_rebase_data_ptr k c (l2_hdr k)) (skb_rebase_data_ptr k c (l3_hdr k)) (skb_rebase_data_ptr k c (l4_hdr k))
            (as_copy (flag k)) (S (length rest)) (data_total_len k) d0 rest))
        else skb_destroy c;; mret None
    end.

(** *** Splitting and joining *)

(** The walk of [skb_split]: what comes before, where the cut is and how far into
    the descriptor there. *)
Fixpoint split_walk (l : list data_info) (cum len : nat) : list data_info * list data_info * nat :=
  match l with
  | [] => ([], [], 0%nat)
  | d :: rest =>
      let n := di_len d in
      if (len <? cum + n)%nat then ([], l, (len - cum)%nat)
      else if (cum + n =? len)%nat then ([d], rest, 0%nat)
      else let '(before, after, cut) := split_walk rest (cum + n) len in (d :: before, after, cut)
  end.

Definition of_chain (k : skbuff) (num total : nat) (l : list data_info) : skbuff :=
  match l with d0 :: rest => with_data k num total d0 rest | [] => with_data k num total zero_di [] end.

(** The metadata a tail takes over. *)
Definition tail_of (k : skbuff) : skbuff := mk_skb (meta k) 0 None None None no_flag 0 0 zero_di [].

Definition skb_split (k : skbuff) (len : nat) : M (option skbuff * skbuff) :=
  if (data_total_len k <=? len)%nat then mret (None, k)
  else
    let '(before, after, cut) := split_walk (chain k) 0 len in
    ok ← try_alloc;
    if negb ok then mret (None, k)
    else
      match after with
      | d :: rest =>
          if negb (cut =? 0)%nat then
            let tail_len := (end_ d - (start d + cut))%nat in
            _ ← load (slot d);
            r ← alloc_data_info (size d);
            match r with
            | None => mret (None, k)
            | Some n =>
                bs ← read (slot d) (start d + cut) tail_len;
                write (slot n) (start d) bs;;
                let n := mk_di (slot n) (start d) (start d + tail_len) (size n) in
                let tail_count := S (length rest) in
                mret (Some (of_chain (tail_of k) tail_count (data_total_len k - len) (n :: rest)),
                      of_chain k (data_num k - (tail_count - 1)) len
                        (before ++ [mk_di (slot d) (start d) (start d + cut) (size d)]))
            end
          else
            match before with
            | [] => mret (None, k)
            | _ =>
                mret (Some (of_chain (tail_of k) (length after) (data_total_len k - len) after),
                      of_chain k (data_num k - length after) len before)
            end
      | [] => mret (None, k)
      end.

(** The copying loop of [skb_append_skb]. *)
Fixpoint append_copy (l : list data_info) (dst : option nat) (off b_len : nat) : M unit :=
  match l with
  | [] => mret tt
  | d :: rest =>
      if (b_len =? 0)%nat then mret tt
      else
        bs ← read (slot d) (start d) (di_len d);
        write dst off bs;;
        append_copy rest dst (off + di_len d) (b_len - di_len d)
  end.

(** [b] is gone when the answer is true. *)
Definition skb_append_skb (a b : skbuff) (data_copy : bool) : M (bool * skbuff) :=
  if negb data_copy && (SKB_DATA_MAX_NUM <? data_num a + data_num b)%nat then mret (false, a)
  else if data_copy then
    '(dst, a') ← skb_data_put a (data_total_len b);
    match dst with
    | None => mret (false, a)
    | Some (s, off) => append_copy (chain b) s off (data_total_len b);; skb_destroy b;; mret (true, a')
    end
  else
    ok ← try_alloc;
    if negb ok then mret (false, a)
    else
      mret (true, with_data a (data_num a + data_num b) (data_total_len a + data_total_len b) (data0 a) (more a ++ chain b)).

End Skb.
