(* ===== verification/SkbuffMem.v ===== *)
(** Packet buffers, memory and chains: what the descriptors of a packet hold, the
    exact count of references to the slots, and what each primitive of the
    memory does to them (Skbuff.v has the definitions of the code). *)

From stdpp Require Import prelude list gmap.
From Stdlib Require Import ZArith Lia.
From S2P Require Import Prelude Skbuff.
Import Skb.

(** *** What a packet holds *)

Definition di_bytes (m : mem) (d : data_info) : list Z :=
  match slot d with
  | Some s => match slots m !! s with Some fs => bytes_at (data fs) (start d) (di_len d) | None => [] end
  | None => []
  end.

Definition content (m : mem) (l : list data_info) : list Z := l ≫= di_bytes m.

(** The references to a slot in a chain. *)
Definition refs (l : list data_info) (s : nat) : nat :=
  sum_list_with (fun d => if bool_decide (slot d = Some s) then 1 else 0)%nat l.

(** The references to each slot are those of [l] and those [f] counts elsewhere,
    and a slot without any is free.  Sizes are 16-bit numbers. *)
Record own (m : mem) (l : list data_info) (f : nat -> nat) : Prop := {
  own_fresh s : (next_slot m <= s)%nat -> slots m !! s = None;
  own_refs s : match slots m !! s with
               | Some fs => ref_cnt fs = (refs l s + f s)%nat /\ (0 < ref_cnt fs)%nat
               | None => (refs l s + f s)%nat = 0%nat
               end;
  own_small s fs : slots m !! s = Some fs -> Z.of_nat (length (data fs)) <= UINT16_MAX;
  own_full : Z.of_nat (full_size m) <= UINT16_MAX
}.

(** The window lies in the slot. *)
Definition inside (m : mem) (d : data_info) : Prop :=
  exists s fs, slot d = Some s /\ slots m !! s = Some fs /\
    (start d <= end_ d)%nat /\ (end_ d <= size d)%nat /\ (size d <= length (data fs))%nat.

(** The descriptors of a chain have slots of their own. *)
Definition live (m : mem) (l : list data_info) : Prop := Forall (inside m) l /\ NoDup (slot <$> l).

Record chain_ok (m : mem) (k : skbuff) : Prop := {
  ck_total : data_total_len k = sum_list_with di_len (chain k);
  ck_chain : live m (chain k) /\ data_num k = length (chain k) /\ (data_num k <= SKB_DATA_MAX_NUM)%nat \/
             data_num k = 0%nat /\ chain k = [zero_di]
}.

(** Memory outside [W] is as it was, in the slots that were there and still are. *)
Record kept (W : nat -> nat -> Prop) (m m' : mem) : Prop := {
  kept_next : (next_slot m <= next_slot m')%nat;
  kept_full : full_size m' = full_size m;
  kept_data s fs' : (s < next_slot m)%nat -> slots m' !! s = Some fs' ->
    exists fs, slots m !! s = Some fs /\ length (data fs') = length (data fs) /\
      forall i, ~ W s i -> data fs' !! i = data fs !! i
}.

Definition nowhere (s i : nat) : Prop := False.

Definition runs {A} (c : M A) (m : mem) (Q : A -> mem -> Prop) : Prop :=
  match c m with Some (a, m') => Q a m' | None => False end.

(** *** Bytes *)

Lemma length_bytes_at l off n : (off + n <= length l)%nat -> length (bytes_at l off n) = n.
Proof. intros H. unfold bytes_at. rewrite length_take, length_drop. lia. Qed.

Lemma lookup_bytes_at l off n i : bytes_at l off n !! i = if decide (i < n)%nat then l !! (off + i)%nat else None.
Proof.
  unfold bytes_at. case_decide; [by rewrite lookup_take_lt, lookup_drop|]. apply lookup_take_ge. lia.
Qed.

Lemma bytes_at_ext l l' off n :
  (forall i, (off <= i < off + n)%nat -> l !! i = l' !! i) -> bytes_at l off n = bytes_at l' off n.
Proof.
  intros H. apply list_eq. intros i. rewrite !lookup_bytes_at. case_decide; [|done]. apply H. lia.
Qed.

Lemma bytes_at_app l off a b : bytes_at l off (a + b) = bytes_at l off a ++ bytes_at l (off + a) b.
Proof. unfold bytes_at. by rewrite <- take_take_drop, drop_drop. Qed.

Lemma length_overwrite l off bs : (off + length bs <= length l)%nat -> length (overwrite l off bs) = length l.
Proof. intros H. unfold overwrite. rewrite !length_app, length_take, length_drop. lia. Qed.

Lemma lookup_overwrite l off bs i : (off + length bs <= length l)%nat -> ~ (off <= i < off + length bs)%nat ->
  overwrite l off bs !! i = l !! i.
Proof.
  intros H Hi. unfold overwrite. destruct (decide (i < off)%nat) as [Hlt|Hge].
  - rewrite lookup_app_l by (rewrite length_take; lia). by apply lookup_take_lt.
  - rewrite lookup_app_r by (rewrite length_take; lia). rewrite length_take.
    rewrite lookup_app_r by lia. rewrite lookup_drop. f_equal. lia.
Qed.

Lemma bytes_at_overwrite l off bs : (off + length bs <= length l)%nat -> bytes_at (overwrite l off bs) off (length bs) = bs.
Proof.
  intros H. unfold bytes_at, overwrite. rewrite drop_app_length' by (rewrite length_take; lia).
  by rewrite take_app_length.
Qed.

(** *** The memory *)

Lemma runs_bind {A B} (c : M A) (g : A -> M B) m Q :
  runs c m (fun a m' => runs (g a) m' Q) -> runs (mbind g c) m Q.
Proof. unfold runs, mbind, M_bind. by destruct (c m) as [[a m']|]. Qed.

Lemma runs_ret {A} (a : A) m (Q : A -> mem -> Prop) : Q a m -> runs (mret a) m Q.
Proof. done. Qed.

Lemma runs_mono {A} (c : M A) m (P Q : A -> mem -> Prop) :
  runs c m P -> (forall a m', P a m' -> Q a m') -> runs c m Q.
Proof. unfold runs. destruct (c m) as [[a m']|]; [|done]. auto. Qed.

Lemma refs_cons d l s : refs (d :: l) s = ((if bool_decide (slot d = Some s) then 1 else 0) + refs l s)%nat.
Proof. done. Qed.

Lemma refs_app l1 l2 s : refs (l1 ++ l2) s = (refs l1 s + refs l2 s)%nat.
Proof. apply sum_list_with_app. Qed.

Lemma own_ext m l l' f f' : (forall s, refs l s + f s = refs l' s + f' s)%nat -> own m l f -> own m l' f'.
Proof.
  intros H [Hn Hr Hsm Hfu]. split; [done| |done|done]. intros s. specialize (Hr s). rewrite <- H. done.
Qed.

Lemma kept_refl W m : kept W m m.
Proof. split; [lia|done|]. intros s fs _ H. by exists fs. Qed.

Lemma kept_trans W m1 m2 m3 : kept W m1 m2 -> kept W m2 m3 -> kept W m1 m3.
Proof.
  intros [Hn Hf Hd] [Hn' Hf' Hd']. split; [lia|congruence|]. intros s fs3 Hs H3.
  destruct (Hd' s fs3 ltac:(lia) H3) as (fs2&H2&L2&E2). destruct (Hd s fs2 Hs H2) as (fs1&H1&L1&E1).
  exists fs1. split_and!; [done|congruence|]. intros i Hi. by rewrite E2, E1.
Qed.

Lemma kept_mono (W W' : nat -> nat -> Prop) m m' : (forall s i, W s i -> W' s i) -> kept W m m' -> kept W' m m'.
Proof.
  intros H [Hn Hf Hd]. split; [done..|]. intros s fs Hs Hl. destruct (Hd s fs Hs Hl) as (fs0&?&?&E).
  exists fs0. split_and!; [done..|]. intros i Hi. apply E. auto.
Qed.

Lemma refs_pos l d s : d ∈ l -> slot d = Some s -> (0 < refs l s)%nat.
Proof.
  induction l as [|a l IH]; [by intros ?%not_elem_of_nil|]. rewrite refs_cons.
  intros [->|Hd]%elem_of_cons Hs; [rewrite bool_decide_true by done|specialize (IH Hd Hs)]; lia.
Qed.

Lemma own_alive m l f s : own m l f -> (0 < refs l s + f s)%nat -> exists fs, slots m !! s = Some fs /\ (s < next_slot m)%nat.
Proof.
  intros [Hn Hr _ _] Hp. specialize (Hr s). destruct (slots m !! s) as [fs|] eqn:E; [|lia]. exists fs. split; [done|].
  destruct (decide (s < next_slot m)%nat); [done|]. rewrite Hn in E by lia. done.
Qed.

(** One slot changes. *)
Lemma own_update m l l' f s fs fs' : own m l f -> slots m !! s = Some fs -> length (data fs') = length (data fs) ->
  ref_cnt fs' = (refs l' s + f s)%nat -> (0 < ref_cnt fs')%nat -> (forall s', s' <> s -> refs l' s' = refs l s') ->
  own (set_slots m (<[s := fs']> (slots m))) l' f.
Proof.
  intros [Hn Hr Hsm Hfu] Hs Hl Hc Hp Hoth. split; cbn [slots next_slot full_size set_slots]; [..|done].
  - intros s' Hs'. destruct (decide (s' = s)) as [->|]; [rewrite Hn in Hs; done|]. rewrite lookup_insert_ne by done. auto.
  - intros s'. destruct (decide (s' = s)) as [->|]; [by rewrite lookup_insert_eq|]. rewrite lookup_insert_ne, Hoth by done. apply Hr.
  - intros s' fs0. destruct (decide (s' = s)) as [->|]; [rewrite lookup_insert_eq; intros [= <-]; rewrite Hl|rewrite lookup_insert_ne by done]; by eapply Hsm.
Qed.

Lemma kept_update (W : nat -> nat -> Prop) m s fs fs' : slots m !! s = Some fs -> length (data fs') = length (data fs) ->
  (forall i, ~ W s i -> data fs' !! i = data fs !! i) -> kept W m (set_slots m (<[s := fs']> (slots m))).
Proof.
  intros Hs Hl Hd. split; [done..|]. cbn [slots set_slots]. intros s' fs0 _.
  destruct (decide (s' = s)) as [->|]; [rewrite lookup_insert_eq; intros [= <-]; by exists fs|].
  rewrite lookup_insert_ne by done. intros H. by exists fs0.
Qed.

Lemma put_spec m d l f : own m (d :: l) f ->
  runs (PUT_REF (slot d)) m (fun _ m' => own m' l f /\ kept nowhere m m').
Proof.
  intros Ho. unfold runs, PUT_REF. destruct (slot d) as [s|] eqn:Es.
  2:{ split; [|apply kept_refl]. eapply own_ext; [|done]. intros s. rewrite refs_cons, Es. done. }
  destruct (own_alive m _ f s Ho) as (fs&Hs&Hlt); [rewrite refs_cons, Es, bool_decide_true; [lia|done]|].
  pose proof Ho as [Hn Hr Hsm Hfu]. pose proof (Hr s) as H. rewrite Hs in *. rewrite refs_cons, Es, bool_decide_true in H by done.
  assert (Hoth : forall s', s' <> s -> refs l s' = refs (d :: l) s')
    by (intros s' Hne; rewrite refs_cons, Es, bool_decide_false by congruence; done).
  destruct fs as [dt [|[|n]]]; cbn [ref_cnt] in H; [lia|..].
  - split; split; cbn [slots next_slot full_size set_slots]; [| | |done|done|done|].
    + intros s' Hs'. rewrite lookup_delete_ne by lia. auto.
    + intros s'. destruct (decide (s' = s)) as [->|Hne]; [rewrite lookup_delete_eq; lia|].
      rewrite lookup_delete_ne, Hoth by done. apply Hr.
    + intros s' fs [_ Hl]%lookup_delete_Some. by eapply Hsm.
    + intros s' fs _ [_ Hl]%lookup_delete_Some. by exists fs.
  - split; [eapply own_update; [done|done|done|cbn; lia|cbn; lia|done]|by eapply kept_update].
Qed.

Lemma inc_spec m d l f s : own m l f -> slot d = Some s -> (0 < refs l s + f s)%nat ->
  runs (INC_REF (slot d)) m (fun _ m' => own m' (d :: l) f /\ kept nowhere m m').
Proof.
  intros Ho Es Hp. destruct (own_alive m l f s Ho Hp) as (fs&Hs&Hlt). pose proof (own_refs _ _ _ Ho s) as H. rewrite Hs in H.
  unfold runs, INC_REF. rewrite Es, Hs. split; [|by eapply kept_update].
  eapply own_update; [done|done|done| |cbn; lia|].
  - rewrite refs_cons, Es, bool_decide_true by done. cbn. lia.
  - intros s' Hne. rewrite refs_cons, Es, bool_decide_false by congruence. done.
Qed.

(** The bytes written. *)
Definition range (s off n : nat) (s' i : nat) : Prop := s' = s /\ (off <= i < off + n)%nat.

Lemma write_spec m l f s fs off bs : own m l f -> slots m !! s = Some fs -> (off + length bs <= length (data fs))%nat ->
  runs (write (Some s) off bs) m (fun _ m' => own m' l f /\ kept (range s off (length bs)) m m' /\
    exists n, slots m' !! s = Some (mk_slot (overwrite (data fs) off bs) n)).
Proof.
  intros Ho Hs Hb. pose proof (own_refs _ _ _ Ho s) as H. rewrite Hs in H.
  destruct bs as [|b bs].
  { split_and!; [done|apply kept_refl|]. exists (ref_cnt fs). unfold overwrite. cbn. rewrite Nat.add_0_r, take_drop, Hs. by destruct fs. }
  unfold runs, write. rewrite Hs, (proj2 (Nat.leb_le _ _)) by done. set (bs' := b :: bs) in *. split_and!.
  - eapply own_update; [done|done|by apply length_overwrite|cbn; lia|cbn; lia|done].
  - eapply kept_update; [done|by apply length_overwrite|]. intros i Hi. apply lookup_overwrite; [done|].
    intros ?. apply Hi. by split.
  - exists (ref_cnt fs). cbn. by rewrite lookup_insert_eq.
Qed.

Lemma read_spec m s fs off n (Q : list Z -> mem -> Prop) : slots m !! s = Some fs -> (off + n <= length (data fs))%nat ->
  Q (bytes_at (data fs) off n) m -> runs (read (Some s) off n) m Q.
Proof. intros Hs Hb HQ. unfold runs, read. destruct n; [done|]. by rewrite Hs, (proj2 (Nat.leb_le _ _)) by lia. Qed.

Lemma try_alloc_spec m (Q : bool -> mem -> Prop) :
  (forall b m', slots m' = slots m -> next_slot m' = next_slot m -> full_size m' = full_size m -> Q b m') -> runs try_alloc m Q.
Proof. intros H. unfold runs, try_alloc. destruct (allocs m); by apply H. Qed.

Lemma same_slots_own m m' l f : slots m' = slots m -> next_slot m' = next_slot m -> full_size m' = full_size m -> own m l f -> own m' l f.
Proof. intros Hs Hn Hf [H1 H2 H3 H4]. split; rewrite ?Hs, ?Hn, ?Hf; done. Qed.

Lemma same_slots_kept m m' : slots m' = slots m -> next_slot m' = next_slot m -> full_size m' = full_size m -> kept nowhere m m'.
Proof. intros Hs Hn Hf. split; [lia|done|]. intros s fs _. rewrite Hs. intros H. by exists fs. Qed.

(** What an allocation gives: a slot of its own, at least as large as asked. *)
Definition new_slot_ok (m m' : mem) (n s sz : nat) (l : list data_info) (f : nat -> nat) : Prop :=
  s = next_slot m /\ (n <= sz)%nat /\ (exists fs, slots m' !! s = Some fs /\ length (data fs) = sz) /\
  forall a b c, own m' (mk_di (Some s) a b c :: l) f.

Lemma frame_slot_alloc_spec m l f n : own m l f ->
  runs (frame_slot_alloc n) m (fun r m' => kept nowhere m m' /\
    match r with None => own m' l f | Some (s, sz) => new_slot_ok m m' n s sz l f end).
Proof.
  intros Ho. unfold runs, frame_slot_alloc. destruct (frame_size_class (full_size m) n) as [sz|] eqn:Ec; [|split; [apply kept_refl|done]].
  apply List.find_some in Ec as [Hsz Hle]. apply Nat.leb_le in Hle.
  fold (runs (ok ← try_alloc; if ok : bool then s ← fresh sz; mret (Some (s, sz)) else mret None) m
    (fun r m' => kept nowhere m m' /\ match r with None => own m' l f | Some (s, sz) => new_slot_ok m m' n s sz l f end)).
  apply runs_bind, try_alloc_spec. intros b m1 Hs Hn Hf. destruct b; [|split; [by apply same_slots_kept|by eapply same_slots_own]].
  destruct Ho as [Hfr Hr Hsm Hfu]. assert (Hnone : slots m !! next_slot m = None) by (apply Hfr; lia).
  split.
  - split; cbn; [lia|done|]. intros s fs Hlt. rewrite Hs, Hn, lookup_insert_ne by lia. intros H. by exists fs.
  - unfold new_slot_ok. cbn [slots next_slot]. rewrite Hn, Hs. split_and!; [done|by destruct (n =? 0)%nat eqn:E; [apply Nat.eqb_eq in E; lia|]|..].
    + eexists. rewrite lookup_insert_eq. split; [done|]. cbn. by rewrite length_fmap, length_seq.
    + intros a b c. split; cbn [slots next_slot full_size]; [..|by rewrite Hf].
      * intros s Hle'. rewrite lookup_insert_ne by lia. apply Hfr. lia.
      * intros s. rewrite refs_cons. cbn [slot]. specialize (Hr s). destruct (decide (s = next_slot m)) as [->|Hne].
        -- rewrite Hnone in Hr. rewrite lookup_insert_eq, bool_decide_true by done. cbn. lia.
        -- rewrite lookup_insert_ne, bool_decide_false by congruence. done.
      * intros s fs. destruct (decide (s = next_slot m)) as [->|Hne]; [|rewrite lookup_insert_ne by done; apply Hsm].
        rewrite lookup_insert_eq. intros [= <-]. cbn [data]. rewrite length_fmap, length_seq. unfold UINT16_MAX in *.
        cbn in Hsz. lia.
Qed.

Lemma alloc_data_info_spec m l f n : own m l f ->
  runs (alloc_data_info n) m (fun r m' => kept nowhere m m' /\
    match r with
    | None => own m' l f
    | Some d => exists s sz, d = mk_di (Some s) 0 0 (if (n =? 0)%nat then sz else n) /\ new_slot_ok m m' n s sz l f
    end).
Proof.
  intros Ho. apply runs_bind. eapply runs_mono; [by apply frame_slot_alloc_spec|]. intros [[s sz]|] m1 [Hk H]; [|by split].
  apply runs_bind, try_alloc_spec. intros b m2 Hs Hn Hf. destruct H as (H1&H2&(fs&H3&H3')&H4). destruct b.
  - split; [eapply kept_trans; [done|by apply same_slots_kept]|]. exists s, sz. split; [done|]. split_and!; [done|done|..].
    + exists fs. by rewrite Hs.
    + intros a b c. by eapply same_slots_own.
  - apply runs_bind. eapply runs_mono; [apply (put_spec m2 (mk_di (Some s) 0 0 0) l f); by eapply same_slots_own|].
    intros _ m3 [Ho3 Hk3]. split; [|done]. eapply kept_trans; [done|]. eapply kept_trans; [by apply same_slots_kept|done].
Qed.

(** *** Chains *)

Lemma own_lt m l f s fs : own m l f -> slots m !! s = Some fs -> (s < next_slot m)%nat.
Proof. intros [Hn _ _ _] H. destruct (decide (s < next_slot m)%nat); [done|]. rewrite Hn in H by lia. done. Qed.

Section kept.
Context (W : nat -> nat -> Prop) (m m' : mem) (l0 l : list data_info) (f0 f : nat -> nat).
Hypothesis (Ho : own m l0 f0) (Ho' : own m' l f) (Hk : kept W m m').

(** The slots of [o] are still referenced. *)
Definition held (o : list data_info) : Prop :=
  forall d s, d ∈ o -> slot d = Some s -> (0 < refs l s + f s)%nat.

Lemma inside_kept d : inside m d -> held [d] -> inside m' d.
Proof.
  intros (s&fs&Hs&Hm&H1&H2&H3) Hh.
  destruct (own_alive m' l f s Ho' (Hh d s ltac:(left) Hs)) as (fs'&Hm'&_).
  destruct (kept_data _ _ _ Hk s fs' (own_lt _ _ _ _ _ Ho Hm) Hm') as (fs1&Hm1&Hl&_).
  exists s, fs'. split_and!; [done..|]. rewrite Hl. congruence.
Qed.

Lemma bytes_kept d : inside m d -> held [d] ->
  (forall s i, slot d = Some s -> (start d <= i < end_ d)%nat -> ~ W s i) -> di_bytes m' d = di_bytes m d.
Proof.
  intros (s&fs&Hs&Hm&H1&H2&H3) Hh Hw. unfold di_bytes. rewrite Hs, Hm.
  destruct (own_alive m' l f s Ho' (Hh d s ltac:(left) Hs)) as (fs'&Hm'&_). rewrite Hm'.
  destruct (kept_data _ _ _ Hk s fs' (own_lt _ _ _ _ _ Ho Hm) Hm') as (fs1&Hm1&Hl&He).
  assert (fs1 = fs) as -> by congruence. apply bytes_at_ext. intros i Hi. apply He, Hw; [done|]. unfold di_len in Hi. lia.
Qed.

Lemma held_cons d o : held (d :: o) -> held [d] /\ held o.
Proof.
  intros H. split; intros d' s Hd; [|by apply H; right]. apply list_elem_of_singleton in Hd as ->. apply H. left.
Qed.

Lemma insides_kept o : Forall (inside m) o -> held o -> Forall (inside m') o.
Proof.
  induction 1 as [|d o Hd Ho1 IH]; [done|]. intros [Hh1 Hh2]%held_cons. constructor; [by apply inside_kept|auto].
Qed.

Lemma content_kept o : Forall (inside m) o -> held o ->
  (forall d s i, d ∈ o -> slot d = Some s -> (start d <= i < end_ d)%nat -> ~ W s i) -> content m' o = content m o.
Proof.
  unfold content. induction 1 as [|d o Hd Ho1 IH]; [done|]. intros [Hh1 Hh2]%held_cons Hw. rewrite !bind_cons. f_equal.
  - apply bytes_kept; [done..|]. intros s i. apply Hw. left.
  - apply IH; [done|]. intros d' s i Hd'. apply Hw. by right.
Qed.
End kept.

Lemma held_sub l f o : o ⊆ l -> held l f o.
Proof. intros H d s Hd Hs. pose proof (refs_pos l d s (H d Hd) Hs). lia. Qed.

(** With nothing overwritten. *)
Lemma content_same m m' l0 l f0 f o : own m l0 f0 -> own m' l f -> kept nowhere m m' -> Forall (inside m) o -> o ⊆ l ->
  Forall (inside m') o /\ content m' o = content m o.
Proof.
  intros Ho Ho' Hk Hi Hs. pose proof (held_sub l f o Hs). split.
  - exact (insides_kept _ _ _ _ _ _ _ Ho Ho' Hk o Hi H).
  - apply (content_kept _ _ _ _ _ _ _ Ho Ho' Hk o Hi H). by intros d s i _ _ _ [].
Qed.

Lemma inside_length m d : inside m d -> length (di_bytes m d) = di_len d.
Proof.
  intros (s&fs&Hs&Hm&H1&H2&H3). unfold di_bytes. rewrite Hs, Hm. apply length_bytes_at. unfold di_len. lia.
Qed.

Lemma content_cons m d l : content m (d :: l) = di_bytes m d ++ content m l.
Proof. done. Qed.

Lemma content_app m l1 l2 : content m (l1 ++ l2) = content m l1 ++ content m l2.
Proof. apply bind_app. Qed.

Lemma content_length m l : Forall (inside m) l -> length (content m l) = sum_list_with di_len l.
Proof.
  induction 1 as [|d l Hd Hl IH]; [done|]. rewrite content_cons, length_app, IH, inside_length by done. done.
Qed.

(** A window moved inwards. *)
Lemma inside_sub m d a b : inside m d -> (start d <= a)%nat -> (a <= b)%nat -> (b <= end_ d)%nat ->
  inside m (mk_di (slot d) a b (size d)) /\
  di_bytes m (mk_di (slot d) a b (size d)) = take (b - a) (drop (a - start d) (di_bytes m d)).
Proof.
  intros (s&fs&Hs&Hm&H1&H2&H3) Ha Hab Hb. split; [exists s, fs; cbn; split_and!; done || lia|].
  unfold di_bytes. cbn [slot start]. rewrite Hs, Hm. unfold bytes_at, di_len. cbn [start end_].
  rewrite skipn_firstn_comm, take_take, drop_drop. f_equal; [lia|]. f_equal. lia.
Qed.

Definition chain_live (m : mem) (l : list data_info) (num : nat) : Prop :=
  live m l /\ num = length l \/ num = 0%nat /\ l = [zero_di].

Lemma consume_loop_spec rest : forall d0 m f num remaining,
  own m (d0 :: rest) f -> live m (d0 :: rest) -> num = length (d0 :: rest) ->
  (remaining <= sum_list_with di_len (d0 :: rest))%nat ->
  runs (consume_loop d0 rest num remaining) m (fun '(d0', rest', num') m' =>
    own m' (d0' :: rest') f /\ kept nowhere m m' /\ chain_live m' (d0' :: rest') num' /\ (num' <= num)%nat /\
    content m' (d0' :: rest') = drop remaining (content m (d0 :: rest)) /\
    sum_list_with di_len (d0' :: rest') = (sum_list_with di_len (d0 :: rest) - remaining)%nat).
Proof.
  induction rest as [|next rest IH]; intros d0 m f num remaining Ho Hin Hnum Hrem; cbn [consume_loop];
    (destruct (Nat.eqb_spec remaining 0) as [->|Hr0]; [apply runs_ret; split_and!; [done|apply kept_refl|by left|done|done|lia]|]);
    destruct Hin as [Hin Hnd]; apply Forall_cons in Hin as [Hd0 Hrest]; pose proof (inside_length _ _ Hd0) as Hlen;
    (destruct (Nat.ltb_spec remaining (di_len d0)) as [Hlt|Hge]; [
      apply runs_ret; pose proof Hd0 as (s&fs&Hs&Hm&H1&H2&H3);
      destruct (inside_sub m d0 (start d0 + remaining) (end_ d0) Hd0) as [Hi Hb]; [lia|unfold di_len in Hlt; lia|lia|];
      split_and!; [by eapply own_ext; [|done]|apply kept_refl|left; split; [split; [by constructor|done]|done]|done| |cbn; unfold di_len in *; lia];
      rewrite !content_cons, Hb, drop_app_le by lia; f_equal; rewrite take_ge; [f_equal; lia|rewrite length_drop; unfold di_len in *; lia]|]).
  - subst num. cbn [Nat.eqb length]. cbn in Hrem. apply runs_bind. eapply runs_mono; [by apply put_spec|]. intros _ m' [Ho' Hk].
    apply runs_ret. split_and!; [by eapply own_ext; [|done]|done|by right|lia| |cbn; lia].
    rewrite drop_ge; [done|]. rewrite content_cons, length_app, Hlen. cbn. lia.
  - subst num. cbn [Nat.eqb length]. apply runs_bind. eapply runs_mono; [by apply put_spec|]. intros _ m1 [Ho1 Hk1].
    cbn [sum_list_with] in Hrem. destruct (content_same m m1 _ _ f f (next :: rest) Ho Ho1 Hk1 Hrest ltac:(done)) as [Hin1 Hc1].
    apply NoDup_cons in Hnd as [_ Hnd].
    eapply runs_mono; [apply IH; [done|done|cbn; lia|cbn [sum_list_with]; lia]|].
    intros [[d0' rest'] num'] m2 (Ho2&Hk2&Hl2&Hn2&Hc2&Hs2). split_and!; [done|by eapply kept_trans|done|cbn in Hn2; lia| |].
    + rewrite Hc2, Hc1, (content_cons m d0), drop_app_ge by lia. by rewrite Hlen.
    + rewrite Hs2. cbn [sum_list_with]. lia.
Qed.
