(* ===== verification/SkbuffOps.v ===== *)
(** Packet buffers, operations: each operation of skbuff.c on a well-formed packet
    does not fault, keeps the references to slots exact and the packet
    well-formed, has the effect on the bytes one expects, and touches no other
    memory than the room before and after the packet. *)

From stdpp Require Import prelude list gmap.
From Stdlib Require Import ZArith Lia.
From S2P Require Import Prelude Checksum Skbuff SkbuffMem.
Import Skb.

(** *** Operations *)

(** What an operation leaves: exact references, a well-formed chain with bytes [c],
    and no byte changed outside [W]. *)
Record op_post (W : nat -> nat -> Prop) (m : mem) (k' : skbuff) (f : nat -> nat) (c : list Z) (m' : mem) : Prop := {
  op_own : own m' (chain k') f;
  op_kept : kept W m m';
  op_ok : chain_ok m' k';
  op_content : content m' (chain k') = c
}.

Definition alive (k : skbuff) : Prop := data_num k <> 0%nat.

Lemma alive_chain m k : chain_ok m k -> alive k ->
  live m (chain k) /\ data_num k = length (chain k) /\ (data_num k <= SKB_DATA_MAX_NUM)%nat.
Proof. intros [_ [H|[H _]]] Ha; done. Qed.

Lemma op_refl W m k f : own m (chain k) f -> chain_ok m k -> op_post W m k f (content m (chain k)) m.
Proof. intros. split; [done|apply kept_refl|done|done]. Qed.

Lemma same_chain_ok m m' k : slots m' = slots m -> chain_ok m k -> chain_ok m' k /\ content m' (chain k) = content m (chain k).
Proof.
  intros Hs [H1 H3]. split.
  - split; [done..|]. destruct H3 as [[[H3 ?] ?]|?]; [left|by right]. split; [|done]. split; [|done]. eapply Forall_impl; [exact H3|].
    intros d. unfold inside. by rewrite Hs.
  - unfold content. apply list_bind_ext; [|done]. intros d. unfold di_bytes. by rewrite Hs.
Qed.

(** Only allocations happened. *)
Lemma op_same m m' k f : slots m' = slots m -> next_slot m' = next_slot m -> full_size m' = full_size m ->
  own m (chain k) f -> chain_ok m k -> op_post nowhere m k f (content m (chain k)) m'.
Proof.
  intros Hs Hn Hf Ho Hc. destruct (same_chain_ok m m' k Hs Hc).
  split; [by eapply same_slots_own|by apply same_slots_kept|done|done].
Qed.

Lemma total_alive m k : chain_ok m k -> data_total_len k <> 0%nat -> alive k.
Proof.
  intros [Ht [(_&Hn&_)|[_ Hz]]] H Hz0; [by rewrite Hz0 in Hn|]. rewrite Hz in Ht. cbn in Ht. lia.
Qed.

(** The first descriptor with [c] bytes less, taken out when none are left. *)
Lemma pop_empty m k f d c : own m (d :: more k) f -> chain_ok m k -> alive k -> slot d = slot (data0 k) -> c = skb_data0_len k ->
  runs (if (1 <? data_num k)%nat then
          match more k with
          | [] => fault
          | next :: rest => PUT_REF (slot d);; mret (c, with_data k (data_num k - 1) (data_total_len k - c) next rest)
          end
        else PUT_REF (slot d);; mret (c, with_data k 0 (data_total_len k - c) zero_di [])) m
    (fun '(c', k') m' => c' = c /\ op_post nowhere m k' f (drop c' (content m (chain k))) m').
Proof.
  intros Ho Hc Ha Hsd ->. destruct (alive_chain m k Hc Ha) as ([Hin Hnd]&Hnum&Hmax). destruct Hc as [Ht _].
  unfold chain, alive in *. apply Forall_cons in Hin as [Hd Hm]. pose proof (inside_length _ _ Hd) as Hlen.
  unfold skb_data0_len. cbn [sum_list_with] in Ht.
  destruct (more k) as [|next rest] eqn:Em; cbn [length] in Hnum; rewrite Hnum; cbn [Nat.ltb Nat.leb];
    apply runs_bind; (eapply runs_mono; [by apply put_spec|]); intros _ m' [Ho' Hk]; apply runs_ret; (split; [done|]).
  - split; [by eapply own_ext; [|exact Ho']|done|split; [cbn in *; lia|by right]|].
    transitivity (@nil Z); [done|]. symmetry. apply drop_ge. rewrite content_cons, length_app, Hlen. cbn. lia.
  - destruct (content_same m m' _ _ f f (next :: rest) Ho Ho' Hk Hm ltac:(done)) as [Hin2 Hc2].
    split; [done|done|split; [cbn [data_total_len with_data chain data0 more]; unfold chain; cbn [with_data data0 more]; lia|]|].
    + left. apply NoDup_cons in Hnd as [_ Hnd]. split_and!; [done|cbn; lia|cbn; lia].
    + unfold chain. cbn [with_data data0 more]. rewrite Hc2, (content_cons m (data0 k)), drop_app_ge by lia.
      by replace (di_len (data0 k) - length (di_bytes m (data0 k)))%nat with 0%nat by lia.
Qed.

Lemma skb_consume_spec m k f n linear : own m (chain k) f -> chain_ok m k ->
  runs (skb_consume k n linear) m (fun '(c, k') m' =>
    c = Nat.min n (if linear then skb_data0_len k else data_total_len k) /\
    op_post nowhere m k' f (drop c (content m (chain k))) m').
Proof.
  intros Ho Hc. pose proof Hc as [Ht _]. unfold skb_consume.
  assert (Hd0 : (skb_data0_len k <= data_total_len k)%nat) by (rewrite Ht; cbn; unfold skb_data0_len; lia).
  destruct (Nat.eqb_spec (Nat.min n (data_total_len k)) 0) as [E|E].
  { apply runs_ret. replace (Nat.min n _) with 0%nat by (destruct linear; lia). split; [done|]. by apply op_refl. }
  pose proof (total_alive m k Hc ltac:(lia)) as Ha. destruct (alive_chain m k Hc Ha) as ([Hin Hnd]&Hnum&Hmax). destruct linear.
  - rewrite <- Nat.min_assoc, (Nat.min_r (data_total_len k)) by done. set (c := Nat.min n (skb_data0_len k)).
    pose proof Hin as [Hd Hm]%Forall_cons. pose proof (inside_length _ _ Hd) as Hlen.
    destruct (inside_sub m (data0 k) (start (data0 k) + c) (end_ (data0 k)) Hd) as [Hi Hb];
      [lia|pose proof Hd as (?&?&_&_&?&_); unfold c, skb_data0_len, di_len; lia|lia|].
    set (d := mk_di _ _ _ _) in *.
    assert (Edl : di_len d = (skb_data0_len k - c)%nat) by (unfold d, skb_data0_len, di_len; cbn; lia).
    assert (Hod : own m (d :: more k) f) by by eapply own_ext; [|exact Ho].
    destruct (Nat.eqb_spec (di_len d) 0) as [Ez|Ez]; [exact (pop_empty m k f d c Hod Hc Ha eq_refl ltac:(lia))|].
    apply runs_ret. split; [done|]. split; [done|apply kept_refl| |].
    + split; [|left; split_and!; [split; [by constructor|done]|done|done]]. unfold chain in *. cbn [data_total_len with_data data0 more sum_list_with] in *.
      unfold skb_data0_len in *. lia.
    + unfold chain. cbn [with_data data0 more]. unfold skb_data0_len in *. rewrite !content_cons, Hb, drop_app_le by lia. f_equal.
      rewrite take_ge; [f_equal; lia|]. rewrite length_drop, Hlen. unfold di_len. lia.
  - apply runs_bind. eapply runs_mono; [apply (consume_loop_spec (more k) (data0 k) m f); [done|done|done|unfold chain in Ht; lia]|].
    intros [[d0' rest'] num'] m' (Ho'&Hk&Hl&Hn&Hc'&Hs). apply runs_ret. split; [done|].
    split; [done|done| |done]. split; unfold chain in *; cbn [with_data data_total_len data_num data0 more] in *; [lia|].
    destruct Hl as [[? ?]|?]; [left|by right]. split_and!; [done..|lia].
Qed.

(** *** Writing *)

Lemma lookup_overwrite_in l off bs i : (off + length bs <= length l)%nat -> (off <= i < off + length bs)%nat ->
  overwrite l off bs !! i = bs !! (i - off)%nat.
Proof.
  intros H Hi. unfold overwrite. rewrite lookup_app_r, length_take by (rewrite length_take; lia).
  rewrite Nat.min_l by lia. apply lookup_app_l. lia.
Qed.

Lemma bytes_at_overwrite_within l st n off bs :
  (st <= off)%nat -> (off + length bs <= st + n)%nat -> (st + n <= length l)%nat ->
  bytes_at (overwrite l off bs) st n = overwrite (bytes_at l st n) (off - st) bs.
Proof.
  intros H1 H2 H3. assert (Hlen : length (bytes_at l st n) = n) by by apply length_bytes_at.
  apply list_eq. intros i. rewrite lookup_bytes_at. case_decide as Hi.
  - destruct (decide (off <= st + i < off + length bs)%nat).
    + rewrite !lookup_overwrite_in by lia. f_equal. lia.
    + rewrite !lookup_overwrite by lia. rewrite lookup_bytes_at. by rewrite decide_True.
  - symmetry. apply lookup_ge_None. rewrite length_overwrite by lia. lia.
Qed.

Lemma not_slot d s (l : list data_info) : slot d = Some s -> (slot d ∉ slot <$> l) -> forall d', d' ∈ l -> slot d' <> Some s.
Proof. intros Hs Hn d' Hd' E. apply Hn. rewrite Hs, <- E. by apply list_elem_of_fmap_2. Qed.

(** Bytes of one descriptor of a chain are overwritten. *)
Lemma write_di m f l1 d l2 off bs : own m (l1 ++ d :: l2) f -> live m (l1 ++ d :: l2) ->
  (start d <= off)%nat -> (off + length bs <= end_ d)%nat ->
  runs (write (slot d) off bs) m (fun _ m' =>
    own m' (l1 ++ d :: l2) f /\ live m' (l1 ++ d :: l2) /\
    (exists s, slot d = Some s /\ kept (range s off (length bs)) m m') /\
    content m' (l1 ++ d :: l2) = content m l1 ++ overwrite (di_bytes m d) (off - start d) bs ++ content m l2).
Proof.
  intros Ho [Hin Hnd] Hst Hend. pose proof Hin as [H1 [Hd H2]%Forall_cons]%Forall_app. pose proof Hd as (s&fs&Hs&Hm&Ha&Hb&Hc).
  rewrite Hs. eapply runs_mono; [apply write_spec; [done|done|lia]|]. intros _ m' (Ho'&Hk&(n&Hm')).
  pose proof Hnd as Hnd0. rewrite fmap_app, fmap_cons in Hnd0. apply NoDup_app in Hnd0 as (_&Hnd1&[Hnd2 _]%NoDup_cons).
  assert (Hn1 : slot d ∉ slot <$> l1) by (intros Hx; apply (Hnd1 _ Hx); left).
  assert (Hheld : held (l1 ++ d :: l2) f (l1 ++ d :: l2)) by by apply held_sub.
  assert (Hkeep : forall o, o ⊆ l1 ++ d :: l2 -> Forall (inside m) o -> (slot d ∉ slot <$> o) -> content m' o = content m o).
  { intros o Hsub Ho1 Hno. apply (content_kept _ _ _ _ _ _ _ Ho Ho' Hk o Ho1); [by apply held_sub|].
    intros d' s' i Hd' Hs' _ [-> _]. exact (not_slot d s o Hs Hno d' Hd' Hs'). }
  split_and!; [done| |by exists s|].
  - split; [by apply (insides_kept _ _ _ _ _ _ _ Ho Ho' Hk)|done].
  - rewrite content_app, content_cons, !Hkeep by (try done; set_solver). f_equal. f_equal.
    unfold di_bytes. rewrite Hs, Hm, Hm'. cbn [data]. apply bytes_at_overwrite_within; unfold di_len; lia.
Qed.

(** *** Growing *)

Lemma fresh_not_in m l0 f0 l : own m l0 f0 -> Forall (inside m) l -> Some (next_slot m) ∉ slot <$> l.
Proof.
  intros Ho Hl Hin. apply list_elem_of_fmap_1 in Hin as (d&Hd&Hin). rewrite Forall_forall in Hl.
  destruct (Hl d Hin) as (s&fs&Hs&Hm&_). pose proof (own_lt _ _ _ _ _ Ho Hm). assert (s = next_slot m) by congruence. lia.
Qed.

(** A new descriptor joins a chain. *)
Lemma live_new m m' l f n s sz a b c : own m l f -> live m l -> kept nowhere m m' -> new_slot_ok m m' n s sz l f ->
  (a <= b)%nat -> (b <= c)%nat -> (c <= sz)%nat ->
  let d := mk_di (Some s) a b c in
  inside m' d /\ (slot d ∉ slot <$> l) /\ live m' (d :: l) /\ live m' l /\ content m' l = content m l /\ own m' (d :: l) f.
Proof.
  intros Ho [Hin Hnd] Hk (->&Hn&(fs&Hm'&Hlen)&Hown) Hab Hbc Hc d. specialize (Hown a b c). fold d in Hown.
  destruct (content_same m m' _ _ f f l Ho Hown Hk Hin ltac:(by right)) as [Hin' Hc'].
  assert (Hd : inside m' d) by (exists (next_slot m), fs; cbn; split_and!; [done..|lia]).
  pose proof (fresh_not_in m l f l Ho Hin) as Hfr. split_and!; try done.
  split; [by constructor|]. rewrite fmap_cons. by constructor.
Qed.

Lemma skb_pre_space_spec m k (Q : nat -> mem -> Prop) : inside m (data0 k) -> Q (start (data0 k)) m -> runs (skb_pre_space k) m Q.
Proof. intros (s&fs&Hs&Hm&_) HQ. unfold runs, skb_pre_space, mbind, M_bind, load. by rewrite Hs, Hm. Qed.

(** What [skb_data_push] promises: [n] more bytes in front, in the headroom of the
    packet or in a slot of its own. *)
Definition pushed (m : mem) (k : skbuff) (f : nat -> nat) (n : nat) (k' : skbuff) (m' : mem) : Prop :=
  (exists h, length h = n /\ op_post nowhere m k' f (h ++ content m (chain k)) m') /\ alive k' /\ (n <= di_len (data0 k'))%nat /\
  forall s, slot (data0 k') = Some s -> (s < next_slot m)%nat ->
    slot (data0 k) = Some s /\ (start (data0 k') + n <= start (data0 k))%nat.

Lemma skb_data_push_spec m k f n : own m (chain k) f -> chain_ok m k -> alive k ->
  runs (skb_data_push k n) m (fun '(ok, k') m' =>
    if ok : bool then pushed m k f n k' m' else k' = k /\ op_post nowhere m k f (content m (chain k)) m').
Proof.
  intros Ho Hc Ha. destruct (alive_chain m k Hc Ha) as ([Hin Hnd]&Hnum&Hmax). pose proof Hc as [Ht _].
  pose proof Hin as [Hd Hm]%Forall_cons. pose proof Hd as (s0&fs0&Hs0&Hm0&Hse&Hes&Hsl).
  apply runs_bind. unfold skb_data_expand. apply runs_bind. apply skb_pre_space_spec; [done|].
  destruct (Nat.leb_spec n (start (data0 k))) as [Hle|Hgt].
  - apply runs_ret. apply runs_ret. set (d := mk_di _ _ _ _).
    assert (Hd' : inside m d) by (exists s0, fs0; cbn; split_and!; done || lia).
    split_and!; [|done|cbn; unfold di_len; cbn; lia|intros s Hs _; cbn in *; split; [done|lia]].
    exists (bytes_at (data fs0) (start (data0 k) - n) n). split; [apply length_bytes_at; lia|].
    unfold chain in *. split; [by eapply own_ext; [|exact Ho]|apply kept_refl| |].
    + split; [cbn [with_data data_total_len chain data0 more]; unfold chain; cbn [with_data data0 more sum_list_with] in *; unfold di_len in *; cbn; lia|].
      left. split_and!; [split; [by constructor|done]|done|done].
    + unfold chain. cbn [with_data data0 more]. rewrite !content_cons, app_assoc. f_equal. unfold di_bytes. cbn [d slot]. rewrite Hs0, Hm0.
      replace (di_len d) with (n + di_len (data0 k))%nat by (unfold d, di_len; cbn; lia). rewrite bytes_at_app. change (start d) with (start (data0 k) - n)%nat.
      by replace (start (data0 k) - n + n)%nat with (start (data0 k)) by lia.
  - apply runs_ret. destruct (Nat.leb_spec SKB_DATA_MAX_NUM (data_num k)) as [Hfull|Hroom].
    { apply runs_ret. split; [done|]. by apply op_refl. }
    apply runs_bind, try_alloc_spec. intros b m1 Hs1 Hn1 Hf1. destruct b; cbn [negb].
    2:{ apply runs_ret. split; [done|]. by apply op_same. }
    assert (Ho1 : own m1 (chain k) f) by by eapply same_slots_own. destruct (same_chain_ok m m1 k Hs1 Hc) as [Hc1 Hcn1].
    destruct (alive_chain m1 k Hc1 Ha) as (Hl1&_&_). pose proof (same_slots_kept _ _ Hs1 Hn1 Hf1) as Hk01.
    apply runs_bind. eapply runs_mono; [by apply (frame_slot_alloc_spec m1 (chain k) f n)|].
    intros [[s sz]|] m2 [Hk2 H2]; apply runs_ret.
    + destruct (live_new m1 m2 (chain k) f n s sz 0 n sz Ho1 Hl1 Hk2 H2) as (Hd2&Hnew&Hl2&Hl2'&Hcn2&Ho2); [lia|by destruct H2 as (_&?&_)|lia|].
      pose proof H2 as (Hsn&Hnsz&_). split_and!; [|unfold alive; cbn; lia|cbn; unfold di_len; cbn; lia|].
      * exists (di_bytes m2 (mk_di (Some s) 0 n sz)). split; [rewrite inside_length by done; unfold di_len; cbn; lia|].
        split; [done|by eapply kept_trans| |].
        -- split; [cbn [with_data data_total_len]; unfold chain at 1; cbn [with_data data0 more sum_list_with]; rewrite Ht; unfold di_len at 2; cbn; lia|].
           left. split_and!; [done|cbn in *; unfold chain in *; cbn in *; lia|cbn; unfold SKB_DATA_MAX_NUM in *; lia].
        -- unfold chain at 1. cbn [with_data data0 more]. by rewrite content_cons, Hcn2, Hcn1.
      * cbn. intros s' [= <-] Hlt. lia.
    + split; [done|]. destruct (content_same m1 m2 _ _ f f (chain k) Ho1 H2 Hk2 (proj1 Hl1) ltac:(done)) as [Hi2 Hcn2].
      split; [done|by eapply kept_trans| |by rewrite Hcn2, Hcn1]. split; [done|]. left. by destruct Hl1.
Qed.

Lemma kept_new (W W' : nat -> nat -> Prop) m m1 m2 : kept nowhere m m1 -> kept W m1 m2 ->
  (forall s i, (s < next_slot m)%nat -> W s i -> W' s i) -> kept W' m m2.
Proof.
  intros [Hn Hf Hd] [Hn' Hf' Hd'] HW. split; [lia|congruence|]. intros s fs2 Hs H2.
  destruct (Hd' s fs2 ltac:(lia) H2) as (fs1&H1&L1&E1). destruct (Hd s fs1 Hs H1) as (fs&H0&L0&E0).
  exists fs. split_and!; [done|congruence|]. intros i Hi. rewrite E1, E0; [done|by intros []|]. intros Hw. apply Hi. by apply HW.
Qed.

Definition headroom (k : skbuff) (s i : nat) : Prop := slot (data0 k) = Some s /\ (i < start (data0 k))%nat.
Definition tailroom (k : skbuff) (s i : nat) : Prop := slot (last_di k) = Some s /\ (end_ (last_di k) <= i)%nat.

Lemma push_header_spec m k f bs : own m (chain k) f -> chain_ok m k -> alive k ->
  runs (push_header k bs) m (fun '(ok, k') m' =>
    if ok : bool then alive k' /\ (length bs <= skb_data0_len k')%nat /\
      (forall s i, (s < next_slot m)%nat -> headroom k' s i -> headroom k s i) /\
      op_post (headroom k) m k' f (bs ++ content m (chain k)) m'
    else k' = k /\ op_post nowhere m k f (content m (chain k)) m').
Proof.
  intros Ho Hc Ha. apply runs_bind. eapply runs_mono; [by apply skb_data_push_spec|].
  intros [ok k'] m1. destruct ok; [|by intros H; apply runs_ret]. intros ((h&Hh&[Ho1 Hk1 Hc1 Hcn1])&Ha'&Hlen&Hroom).
  destruct (alive_chain m1 k' Hc1 Ha') as (Hl1&Hnum&Hmax). apply runs_bind.
  assert (Hse : (start (data0 k') <= end_ (data0 k'))%nat) by (destruct Hl1 as [(?&?&_&_&?&_)%Forall_inv _]; done).
  eapply runs_mono; [apply (write_di m1 f [] (data0 k') (more k')); [done|done|lia|unfold di_len in Hlen; lia]|].
  intros _ m2 (Ho2&Hl2&(s&Hs&Hk2)&Hcn2). apply runs_ret. split; [done|]. split; [done|]. split.
  { intros s' i Hlt [Hs' Hi]. destruct (Hroom s' Hs' Hlt). split; [done|lia]. }
  split; [done| | |].
  - eapply kept_new; [done|done|]. intros s' i Hlt [-> Hi]. destruct (Hroom s Hs Hlt). split; [done|lia].
  - destruct Hc1 as [Ht1 _]. split; [done|]. left. by split_and!.
  - unfold chain. cbn [app] in Hcn2. rewrite Hcn2, Nat.sub_diag. change (content m1 []) with (@nil Z). cbn [app].
    unfold overwrite. rewrite take_0. cbn [Nat.add app]. rewrite <- app_assoc. f_equal.
    unfold chain in Hcn1. rewrite content_cons in Hcn1. apply (f_equal (drop (length bs))) in Hcn1.
    rewrite (drop_app_length' h) in Hcn1 by done. rewrite <- Hcn1, drop_app_le; [done|].
    destruct Hl1 as [Hi1%Forall_inv _]. rewrite inside_length; done.
Qed.

(** *** Shortening *)

Lemma refs_slots l1 : forall l2 s, slot <$> l1 = slot <$> l2 -> refs l1 s = refs l2 s.
Proof.
  induction l1 as [|d l1 IH]; intros [|d2 l2] s E; try done. rewrite !fmap_cons in E. injection E as E1 E2.
  rewrite !refs_cons, E1. f_equal. by apply IH.
Qed.

Lemma free_all_spec l : forall m rest f, own m (l ++ rest) f ->
  runs (free_all l) m (fun _ m' => own m' rest f /\ kept nowhere m m').
Proof.
  induction l as [|d l IH]; intros m rest f Ho; [split; [done|apply kept_refl]|].
  apply runs_bind. eapply runs_mono; [by apply put_spec|]. intros _ m1 [Ho1 Hk1].
  eapply runs_mono; [by apply IH|]. intros _ m2 [Ho2 Hk2]. split; [done|by eapply kept_trans].
Qed.

Lemma truncate_walk_spec m new_len l : forall cum, Forall (inside m) l -> (cum < new_len)%nat ->
  (new_len <= cum + sum_list_with di_len l)%nat ->
  exists d0 keep gone, truncate_walk l cum new_len = Some (d0 :: keep, gone) /\ Forall (inside m) (d0 :: keep) /\
    (slot <$> (d0 :: keep)) ++ (slot <$> gone) = slot <$> l /\
    content m (d0 :: keep) = take (new_len - cum) (content m l) /\ sum_list_with di_len (d0 :: keep) = (new_len - cum)%nat.
Proof.
  induction l as [|d l IH]; intros cum Hin Hcum Hlen; [cbn in Hlen; lia|]. cbn [truncate_walk sum_list_with] in *.
  apply Forall_cons in Hin as [Hd Hin]. pose proof (inside_length _ _ Hd) as Hdl. pose proof Hd as (s&fs&_&_&Hse&_).
  destruct (Nat.leb_spec new_len (cum + di_len d)) as [Hle|Hgt].
  - destruct (inside_sub m d (start d) (start d + (new_len - cum)) Hd) as [Hi Hb]; [lia|lia|unfold di_len in Hle; lia|].
    eexists _, [], l. split_and!; [done|by constructor|done| |cbn; unfold di_len; cbn; lia].
    rewrite !content_cons, Hb, Nat.sub_diag, drop_0, take_app_le by lia. cbn. rewrite app_nil_r. f_equal. lia.
  - destruct (IH (cum + di_len d)%nat Hin ltac:(lia) ltac:(lia)) as (d0&keep&gone&->&Hk&Hsl&Hcn&Hsum).
    exists d, (d0 :: keep), gone. split_and!; [done|by constructor| | |].
    + rewrite (fmap_cons slot d (d0 :: keep)), (fmap_cons slot d l). cbn [app]. by f_equal.
    + rewrite !(content_cons m d), Hcn, (take_app_ge (di_bytes m d)) by lia. do 2 f_equal. lia.
    + cbn [sum_list_with] in *. lia.
Qed.

Lemma skb_truncate_spec m k f n : own m (chain k) f -> chain_ok m k ->
  runs (skb_truncate k n) m (fun k' m' => op_post nowhere m k' f (take n (content m (chain k))) m' /\ (n <> 0%nat -> alive k -> alive k')).
Proof.
  intros Ho Hc. pose proof Hc as [Ht _]. unfold skb_truncate.
  destruct (Nat.leb_spec (data_total_len k) n) as [Hle|Hlt].
  { apply runs_ret. split; [|done]. rewrite take_ge; [by apply op_refl|].
    destruct Hc as [_ [([Hin _]&_)|[_ Hz]]]; [rewrite content_length by done; lia|rewrite Hz; cbn; lia]. }
  destruct (alive_chain m k Hc (total_alive m k Hc ltac:(lia))) as ([Hin Hnd]&Hnum&Hmax).
  destruct (Nat.eqb_spec n 0) as [->|Hn].
  - apply runs_bind. eapply runs_mono; [apply (free_all_spec (more k) m [data0 k] f);
      eapply own_ext; [|exact Ho]; intros s; rewrite refs_app; unfold chain; rewrite !refs_cons; cbn; lia|].
    intros _ m1 [Ho1 Hk1]. apply runs_bind. eapply runs_mono; [by apply put_spec|]. intros _ m2 [Ho2 Hk2]. apply runs_ret.
    split; [|done]. split; [by eapply own_ext; [|exact Ho2]|by eapply kept_trans|split; [done|by right]|done].
  - destruct (truncate_walk_spec m n (chain k) 0 Hin ltac:(lia) ltac:(lia)) as (d0&keep&gone&->&Hki&Hsl&Hcn&Hsum).
    rewrite Nat.sub_0_r in *. pose proof (f_equal length Hsl) as Hlen. rewrite length_app, !length_fmap in Hlen.
    assert (Hrefs : forall s, (refs (gone ++ (d0 :: keep)) s + f s = refs (chain k) s + f s)%nat).
    { intros s. rewrite <- (refs_slots ((d0 :: keep) ++ gone) (chain k)) by (by rewrite fmap_app). rewrite !refs_app. lia. }
    apply runs_bind. eapply runs_mono; [apply (free_all_spec gone m (d0 :: keep) f); eapply own_ext; [|exact Ho]; intros s; by rewrite Hrefs|].
    intros _ m1 [Ho1 Hk1]. apply runs_ret. destruct (content_same m m1 _ _ f f (d0 :: keep) Ho Ho1 Hk1 Hki ltac:(done)) as [Hi1 Hc1].
    rewrite <- Hsl in Hnd. apply NoDup_app in Hnd as (Hnd&_&_). split; [|unfold alive; cbn in *; lia].
    split; [done|done| |unfold chain at 1; cbn [with_data data0 more]; congruence].
    split; [done|]. left. split_and!; [by split|cbn [with_data data_num chain data0 more]; unfold chain; cbn [with_data data0 more]; lia|cbn; lia].
Qed.

(** *** Appending *)

Definition front (k : skbuff) : list data_info := removelast (chain k).

Lemma chain_front k : chain k = front k ++ [last_di k].
Proof. apply app_removelast_last. done. Qed.

Lemma chain_set_last k d n : chain (set_total (set_last k d) n) = front k ++ [d].
Proof. unfold set_last, set_total, front, chain. by destruct (more k) as [|a [|b l]]. Qed.

Lemma data_num_set_last k d n : data_num (set_total (set_last k d) n) = data_num k.
Proof. unfold set_last. by destruct (more k). Qed.

Lemma inside_last m k : Forall (inside m) (chain k) -> Forall (inside m) (front k) /\ inside m (last_di k).
Proof. rewrite chain_front. intros [H1 H2%Forall_inv]%Forall_app. done. Qed.

Lemma skb_end_space_spec m k (Q : nat -> mem -> Prop) : inside m (last_di k) ->
  Q (size (last_di k) - end_ (last_di k))%nat m -> runs (skb_end_space k) m Q.
Proof. intros (s&fs&Hs&Hm&_) HQ. unfold runs, skb_end_space, mbind, M_bind, load. by rewrite Hs, Hm. Qed.

(** The windows of a chain are outside the room after it. *)
Lemma windows_tailroom m k d s i : live m (chain k) -> d ∈ chain k -> slot d = Some s -> (start d <= i < end_ d)%nat -> ~ tailroom k s i.
Proof.
  intros [_ Hnd] Hd Hs Hi [Hl He]. rewrite chain_front in Hd, Hnd. rewrite fmap_app in Hnd.
  apply elem_of_app in Hd as [Hd|Hd]; [|apply list_elem_of_singleton in Hd; subst d; lia].
  apply NoDup_app in Hnd as (_&Hnd&_). apply (Hnd (Some s)); [rewrite <- Hs; by apply list_elem_of_fmap_2|].
  change (slot <$> [last_di k]) with [slot (last_di k)]. rewrite Hl. left.
Qed.

Lemma live_snoc m l d : live m (d :: l) -> live m (l ++ [d]).
Proof.
  intros [[Hd Hl]%Forall_cons Hnd]. split; [apply Forall_app; split; [done|by constructor]|].
  rewrite fmap_cons in Hnd. apply NoDup_cons in Hnd as [Hn Hnd]. rewrite fmap_app. apply NoDup_app. split_and!; [done| |apply NoDup_singleton].
  intros x Hx Hx2. apply list_elem_of_singleton in Hx2 as ->. done.
Qed.

Lemma own_snoc m l d f : own m (d :: l) f -> own m (l ++ [d]) f.
Proof. apply own_ext. intros s. rewrite refs_app, !refs_cons. cbn. lia. Qed.

Lemma overwrite_all l bs : length l = length bs -> overwrite l 0 bs = bs.
Proof. intros H. unfold overwrite. rewrite take_0, drop_ge by lia. cbn. by rewrite app_nil_r. Qed.

Lemma overwrite_end l a bs : length l = length bs -> overwrite (a ++ l) (length a) bs = a ++ bs.
Proof.
  intros H. unfold overwrite. rewrite take_app_length, drop_ge by (rewrite length_app; lia). by rewrite app_nil_r.
Qed.

(** A new descriptor, filled. *)
Lemma write_new m m1 l f n s sz a c bs : own m l f -> live m l -> kept nowhere m m1 -> new_slot_ok m m1 n s sz l f ->
  (a + length bs <= c)%nat -> (c <= sz)%nat ->
  let d := mk_di (Some s) a (a + length bs) c in
  runs (write (Some s) a bs) m1 (fun _ m2 =>
    own m2 (l ++ [d]) f /\ live m2 (l ++ [d]) /\ kept nowhere m m2 /\ content m2 l = content m l /\ content m2 [d] = bs).
Proof.
  intros Ho Hl Hk1 Hnew Hab Hc d. pose proof Hnew as (Hsn&_).
  destruct (live_new m m1 l f n s sz a (a + length bs) c Ho Hl Hk1 Hnew) as (Hd1&_&Hl1&_&Hc1&Ho1); [lia|done|done|].
  fold d in Hd1, Hl1, Ho1. apply own_snoc in Ho1. apply live_snoc in Hl1.
  eapply runs_mono; [apply (write_di m1 f l d [] a bs); [done|done|cbn; lia|cbn; lia]|].
  intros _ m2 (Ho2&Hl2&(s'&[= <-]&Hk2)&Hc2). assert (Hk02 : kept nowhere m m2).
  { eapply kept_new; [done|done|]. intros s' i Hlt [-> _]. lia. }
  destruct (content_same m m2 _ _ f f l Ho Ho2 Hk02 (proj1 Hl)) as [_ Hcl2]; [intros x Hx; apply elem_of_app; by left|].
  split_and!; [done..|]. rewrite content_app, Hcl2, Hc1, Nat.sub_diag in Hc2. apply app_inv_head in Hc2. rewrite Hc2.
  change (content m1 []) with (@nil Z). rewrite app_nil_r. apply overwrite_all. rewrite inside_length by done. unfold d, di_len. cbn. lia.
Qed.

Lemma append_loop_spec pre_size seg_len fuel : forall src m l f N,
  own m l f -> live m l -> (pre_size <= seg_len)%nat -> (length src <= fuel)%nat -> (length src <= (seg_len - pre_size) * N)%nat ->
  runs (append_loop fuel src pre_size seg_len (seg_len - pre_size)) m (fun '(ok, added) m' =>
    own m' (l ++ added) f /\ live m' (l ++ added) /\ kept nowhere m m' /\ (length added <= N)%nat /\ content m' l = content m l /\
    (ok = true -> content m' added = src /\ sum_list_with di_len added = length src)).
Proof.
  induction fuel as [|fuel IH]; intros src m l f N Ho Hl Hpre Hfuel HN;
    (destruct src as [|b src]; [apply runs_ret; rewrite app_nil_r; split_and!; try done; [apply kept_refl|cbn; lia]|]);
    cbn [append_loop]; [cbn in Hfuel; lia|]. set (bs := b :: src) in *. set (cap := (seg_len - pre_size)%nat) in *.
  assert (Hpos : (0 < length bs)%nat) by (cbn; lia). destruct N as [|N]; [lia|]. rewrite Nat.mul_succ_r in HN.
  set (chunk := if (length bs <? cap)%nat then length bs else cap).
  assert (Hch : (0 < chunk <= cap)%nat /\ (chunk <= length bs)%nat /\ (length bs - chunk <= cap * N)%nat)
    by (unfold chunk; destruct (Nat.ltb_spec (length bs) cap), cap; lia).
  clearbody chunk bs. apply runs_bind. eapply runs_mono; [by apply (alloc_data_info_spec m l f)|]. intros [d|] m1 [Hk1 H1].
  2:{ apply runs_ret. destruct (content_same m m1 _ _ f f l Ho H1 Hk1 (proj1 Hl) ltac:(done)) as [Hi1 Hc1]. rewrite app_nil_r.
      split_and!; try done; [by split; [|destruct Hl]|cbn; lia]. }
  destruct H1 as (s&sz&->&Hnew). cbn [slot size]. replace (seg_len =? 0)%nat with false by (symmetry; apply Nat.eqb_neq; unfold cap in *; lia).
  pose proof Hnew as (_&Hsz&_). assert (Htk : length (take chunk bs) = chunk) by (rewrite length_take; lia).
  apply runs_bind. eapply runs_mono; [apply (write_new m m1 l f seg_len s sz pre_size seg_len (take chunk bs)); try done; unfold cap in *; lia|].
  rewrite Htk. set (d := mk_di _ _ _ _) in *. intros _ m2 (Ho2&Hl2&Hk2&Hcl2&Hcd2).
  apply runs_bind. eapply runs_mono; [apply (IH (drop chunk bs) m2 (l ++ [d]) f N); [done|done|done|rewrite length_drop; lia|rewrite length_drop; lia]|].
  intros [ok added] m3 (Ho3&Hl3&Hk3&Hlen3&Hc3&Hok). apply runs_ret. rewrite <- app_assoc in Ho3, Hl3. cbn [app] in Ho3, Hl3.
  pose proof (proj1 Hl2) as [Hi2 Hd2]%Forall_app.
  destruct (content_same m2 m3 _ _ f f l Ho2 Ho3 Hk3 Hi2 ltac:(set_solver)) as [_ Hcl3].
  destruct (content_same m2 m3 _ _ f f [d] Ho2 Ho3 Hk3 Hd2 ltac:(set_solver)) as [_ Hcd3].
  split_and!; [done|done|by eapply kept_trans|cbn; lia|congruence|]. intros Hk. destruct (Hok Hk) as [Hca Hsa]. split.
  - change (d :: added) with ([d] ++ added). rewrite content_app, Hcd3, Hcd2, Hca. apply take_drop.
  - cbn [sum_list_with]. rewrite Hsa, length_drop. unfold d, di_len. cbn [start end_]. lia.
Qed.

(** The last descriptor with [n] bytes more, and the packet with it. *)
Definition grown_di (k : skbuff) (n : nat) : data_info :=
  let d := last_di k in mk_di (slot d) (start d) (end_ d + n) (size d).
Definition grown (k : skbuff) (n : nat) : skbuff := set_total (set_last k (grown_di k n)) (data_total_len k + n).

Lemma chain_grown k n : chain (grown k n) = front k ++ [grown_di k n].
Proof. apply chain_set_last. Qed.

Lemma grown_slots k n : slot <$> chain (grown k n) = slot <$> chain k.
Proof. rewrite chain_grown, (chain_front k), !fmap_app. done. Qed.

Lemma grown_spec m k n : chain_ok m k -> alive k -> (n <= size (last_di k) - end_ (last_di k))%nat ->
  chain_ok m (grown k n) /\ alive (grown k n) /\
  exists junk, length junk = n /\ di_bytes m (grown_di k n) = di_bytes m (last_di k) ++ junk.
Proof.
  intros Hc Ha Hroom. destruct (alive_chain m k Hc Ha) as ([Hin Hnd]&Hnum&Hmax). pose proof Hc as [Ht _].
  destruct (inside_last m k Hin) as [Hfr (s&fs&Hs&Hm&H1&H2&H3)]. assert (Hdn : data_num (grown k n) = data_num k) by apply data_num_set_last.
  assert (Hdl : di_len (grown_di k n) = (di_len (last_di k) + n)%nat) by (unfold grown_di, di_len; cbn [start end_]; lia).
  split_and!; [|unfold alive; by rewrite Hdn|].
  - split; [|left; split_and!; [split; [|by rewrite grown_slots]| |lia]].
    + rewrite chain_grown, sum_list_with_app. rewrite (chain_front k), sum_list_with_app in Ht.
      change (data_total_len (grown k n)) with (data_total_len k + n)%nat. cbn [sum_list_with] in *. lia.
    + rewrite chain_grown. apply Forall_app. split; [done|]. constructor; [|done]. exists s, fs. unfold grown_di. cbn [slot start end_ size].
      split_and!; [done|done|lia|lia|done].
    + rewrite Hdn, Hnum. by rewrite <- (length_fmap slot), <- (grown_slots k n), length_fmap.
  - exists (bytes_at (data fs) (end_ (last_di k)) n). split; [apply length_bytes_at; lia|].
    unfold di_bytes. change (slot (grown_di k n)) with (slot (last_di k)). rewrite Hs, Hm, Hdl, bytes_at_app.
    change (start (grown_di k n)) with (start (last_di k)). do 2 f_equal. unfold di_len. lia.
Qed.

Lemma skb_data_put_spec m k n : chain_ok m k -> alive k ->
  skb_data_put k n m = Some (if (n <=? size (last_di k) - end_ (last_di k))%nat
    then (Some (slot (last_di k), end_ (last_di k)), grown k n) else (None, k), m).
Proof.
  intros Hc Ha. destruct (alive_chain m k Hc Ha) as ([Hin _]&_). destruct (inside_last m k Hin) as [_ (s&fs&Hs&Hm&_)].
  unfold skb_data_put, skb_data_expand, skb_end_space, mbind, M_bind, load. rewrite Hs at 1. rewrite Hm. cbn [mret M_ret].
  by destruct (n <=? size (last_di k) - end_ (last_di k))%nat.
Qed.

(** The bytes that fit go into the room after the last descriptor. *)
Lemma put_write_spec m k f bs : own m (chain k) f -> chain_ok m k -> alive k ->
  (length bs <= size (last_di k) - end_ (last_di k))%nat ->
  runs (write (slot (last_di k)) (end_ (last_di k)) bs) m (fun _ m' =>
    op_post (tailroom k) m (grown k (length bs)) f (content m (chain k) ++ bs) m').
Proof.
  intros Ho Hc Ha Hroom. destruct (grown_spec m k (length bs) Hc Ha Hroom) as (Hc1&Ha1&junk&Hjl&Hjb).
  destruct (alive_chain m _ Hc1 Ha1) as (Hl&Hnum&Hmax). destruct (alive_chain m k Hc Ha) as ([Hin _]&_).
  destruct (inside_last m k Hin) as [Hfr Hlast]. pose proof Hlast as (s&fs&Hs&Hm&H1&H2&H3). rewrite chain_grown in Hl.
  assert (Ho1 : own m (front k ++ [grown_di k (length bs)]) f).
  { rewrite <- chain_grown. eapply own_ext; [|exact Ho]. intros x. by rewrite (refs_slots _ _ x (grown_slots k (length bs))). }
  change (slot (last_di k)) with (slot (grown_di k (length bs))).
  eapply runs_mono; [apply (write_di m f (front k) (grown_di k (length bs)) [] (end_ (last_di k)) bs); [done|done|exact H1|exact (le_n _)]|].
  intros _ m2 (Ho2&Hl2&(s'&Hs'&Hk2)&Hc2). rewrite <- chain_grown in Ho2, Hl2, Hc2. split; [done| | |].
  - eapply kept_mono; [|exact Hk2]. intros x i [-> Hi]. split; [done|exact (proj1 Hi)].
  - destruct Hc1 as [Ht1 _]. split; [done|]. left. by split_and!.
  - rewrite Hc2, (chain_front k), content_app, <- app_assoc. f_equal. change (content m []) with (@nil Z). rewrite app_nil_r, Hjb.
    change (start (grown_di k (length bs))) with (start (last_di k)).
    replace (end_ (last_di k) - start (last_di k))%nat with (length (di_bytes m (last_di k))) by by apply inside_length.
    rewrite overwrite_end by lia. cbn. by rewrite app_nil_r.
Qed.

(** A chain whose descriptors are as before, in a memory changed only in the room
    after it. *)
Lemma tailroom_op m m' k f : own m (chain k) f -> chain_ok m k -> alive k -> own m' (chain k) f -> kept (tailroom k) m m' ->
  op_post (tailroom k) m k f (content m (chain k)) m'.
Proof.
  intros Ho Hc Ha Ho' Hk. destruct (alive_chain m k Hc Ha) as (Hl&Hnum&Hmax). pose proof Hl as [Hin Hnd].
  assert (Hh : held (chain k) f (chain k)) by by apply held_sub. split; [done|done| |].
  - destruct Hc as [Ht _]. split; [done|]. left. split_and!; [|done|done]. split; [|done].
    exact (insides_kept _ _ _ _ _ _ _ Ho Ho' Hk _ Hin Hh).
  - apply (content_kept _ _ _ _ _ _ _ Ho Ho' Hk _ Hin Hh). intros d s i. by apply (windows_tailroom m).
Qed.

(** The part of [skb_data_append] after the room is used. *)
Lemma append_tail_spec m0 m k k1 f src pre_size seg_len fuel : own m0 (chain k) f -> chain_ok m0 k -> alive k ->
  slot <$> chain k1 = slot <$> chain k -> data_num k1 = data_num k -> kept (tailroom k) m0 m ->
  own m (chain k1) f -> chain_ok m k1 ->
  (pre_size <= seg_len)%nat -> (length src <= fuel)%nat -> (length src <= (seg_len - pre_size) * (SKB_DATA_MAX_NUM - data_num k))%nat ->
  runs ('(ok, added) ← append_loop fuel src pre_size seg_len (seg_len - pre_size);
    if ok : bool then
      mret (true, with_data k1 (data_num k1 + length added) (data_total_len k1 + length src) (data0 k1) (more k1 ++ added))
    else free_all added;; mret (false, k)) m (fun '(ok, k') m' =>
      alive k' /\ (ok = false -> k' = k) /\
      op_post (tailroom k) m0 k' f (if ok : bool then content m (chain k1) ++ src else content m0 (chain k)) m').
Proof.
  intros Ho0 Hc0 Ha0 Hsl Hdn Hk0 Ho Hc Hpre Hfuel HN.
  destruct (alive_chain m0 k Hc0 Ha0) as (_&Hnum0&Hmax0). assert (Ha : alive k1) by (unfold alive; by rewrite Hdn).
  destruct (alive_chain m k1 Hc Ha) as (Hl&Hnum&Hmax). destruct Hc as [Ht _].
  apply runs_bind. eapply runs_mono; [by apply (append_loop_spec pre_size seg_len fuel src m (chain k1) f (SKB_DATA_MAX_NUM - data_num k))|].
  intros [ok added] m1 (Ho1&Hl1&Hk1&Hlen&Hc1&Hok). assert (Hk01 : kept (tailroom k) m0 m1).
  { eapply kept_trans; [done|]. eapply kept_mono; [|done]. by intros ? ? []. }
  destruct ok.
  - apply runs_ret. destruct (Hok eq_refl) as [Hca Hsa]. split_and!; [unfold alive in *; cbn; lia|done|].
    split; [done|done| |].
    + split; unfold chain in *; cbn [with_data data0 more data_total_len data_num].
      * rewrite app_comm_cons, sum_list_with_app. lia.
      * left. split_and!; [done|rewrite app_comm_cons, length_app; lia|unfold alive in *; lia].
    + unfold chain at 1. cbn [with_data data0 more]. rewrite app_comm_cons, content_app. unfold chain in Hc1. by rewrite Hc1, Hca.
  - apply runs_bind. eapply runs_mono; [apply (free_all_spec added m1 (chain k1) f); eapply own_ext; [|exact Ho1]; intros s; rewrite !refs_app; lia|].
    intros _ m2 [Ho2 Hk2]. apply runs_ret. split_and!; [done|done|]. apply tailroom_op; [done..| |].
    + eapply own_ext; [|exact Ho2]. intros s. by rewrite (refs_slots _ _ s Hsl).
    + eapply kept_trans; [done|]. eapply kept_mono; [|done]. by intros ? ? [].
Qed.

Lemma skb_data_append_spec m k f src pre_size seg_len : own m (chain k) f -> chain_ok m k -> alive k ->
  (pre_size <= seg_len)%nat -> Z.of_nat seg_len < 2 ^ 32 ->
  runs (skb_data_append k src pre_size seg_len) m (fun '(ok, k') m' =>
    alive k' /\ (ok = false -> k' = k) /\
    op_post (tailroom k) m k' f (content m (chain k) ++ if ok : bool then src else []) m').
Proof.
  intros Ho Hc Ha Hpre Hseg. destruct (alive_chain m k Hc Ha) as ([Hin Hnd]&Hnum&Hmax).
  destruct (inside_last m k Hin) as [_ Hlast]. unfold skb_data_append.
  replace (Z.to_nat (u32 (Z.of_nat seg_len - Z.of_nat pre_size))) with (seg_len - pre_size)%nat
    by (rewrite wrap_id by (unfold is_u; lia); lia).
  apply runs_bind. apply skb_end_space_spec; [done|]. set (space := (size (last_di k) - end_ (last_di k))%nat).
  destruct (Nat.ltb_spec (space + (seg_len - pre_size) * (SKB_DATA_MAX_NUM - data_num k)) (length src)) as [Hbig|Hfit].
  { apply runs_ret. split_and!; [done|done|]. rewrite app_nil_r. by apply op_refl. }
  destruct (Nat.eqb_spec space 0) as [Ez|Ez].
  - apply runs_bind, runs_ret, runs_bind, runs_ret. rewrite drop_0, Nat.sub_0_r.
    eapply runs_mono; [apply (append_tail_spec m m k k f); try done; [apply kept_refl|by rewrite Ez in Hfit]|].
    intros [ok k'] m' (Ha'&Hf'&Hop). split_and!; [done..|]. destruct ok; [done|by rewrite app_nil_r].
  - set (use := Nat.min (length src) space). assert (Hu : length (take use src) = use) by (rewrite length_take; lia).
    assert (Hleft : forall p, (length src <= space + p -> length src - use <= p)%nat) by (unfold use; lia).
    apply runs_bind. unfold runs at 1. rewrite skb_data_put_spec, (proj2 (Nat.leb_le _ _)) by (done || (fold space; lia)).
    apply runs_bind. eapply runs_mono; [apply (put_write_spec m k f (take use src)); [done..|fold space; lia]|]. rewrite Hu.
    set (k1 := grown k use). intros _ m1 [Ho1 Hk1 Hc1 Hcn1]. replace (length src - use)%nat with (length (drop use src)) by apply length_drop.
    eapply runs_mono; [apply (append_tail_spec m m1 k k1 f); try done|].
    + apply grown_slots.
    + apply data_num_set_last.
    + rewrite length_drop. lia.
    + rewrite length_drop. by apply Hleft.
    + intros [ok k'] m' (Ha'&Hf'&Hop). split_and!; [done..|]. destruct ok; [|by rewrite app_nil_r].
      by rewrite Hcn1, <- app_assoc, take_drop in Hop.
Qed.
(** *** Reading *)

(** Reads do not change the memory. *)
Lemma read_di m d a n : inside m d -> (a + n <= di_len d)%nat ->
  read (slot d) (start d + a) n m = Some (take n (drop a (di_bytes m d)), m).
Proof.
  intros (s&fs&Hs&Hm&H1&H2&H3) Hn. destruct n as [|n]; [by rewrite take_0|]. unfold read, di_bytes. rewrite Hs, Hm, (proj2 (Nat.leb_le _ _)) by (unfold di_len in Hn; lia).
  do 2 f_equal. unfold bytes_at. rewrite skipn_firstn_comm, take_take, drop_drop. f_equal. lia.
Qed.

Lemma load_di m d (Q : frame_slot -> mem -> Prop) : inside m d -> (forall fs, Q fs m) -> runs (load (slot d)) m Q.
Proof. intros (s&fs&Hs&Hm&_) HQ. unfold runs, load. by rewrite Hs, Hm. Qed.

Lemma read_all m d : inside m d -> read (slot d) (start d) (di_len d) m = Some (di_bytes m d, m).
Proof.
  intros Hd. pose proof (read_di m d 0 (di_len d) Hd ltac:(lia)) as H. rewrite Nat.add_0_r, drop_0, take_ge in H; [done|].
  by rewrite inside_length.
Qed.

Lemma skip_loop_spec m offset l : forall pos, Forall (inside m) l -> (pos <= offset)%nat ->
  let '(l', pos') := skip_loop l pos offset in
  Forall (inside m) l' /\ (pos' <= offset)%nat /\ drop (offset - pos) (content m l) = drop (offset - pos') (content m l') /\
  match l' with d :: _ => (offset < pos' + di_len d)%nat | [] => (pos' = pos + sum_list_with di_len l)%nat end.
Proof.
  induction l as [|d l IH]; intros pos Hin Hpos; cbn [skip_loop sum_list_with]; [by split_and!; [..|lia]|].
  apply Forall_cons in Hin as [Hd Hin]. pose proof (inside_length _ _ Hd) as Hlen.
  destruct (Nat.ltb_spec offset (pos + di_len d)) as [Hlt|Hge]; [split_and!; [by constructor|done|done|done]|].
  specialize (IH (pos + di_len d)%nat Hin ltac:(lia)). destruct (skip_loop l (pos + di_len d) offset) as [l' pos'].
  destruct IH as (H1&H2&H3&H4). split_and!; [done|done| |destruct l'; [lia|done]].
  rewrite <- H3, content_cons, drop_app_ge by lia. f_equal. lia.
Qed.

Lemma copy_loop_spec m l : forall pos offset len, Forall (inside m) l ->
  (match l with d :: _ => offset - pos <= di_len d | [] => True end)%nat -> (len <> 0 -> pos <= offset)%nat ->
  runs (copy_loop l pos offset len) m (fun '(out, rem) m' =>
    m' = m /\ out = take len (drop (offset - pos) (content m l)) /\ rem = (len - length out)%nat).
Proof.
  induction l as [|d l IH]; intros pos offset len Hin Hoff Hpos; cbn [copy_loop].
  { apply runs_ret. change (content m []) with (@nil Z). rewrite drop_nil, take_nil. cbn. split_and!; [done|done|lia]. }
  destruct (Nat.eqb_spec len 0) as [->|Hl0]; [apply runs_ret; by split_and!|].
  apply Forall_cons in Hin as [Hd Hin]. pose proof (inside_length _ _ Hd) as Hlen. specialize (Hpos Hl0).
  replace (if (pos <? offset)%nat then _ else _) with (offset - pos)%nat by (destruct (Nat.ltb_spec pos offset); lia).
  set (inn := (offset - pos)%nat) in *. set (tk := if (di_len d - inn <? len)%nat then _ else _).
  assert (Htk : tk = Nat.min (di_len d - inn) len) by (unfold tk; destruct (Nat.ltb_spec (di_len d - inn) len); lia).
  clearbody tk. apply runs_bind. unfold runs at 1. rewrite read_di by (done || lia).
  apply runs_bind. eapply runs_mono; [apply IH; [done| |lia]|].
  { destruct l as [|d2 l]; [done|]. pose proof Hin as [(?&?&_&_&?&_) _]%Forall_cons. unfold inn in *. unfold di_len in *. lia. }
  intros [out rem] m' (->&->&->). apply runs_ret. split; [done|].
  replace (offset + tk - (pos + di_len d))%nat with 0%nat by (unfold inn in *; lia). rewrite drop_0, content_cons, drop_app_le by lia.
  assert (Ht : length (drop inn (di_bytes m d)) = (di_len d - inn)%nat) by (rewrite length_drop; lia).
  destruct (Nat.le_gt_cases (di_len d - inn) len) as [Hle|Hgt].
  - rewrite (take_app_ge (drop inn _)), Ht, take_ge by lia. split; [do 2 f_equal; lia|]. rewrite length_app, Ht. lia.
  - rewrite take_app_le by lia. replace (len - tk)%nat with 0%nat by lia. rewrite take_0, app_nil_r.
    split; [f_equal; lia|]. rewrite length_take. lia.
Qed.

Lemma chain_content m k : chain_ok m k -> length (content m (chain k)) = data_total_len k.
Proof.
  intros [Ht [([Hin _]&_)|[_ Hz]]]; [by rewrite content_length|]. rewrite Ht, Hz. done.
Qed.

(** Sizes are 16-bit numbers and there are at most 32 descriptors. *)
Lemma total_small m k f : own m (chain k) f -> chain_ok m k -> Z.of_nat (data_total_len k) < 2 ^ 32.
Proof.
  intros Ho [Ht [([Hin _]&Hnum&Hmax)|[_ Hz]]]; [|rewrite Ht, Hz; cbn; lia].
  assert (Hb : forall l, Forall (inside m) l -> Z.of_nat (sum_list_with di_len l) <= UINT16_MAX * Z.of_nat (length l)).
  { induction 1 as [|d l (s&fs&_&Hm&H1&H2&H3) Hl IH]; [cbn; lia|]. cbn [sum_list_with length].
    pose proof (own_small _ _ _ Ho s fs Hm). unfold UINT16_MAX, di_len in *. lia. }
  specialize (Hb _ Hin). rewrite Ht. unfold UINT16_MAX, SKB_DATA_MAX_NUM in *. lia.
Qed.

Lemma skb_copy_bits_spec m k f offset len : own m (chain k) f -> chain_ok m k ->
  Z.of_nat offset < 2 ^ 32 ->
  skb_copy_bits k offset len m =
    Some (if bool_decide (offset + len <= data_total_len k \/ len = 0)%nat
          then Some (take len (drop offset (content m (chain k)))) else None, m).
Proof.
  intros Ho Hc Hoff. pose proof (total_small m k f Ho Hc) as Hu. pose proof (chain_content m k Hc) as Hcl. unfold skb_copy_bits.
  assert (Hbig : (data_total_len k < offset)%nat -> take len (drop offset (content m (chain k))) = []).
  { intros H. by rewrite drop_ge, take_nil by lia. }
  assert (Hzero : content m [zero_di] = []) by done. assert (Hlive : Forall (inside m) (chain k) \/ chain k = [zero_di] /\ data_total_len k = 0%nat).
  { destruct Hc as [Ht [([? ?]&_)|[_ Hz]]]; [by left|right]. split; [done|]. rewrite Ht, Hz. done. }
  destruct (Z.ltb_spec (u32 (Z.of_nat (data_total_len k) - Z.of_nat offset)) (Z.of_nat len)) as [Hlt|Hge].
  - rewrite bool_decide_false; [done|]. intros [H|H]; [rewrite wrap_id in Hlt by (unfold is_u; lia); lia|].
    subst len. pose proof (wrap_range 32 (Z.of_nat (data_total_len k) - Z.of_nat offset) ltac:(lia)). unfold is_u in *. lia.
  - assert (Hfit : (offset <= data_total_len k -> offset + len <= data_total_len k)%nat).
    { intros H. rewrite wrap_id in Hge by (unfold is_u; lia). lia. }
    clear Hge. destruct Hlive as [Hin|[Hz Hz0]].
    + pose proof (skip_loop_spec m offset (chain k) 0 Hin ltac:(lia)) as Hs. destruct (skip_loop (chain k) 0 offset) as [l pos].
      destruct Hs as (H1&H2&H3&H4). pose proof (copy_loop_spec m l pos offset len H1) as Hl. unfold runs in Hl.
      unfold mbind, M_bind. destruct (copy_loop l pos offset len m) as [[[out rem] m']|]; [|destruct Hl; [destruct l; lia|done]].
      destruct Hl as (->&->&->); [destruct l; lia|done|]. unfold mret, M_ret. do 2 f_equal. rewrite <- H3, Nat.sub_0_r in *.
      rewrite length_take, length_drop, Hcl. case_bool_decide as Hb.
      * by rewrite (proj2 (Nat.eqb_eq _ _)) by lia.
      * rewrite (proj2 (Nat.eqb_neq _ _)); [done|]. lia.
    + rewrite Hz. cbn [skip_loop]. replace (offset <? 0 + di_len zero_di)%nat with false by (symmetry; apply Nat.ltb_ge; cbn; lia).
      cbn [skip_loop copy_loop]. unfold mbind, M_bind, mret, M_ret. do 2 f_equal. rewrite Hzero, drop_nil, take_nil.
      destruct (Nat.eqb_spec len 0); case_bool_decide; done || lia.
Qed.

(** *** Checksums *)

Lemma checksum_partial_app l1 : forall l2 s, Nat.Even (length l1) ->
  checksum_partial (l1 ++ l2) s = checksum_partial l2 (checksum_partial l1 s).
Proof.
  induction l1 as [|b|b0 b1 l1 IH] using pair_ind; intros l2 s He; [done|destruct He; cbn in *; lia|].
  cbn [app checksum_partial]. apply IH. destruct He as [q Hq]. exists (q - 1)%nat. cbn in Hq. lia.
Qed.

Definition pend (p : option Z) : list Z := match p with Some b => [b] | None => [] end.

Lemma checksum_even_odd bs s p : (p = None \/ bs = []) ->
  let even := (length bs - length bs mod 2)%nat in
  forall rest, checksum_partial (pend p ++ bs ++ rest) s =
    checksum_partial (pend (match drop even bs with b :: _ => Some b | [] => p end) ++ rest)
      (if (even =? 0)%nat then s else checksum_partial (take even bs) s).
Proof.
  intros Hp even rest. pose proof (Nat.mod_upper_bound (length bs) 2). pose proof (Nat.div_mod_eq (length bs) 2).
  assert (He : Nat.Even even) by (exists (length bs / 2)%nat; unfold even; lia).
  destruct Hp as [->| ->]; [|done]. cbn [pend app].
  rewrite <- (take_drop even bs) at 1. rewrite <- app_assoc, checksum_partial_app by (rewrite length_take, Nat.min_l; [done|unfold even; lia]).
  assert (Hd : (length (drop even bs) <= 1)%nat) by (rewrite length_drop; unfold even; lia).
  destruct (drop even bs) as [|b [|]]; cbn in Hd; [..|lia]; cbn [pend app];
    destruct (Nat.eqb_spec even 0) as [->|]; by rewrite ?take_0.
Qed.

Lemma checksum_loop_spec m l : forall len sum p, Forall (inside m) l ->
  runs (checksum_loop l len sum p) m (fun '(sum', p') m' => m' = m /\
    checksum_partial (pend p') sum' = checksum_partial (pend p ++ take len (content m l)) sum).
Proof.
  induction l as [|d l IH]; intros len sum p Hin; cbn [checksum_loop].
  { apply runs_ret. change (content m []) with (@nil Z). by rewrite take_nil, app_nil_r. }
  destruct (Nat.eqb_spec len 0) as [->|Hl0]; [apply runs_ret; by rewrite take_0, app_nil_r|].
  apply Forall_cons in Hin as [Hd Hin]. pose proof (inside_length _ _ Hd) as Hlen.
  replace (if (len <? di_len d)%nat then len else di_len d) with (Nat.min len (di_len d)) by (destruct (Nat.ltb_spec len (di_len d)); lia).
  apply runs_bind. unfold runs at 1. replace (start d) with (start d + 0)%nat by lia. rewrite read_di by (done || lia). rewrite drop_0.
  set (n := Nat.min len (di_len d)). set (bs := take n (di_bytes m d)).
  assert (Hc : take len (content m (d :: l)) = bs ++ take (len - n) (content m l)).
  { rewrite content_cons, take_app, Hlen. unfold bs, n. f_equal; [|f_equal; lia].
    destruct (Nat.le_gt_cases len (di_len d)); [by rewrite Nat.min_l by lia|rewrite Nat.min_r by lia; by rewrite !take_ge by lia]. }
  rewrite Hc. clearbody bs. destruct p as [p|]; [destruct bs as [|b bs]|].
  - eapply runs_mono; [by apply IH|]. intros [sum' p'] m' [-> H]. split; [done|]. exact H.
  - eapply runs_mono; [by apply IH|]. intros [sum' p'] m' [-> H]. split; [done|]. rewrite H.
    symmetry. exact (checksum_even_odd bs (checksum_partial [p; b] sum) None ltac:(by left) (take (len - n) (content m l))).
  - eapply runs_mono; [by apply IH|]. intros [sum' p'] m' [-> H]. split; [done|]. rewrite H.
    symmetry. exact (checksum_even_odd bs sum None ltac:(by left) (take (len - n) (content m l))).
Qed.

Lemma skb_checksum_spec m k len s : chain_ok m k ->
  skb_checksum k len s m = Some (checksum (take len (content m (chain k))) s, m).
Proof.
  intros Hc. assert (Hl : runs (checksum_loop (chain k) len s None) m (fun '(sum', p') m' => m' = m /\
    checksum_partial (pend p') sum' = checksum_partial (take len (content m (chain k))) s)).
  { destruct Hc as [_ [([Hin _]&_)|[_ ->]]]; [by apply checksum_loop_spec|]. change (content m [zero_di]) with (@nil Z).
    rewrite take_nil. cbn [checksum_loop]. by destruct len. }
  unfold skb_checksum, runs, mbind, M_bind in *. destruct (checksum_loop (chain k) len s None m) as [[[sum p] m']|]; [|done].
  destruct Hl as [-> Hl]. unfold mret, M_ret, checksum. rewrite <- Hl. by destruct p.
Qed.

(** *** Freeing *)

Lemma skb_destroy_spec m k l f : own m (chain k ++ l) f -> runs (skb_destroy k) m (fun _ m' => own m' l f /\ kept nowhere m m').
Proof.
  intros Ho. apply runs_bind. eapply runs_mono; [apply (free_all_spec (more k) m (data0 k :: l) f);
    eapply own_ext; [|exact Ho]; intros s; unfold chain; cbn [app]; rewrite refs_app, !refs_cons, refs_app; lia|].
  intros _ m1 [Ho1 Hk1]. eapply runs_mono; [by apply put_spec|]. intros _ m2 [Ho2 Hk2]. split; [done|by eapply kept_trans].
Qed.

(** *** Clones *)

Lemma clone_loop_spec rest : forall m l f, own m l f -> Forall (inside m) rest -> rest ⊆ l ->
  runs (clone_loop rest) m (fun '(ok, l') m' =>
    own m' (l' ++ l) f /\ kept nowhere m m' /\ (ok = true -> l' = rest)).
Proof.
  induction rest as [|d rest IH]; intros m l f Ho Hin Hsub; cbn [clone_loop].
  { apply runs_ret. split_and!; [done|apply kept_refl|done]. }
  apply Forall_cons in Hin as [Hd Hin]. apply runs_bind, try_alloc_spec. intros b m1 Hs1 Hn1 Hf1.
  assert (Ho1 : own m1 l f) by by eapply same_slots_own. pose proof (same_slots_kept _ _ Hs1 Hn1 Hf1) as Hk1.
  destruct b; cbn [negb]; [|apply runs_ret; by split_and!]. destruct Hd as (s&fs&Hs&_).
  apply runs_bind. eapply runs_mono; [apply (inc_spec m1 d l f s Ho1 Hs); pose proof (refs_pos l d s (Hsub d ltac:(left)) Hs); lia|].
  intros _ m2 [Ho2 Hk2]. assert (Hk02 : kept nowhere m m2) by by eapply kept_trans.
  destruct (content_same m m2 _ _ f f rest Ho Ho2 Hk02 Hin) as [Hin2 _]; [set_solver|].
  apply runs_bind. eapply runs_mono; [apply (IH m2 (d :: l) f Ho2 Hin2); set_solver|].
  intros [ok l'] m3 (Ho3&Hk3&Hok). apply runs_ret. split_and!; [|by eapply kept_trans|intros H; by rewrite Hok].
  eapply own_ext; [|exact Ho3]. intros x. cbn [app]. rewrite refs_app, !refs_cons, refs_app. lia.
Qed.

(** The clone has the same descriptors; both hold a reference to each slot. *)
Lemma skb_clone_spec m k f : own m (chain k) f -> chain_ok m k -> alive k ->
  runs (skb_clone k) m (fun r m' => kept nowhere m m' /\
    match r with
    | Some c => own m' (chain k ++ chain c) f /\ chain c = chain k /\ data_num c = data_num k /\ data_total_len c = data_total_len k
    | None => own m' (chain k) f
    end).
Proof.
  intros Ho Hc Ha. destruct (alive_chain m k Hc Ha) as ([Hin Hnd]&Hnum&Hmax).
  apply runs_bind, try_alloc_spec. intros b m1 Hs1 Hn1 Hf1.
  assert (Ho1 : own m1 (chain k) f) by by eapply same_slots_own. pose proof (same_slots_kept _ _ Hs1 Hn1 Hf1) as Hk1.
  destruct b; cbn [negb]; [|by apply runs_ret]. pose proof Hin as [(s&fs&Hs&_) Hm]%Forall_cons.
  apply runs_bind. eapply runs_mono; [apply (inc_spec m1 (data0 k) (chain k) f s Ho1 Hs);
    pose proof (refs_pos (chain k) (data0 k) s ltac:(left) Hs); lia|].
  intros _ m2 [Ho2 Hk2]. assert (Hk02 : kept nowhere m m2) by by eapply kept_trans.
  destruct (content_same m m2 _ _ f f (more k) Ho Ho2 Hk02 Hm) as [Hm2 _]; [unfold chain; set_solver|].
  apply runs_bind. eapply runs_mono; [apply (clone_loop_spec (more k) m2 _ f Ho2 Hm2); unfold chain; set_solver|].
  intros [ok l'] m3 (Ho3&Hk3&Hok). assert (Hk03 : kept nowhere m m3) by by eapply kept_trans.
  assert (Ho3' : own m3 ((data0 k :: l') ++ chain k) f).
  { eapply own_ext; [|exact Ho3]. intros x. cbn [app]. rewrite refs_app, !refs_cons, refs_app. lia. }
  destruct ok.
  - apply runs_ret. split; [done|]. rewrite Hok in * by done. split_and!; [|done|done|done].
    eapply own_ext; [|exact Ho3']. intros x. rewrite !refs_app. unfold chain. cbn [data0 more]. lia.
  - apply runs_bind. eapply runs_mono; [apply skb_destroy_spec, Ho3'|]. intros _ m4 [Ho4 Hk4]. apply runs_ret.
    split; [by eapply kept_trans|done].
Qed.

(** *** Copies *)

Lemma copy_into_spec m0 m1 l f d n s sz : own m0 l f -> live m0 l -> kept nowhere m0 m1 -> new_slot_ok m0 m1 n s sz l f ->
  d ∈ l -> inside m0 d -> (size d <= sz)%nat ->
  runs (copy_into d (Some s)) m1 (fun d' m2 =>
    own m2 (l ++ [d']) f /\ live m2 (l ++ [d']) /\ kept nowhere m0 m2 /\ content m2 l = content m0 l /\
    content m2 [d'] = di_bytes m0 d /\ di_len d' = di_len d).
Proof.
  intros Ho Hl Hk Hnew Hd Hi Hsz. pose proof Hnew as (_&_&_&Hown). specialize (Hown 0 0 0)%nat.
  destruct (content_same m0 m1 _ _ f f [d] Ho Hown Hk) as [[Hi1 _]%Forall_cons Hc1]; [by constructor|set_solver|].
  pose proof (inside_length _ _ Hi) as Hlen. cbn in Hc1. rewrite !app_nil_r in Hc1.
  unfold copy_into. apply runs_bind. unfold runs at 1. rewrite read_all, Hc1 by done. destruct Hi as (?&?&_&_&H1&H2&_).
  apply runs_bind. eapply runs_mono; [apply (write_new m0 m1 l f n s sz (start d) (size d) (di_bytes m0 d)); try done; rewrite Hlen; unfold di_len; lia|].
  rewrite Hlen. intros _ m2 (Ho2&Hl2&Hk2&Hc2&Hcd2). apply runs_ret. split_and!; try done. unfold di_len. cbn. lia.
Qed.

Lemma copy_rest_spec rest : forall m l f, own m l f -> live m l -> rest ⊆ l -> Forall (inside m) rest ->
  runs (copy_rest rest) m (fun '(ok, l') m' =>
    own m' (l ++ l') f /\ live m' (l ++ l') /\ kept nowhere m m' /\ content m' l = content m l /\
    (ok = true -> content m' l' = content m rest /\ length l' = length rest /\ sum_list_with di_len l' = sum_list_with di_len rest)).
Proof.
  induction rest as [|d rest IH]; intros m l f Ho Hl Hsub Hin; cbn [copy_rest].
  { apply runs_ret. rewrite app_nil_r. split_and!; try done. apply kept_refl. }
  apply Forall_cons in Hin as [Hd Hin]. apply runs_bind. eapply runs_mono; [by apply (alloc_data_info_spec m l f)|].
  intros [n|] m1 [Hk1 H1].
  2:{ apply runs_ret. destruct (content_same m m1 _ _ f f l Ho H1 Hk1 (proj1 Hl) ltac:(done)) as [Hi1 Hc1]. rewrite app_nil_r.
      split_and!; try done. by split; [|destruct Hl]. }
  destruct H1 as (s&sz&->&Hnew). pose proof Hnew as (_&Hsz&_&Hown). specialize (Hown 0 0 0)%nat.
  destruct (content_same m m1 _ _ f f [d] Ho Hown Hk1) as [[Hi1 _]%Forall_cons _]; [by constructor|set_solver|].
  apply runs_bind. apply load_di; [done|]. intros _.
  cbn [slot]. apply runs_bind. eapply runs_mono; [apply (copy_into_spec m m1 l f d (size d) s sz); try done; apply Hsub; left|].
  intros d' m2 (Ho2&Hl2&Hk2&Hc2&Hcd2&Hdl2).
  destruct (content_same m m2 _ _ f f rest Ho Ho2 Hk2 Hin) as [Hin2 Hcr2]; [set_solver|].
  apply runs_bind. eapply runs_mono; [apply (IH m2 (l ++ [d']) f Ho2 Hl2); [set_solver|done]|].
  intros [ok l'] m3 (Ho3&Hl3&Hk3&Hc3&Hok). apply runs_ret. rewrite <- app_assoc in Ho3, Hl3. cbn [app] in Ho3, Hl3.
  pose proof (proj1 Hl2) as [Hi2 Hd2]%Forall_app.
  destruct (content_same m2 m3 _ _ f f l Ho2 Ho3 Hk3 Hi2) as [_ Hcl3]; [set_solver|].
  destruct (content_same m2 m3 _ _ f f [d'] Ho2 Ho3 Hk3 Hd2) as [_ Hcd3]; [set_solver|].
  split_and!; [done|done|by eapply kept_trans|congruence|]. intros H. destruct (Hok H) as (Hca&Hla&Hsa). split_and!.
  - change (d' :: l') with ([d'] ++ l'). rewrite content_app, Hcd3, Hcd2, Hca, Hcr2. done.
  - cbn. lia.
  - cbn [sum_list_with]. lia.
Qed.

(** The copy has slots of its own. *)
Lemma skb_copy_spec m k f : own m (chain k) f -> chain_ok m k -> alive k ->
  runs (skb_copy k) m (fun r m' => kept nowhere m m' /\
    match r with
    | Some c => own m' (chain k ++ chain c) f /\ live m' (chain k ++ chain c) /\ chain_ok m' c /\ alive c /\
        content m' (chain c) = content m (chain k)
    | None => own m' (chain k) f
    end).
Proof.
  intros Ho Hc Ha. destruct (alive_chain m k Hc Ha) as (Hl&Hnum&Hmax). destruct Hc as [Ht _].
  apply runs_bind, try_alloc_spec. intros b m1 Hs1 Hn1 Hf1.
  assert (Ho1 : own m1 (chain k) f) by by eapply same_slots_own. pose proof (same_slots_kept _ _ Hs1 Hn1 Hf1) as Hk1.
  destruct b; cbn [negb]; [|by apply runs_ret].
  destruct (content_same m m1 _ _ f f (chain k) Ho Ho1 Hk1 (proj1 Hl) ltac:(done)) as [Hi1 Hc1].
  assert (Hl1 : live m1 (chain k)) by by split; [|destruct Hl]. pose proof Hi1 as [Hd Hm]%Forall_cons.
  apply runs_bind. apply load_di; [done|]. intros _.
  apply runs_bind. eapply runs_mono; [by apply (frame_slot_alloc_spec m1 (chain k) f)|]. intros [[s sz]|] m2 [Hk2 H2].
  2:{ apply runs_bind, runs_ret, runs_ret. split; [by eapply kept_trans|done]. }
  apply runs_bind. eapply runs_mono; [apply (copy_into_spec m1 m2 (chain k) f (data0 k) (size (data0 k)) s sz); try done; [left|by destruct H2 as (_&?&_)]|].
  intros d' m3 (Ho3&Hl3&Hk3&Hc3&Hcd3&Hdl3). apply runs_bind.
  destruct (content_same m1 m3 _ _ f f (more k) Ho1 Ho3 Hk3 Hm) as [Hm3 Hcm3]; [unfold chain; set_solver|].
  eapply runs_mono; [apply (copy_rest_spec (more k) m3 (chain k ++ [d']) f Ho3 Hl3); [unfold chain; set_solver|done]|].
  intros [ok rest] m4 (Ho4&Hl4&Hk4&Hc4&Hok). rewrite <- app_assoc in Ho4, Hl4. cbn [app] in Ho4, Hl4.
  assert (Hk04 : kept nowhere m m4) by (eapply kept_trans; [done|by eapply kept_trans]).
  destruct ok.
  - apply runs_ret. destruct (Hok eq_refl) as (Hca&Hla&Hsa). split; [done|]. pose proof Hl4 as [[_ Hi4]%Forall_app Hnd4].
    pose proof (proj1 Hl3) as [_ Hd3]%Forall_app.
    destruct (content_same m3 m4 _ _ f f [d'] Ho3 Ho4 Hk4 Hd3) as [_ Hcd4]; [set_solver|].
    split_and!; [done|done| |done|].
    + split; unfold chain in *; cbn [data0 more data_total_len data_num] in *; [rewrite Ht; cbn [sum_list_with]; lia|].
      left. rewrite fmap_app in Hnd4. apply NoDup_app in Hnd4 as (_&_&Hnd4). split_and!; [done|cbn; lia|cbn in Hnum; lia].
    + unfold chain. cbn [data0 more]. change (d' :: rest) with ([d'] ++ rest). rewrite content_app, Hcd4, Hcd3, Hca, Hcm3.
      unfold chain in Hc1. rewrite <- Hc1. done.
  - apply runs_bind. eapply runs_mono; [apply (skb_destroy_spec m4 _ (chain k) f); eapply own_ext; [|exact Ho4];
      intros x; unfold chain; cbn [with_data data0 more]; rewrite !refs_app; lia|].
    intros _ m5 [Ho5 Hk5]. apply runs_ret. split; [by eapply kept_trans|done].
Qed.
