(* ===== verification/SkbuffSplit.v ===== *)
(** Packet buffers, splitting and joining: [skb_split] gives the first bytes and the
    rest, [skb_append_skb] puts two packets together. *)

From stdpp Require Import prelude list gmap.
From Stdlib Require Import ZArith Lia.
From S2P Require Import Prelude Checksum Skbuff SkbuffMem SkbuffOps.
Import Skb.

(** *** Splitting *)

Lemma refs_perm l1 l2 s : slot <$> l1 ≡ₚ slot <$> l2 -> refs l1 s = refs l2 s.
Proof.
  assert (Hr : forall l, refs l s = sum_list_with (fun o => if bool_decide (o = Some s) then 1 else 0)%nat (slot <$> l)).
  { induction l as [|d l IH]; [done|]. rewrite refs_cons, fmap_cons. cbn [sum_list_with]. by rewrite IH. }
  rewrite !Hr. generalize (slot <$> l1) (slot <$> l2). clear. induction 1; cbn [sum_list_with]; lia.
Qed.

Lemma live_perm m l1 l2 : slot <$> l1 ≡ₚ slot <$> l2 -> live m l1 -> Forall (inside m) l2 -> live m l2.
Proof. intros Hp [_ Hnd] Hin. split; [done|]. by rewrite <- Hp. Qed.

Lemma live_app m l1 l2 : live m (l1 ++ l2) -> live m l1 /\ live m l2.
Proof. intros [[H1 H2]%Forall_app Hnd]. rewrite fmap_app in Hnd. apply NoDup_app in Hnd as (?&_&?). done. Qed.

Lemma split_walk_spec len l : forall cum, (cum <= len)%nat -> (len < cum + sum_list_with di_len l)%nat ->
  let '(before, after, cut) := split_walk l cum len in
  l = before ++ after /\ (cum + sum_list_with di_len before + cut)%nat = len /\
  exists d rest, after = d :: rest /\ (cut = 0 \/ cut < di_len d)%nat.
Proof.
  induction l as [|d l IH]; intros cum Hcum Hlen; cbn [split_walk sum_list_with] in *; [lia|].
  destruct (Nat.ltb_spec len (cum + di_len d)) as [Hlt|Hge].
  { split_and!; [done|cbn; lia|]. exists d, l. split; [done|lia]. }
  destruct (Nat.eqb_spec (cum + di_len d) len) as [He|Hne].
  { split_and!; [done|cbn; lia|]. destruct l as [|d2 l]; [cbn in Hlen; lia|]. exists d2, l. split; [done|by left]. }
  specialize (IH (cum + di_len d)%nat ltac:(lia) ltac:(lia)). destruct (split_walk l (cum + di_len d) len) as [[before after] cut].
  destruct IH as (->&Hs&Hd). split_and!; [done|cbn [sum_list_with]; lia|done].
Qed.

(** What a split gives: the first [len] bytes and the rest. *)
Definition was_split (m : mem) (k : skbuff) (f : nat -> nat) (len : nat) (k' tail : skbuff) (m' : mem) : Prop :=
  own m' (chain k' ++ chain tail) f /\ live m' (chain k' ++ chain tail) /\ kept nowhere m m' /\
  chain_ok m' k' /\ chain_ok m' tail /\ alive k' /\ alive tail /\
  content m' (chain k') = take len (content m (chain k)) /\ content m' (chain tail) = drop len (content m (chain k)).

(** Chains that cover the parts of a packet. *)
Lemma split_post m m' k f len k' tail l1 d1 l2 d2 :
  chain_ok m k -> alive k -> own m' ((l1 ++ [d1]) ++ d2 :: l2) f -> live m' ((l1 ++ [d1]) ++ d2 :: l2) -> kept nowhere m m' ->
  chain k' = l1 ++ [d1] -> chain tail = d2 :: l2 -> data_num k' = S (length l1) -> data_num tail = S (length l2) ->
  (S (length l1) <= SKB_DATA_MAX_NUM)%nat -> (S (length l2) <= SKB_DATA_MAX_NUM)%nat ->
  data_total_len k' = len -> (len < data_total_len k)%nat -> data_total_len tail = (data_total_len k - len)%nat ->
  content m' (l1 ++ [d1]) = take len (content m (chain k)) -> content m' (d2 :: l2) = drop len (content m (chain k)) ->
  was_split m k f len k' tail m'.
Proof.
  intros Hc Ha Ho Hl Hk E1 E2 N1 N2 B1 B2 T1 Hlt T2 C1 C2. pose proof (chain_content m k Hc) as Hcl.
  apply live_app in Hl as Hl12. destruct Hl12 as [Hl1 Hl2]. unfold was_split. rewrite E1, E2. split_and!; try done.
  - split; rewrite E1; [|left; split_and!; [done|rewrite length_app; cbn; lia|lia]].
    rewrite <- (content_length m'), C1, length_take by apply Hl1. lia.
  - split; rewrite E2; [|left; split_and!; [done|cbn; lia|lia]].
    rewrite <- (content_length m'), C2, length_drop by apply Hl2. lia.
  - unfold alive. lia.
  - unfold alive. lia.
Qed.

(** The cut falls inside a descriptor: its second part is copied out. *)
Lemma split_cut_spec m k f len before d rest cut :
  own m (chain k) f -> chain_ok m k -> alive k -> (len < data_total_len k)%nat ->
  chain k = before ++ d :: rest -> (sum_list_with di_len before + cut)%nat = len -> (0 < cut < di_len d)%nat ->
  runs (_ ← load (slot d);
        r ← alloc_data_info (size d);
        match r with
        | None => mret (None, k)
        | Some n =>
            bs ← read (slot d) (start d + cut) (end_ d - (start d + cut));
            write (slot n) (start d) bs;;
            let n := mk_di (slot n) (start d) (start d + (end_ d - (start d + cut))) (size n) in
            let tail_count := S (length rest) in
            mret (Some (of_chain (tail_of k) tail_count (data_total_len k - len) (n :: rest)),
                  of_chain k (data_num k - (tail_count - 1)) len (before ++ [mk_di (slot d) (start d) (start d + cut) (size d)]))
        end) m (fun '(r, k') m' =>
    match r with
    | Some tail => was_split m k f len k' tail m'
    | None => k' = k /\ op_post nowhere m k f (content m (chain k)) m'
    end).
Proof.
  intros Ho Hc Ha Hlt Hch Hsum Hcut. destruct (alive_chain m k Hc Ha) as (Hl&Hnum&Hmax). rewrite Hch in Hl, Hnum. rewrite length_app in Hnum. cbn in Hnum.
  pose proof (proj1 Hl) as [Hb [Hd Hr]%Forall_cons]%Forall_app. pose proof Hd as (s0&fs0&Hs0&Hm0&D1&D2&D3). pose proof (inside_length _ _ Hd) as Hdl.
  apply runs_bind. apply load_di; [done|]. intros _.
  apply runs_bind. eapply runs_mono; [by apply (alloc_data_info_spec m (chain k) f)|]. intros [n|] m1 [Hk1 H1].
  2:{ apply runs_ret. split; [done|]. destruct (content_same m m1 _ _ f f (chain k) Ho H1 Hk1) as [Hi1 Hc1]; [rewrite Hch; apply Hl|done|].
      split; [done|done| |done]. destruct Hc as [Ht Hcc]. split; [done|]. left. split_and!; [|by rewrite Hch, length_app; cbn|done]. split; [done|]. rewrite Hch. apply Hl. }
  destruct H1 as (s&sz&->&Hnew). cbn [slot size]. replace (size d =? 0)%nat with false by (symmetry; apply Nat.eqb_neq; unfold di_len in Hcut; lia).
  pose proof Hnew as (_&Hsz&_&Hown). specialize (Hown 0 0 0)%nat. set (tl := (end_ d - (start d + cut))%nat).
  assert (Hll : live m (chain k)) by by rewrite Hch.
  destruct (content_same m m1 _ _ f f [d] Ho Hown Hk1) as [[Hd1 _]%Forall_cons Hcd1]; [by constructor|rewrite Hch; set_solver|].
  cbn in Hcd1. rewrite !app_nil_r in Hcd1. apply runs_bind. unfold runs at 1. rewrite read_di by (done || (unfold tl, di_len in *; lia)). rewrite Hcd1.
  set (bs := take tl (drop cut (di_bytes m d))). assert (Hbl : length bs = tl) by (unfold bs; rewrite length_take, length_drop, Hdl; unfold tl, di_len; lia).
  apply runs_bind. eapply runs_mono; [apply (write_new m m1 (chain k) f (size d) s sz (start d) (size d) bs); try done; rewrite Hbl; unfold tl; lia|].
  rewrite Hbl. set (n := mk_di _ _ _ _). intros _ m2 (Ho2&Hl2&Hk2&Hc2&Hcn2). apply runs_ret. cbn [Nat.sub].
  set (d1 := mk_di (slot d) (start d) (start d + cut) (size d)). rewrite Hch in Ho2, Hl2, Hc2.
  assert (Hp : slot <$> ((before ++ d :: rest) ++ [n]) ≡ₚ slot <$> ((before ++ [d1]) ++ n :: rest)).
  { rewrite !fmap_app, !fmap_cons. change (slot d1) with (slot d). solve_Permutation. }
  pose proof (proj1 Hl2) as [[Hb2 [Hd2 Hr2]%Forall_cons]%Forall_app [Hn2 _]%Forall_cons]%Forall_app.
  destruct (inside_sub m2 d (start d) (start d + cut) Hd2) as [Hi1 Hb1]; [lia|lia|unfold di_len in Hcut; lia|]. fold d1 in Hi1, Hb1.
  rewrite !content_app, !content_cons in Hc2. apply app_inj_1 in Hc2 as [Hcb Hc2]; [|by rewrite !content_length].
  apply app_inj_1 in Hc2 as [Hcd Hcr]; [|by rewrite !inside_length].
  assert (Hcut' : content m (chain k) = content m before ++ di_bytes m d ++ content m rest) by by rewrite Hch, content_app.
  assert (Hlb : length (content m before) = (len - cut)%nat) by (rewrite content_length by done; lia).
  eapply (split_post m m2 k f len _ _ before d1 rest n); try done.
  - eapply own_ext; [|exact Ho2]. intros x. by rewrite (refs_perm _ _ x Hp).
  - eapply live_perm; [exact Hp|done|]. apply Forall_app. split; [apply Forall_app; split; [done|by constructor]|by constructor].
  - unfold of_chain. by destruct before.
  - unfold of_chain. destruct before; cbn in *; lia.
  - lia.
  - lia.
  - unfold of_chain. by destruct before.
  - rewrite content_app, Hcb, Hcut', take_app_ge, Hlb by lia. f_equal. cbn. rewrite app_nil_r, Hb1, Nat.sub_diag, drop_0, Hcd.
    rewrite take_app_le by lia. f_equal. lia.
  - change (n :: rest) with ([n] ++ rest). rewrite content_app, Hcn2, Hcr, Hcut', drop_app_ge, Hlb by lia.
    rewrite drop_app_le by lia. f_equal. unfold bs. rewrite take_ge; [f_equal; lia|]. rewrite length_drop, Hdl. unfold tl, di_len. lia.
Qed.

Lemma skb_split_spec m k f len : own m (chain k) f -> chain_ok m k ->
  runs (skb_split k len) m (fun '(r, k') m' =>
    match r with
    | Some tail => was_split m k f len k' tail m'
    | None => k' = k /\ op_post nowhere m k f (content m (chain k)) m'
    end).
Proof.
  intros Ho Hc. unfold skb_split. destruct (Nat.leb_spec (data_total_len k) len) as [Hle|Hlt]; [apply runs_ret; split; [done|by apply op_refl]|].
  pose proof (total_alive m k Hc ltac:(lia)) as Ha. destruct (alive_chain m k Hc Ha) as (Hl&Hnum&Hmax). pose proof Hc as [Ht _].
  pose proof (split_walk_spec len (chain k) 0 ltac:(lia) ltac:(lia)) as Hw.
  destruct (split_walk (chain k) 0 len) as [[before after] cut]. destruct Hw as (Hch&Hsum&d&rest&->&Hcut).
  apply runs_bind, try_alloc_spec. intros b m1 Hs1 Hn1 Hf1. pose proof (same_slots_kept _ _ Hs1 Hn1 Hf1) as Hk1.
  assert (Ho1 : own m1 (chain k) f) by by eapply same_slots_own. destruct (same_chain_ok m m1 k Hs1 Hc) as [Hc1 Hcn1].
  assert (Hsame : op_post nowhere m k f (content m (chain k)) m1) by by apply op_same.
  destruct b; cbn [negb]; [|by apply runs_ret]. destruct (Nat.eqb_spec cut 0) as [->|Hne]; cbn [negb].
  - destruct before as [|b0 before] using rev_ind; [by apply runs_ret|]. clear IHbefore.
    destruct (alive_chain m1 k Hc1 Ha) as (Hl1&_&_). rewrite Hch in Hl1, Ho1, Hnum, Hcn1. rewrite !length_app in Hnum. cbn in Hnum.
    pose proof (proj1 Hl1) as [Hb Hr]%Forall_app. pose proof (content_length m1 _ Hb) as Hlb.
    assert (Hm : forall (X Y : M (option skbuff * skbuff)), match before ++ [b0] with [] => X | _ => Y end = Y) by (intros; by destruct before).
    rewrite Hm. apply runs_ret. eapply (split_post m m1 k f len _ _ before b0 rest d); try done.
    + unfold of_chain. by destruct before.
    + unfold of_chain. destruct before; cbn in *; rewrite ?length_app in *; cbn in *; lia.
    + lia.
    + lia.
    + unfold of_chain. by destruct before.
    + rewrite Hch, <- Hcn1, (content_app m1 (before ++ [b0]) (d :: rest)), take_app_length' by lia. done.
    + rewrite Hch, <- Hcn1, (content_app m1 (before ++ [b0]) (d :: rest)), drop_app_length' by lia. done.
  - eapply runs_mono; [apply (split_cut_spec m1 k f len before d rest cut); try done; lia|].
    intros [[tail|] k'] m' H.
    + unfold was_split in *. rewrite Hcn1 in H. destruct H as (H1&H2&H3&H4). split_and!; [done|done|by eapply kept_trans|apply H4..].
    + destruct H as [-> [Ho' Hk' Hc' Hcn']]. split; [done|]. split; [done|by eapply kept_trans|done|congruence].
Qed.

(** *** Joining *)

Lemma overwrite_overwrite l off a b : (off + length a + length b <= length l)%nat ->
  overwrite (overwrite l off a) (off + length a) b = overwrite l off (a ++ b).
Proof.
  intros H. assert (H1 : (off + length a <= length l)%nat) by lia. pose proof (length_overwrite l off a H1) as Hl.
  apply list_eq. intros i. destruct (decide (off + length a <= i < off + length a + length b)%nat) as [Hb|Hb].
  - rewrite !lookup_overwrite_in, lookup_app_r; rewrite ?length_app; [f_equal; lia|lia..].
  - rewrite lookup_overwrite by lia. destruct (decide (off <= i < off + length a)%nat) as [Ha|Ha].
    + rewrite !lookup_overwrite_in, lookup_app_l; rewrite ?length_app; [done|lia..].
    + rewrite !lookup_overwrite; rewrite ?length_app; [done|lia..].
Qed.

Lemma overwrite_nil l off : overwrite l off [] = l.
Proof. unfold overwrite. cbn. by rewrite Nat.add_0_r, take_drop. Qed.

(** The bytes of the chain [l], part of [B], copied over bytes of [D]. *)
Lemma append_copy_spec A D B f l : forall m off n, own m (A ++ D :: B) f -> live m (A ++ D :: B) -> l ⊆ B -> n = sum_list_with di_len l ->
  (start D <= off)%nat -> (off + sum_list_with di_len l <= end_ D)%nat ->
  runs (append_copy l (slot D) off n) m (fun _ m' =>
    own m' (A ++ D :: B) f /\ live m' (A ++ D :: B) /\ (exists s, slot D = Some s /\ kept (range s off n) m m') /\
    content m' A = content m A /\ di_bytes m' D = overwrite (di_bytes m D) (off - start D) (content m l)).
Proof.
  induction l as [|d l IH]; intros m off n Ho Hl Hsub -> Hst Hend; cbn [append_copy sum_list_with] in *.
  { apply runs_ret. change (content m []) with (@nil Z). rewrite overwrite_nil. split_and!; try done.
    destruct Hl as [[_ [(s&fs&Hs&_) _]%Forall_cons]%Forall_app _]. exists s. split; [done|apply kept_refl]. }
  pose proof (proj1 Hl) as [HA [HD HB]%Forall_cons]%Forall_app. pose proof HD as (sD&fD&HsD&_).
  assert (Hinl : forall x, x ∈ d :: l -> inside m x) by (intros x Hx; rewrite Forall_forall in HB; apply HB, Hsub, Hx).
  pose proof (Hinl d ltac:(left)) as Hd. pose proof (inside_length _ _ Hd) as Hdl. pose proof (inside_length _ _ HD) as HDl.
  assert (Hli : Forall (inside m) l) by (apply Forall_forall; intros x Hx; apply Hinl; by right).
  destruct (Nat.eqb_spec (di_len d + sum_list_with di_len l) 0) as [Ez|Ez].
  { apply runs_ret. split_and!; try done; [exists sD; split; [done|apply kept_refl]|].
    rewrite (nil_length_inv (content m (d :: l))); [by rewrite overwrite_nil|]. rewrite content_length; [done|by constructor]. }
  apply runs_bind. unfold runs at 1. rewrite read_all by done. apply runs_bind.
  eapply runs_mono; [apply (write_di m f A D B off (di_bytes m d)); [done|done|done|lia]|].
  intros _ m1 (Ho1&Hl1&(s&Hs&Hk1)&Hc1). pose proof (proj1 Hl1) as [HA1 [HD1 HB1]%Forall_cons]%Forall_app.
  rewrite content_app, content_cons in Hc1. apply app_inj_1 in Hc1 as [HcA Hc1]; [|by rewrite !content_length].
  apply app_inj_1 in Hc1 as [HcD HcB]; [|rewrite length_overwrite by (unfold di_len in *; lia); by rewrite !inside_length].
  assert (Hcl : content m1 l = content m l).
  { apply (content_kept _ _ _ _ _ _ _ Ho Ho1 Hk1 l Hli); [apply held_sub; set_solver|]. intros x s' i Hx Hs' _ [-> _].
    destruct Hl as [_ Hnd]. rewrite fmap_app, fmap_cons in Hnd. apply NoDup_app in Hnd as (_&_&[Hnd _]%NoDup_cons).
    apply Hnd. rewrite Hs, <- Hs'. apply list_elem_of_fmap_2. apply Hsub. by right. }
  eapply runs_mono; [apply (IH m1); [done|done|set_solver|lia|lia|lia]|].
  intros _ m2 (Ho2&Hl2&(s'&Hs'&Hk2)&HcA2&HcD2). assert (s' = s) as -> by congruence. split_and!; [done|done| |congruence|].
  - exists s. split; [done|]. eapply kept_trans; eapply kept_mono; [|exact Hk1| |exact Hk2]; unfold range; intros x i [-> ?]; (split; [done|lia]).
  - rewrite HcD2, HcD, Hcl, content_cons. replace (off + di_len d - start D)%nat with (off - start D + length (di_bytes m d))%nat by lia.
    apply overwrite_overwrite. rewrite HDl, Hdl, content_length by done. unfold di_len in *. lia.
Qed.

(** Room of one packet and windows of the other do not meet. *)
Lemma skb_append_skb_spec m a b f data_copy : own m (chain a ++ chain b) f -> live m (chain a ++ chain b) ->
  chain_ok m a -> chain_ok m b -> alive a -> alive b ->
  runs (skb_append_skb a b data_copy) m (fun '(ok, a') m' => alive a' /\ kept (tailroom a) m m' /\
    if ok : bool then own m' (chain a') f /\ chain_ok m' a' /\ content m' (chain a') = content m (chain a) ++ content m (chain b)
    else a' = a /\ slots m' = slots m /\ own m' (chain a ++ chain b) f).
Proof.
  intros Ho Hl Hca Hcb Haa Hab. destruct (alive_chain m a Hca Haa) as (Hla&Hna&Hma). destruct (alive_chain m b Hcb Hab) as (Hlb&Hnb&Hmb).
  pose proof Hca as [Hta _]. pose proof Hcb as [Htb _]. unfold skb_append_skb. destruct data_copy; cbn [negb andb].
  - apply runs_bind. unfold runs at 1. rewrite skb_data_put_spec by done.
    destruct (Nat.leb_spec (data_total_len b) (size (last_di a) - end_ (last_di a))) as [Hfit|Hbig];
      [|apply runs_ret; split_and!; [done|apply kept_refl|done..]].
    destruct (grown_spec m a (data_total_len b) Hca Haa Hfit) as (Hcg&Hag&junk&Hjl&Hjb). set (g := grown a (data_total_len b)) in *.
    set (D := grown_di a (data_total_len b)) in *. assert (Hch : chain g ++ chain b = front a ++ D :: chain b).
    { unfold g. by rewrite chain_grown, <- app_assoc. }
    assert (Hsl : slot <$> chain g = slot <$> chain a) by apply grown_slots.
    assert (Hog : own m (front a ++ D :: chain b) f).
    { rewrite <- Hch. eapply own_ext; [|exact Ho]. intros x. rewrite !refs_app. by rewrite (refs_slots _ _ x Hsl). }
    assert (Hlg : live m (front a ++ D :: chain b)).
    { rewrite <- Hch. eapply live_perm; [|exact Hl|]; [by rewrite !fmap_app, Hsl|]. apply Forall_app.
      split; [by destruct (alive_chain m g Hcg Hag) as ([? _]&_)|apply Hlb]. }
    destruct (inside_last m a (proj1 Hla)) as [Hfr Hlast]. pose proof Hlast as (s0&fs0&Hs0&_&H1&H2&_).
    apply runs_bind. change (slot (last_di a)) with (slot D).
    eapply runs_mono; [apply (append_copy_spec (front a) D (chain b) f (chain b)); [done|done|done|done|done|unfold D, grown_di; cbn [end_]; lia]|].
    intros _ m1 (Ho1&Hl1&(s&Hs&Hk1)&HcF&HcD). apply runs_bind. assert (Hk1' : kept (tailroom a) m m1).
    { eapply kept_mono; [|exact Hk1]. intros x i [-> Hi]. split; [done|lia]. }
    eapply runs_mono; [apply (skb_destroy_spec m1 b (chain g) f); eapply own_ext; [|exact Ho1]; intros x; rewrite <- Hch, !refs_app; lia|].
    intros _ m2 [Ho2 Hk2]. apply runs_ret. rewrite <- Hch in Hl1, Ho1. apply live_app in Hl1 as [Hl1 _].
    destruct (content_same m1 m2 _ _ f f (chain g) Ho1 Ho2 Hk2 (proj1 Hl1) ltac:(done)) as [Hi2 Hc2].
    split_and!; [done|eapply kept_trans; [done|]; eapply kept_mono; [|done]; by intros ? ? []|done| |].
    + destruct Hcg as [Htg _]. destruct (alive_chain m g) as (_&Hng&Hmg); [|done|]. { destruct (grown_spec m a _ Hca Haa Hfit). done. }
      split; [done|]. left. split_and!; [split; [done|apply Hl1]|done|done].
    + rewrite Hc2. unfold g. rewrite chain_grown, (chain_front a), !content_app, HcF, <- app_assoc. f_equal.
      change (content m1 [grown_di a (data_total_len b)]) with (di_bytes m1 D ++ []). change (content m [last_di a]) with (di_bytes m (last_di a) ++ []).
      rewrite !app_nil_r, HcD, Hjb. change (start D) with (start (last_di a)).
      replace (end_ (last_di a) - start (last_di a))%nat with (length (di_bytes m (last_di a))) by by apply inside_length.
      apply overwrite_end. rewrite content_length by apply Hlb. lia.
  - destruct (Nat.ltb_spec SKB_DATA_MAX_NUM (data_num a + data_num b)) as [Hbig|Hfit];
      [apply runs_ret; split_and!; [done|apply kept_refl|done..]|].
    apply runs_bind, try_alloc_spec. intros ok m1 Hs1 Hn1 Hf1.
    assert (Hk1 : kept (tailroom a) m m1) by (eapply kept_mono; [|by apply same_slots_kept]; by intros ? ? []).
    assert (Ho1 : own m1 (chain a ++ chain b) f) by by eapply same_slots_own.
    destruct ok; cbn [negb]; apply runs_ret; [|by split_and!]. split_and!; [unfold alive in *; cbn; lia|done|done| |].
    + split; unfold chain in *; cbn [with_data data0 more data_total_len data_num] in *; rewrite app_comm_cons.
      * rewrite sum_list_with_app. lia.
      * left. split_and!; [|rewrite length_app; lia|lia]. destruct Hl as [Hin Hnd]. split; [|done]. eapply Forall_impl; [exact Hin|].
        intros d. unfold inside. by rewrite Hs1.
    + unfold chain at 1. cbn [with_data data0 more]. rewrite app_comm_cons, content_app. f_equal;
        [destruct (same_chain_ok m m1 a Hs1 Hca)|destruct (same_chain_ok m m1 b Hs1 Hcb)]; done.
Qed.
