(* ===== verification/SkbuffFrame.v ===== *)
(** Packet buffers, framing: what the operations on one packet leave of the others.
    Packets that share no slot stay apart, and what is not written keeps its bytes. *)

From stdpp Require Import prelude list gmap.
From Stdlib Require Import ZArith Lia.
From S2P Require Import Prelude Skbuff SkbuffMem SkbuffOps SkbuffSplit.
Import Skb.

(** Inclusion of a part of a chain in the whole. *)
Ltac sublist :=
  first [ done
        | apply list_subseteq_app_iff_l; split; sublist
        | apply list_subseteq_app_l; sublist
        | apply list_subseteq_app_r; sublist ].

(** The slots of [l'] are slots of [l] or new ones. *)
Definition sub_slots (m : mem) (l l' : list data_info) : Prop :=
  forall d s, d ∈ l' -> slot d = Some s -> (s < next_slot m)%nat -> Some s ∈ slot <$> l.

Lemma sub_slots_refl m l : sub_slots m l l.
Proof. intros d s Hd Hs _. rewrite <- Hs. by apply list_elem_of_fmap_2. Qed.

Lemma sub_slots_incl m l l' : slot <$> l' ⊆ slot <$> l -> sub_slots m l l'.
Proof. intros H d s Hd Hs _. apply H. rewrite <- Hs. by apply list_elem_of_fmap_2. Qed.

Lemma sub_slots_app m l l1 l2 : sub_slots m l l1 -> sub_slots m l l2 -> sub_slots m l (l1 ++ l2).
Proof. intros H1 H2 d s [Hd|Hd]%elem_of_app; eauto. Qed.

Lemma runs_with {A} (c : M A) m (P Q : A -> mem -> Prop) :
  runs c m P -> (forall a m', c m = Some (a, m') -> Q a m') -> runs c m (fun a m' => P a m' /\ Q a m').
Proof. unfold runs. destruct (c m) as [[a m']|]; [auto|done]. Qed.

(** The descriptors of [o] and their bytes are as before. *)
Definition same_on (m m' : mem) (o : list data_info) : Prop :=
  Forall (inside m') o /\ forall d, d ∈ o -> di_bytes m' d = di_bytes m d.

Lemma same_on_trans m1 m2 m3 o : same_on m1 m2 o -> same_on m2 m3 o -> same_on m1 m3 o.
Proof. intros [_ H1] [Hi H2]. split; [done|]. intros d Hd. by rewrite H2, H1. Qed.

Lemma same_on_sub m m' o l : same_on m m' o -> l ⊆ o -> same_on m m' l.
Proof.
  intros [Hi Hb] Hl. split; [|auto]. rewrite Forall_forall in *. auto.
Qed.

Lemma same_on_content m m' l : same_on m m' l -> content m' l = content m l.
Proof.
  intros [_ Hb]. unfold content. induction l as [|d l IH]; [done|]. rewrite !bind_cons, Hb by left. f_equal.
  apply IH. intros d' Hd'. apply Hb. by right.
Qed.

Lemma same_on_ok m m' k : same_on m m' (chain k) -> chain_ok m k -> chain_ok m' k.
Proof. intros [Hi _] [Ht [([_ Hnd]&?&?)|?]]; split; try done; [left|by right]. by split_and!. Qed.

(** *** One packet changes, the others [o] stay *)

Section frame.
Context (W : nat -> nat -> Prop) (m m' : mem) (l l' o : list data_info) (f : nat -> nat).
Hypothesis (Ho : own m (l ++ o) f) (Hl : live m (l ++ o)).
Hypothesis (Ho' : own m' (l' ++ o) f) (Hk : kept W m m') (Hl' : live m' l').
Hypothesis (Hw : forall s i, (s < next_slot m)%nat -> W s i -> Some s ∈ slot <$> l).
Hypothesis (Hs : sub_slots m l l').

Lemma frame_apart d s : d ∈ o -> slot d = Some s -> Some s ∉ slot <$> l.
Proof.
  intros Hd Hsd Hin. destruct Hl as [_ Hnd]. rewrite fmap_app in Hnd. apply NoDup_app in Hnd as (_&Hap&_).
  apply (Hap _ Hin). rewrite <- Hsd. by apply list_elem_of_fmap_2.
Qed.

Lemma frame_old d s : d ∈ o -> slot d = Some s -> (s < next_slot m)%nat.
Proof.
  intros Hd Hsd. destruct (own_alive m _ f s Ho) as (fs&_&H); [|done].
  pose proof (refs_pos (l ++ o) d s) as Hp. rewrite elem_of_app in Hp. specialize (Hp (or_intror Hd) Hsd). lia.
Qed.

Lemma frame_same : same_on m m' o.
Proof.
  assert (Hi : Forall (inside m) o) by (destruct Hl as [[_ ?]%Forall_app _]; done).
  assert (Hh : held (l' ++ o) f o) by (apply held_sub; intros d; rewrite elem_of_app; auto). split.
  - exact (insides_kept W m m' (l ++ o) (l' ++ o) f f Ho Ho' Hk o Hi Hh).
  - intros d Hd. rewrite Forall_forall in Hi. eapply (bytes_kept W m m' (l ++ o) (l' ++ o) f f Ho Ho' Hk d (Hi d Hd)).
    + intros d' s Hd'. apply list_elem_of_singleton in Hd' as ->. by apply Hh.
    + intros s i Hsd _ Hws. apply (frame_apart d s Hd Hsd). apply Hw with i; [by eapply frame_old|done].
Qed.

Lemma frame_live : live m' (l' ++ o).
Proof.
  destruct frame_same as [Hi _]. destruct Hl' as [Hi' Hnd']. split; [by apply Forall_app|].
  rewrite fmap_app. apply NoDup_app. split_and!; [done| |destruct Hl as [_ Hnd]; rewrite fmap_app in Hnd; by apply NoDup_app in Hnd as (_&_&?)].
  intros x Hx Hxo. apply list_elem_of_fmap_1 in Hx as (d'&->&Hd'). apply list_elem_of_fmap_1 in Hxo as (d&Hdd&Hd).
  rewrite Forall_forall in Hi'. destruct (Hi' d' Hd') as (s&fs&Hsl&_). rewrite Hsl in Hdd.
  apply (frame_apart d s Hd ltac:(done)). apply (Hs d' s Hd' Hsl). by apply (frame_old d s).
Qed.
End frame.

Definition beside (o : list data_info) (f : nat -> nat) (s : nat) : nat := refs o s + f s.

Lemma own_beside m l o f : own m (l ++ o) f <-> own m l (beside o f).
Proof. split; apply own_ext; intros s; unfold beside; rewrite refs_app; lia. Qed.

(** *** Where the slots come from *)

Lemma try_alloc_eq m b m' : try_alloc m = Some (b, m') -> slots m' = slots m /\ next_slot m' = next_slot m /\ full_size m' = full_size m.
Proof. unfold try_alloc. destruct (allocs m); by intros [= _ <-]. Qed.

Lemma frame_slot_alloc_new n m s sz m' : frame_slot_alloc n m = Some (Some (s, sz), m') -> s = next_slot m.
Proof.
  unfold frame_slot_alloc. destruct (frame_size_class (full_size m) n); [|done]. unfold mbind, M_bind.
  destruct (try_alloc m) as [[[] m1]|] eqn:E; [|done..]. apply try_alloc_eq in E as (_&<-&_). by intros [= <- _ _].
Qed.

Lemma alloc_data_info_new n m d m' : alloc_data_info n m = Some (Some d, m') -> slot d = Some (next_slot m).
Proof.
  unfold alloc_data_info, mbind, M_bind. destruct (frame_slot_alloc n m) as [[[[s sz]|] m1]|] eqn:E; [|done..].
  apply frame_slot_alloc_new in E as ->. destruct (try_alloc m1) as [[[] m2]|]; [by intros [= <- _]| |done].
  by destruct (PUT_REF (Some (next_slot m)) m2) as [[[] ?]|].
Qed.

Lemma consume_loop_slots rest : forall d0 num rem m d0' rest' num' m', consume_loop d0 rest num rem m = Some ((d0', rest', num'), m') ->
  forall d s, d ∈ d0' :: rest' -> slot d = Some s -> Some s ∈ slot <$> (d0 :: rest).
Proof.
  induction rest as [|next rest IH]; intros d0 num rem m d0' rest' num' m'; cbn [consume_loop];
    (destruct (rem =? 0)%nat; [intros [= <- <- _ _] d s Hd <-; by apply list_elem_of_fmap_2|]);
    (destruct (rem <? di_len d0)%nat;
      [intros [= <- <- _ _] d s Hd Hs; apply elem_of_cons in Hd as [->|Hd]; cbn in Hs; rewrite <- Hs;
       [left|right; exact (list_elem_of_fmap_2 slot _ _ Hd)]|]);
    (destruct (num =? 1)%nat;
      [unfold mbind, M_bind; destruct (PUT_REF (slot d0) m) as [[[] m1]|]; [|done];
       intros [= <- <- _ _] d s [->|?%not_elem_of_nil]%elem_of_cons Hs; done|]); [done|].
  unfold mbind, M_bind. destruct (PUT_REF (slot d0) m) as [[[] m1]|]; [|done]. intros H d s Hd Hs.
  right. eapply (IH next _ _ m1); done.
Qed.

Lemma skb_consume_slots k n linear m c k' m' : skb_consume k n linear m = Some ((c, k'), m') -> sub_slots m (chain k) (chain k').
Proof.
  unfold skb_consume. destruct (Nat.min n (data_total_len k) =? 0)%nat; [intros [= _ <- _]; apply sub_slots_refl|].
  destruct linear.
  - set (d := mk_di _ _ _ _). assert (Hd : slot <$> (d :: more k) = slot <$> chain k) by done.
    destruct (di_len d =? 0)%nat; [|intros [= _ <- _]; apply sub_slots_incl; unfold chain; cbn [with_data data0 more]; by rewrite Hd].
    unfold mbind, M_bind. destruct (1 <? data_num k)%nat.
    + unfold chain. destruct (more k) as [|next rest]; [done|]. destruct (PUT_REF (slot d) m) as [[[] m1]|]; [|done]. intros [= _ <- _].
      apply sub_slots_incl. cbn [with_data data0 more]. set_solver.
    + destruct (PUT_REF (slot d) m) as [[[] m1]|]; [|done]. intros [= _ <- _] x s Hx Hs. unfold chain in Hx. cbn in Hx.
      apply list_elem_of_singleton in Hx as ->. done.
  - unfold mbind, M_bind. destruct (consume_loop _ _ _ _ m) as [[[[d0 rest] num] m1]|] eqn:E; [|done]. intros [= _ <- _] d s Hd Hs _.
    eapply consume_loop_slots in E; [exact E| |exact Hs]. done.
Qed.

Lemma skb_data_push_slots k n m ok k' m' : skb_data_push k n m = Some ((ok, k'), m') -> sub_slots m (chain k) (chain k').
Proof.
  unfold skb_data_push, skb_data_expand, skb_pre_space, load, mbind, M_bind, mret, M_ret. destruct (slot (data0 k)) as [s0|] eqn:Es; [|done].
  destruct (slots m !! s0) as [fs|]; [|done]. destruct (n <=? start (data0 k))%nat.
  { intros [= _ <- _]. apply sub_slots_incl. unfold chain. cbn [with_data data0 more]. by rewrite !fmap_cons, Es. }
  destruct (SKB_DATA_MAX_NUM <=? data_num k)%nat; [intros [= _ <- _]; apply sub_slots_refl|].
  destruct (try_alloc m) as [[[] m1]|] eqn:E1; cbn [negb]; [|intros [= _ <- _]; apply sub_slots_refl|done].
  apply try_alloc_eq in E1 as (_&Hn&_).
  destruct (frame_slot_alloc n m1) as [[[[s sz]|] m2]|] eqn:E2; [|intros [= _ <- _]; apply sub_slots_refl|done].
  apply frame_slot_alloc_new in E2 as ->. intros [= _ <- _] d s Hd Hs Hlt. unfold chain at 1 in Hd. cbn [with_data data0 more] in Hd.
  apply elem_of_cons in Hd as [->|Hd]; [cbn in Hs; injection Hs as <-; lia|]. rewrite <- Hs. by apply list_elem_of_fmap_2.
Qed.

Lemma push_header_slots k h m ok k' m' : push_header k h m = Some ((ok, k'), m') -> sub_slots m (chain k) (chain k').
Proof.
  unfold push_header, mbind, M_bind. destruct (skb_data_push k (length h) m) as [[[[] k1] m1]|] eqn:E; [| |done].
  - destruct (write _ _ h m1) as [[[] m2]|]; [|done]. intros [= _ <- _]. by eapply skb_data_push_slots.
  - intros [= _ <- _]. by eapply skb_data_push_slots.
Qed.

Lemma split_walk_app l : forall cum len b a c, split_walk l cum len = (b, a, c) -> b ++ a = l.
Proof.
  induction l as [|d l IH]; intros cum len b a c; cbn [split_walk]; [by intros [= <- <- _]|].
  destruct (len <? cum + di_len d)%nat; [by intros [= <- <- _]|]. destruct (cum + di_len d =? len)%nat; [by intros [= <- <- _]|].
  destruct (split_walk l _ len) as [[b' a'] c'] eqn:E. intros [= <- <- _]. cbn. f_equal. by eapply IH.
Qed.

Lemma chain_of_chain k n t l d : d ∈ chain (of_chain k n t l) -> slot d <> None -> d ∈ l.
Proof. destruct l; [|done]. intros ->%list_elem_of_singleton. done. Qed.

Lemma sub_slots_of_chain m l k n t l' : (forall d s, d ∈ l' -> slot d = Some s -> (s < next_slot m)%nat -> Some s ∈ slot <$> l) ->
  sub_slots m l (chain (of_chain k n t l')).
Proof. intros H d s Hd Hs. apply (H d s); [|done]. eapply chain_of_chain; [done|]. by rewrite Hs. Qed.

Lemma skb_split_slots k len m r k' m' : skb_split k len m = Some ((r, k'), m') ->
  sub_slots m (chain k) (chain k') /\ forall tail, r = Some tail -> sub_slots m (chain k) (chain tail).
Proof.
  assert (H0 : sub_slots m (chain k) (chain k) /\ forall tail, None = Some tail -> sub_slots m (chain k) (chain tail))
    by (split; [apply sub_slots_refl|done]).
  unfold skb_split. destruct (data_total_len k <=? len)%nat; [intros [= <- <- _]; exact H0|].
  destruct (split_walk (chain k) 0 len) as [[b a] c] eqn:Ew. apply split_walk_app in Ew.
  assert (Hin : forall l', slot <$> l' ⊆ slot <$> chain k ->
    forall d s, d ∈ l' -> slot d = Some s -> (s < next_slot m)%nat -> Some s ∈ slot <$> chain k).
  { intros l' Hl d s Hd Hs _. apply Hl. rewrite <- Hs. by apply list_elem_of_fmap_2. }
  unfold mbind, M_bind, mret, M_ret. destruct (try_alloc m) as [[[] m1]|] eqn:E1; cbn [negb]; [|intros [= <- <- _]; exact H0|done].
  apply try_alloc_eq in E1 as (_&Hn&_). destruct a as [|d rest]; [intros [= <- <- _]; exact H0|].
  assert (Hs : slot <$> chain k = (slot <$> b) ++ slot d :: (slot <$> rest)) by by rewrite <- Ew, fmap_app.
  destruct (c =? 0)%nat; cbn [negb].
  - destruct b as [|b0 b]; [intros [= <- <- _]; exact H0|]. intros [= <- <- _]. split; [|intros tail [= <-]].
    + refine (Hin (b0 :: b) _). rewrite Hs. set_solver.
    + refine (Hin (d :: rest) _). rewrite Hs, fmap_cons. set_solver.
  - destruct (load (slot d) m1) as [[? m2]|] eqn:E2; [|done]. assert (m2 = m1) as -> by (unfold load in E2; repeat case_match; congruence).
    destruct (alloc_data_info (size d) m1) as [[[n|] m3]|] eqn:E3; [|intros [= <- <- _]; exact H0|done].
    apply alloc_data_info_new in E3. destruct (read _ _ _ m3) as [[bs m4]|]; [|done]. destruct (write _ _ bs m4) as [[[] m5]|]; [|done].
    intros [= <- <- _]. split; [|intros tail [= <-]].
    + apply sub_slots_of_chain, Hin. rewrite Hs, fmap_app, fmap_cons. cbn [slot]. set_solver.
    + intros x s [->|Hx]%elem_of_cons Hsx Hlt; [cbn in Hsx; rewrite E3 in Hsx; injection Hsx as <-; lia|].
      rewrite Hs, <- Hsx. apply elem_of_app. right. right. by apply list_elem_of_fmap_2.
Qed.

(** *** Operations beside other packets *)

(** A packet [k'] with bytes [c], apart from the unchanged descriptors [o]. *)
Record apart (m : mem) (o : list data_info) (f : nat -> nat) (k' : skbuff) (c : list Z) (m' : mem) : Prop := {
  ap_own : own m' (chain k' ++ o) f;
  ap_live : live m' (chain k' ++ o);
  ap_ok : chain_ok m' k';
  ap_alive : alive k';
  ap_content : content m' (chain k') = c;
  ap_same : same_on m m' o
}.

Lemma apart_intro W m k k' o f c m' : own m (chain k ++ o) f -> live m (chain k ++ o) -> alive k' ->
  op_post W m k' (beside o f) c m' -> (forall s i, (s < next_slot m)%nat -> W s i -> Some s ∈ slot <$> chain k) ->
  sub_slots m (chain k) (chain k') -> apart m o f k' c m'.
Proof.
  intros Ho Hl Ha [Ho' Hk Hc Hcn] Hw Hs. rewrite <- own_beside in Ho'. destruct (alive_chain m' k' Hc Ha) as (Hl'&_&_).
  split; try done; [by eapply (frame_live W m m')|by eapply (frame_same W m m')].
Qed.

Lemma consume_apart m k o f n linear : own m (chain k ++ o) f -> live m (chain k ++ o) -> chain_ok m k -> (n < data_total_len k)%nat ->
  runs (skb_consume k n linear) m (fun '(c, k') m' => c = Nat.min n (if linear then skb_data0_len k else data_total_len k) /\
    apart m o f k' (drop c (content m (chain k))) m').
Proof.
  intros Ho Hl Hc Hn. pose proof (skb_consume_spec m k (beside o f) n linear ltac:(by apply own_beside) Hc) as H. unfold runs in *.
  destruct (skb_consume k n linear m) as [[[c k'] m']|] eqn:E; [|done]. destruct H as [-> Hop]. split; [done|].
  eapply (apart_intro nowhere); [done|done| |exact Hop|by intros ? ? _ []|by eapply skb_consume_slots].
  destruct Hop as [_ _ Hc' Hcn]. apply (total_alive m' k' Hc'). rewrite <- (chain_content m' k' Hc'), Hcn, length_drop, (chain_content m k Hc).
  destruct linear; lia.
Qed.

Lemma push_apart m k o f h : own m (chain k ++ o) f -> live m (chain k ++ o) -> chain_ok m k -> alive k ->
  runs (push_header k h) m (fun '(ok, k') m' =>
    if ok : bool then apart m o f k' (h ++ content m (chain k)) m' /\ (length h <= skb_data0_len k')%nat
    else k' = k /\ apart m o f k (content m (chain k)) m').
Proof.
  intros Ho Hl Hc Ha. pose proof (push_header_spec m k (beside o f) h ltac:(by apply own_beside) Hc Ha) as H. unfold runs in *.
  destruct (push_header k h m) as [[[ok k'] m']|] eqn:E; [|done]. apply push_header_slots in E. destruct ok.
  - destruct H as (Ha'&Hlen&_&Hop). split; [|done]. eapply (apart_intro (headroom k)); try done.
    intros s i _ [Hsl _]. rewrite <- Hsl. by left.
  - destruct H as [-> Hop]. split; [done|]. eapply (apart_intro nowhere); [done|done|done|exact Hop|by intros ? ? _ []|done].
Qed.

Lemma skb_split_front k len m tail k' m' : skb_split k len m = Some ((Some tail, k'), m') ->
  slot (data0 k') = slot (data0 k) /\ start (data0 k') = start (data0 k) /\ skb_data0_len k' = Nat.min len (skb_data0_len k).
Proof.
  unfold skb_split, skb_data0_len. destruct (data_total_len k <=? len)%nat; [discriminate|].
  assert (Hw : (exists rest, split_walk (chain k) 0 len = ([], data0 k :: rest, len) /\ (len < di_len (data0 k))%nat) \/
    exists b a c, split_walk (chain k) 0 len = (data0 k :: b, a, c) /\ (di_len (data0 k) <= len)%nat).
  { unfold chain. cbn [split_walk]. destruct (Nat.ltb_spec len (0 + di_len (data0 k))); [left; eexists; rewrite Nat.sub_0_r; by split|right].
    destruct (_ =? len)%nat; [by do 3 eexists|]. destruct (split_walk (more k) _ _) as [[b a] c]. by do 3 eexists. }
  destruct Hw as [(rest&->&Hlt)|(b&a&c&->&Hge)]; unfold mbind, M_bind, mret, M_ret;
    (destruct (try_alloc m) as [[[] m1]|]; [|discriminate..]); cbn [negb].
  - destruct (Nat.eqb_spec len 0) as [->|Hn]; [discriminate|]. cbn [negb].
    destruct (load (slot (data0 k)) m1) as [[? m2]|]; [|discriminate]. destruct (alloc_data_info (size (data0 k)) m2) as [[[n|] m3]|]; [|discriminate..].
    destruct (read _ _ _ m3) as [[bs m4]|]; [|discriminate]. destruct (write _ _ bs m4) as [[[] m5]|]; [|discriminate]. intros [= _ <- _].
    cbn [of_chain app with_data data0 slot start]. split_and!; [done..|]. unfold di_len in *. cbn [start end_]. lia.
  - destruct a as [|d rest]; [discriminate|]. destruct (c =? 0)%nat; cbn [negb].
    { intros [= _ <- _]. cbn [of_chain with_data data0]. split_and!; [done..|lia]. }
    destruct (load (slot d) m1) as [[? m2]|]; [|discriminate]. destruct (alloc_data_info (size d) m2) as [[[n|] m3]|]; [|discriminate..].
    destruct (read _ _ _ m3) as [[bs m4]|]; [|discriminate]. destruct (write _ _ bs m4) as [[[] m5]|]; [|discriminate]. intros [= _ <- _].
    cbn [of_chain app with_data data0]. split_and!; [done..|lia].
Qed.

(** Both parts, beside [o]. *)
Record halves (m : mem) (k : skbuff) (o : list data_info) (f : nat -> nat) (len : nat) (k' tail : skbuff) (m' : mem) : Prop := {
  hv_own : own m' (chain k' ++ chain tail ++ o) f;
  hv_live : live m' (chain k' ++ chain tail ++ o);
  hv_ok : chain_ok m' k' /\ alive k';
  hv_tail : chain_ok m' tail /\ alive tail;
  hv_content : content m' (chain k') = take len (content m (chain k));
  hv_content_tail : content m' (chain tail) = drop len (content m (chain k));
  hv_same : same_on m m' o;
  hv_front : slot (data0 k') = slot (data0 k) /\ start (data0 k') = start (data0 k) /\
    skb_data0_len k' = Nat.min len (skb_data0_len k)
}.

Lemma split_apart m k o f len : own m (chain k ++ o) f -> live m (chain k ++ o) -> chain_ok m k -> alive k ->
  runs (skb_split k len) m (fun '(r, k') m' =>
    match r with
    | Some tail => halves m k o f len k' tail m'
    | None => k' = k /\ apart m o f k (content m (chain k)) m'
    end).
Proof.
  intros Ho Hl Hc Ha. pose proof (skb_split_spec m k (beside o f) len ltac:(by apply own_beside) Hc) as H. unfold runs in *.
  destruct (skb_split k len m) as [[[[tail|] k'] m']|] eqn:E; [| |done].
  - destruct H as (Ho'&Hl'&Hk&Hc'&Hct&Ha'&Hat&C1&C2). destruct (skb_split_slots _ _ _ _ _ _ E) as [Hs1 Hs2]. specialize (Hs2 tail eq_refl).
    rewrite <- own_beside in Ho'. pose proof (sub_slots_app _ _ _ _ Hs1 Hs2) as Hs.
    assert (Hw : forall s i, (s < next_slot m)%nat -> nowhere s i -> Some s ∈ slot <$> chain k) by by intros ? ? _ [].
    pose proof (frame_live nowhere m m' _ _ o f Ho Hl Ho' Hk Hl' Hw Hs) as Hlv.
    pose proof (frame_same nowhere m m' _ _ o f Ho Hl Ho' Hk Hw) as Hsm. rewrite <- app_assoc in Ho', Hlv.
    split; try done. by eapply skb_split_front.
  - destruct H as [-> Hop]. split; [done|]. destruct (skb_split_slots _ _ _ _ _ _ E) as [Hs1 _].
    eapply (apart_intro nowhere); [done|done|done|exact Hop|by intros ? ? _ []|done].
Qed.

(** *** Allocations *)

(** The next [N] allocations succeed. *)
Definition plenty (m : mem) (N : nat) : Prop := replicate N true `prefix_of` allocs m.

Lemma plenty_weak m N N' : (N' <= N)%nat -> plenty m N -> plenty m N'.
Proof.
  intros Hle [l Hl]. replace N with (N' + (N - N'))%nat in Hl by lia. rewrite replicate_add, <- app_assoc in Hl. by eexists.
Qed.

Lemma plenty_alloc m N (Q : bool -> mem -> Prop) : plenty m (S N) ->
  (forall m', slots m' = slots m -> next_slot m' = next_slot m -> full_size m' = full_size m -> plenty m' N -> Q true m') -> runs try_alloc m Q.
Proof.
  intros [l Hl] HQ. unfold runs, try_alloc. rewrite Hl. cbn. apply HQ; try done. by exists l.
Qed.

Lemma PUT_REF_allocs s m m' : PUT_REF s m = Some (tt, m') -> allocs m' = allocs m.
Proof. unfold PUT_REF. destruct s; [|by intros [= <-]]. destruct (slots m !! n) as [[d [|[|r]]]|]; try done; by intros [= <-]. Qed.

Lemma consume_loop_allocs rest : forall d0 num rem m r m', consume_loop d0 rest num rem m = Some (r, m') -> allocs m' = allocs m.
Proof.
  induction rest as [|next rest IH]; intros d0 num rem m r m'; cbn [consume_loop];
    (destruct (rem =? 0)%nat; [by intros [= _ <-]|]); (destruct (rem <? di_len d0)%nat; [by intros [= _ <-]|]);
    unfold mbind, M_bind; (destruct (num =? 1)%nat;
      [destruct (PUT_REF (slot d0) m) as [[[] m1]|] eqn:E; [|done]; intros [= _ <-]; by eapply PUT_REF_allocs|]); [done|].
  destruct (PUT_REF (slot d0) m) as [[[] m1]|] eqn:E; [|done]. intros H. by rewrite (IH _ _ _ _ _ _ H), (PUT_REF_allocs _ _ _ E).
Qed.

Lemma skb_consume_allocs k n linear m r m' : skb_consume k n linear m = Some (r, m') -> allocs m' = allocs m.
Proof.
  unfold skb_consume. destruct (_ =? 0)%nat; [by intros [= _ <-]|]. destruct linear.
  - destruct (di_len _ =? 0)%nat; [|by intros [= _ <-]]. unfold mbind, M_bind. destruct (1 <? data_num k)%nat.
    + destruct (more k); [done|]. destruct (PUT_REF _ m) as [[[] m1]|] eqn:E; [|done]. intros [= _ <-]. by eapply PUT_REF_allocs.
    + destruct (PUT_REF _ m) as [[[] m1]|] eqn:E; [|done]. intros [= _ <-]. by eapply PUT_REF_allocs.
  - unfold mbind, M_bind. destruct (consume_loop _ _ _ _ m) as [[[[d0 rest] num] m1]|] eqn:E; [|done]. intros [= _ <-]. by eapply consume_loop_allocs.
Qed.

Lemma free_all_allocs l : forall m m', free_all l m = Some (tt, m') -> allocs m' = allocs m.
Proof.
  induction l as [|d l IH]; intros m m'; cbn [free_all]; [by intros [= <-]|]. unfold mbind, M_bind, free_data_info.
  destruct (PUT_REF (slot d) m) as [[[] m1]|] eqn:E; [|done]. intros H. by rewrite (IH _ _ H), (PUT_REF_allocs _ _ _ E).
Qed.

Lemma skb_destroy_allocs k m m' : skb_destroy k m = Some (tt, m') -> allocs m' = allocs m.
Proof.
  unfold skb_destroy, mbind, M_bind. destruct (free_all (more k) m) as [[[] m1]|] eqn:E; [|done]. intros H.
  by rewrite (PUT_REF_allocs _ _ _ H), (free_all_allocs _ _ _ E).
Qed.

Lemma INC_REF_allocs s m m' : INC_REF s m = Some (tt, m') -> allocs m' = allocs m.
Proof. unfold INC_REF. destruct s; [|done]. destruct (slots m !! n); [|done]. by intros [= <-]. Qed.
