(* ===== verification/SkbuffProps.v ===== *)
(** Packet buffers, properties: sequences of operations on a packet do what they do
    to its bytes, a clone sent with headers in front leaves the queued packet as
    it was, a split packet can be joined again, checksums over a chain are those
    of its bytes, and reads stay inside the packet for all offsets. *)

From stdpp Require Import prelude list gmap.
From Stdlib Require Import ZArith Lia.
From S2P Require Import Prelude Checksum Skbuff SkbuffMem SkbuffOps SkbuffSplit.
Import Skb.

(** *** Sequences of operations *)

Inductive skb_op :=
| Consume (n : nat) (linear : bool)
| Truncate (n : nat)
| Push (bs : list Z)
| Append (bs : list Z) (pre_size seg_len : nat).

(** The number answered: bytes consumed, or whether there was room. *)
Definition run_op (k : skbuff) (o : skb_op) : M (nat * skbuff) :=
  match o with
  | Consume n linear => skb_consume k n linear
  | Truncate n => k' ← skb_truncate k n; mret (1%nat, k')
  | Push bs => '(ok, k') ← push_header k bs; mret (if ok : bool then 1 else 0, k')%nat
  | Append bs pre_size seg_len => '(ok, k') ← skb_data_append k bs pre_size seg_len; mret (if ok : bool then 1 else 0, k')%nat
  end.

Fixpoint run_ops (k : skbuff) (ops : list skb_op) : M (list nat * skbuff) :=
  match ops with
  | [] => mret ([], k)
  | o :: ops => '(r, k1) ← run_op k o; '(rs, k2) ← run_ops k1 ops; mret (r :: rs, k2)
  end.

(** What an operation that answered [r] does to a string of bytes. *)
Definition on_bytes (o : skb_op) (r : nat) (s : list Z) : list Z :=
  match o with
  | Consume _ _ => drop r s
  | Truncate n => take n s
  | Push bs => if (r =? 0)%nat then s else bs ++ s
  | Append bs _ _ => if (r =? 0)%nat then s else s ++ bs
  end.

Fixpoint on_bytes_all (ops : list skb_op) (rs : list nat) (s : list Z) : list Z :=
  match ops, rs with
  | o :: ops, r :: rs => on_bytes_all ops rs (on_bytes o r s)
  | _, _ => s
  end.

Definition grows (o : skb_op) : bool := match o with Push _ | Append _ _ _ => true | _ => false end.

(** Segments hold their headroom, as for all callers. *)
Definition op_wf (o : skb_op) : Prop :=
  match o with Append _ pre_size seg_len => (pre_size <= seg_len)%nat /\ Z.of_nat seg_len < 2 ^ 32 | _ => True end.

Lemma run_op_spec m k f o : own m (chain k) f -> chain_ok m k -> op_wf o -> (grows o = true -> alive k) ->
  runs (run_op k o) m (fun '(r, k') m' =>
    own m' (chain k') f /\ chain_ok m' k' /\ content m' (chain k') = on_bytes o r (content m (chain k))).
Proof.
  intros Ho Hc Hw Ha. destruct o as [n lin|n|bs|bs pre seg]; cbn [run_op on_bytes grows op_wf] in *.
  - eapply runs_mono; [by apply skb_consume_spec|]. intros [r k'] m' [_ []]. done.
  - apply runs_bind. eapply runs_mono; [by apply skb_truncate_spec|]. intros k' m' [[] _]. by apply runs_ret.
  - apply runs_bind. eapply runs_mono; [by apply push_header_spec; auto|]. intros [[] k'] m'; [intros (_&_&_&[])|intros [-> []]]; by apply runs_ret.
  - apply runs_bind. eapply runs_mono; [by apply skb_data_append_spec; [..|auto|apply Hw|apply Hw]|].
    intros [[] k'] m' (_&Hk&[]); apply runs_ret; split_and!; try done. cbn. by rewrite app_nil_r in *.
Qed.

(** *** Headers in front of a clone *)

Fixpoint push_headers (k : skbuff) (hs : list (list Z)) : M (bool * skbuff) :=
  match hs with
  | [] => mret (true, k)
  | h :: hs => '(ok, k') ← push_header k h; if ok : bool then push_headers k' hs else mret (false, k')
  end.

(** What sending a queued packet does to its buffers: a clone, cut to what may be
    sent, gets its headers and is dropped when it has gone out. *)
Definition send_clone (k : skbuff) (n : nat) (hs : list (list Z)) : M bool :=
  r ← skb_clone k;
  match r with
  | None => mret false
  | Some c => c ← skb_truncate c n; '(ok, c) ← push_headers c hs; skb_destroy c;; mret ok
  end.

Lemma kept_step (W W' : nat -> nat -> Prop) m m1 m2 : kept W m m1 -> kept W' m1 m2 ->
  (forall s i, (s < next_slot m)%nat -> W' s i -> W s i) -> kept W m m2.
Proof.
  intros [Hn Hf Hd] [Hn' Hf' Hd'] HW. split; [lia|congruence|]. intros s fs2 Hs H2.
  destruct (Hd' s fs2 ltac:(lia) H2) as (fs1&H1&L1&E1). destruct (Hd s fs1 Hs H1) as (fs&H0&L0&E0).
  exists fs. split_and!; [done|congruence|]. intros i Hi. rewrite E1, E0; [done..|]. intros Hw. apply Hi. by apply HW.
Qed.

Lemma push_headers_spec hs : forall m k f, own m (chain k) f -> chain_ok m k -> alive k ->
  runs (push_headers k hs) m (fun '(ok, k') m' => own m' (chain k') f /\ kept (headroom k) m m' /\ chain_ok m' k').
Proof.
  induction hs as [|h hs IH]; intros m k f Ho Hc Ha; cbn [push_headers]; [apply runs_ret; split_and!; [done|apply kept_refl|done]|].
  apply runs_bind. eapply runs_mono; [by apply push_header_spec|]. intros [[] k1] m1.
  - intros (Ha1&_&Hr&[Ho1 Hk1 Hc1 _]). eapply runs_mono; [by apply IH|]. intros [ok k2] m2 (Ho2&Hk2&Hc2).
    split_and!; [done|by eapply kept_step|done].
  - intros [-> [Ho1 Hk1 Hc1 _]]. apply runs_ret. split_and!; [done| |done]. eapply kept_mono; [|done]. by intros ? ? [].
Qed.

(** Truncation to some bytes keeps the front. *)
Lemma skb_truncate_front k n m k' m' : n <> 0%nat -> skb_truncate k n m = Some (k', m') ->
  slot (data0 k') = slot (data0 k) /\ start (data0 k') = start (data0 k).
Proof.
  intros Hn. unfold skb_truncate. destruct (data_total_len k <=? n)%nat; [by intros [= <- _]|].
  rewrite (proj2 (Nat.eqb_neq n 0)) by done. unfold chain. cbn [truncate_walk].
  destruct (n <=? 0 + di_len (data0 k))%nat.
  - unfold mbind, M_bind. destruct (free_all (more k) m) as [[[] m1]|]; [|done]. by intros [= <- _].
  - destruct (truncate_walk (more k) (0 + di_len (data0 k)) n) as [[keep gone]|]; [|by intros [= <- _]].
    unfold mbind, M_bind. destruct (free_all gone m) as [[[] m1]|]; [|done]. by intros [= <- _].
Qed.

Lemma windows_headroom m k d s i : live m (chain k) -> d ∈ chain k -> slot d = Some s -> (start d <= i < end_ d)%nat -> ~ headroom k s i.
Proof.
  intros [_ Hnd] Hd Hs Hi [Hs0 Hi0]. unfold chain in *. apply elem_of_cons in Hd as [->|Hd]; [lia|].
  apply NoDup_cons in Hnd as [Hnd _]. apply Hnd. rewrite Hs0, <- Hs. by apply list_elem_of_fmap_2.
Qed.

(** The part after the clone. *)
Lemma sent_clone_spec m c f n hs : own m (chain c) f -> chain_ok m c -> alive c -> n <> 0%nat ->
  runs (c ← skb_truncate c n; '(ok, c) ← push_headers c hs; skb_destroy c;; mret ok) m
    (fun _ m' => own m' [] f /\ kept (headroom c) m m').
Proof.
  intros Ho Hc Ha Hn. apply runs_bind. pose proof (skb_truncate_spec m c f n Ho Hc) as H. unfold runs in *.
  destruct (skb_truncate c n m) as [[c1 m1]|] eqn:E; [|done]. destruct H as [[Ho1 Hk1 Hc1 _] Ha1].
  destruct (skb_truncate_front c n m c1 m1 Hn E) as [Hs Hst].
  apply runs_bind. eapply runs_mono; [apply push_headers_spec; [done|done|auto]|]. intros [ok c2] m2 (Ho2&Hk2&_).
  apply runs_bind. eapply runs_mono; [apply (skb_destroy_spec m2 c2 [] f); by rewrite app_nil_r|]. intros _ m3 [Ho3 Hk3].
  apply runs_ret. split; [done|]. eapply kept_step; [|exact Hk3|by intros ? ? ? []]. eapply kept_step; [eapply kept_mono; [|exact Hk1]; by intros ? ? []|done|].
  unfold headroom. rewrite Hs, Hst. done.
Qed.

(** *** Growing emptied packets *)

(** An emptied packet has no slot. *)
Lemma grow_emptied m k o : chain_ok m k -> data_num k = 0%nat -> grows o = true ->
  run_op k o m = None /\ content m (chain k) = [].
Proof.
  intros [_ [(_&Hn&_)|[_ Hx]]] Hz Hg; [cbn in Hn; lia|]. rewrite Hx. split; [|done]. injection Hx as Hd Hm.
  destruct o; try done; cbn [run_op]; unfold push_header, skb_data_push, skb_data_expand, skb_pre_space,
    skb_data_append, skb_end_space, last_di, chain, mbind, M_bind; rewrite ?Hm; cbn [List.last]; by rewrite Hd.
Qed.

(** C13: A sequence of consuming, truncating, pushing and appending on a
    well-formed packet acts as it does on the string of its bytes, given what each
    operation answered, keeps the packet well-formed and the count of references
    to frame slots exact; the one way it faults is to push or append to a packet
    whose last byte has been consumed or cut off. *)
Theorem skb_ops_refine m k f ops : own m (chain k) f -> chain_ok m k -> Forall op_wf ops ->
  match run_ops k ops m with
  | Some ((rs, k'), m') =>
      own m' (chain k') f /\ chain_ok m' k' /\ content m' (chain k') = on_bytes_all ops rs (content m (chain k))
  | None => exists before o after, ops = before ++ o :: after /\ grows o = true /\
      runs (run_ops k before) m (fun '(_, k') m' => data_num k' = 0%nat /\ content m' (chain k') = [])
  end.
Proof.
  revert m k. induction ops as [|o ops IH]; intros m k Ho Hc Hw; cbn [run_ops]; [done|].
  apply Forall_cons in Hw as [Hw Hws]. unfold mbind at 1, M_bind.
  destruct (decide (grows o = true /\ data_num k = 0%nat)) as [[Hg Hz]|Hn].
  { destruct (grow_emptied m k o Hc Hz Hg) as [-> Hcn]. exists [], o, ops. by split_and!. }
  pose proof (run_op_spec m k f o Ho Hc Hw) as Hr. unfold runs in Hr.
  destruct (run_op k o m) as [[[r k1] m1]|] eqn:E; [|exfalso; apply Hr; intros Hg Hz; by apply Hn].
  destruct Hr as (Ho1&Hc1&Hcn1); [intros Hg Hz; by apply Hn|]. specialize (IH m1 k1 Ho1 Hc1 Hws).
  unfold mbind, M_bind, mret, M_ret. destruct (run_ops k1 ops m1) as [[[rs k2] m2]|]; [cbn [on_bytes_all]; by rewrite <- Hcn1|].
  destruct IH as (before&o'&after&->&Hg&Hb). exists (o :: before), o', after. split_and!; [done..|].
  cbn [run_ops]. apply runs_bind. unfold runs at 1. rewrite E. apply runs_bind. eapply runs_mono; [exact Hb|].
  intros [rs' k''] m'' H. by apply runs_ret.
Qed.

(** C17: Sending a queued packet, as a clone cut to the window and given any headers,
    leaves the packet's bytes as they were whichever allocations fail on the way,
    and afterwards holds no reference to any frame slot that was not there before. *)
Theorem send_clone_isolated m k f n hs : own m (chain k) f -> chain_ok m k -> alive k -> n <> 0%nat ->
  runs (send_clone k n hs) m (fun _ m' =>
    own m' (chain k) f /\ chain_ok m' k /\ content m' (chain k) = content m (chain k)).
Proof.
  intros Ho Hc Ha Hn. destruct (alive_chain m k Hc Ha) as (Hl&Hnum&Hmax). pose proof Hc as [Ht _].
  assert (Hend : forall m', own m' (chain k) f -> kept (headroom k) m m' ->
    own m' (chain k) f /\ chain_ok m' k /\ content m' (chain k) = content m (chain k)).
  { intros m' Ho' Hk. assert (Hh : held (chain k) f (chain k)) by by apply held_sub. split_and!; [done| |].
    - split; [done|]. left. split_and!; [|done|done]. split; [|apply Hl]. by eapply insides_kept, Hh; [exact Ho| | |apply Hl].
    - eapply content_kept; [exact Ho|exact Ho'|exact Hk|apply Hl|done|]. intros d s i. by apply windows_headroom with m. }
  apply runs_bind. eapply runs_mono; [by apply skb_clone_spec|]. intros [c|] m1 [Hk1 H1].
  2:{ apply runs_ret, Hend; [done|]. eapply kept_mono; [|done]. by intros ? ? []. }
  destruct H1 as (Ho1&Hcc&Hcn&Hct). destruct (content_same m m1 _ _ f f (chain k) Ho Ho1 Hk1 (proj1 Hl)) as [Hi1 _]; [set_solver|].
  eapply runs_mono; [apply (sent_clone_spec m1 c (fun s => refs (chain k) s + f s)%nat); [| | |done]|].
  - eapply own_ext; [|exact Ho1]. intros s. rewrite refs_app. lia.
  - split; rewrite Hcc, ?Hct, ?Hcn; [done|]. left. split_and!; [split; [done|apply Hl]|done|done].
  - unfold alive in *. by rewrite Hcn.
  - intros ok m2 [Ho2 Hk2]. apply Hend; [by eapply own_ext; [|exact Ho2]|].
    eapply kept_step; [eapply kept_mono; [|exact Hk1]; by intros ? ? []|exact Hk2|]. intros s i _. unfold headroom.
    assert (data0 c = data0 k) as -> by (unfold chain in Hcc; congruence). done.
Qed.

(** *** Splitting and joining *)

Definition split_join (k : skbuff) (len : nat) (data_copy : bool) : M (bool * skbuff) :=
  '(r, k') ← skb_split k len;
  match r with None => mret (false, k') | Some tail => skb_append_skb k' tail data_copy end.

(** C29: A packet split at any point and joined again, by linking the descriptors
    or by copying the bytes, has the bytes it had, with the references exact;
    when an allocation fails or there is no room, no byte and no reference is lost:
    the first bytes and a chain for the others remain. *)
Theorem split_join_roundtrip m k f len data_copy : own m (chain k) f -> chain_ok m k ->
  runs (split_join k len data_copy) m (fun '(ok, k') m' =>
    if ok : bool then own m' (chain k') f /\ chain_ok m' k' /\ content m' (chain k') = content m (chain k)
    else exists tail, own m' (chain k' ++ tail) f /\ content m' (chain k' ++ tail) = content m (chain k)).
Proof.
  intros Ho Hc. apply runs_bind. eapply runs_mono; [by apply skb_split_spec|]. intros [[tail|] k1] m1.
  2:{ intros [-> [? _ _ ?]]. apply runs_ret. exists []. by rewrite app_nil_r. }
  intros (Ho1&Hl1&Hk1&Hc1&Hct1&Ha1&Hat1&E1&E2). eapply runs_mono; [by apply (skb_append_skb_spec m1 k1 tail f data_copy)|].
  intros [[] k2] m2 (Ha2&Hk2&H); [|destruct H as (->&Hs&Ho2)].
  - destruct H as (Ho2&Hc2&Hcn). split_and!; [done..|]. by rewrite Hcn, E1, E2, take_drop.
  - exists (chain tail). split; [done|]. destruct (same_chain_ok m1 m2 k1 Hs Hc1) as [_ Hk]. destruct (same_chain_ok m1 m2 tail Hs Hct1) as [_ Ht].
    by rewrite content_app, Hk, Ht, E1, E2, take_drop.
Qed.

(** *** Checksums and reads *)

Lemma htons_bytes x : 0 <= x < 256 -> le16_bytes (htons (u16 x)) = [0; x].
Proof.
  intros H. unfold le16_bytes, htons, le16. rewrite wrap_id by (unfold is_u; lia).
  f_equal; [|f_equal]; zlia.
Qed.

(** C38: The checksum of a protocol over a chain of descriptors is the checksum of
    the same bytes in one buffer, with the pseudo header of IPv4 in front. *)
Theorem skb_checksum_protocol_flat m k saddr daddr protocol : chain_ok m k -> 0 <= protocol < 256 ->
  skb_checksum_protocol (Some k) (data_total_len k) saddr daddr protocol m =
    Some (checksum_protocol (content m (chain k)) saddr daddr protocol, m).
Proof.
  intros Hc Hp. unfold skb_checksum_protocol. rewrite skb_checksum_spec, <- (chain_content m k Hc), firstn_all by done.
  do 2 f_equal. unfold checksum_protocol, pseudo_head_bytes. cbn [ph_saddr ph_daddr ph_zero ph_proto ph_len]. f_equal.
  rewrite !checksum_partial_app by (by eexists 2%nat || by eexists 1%nat). rewrite (htons_bytes protocol) by done.
  by rewrite (wrap_id 8 protocol) by (unfold is_u; lia).
Qed.

(** C39: [skb_copy_bits] gives the bytes at any 32-bit offset when they are all in
    the packet and fails otherwise, also when the subtraction that checks the
    range wraps around; it reads no memory outside the packet. *)
Theorem skb_copy_bits_exact m k f offset len : own m (chain k) f -> chain_ok m k -> Z.of_nat offset < 2 ^ 32 -> len <> 0%nat ->
  skb_copy_bits k offset len m =
    Some (if (offset + len <=? length (content m (chain k)))%nat
          then Some (bytes_at (content m (chain k)) offset len) else None, m).
Proof.
  intros Ho Hc Hoff Hlen. rewrite (skb_copy_bits_spec m k f) by done. rewrite (chain_content m k Hc).
  destruct (Nat.leb_spec (offset + len) (data_total_len k)); case_bool_decide; done || lia.
Qed.

(** *** A packet of one slot, for examples *)

Definition one_slot (bs : list Z) (full : nat) (al : list bool) : mem :=
  mk_mem {[0%nat := mk_slot bs 1]} 1 (fun _ _ => 0) full al.

Definition one_packet (a n : nat) (bs : list Z) : skbuff :=
  with_data new_skb 1 n (mk_di (Some 0%nat) a (a + n) (length bs)) [].

Lemma one_slot_own bs full al a n : Z.of_nat (length bs) <= UINT16_MAX -> Z.of_nat full <= UINT16_MAX ->
  own (one_slot bs full al) (chain (one_packet a n bs)) (fun _ => 0%nat).
Proof.
  intros Hb Hf. split; cbn [slots next_slot full_size one_slot]; [..|done].
  - intros s Hs. by rewrite lookup_singleton_ne by lia.
  - intros s. destruct (decide (s = 0%nat)) as [->|Hne]; [rewrite lookup_singleton_eq; split; [done|cbn; lia]|].
    rewrite lookup_singleton_ne by done. unfold chain, one_packet, refs. cbn. by rewrite bool_decide_false by congruence.
  - intros s fs [<- <-]%lookup_singleton_Some. done.
Qed.

Lemma one_slot_ok bs full al a n : (a + n <= length bs)%nat -> chain_ok (one_slot bs full al) (one_packet a n bs).
Proof.
  intros H. split; [unfold chain, one_packet, di_len; cbn; lia|]. left. split_and!; [|done|cbn; unfold SKB_DATA_MAX_NUM; lia].
  split; [|apply NoDup_singleton]. constructor; [|done]. exists 0%nat, (mk_slot bs 1). cbn.
  rewrite lookup_singleton_eq. split_and!; done || lia.
Qed.

Lemma skb_ops_refine_witness :
  let m := one_slot [9; 9; 1; 2; 3; 4] 64 [true; true; true; true] in
  let k := one_packet 2 4 [9; 9; 1; 2; 3; 4] in
  let ops := [Push [7; 8]; Append [5; 6] 1 2; Consume 1 true; Truncate 6] in
  match run_ops k ops m with
  | Some ((rs, k'), m') => content m' (chain k') = [8; 1; 2; 3; 4; 5]
  | None => False
  end.
Proof.
  intros m k ops. pose proof (skb_ops_refine m k (fun _ => 0%nat) ops ltac:(by apply one_slot_own) ltac:(apply one_slot_ok; cbn; lia)) as H.
  destruct (run_ops k ops m) as [[[rs k'] m']|] eqn:E; [|by vm_compute in E].
  destruct H as (_&_&->); [repeat constructor; cbn; lia|]. vm_compute in E. by injection E as <- <- <-.
Defined.

Lemma send_clone_isolated_witness :
  let m := one_slot [9; 9; 1; 2; 3; 4] 64 [true; true; true; true] in
  let k := one_packet 2 4 [9; 9; 1; 2; 3; 4] in
  runs (send_clone k 3 [[7; 8]; [5; 6]]) m (fun _ m' => content m' (chain k) = [1; 2; 3; 4]).
Proof.
  intros m k. eapply runs_mono; [apply (send_clone_isolated m k (fun _ => 0%nat) 3 [[7; 8]; [5; 6]]);
    [by apply one_slot_own|apply one_slot_ok; cbn; lia|done|done]|]. by intros _ m' (_&_&->).
Defined.

Lemma split_join_roundtrip_witness :
  let m := one_slot [9; 9; 1; 2; 3; 4] 64 [true; true; true; true] in
  let k := one_packet 2 4 [9; 9; 1; 2; 3; 4] in
  runs (split_join k 3 false) m (fun '(ok, k') m' => ok = true /\ data_num k' = 2%nat /\ content m' (chain k') = [1; 2; 3; 4]).
Proof.
  intros m k. pose proof (split_join_roundtrip m k (fun _ => 0%nat) 3 false ltac:(by apply one_slot_own) ltac:(apply one_slot_ok; cbn; lia)) as H.
  unfold runs in *. destruct (split_join k 3 false m) as [[[[] k'] m']|] eqn:E; [|by vm_compute in E..].
  destruct H as (_&_&->). vm_compute in E. by injection E as <- <-.
Defined.

Lemma skb_checksum_protocol_flat_witness :
  let m := one_slot [9; 9; 1; 2; 3; 4] 64 [] in
  skb_checksum_protocol (Some (one_packet 2 4 [9; 9; 1; 2; 3; 4])) 4 16777343 33554559 17 m =
    Some (checksum_protocol [1; 2; 3; 4] 16777343 33554559 17, m).
Proof.
  intros m. apply (skb_checksum_protocol_flat m (one_packet 2 4 [9; 9; 1; 2; 3; 4])); [apply one_slot_ok; cbn; lia|lia].
Defined.

Lemma skb_copy_bits_exact_witness :
  let m := one_slot [9; 9; 1; 2; 3; 4] 64 [] in
  skb_copy_bits (one_packet 2 4 [9; 9; 1; 2; 3; 4]) 5 2 m = Some (None, m).
Proof.
  intros m. apply (skb_copy_bits_exact m (one_packet 2 4 [9; 9; 1; 2; 3; 4]) (fun _ => 0%nat) 5 2);
    [by apply one_slot_own|apply one_slot_ok; cbn; lia|lia|done].
Defined.
