(* ===== verification/Trie.v ===== *)
(** Binary tries over address prefixes (src/lib/trie.c), and that they are finite
    maps from prefixes with longest-prefix search.

    A NULL child is [Nil].  A position in the trie is the subtree there with the
    nodes above it, nearest first: following [parent] drops the first of these.
    The callbacks of a trie are parameters, an element is present when
    [exist_element] is set.  [mem]: how many more nodes can be allocated. *)

From stdpp Require Import prelude list.
From Stdlib Require Import ZArith Lia.
From S2P Require Import Prelude.

Definition ENOMEM_ : Z := 12.

(** *** Bits of an address *)

Definition be32 (net : list Z) : Z :=
  match net with
  | [a; b; c; d] => Z.lor (Z.shiftl a 24) (Z.lor (Z.shiftl b 16) (Z.lor (Z.shiftl c 8) d))
  | _ => 0
  end.

Definition trie_max_depth (v6 : bool) : Z := if v6 then 128 else 32.

(** The bit [find_trie_node_common] branches on; [net] in network order. *)
Definition trie_bit (v6 : bool) (net : list Z) (bit_idx : Z) : bool :=
  if v6 then
    negb (Z.land (Z.shiftr (nth (Z.to_nat (bit_idx / 8)) net 0) (7 - bit_idx mod 8)) 1 =? 0)
  else negb (Z.land (Z.shiftr (be32 net) (31 - bit_idx)) 1 =? 0).

Definition trie_bits (v6 : bool) (net : list Z) (mask : Z) : list bool :=
  (fun i => trie_bit v6 net (Z.of_nat i)) <$> seq 0 (Z.to_nat mask).

Section trie.
Context {E : Type}.

Inductive tree := Nil | Node (left_node right_node : tree) (element : option E).

(** A node above a position: which way the position is, the other child, the
    element. *)
Record frame := mk_frame { f_right : bool; f_other : tree; f_element : option E }.
Record loc := mk_loc { above : list frame; here : tree }.

Definition child (b : bool) (t : tree) : tree :=
  match t with Nil => Nil | Node l r _ => if b then r else l end.
Definition elem (t : tree) : option E := match t with Nil => None | Node _ _ e => e end.

Definition rebuild (f : frame) (t : tree) : tree :=
  if f_right f then Node (f_other f) t (f_element f) else Node t (f_other f) (f_element f).
Definition plug (z : loc) : tree := foldl (fun t f => rebuild f t) (here z) (above z).

Definition down (b : bool) (z : loc) : loc :=
  mk_loc (mk_frame b (child (negb b) (here z)) (elem (here z)) :: above z) (child b (here z)).

Definition create_trie_node : tree := Node Nil Nil None.

(** The walk of [find_trie_node_common]: the node, or the last one seen with an
    element, with the position the walk ended at. *)
Inductive walk := Found (z : loc) | Missing (last_exist_node : option loc) (z : loc).

Fixpoint find_trie_node (create : bool) (bits : list bool) (mem : nat) (cur : loc) (last : option loc) : walk :=
  match bits with
  | [] => Found cur
  | b :: bits =>
      let z := down b cur in
      let go mem z :=
        find_trie_node create bits mem z (match elem (here z) with Some _ => Some z | None => last end) in
      match here z with
      | Nil =>
          match create, mem with
          | true, S mem => go mem (mk_loc (above z) create_trie_node)
          | _, _ => Missing last cur
          end
      | Node _ _ _ => go mem z
      end
  end.

Definition find_trie_node_common (root : tree) (bits : list bool) (create : bool) (mem : nat) : walk :=
  let z := mk_loc [] root in
  find_trie_node create bits mem z (match elem root with Some _ => Some z | None => None end).

(** [clear_empty_branch]; the root has no parent. *)
Fixpoint clear_empty_branch (above : list frame) (here : tree) : tree :=
  match above with
  | [] => here
  | f :: above' =>
      match here with
      | Node Nil Nil None => clear_empty_branch above' (rebuild f Nil)
      | _ => plug (mk_loc above here)
      end
  end.

Definition set_elem (t : tree) (e : option E) : tree :=
  match t with Nil => Nil | Node l r _ => Node l r e end.

Context {I A R : Type}
  (cb_add : option E -> I -> Z * option E)
  (cb_delete : option E -> I -> Z * option E)
  (cb_search : E -> A -> option R).

(** [add_trie_element] and [delete_trie_element], [bits] being the first [mask]
    bits of the address. *)
Definition add_trie_element (root : tree) (bits : list bool) (mem : nat) (info : I) : Z * tree :=
  match find_trie_node_common root bits true mem with
  | Found z =>
      let '(ret, e) := cb_add (elem (here z)) info in
      (ret, plug (mk_loc (above z) (set_elem (here z) e)))
  | Missing _ z => (- ENOMEM_, plug z)
  end.

Definition delete_trie_element (root : tree) (bits : list bool) (info : I) : Z * tree :=
  match find_trie_node_common root bits false 0 with
  | Found z =>
      let '(ret, e) := cb_delete (elem (here z)) info in
      (ret, clear_empty_branch (above z) (set_elem (here z) e))
  | Missing _ _ => (0, root)
  end.

(** The loop of [search_trie_element] from a node upwards. *)
Fixpoint climb (prefix_search : bool) (argv : A) (above : list frame) (e : option E) : option R :=
  match (match e with Some x => cb_search x argv | None => None end) with
  | Some r => Some r
  | None =>
      if negb prefix_search then None
      else match above with [] => None | f :: above' => climb prefix_search argv above' (f_element f) end
  end.

Definition search_trie_element (root : tree) (bits : list bool) (prefix_search : bool) (argv : A) : option R :=
  match find_trie_node_common root bits false 0 with
  | Found z => climb prefix_search argv (above z) (elem (here z))
  | Missing last _ =>
      match (if prefix_search then last else None) with
      | Some z => climb prefix_search argv (above z) (elem (here z))
      | None => None
      end
  end.

(** [trie_clear]: the root stays, without children and element. *)
Definition trie_clear (root : tree) : tree := Node Nil Nil None.

(** *** What a trie holds *)

Fixpoint elem_at (t : tree) (p : list bool) : option E :=
  match t, p with
  | Nil, _ => None
  | Node _ _ e, [] => e
  | Node l r _, b :: p => elem_at (if b then r else l) p
  end.

(** What the search callback says at a prefix. *)
Definition answer (t : tree) (argv : A) (p : list bool) : option R :=
  match elem_at t p with Some x => cb_search x argv | None => None end.

(** [r] is the answer at the longest prefix of [bits] that has one. *)
Definition longest_match (t : tree) (argv : A) (bits : list bool) (r : option R) : Prop :=
  match r with
  | Some r => exists p, p `prefix_of` bits /\ answer t argv p = Some r /\
      forall p', p' `prefix_of` bits -> (length p < length p')%nat -> answer t argv p' = None
  | None => forall p, p `prefix_of` bits -> answer t argv p = None
  end.

(** The path from the root to a position. *)
Definition path (a : list frame) : list bool := rev (f_right <$> a).

Lemma elem_at_nil p : elem_at Nil p = None.
Proof. by destruct p. Qed.

Lemma elem_at_child t b p : elem_at t (b :: p) = elem_at (child b t) p.
Proof. destruct t; [by rewrite !elem_at_nil|]. by destruct b. Qed.

Lemma elem_at_root t : elem_at t [] = elem t.
Proof. by destruct t. Qed.

Lemma elem_at_rebuild f t b p :
  elem_at (rebuild f t) (b :: p) = if Bool.eqb b (f_right f) then elem_at t p else elem_at (f_other f) p.
Proof. destruct f as [[] o e], b; done. Qed.

(** Below the position it is the subtree that counts, elsewhere the nodes above. *)
Lemma plug_below a t q : elem_at (plug (mk_loc a t)) (path a ++ q) = elem_at t q.
Proof.
  revert t q. induction a as [|f a IH]; intros t q; [done|]. unfold path, plug in *. cbn in *.
  rewrite <- app_assoc. cbn. rewrite IH, elem_at_rebuild. by rewrite Bool.eqb_reflx.
Qed.

Lemma plug_beside a t t' p :
  (forall q, p = path a ++ q -> elem_at t q = elem_at t' q) ->
  elem_at (plug (mk_loc a t)) p = elem_at (plug (mk_loc a t')) p.
Proof.
  revert t t'. induction a as [|f a IH]; intros t t' H; [by apply H|].
  change (elem_at (plug (mk_loc a (rebuild f t))) p = elem_at (plug (mk_loc a (rebuild f t'))) p).
  apply IH. intros q ->. destruct q as [|b q]; [by destruct f as [[] ? ?]|].
  rewrite !elem_at_rebuild. destruct (Bool.eqb_spec b (f_right f)) as [->|]; [|done].
  apply H. unfold path. cbn. by rewrite <- app_assoc.
Qed.

(** *** The walk *)

Lemma rebuild_child b t : t <> Nil -> rebuild (mk_frame b (child (negb b) t) (elem t)) (child b t) = t.
Proof. destruct t; [done|]. by destruct b. Qed.

Lemma plug_down b z : here z <> Nil -> plug (down b z) = plug z.
Proof.
  intros H. destruct z as [a t]. unfold down.
  change (plug (mk_loc a (rebuild (mk_frame b (child (negb b) t) (elem t)) (child b t))) = plug (mk_loc a t)).
  by rewrite rebuild_child.
Qed.

Lemma path_down b z : path (above (down b z)) = path (above z) ++ [b].
Proof. done. Qed.

Lemma elem_at_created q : elem_at create_trie_node q = elem_at (Nil : tree) q.
Proof. destruct q as [|[] q]; [done|by rewrite !elem_at_nil..]. Qed.

(** What a walk from [cur] along [bits] ends with. *)
Definition walk_spec (create : bool) (bits : list bool) (mem : nat) (cur : loc) (w : walk) : Prop :=
  match w with
  | Found z => path (above z) = path (above cur) ++ bits /\ here z <> Nil /\
      (forall p, elem_at (plug z) p = elem_at (plug cur) p) /\ (create = false -> plug z = plug cur)
  | Missing _ z => here z <> Nil /\ (forall p, elem_at (plug z) p = elem_at (plug cur) p) /\
      (create = false /\ elem_at (plug cur) (path (above cur) ++ bits) = None \/ create = true /\ (mem < length bits)%nat)
  end.

Lemma walk_spec_down create b bits mem mem' cur z w :
  above z = above (down b cur) -> (forall p, elem_at (plug z) p = elem_at (plug cur) p) ->
  (create = false -> plug z = plug cur) -> (mem' < length bits -> mem < S (length bits))%nat ->
  walk_spec create bits mem' z w -> walk_spec create (b :: bits) mem cur w.
Proof.
  intros Ha He Hp Hm. assert (Epath : path (above z) ++ bits = path (above cur) ++ b :: bits)
    by by rewrite Ha, path_down, <- app_assoc.
  destruct w as [z'|l z']; cbn [walk_spec]; rewrite Epath.
  - intros (P&N&El&Pl). split_and!; try done.
    + intros p. by rewrite El, He.
    + intros Hf. by rewrite Pl, Hp.
  - intros (N&El&H). split_and!; [done|intros p; by rewrite El, He|]. rewrite He in H.
    destruct H as [?|[? ?]]; [by left|right]. split; [done|]. cbn. lia.
Qed.

Lemma walk_ok create bits mem cur last :
  here cur <> Nil -> walk_spec create bits mem cur (find_trie_node create bits mem cur last).
Proof.
  revert mem cur last. induction bits as [|b bits IH]; intros mem cur last Hc; cbn [find_trie_node].
  { cbn. by rewrite app_nil_r. }
  pose proof (plug_down b cur Hc) as Hd.
  destruct (here (down b cur)) as [|l r e] eqn:Eh.
  - assert (Ed : down b cur = mk_loc (above (down b cur)) Nil) by (rewrite <- Eh; by destruct (down b cur)).
    destruct create; [destruct mem as [|mem]|].
    + cbn. split_and!; [done..|]. right. split; [done|lia].
    + eapply walk_spec_down; [| | | |apply IH]; try done; [|cbn; lia].
      intros p. rewrite <- Hd. rewrite Ed at 2. apply plug_beside. intros q _. apply elem_at_created.
    + cbn. split_and!; [done..|]. left. split; [done|]. rewrite <- Hd, Ed.
      replace (path (above cur) ++ b :: bits) with (path (above (down b cur)) ++ bits)
        by by rewrite path_down, <- app_assoc.
      by rewrite plug_below, elem_at_nil.
  - eapply walk_spec_down; [| | | |apply IH]; try done.
    + intros p. by rewrite Hd.
    + lia.
    + by rewrite Eh.
Qed.

(** The last node with an element on the way down. *)
Definition last_on (root : tree) (done : list bool) (last : option loc) : Prop :=
  match last with
  | Some z => plug z = root /\ path (above z) `prefix_of` done /\
      forall p, p `prefix_of` done -> (length (path (above z)) < length p)%nat -> elem_at root p = None
  | None => forall p, p `prefix_of` done -> elem_at root p = None
  end.

Lemma prefix_snoc (p l : list bool) b : p `prefix_of` l ++ [b] -> p `prefix_of` l \/ p = l ++ [b].
Proof.
  intros [k Hk]. destruct k as [|x k _] using rev_ind; [right; by rewrite app_nil_r in Hk|].
  left. rewrite app_assoc in Hk. apply app_inj_tail in Hk as [Hk _]. by exists k.
Qed.

Lemma last_on_down root b z last :
  here z <> Nil -> plug z = root -> last_on root (path (above z)) last ->
  last_on root (path (above z) ++ [b])
    (match elem (here (down b z)) with Some _ => Some (down b z) | None => last end).
Proof.
  intros Hz Hp Hl. pose proof (plug_down b z Hz) as Hd. rewrite Hp in Hd.
  assert (He : elem_at root (path (above z) ++ [b]) = elem (here (down b z))).
  { rewrite <- Hd. pose proof (plug_below (above (down b z)) (here (down b z)) []) as H.
    rewrite app_nil_r, elem_at_root in H. rewrite path_down in H. by destruct (down b z). }
  destruct (elem (here (down b z))) eqn:Ee; cbn [last_on].
  - split; [done|]. rewrite path_down. split; [done|]. intros p Hpr Hlen. apply prefix_length in Hpr. lia.
  - destruct last as [zl|]; cbn [last_on] in *.
    + destruct Hl as (H1&H2&H3). split; [done|]. split; [by apply prefix_app_r|].
      intros p [Hpr| ->]%prefix_snoc Hlen; [by apply H3|done].
    + intros p [Hpr| ->]%prefix_snoc; [by apply Hl|done].
Qed.

Lemma walk_last root bits mem cur last :
  here cur <> Nil -> plug cur = root -> last_on root (path (above cur)) last ->
  match find_trie_node false bits mem cur last with
  | Found z => True
  | Missing last' _ => last_on root (path (above cur) ++ bits) last'
  end.
Proof.
  revert mem cur last. induction bits as [|b bits IH]; intros mem cur last Hc Hp Hl; [done|]. cbn [find_trie_node].
  pose proof (last_on_down root b cur last Hc Hp Hl) as Hld.
  pose proof (plug_down b cur Hc) as Hd. rewrite Hp in Hd.
  destruct (here (down b cur)) as [|l r e] eqn:Eh.
  - cbn [elem] in Hld. replace (path (above cur) ++ b :: bits) with ((path (above cur) ++ [b]) ++ bits) by by rewrite <- app_assoc.
    assert (Hnone : forall q, elem_at root ((path (above cur) ++ [b]) ++ q) = None).
    { intros q. rewrite <- Hd, <- path_down. pose proof (plug_below (above (down b cur)) (here (down b cur)) q) as H.
      rewrite Eh, elem_at_nil in H. destruct (down b cur) as [a t]. cbn in *. by subst t. }
    assert (Hext : forall p, p `prefix_of` (path (above cur) ++ [b]) ++ bits ->
      p `prefix_of` path (above cur) ++ [b] \/ elem_at root p = None).
    { intros p Hpr. destruct (prefix_weak_total p (path (above cur) ++ [b]) _ Hpr ltac:(by eexists)) as [?|[q ->]]; [by left|]. by right. }
    destruct last as [zl|]; cbn [last_on] in *.
    + destruct Hld as (H1&H2&H3). split; [done|]. split; [by apply prefix_app_r|].
      intros p Hpr Hlen. destruct (Hext p Hpr) as [?|?]; [by apply H3|done].
    + intros p Hpr. destruct (Hext p Hpr) as [?|?]; [by apply Hld|done].
  - specialize (IH mem (down b cur) (match e with Some _ => Some (down b cur) | None => last end)).
    rewrite Eh in IH. specialize (IH ltac:(done) Hd). rewrite path_down in IH. specialize (IH Hld).
    rewrite <- app_assoc in IH. exact IH.
Qed.

(** *** Search *)

Lemma answer_here a t argv : answer (plug (mk_loc a t)) argv (path a) =
  match elem t with Some x => cb_search x argv | None => None end.
Proof. unfold answer. pose proof (plug_below a t []) as H. rewrite app_nil_r, elem_at_root in H. by rewrite H. Qed.

Lemma climb_ok a t argv :
  longest_match (plug (mk_loc a t)) argv (path a) (climb true argv a (elem t)).
Proof.
  revert t. induction a as [|f a IH]; intros t.
  - pose proof (answer_here [] t argv) as Ha. cbn [climb]. rewrite <- Ha.
    destruct (answer _ argv (path [])) as [r|] eqn:Er; cbn.
    + exists []. split_and!; [done..|]. intros p' ->%prefix_nil_inv Hlen. cbn in Hlen. lia.
    + by intros p ->%prefix_nil_inv.
  - pose proof (answer_here (f :: a) t argv) as Ha. cbn [climb]. rewrite <- Ha.
    destruct (answer _ argv (path (f :: a))) as [r|] eqn:Er; cbn [longest_match negb].
    + exists (path (f :: a)). split_and!; [done..|]. intros p' Hp Hlen. apply prefix_length in Hp. lia.
    + specialize (IH (rebuild f t)).
      change (plug (mk_loc a (rebuild f t))) with (plug (mk_loc (f :: a) t)) in IH.
      replace (elem (rebuild f t)) with (f_element f) in IH by by destruct f as [[] ? ?].
      assert (Hpath : path (f :: a) = path a ++ [f_right f]) by done.
      assert (Hlast : forall p, p `prefix_of` path (f :: a) ->
        p `prefix_of` path a \/ answer (plug (mk_loc (f :: a) t)) argv p = None).
      { intros p Hp. rewrite Hpath in Hp. apply prefix_snoc in Hp as [?| ->]; [by left|]. right. by rewrite <- Hpath. }
      destruct (climb true argv a (f_element f)) as [r|]; cbn [longest_match] in *.
      * destruct IH as (p&Hp&Hr&Hlong). exists p. split_and!; [rewrite Hpath; by apply prefix_app_r|done|].
        intros p' Hp' Hlen. destruct (Hlast p' Hp') as [?|?]; [by apply Hlong|done].
      * intros p Hp. destruct (Hlast p Hp) as [?|?]; [by apply IH|done].
Qed.

(** A trie always has its root node. *)
Definition rooted (t : tree) : Prop := t <> Nil.

Lemma walk_root root bits create mem :
  rooted root -> walk_spec create bits mem (mk_loc [] root) (find_trie_node_common root bits create mem).
Proof. intros Hr. by apply walk_ok. Qed.

Lemma search_prefix_ok root bits argv :
  rooted root -> longest_match root argv bits (search_trie_element root bits true argv).
Proof.
  intros Hr. unfold search_trie_element. pose proof (walk_root root bits false 0 Hr) as Hw.
  pose proof (walk_last root bits 0 (mk_loc [] root)
    (match elem root with Some _ => Some (mk_loc [] root) | None => None end) Hr eq_refl) as Hl.
  unfold find_trie_node_common in *.
  destruct (find_trie_node false bits 0 (mk_loc [] root) _) as [z|last z].
  - destruct Hw as (Hp&_&_&Hpl). change (plug (mk_loc [] root)) with root in Hpl.
    cbn in Hp. rewrite <- Hp, <- (Hpl eq_refl). destruct z as [a t]. apply climb_ok.
  - cbn [path above fmap list_fmap rev app] in Hl.
    assert (Hl' : last_on root bits last).
    { apply Hl. destruct (elem root) eqn:Ee; cbn.
      - split_and!; [done..|]. intros p Hp Hlen. apply prefix_length in Hp. cbn in *. lia.
      - intros p ->%prefix_nil_inv. by rewrite elem_at_root. }
    destruct last as [[a t]|]; cbn [last_on] in Hl'.
    + destruct Hl' as (Hpl&Hpr&Hnone). cbn [above here] in *. pose proof (climb_ok a t argv) as Hc. rewrite Hpl in Hc.
      assert (Hlong : forall p, p `prefix_of` bits -> p `prefix_of` path a \/ answer root argv p = None).
      { intros p Hp. destruct (prefix_weak_total p (path a) bits Hp Hpr) as [?|Hap]; [by left|].
        destruct (decide (length (path a) < length p)%nat) as [Hlt|Hge].
        - right. unfold answer. by rewrite Hnone.
        - left. apply prefix_length_eq in Hap; [|lia]. by rewrite Hap. }
      destruct (climb true argv a (elem t)) as [r|]; cbn [longest_match] in *.
      * destruct Hc as (p&Hp&Hr'&Hlg). exists p. split_and!; [by etrans|done|].
        intros p' Hp' Hlen. destruct (Hlong p' Hp') as [?|?]; [by apply Hlg|done].
      * intros p Hp. destruct (Hlong p Hp) as [?|?]; [by apply Hc|done].
    + intros p Hp. unfold answer. by rewrite Hl'.
Qed.

(** *** Update *)

Lemma set_elem_at t e q : t <> Nil -> elem_at (set_elem t e) q = if bool_decide (q = []) then e else elem_at t q.
Proof. destruct t; [done|]. intros _. by destruct q. Qed.

Lemma update_at z e p :
  here z <> Nil ->
  elem_at (plug (mk_loc (above z) (set_elem (here z) e))) p =
  if bool_decide (p = path (above z)) then e else elem_at (plug z) p.
Proof.
  intros Hz. case_bool_decide as Hp.
  - subst p. pose proof (plug_below (above z) (set_elem (here z) e) []) as H. rewrite app_nil_r in H.
    rewrite H. by rewrite set_elem_at.
  - destruct z as [a t]. apply plug_beside. intros q ->. cbn [here above] in *. rewrite set_elem_at by done.
    rewrite bool_decide_false; [done|]. intros ->. by rewrite app_nil_r in Hp.
Qed.

Lemma plug_step f a t : plug (mk_loc (f :: a) t) = plug (mk_loc a (rebuild f t)).
Proof. done. Qed.

Lemma clear_at a t p : elem_at (clear_empty_branch a t) p = elem_at (plug (mk_loc a t)) p.
Proof.
  revert t. induction a as [|f a IH]; intros t; [done|]. cbn [clear_empty_branch].
  destruct t as [|[|] [|] [|]]; try done. rewrite IH, plug_step. apply plug_beside. intros q _.
  destruct q as [|b q]; [by destruct f as [[] ? ?]|]. rewrite !elem_at_rebuild.
  destruct (Bool.eqb b (f_right f)); [|done]. symmetry. apply elem_at_created.
Qed.

Lemma elem_found z : elem_at (plug z) (path (above z)) = elem (here z).
Proof. destruct z as [a t]. pose proof (plug_below a t []) as H. by rewrite app_nil_r, elem_at_root in H. Qed.

Lemma plug_rooted a t : t <> Nil -> rooted (plug (mk_loc a t)).
Proof.
  revert t. induction a as [|f a IH]; intros t Ht; [done|]. rewrite plug_step. apply IH. by destruct f as [[] ? ?].
Qed.

Lemma set_elem_rooted t e : t <> Nil -> set_elem t e <> Nil.
Proof. by destruct t. Qed.

Lemma clear_rooted a t : t <> Nil -> rooted (clear_empty_branch a t).
Proof.
  revert t. induction a as [|f a IH]; intros t Ht; [done|]. cbn [clear_empty_branch].
  destruct t as [|[|] [|] [|]]; try done; try (by apply plug_rooted). apply IH. by destruct f as [[] ? ?].
Qed.

(** *** No empty branches *)

Fixpoint tight (t : tree) : Prop :=
  match t with
  | Nil => True
  | Node l r e => (l <> Nil \/ r <> Nil \/ is_Some e) /\ tight l /\ tight r
  end.

Definition compact (root : tree) : Prop := tight (child false root) /\ tight (child true root).

Definition tight_at (z : loc) : Prop :=
  here z <> Nil /\ compact (here z) /\ Forall (fun f => tight (f_other f)) (above z).

Lemma tight_compact t : tight t -> compact t.
Proof. destruct t; [done|]. by intros (_&?&?). Qed.

Lemma rebuild_tight f t : tight t -> t <> Nil -> tight (f_other f) -> tight (rebuild f t).
Proof. destruct f as [[] o e]; cbn; intros; split_and!; auto. Qed.

Lemma plug_compact a t :
  compact t -> (a <> [] -> tight t) -> Forall (fun f => tight (f_other f)) a -> t <> Nil -> compact (plug (mk_loc a t)).
Proof.
  revert t. induction a as [|f a IH]; intros t Hc Ht Hf Hn; [done|].
  apply Forall_cons in Hf as [H1 H2]. specialize (Ht ltac:(done)). rewrite plug_step.
  pose proof (rebuild_tight f t Ht Hn H1) as Hr. apply IH; [by apply tight_compact|done|done|]. by destruct f as [[] ? ?].
Qed.

Lemma clear_compact a t :
  compact t -> Forall (fun f => tight (f_other f)) a -> t <> Nil -> compact (clear_empty_branch a t).
Proof.
  revert t. induction a as [|f a IH]; intros t Hc Hf Hn; [done|]. pose proof Hf as Hf'. apply Forall_cons in Hf' as [H1 H2].
  cbn [clear_empty_branch]. destruct t as [|l r e]; [done|].
  assert (Hgo : (l <> Nil \/ r <> Nil \/ is_Some e) -> compact (plug (mk_loc (f :: a) (Node l r e)))).
  { intros Hne. by apply plug_compact. }
  destruct l as [|]; [|apply Hgo; by left]. destruct r as [|]; [|apply Hgo; right; by left].
  destruct e as [|]; [apply Hgo; right; right; by eexists|].
  apply IH; [|done|by destruct f as [[] ? ?]]. destruct f as [[] o e]; by split.
Qed.

Lemma walk_tight bits cur last :
  tight_at cur ->
  match find_trie_node false bits 0 cur last with Found z => tight_at z | Missing _ _ => True end.
Proof.
  revert cur last. induction bits as [|b bits IH]; intros cur last Hc; [done|]. cbn [find_trie_node].
  destruct (here (down b cur)) as [|l r e] eqn:Eh; [done|]. apply IH.
  destruct Hc as (Hn&[C1 C2]&Hf). destruct cur as [a t]. destruct t as [|tl tr te]; [done|].
  cbn in Eh, C1, C2. unfold tight_at. cbn. split; [by rewrite Eh|]. split.
  - apply tight_compact. by destruct b.
  - apply Forall_cons. split; [by destruct b|done].
Qed.

Lemma add_ok root bits mem info :
  rooted root ->
  let '(ret, root') := add_trie_element root bits mem info in
  let '(r, e) := cb_add (elem_at root bits) info in
  rooted root' /\
  (ret = r /\ (forall p, elem_at root' p = if bool_decide (p = bits) then e else elem_at root p) \/
   ret = - ENOMEM_ /\ (mem < length bits)%nat /\ forall p, elem_at root' p = elem_at root p).
Proof.
  intros Hr. unfold add_trie_element. pose proof (walk_root root bits true mem Hr) as Hw.
  destruct (find_trie_node_common root bits true mem) as [z|l z]; cbn [walk_spec] in Hw;
    change (plug (mk_loc [] root)) with root in Hw; cbn [above] in Hw.
  - destruct Hw as (Hp&Hz&He&_). change (path (above z) = bits) in Hp. rewrite <- (He bits), <- Hp, elem_found.
    destruct (cb_add (elem (here z)) info) as [r e]. split; [by apply plug_rooted, set_elem_rooted|].
    left. split; [done|]. intros p. rewrite update_at by done. by rewrite He.
  - destruct Hw as (Hz&He&[[? _]|[_ Hm]]); [done|]. destruct (cb_add (elem_at root bits) info) as [r e].
    destruct z as [a t]. split; [by apply plug_rooted|]. by right.
Qed.

Lemma delete_ok root bits info :
  rooted root -> (forall i, cb_delete None i = (0, None)) ->
  let '(ret, root') := delete_trie_element root bits info in
  let '(r, e) := cb_delete (elem_at root bits) info in
  rooted root' /\ ret = r /\
  (forall p, elem_at root' p = if bool_decide (p = bits) then e else elem_at root p) /\
  (compact root -> compact root').
Proof.
  intros Hr Hdel. unfold delete_trie_element. pose proof (walk_root root bits false 0 Hr) as Hw.
  pose proof (walk_tight bits (mk_loc [] root)) as Ht. unfold find_trie_node_common in *.
  specialize (Ht (match elem root with Some _ => Some (mk_loc [] root) | None => None end)).
  destruct (find_trie_node false bits 0 (mk_loc [] root) _) as [z|l z]; cbn [walk_spec] in Hw;
    change (plug (mk_loc [] root)) with root in Hw; cbn [above] in Hw.
  - destruct Hw as (Hp&Hz&He&Hpl). change (path (above z) = bits) in Hp. rewrite <- (He bits), <- Hp, elem_found.
    destruct (cb_delete (elem (here z)) info) as [r e]. split; [by apply clear_rooted, set_elem_rooted|].
    split; [done|]. split.
    + intros p. rewrite clear_at, update_at by done. by rewrite He.
    + intros Hc. destruct Ht as (_&Htc&Htf); [by split_and!|]. apply clear_compact; [|done|by apply set_elem_rooted].
      by destruct (here z).
  - destruct Hw as (Hz&He&[[_ Hn]|[? _]]); [|done]. change (elem_at root bits = None) in Hn.
    rewrite Hn, Hdel. split_and!; [done..| |done]. intros p. case_bool_decide as Hp; [by subst p|done].
Qed.

Lemma search_exact_ok root bits argv :
  rooted root -> search_trie_element root bits false argv = answer root argv bits.
Proof.
  intros Hr. unfold search_trie_element. pose proof (walk_root root bits false 0 Hr) as Hw.
  destruct (find_trie_node_common root bits false 0) as [z|l z]; cbn [walk_spec] in Hw;
    change (plug (mk_loc [] root)) with root in Hw; cbn [above] in Hw; unfold answer.
  - destruct Hw as (Hp&Hz&He&_). change (path (above z) = bits) in Hp. rewrite <- (He bits), <- Hp, elem_found.
    destruct (above z); cbn [climb negb]; destruct (elem (here z)) as [x|]; try done; by destruct (cb_search x argv).
  - destruct Hw as (_&_&[[_ Hn]|[? _]]); [|done]. change (elem_at root bits = None) in Hn. by rewrite Hn.
Qed.

(** *** Theorems *)

(** C28: A trie is a finite map from prefixes.  Adding with memory for the nodes
    calls the callback on the prefix's element and stores the result there and
    nowhere else; without it the map is unchanged.  Deleting does the same with
    its callback, and leaves no node without children and element behind. *)
Theorem trie_is_map root bits mem info :
  rooted root -> (forall i, cb_delete None i = (0, None)) ->
  (let '(ret, root') := add_trie_element root bits mem info in
   let '(r, e) := cb_add (elem_at root bits) info in
   rooted root' /\
   (ret = r /\ (forall p, elem_at root' p = if bool_decide (p = bits) then e else elem_at root p) \/
    ret = - ENOMEM_ /\ (mem < length bits)%nat /\ forall p, elem_at root' p = elem_at root p)) /\
  (let '(ret, root') := delete_trie_element root bits info in
   let '(r, e) := cb_delete (elem_at root bits) info in
   rooted root' /\ ret = r /\
   (forall p, elem_at root' p = if bool_decide (p = bits) then e else elem_at root p) /\
   (compact root -> compact root')).
Proof. intros Hr Hdel. split; [by apply add_ok|by apply delete_ok]. Qed.

(** A prefix search answers from the longest prefix of the address that has an
    answer, falling back to shorter ones when the callback rejects the longer;
    an exact search answers from the prefix itself only. *)
Theorem trie_search_longest root bits argv :
  rooted root ->
  longest_match root argv bits (search_trie_element root bits true argv) /\
  search_trie_element root bits false argv = answer root argv bits.
Proof. intros Hr. split; [by apply search_prefix_ok|by apply search_exact_ok]. Qed.
End trie.

(** Numbers under two prefixes, the longer of which the search refuses. *)
Definition put_cb (e : option Z) (i : Z) : Z * option Z := (0, Some i).
Definition drop_cb (e : option Z) (i : Z) : Z * option Z := (0, None).
Definition even_cb (x : Z) (argv : unit) : option Z := if Z.even x then Some x else None.
Definition small_trie : tree (E := Z) :=
  (add_trie_element put_cb (add_trie_element put_cb (Node Nil Nil None) [true] 9 4).2 [true; false] 9 5).2.

Lemma trie_is_map_witness :
  elem_at (delete_trie_element drop_cb small_trie [true; false] 0).2 [true] = Some 4 /\
  elem_at (delete_trie_element drop_cb small_trie [true; false] 0).2 [true; false] = None.
Proof.
  destruct (trie_is_map put_cb drop_cb small_trie [true; false] 9 0) as [_ H]; [done|done|].
  destruct (delete_trie_element drop_cb small_trie [true; false] 0) as [ret root']. cbn in H.
  destruct H as (_&_&H&_). by rewrite !H.
Defined.

Lemma trie_search_longest_witness :
  longest_match even_cb small_trie tt [true; false; true] (search_trie_element even_cb small_trie [true; false; true] true tt) /\
  search_trie_element even_cb small_trie [true; false; true] true tt = Some 4.
Proof. split; [|done]. apply (trie_search_longest even_cb small_trie [true; false; true] tt). done. Defined.
