(* ===== verification/Route.v ===== *)
(** Routes (src/main/route_arp_ndp.c, route_arp_ndp.h): the tables
    over the tries of Trie.v and the longest-prefix and metric selection of routes.

    Addresses are the 16 bytes of the structures, of which IPv4 uses the first
    four.  Whether a route's interface is known and memory can be had is an
    argument of the operations that need it; the list head a trie node points to
    is part of the node's list. *)

From stdpp Require Import prelude list.
From Stdlib Require Import ZArith Lia.
From S2P Require Import Prelude Trie.

Module Route.

Definition AF_INET6 : Z := 10.

Record route_info := mk_route_info {
  ip_family : Z; type : Z; dst_mask : Z; dst_ip : list Z; gw_ip : list Z; if_name : list Z;
  ifindex : Z; metric : Z; mtu : Z; prefsrc : list Z
}.

Definition is_v6 (family : Z) : bool := family =? AF_INET6.
Definition addr_bytes (v6 : bool) (a : list Z) : list Z := if v6 then take 16 a else take 4 a.

(** *** Route lists *)

(** [route_same] of two routes; names have [IF_NAME_MAX] bytes at most. *)
Definition route_same (a b : route_info) : bool :=
  if negb (ip_family a =? ip_family b) then false
  else if negb (type a =? type b) then false
  else if negb (dst_mask a =? dst_mask b) then false
  else
    let n := if ip_family a =? 2 then 4%nat else 16%nat in
    if negb (bool_decide (take n (dst_ip a) = take n (dst_ip b))) then false
    else if negb (bool_decide (take n (gw_ip a) = take n (gw_ip b))) then false
    else if negb (ifindex a =? ifindex b) then false
    else if (ifindex a =? 0) && negb (bool_decide (if_name a = if_name b)) then false
    else metric a =? metric b.

Definition route_copy_attr (dst src : route_info) : route_info :=
  mk_route_info (ip_family dst) (type dst) (dst_mask dst) (dst_ip dst) (gw_ip dst) (if_name dst)
    (ifindex dst) (metric dst) (mtu src) (prefsrc src).

(** The first route that is the same takes the new attributes. *)
Fixpoint update_same (l : list route_info) (info : route_info) : option (list route_info) :=
  match l with
  | [] => None
  | it :: rest =>
      if route_same it info then Some (route_copy_attr it info :: rest)
      else match update_same rest info with Some rest => Some (it :: rest) | None => None end
  end.

(** What a route to add comes with: is there memory for the list head, and can
    [create_route_info] make the route. *)
Record addition := mk_addition { a_route : route_info; a_head : bool; a_create : bool }.

Definition route4_add_cb (e : option (list route_info)) (i : addition) : Z * option (list route_info) :=
  match e, a_head i with
  | None, false => (-1, None)
  | _, _ =>
      let l := match e with Some l => l | None => [] end in
      match update_same l (a_route i) with
      | Some l => (0, Some l)
      | None => if a_create i then (0, Some (a_route i :: l)) else (-1, e)
      end
  end.

Fixpoint remove_same (l : list route_info) (info : route_info) : list route_info :=
  match l with
  | [] => []
  | it :: rest => if route_same it info then rest else it :: remove_same rest info
  end.

Definition route4_delete_cb (e : option (list route_info)) (info : route_info) : Z * option (list route_info) :=
  match e with
  | None => (0, None)
  | Some l => (0, match remove_same l info with [] => None | l => Some l end)
  end.

(** The loop of the search callbacks over the routes [ok] admits. *)
Fixpoint select_route (ok : route_info -> bool) (l : list route_info) (min_metric : Z)
    (selected : option route_info) : option route_info :=
  match l with
  | [] => selected
  | r :: rest =>
      if ok r && (metric r <? min_metric) then select_route ok rest (metric r) (Some r)
      else select_route ok rest min_metric selected
  end.

Record route_key := mk_key { k_family : Z; k_ifindex : Z; k_dip : list Z }.

Definition route4_search_cb (l : list route_info) (key : route_key) : option route_info :=
  select_route (fun _ => true) l UINT32_MAX None.

Definition route6_search_cb (l : list route_info) (key : route_key) : option route_info :=
  select_route (fun r => negb (negb (k_ifindex key =? 0) && negb (ifindex r =? k_ifindex key))) l UINT32_MAX None.

Definition route_search_cb (v6 : bool) := if v6 then route6_search_cb else route4_search_cb.

(** *** The route tables *)

(** The table of each family. *)
Definition tables := bool -> tree (E := list route_info).

Definition set_table (t : tables) (v6 : bool) (root : tree) : tables :=
  fun v => if Bool.eqb v v6 then root else t v.

Definition route_prefix (r : route_info) : list bool :=
  trie_bits (is_v6 (ip_family r)) (addr_bytes (is_v6 (ip_family r)) (dst_ip r)) (dst_mask r).

(** [route_add_entry] through [add_trie_element], which refuses long masks. *)
Definition route_add_entry (t : tables) (i : addition) (mem : nat) : Z * tables :=
  let r := a_route i in
  let v6 := is_v6 (ip_family r) in
  if trie_max_depth v6 <? dst_mask r then (-1, t)
  else let '(ret, root) := add_trie_element route4_add_cb (t v6) (route_prefix r) mem i in (ret, set_table t v6 root).

Definition route_delete_entry (t : tables) (info : route_info) : Z * tables :=
  let v6 := is_v6 (ip_family info) in
  if trie_max_depth v6 <? dst_mask info then (-1, t)
  else let '(ret, root) := delete_trie_element route4_delete_cb (t v6) (route_prefix info) info in
       (ret, set_table t v6 root).

Definition key_bits (v6 : bool) (dip : list Z) : list bool :=
  trie_bits v6 (addr_bytes v6 dip) (trie_max_depth v6).

Definition search_route_table (t : tables) (key : route_key) : option route_info :=
  let v6 := is_v6 (k_family key) in
  search_trie_element (route_search_cb v6) (t v6) (key_bits v6 (k_dip key)) true key.

(** [route_arp_clear_tables] on the route tables. *)
Definition clear_tables (t : tables) : tables := fun v => trie_clear (t v).

(** [route_include_nexthop]. *)
Definition route_include_nexthop (info : route_info) (nexthop : list Z) : bool :=
  if dst_mask info =? 0 then true
  else if ip_family info =? 2 then
    if 32 <? dst_mask info then false
    else
      let mask := u32 (Z.lnot (Z.shiftl 1 (32 - dst_mask info) - 1)) in
      Z.land (be32 (take 4 (dst_ip info))) mask =? Z.land (be32 (take 4 nexthop)) mask
  else if negb (ip_family info =? AF_INET6) || (128 <? dst_mask info) then false
  else
    let full_bytes := Z.to_nat (dst_mask info / 8) in
    let rem_bits := dst_mask info mod 8 in
    if negb (bool_decide (take full_bytes (dst_ip info) = take full_bytes nexthop)) then false
    else if rem_bits =? 0 then true
    else
      let mask8 := u8 (Z.shiftl 255 (8 - rem_bits)) in
      Z.land (nth full_bytes (dst_ip info) 0) mask8 =? Z.land (nth full_bytes nexthop 0) mask8.

(** *** What is installed *)

Inductive rop := AddRoute (i : addition) (mem : nat) | DeleteRoute (info : route_info).

Definition do_rop (t : tables) (o : rop) : tables :=
  match o with
  | AddRoute i mem => (route_add_entry t i mem).2
  | DeleteRoute info => (route_delete_entry t info).2
  end.

Definition empty_tables : tables := fun _ => Node Nil Nil None.

(** The routes of a table, as the results of the operations say: a route is there
    once an addition has succeeded, with the attributes of the latest. *)
Definition installed_add (rs : list route_info) (info : route_info) : list route_info :=
  match update_same rs info with Some rs => rs | None => info :: rs end.

Definition installed_step (t : tables) (rs : list route_info) (o : rop) : list route_info :=
  match o with
  | AddRoute i mem => if (route_add_entry t i mem).1 =? 0 then installed_add rs (a_route i) else rs
  | DeleteRoute info => if (route_delete_entry t info).1 =? 0 then remove_same rs info else rs
  end.

Fixpoint run (t : tables) (rs : list route_info) (ops : list rop) : tables * list route_info :=
  match ops with
  | [] => (t, rs)
  | o :: ops => run (do_rop t o) (installed_step t rs o) ops
  end.

(** The route's prefix covers the address, and the route may be selected. *)
Definition covers (r : route_info) (key : route_key) : Prop :=
  is_v6 (ip_family r) = is_v6 (k_family key) /\
  route_prefix r `prefix_of` key_bits (is_v6 (k_family key)) (k_dip key).

Definition eligible (r : route_info) (key : route_key) : bool :=
  (metric r <? UINT32_MAX) &&
  (if is_v6 (k_family key) then (k_ifindex key =? 0) || (ifindex r =? k_ifindex key) else true).

(** *** The lists *)

Lemma same_family a b : route_same a b = true ->
  ip_family a = ip_family b /\ dst_mask a = dst_mask b /\ route_prefix a = route_prefix b.
Proof.
  unfold route_same. destruct (Z.eqb_spec (ip_family a) (ip_family b)) as [Ef|]; [|done].
  destruct (type a =? type b); [|done]. destruct (Z.eqb_spec (dst_mask a) (dst_mask b)) as [Em|]; [|done]. cbn [negb].
  case_bool_decide as Ed; [|done]. intros _.
  split_and!; [done..|]. unfold route_prefix. rewrite <- Ef, <- Em. f_equal.
  unfold addr_bytes, is_v6. destruct (Z.eqb_spec (ip_family a) AF_INET6) as [E|E].
  - by rewrite E in Ed.
  - destruct (ip_family a =? 2); [done|]. apply (f_equal (take 4)) in Ed. by rewrite !take_take in Ed.
Qed.

(** The routes of one prefix of one family. *)
Definition at_prefix (v : bool) (p : list bool) (r : route_info) : Prop :=
  is_v6 (ip_family r) = v /\ route_prefix r = p.
#[local] Instance at_prefix_dec v p r : Decision (at_prefix v p r).
Proof. unfold at_prefix. apply _. Defined.

Lemma same_prefix v p a b : route_same a b = true -> at_prefix v p a <-> at_prefix v p b.
Proof. intros (H1&_&H2)%same_family. unfold at_prefix. by rewrite H1, H2. Qed.

Lemma copy_prefix v p a b : at_prefix v p (route_copy_attr a b) <-> at_prefix v p a.
Proof. done. Qed.

Lemma update_filter v p rs info :
  at_prefix v p info ->
  update_same (filter (at_prefix v p) rs) info = (filter (at_prefix v p)) <$> update_same rs info.
Proof.
  intros Hi. induction rs as [|r rs IH]; [done|]. rewrite filter_cons. cbn [update_same].
  destruct (route_same r info) eqn:E.
  - rewrite decide_True by by apply (same_prefix _ _ _ _ E). cbn [update_same]. rewrite E. cbn [fmap option_fmap option_map].
    by rewrite filter_cons, decide_True by by apply copy_prefix, (same_prefix _ _ _ _ E).
  - destruct (decide (at_prefix v p r)) as [H|H].
    + cbn [update_same]. rewrite E, IH. destruct (update_same rs info); [|done]. cbn [fmap option_fmap option_map]. by rewrite filter_cons, decide_True.
    + rewrite IH. destruct (update_same rs info); [|done]. cbn [fmap option_fmap option_map]. by rewrite filter_cons, decide_False.
Qed.

Lemma update_other v p rs info rs' :
  ~ at_prefix v p info -> update_same rs info = Some rs' -> filter (at_prefix v p) rs' = filter (at_prefix v p) rs.
Proof.
  intros Hi. revert rs'. induction rs as [|r rs IH]; intros rs'; [done|]. cbn [update_same].
  destruct (route_same r info) eqn:E.
  - intros [= <-]. rewrite !filter_cons, !decide_False; [done|..]; rewrite ?copy_prefix; by rewrite (same_prefix _ _ _ _ E).
  - destruct (update_same rs info) as [rs1|]; [|done]. intros [= <-]. rewrite !filter_cons, (IH rs1) by done. done.
Qed.

Lemma installed_filter v p rs info :
  filter (at_prefix v p) (installed_add rs info) =
  if decide (at_prefix v p info) then installed_add (filter (at_prefix v p) rs) info else filter (at_prefix v p) rs.
Proof.
  unfold installed_add. case_decide as Hi.
  - rewrite update_filter by done. destruct (update_same rs info); [done|]. cbn [fmap option_fmap option_map]. by rewrite filter_cons, decide_True.
  - destruct (update_same rs info) as [rs'|] eqn:E; [by eapply update_other|]. by rewrite filter_cons, decide_False.
Qed.

Lemma remove_filter v p rs info :
  filter (at_prefix v p) (remove_same rs info) =
  if decide (at_prefix v p info) then remove_same (filter (at_prefix v p) rs) info else filter (at_prefix v p) rs.
Proof.
  induction rs as [|r rs IH]; [by destruct (decide _)|]. cbn [remove_same]. destruct (route_same r info) eqn:E.
  - case_decide as Hi; rewrite filter_cons.
    + rewrite decide_True by by apply (same_prefix _ _ _ _ E). cbn [remove_same]. by rewrite E.
    + rewrite decide_False by by rewrite (same_prefix _ _ _ _ E). done.
  - rewrite !filter_cons, IH. destruct (decide (at_prefix v p info)), (decide (at_prefix v p r)); try done.
    cbn [remove_same]. by rewrite E.
Qed.

(** *** The tables hold what is installed *)

Definition as_list (e : option (list route_info)) : list route_info := default [] e.

Record table_ok (t : tables) (rs : list route_info) : Prop := {
  to_rooted v : rooted (t v);
  to_elem v p : as_list (elem_at (t v) p) = filter (at_prefix v p) rs;
  to_full v p l : elem_at (t v) p = Some l -> l <> [];
  to_mask r : r ∈ rs -> dst_mask r <= trie_max_depth (is_v6 (ip_family r))
}.

Lemma add_cb_spec e i :
  (forall l, e = Some l -> l <> []) ->
  let '(ret, e') := route4_add_cb e i in
  (ret = 0 /\ as_list e' = installed_add (as_list e) (a_route i) \/ ret = -1 /\ e' = e) /\ (forall l, e' = Some l -> l <> []).
Proof.
  intros He. unfold route4_add_cb, installed_add.
  assert (Hup : forall l l', update_same l (a_route i) = Some l' -> l' <> []).
  { intros [|x l] l'; cbn; [done|]. case_if; [by intros [= <-]|]. destruct (update_same l _); [by intros [= <-]|done]. }
  assert (Hgo : forall l, as_list e = l -> (forall k, e = Some k -> k <> []) ->
    let '(ret, e') := match update_same l (a_route i) with
      | Some l => (0, Some l)
      | None => if a_create i then (0, Some (a_route i :: l)) else (-1, e)
      end in
    (ret = 0 /\ as_list e' = match update_same l (a_route i) with Some rs => rs | None => a_route i :: l end \/
     ret = -1 /\ e' = e) /\ (forall l, e' = Some l -> l <> [])).
  { intros l Hl Hk. destruct (update_same l (a_route i)) as [l'|] eqn:Eu; [|destruct (a_create i)].
    - split; [by left|]. intros k [= <-]. by eapply Hup.
    - split; [by left|]. by intros k [= <-].
    - split; [by right|]. done. }
  destruct e as [l|]; [by apply (Hgo l)|]. destruct (a_head i); [by apply (Hgo [])|]. split; [by right|done].
Qed.

Lemma delete_cb_spec e info :
  let '(ret, e') := route4_delete_cb e info in
  ret = 0 /\ as_list e' = remove_same (as_list e) info /\ (forall l, e' = Some l -> l <> []).
Proof.
  destruct e as [l|]; cbn; [|done]. destruct (remove_same l info) as [|x k] eqn:E; [done|].
  split_and!; [done..|]. by intros k' [= <-].
Qed.

Lemma set_table_eq t v root : set_table t v root v = root.
Proof. unfold set_table. by rewrite Bool.eqb_reflx. Qed.
Lemma set_table_ne t v w root : w <> v -> set_table t v root w = t w.
Proof. intros H. unfold set_table. destruct (Bool.eqb_spec w v); done. Qed.

Lemma update_mask rs info rs' (P : route_info -> Prop) :
  (forall a, P a -> P (route_copy_attr a info)) -> update_same rs info = Some rs' ->
  (forall r, r ∈ rs -> P r) -> forall r, r ∈ rs' -> P r.
Proof.
  intros Hc. revert rs'. induction rs as [|a rs IH]; intros rs'; [done|]. cbn [update_same]. intros Hu Hall r Hr.
  assert (Ha : P a) by (apply Hall; left). destruct (route_same a info).
  - injection Hu as <-. apply elem_of_cons in Hr as [->|Hr]; [by apply Hc|apply Hall; by right].
  - destruct (update_same rs info) as [rs1|]; [|done]. injection Hu as <-.
    apply elem_of_cons in Hr as [->|Hr]; [done|]. eapply IH; [done| |done]. intros k Hk. apply Hall. by right.
Qed.

Lemma installed_mask rs info r :
  dst_mask info <= trie_max_depth (is_v6 (ip_family info)) ->
  (forall r, r ∈ rs -> dst_mask r <= trie_max_depth (is_v6 (ip_family r))) ->
  r ∈ installed_add rs info -> dst_mask r <= trie_max_depth (is_v6 (ip_family r)).
Proof.
  intros Hi Hall. unfold installed_add. destruct (update_same rs info) as [rs'|] eqn:E.
  - intros Hr. by apply (update_mask rs info rs' (fun r => dst_mask r <= trie_max_depth (is_v6 (ip_family r)))).
  - intros [->|Hr]%elem_of_cons; [done|by apply Hall].
Qed.

Lemma remove_subset rs info r : r ∈ remove_same rs info -> r ∈ rs.
Proof.
  induction rs as [|a rs IH]; [done|]. cbn [remove_same]. destruct (route_same a info); [by right|].
  intros [->|Hr]%elem_of_cons; [left|right; by apply IH].
Qed.

(** A new root for one table, with the element of one prefix replaced. *)
Lemma table_update t rs rs' v p root e :
  table_ok t rs -> rooted root ->
  (forall q, elem_at root q = if bool_decide (q = p) then e else elem_at (t v) q) ->
  as_list e = filter (at_prefix v p) rs' -> (forall l, e = Some l -> l <> []) ->
  (forall w q, (w, q) <> (v, p) -> filter (at_prefix w q) rs' = filter (at_prefix w q) rs) ->
  (forall r, r ∈ rs' -> dst_mask r <= trie_max_depth (is_v6 (ip_family r))) ->
  table_ok (set_table t v root) rs'.
Proof.
  intros [Hr He Hf Hm] Hroot Hel Hl Hne Hoth Hmask. split; [intros w|intros w q|intros w q l|done];
    (destruct (decide (w = v)) as [->|Hw]; [rewrite set_table_eq|rewrite set_table_ne by done]); try done.
  - rewrite Hel. case_bool_decide as Hq; [by subst q|]. rewrite He, Hoth; [done|congruence].
  - rewrite He, Hoth; [done|congruence].
  - rewrite Hel. case_bool_decide as Hq; [by apply Hne|by apply Hf].
  - by apply Hf.
Qed.

Lemma table_same t rs v root :
  table_ok t rs -> rooted root -> (forall q, elem_at root q = elem_at (t v) q) -> table_ok (set_table t v root) rs.
Proof.
  intros [Hr He Hf Hm] Hroot Hel. split; [intros w|intros w q|intros w q l|done];
    (destruct (decide (w = v)) as [->|Hw]; [rewrite set_table_eq|rewrite set_table_ne by done]); rewrite ?Hel; auto.
  all: by apply Hf.
Qed.

Lemma add_entry_ok t rs i mem : table_ok t rs -> table_ok (do_rop t (AddRoute i mem)) (installed_step t rs (AddRoute i mem)).
Proof.
  intros Ht. pose proof Ht as [Hr He Hf Hm]. cbn [do_rop installed_step]. unfold route_add_entry.
  set (v := is_v6 (ip_family (a_route i))). set (p := route_prefix (a_route i)).
  destruct (Z.ltb_spec (trie_max_depth v) (dst_mask (a_route i))) as [?|Hd]; [done|].
  assert (Hat : at_prefix v p (a_route i)) by done.
  pose proof (add_ok route4_add_cb (t v) p mem i (Hr v)) as Hadd.
  pose proof (add_cb_spec (elem_at (t v) p) i (Hf v p)) as Hcb.
  destruct (add_trie_element route4_add_cb (t v) p mem i) as [ret root].
  destruct (route4_add_cb (elem_at (t v) p) i) as [r e]. cbn [fst snd].
  destruct Hadd as [Hroot [[-> Hel]|(-> & _ & Hel)]]; [|by apply table_same].
  destruct Hcb as [[[-> Hl]|[-> ->]] Hne]; cbn [Z.eqb].
  - eapply table_update; [done|done|done| |done|..].
    + by rewrite Hl, He, installed_filter, decide_True.
    + intros w q Hwq. rewrite installed_filter, decide_False; [done|]. intros [H1 H2]. apply Hwq. unfold v, p. congruence.
    + intros r. by apply installed_mask.
  - apply table_same; [done..|]. intros q. rewrite Hel. case_bool_decide; [by subst q|done].
Qed.

Lemma delete_entry_ok t rs info : table_ok t rs -> table_ok (do_rop t (DeleteRoute info)) (installed_step t rs (DeleteRoute info)).
Proof.
  intros Ht. pose proof Ht as [Hr He Hf Hm]. cbn [do_rop installed_step]. unfold route_delete_entry.
  set (v := is_v6 (ip_family info)). set (p := route_prefix info).
  destruct (Z.ltb_spec (trie_max_depth v) (dst_mask info)) as [?|Hd]; [done|].
  assert (Hat : at_prefix v p info) by done.
  pose proof (delete_ok route4_delete_cb (t v) p info (Hr v) (fun _ => eq_refl)) as Hdel.
  pose proof (delete_cb_spec (elem_at (t v) p) info) as Hcb.
  destruct (delete_trie_element route4_delete_cb (t v) p info) as [ret root].
  destruct (route4_delete_cb (elem_at (t v) p) info) as [r e]. cbn [fst snd].
  destruct Hdel as (Hroot & -> & Hel & _). destruct Hcb as (-> & Hl & Hne). cbn [Z.eqb].
  eapply table_update; [done|done|done| |done|..].
  - by rewrite Hl, He, remove_filter, decide_True.
  - intros w q Hwq. rewrite remove_filter, decide_False; [done|]. intros [H1 H2]. apply Hwq. unfold v, p. congruence.
  - intros r Hin. apply Hm. by eapply remove_subset.
Qed.

Lemma empty_ok : table_ok empty_tables [].
Proof. split; [done|by intros v [|[]]|by intros v [|[]]|]. intros r H. by apply not_elem_of_nil in H. Qed.

Lemma run_ok ops : forall t rs, table_ok t rs -> let '(t', rs') := run t rs ops in table_ok t' rs'.
Proof.
  induction ops as [|o ops IH]; intros t rs Ht; [done|]. cbn [run]. apply IH.
  destruct o; [by apply add_entry_ok|by apply delete_entry_ok].
Qed.

(** *** Selection *)

Lemma select_spec ok l : forall m sel,
  match select_route ok l m sel with
  | Some r => (sel = Some r /\ forall x, x ∈ l -> ok x = true -> m <= metric x) \/
              (r ∈ l /\ ok r = true /\ metric r < m /\ forall x, x ∈ l -> ok x = true -> metric r <= metric x)
  | None => sel = None /\ forall x, x ∈ l -> ok x = true -> m <= metric x
  end.
Proof.
  induction l as [|a l IH]; intros m sel; cbn [select_route].
  - destruct sel; [left|]; split; try done; intros x H; by apply not_elem_of_nil in H.
  - destruct (ok a) eqn:Eo; cbn [andb]; [destruct (Z.ltb_spec (metric a) m) as [Hlt|Hge]|].
    + specialize (IH (metric a) (Some a)). destruct (select_route ok l (metric a) (Some a)) as [r|]; [|by destruct IH].
      right. destruct IH as [[[= ->] H]|(Hin&Ho&Hm&H)].
      * split_and!; [left|done|lia|]. intros x [->|Hx]%elem_of_cons Hox; [lia|by apply H].
      * split_and!; [by right|done|lia|]. intros x [->|Hx]%elem_of_cons Hox; [lia|by apply H].
    + specialize (IH m sel). destruct (select_route ok l m sel) as [r|].
      * destruct IH as [[-> H]|(Hin&Ho&Hm&H)]; [left|right]; (split_and!; [try done; by right|..]); try done;
          intros x [->|Hx]%elem_of_cons Hox; try lia; by apply H.
      * destruct IH as [-> H]. split; [done|]. intros x [->|Hx]%elem_of_cons Hox; [lia|by apply H].
    + specialize (IH m sel). destruct (select_route ok l m sel) as [r|].
      * destruct IH as [[-> H]|(Hin&Ho&Hm&H)]; [left|right]; (split_and!; [try done; by right|..]); try done;
          intros x [->|Hx]%elem_of_cons Hox; try congruence; by apply H.
      * destruct IH as [-> H]. split; [done|]. intros x [->|Hx]%elem_of_cons Hox; [congruence|by apply H].
Qed.

Lemma search_cb_spec key l :
  match route_search_cb (is_v6 (k_family key)) l key with
  | Some r => r ∈ l /\ eligible r key = true /\ forall x, x ∈ l -> eligible x key = true -> metric r <= metric x
  | None => forall x, x ∈ l -> eligible x key = false
  end.
Proof.
  unfold route_search_cb, eligible. destruct (is_v6 (k_family key)).
  - unfold route6_search_cb. set (ok := fun r : route_info => _). pose proof (select_spec ok l UINT32_MAX None) as H.
    assert (Hok : forall x, ok x = (k_ifindex key =? 0) || (ifindex x =? k_ifindex key)).
    { intros x. unfold ok. by destruct (k_ifindex key =? 0), (ifindex x =? k_ifindex key). }
    destruct (select_route ok l UINT32_MAX None) as [r|].
    + destruct H as [[? _]|(Hin&Ho&Hm&H)]; [done|]. rewrite <- Hok, Ho, andb_true_r.
      split_and!; [done|by apply Z.ltb_lt|]. intros x Hx. rewrite <- Hok. intros [_ Hox]%andb_true_iff. by apply H.
    + destruct H as [_ H]. intros x Hx. rewrite <- Hok. destruct (ok x) eqn:E; [|by rewrite andb_false_r].
      specialize (H x Hx E). rewrite andb_true_r. by apply Z.ltb_ge.
  - unfold route4_search_cb. pose proof (select_spec (fun _ => true) l UINT32_MAX None) as H.
    destruct (select_route (fun _ => true) l UINT32_MAX None) as [r|].
    + destruct H as [[? _]|(Hin&Ho&Hm&H)]; [done|]. rewrite andb_true_r.
      split_and!; [done|by apply Z.ltb_lt|]. intros x Hx _. by apply H.
    + destruct H as [_ H]. intros x Hx. specialize (H x Hx eq_refl). rewrite andb_true_r. by apply Z.ltb_ge.
Qed.

(** *** Masks *)

Lemma land_one x k : 0 <= k -> negb (Z.land (Z.shiftr x k) 1 =? 0) = Z.testbit x k.
Proof.
  intros Hk. change 1 with (2 ^ 0) at 1. rewrite land_pow2_eqb by lia.
  by rewrite Z.shiftr_spec, Z.add_0_l, negb_involutive by lia.
Qed.

(** [mask] has the bits from [lo] up to [w]. *)
Definition high_bits (w lo mask : Z) : Prop := forall j, 0 <= j -> Z.testbit mask j = (lo <=? j) && (j <? w).

Lemma mask32_high m : 0 <= m <= 32 -> high_bits 32 (32 - m) (u32 (Z.lnot (Z.shiftl 1 (32 - m) - 1))).
Proof.
  intros Hm j Hj. unfold wrap. rewrite Z.testbit_mod_pow2, Z.lnot_spec by lia.
  rewrite Z.sub_1_r. fold (Z.ones (32 - m)). rewrite Z.testbit_ones_nonneg by lia. zlia.
Qed.

Lemma mask8_high r : 0 <= r < 8 -> high_bits 8 (8 - r) (u8 (Z.shiftl 255 (8 - r))).
Proof.
  intros Hr j Hj. unfold wrap. rewrite Z.testbit_mod_pow2, Z.shiftl_spec by lia. change 255 with (Z.ones 8).
  destruct (Z.leb_spec (8 - r) j).
  - rewrite Z.testbit_ones_nonneg by lia. zlia.
  - rewrite Z.testbit_neg_r by lia. zlia.
Qed.

Lemma masked_eq w lo mask a b : high_bits w lo mask -> 0 <= lo ->
  Z.land a mask = Z.land b mask <-> forall j, lo <= j < w -> Z.testbit a j = Z.testbit b j.
Proof.
  intros Hm Hlo. split; intros H.
  - intros j Hj. apply (f_equal (fun z => Z.testbit z j)) in H. rewrite !Z.land_spec, Hm in H by lia.
    by rewrite (proj2 (Z.leb_le lo j)), (proj2 (Z.ltb_lt j w)), !andb_true_r in H by lia.
  - apply Z.bits_inj'. intros j Hj. rewrite !Z.land_spec, Hm by lia.
    destruct (Z.leb_spec lo j), (Z.ltb_spec j w); rewrite ?andb_false_r; try done. by rewrite H.
Qed.

Lemma seq_prefix (f g : nat -> bool) m n : (m <= n)%nat ->
  (f <$> seq 0 m) `prefix_of` (g <$> seq 0 n) <-> forall i, (i < m)%nat -> f i = g i.
Proof.
  intros Hm. split.
  - intros Hp i Hi. assert (Hf : (f <$> seq 0 m) !! i = Some (f i)) by by rewrite list_lookup_fmap, lookup_seq_lt.
    pose proof (prefix_lookup_Some _ _ _ _ Hf Hp) as Hg. rewrite list_lookup_fmap, lookup_seq_lt in Hg by lia.
    by injection Hg.
  - intros H. replace n with (m + (n - m))%nat by lia. rewrite seq_app, fmap_app. exists (g <$> seq (0 + m) (n - m)).
    f_equal. apply list_fmap_ext. intros i x [-> Hi]%lookup_seq. by rewrite H by lia.
Qed.

Lemma bits_agree v6 a b m : 0 <= m <= trie_max_depth v6 ->
  trie_bits v6 a m `prefix_of` trie_bits v6 b (trie_max_depth v6) <->
  forall i, 0 <= i < m -> trie_bit v6 a i = trie_bit v6 b i.
Proof.
  intros Hm. unfold trie_bits. rewrite seq_prefix by lia. split; intros H i Hi.
  - rewrite <- (Z2Nat.id i) by lia. apply H. lia.
  - apply H. lia.
Qed.

Definition address_ok (a : list Z) : Prop := length a = 16%nat /\ Forall (is_u 8) a.

Lemma address_byte a k : address_ok a -> is_u 8 (nth k a 0).
Proof.
  intros [_ Ha]. destruct (nth_in_or_default k a 0) as [Hin| ->]; [|unfold is_u; lia].
  rewrite Forall_forall in Ha. by apply Ha, list_elem_of_In.
Qed.

Lemma byte_ext x y : is_u 8 x -> is_u 8 y -> (forall j, 0 <= j < 8 -> Z.testbit x j = Z.testbit y j) -> x = y.
Proof.
  intros Hx Hy H. apply Z.bits_inj'. intros j Hj. destruct (Z.ltb_spec j 8); [apply H; lia|].
  rewrite <- (wrap_id 8 x), <- (wrap_id 8 y) by done. unfold wrap. by rewrite !Z.mod_pow2_bits_high by lia.
Qed.

Lemma take_agree a b n : address_ok a -> address_ok b -> (n <= 16)%nat ->
  take n a = take n b <-> forall k, (k < n)%nat -> nth k a 0 = nth k b 0.
Proof.
  intros [La _] [Lb _] Hn. split.
  - intros H k Hk. rewrite <- (take_drop n a), <- (take_drop n b), H.
    rewrite !app_nth1; rewrite ?length_take; [done|lia..].
  - intros H. apply (nth_ext _ _ 0 0); rewrite !length_take; [lia|]. intros k Hk.
    specialize (H k ltac:(lia)). rewrite <- (take_drop n a), <- (take_drop n b) in H.
    rewrite !app_nth1 in H; rewrite ?length_take; [done|lia..].
Qed.

(** Agreement on the first [m] bits, by bytes. *)
Lemma bytes_agree a b m : address_ok a -> address_ok b -> 0 <= m <= 128 ->
  (forall i, 0 <= i < m -> trie_bit true a i = trie_bit true b i) <->
  (forall k, (k < Z.to_nat (m / 8))%nat -> nth k a 0 = nth k b 0) /\
  (forall j, 8 - m mod 8 <= j < 8 -> Z.testbit (nth (Z.to_nat (m / 8)) a 0) j = Z.testbit (nth (Z.to_nat (m / 8)) b 0) j).
Proof.
  intros Ha Hb Hm. pose proof (Z.div_mod m 8). pose proof (Z.mod_pos_bound m 8).
  assert (Hbit : forall c i, 0 <= i -> trie_bit true c i = Z.testbit (nth (Z.to_nat (i / 8)) c 0) (7 - i mod 8)).
  { intros c i Hi. unfold trie_bit. apply land_one. pose proof (Z.mod_pos_bound i 8). lia. }
  split.
  - intros H1. assert (Hk : forall k j, (0 <= j < 8) -> 8 * k + (7 - j) < m -> 0 <= k ->
        Z.testbit (nth (Z.to_nat k) a 0) j = Z.testbit (nth (Z.to_nat k) b 0) j).
    { intros k j Hj Hlt Hk. specialize (H1 (8 * k + (7 - j)) ltac:(lia)). rewrite !Hbit in H1 by lia.
      replace ((8 * k + (7 - j)) / 8) with k in H1 by (apply Z.div_unique with (7 - j); lia).
      replace ((8 * k + (7 - j)) mod 8) with (7 - j) in H1 by (apply Z.mod_unique with k; lia).
      by replace (7 - (7 - j)) with j in H1 by lia. }
    split.
    + intros k Hkm. apply byte_ext; [by apply address_byte..|]. intros j Hj. rewrite <- (Nat2Z.id k). apply Hk; lia.
    + intros j Hj. apply Hk; lia.
  - intros [H1 H2] i Hi. rewrite !Hbit by lia. pose proof (Z.div_mod i 8). pose proof (Z.mod_pos_bound i 8).
    destruct (Z.ltb_spec (i / 8) (m / 8)) as [Hlt|Hge].
    + by rewrite H1 by lia.
    + replace (i / 8) with (m / 8) by (apply Z.le_antisymm; [lia|apply Z.div_le_mono; lia]). apply H2. lia.
Qed.

(** *** Theorems *)

(** The best route to [key] among [rs]: covering and selectable, with the longest
    mask, and of those the smallest metric. *)
Definition best_route (rs : list route_info) (key : route_key) (res : option route_info) : Prop :=
  match res with
  | Some r => r ∈ rs /\ covers r key /\ eligible r key = true /\
      forall x, x ∈ rs -> covers x key -> eligible x key = true ->
        (length (route_prefix x) < length (route_prefix r))%nat \/
        length (route_prefix x) = length (route_prefix r) /\ metric r <= metric x
  | None => forall x, x ∈ rs -> covers x key -> eligible x key = false
  end.

Lemma answer_spec t rs key p :
  table_ok t rs -> let v := is_v6 (k_family key) in
  match answer (route_search_cb v) (t v) key p with
  | Some r => r ∈ rs /\ at_prefix v p r /\ eligible r key = true /\
      forall x, x ∈ rs -> at_prefix v p x -> eligible x key = true -> metric r <= metric x
  | None => forall x, x ∈ rs -> at_prefix v p x -> eligible x key = false
  end.
Proof.
  intros [Hr He Hf Hm] v. unfold answer. specialize (He v p). destruct (elem_at (t v) p) as [l|]; cbn in He.
  - assert (Hin : forall x, x ∈ l <-> at_prefix v p x /\ x ∈ rs) by (intros x; rewrite He; apply list_elem_of_filter).
    pose proof (search_cb_spec key l) as H. fold v in H. destruct (route_search_cb v l key) as [r|].
    + destruct H as (Hr1&Ho&H). apply Hin in Hr1 as [? ?]. split_and!; [done..|]. intros x Hx Hp. apply H, Hin. by split.
    + intros x Hx Hp. apply H, Hin. by split.
  - intros x Hx Hp. assert (Hc : x ∈ filter (at_prefix v p) rs) by by apply list_elem_of_filter.
    rewrite <- He in Hc. by apply not_elem_of_nil in Hc.
Qed.

(** C11: After any sequence of route additions and deletions, some of which may
    fail, a lookup finds the route with the longest prefix covering the
    destination and, among those, the smallest metric, out of exactly the routes
    whose addition succeeded and that were not deleted; it finds none only when
    no installed route can be selected.  For IPv6 with a scope the routes of
    other interfaces are passed over, at every prefix length. *)
Theorem route_lookup_best ops key :
  let '(t, rs) := run empty_tables [] ops in best_route rs key (search_route_table t key).
Proof.
  pose proof (run_ok ops empty_tables [] empty_ok) as Ht. destruct (run empty_tables [] ops) as [t rs].
  unfold search_route_table. set (v := is_v6 (k_family key)).
  pose proof (fun p => answer_spec t rs key p Ht) as Ha. cbn zeta in Ha. fold v in Ha.
  pose proof (search_prefix_ok (route_search_cb v) (t v) (key_bits v (k_dip key)) key (to_rooted _ _ Ht v)) as Hs.
  destruct (search_trie_element _ _ _ _ _) as [r|]; cbn [longest_match best_route] in *.
  - destruct Hs as (p & Hp & Hans & Hlong). pose proof (Ha p) as Hb. rewrite Hans in Hb.
    destruct Hb as (Hin & [Hv Hpre] & Hel & Hmin). subst p. split_and!; [done|by split|done|].
    intros x Hx [Hxv Hxp] Hxe. pose proof (Ha (route_prefix x)) as Hb.
    destruct (decide (length (route_prefix r) < length (route_prefix x))%nat) as [Hl|Hl].
    + rewrite (Hlong _ Hxp Hl) in Hb. rewrite Hb in Hxe; done.
    + destruct (decide (length (route_prefix x) = length (route_prefix r))) as [El|]; [right|left; lia].
      split; [done|]. apply Hmin; [done| |done]. split; [done|].
      destruct (prefix_weak_total _ _ _ Hxp Hp) as [H|H]; [|symmetry]; by apply prefix_length_eq; [|lia].
  - intros x Hx [Hxv Hxp]. pose proof (Ha (route_prefix x)) as Hb. rewrite (Hs _ Hxp) in Hb. by apply Hb.
Qed.

(** C37: The check that a route includes a next hop, by masks on words and bytes, is
    the trie's notion of the route's prefix covering the address. *)
Theorem include_is_coverage info nexthop :
  ip_family info = 2 \/ ip_family info = AF_INET6 ->
  address_ok (dst_ip info) -> address_ok nexthop -> 0 <= dst_mask info <= trie_max_depth (is_v6 (ip_family info)) ->
  route_include_nexthop info nexthop = true <-> covers info (mk_key (ip_family info) 0 nexthop).
Proof.
  intros Hf Hd Hn Hm. unfold covers. cbn [k_family k_dip]. unfold route_prefix, key_bits. rewrite bits_agree by done.
  transitivity (forall i, 0 <= i < dst_mask info ->
    trie_bit (is_v6 (ip_family info)) (addr_bytes (is_v6 (ip_family info)) (dst_ip info)) i =
    trie_bit (is_v6 (ip_family info)) (addr_bytes (is_v6 (ip_family info)) nexthop) i); [|split; [by split|by intros [_ H]]].
  unfold route_include_nexthop, addr_bytes. destruct (Z.eqb_spec (dst_mask info) 0) as [E0|E0]; [split; [lia|done]|].
  destruct Hf as [Ef|Ef]; rewrite Ef in *; cbn [is_v6 AF_INET6 Z.eqb Pos.eqb trie_max_depth negb orb] in *.
  - rewrite (proj2 (Z.ltb_ge 32 _)) by lia. rewrite Z.eqb_eq, (masked_eq _ _ _ _ _ (mask32_high _ Hm)) by lia.
    unfold trie_bit. split; intros H i Hi.
    + rewrite !land_one by lia. apply H. lia.
    + specialize (H (31 - i) ltac:(lia)). rewrite !land_one in H by lia. by replace (31 - (31 - i)) with i in H by lia.
  - rewrite (proj2 (Z.ltb_ge 128 _)) by lia.
    rewrite !(firstn_all2 (n := 16)) by (destruct Hd, Hn; lia). rewrite bytes_agree by done.
    rewrite <- take_agree by (done || (apply Nat2Z.inj_le; rewrite Z2Nat.id; [apply Z.div_le_upper_bound|apply Z.div_pos]; lia)).
    pose proof (Z.mod_pos_bound (dst_mask info) 8). case_bool_decide as Hb; cbn [negb]; [|split; [done|by intros [? _]]].
    destruct (Z.eqb_spec (dst_mask info mod 8) 0) as [Er|Er]; [split; [intros _; split; [done|]; lia|done]|].
    rewrite Z.eqb_eq, (masked_eq _ _ _ _ _ (mask8_high (dst_mask info mod 8) ltac:(lia))) by lia. tauto.
Qed.

Definition sample_route (ip : list Z) (mask m : Z) : route_info :=
  mk_route_info 2 1 mask (ip ++ replicate 12 0) (replicate 16 0) [101] 3 m 0 (replicate 16 0).

Lemma include_is_coverage_witness :
  route_include_nexthop (sample_route [10; 1; 0; 0] 16 0) ([10; 1; 200; 7] ++ replicate 12 0) = true <->
  covers (sample_route [10; 1; 0; 0] 16 0) (mk_key 2 0 ([10; 1; 200; 7] ++ replicate 12 0)).
Proof.
  apply (include_is_coverage (sample_route [10; 1; 0; 0] 16 0)); [by left| | |by vm_compute];
    (split; [done|]); repeat constructor; by vm_compute.
Defined.

(** Of 10.0.0.0/8 and two routes to 10.1.0.0/16 the lookup of 10.1.200.7 takes the
    longer with the smaller metric; after its deletion, the other. *)
Lemma lookup_prefers_mask_then_metric :
  let add m k := AddRoute (mk_addition (sample_route [10; 1; 0; 0] m k) true true) 32 in
  let ops := [add 8 0; add 16 9; add 16 5] in
  let key := mk_key 2 0 ([10; 1; 200; 7] ++ replicate 12 0) in
  (fun r => (dst_mask r, metric r)) <$> search_route_table (run empty_tables [] ops).1 key = Some (16, 5) /\
  (fun r => (dst_mask r, metric r)) <$>
    search_route_table (run empty_tables [] (ops ++ [DeleteRoute (sample_route [10; 1; 0; 0] 16 5)])).1 key = Some (16, 9).
Proof. by vm_compute. Qed.
End Route.
