(* ===== verification/Neigh.v ===== *)
(** Neighbours (src/main/route_arp_ndp.c): the ARP and NDP tables over the tries of
    Trie.v, resolution of a next hop to a link address, and the limit on probes.

    As in Route.v the element of a trie node is the list its head points to, and
    whether memory can be had is an argument.  A probe (the [ping] command the
    code starts) is an output. *)

From stdpp Require Import prelude list.
From Stdlib Require Import ZArith Lia.
From S2P Require Import Prelude Trie Route.

Module Neigh.
Import Route.

Definition NUD_REACHABLE : Z := 2.
Definition NUD_STALE : Z := 4.
Definition NUD_DELAY : Z := 8.
Definition NUD_PROBE : Z := 16.
Definition NUD_FAILED : Z := 32.
Definition NUD_NOARP : Z := 64.
Definition NUD_PERMANENT : Z := 128.
Definition EHOSTUNREACH_ : Z := 113.
Definition EINPROGRESS_ : Z := 115.

Record ndp_info := mk_ndp {
  n_family : Z; n_ip : list Z; mac : list Z; mac_str : list Z; n_if_name : list Z; n_ifindex : Z; state : Z
}.

Record ndp_key := mk_ndp_key { nk_family : Z; neigh_ip : list Z; nk_ifindex : Z }.

(** *** The callbacks *)

(** The loop of [arp_add_cb]: the first entry of the interface is overwritten. *)
Fixpoint replace_entry (l : list ndp_info) (info : ndp_info) : option (list ndp_info) :=
  match l with
  | [] => None
  | entry :: rest =>
      if n_ifindex entry =? n_ifindex info then Some (info :: rest)
      else match replace_entry rest info with Some rest => Some (entry :: rest) | None => None end
  end.

(** An entry to add, and whether there is memory for the list head and for the entry. *)
Record neigh_add := mk_neigh_add { na_info : ndp_info; na_head : bool; na_create : bool }.

Definition arp_add_cb (e : option (list ndp_info)) (i : neigh_add) : Z * option (list ndp_info) :=
  match e, na_head i with
  | None, false => (-1, None)
  | _, _ =>
      let l := match e with Some l => l | None => [] end in
      match replace_entry l (na_info i) with
      | Some l => (0, Some l)
      | None => if na_create i then (0, Some (na_info i :: l)) else (-1, e)
      end
  end.

Definition arp_delete_cb (e : option (list ndp_info)) (info : ndp_info) : Z * option (list ndp_info) :=
  match e with
  | None => (0, None)
  | Some l =>
      (0, match List.filter (fun entry => negb (n_ifindex entry =? n_ifindex info)) l with [] => None | l => Some l end)
  end.

Definition arp_search_cb (l : list ndp_info) (key : ndp_key) : option ndp_info :=
  List.find (fun entry => (nk_ifindex key =? 0) || (n_ifindex entry =? nk_ifindex key)) l.

(** *** The tables *)

Definition ntables := bool -> tree (E := list ndp_info).

Definition set_ntable (t : ntables) (v6 : bool) (root : tree) : ntables :=
  fun v => if Bool.eqb v v6 then root else t v.

Definition ndp_add_entry (t : ntables) (i : neigh_add) (mem : nat) : Z * ntables :=
  let v6 := is_v6 (n_family (na_info i)) in
  let '(ret, root) := add_trie_element arp_add_cb (t v6) (key_bits v6 (n_ip (na_info i))) mem i in
  (ret, set_ntable t v6 root).

Definition ndp_delete_entry (t : ntables) (info : ndp_info) : Z * ntables :=
  let v6 := is_v6 (n_family info) in
  let '(ret, root) := delete_trie_element arp_delete_cb (t v6) (key_bits v6 (n_ip info)) info in
  (ret, set_ntable t v6 root).

Definition search_ndp_table (t : ntables) (key : ndp_key) : option ndp_info :=
  if nk_family key =? AF_INET6 then
    search_trie_element arp_search_cb (t true) (key_bits true (neigh_ip key)) false key
  else if nk_family key =? 2 then
    search_trie_element arp_search_cb (t false) (key_bits false (neigh_ip key)) false key
  else None.

(** *** Probes *)

Definition PING_COOLDOWN_MS : Z := 1000.
Definition PING_CACHE_SIZE : nat := 16.

Section ping.
Context {K : Type} `{EqDecision K}.

Record ping_slot := mk_slot { s_ip : K; s_ifindex : Z; last_ms : Z }.
Record ping_cache := mk_cache { slots : list ping_slot; cache_idx : Z }.

Fixpoint find_slot (l : list ping_slot) (ip : K) (ifindex : Z) (i : nat) : option (nat * ping_slot) :=
  match l with
  | [] => None
  | s :: rest =>
      if bool_decide (s_ip s = ip) && (s_ifindex s =? ifindex) then Some (i, s) else find_slot rest ip ifindex (S i)
  end.

Definition ping_allowed (c : ping_cache) (ip : K) (ifindex now_ms : Z) : bool * ping_cache :=
  match find_slot (slots c) ip ifindex 0 with
  | Some (i, s) =>
      if u64 (now_ms - last_ms s) <? PING_COOLDOWN_MS then (false, c)
      else (true, mk_cache (<[i := mk_slot (s_ip s) (s_ifindex s) now_ms]> (slots c)) (cache_idx c))
  | None =>
      let idx := cache_idx c mod Z.of_nat PING_CACHE_SIZE in
      (true, mk_cache (<[Z.to_nat idx := mk_slot ip ifindex now_ms]> (slots c)) (u32 (cache_idx c + 1)))
  end.

Definition zero_cache (zero : K) : ping_cache := mk_cache (replicate PING_CACHE_SIZE (mk_slot zero 0 0)) 0.
End ping.
Arguments ping_cache K : clear implicits.

Definition arp_ping_allowed := ping_allowed (K := Z).
Definition ndp_ping_allowed := ping_allowed (K := list Z).

Record probes := mk_probes { g_arp_ping_cache : ping_cache Z; g_ndp_ping_cache : ping_cache (list Z) }.

(** [trigger_neighbor_probe]; [name] is the interface's name when it is known.
    [inet_ntop] knows the two families only, and the command fits its buffer. *)
Definition trigger_neighbor_probe (p : probes) (family : Z) (ip : list Z) (ifindex now_ms : Z)
    (name : option (list Z)) : option (list Z * list Z) * probes :=
  match name with
  | None => (None, p)
  | Some name =>
      if family =? AF_INET6 then
        let '(allowed, c) := ndp_ping_allowed (g_ndp_ping_cache p) (take 16 ip) ifindex now_ms in
        (if allowed then Some (name, take 16 ip) else None, mk_probes (g_arp_ping_cache p) c)
      else
        let '(allowed, c) := arp_ping_allowed (g_arp_ping_cache p) (be32 (take 4 ip)) ifindex now_ms in
        (if allowed && (family =? 2) then Some (name, take 4 ip) else None, mk_probes c (g_ndp_ping_cache p))
  end.

Definition ndp_entry_usable (entry : option ndp_info) : bool :=
  match entry with
  | None => false
  | Some entry =>
      if bool_decide (mac entry = replicate 6 0) then false
      else negb (Z.land (state entry)
             (Z.lor NUD_REACHABLE (Z.lor NUD_STALE (Z.lor NUD_DELAY (Z.lor NUD_PROBE (Z.lor NUD_PERMANENT NUD_NOARP))))) =? 0)
  end.

(** The return value and the entry found; the probe, if one is started. *)
Definition resolve_neighbor_entry (t : ntables) (p : probes) (key : ndp_key) (now_ms : Z) (name : option (list Z)) :
    Z * option ndp_info * option (list Z * list Z) * probes :=
  let entry := search_ndp_table t key in
  if match entry with Some entry => negb (Z.land (state entry) NUD_FAILED =? 0) | None => false end then
    (- EHOSTUNREACH_, None, None, p)
  else if ndp_entry_usable entry then (0, entry, None, p)
  else if negb (nk_ifindex key =? 0) then
    let '(probe, p) := trigger_neighbor_probe p (nk_family key) (neigh_ip key) (nk_ifindex key) now_ms name in
    (- EINPROGRESS_, None, probe, p)
  else (- EINPROGRESS_, None, None, p).

(** *** What is known of the neighbours *)

(** By family, address and interface. *)
Definition nmap := bool -> list bool -> Z -> option ndp_info.

Definition set_nmap (m : nmap) (v : bool) (p : list bool) (i : Z) (e : option ndp_info) : nmap :=
  fun v' p' i' => if bool_decide ((v', p', i') = (v, p, i)) then e else m v' p' i'.

Inductive nop := AddNeigh (i : neigh_add) (mem : nat) | DeleteNeigh (info : ndp_info).

(** One operation on the tables, and on what is known if it succeeded. *)
Definition do_nop (t : ntables) (m : nmap) (o : nop) : ntables * nmap :=
  match o with
  | AddNeigh i mem =>
      let '(ret, t') := ndp_add_entry t i mem in
      let v := is_v6 (n_family (na_info i)) in
      (t', if ret =? 0 then set_nmap m v (key_bits v (n_ip (na_info i))) (n_ifindex (na_info i)) (Some (na_info i)) else m)
  | DeleteNeigh info =>
      let '(ret, t') := ndp_delete_entry t info in
      let v := is_v6 (n_family info) in
      (t', if ret =? 0 then set_nmap m v (key_bits v (n_ip info)) (n_ifindex info) None else m)
  end.

Fixpoint nrun (t : ntables) (m : nmap) (ops : list nop) : ntables * nmap :=
  match ops with
  | [] => (t, m)
  | o :: ops => let '(t, m) := do_nop t m o in nrun t m ops
  end.

Definition no_tables : ntables := fun _ => Node Nil Nil None.
Definition no_neighbours : nmap := fun _ _ _ => None.

(** The entry of the key's interface, or any of the address when it names none. *)
Definition neigh_answer (m : nmap) (key : ndp_key) (res : option ndp_info) : Prop :=
  let v := is_v6 (nk_family key) in
  let p := key_bits v (neigh_ip key) in
  if (nk_family key =? 2) || (nk_family key =? AF_INET6) then
    if nk_ifindex key =? 0 then
      match res with Some e => m v p (n_ifindex e) = Some e | None => forall i, m v p i = None end
    else res = m v p (nk_ifindex key)
  else res = None.

(** The limiter with a slot for every address and interface. *)
Section limiter.
Context {K : Type} `{EqDecision K}.

Fixpoint pings (c : ping_cache K) (calls : list (K * Z * Z)) : list bool :=
  match calls with
  | [] => []
  | (ip, ifindex, now) :: calls => let '(ok, c) := ping_allowed c ip ifindex now in ok :: pings c calls
  end.

Fixpoint unbounded (last : K * Z -> option Z) (calls : list (K * Z * Z)) : list bool :=
  match calls with
  | [] => []
  | (ip, ifindex, now) :: calls =>
      let ok := match last (ip, ifindex) with Some t => PING_COOLDOWN_MS <=? u64 (now - t) | None => true end in
      ok :: unbounded (if ok then fun k => if bool_decide (k = (ip, ifindex)) then Some now else last k else last) calls
  end.
End limiter.

(** *** Lemmas on the lists *)

Definition entry_of (i : Z) (e : option (list ndp_info)) : option ndp_info :=
  List.find (fun entry => n_ifindex entry =? i) (default [] e).

Lemma replace_find l info : forall i,
  match replace_entry l info with
  | Some l' => l' <> [] /\ List.find (fun e => n_ifindex e =? i) l' =
      if i =? n_ifindex info then Some info else List.find (fun e => n_ifindex e =? i) l
  | None => True
  end.
Proof.
  intros i. induction l as [|a l IH]; [done|]. cbn [replace_entry].
  destruct (Z.eqb_spec (n_ifindex a) (n_ifindex info)) as [E|E].
  - split; [done|]. cbn [List.find]. rewrite E, (Z.eqb_sym i). by destruct (n_ifindex info =? i).
  - destruct (replace_entry l info) as [l'|]; [|done]. destruct IH as [_ IH]. split; [done|]. cbn [List.find]. rewrite IH.
    destruct (Z.eqb_spec (n_ifindex a) i), (Z.eqb_spec i (n_ifindex info)); congruence || done.
Qed.

Lemma arp_add_spec e i :
  let '(ret, e') := arp_add_cb e i in
  (ret = 0 /\ (forall j, entry_of j e' = if j =? n_ifindex (na_info i) then Some (na_info i) else entry_of j e) \/
   ret = -1 /\ e' = e).
Proof.
  unfold arp_add_cb, entry_of.
  assert (Hgo : forall l, default [] e = l ->
    let '(ret, e') := match replace_entry l (na_info i) with
      | Some l => (0, Some l)
      | None => if na_create i then (0, Some (na_info i :: l)) else (-1, e)
      end in
    ret = 0 /\ (forall j, List.find (fun entry => n_ifindex entry =? j) (default [] e') =
      if j =? n_ifindex (na_info i) then Some (na_info i) else List.find (fun entry => n_ifindex entry =? j) (default [] e)) \/
    ret = -1 /\ e' = e).
  { intros l <-. pose proof (replace_find (default [] e) (na_info i)) as Hr.
    destruct (replace_entry (default [] e) (na_info i)) as [l'|]; [left; split; [done|]; intros j; exact (proj2 (Hr j))|].
    destruct (na_create i); [left|by right]. split; [done|]. intros j. cbn [default from_option id List.find].
    rewrite (Z.eqb_sym j). by destruct (n_ifindex (na_info i) =? j). }
  destruct e as [l|]; [by apply Hgo|]. destruct (na_head i); [by apply Hgo|by right].
Qed.

Lemma filter_find l i j :
  List.find (fun e => n_ifindex e =? j) (List.filter (fun e => negb (n_ifindex e =? i)) l) =
  if j =? i then None else List.find (fun e => n_ifindex e =? j) l.
Proof.
  induction l as [|a l IH]; cbn [List.filter List.find]; [by destruct (j =? i)|].
  destruct (Z.eqb_spec (n_ifindex a) i) as [Ea|Ea]; cbn [negb List.find].
  - rewrite IH, Ea, (Z.eqb_sym i). by destruct (j =? i).
  - rewrite IH. destruct (Z.eqb_spec (n_ifindex a) j) as [<-|]; [|done]. by rewrite (proj2 (Z.eqb_neq _ _) Ea).
Qed.

Lemma arp_delete_spec e info :
  let '(ret, e') := arp_delete_cb e info in
  ret = 0 /\ forall j, entry_of j e' = if j =? n_ifindex info then None else entry_of j e.
Proof.
  destruct e as [l|]; cbn [arp_delete_cb]; (split; [done|]); intros j.
  - unfold entry_of. cbn [default from_option id]. rewrite <- filter_find.
    by destruct (List.filter (fun entry => negb (n_ifindex entry =? n_ifindex info)) l).
  - by destruct (j =? n_ifindex info).
Qed.

(** *** The tables hold what is known *)

Record neigh_ok (t : ntables) (m : nmap) : Prop := {
  no_rooted v : rooted (t v);
  no_entry v p i : entry_of i (elem_at (t v) p) = m v p i
}.

Lemma neigh_update t m v p i root e e' :
  neigh_ok t m -> rooted root ->
  (forall q, elem_at root q = if bool_decide (q = p) then e else elem_at (t v) q) ->
  (forall j, entry_of j e = if j =? i then e' else entry_of j (elem_at (t v) p)) ->
  neigh_ok (set_ntable t v root) (set_nmap m v p i e').
Proof.
  intros [Hr He] Hroot Hel Hj. split; [intros w|intros w q j]; unfold set_ntable; (destruct (Bool.eqb_spec w v) as [->|Hw]; [|]); try done.
  - rewrite Hel. unfold set_nmap. case_bool_decide as Hq; [subst q|].
    + rewrite Hj, He. destruct (Z.eqb_spec j i) as [->|]; case_bool_decide; congruence || done.
    + rewrite He. case_bool_decide; congruence || done.
  - rewrite He. unfold set_nmap. case_bool_decide; congruence || done.
Qed.

Lemma neigh_same t m v root :
  neigh_ok t m -> rooted root -> (forall q, elem_at root q = elem_at (t v) q) -> neigh_ok (set_ntable t v root) m.
Proof.
  intros [Hr He] Hroot Hel. split; [intros w|intros w q j]; unfold set_ntable; destruct (Bool.eqb_spec w v) as [->|Hw]; try done.
  by rewrite Hel.
Qed.

Lemma nop_ok t m o : neigh_ok t m -> let '(t', m') := do_nop t m o in neigh_ok t' m'.
Proof.
  intros Ht. pose proof Ht as [Hr He]. destruct o as [i mem|info]; cbn [do_nop].
  - unfold ndp_add_entry. set (v := is_v6 (n_family (na_info i))). set (p := key_bits v (n_ip (na_info i))).
    pose proof (add_ok arp_add_cb (t v) p mem i (Hr v)) as Hadd. pose proof (arp_add_spec (elem_at (t v) p) i) as Hcb.
    destruct (add_trie_element arp_add_cb (t v) p mem i) as [ret root].
    destruct (arp_add_cb (elem_at (t v) p) i) as [r e].
    destruct Hadd as [Hroot [[-> Hel]|(-> & _ & Hel)]]; [|by apply neigh_same].
    destruct Hcb as [[-> Hj]|[-> ->]]; cbn [Z.eqb]; [by eapply neigh_update|].
    apply neigh_same; [done..|]. intros q. rewrite Hel. case_bool_decide; [by subst q|done].
  - unfold ndp_delete_entry. set (v := is_v6 (n_family info)). set (p := key_bits v (n_ip info)).
    pose proof (delete_ok arp_delete_cb (t v) p info (Hr v) (fun _ => eq_refl)) as Hdel.
    pose proof (arp_delete_spec (elem_at (t v) p) info) as Hcb.
    destruct (delete_trie_element arp_delete_cb (t v) p info) as [ret root].
    destruct (arp_delete_cb (elem_at (t v) p) info) as [r e]. destruct Hdel as (Hroot & -> & Hel & _).
    destruct Hcb as [-> Hj]. cbn [Z.eqb]. by eapply neigh_update.
Qed.

Lemma nrun_ok ops : forall t m, neigh_ok t m -> let '(t', m') := nrun t m ops in neigh_ok t' m'.
Proof.
  induction ops as [|o ops IH]; intros t m Ht; [done|]. cbn [nrun]. pose proof (nop_ok t m o Ht) as H.
  destruct (do_nop t m o) as [t1 m1]. by apply IH.
Qed.

Lemma no_tables_ok : neigh_ok no_tables no_neighbours.
Proof. split; [done|]. by intros v [|[]] i. Qed.

(** An exact search of the table of the key's family. *)
Lemma search_entry t m key v : neigh_ok t m ->
  let p := key_bits v (neigh_ip key) in let res := search_trie_element arp_search_cb (t v) p false key in
  if nk_ifindex key =? 0 then
    match res with Some e => m v p (n_ifindex e) = Some e | None => forall i, m v p i = None end
  else res = m v p (nk_ifindex key).
Proof.
  intros [Hr He] p res. unfold res. rewrite search_exact_ok by done. unfold answer, arp_search_cb.
  pose proof (He v p) as Hp. unfold entry_of in Hp. destruct (elem_at (t v) p) as [l|]; cbn [default from_option id] in Hp.
  - destruct (Z.eqb_spec (nk_ifindex key) 0) as [E|E]; cbn [orb]; [|apply Hp].
    destruct l as [|a l]; cbn [List.find] in *; [done|]. rewrite <- Hp. by rewrite Z.eqb_refl.
  - destruct (nk_ifindex key =? 0); [intros i|]; by rewrite <- Hp.
Qed.

(** *** The limiter *)

Section limited.
Context {K : Type} `{EqDecision K} (zero : K) (ks : list (K * Z)).
Hypothesis ks_small : (length ks <= PING_CACHE_SIZE)%nat.
Hypothesis ks_real : forall k, k ∈ ks -> k.2 <> 0.

Definition skey (s : ping_slot (K := K)) : K * Z := (s_ip s, s_ifindex s).
Definition zslot : ping_slot (K := K) := mk_slot zero 0 0.

(** The slots in use are the first ones, one for each key met. *)
Record lim_inv (c : ping_cache K) (last : K * Z -> option Z) (used : list ping_slot) : Prop := {
  li_slots : slots c = used ++ replicate (PING_CACHE_SIZE - length used) zslot;
  li_idx : cache_idx c = Z.of_nat (length used);
  li_nodup : NoDup (skey <$> used);
  li_keys : (skey <$> used) ⊆ ks;
  li_last k t : last k = Some t <-> exists i s, used !! i = Some s /\ skey s = k /\ last_ms s = t
}.

Lemma find_slot_spec l ip ifindex : forall n,
  match find_slot l ip ifindex n with
  | Some (i, s) => exists j, i = (n + j)%nat /\ l !! j = Some s /\ skey s = (ip, ifindex)
  | None => (ip, ifindex) ∉ skey <$> l
  end.
Proof.
  induction l as [|a l IH]; intros n; [apply not_elem_of_nil|]. cbn [find_slot fmap list_fmap].
  case_bool_decide as Ei; [destruct (Z.eqb_spec (s_ifindex a) ifindex) as [Ex|Ex]|]; cbn [andb].
  - exists 0%nat. split_and!; [lia|done|]. unfold skey. congruence.
  - specialize (IH (S n)). destruct (find_slot l ip ifindex (S n)) as [[i s]|].
    + destruct IH as (j&->&?&?). exists (S j). split_and!; [lia|done..].
    + apply not_elem_of_cons. split; [unfold skey; congruence|done].
  - specialize (IH (S n)). destruct (find_slot l ip ifindex (S n)) as [[i s]|].
    + destruct IH as (j&->&?&?). exists (S j). split_and!; [lia|done..].
    + apply not_elem_of_cons. split; [unfold skey; congruence|done].
Qed.

(** Real keys are found among the slots in use. *)
Lemma find_used c last used ip ifindex : lim_inv c last used -> ifindex <> 0 ->
  match find_slot (slots c) ip ifindex 0 with
  | Some (i, s) => used !! i = Some s /\ skey s = (ip, ifindex) /\ last (ip, ifindex) = Some (last_ms s)
  | None => (ip, ifindex) ∉ skey <$> used /\ last (ip, ifindex) = None
  end.
Proof.
  intros [Hs _ _ _ Hl] Hx. pose proof (find_slot_spec (slots c) ip ifindex 0) as H.
  destruct (find_slot (slots c) ip ifindex 0) as [[i s]|].
  - destruct H as (j&->&Hj&Hk). cbn [Nat.add]. assert (Hu : used !! j = Some s).
    { rewrite Hs in Hj. apply lookup_app_Some in Hj as [?|[_ Hz]]; [done|].
      apply lookup_replicate in Hz as [-> _]. unfold skey in Hk. cbn in Hk. congruence. }
    split_and!; [done..|]. apply Hl. by exists j, s.
  - rewrite Hs, fmap_app, not_elem_of_app in H. destruct H as [H _]. split; [done|].
    destruct (last (ip, ifindex)) as [t|] eqn:E; [|done]. apply Hl in E as (i&s&Hu&Hk&_).
    destruct H. apply list_elem_of_fmap. exists s. split; [done|]. by eapply list_elem_of_lookup_2.
Qed.

Lemma used_room used k : NoDup (skey <$> used) -> (skey <$> used) ⊆ ks -> k ∈ ks -> (k ∉ skey <$> used) ->
  (length used < PING_CACHE_SIZE)%nat.
Proof.
  intros Hn Hs Hk Hf. assert (H : (length (k :: (skey <$> used)) <= length ks)%nat).
  { apply submseteq_length, NoDup_submseteq; [by constructor|]. intros x [->|Hx]%elem_of_cons; [done|by apply Hs]. }
  cbn [length] in H. rewrite length_fmap in H. lia.
Qed.

Definition set_last (last : K * Z -> option Z) (k : K * Z) (now : Z) : K * Z -> option Z :=
  fun k' => if bool_decide (k' = k) then Some now else last k'.

Lemma inv_refresh c last used i s now : lim_inv c last used -> used !! i = Some s ->
  lim_inv (mk_cache (<[i := mk_slot (s_ip s) (s_ifindex s) now]> (slots c)) (cache_idx c))
    (set_last last (skey s) now) (<[i := mk_slot (s_ip s) (s_ifindex s) now]> used).
Proof.
  intros [Hs Hi Hn Hk Hl] Hu. set (s' := mk_slot (s_ip s) (s_ifindex s) now).
  assert (Hm : skey <$> <[i := s']> used = skey <$> used).
  { rewrite list_fmap_insert. apply list_insert_id. by rewrite list_lookup_fmap, Hu. }
  split; cbn [slots cache_idx]; rewrite ?Hm, ?length_insert; [|done..|].
  - rewrite Hs. apply insert_app_l. by eapply lookup_lt_Some.
  - intros k t. unfold set_last. case_bool_decide as E.
    + subst k. split.
      * intros [= <-]. exists i, s'. split_and!; [|done..]. apply list_lookup_insert_eq. by eapply lookup_lt_Some.
      * intros (j&x&Hj&Hx&Ht). destruct (decide (j = i)) as [->|Hne].
        -- rewrite list_lookup_insert_eq in Hj by by eapply lookup_lt_Some. injection Hj as <-. by rewrite <- Ht.
        -- rewrite list_lookup_insert_ne in Hj by done. destruct Hne.
           apply (NoDup_lookup _ _ _ (skey s) Hn); rewrite list_lookup_fmap, ?Hj, ?Hu; cbn; congruence.
    + rewrite Hl. split; intros (j&x&Hj&Hx&Ht); exists j, x; (split_and!; [|done..]);
        (destruct (decide (j = i)) as [->|Hne]; [|by rewrite list_lookup_insert_ne in * by done]).
      * rewrite Hu in Hj. by injection Hj as <-.
      * rewrite list_lookup_insert_eq in Hj by by eapply lookup_lt_Some. injection Hj as <-. by destruct E.
Qed.

Lemma inv_insert c last used ip ifindex now : lim_inv c last used -> (ip, ifindex) ∈ ks ->
  ((ip, ifindex) ∉ skey <$> used) -> let s' := mk_slot ip ifindex now in
  lim_inv (mk_cache (<[Z.to_nat (cache_idx c mod Z.of_nat PING_CACHE_SIZE) := s']> (slots c)) (u32 (cache_idx c + 1)))
    (set_last last (ip, ifindex) now) (used ++ [s']).
Proof.
  intros [Hs Hi Hn Hk Hl] Hin Hf s'. pose proof (used_room used _ Hn Hk Hin Hf) as Hroom. unfold PING_CACHE_SIZE in *.
  split; cbn [slots cache_idx]; rewrite ?length_app, ?fmap_app; cbn [length].
  - rewrite Hi, Z.mod_small, Nat2Z.id, Hs by lia. replace (length used) with (length used + 0)%nat at 1 by lia.
    rewrite insert_app_r, <- app_assoc. f_equal. replace (16 - length used)%nat with (S (16 - (length used + 1)))%nat by lia. done.
  - rewrite Hi. rewrite wrap_id by (unfold is_u; lia). lia.
  - apply NoDup_app. split_and!; [done| |apply NoDup_singleton]. intros x Hx ->%list_elem_of_singleton. done.
  - intros x [Hx|Hx]%elem_of_app; [by apply Hk|]. cbn in Hx. by apply list_elem_of_singleton in Hx as ->.
  - intros k t. unfold set_last. case_bool_decide as E.
    + subst k. split.
      * intros [= <-]. exists (length used), s'. split_and!; [by apply list_lookup_middle|done..].
      * intros (j&x&Hj&Hx&Ht). apply lookup_app_Some in Hj as [Hj|[_ Hj]].
        -- destruct Hf. apply list_elem_of_fmap. exists x. split; [done|]. by eapply list_elem_of_lookup_2.
        -- destruct (j - length used)%nat; [|done]. injection Hj as <-. by rewrite <- Ht.
    + rewrite Hl. split.
      * intros (j&x&Hj&Hx&Ht). exists j, x. split_and!; [by apply lookup_app_l_Some|done..].
      * intros (j&x&Hj&Hx&Ht). apply lookup_app_Some in Hj as [Hj|[_ Hj]]; [by exists j, x|].
        destruct (j - length used)%nat; [|done]. injection Hj as <-. by destruct E.
Qed.

Lemma limiter_agrees calls : forall c last used, lim_inv c last used ->
  (forall call, call ∈ calls -> call.1 ∈ ks) -> pings c calls = unbounded last calls.
Proof.
  induction calls as [|[[ip ifindex] now] calls IH]; intros c last used Hinv Hks; [done|]. cbn [pings unbounded].
  assert (Hin : (ip, ifindex) ∈ ks) by (apply (Hks (ip, ifindex, now)); left).
  assert (Hrest : forall call, call ∈ calls -> call.1 ∈ ks) by (intros call Hc; apply Hks; by right).
  pose proof (find_used c last used ip ifindex Hinv (ks_real _ Hin)) as Hf. unfold ping_allowed.
  destruct (find_slot (slots c) ip ifindex 0) as [[i s]|].
  - destruct Hf as (Hu&Hk&->). rewrite Z.ltb_antisym.
    destruct (PING_COOLDOWN_MS <=? u64 (now - last_ms s)); cbn [negb]; f_equal.
    + pose proof (inv_refresh c last used i s now Hinv Hu) as H. rewrite Hk in H. by eapply IH.
    + by eapply IH.
  - destruct Hf as [Hf ->]. f_equal. eapply IH; [|done]. by eapply inv_insert.
Qed.

Lemma zero_inv : lim_inv (zero_cache zero) (fun _ => None) [].
Proof. split; [done..|constructor|by intros x Hx%not_elem_of_nil|]. intros k t. split; [done|]. by intros (i&s&Hi&_). Qed.
End limited.

(** *** Theorems *)

(** C33: After any sequence of neighbour additions and deletions, some of which may
    fail, a lookup gives what the latest successful operation on that family,
    address and interface left; with no interface in the key it gives an entry
    of the address exactly when there is one, whatever its interface. *)
Theorem neighbor_lookup_exact ops key :
  let '(t, m) := nrun no_tables no_neighbours ops in neigh_answer m key (search_ndp_table t key).
Proof.
  pose proof (nrun_ok ops _ _ no_tables_ok) as Ht. destruct (nrun no_tables no_neighbours ops) as [t m].
  unfold neigh_answer, search_ndp_table, is_v6.
  destruct (Z.eqb_spec (nk_family key) AF_INET6) as [E|E]; rewrite ?orb_true_r, ?orb_false_r.
  - exact (search_entry t m key true Ht).
  - destruct (nk_family key =? 2); [|done]. exact (search_entry t m key false Ht).
Qed.

(** While at most 16 addresses and interfaces are probed, the 16 slots limit
    probes as a table with a slot for each would: a probe goes out exactly when
    none went out for that address and interface in the last second. *)
Theorem probe_limit_exact {K} `{EqDecision K} (zero : K) (ks : list (K * Z)) (calls : list (K * Z * Z)) :
  (length ks <= PING_CACHE_SIZE)%nat -> (forall k, k ∈ ks -> k.2 <> 0) -> (forall call, call ∈ calls -> call.1 ∈ ks) ->
  pings (zero_cache zero) calls = unbounded (fun _ => None) calls.
Proof. intros Hlen Hreal Hks. eapply limiter_agrees; [done|done|by apply zero_inv|done]. Qed.

Lemma probe_limit_exact_witness :
  pings (zero_cache 0) [(7, 2, 5000); (8, 2, 5100); (7, 2, 5999); (7, 2, 6000)] = [true; true; false; true].
Proof.
  rewrite (probe_limit_exact 0 [(7, 2); (8, 2)]); [done|unfold PING_CACHE_SIZE; cbn; lia|..].
  - intros k [->|[->|Hk%not_elem_of_nil]%elem_of_cons]%elem_of_cons; done.
  - intros k Hk. repeat (apply elem_of_cons in Hk as [->|Hk]; [cbn; repeat constructor|]). by apply not_elem_of_nil in Hk.
Defined.

(** With one address more, one that was refreshed loses its slot to the newcomer and
    may be probed again at once. *)
Theorem probe_limit_evicts :
  let keys := (fun i => (Z.of_nat i, 2, 5000)) <$> seq 1 16 in
  last (pings (zero_cache 0) (keys ++ [(1, 2, 6000); (17, 2, 6000); (1, 2, 6001)])) = Some true.
Proof. by vm_compute. Qed.
End Neigh.
