(* ===== verification/Net.v ===== *)
(** The network layer's state: packets with their reference counts over the memory
    of frame slots, and the queues of fragments to reassemble, with the monad the
    functions of ip.c, ip_frag.c, ipv6.c and ipv6_ext.c run in.  Failure of the
    monad is a fault: a freed packet or slot is used, a null pointer followed. *)

From stdpp Require Import prelude list gmap.
From Stdlib Require Import ZArith Lia.
From S2P Require Import Prelude Checksum Skbuff Trie Route Neigh.
Import Skb.

Module Net.

(** A packet object: [frag_list] is the list of fragments headed by the packet's
    own node, [element] the value in that node. *)
Record obj := mk_obj { skb : skbuff; ref : nat; frag_list : list nat; element : option nat }.

(** Identification, source, destination, protocol. *)
Definition ipq_key : Type := Z * Z * Z * Z.

Record ipq := mk_ipq {
  total_len : Z; received_len : Z; last_update_time : Z; last_recved : bool; first_recved : bool; frag_head : list nat
}.

(** Identification, source, destination. *)
Definition ipq6_key : Type := Z * list Z * list Z.

Record ipq6_frag := mk_frag6 { f_skb : nat; f_offset : Z; f_len : Z }.

Record ipq6 := mk_ipq6 {
  total_len6 : Z; received_len6 : Z; last_update_time6 : Z; unfrag_len : Z; previous_nh_offset : Z;
  q_next_header : Z; last_recved6 : bool; first_recved6 : bool; frag_head6 : list ipq6_frag
}.

(** What the layer hands to others: bytes to an interface, a packet to another
    worker, data to a transport protocol. *)
Inductive event :=
| Sent (interface : nat) (bytes : list Z)
| Moved (worker : Z) (id : nat)
| Up (protocol : Z) (bytes : list Z).

(** [ip_id] is the counter of identifications, [now] the time in milliseconds,
    [pings] when neighbours were last probed and [pinged] the probes started. *)
Record net := mk_net {
  smem : mem; objs : gmap nat obj; next_obj : nat; ipqs : gmap ipq_key ipq; ipq6s : gmap ipq6_key ipq6; now : Z;
  ip_id : Z; events : list event; pings : Neigh.probes; pinged : list (list Z * list Z)
}.

Definition set_mem (n : net) (m : mem) : net := mk_net m (objs n) (next_obj n) (ipqs n) (ipq6s n) (now n) (ip_id n) (events n) (pings n) (pinged n).
Definition set_objs (n : net) (o : gmap nat obj) : net := mk_net (smem n) o (next_obj n) (ipqs n) (ipq6s n) (now n) (ip_id n) (events n) (pings n) (pinged n).
Definition set_ipqs (n : net) (q : gmap ipq_key ipq) : net := mk_net (smem n) (objs n) (next_obj n) q (ipq6s n) (now n) (ip_id n) (events n) (pings n) (pinged n).
Definition set_ipq6s (n : net) (q : gmap ipq6_key ipq6) : net := mk_net (smem n) (objs n) (next_obj n) (ipqs n) q (now n) (ip_id n) (events n) (pings n) (pinged n).

Definition set_ip_id (n : net) (i : Z) : net := mk_net (smem n) (objs n) (next_obj n) (ipqs n) (ipq6s n) (now n) i (events n) (pings n) (pinged n).
Definition set_events (n : net) (l : list event) : net := mk_net (smem n) (objs n) (next_obj n) (ipqs n) (ipq6s n) (now n) (ip_id n) l (pings n) (pinged n).

Definition set_pings (n : net) (p : Neigh.probes) (l : list (list Z * list Z)) : net :=
  mk_net (smem n) (objs n) (next_obj n) (ipqs n) (ipq6s n) (now n) (ip_id n) (events n) p l.

Definition NM (A : Type) : Type := net -> option (A * net).
#[export] Instance NM_ret : MRet NM := fun A x n => Some (x, n).
#[export] Instance NM_bind : MBind NM := fun A B f x n =>
  match x n with Some (a, n) => f a n | None => None end.

Definition crash {A} : NM A := fun _ => None.
Definition gets {A} (f : net -> A) : NM A := fun n => Some (f n, n).
Definition modify (f : net -> net) : NM unit := fun n => Some (tt, f n).

Definition lift {A} (c : M A) : NM A := fun n =>
  match c (smem n) with Some (a, m) => Some (a, set_mem n m) | None => None end.

Definition get (id : nat) : NM obj := fun n =>
  match objs n !! id with Some o => Some (o, n) | None => None end.
Definition put (id : nat) (o : obj) : NM unit := modify (fun n => set_objs n (<[id := o]> (objs n))).
Definition set_skb (id : nat) (k : skbuff) : NM unit :=
  o ← get id; put id (mk_obj k (ref o) (frag_list o) (element o)).
Definition set_frags (id : nat) (l : list nat) : NM unit :=
  o ← get id; put id (mk_obj (skb o) (ref o) l (element o)).

(** A packet object just made, with one reference and cleared links. *)
Definition new_obj (k : skbuff) : NM nat := fun n =>
  let id := next_obj n in
  Some (id, mk_net (smem n) (<[id := mk_obj k 1 [] None]> (objs n)) (S id) (ipqs n) (ipq6s n) (now n) (ip_id n) (events n) (pings n) (pinged n)).

Definition inc_ref (id : nat) : NM unit :=
  o ← get id; put id (mk_obj (skb o) (S (ref o)) (frag_list o) (element o)).

(** The last reference frees the packet. *)
Definition put_ref (id : option nat) : NM unit :=
  match id with
  | None => mret tt
  | Some id =>
      o ← get id;
      match ref o with
      | S (S r) => put id (mk_obj (skb o) (S r) (frag_list o) (element o))
      | S O => lift (skb_destroy (skb o));; modify (fun n => set_objs n (delete id (objs n)))
      | O => crash
      end
  end.

(** *** Headers in memory *)

Definition fld8 (h : list Z) (i : nat) : Z := nth i h 0.
Definition fld16 (h : list Z) (i : nat) : Z := le16 (fld8 h i) (fld8 h (S i)).
Definition fld32 (h : list Z) (i : nat) : Z := fld16 h i + 65536 * fld16 h (S (S i)).

Definition set16 (h : list Z) (i : nat) (v : Z) : list Z := overwrite h i (le16_bytes v).

(** The first [len] bytes at a header pointer, and writing them back. *)
Definition load_hdr (p : option (nat * nat)) (len : nat) : NM (list Z) :=
  match p with Some (s, off) => lift (read (Some s) off len) | None => crash end.
Definition store_hdr (p : option (nat * nat)) (h : list Z) : NM unit :=
  match p with Some (s, off) => lift (write (Some s) off h) | None => crash end.

Definition skb_start (k : skbuff) : option (nat * nat) :=
  match slot (data0 k) with Some s => Some (s, start (data0 k)) | None => None end.

Definition set_l3 (k : skbuff) (p : option (nat * nat)) : skbuff :=
  mk_skb (meta k) (tx_checksum_offset k) (l2_hdr k) p (l4_hdr k) (flag k)
    (data_num k) (data_total_len k) (data0 k) (more k).

End Net.
