(* ===== verification/NetInv.v ===== *)
(** The network layer's state, lemmas: a predicate transformer for its monad, the
    headers at the start of a packet, and the fields of a header. *)

From stdpp Require Import prelude list gmap.
From Stdlib Require Import ZArith Lia.
From S2P Require Import Prelude Checksum Skbuff SkbuffMem SkbuffOps SkbuffSplit SkbuffFrame Net.
Import Skb Net.

(** *** The monad *)

Definition nruns {A} (c : NM A) (n : net) (Q : A -> net -> Prop) : Prop :=
  match c n with Some (a, n') => Q a n' | None => False end.

Lemma nruns_bind {A B} (c : NM A) (g : A -> NM B) n Q :
  nruns c n (fun a n' => nruns (g a) n' Q) -> nruns (mbind g c) n Q.
Proof. unfold nruns, mbind, NM_bind. by destruct (c n) as [[a n']|]. Qed.

Lemma nruns_ret {A} (a : A) n (Q : A -> net -> Prop) : Q a n -> nruns (mret a) n Q.
Proof. done. Qed.

Lemma nruns_mono {A} (c : NM A) n (P Q : A -> net -> Prop) :
  nruns c n P -> (forall a n', P a n' -> Q a n') -> nruns c n Q.
Proof. unfold nruns. destruct (c n) as [[a n']|]; [|done]. auto. Qed.

Lemma nruns_lift {A} (c : M A) n (Q : A -> net -> Prop) :
  runs c (smem n) (fun a m => Q a (set_mem n m)) -> nruns (lift c) n Q.
Proof. unfold runs, nruns, lift. by destruct (c (smem n)) as [[a m]|]. Qed.

Lemma nruns_get id o n (Q : obj -> net -> Prop) : objs n !! id = Some o -> Q o n -> nruns (get id) n Q.
Proof. intros H HQ. unfold nruns, get. by rewrite H. Qed.

Lemma nruns_set_skb id o k n (Q : unit -> net -> Prop) : objs n !! id = Some o ->
  Q tt (set_objs n (<[id := mk_obj k (ref o) (frag_list o) (element o)]> (objs n))) -> nruns (set_skb id k) n Q.
Proof. intros H HQ. apply nruns_bind. eapply nruns_get; done. Qed.

Lemma nruns_set_frags id o l n (Q : unit -> net -> Prop) : objs n !! id = Some o ->
  Q tt (set_objs n (<[id := mk_obj (skb o) (ref o) l (element o)]> (objs n))) -> nruns (set_frags id l) n Q.
Proof. intros H HQ. apply nruns_bind. eapply nruns_get; done. Qed.

Lemma nruns_inc_ref id o n (Q : unit -> net -> Prop) : objs n !! id = Some o ->
  Q tt (set_objs n (<[id := mk_obj (skb o) (S (ref o)) (frag_list o) (element o)]> (objs n))) -> nruns (inc_ref id) n Q.
Proof. intros H HQ. apply nruns_bind. eapply nruns_get; done. Qed.

(** One reference of several goes. *)
Lemma nruns_put_ref_many id o r n (Q : unit -> net -> Prop) : objs n !! id = Some o -> ref o = S (S r) ->
  Q tt (set_objs n (<[id := mk_obj (skb o) (S r) (frag_list o) (element o)]> (objs n))) -> nruns (put_ref (Some id)) n Q.
Proof. intros H Hr HQ. apply nruns_bind. eapply nruns_get; [done|]. by rewrite Hr. Qed.

(** The last one frees the packet's slots. *)
Lemma nruns_put_ref_last id o l f n (Q : unit -> net -> Prop) : objs n !! id = Some o -> ref o = 1%nat ->
  own (smem n) (chain (skb o) ++ l) f ->
  (forall m, own m l f -> kept nowhere (smem n) m -> allocs m = allocs (smem n) -> Q tt (set_objs (set_mem n m) (delete id (objs n)))) ->
  nruns (put_ref (Some id)) n Q.
Proof.
  intros H Hr Ho HQ. apply nruns_bind. eapply nruns_get; [done|]. rewrite Hr. apply nruns_bind, nruns_lift.
  pose proof (skb_destroy_spec (smem n) (skb o) l f Ho) as Hd. unfold runs in *.
  destruct (skb_destroy (skb o) (smem n)) as [[[] m]|] eqn:E; [|done]. destruct Hd as [Hm Hk]. apply HQ; [done|done|by eapply skb_destroy_allocs].
Qed.

(** *** Headers at the start of a packet *)

Lemma load_start n k len (Q : list Z -> net -> Prop) : inside (smem n) (data0 k) -> (len <= skb_data0_len k)%nat ->
  Q (take len (content (smem n) (chain k))) n -> nruns (load_hdr (skb_start k) len) n Q.
Proof.
  intros Hd Hlen HQ. pose proof Hd as (s&fs&Hs&_). unfold skb_start. rewrite Hs. apply nruns_lift. unfold runs.
  pose proof (read_di (smem n) (data0 k) 0 len Hd Hlen) as Hr. rewrite Nat.add_0_r, drop_0, Hs in Hr. rewrite Hr.
  pose proof (inside_length _ _ Hd). unfold chain in HQ. rewrite content_cons, take_app_le in HQ by (unfold skb_data0_len in Hlen; lia).
  by destruct n.
Qed.

Lemma store_start n k o f h (Q : unit -> net -> Prop) : own (smem n) (chain k ++ o) f -> live (smem n) (chain k ++ o) ->
  chain_ok (smem n) k -> alive k -> (length h <= skb_data0_len k)%nat ->
  (forall m, apart (smem n) o f k (h ++ drop (length h) (content (smem n) (chain k))) m -> Q tt (set_mem n m)) ->
  nruns (store_hdr (skb_start k) h) n Q.
Proof.
  intros Ho Hl Hc Ha Hlen HQ. destruct (alive_chain _ k Hc Ha) as (Hlk&Hnum&Hmax). pose proof (Forall_inv (proj1 Hlk)) as Hd.
  pose proof Hd as (s&fs&Hs&_&Hse&_). pose proof (inside_length _ _ Hd) as Hdl. unfold skb_start. rewrite Hs. apply nruns_lift. rewrite <- Hs.
  eapply runs_mono; [apply (write_di (smem n) (beside o f) [] (data0 k) (more k)); [exact (proj1 (own_beside _ _ _ _) Ho)|done|lia|unfold skb_data0_len, di_len in Hlen; lia]|].
  intros [] m (Ho1&Hl1&(s'&Hs'&Hk1)&Hc1). apply HQ. cbn [app] in *. fold (chain k) in *.
  eapply (apart_intro (range s' (start (data0 k)) (length h))); [done|done|done| | |apply sub_slots_refl].
  - split; [done|done| |].
    + destruct Hc as [Ht _]. split; [done|]. left. by split_and!.
    + change (content (smem n) []) with (@nil Z) in Hc1. rewrite Nat.sub_diag in Hc1. cbn [app] in Hc1. rewrite Hc1.
      unfold overwrite, chain. rewrite take_0, content_cons. cbn [app Nat.add]. rewrite <- app_assoc. f_equal.
      unfold skb_data0_len in Hlen. rewrite drop_app_le by lia. done.
  - intros s0 i _ [-> _]. rewrite <- Hs'. by left.
Qed.

(** *** Packets made on the way *)

(** A packet with one reference. *)
Definition single (k : skbuff) : obj := mk_obj k 1 [] None.

(** The objects of [n]: those of [g], all below [N], except that [id] is [ho], and
    besides them the packets [l]. *)
Record made (N : nat) (g : gmap nat obj) (id : nat) (n : net) (ho : obj) (l : list (nat * skbuff)) : Prop := {
  md_head : objs n !! id = Some ho;
  md_objs i k : (i, k) ∈ l -> objs n !! i = Some (single k);
  md_rest i : i <> id -> i ∉ l.*1 -> objs n !! i = g !! i;
  md_new i : i ∈ l.*1 -> (N <= i < next_obj n)%nat;
  md_nodup : NoDup l.*1;
  md_id : (id < N)%nat;
  md_next : (N <= next_obj n)%nat;
  md_old i : (N <= i)%nat -> g !! i = None
}.

Lemma made_perm N g id n ho l l' : l ≡ₚ l' -> made N g id n ho l -> made N g id n ho l'.
Proof.
  intros Hp [H1 H2 H3 H4 H5 H6 H7 H8]. split; try done.
  - intros i k Hi. apply H2. by rewrite Hp.
  - intros i Hi. rewrite <- Hp. auto.
  - intros i. rewrite <- Hp. auto.
  - by rewrite <- Hp.
Qed.

(** Memory does not matter. *)
Lemma made_mem N g id n ho l m : made N g id n ho l -> made N g id (set_mem n m) ho l.
Proof. intros [H1 H2 H3 H4 H5 H6 H7 H8]. by split. Qed.

Lemma made_in N g id n ho l i : made N g id n ho l -> i ∈ l.*1 -> i <> id.
Proof. intros H Hi ->. destruct (md_new _ _ _ _ _ _ H id Hi). pose proof (md_id _ _ _ _ _ _ H). lia. Qed.

Lemma made_head N g id n ho ho' l : made N g id n ho l -> made N g id (set_objs n (<[id := ho']> (objs n))) ho' l.
Proof.
  intros H. pose proof H as [H1 H2 H3 H4 H5 H6 H7 H8]. split; try done; cbn.
  - apply lookup_insert_eq.
  - intros i k Hi. rewrite lookup_insert_ne; [auto|]. intros <-. eapply made_in; [done| |done]. by apply (list_elem_of_fmap_2 fst _ (id, k)).
  - intros i Hi Hl. rewrite lookup_insert_ne by done. auto.
Qed.

Lemma made_set N g id n ho i k k' l : made N g id n ho ((i, k) :: l) ->
  made N g id (set_objs n (<[i := single k']> (objs n))) ho ((i, k') :: l).
Proof.
  intros H. assert (Hid : i <> id) by (eapply made_in; [done|left]). destruct H as [H1 H2 H3 H4 H5 H6 H7 H8]. cbn in H5.
  apply NoDup_cons in H5 as [Hni Hnd]. split; try done; cbn.
  - by rewrite lookup_insert_ne.
  - intros j kj [[= -> ->]|Hj]%elem_of_cons; [apply lookup_insert_eq|]. rewrite lookup_insert_ne; [apply H2; by right|].
    intros <-. apply Hni. by apply (list_elem_of_fmap_2 fst _ (i, kj)).
  - intros j Hj Hl. rewrite lookup_insert_ne; [auto|]. intros <-. apply Hl. left.
  - by apply NoDup_cons.
Qed.

Lemma made_add N g id n ho k l : made N g id n ho l ->
  nruns (new_obj k) n (fun i n' => smem n' = smem n /\ made N g id n' ho ((i, k) :: l)).
Proof.
  intros H. pose proof H as [H1 H2 H3 H4 H5 H6 H7 H8]. unfold nruns, new_obj. cbn. split; [done|].
  assert (Hni : next_obj n ∉ l.*1) by (intros Hi; specialize (H4 _ Hi); lia). split; cbn; try done.
  - rewrite lookup_insert_ne by lia. done.
  - intros j kj [[= -> ->]|Hj]%elem_of_cons; [apply lookup_insert_eq|]. rewrite lookup_insert_ne; [auto|].
    intros <-. apply Hni. by apply (list_elem_of_fmap_2 fst _ (next_obj n, kj)).
  - intros j Hj Hl. apply not_elem_of_cons in Hl as [Hne Hl]. rewrite lookup_insert_ne by done. auto.
  - intros j [->|Hj]%elem_of_cons; [lia|]. specialize (H4 j Hj). lia.
  - by apply NoDup_cons.
  - lia.
Qed.

Lemma made_free N g id n ho i k l o f : made N g id n ho ((i, k) :: l) -> own (smem n) (chain k ++ o) f ->
  nruns (put_ref (Some i)) n (fun _ n' => made N g id n' ho l /\ own (smem n') o f /\ kept nowhere (smem n) (smem n')).
Proof.
  intros H Ho. assert (Hid : i <> id) by (eapply made_in; [done|left]). pose proof H as [H1 H2 H3 H4 H5 H6 H7 H8].
  eapply nruns_put_ref_last; [apply H2; left|done|exact Ho|]. intros m Hm Hk _. split; [|done]. cbn in H5. apply NoDup_cons in H5 as [Hni Hnd].
  split; cbn; try done.
  - by rewrite lookup_delete_ne.
  - intros j kj Hj. rewrite lookup_delete_ne; [apply H2; by right|]. intros <-. apply Hni. by apply (list_elem_of_fmap_2 fst _ (i, kj)).
  - intros j Hj Hl. destruct (decide (j = i)) as [->|Hne].
    + rewrite lookup_delete_eq. symmetry. apply H8. destruct (H4 i); [left|done].
    + rewrite lookup_delete_ne by done. apply H3; [done|]. by apply not_elem_of_cons.
  - intros j Hj. apply H4. by right.
Qed.
