(* ===== verification/IpFrag.v ===== *)
(** Fragmentation and reassembly of IPv4 packets (src/main/ip_frag.c, the header
    macros of src/main/ip.h).  Headers are read and written in the memory of the
    packet's slots, at the packet's header pointer.

    The hash table of queues is a map (HashTable.v shows that it is one), the list
    of fragments a sequence (LinkedList.v).  The MTU of the packet's route is an
    argument. *)

From stdpp Require Import prelude list gmap.
From Stdlib Require Import ZArith Lia.
From S2P Require Import Prelude Checksum Skbuff Net.
Import Skb Net.

Module IpFrag.

Definition IPV4_VHL_VERSION (vhl : Z) : Z := Z.land (Z.shiftr vhl 4) 0x0F.
Definition IPV4_VHL_IHL (vhl : Z) : Z := Z.land vhl 0x0F.
Definition IPV4_MAKE_VHL (ver ihl : Z) : Z := u8 (Z.lor (Z.shiftl (Z.land ver 0x0F) 4) (Z.land ihl 0x0F)).

Definition IPV4_FRAG_OFF_MASK : Z := 0x1FFF.
Definition IPV4_FRAG_DF : Z := 0x4000.
Definition IPV4_FRAG_MF : Z := 0x2000.

Definition IPQ_TIMER_INTERVAL : Z := 1000.
Definition IPQ_TIMEOUT : Z := 5000.

(** *** Fields of a header [h] *)

Definition ip_hdr_len (h : list Z) : Z := IPV4_VHL_IHL (fld8 h 0) * 4.
Definition ip_tot_len (h : list Z) : Z := ntohs (fld16 h 2).

Definition ipv4_frag_field_get_host (h : list Z) : Z := ntohs (fld16 h 6).
Definition ipv4_get_flag_df (h : list Z) : bool := negb (Z.land (ipv4_frag_field_get_host h) IPV4_FRAG_DF =? 0).
Definition ipv4_get_flag_mf (h : list Z) : bool := negb (Z.land (ipv4_frag_field_get_host h) IPV4_FRAG_MF =? 0).
Definition ipv4_get_frag_offset (h : list Z) : Z := Z.land (ipv4_frag_field_get_host h) IPV4_FRAG_OFF_MASK.

Definition ipv4_is_frag (h : list Z) : bool :=
  let f := ipv4_frag_field_get_host h in
  negb (Z.land f 0x1FFF =? 0) || negb (Z.land f 0x2000 =? 0).

(** The header with its fragment field and total length set, and its checksum
    computed again. *)
Definition rewrite_header (h : list Z) (field tot_len : Z) : option (list Z) :=
  let h := set16 h 6 field in
  let h := set16 h 2 tot_len in
  let h := set16 h 10 0 in
  match checksum h 0 with Some c => Some (set16 h 10 c) | None => None end.

Definition must {A} (o : option A) : NM A := match o with Some a => mret a | None => crash end.

(** *** Queues *)

Definition update_ipq_timer (q : ipq) (now : Z) : ipq :=
  mk_ipq (total_len q) (received_len q) (u32 now) (last_recved q) (first_recved q) (frag_head q).

Definition search_ipq (key : ipq_key) : NM (option ipq) := gets (fun n => ipqs n !! key).

Definition set_ipq (key : ipq_key) (q : ipq) : NM unit := modify (fun n => set_ipqs n (<[key := q]> (ipqs n))).

Definition create_ipq (key : ipq_key) : NM (option ipq) :=
  ok ← lift try_alloc;
  if negb ok then mret None
  else
    t ← gets now;
    let q := update_ipq_timer (mk_ipq 0 0 0 false false []) t in
    q0 ← search_ipq key;
    match q0 with
    | Some _ => mret None
    | None => set_ipq key q;; mret (Some q)
    end.

(** The loop of [destroy_ipq] releases what the list nodes carry. *)
Fixpoint release_nodes (l : list nat) : NM unit :=
  match l with
  | [] => mret tt
  | id :: l => o ← get id; put_ref (element o);; release_nodes l
  end.

Definition destroy_ipq (key : ipq_key) : NM unit :=
  q ← search_ipq key;
  match q with
  | None => crash
  | Some q => modify (fun n => set_ipqs n (delete key (ipqs n)));; release_nodes (frag_head q)
  end.

Fixpoint expire_ipqs (l : list (ipq_key * ipq)) : NM unit :=
  match l with
  | [] => mret tt
  | (key, q) :: l =>
      t ← gets now;
      (if IPQ_TIMEOUT <? u32 (t - last_update_time q) then destroy_ipq key else mret tt);; expire_ipqs l
  end.

(** The next time the timer runs is the answer. *)
Definition ipq_timer : NM Z :=
  l ← gets (fun n => map_to_list (ipqs n));
  expire_ipqs l;;
  t ← gets now;
  mret (t + IPQ_TIMER_INTERVAL).

(** *** Reassembly *)

Definition ipv4_hdr_of (id : nat) : NM (list Z) := o ← get id; load_hdr (l3_hdr (skb o)) 20.

Definition skb_offset_cmp (a b : list Z) : Z :=
  let a_offset := ipv4_get_frag_offset a in
  let b_offset := ipv4_get_frag_offset b in
  if a_offset <? b_offset then -1 else if b_offset <? a_offset then 1 else 0.

(** [add_list_node_compare] with [skb_offset_cmp]; no list when it answers -1. *)
Fixpoint insert_frag (add : nat) (l : list nat) : NM (option (list nat)) :=
  match l with
  | [] => mret (Some [add])
  | curr :: rest =>
      a ← ipv4_hdr_of curr;
      b ← ipv4_hdr_of add;
      let c := skb_offset_cmp a b in
      if 0 <? c then mret (Some (add :: l))
      else if c <? 0 then
        r ← insert_frag add rest;
        mret (match r with Some rest => Some (curr :: rest) | None => None end)
      else mret None
  end.

(** The descriptors of a fragment copied to the end of the packet; false when a
    descriptor cannot be allocated. *)
Fixpoint copy_descriptors (re : nat) (l : list data_info) : NM bool :=
  match l with
  | [] => mret true
  | d :: l =>
      ok ← lift try_alloc;
      if negb ok then mret false
      else
        lift (INC_REF (slot d));;
        o ← get re;
        let k := skb o in
        set_skb re (with_data k (data_num k + 1) (data_total_len k) (data0 k) (more k ++ [d]));;
        copy_descriptors re l
  end.

(** Give up: the fragment at hand, the packet so far and the queue go. *)
Definition drop_all (key : ipq_key) (frag re : nat) : NM (option (option nat)) :=
  put_ref (Some frag);; put_ref (Some re);; destroy_ipq key;; mret None.

(** The rest of the queue after [frag] has been taken off. *)
Definition set_rest (key : ipq_key) (l : list nat) : NM unit :=
  q ← search_ipq key;
  match q with
  | None => crash
  | Some q => set_ipq key (mk_ipq (total_len q) (received_len q) (last_update_time q) (last_recved q) (first_recved q) l)
  end.

(** The loop that joins the fragments; no result when the function has returned. *)
Fixpoint join_frags (key : ipq_key) (l : list nat) (re : option nat) (expect : Z) : NM (option (option nat)) :=
  match l with
  | [] => mret (Some re)
  | frag :: l =>
      set_rest key l;;
      h ← ipv4_hdr_of frag;
      match re with
      | None => join_frags key l (Some frag) (u32 (ip_tot_len h - ip_hdr_len h) / 8)
      | Some r =>
          if negb (ipv4_get_frag_offset h =? expect) then drop_all key frag r
          else
            let iphdr_len := ip_hdr_len h in
            let frag_payload_len := u32 (ip_tot_len h - iphdr_len) in
            o ← get frag;
            '(_, k) ← lift (skb_consume (skb o) (Z.to_nat iphdr_len) true);
            set_skb frag k;;
            ro ← get r;
            if (SKB_DATA_MAX_NUM <? data_num (skb ro) + data_num k)%nat then drop_all key frag r
            else
              ok ← copy_descriptors r (chain k);
              if negb ok then drop_all key frag r
              else
                ro ← get r;
                set_skb r (set_total (skb ro) (data_total_len (skb ro) + Z.to_nat frag_payload_len));;
                put_ref (Some frag);;
                join_frags key l (Some r) (u32 (expect + frag_payload_len / 8))
      end
  end.

Definition as_defrag (k : skbuff) (proto : Z) : skbuff :=
  let t := meta k in let g := flag k in
  mk_skb (mk_meta (family t) proto (sock t) (tcp_seq t) (tcp_flag t) (recv_if t) (route t))
    (tx_checksum_offset k) (l2_hdr k) (l3_hdr k) (l4_hdr k)
    (mk_flag (is_clone g) (is_copy g) (is_frag g) true (is_forward g) (is_hw_rcv_checksum g))
    (data_num k) (data_total_len k) (data0 k) (more k).

(** The header of the whole packet. *)
Definition finish_defrag (key : ipq_key) (r : nat) : NM (option nat) :=
  o ← get r;
  let k := skb o in
  h ← load_hdr (l3_hdr k) 20;
  h ← load_hdr (l3_hdr k) (Z.to_nat (ip_hdr_len h));
  h ← must (rewrite_header h 0 (htons (u16 (Z.of_nat (data_total_len k)))));
  store_hdr (l3_hdr k) h;;
  set_skb r (as_defrag k (fld8 h 9));;
  destroy_ipq key;;
  mret (Some r).

(** Is the packet complete?  If so, join the fragments. *)
Definition complete_ipq (key : ipq_key) (q : ipq) : NM (option nat) :=
  if negb (first_recved q && last_recved q && (total_len q <=? received_len q)) then mret None
  else if negb (received_len q =? total_len q) then destroy_ipq key;; mret None
  else
    r ← join_frags key (frag_head q) None 0;
    match r with
    | None => mret None
    | Some None => destroy_ipq key;; mret None
    | Some (Some r) => finish_defrag key r
    end.

Definition ipv4_defrag (id : nat) : NM (option nat) :=
  h ← ipv4_hdr_of id;
  let key := (ntohs (fld16 h 4), fld32 h 12, fld32 h 16, fld8 h 9) in
  let ipv4_hdr_len := ip_hdr_len h in
  let payload_len := u32 (ip_tot_len h - ipv4_hdr_len) in
  let offset_bytes := ipv4_get_frag_offset h * 8 in
  if (ipv4_get_flag_mf h && negb (Z.land payload_len 7 =? 0)) || ipv4_get_flag_df h then mret None
  else
    q ← search_ipq key;
    q ← match q with Some q => mret (Some q) | None => create_ipq key end;
    match q with
    | None => mret None
    | Some q =>
        inc_ref id;;
        l ← insert_frag id (frag_head q);
        match l with
        | None => put_ref (Some id);; mret None
        | Some l =>
            let total := if ipv4_get_flag_mf h then total_len q else u32 (offset_bytes + payload_len) in
            let last := if ipv4_get_flag_mf h then last_recved q else true in
            let first := if ipv4_get_frag_offset h =? 0 then true else first_recved q in
            let received := u32 (received_len q + payload_len) in
            let q := mk_ipq total received (last_update_time q) last first l in
            set_ipq key q;;
            complete_ipq key q
        end
    end.

(** *** Fragmentation *)

(** [goto fail]: the fragment at hand and those made so far go. *)
Fixpoint free_frags (l : list nat) : NM unit :=
  match l with [] => mret tt | id :: l => put_ref (Some id);; free_frags l end.

Definition frag_fail (id : nat) (cur : nat) : NM bool :=
  put_ref (Some cur);;
  o ← get id;
  set_frags id [];;
  free_frags (frag_list o);;
  mret false.

(** The loop that makes the fragments after the first. *)
Fixpoint frag_loop (fuel : nat) (id : nat) (header : list Z) (frag_payload base_offset : Z) (original_more : bool)
    (cur : option nat) (offset : Z) : NM bool :=
  match cur, fuel with
  | None, _ => mret true
  | Some _, O => crash
  | Some cur, S fuel =>
      o ← get cur;
      let payload_len := Z.of_nat (data_total_len (skb o)) in
      split ← (if frag_payload <? payload_len then
                 '(r, k) ← lift (skb_split (skb o) (Z.to_nat frag_payload));
                 match r with
                 | None => mret None
                 | Some tail => set_skb cur k;; next ← new_obj tail; mret (Some (Some next, frag_payload))
                 end
               else mret (Some (None, payload_len)));
      match split with
      | None => frag_fail id cur
      | Some (next, payload_len) =>
          let field := u16 (u32 (base_offset + offset) / 8) in
          let field := if (match next with Some _ => true | None => false end) || original_more
                       then Z.lor field IPV4_FRAG_MF else field in
          h ← must (rewrite_header header (htons field) (htons (u16 (Z.of_nat (length header) + payload_len))));
          o ← get cur;
          '(ok, k) ← lift (push_header (skb o) h);
          if negb ok then put_ref next;; frag_fail id cur
          else
            set_skb cur (set_l3 k (skb_start k));;
            o ← get id;
            set_frags id (frag_list o ++ [cur]);;
            frag_loop fuel id header frag_payload base_offset original_more next (u32 (offset + payload_len))
      end
  end.

(** Fragments carry no request for checksum offload. *)
Definition clear_l4 (k : skbuff) : skbuff :=
  mk_skb (meta k) 0 (l2_hdr k) (l3_hdr k) None (flag k) (data_num k) (data_total_len k) (data0 k) (more k).

Definition ipv4_frag (mtu : Z) (id : nat) : NM bool :=
  h ← ipv4_hdr_of id;
  let ipv4_hdr_len := ip_hdr_len h in
  let tot_len := ip_tot_len h in
  let original_field := ipv4_frag_field_get_host h in
  if tot_len <=? mtu then mret true
  else if ipv4_get_flag_df h then mret false
  else
    let mtu_payload := u32 (mtu - ipv4_hdr_len) in
    let frag_payload := Z.land mtu_payload (u32 (Z.lnot 7)) in
    o ← get id;
    header ← load_hdr (l3_hdr (skb o)) (Z.to_nat ipv4_hdr_len);
    let base_offset := Z.land original_field IPV4_FRAG_OFF_MASK * 8 in
    let original_more := negb (Z.land original_field IPV4_FRAG_MF =? 0) in
    '(r, k) ← lift (skb_split (skb o) (Z.to_nat (u32 (ipv4_hdr_len + frag_payload))));
    match r with
    | None => mret false
    | Some tail =>
        set_skb id k;;
        cur ← new_obj tail;
        h ← load_hdr (l3_hdr k) (Z.to_nat ipv4_hdr_len);
        h ← must (rewrite_header h (htons (u16 (Z.lor (base_offset / 8) IPV4_FRAG_MF)))
                           (htons (u16 (Z.of_nat (data_total_len k)))));
        store_hdr (l3_hdr k) h;;
        ok ← frag_loop (S (data_total_len tail)) id header frag_payload base_offset original_more (Some cur) frag_payload;
        if ok : bool then
          o ← get id;
          set_skb id (clear_l4 (skb o));;
          mret true
        else mret false
    end.

End IpFrag.
