(* ===== verification/IpFragHdr.v ===== *)
(** IPv4 fragments as strings of bytes: the fields of a rewritten header, and the
    fragments a packet is cut into. *)

From stdpp Require Import prelude list gmap.
From Stdlib Require Import ZArith Lia.
From S2P Require Import Prelude Checksum Skbuff SkbuffMem SkbuffOps SkbuffSplit Net NetInv IpFrag.
Import Skb Net IpFrag.

(** *** Fields *)

Lemma fld8_set16 h i v j : (i + 2 <= length h)%nat ->
  fld8 (set16 h i v) j = if (j =? i)%nat then v mod 256 else if (j =? S i)%nat then (v / 256) mod 256 else fld8 h j.
Proof.
  intros Hi. unfold fld8, set16. rewrite !nth_lookup. destruct (decide (i <= j < i + 2)%nat) as [Hj|Hj].
  - rewrite lookup_overwrite_in by (cbn; lia). destruct (Nat.eqb_spec j i) as [->|]; [by rewrite Nat.sub_diag|].
    destruct (Nat.eqb_spec j (S i)) as [->|]; [|lia]. by replace (S i - i)%nat with 1%nat by lia.
  - rewrite lookup_overwrite by (cbn; lia). by rewrite (proj2 (Nat.eqb_neq j i)), (proj2 (Nat.eqb_neq j (S i))) by lia.
Qed.

Lemma length_set16 h i v : (i + 2 <= length h)%nat -> length (set16 h i v) = length h.
Proof. intros. unfold set16. apply length_overwrite. cbn. lia. Qed.

(** Lengths of headers with fields set. *)
Ltac hlen := first [done | lia | rewrite length_set16 by hlen; hlen].

Lemma fld16_set16 h i v : (i + 2 <= length h)%nat -> is_u16 v -> fld16 (set16 h i v) i = v.
Proof.
  intros Hi Hv. unfold fld16. rewrite !fld8_set16, Nat.eqb_refl by done. rewrite (proj2 (Nat.eqb_neq (S i) i)), Nat.eqb_refl by lia.
  by apply le16_le16_bytes.
Qed.

Lemma set16_ext h h' : length h = length h' -> (forall j, fld8 h j = fld8 h' j) -> h = h'.
Proof.
  intros Hl H. apply list_eq. intros j. destruct (decide (j < length h)%nat) as [Hj|Hj].
  - specialize (H j). unfold fld8 in H. rewrite !nth_lookup in H.
    destruct (lookup_lt_is_Some_2 h j Hj) as [x Hx]. destruct (lookup_lt_is_Some_2 h' j ltac:(lia)) as [y Hy].
    rewrite Hx, Hy in *. cbn in H. by subst.
  - by rewrite !lookup_ge_None_2 by lia.
Qed.

Lemma fld8_byte h j : is_bytes h -> is_byte (fld8 h j).
Proof.
  intros Hb. unfold fld8. rewrite nth_lookup. destruct (h !! j) eqn:E; cbn; [by eapply Forall_lookup_1|unfold is_byte; lia].
Qed.

Lemma fld16_u16 h j : is_bytes h -> is_u16 (fld16 h j).
Proof. intros Hb. apply le16_range; by apply fld8_byte. Qed.

(** Writing a 16-bit field with the value it has. *)
Lemma set16_same h i : is_bytes h -> (i + 2 <= length h)%nat -> set16 h i (fld16 h i) = h.
Proof.
  intros Hb Hi. apply set16_ext; [by apply length_set16|]. intros j. rewrite fld8_set16 by done. unfold fld16, le16.
  pose proof (fld8_byte h i Hb). pose proof (fld8_byte h (S i) Hb). unfold is_byte in *.
  destruct (Nat.eqb_spec j i) as [->|]; [zlia|]. destruct (Nat.eqb_spec j (S i)) as [->|]; [zlia|done].
Qed.

Lemma set16_set16 h i v w : (i + 2 <= length h)%nat -> set16 (set16 h i v) i w = set16 h i w.
Proof.
  intros Hi. apply set16_ext; [by rewrite !length_set16 by hlen|]. intros j.
  rewrite !fld8_set16 by hlen. by destruct (j =? i)%nat, (j =? S i)%nat.
Qed.

Lemma set16_comm h i j v w : (i + 2 <= length h)%nat -> (j + 2 <= length h)%nat -> (i + 2 <= j \/ j + 2 <= i)%nat ->
  set16 (set16 h i v) j w = set16 (set16 h j w) i v.
Proof.
  intros Hi Hj Hd. apply set16_ext; [by rewrite !length_set16 by hlen|]. intros x.
  rewrite !fld8_set16 by hlen.
  destruct (Nat.eqb_spec x i), (Nat.eqb_spec x (S i)), (Nat.eqb_spec x j), (Nat.eqb_spec x (S j)); try done; lia.
Qed.

Lemma set16_bytes h i v : is_bytes h -> is_bytes (set16 h i v).
Proof.
  intros Hb. unfold set16, overwrite. apply Forall_app. split; [by apply Forall_take|]. apply Forall_app.
  split; [apply le16_bytes_bytes|by apply Forall_drop].
Qed.

(** *** Rewriting *)

Lemma checksum_u16 h : exists c, checksum h 0 = Some c /\ is_u16 c.
Proof.
  unfold checksum. rewrite checksum_partial_sum, checksum_fold_total by (unfold is_u; lia || apply wrap_range; lia).
  eexists. split; [done|]. apply wrap_range. lia.
Qed.

Definition cleared (h : list Z) (field tot : Z) : list Z := set16 (set16 (set16 h 6 field) 2 tot) 10 0.

Lemma rewrite_header_eq h field tot : exists c, is_u16 c /\
  rewrite_header h field tot = Some (set16 (cleared h field tot) 10 c) /\ checksum (cleared h field tot) 0 = Some c.
Proof.
  unfold rewrite_header. destruct (checksum_u16 (cleared h field tot)) as (c&Hc&Hu). exists c.
  split; [done|]. split; [|done]. unfold cleared in *. by rewrite Hc.
Qed.

Definition rewritten (h : list Z) (field tot : Z) : list Z := default h (rewrite_header h field tot).

Lemma rewrite_header_some h field tot : rewrite_header h field tot = Some (rewritten h field tot).
Proof. unfold rewritten. by destruct (rewrite_header_eq h field tot) as (c&_&->&_). Qed.

Section rewritten.
Context (h : list Z) (field tot : Z).
Hypothesis (Hlen : (20 <= length h)%nat).

Lemma length_rewritten : length (rewritten h field tot) = length h.
Proof.
  unfold rewritten. destruct (rewrite_header_eq h field tot) as (c&_&->&_). cbn [default from_option id].
  unfold cleared. by rewrite !length_set16 by hlen.
Qed.

(** What the rewriting leaves. *)
Lemma rewritten_fld8 j : j ∉ [2; 3; 6; 7; 10; 11]%nat -> fld8 (rewritten h field tot) j = fld8 h j.
Proof.
  intros Hj. unfold rewritten. destruct (rewrite_header_eq h field tot) as (c&_&->&_). cbn [default from_option id]. unfold cleared.
  rewrite !fld8_set16 by hlen. rewrite !not_elem_of_cons in Hj.
  by rewrite !(proj2 (Nat.eqb_neq _ _)) by lia.
Qed.

Lemma rewritten_fields : is_u16 field -> is_u16 tot ->
  fld16 (rewritten h field tot) 6 = field /\ fld16 (rewritten h field tot) 2 = tot.
Proof.
  intros Hf Ht. unfold rewritten. destruct (rewrite_header_eq h field tot) as (c&_&->&_). cbn [default from_option id]. unfold cleared.
  unfold fld16. rewrite !fld8_set16 by hlen. cbn [Nat.eqb]. by rewrite !le16_le16_bytes.
Qed.

(** A header rewritten twice is as if only the second had been done. *)
Lemma rewritten_twice field' tot' : rewritten (rewritten h field tot) field' tot' = rewritten h field' tot'.
Proof.
  assert (Hc : cleared (rewritten h field tot) field' tot' = cleared h field' tot').
  { unfold rewritten at 1. destruct (rewrite_header_eq h field tot) as (c&_&->&_). cbn [default from_option id]. unfold cleared.
    apply set16_ext; [by rewrite !length_set16 by hlen|]. intros j.
    rewrite !fld8_set16 by hlen.
    destruct (Nat.eqb_spec j 10), (Nat.eqb_spec j 11), (Nat.eqb_spec j 2), (Nat.eqb_spec j 3), (Nat.eqb_spec j 6), (Nat.eqb_spec j 7); done. }
  pose proof (rewrite_header_some (rewritten h field tot) field' tot') as A. pose proof (rewrite_header_some h field' tot') as B.
  destruct (rewrite_header_eq (rewritten h field tot) field' tot') as (c&_&E&Ec). destruct (rewrite_header_eq h field' tot') as (c'&_&E'&Ec').
  rewrite Hc in *. congruence.
Qed.

Lemma rewritten_bytes : is_bytes h -> is_bytes (rewritten h field tot).
Proof.
  intros Hb. unfold rewritten. destruct (rewrite_header_eq h field tot) as (c&_&->&_). cbn [default from_option id].
  unfold cleared. by repeat apply set16_bytes.
Qed.
End rewritten.

(** A header that has its checksum is not changed by rewriting its own fields. *)
Definition checksummed (h : list Z) : Prop := checksum (set16 h 10 0) 0 = Some (fld16 h 10).

Lemma rewritten_same h : (20 <= length h)%nat -> is_bytes h -> checksummed h -> rewritten h (fld16 h 6) (fld16 h 2) = h.
Proof.
  intros Hl Hb Hc. unfold rewritten. destruct (rewrite_header_eq h (fld16 h 6) (fld16 h 2)) as (c&_&->&E). cbn [default from_option id].
  unfold cleared in *. rewrite (set16_same h 6), (set16_same h 2) in * by (done || lia). rewrite Hc in E. injection E as <-.
  rewrite set16_set16 by lia. apply set16_same; [done|lia].
Qed.

(** *** Fragments *)

(** The fragment field: offset in units of 8 bytes, and whether more follow. *)
Definition frag_field (off : Z) (mf : bool) : Z :=
  let field := u16 (u32 off / 8) in if mf then Z.lor field IPV4_FRAG_MF else field.

Definition frag_header (h : list Z) (off : Z) (mf : bool) (len : nat) : list Z :=
  rewritten h (htons (frag_field off mf)) (htons (u16 (Z.of_nat (length h) + Z.of_nat len))).

(** The fragments of a payload that starts at [off]; [more] says whether something
    follows the last. *)
Fixpoint fragments (fuel : nat) (h : list Z) (fp : nat) (more : bool) (off : Z) (pay : list Z) : list (list Z) :=
  match fuel with
  | O => []
  | S fuel =>
      if (fp <? length pay)%nat
      then (frag_header h off true fp ++ take fp pay) :: fragments fuel h fp more (off + Z.of_nat fp) (drop fp pay)
      else [frag_header h off more (length pay) ++ pay]
  end.

(** A header and its payload agree. *)
Record ip_pkt (h pay : list Z) : Prop := {
  ip_min : (20 <= length h)%nat;
  ip_ihl : ip_hdr_len h = Z.of_nat (length h);
  ip_tot : ip_tot_len h = Z.of_nat (length h) + Z.of_nat (length pay);
  ip_bytes : is_bytes h
}.

Lemma frag_field_spec off mf : 0 <= off < 65536 ->
  is_u16 (frag_field off mf) /\ Z.land (frag_field off mf) IPV4_FRAG_OFF_MASK = off / 8 /\
  negb (Z.land (frag_field off mf) IPV4_FRAG_MF =? 0) = mf /\ Z.land (frag_field off mf) IPV4_FRAG_DF = 0.
Proof.
  intros H. unfold frag_field. rewrite (wrap_id 32), (wrap_id 16) by (unfold is_u; zlia). set (x := off / 8).
  assert (Hx : 0 <= x < 8192) by (unfold x; zlia). clearbody x.
  assert (Hor : (if mf then Z.lor x IPV4_FRAG_MF else x) = x + (if mf then 8192 else 0)).
  { destruct mf; [|lia]. rewrite Z.lor_comm. change IPV4_FRAG_MF with (Z.shiftl 1 13). rewrite (lor_shiftl_add 1 x 13) by lia. lia. }
  rewrite Hor. split; [destruct mf; unfold is_u; lia|]. split; [|split].
  - change IPV4_FRAG_OFF_MASK with (Z.ones 13). rewrite Z.land_ones by lia. destruct mf; zlia.
  - change IPV4_FRAG_MF with (2 ^ 13). rewrite land_pow2_eqb, negb_involutive, Z.testbit_odd, Z.shiftr_div_pow2 by lia.
    destruct mf; [replace ((x + 8192) / 2 ^ 13) with 1 by zlia|replace ((x + 0) / 2 ^ 13) with 0 by zlia]; done.
  - apply Z.eqb_eq. change IPV4_FRAG_DF with (2 ^ 14). rewrite land_pow2_eqb, Z.testbit_odd, Z.shiftr_div_pow2 by lia.
    replace ((x + _) / 2 ^ 14) with 0 by (destruct mf; zlia). done.
Qed.

Section frag_header.
Context (h : list Z) (off : Z) (mf : bool) (len : nat).
Hypothesis (Hh : (20 <= length h)%nat) (Hoff : 0 <= off < 65536) (Hlen : Z.of_nat (length h) + Z.of_nat len < 65536).

Lemma length_frag_header : length (frag_header h off mf len) = length h.
Proof. by apply length_rewritten. Qed.

Lemma frag_header_tot : ip_tot_len (frag_header h off mf len) = Z.of_nat (length h) + Z.of_nat len.
Proof.
  destruct (rewritten_fields h (htons (frag_field off mf)) (htons (u16 (Z.of_nat (length h) + Z.of_nat len))) Hh) as [_ Ht];
    [apply htons_range..|]. unfold ip_tot_len, frag_header. rewrite Ht, htons_involutive by (apply wrap_range; lia).
  apply wrap_id. unfold is_u. lia.
Qed.

Lemma frag_header_field : ipv4_frag_field_get_host (frag_header h off mf len) = frag_field off mf.
Proof.
  destruct (rewritten_fields h (htons (frag_field off mf)) (htons (u16 (Z.of_nat (length h) + Z.of_nat len))) Hh) as [Hf _];
    [apply htons_range..|]. unfold ipv4_frag_field_get_host, frag_header. rewrite Hf. apply htons_involutive. by apply frag_field_spec.
Qed.

Lemma frag_header_offset : ipv4_get_frag_offset (frag_header h off mf len) = off / 8.
Proof. unfold ipv4_get_frag_offset. rewrite frag_header_field. by apply frag_field_spec. Qed.

Lemma frag_header_mf : ipv4_get_flag_mf (frag_header h off mf len) = mf.
Proof. unfold ipv4_get_flag_mf. rewrite frag_header_field. by apply frag_field_spec. Qed.

Lemma frag_header_df : ipv4_get_flag_df (frag_header h off mf len) = false.
Proof. unfold ipv4_get_flag_df. rewrite frag_header_field. destruct (frag_field_spec off mf Hoff) as (_&_&_&->). done. Qed.

Lemma frag_header_fld8 j : j ∉ [2; 3; 6; 7; 10; 11]%nat -> fld8 (frag_header h off mf len) j = fld8 h j.
Proof. by apply rewritten_fld8. Qed.

Lemma frag_header_pkt pay0 pay : ip_pkt h pay0 -> length pay = len -> ip_pkt (frag_header h off mf len) pay.
Proof.
  intros [H1 H2 H3 H4] Hp. split.
  - by rewrite length_frag_header.
  - rewrite length_frag_header, <- H2. unfold ip_hdr_len. by rewrite frag_header_fld8 by compute_done.
  - by rewrite frag_header_tot, length_frag_header, Hp.
  - by apply rewritten_bytes.
Qed.
End frag_header.
