(* ===== verification/IpFragOut.v ===== *)
(** IPv4 fragmentation, proofs: [ipv4_frag] leaves the fragments of the packet, each
    a packet of its own, or fails and leaves no fragment behind. *)

From stdpp Require Import prelude list gmap.
From Stdlib Require Import ZArith Lia.
From S2P Require Import Prelude Checksum Skbuff SkbuffMem SkbuffOps SkbuffSplit SkbuffFrame Net NetInv IpFrag IpFragHdr.
Import Skb Net IpFrag.

Definition chains (l : list (nat * skbuff)) : list data_info := l.*2 ≫= chain.
Definition sound (m : mem) (k : skbuff) : Prop := chain_ok m k /\ alive k.

Lemma chains_cons i k l : chains ((i, k) :: l) = chain k ++ chains l.
Proof. done. Qed.

Lemma chains_single i k : chains [(i, k)] = chain k.
Proof. rewrite chains_cons. apply app_nil_r. Qed.

Lemma chains_app l1 l2 : chains (l1 ++ l2) = chains l1 ++ chains l2.
Proof. unfold chains. by rewrite fmap_app, bind_app. Qed.

Lemma own_perm m l l' f : l ≡ₚ l' -> own m l f -> own m l' f.
Proof. intros Hp. apply own_ext. intros s. by rewrite (refs_perm l l' s) by (by rewrite Hp). Qed.

Lemma live_perm' m l l' : l ≡ₚ l' -> live m l -> live m l'.
Proof. intros Hp [Hi Hn]. split; by rewrite <- Hp. Qed.

Lemma sound_same m m' k : same_on m m' (chain k) -> sound m k -> sound m' k.
Proof. intros H [? ?]. split; [by eapply same_on_ok|done]. Qed.

Lemma sounds_same m m' l o : same_on m m' o -> chains l ⊆ o -> Forall (sound m) l.*2 -> Forall (sound m') l.*2.
Proof.
  intros Hs. induction l as [|[i k] l IH]; [done|]. rewrite chains_cons, !fmap_cons, !Forall_cons. intros Hsub [Hk Hl].
  split; [|apply IH; [set_solver|done]]. eapply sound_same; [|done]. eapply same_on_sub; [done|set_solver].
Qed.

Lemma contents_same m m' l o : same_on m m' o -> chains l ⊆ o ->
  (fun k => content m' (chain k)) <$> l.*2 = (fun k => content m (chain k)) <$> l.*2.
Proof.
  intros Hs. induction l as [|[i k] l IH]; [done|]. rewrite chains_cons, !fmap_cons. intros Hsub. f_equal; [|apply IH; set_solver].
  apply same_on_content. eapply same_on_sub; [done|set_solver].
Qed.

Lemma kept_same m m' l0 l1 o f0 f1 : own m l0 f0 -> own m' l1 f1 -> kept nowhere m m' -> Forall (inside m) o -> o ⊆ l1 -> same_on m m' o.
Proof.
  intros Ho Ho' Hk Hi Hs. destruct (content_same m m' l0 l1 f0 f1 o Ho Ho' Hk Hi Hs) as [Hi' _]. split; [done|].
  intros d Hd. rewrite Forall_forall in Hi. apply (bytes_kept nowhere m m' l0 l1 f0 f1 Ho Ho' Hk d (Hi d Hd)); [|by intros ? ? _ _ []].
  intros d' s ->%list_elem_of_singleton Hsd. pose proof (refs_pos l1 d s (Hs d Hd) Hsd). lia.
Qed.

Lemma sound_same_data m k k' : chain k' = chain k -> data_num k' = data_num k -> data_total_len k' = data_total_len k -> sound m k -> sound m k'.
Proof. unfold sound, alive. intros H1 H2 H3 [[Ht Hc] Ha]. split; [split|]; rewrite ?H1, ?H2, ?H3; done. Qed.

(** *** Giving up *)

Section frag.
Context (N : nat) (g : gmap nat obj) (id : nat).

Lemma free_frags_spec l : forall n ho o f, made N g id n ho l -> own (smem n) (chains l ++ o) f -> Forall (inside (smem n)) o ->
  nruns (free_frags l.*1) n (fun _ n' => made N g id n' ho [] /\ own (smem n') o f /\ same_on (smem n) (smem n') o).
Proof.
  induction l as [|[i k] l IH]; intros n ho o f Hm Ho Hi; cbn [free_frags fmap list_fmap].
  { apply nruns_ret. split_and!; [done|done|]. by split. }
  rewrite chains_cons, <- app_assoc in Ho. apply nruns_bind. eapply nruns_mono; [by eapply made_free|].
  intros _ n1 (Hm1&Ho1&Hk1). assert (Hs1 : same_on (smem n) (smem n1) o) by (eapply kept_same; [exact Ho|exact Ho1|done|done|sublist]).
  eapply nruns_mono; [apply (IH n1 ho o f Hm1 Ho1); apply Hs1|]. intros _ n2 (Hm2&Ho2&Hs2). split_and!; [done|done|]. by eapply same_on_trans.
Qed.

Lemma frag_fail_spec n k0 r0 e cur kc l f : made N g id n (mk_obj k0 r0 l.*1 e) ((cur, kc) :: l) ->
  own (smem n) (chain kc ++ chain k0 ++ chains l) f -> Forall (inside (smem n)) (chain k0) -> Forall (inside (smem n)) (chains l) ->
  nruns (frag_fail id cur) n (fun ok n' => ok = false /\
    made N g id n' (mk_obj k0 r0 [] e) [] /\ own (smem n') (chain k0) f /\ same_on (smem n) (smem n') (chain k0)).
Proof.
  intros Hm Ho Hi0 Hil. apply nruns_bind. eapply nruns_mono; [by eapply made_free|]. intros _ n1 (Hm1&Ho1&Hk1).
  assert (Hs1 : same_on (smem n) (smem n1) (chain k0)) by (eapply kept_same; [exact Ho|exact Ho1|done|done|sublist]).
  apply nruns_bind. eapply nruns_get; [apply Hm1|]. cbn [frag_list]. apply nruns_bind. eapply nruns_set_frags; [apply Hm1|].
  cbn [skb ref element]. apply (made_head _ _ _ _ _ (mk_obj k0 r0 [] e)) in Hm1. apply nruns_bind.
  eapply nruns_mono; [eapply (free_frags_spec l _ _ (chain k0) f Hm1)|].
  - eapply own_perm; [|exact Ho1]. solve_Permutation.
  - apply Hs1.
  - intros _ n2 (Hm2&Ho2&Hs2). apply nruns_ret. split_and!; [done|done|done|]. by eapply same_on_trans.
Qed.

(** *** One fragment *)

(** What is left to do after the header of [cur] is in place. *)
Definition pushed_to (n : net) (k0 : skbuff) (r0 : nat) (e : option nat) (cur : nat) (kc : skbuff) (x l : list (nat * skbuff))
    (f : nat -> nat) (h : list Z) (kc' : skbuff) (n' : net) : Prop :=
  made N g id n' (mk_obj k0 r0 (l.*1 ++ [cur]) e) (x ++ l ++ [(cur, kc')]) /\
  own (smem n') (chain kc' ++ chains x ++ chain k0 ++ chains l) f /\ live (smem n') (chain kc' ++ chains x ++ chain k0 ++ chains l) /\
  sound (smem n') kc' /\ content (smem n') (chain kc') = h ++ content (smem n) (chain kc) /\
  l3_hdr kc' = skb_start kc' /\ (length h <= skb_data0_len kc')%nat /\
  same_on (smem n) (smem n') (chains x ++ chain k0 ++ chains l).

Definition gave_up (n : net) (k0 : skbuff) (r0 : nat) (e : option nat) (f : nat -> nat) (n' : net) : Prop :=
  made N g id n' (mk_obj k0 r0 [] e) [] /\ own (smem n') (chain k0) f /\ same_on (smem n) (smem n') (chain k0).

Lemma frag_push_spec n k0 r0 e cur kc x l f h K Q :
  made N g id n (mk_obj k0 r0 l.*1 e) ((cur, kc) :: x ++ l) -> (length x <= 1)%nat ->
  own (smem n) (chain kc ++ chains x ++ chain k0 ++ chains l) f -> live (smem n) (chain kc ++ chains x ++ chain k0 ++ chains l) ->
  sound (smem n) kc ->
  (forall n' kc', pushed_to n k0 r0 e cur kc x l f h kc' n' -> nruns K n' Q) ->
  (forall n', gave_up n k0 r0 e f n' -> Q false n') ->
  nruns (o ← get cur;
         '(ok, k) ← lift (push_header (skb o) h);
         if negb ok then put_ref (head x.*1);; frag_fail id cur
         else
           set_skb cur (set_l3 k (skb_start k));;
           o ← get id;
           set_frags id (frag_list o ++ [cur]);;
           K) n Q.
Proof.
  intros Hm Hx Ho Hl [Hc Ha] HK HQ. pose proof (md_objs _ _ _ _ _ _ Hm cur kc ltac:(left)) as Hcur.
  apply nruns_bind. eapply nruns_get; [exact Hcur|]. cbn [skb single]. apply nruns_bind, nruns_lift.
  eapply runs_mono; [by apply (push_apart (smem n) kc (chains x ++ chain k0 ++ chains l) f h)|]. intros [[] k'] m1; cbn [negb].
  - intros [[Ho1 Hl1 Hc1 Ha1 Hcn1 Hs1] Hlen]. apply nruns_bind. eapply nruns_set_skb; [exact Hcur|]. cbn [ref frag_list element single].
    apply (made_mem _ _ _ _ _ _ m1) in Hm. apply (made_set _ _ _ _ _ _ _ (set_l3 k' (skb_start k'))) in Hm.
    apply nruns_bind. eapply nruns_get; [apply Hm|]. cbn [frag_list]. apply nruns_bind. eapply nruns_set_frags; [apply Hm|].
    cbn [skb ref element]. apply (made_head _ _ _ _ _ (mk_obj k0 r0 (l.*1 ++ [cur]) e)) in Hm. eapply HK.
    split; [eapply made_perm; [|exact Hm]; solve_Permutation|]. split_and!; try done.
    by eapply (sound_same_data m1 k').
  - intros [-> [Ho1 Hl1 Hc1 Ha1 Hcn1 Hs1]]. apply (made_mem _ _ _ _ _ _ m1) in Hm. apply nruns_bind.
    assert (Hg : forall n1 l', made N g id n1 (mk_obj k0 r0 l.*1 e) ((cur, kc) :: l) -> own (smem n1) (chain kc ++ chain k0 ++ chains l) f ->
      own m1 l' f -> kept nowhere m1 (smem n1) -> nruns (frag_fail id cur) n1 Q).
    { intros n1 l' Hm1 Ho1' Hol Hk1.
      assert (Hs2 : same_on m1 (smem n1) (chain k0 ++ chains l)).
      { eapply kept_same; [exact Hol|exact Ho1'|done| |sublist]. destruct Hs1 as [[_ ?]%Forall_app _]. done. }
      eapply nruns_mono; [eapply (frag_fail_spec n1 k0 r0 e cur kc l f); try done; [apply (Forall_app _ (chain k0) (chains l)), Hs2..]|].
      intros ok n2 (->&Hm2&Ho2&Hs3). apply HQ. split_and!; [done..|]. eapply same_on_trans; [eapply same_on_sub; [exact Hs1|sublist]|].
      eapply same_on_trans; [eapply same_on_sub; [exact Hs2|sublist]|done]. }
    destruct x as [|[nx kx] [|]]; [| |cbn in Hx; lia]; cbn [head fmap list_fmap put_ref fst].
    + apply nruns_ret. eapply Hg; [exact Hm|exact Ho1|exact Ho1|apply kept_refl].
    + change ([(nx, kx)] ++ l) with ((nx, kx) :: l) in Hm. assert (Hm' : made N g id (set_mem n m1) (mk_obj k0 r0 l.*1 e) ((nx, kx) :: (cur, kc) :: l))
        by (eapply made_perm; [|exact Hm]; solve_Permutation).
      eapply nruns_mono; [eapply (made_free _ _ _ _ _ _ _ _ (chain kc ++ chain k0 ++ chains l) f Hm')|].
      * eapply own_perm; [|exact Ho1]. unfold chains at 1. cbn. rewrite app_nil_r. solve_Permutation.
      * intros _ n1 (Hm1&Ho1'&Hk1). by eapply Hg.
Qed.

(** *** All fragments *)

(** The fragments [l'] after those of [l]. *)
Definition fragmented (n : net) (k0 : skbuff) (r0 : nat) (e : option nat) (l : list (nat * skbuff)) (f : nat -> nat)
    (hlen : nat) (bytes : list (list Z)) (n' : net) : Prop :=
  exists l', made N g id n' (mk_obj k0 r0 (l ++ l').*1 e) (l ++ l') /\
    own (smem n') (chain k0 ++ chains (l ++ l')) f /\ live (smem n') (chain k0 ++ chains (l ++ l')) /\
    Forall (sound (smem n')) l'.*2 /\ (fun k => content (smem n') (chain k)) <$> l'.*2 = bytes /\
    Forall (fun k => l3_hdr k = skb_start k /\ (hlen <= skb_data0_len k)%nat) l'.*2 /\
    same_on (smem n) (smem n') (chain k0 ++ chains l).

Lemma fragmented_cons n n1 n' k0 r0 e cur kc l f hlen b bs : sound (smem n1) kc -> content (smem n1) (chain kc) = b ->
  l3_hdr kc = skb_start kc -> (hlen <= skb_data0_len kc)%nat -> same_on (smem n) (smem n1) (chain k0 ++ chains l) ->
  fragmented n1 k0 r0 e (l ++ [(cur, kc)]) f hlen bs n' -> fragmented n k0 r0 e l f hlen (b :: bs) n'.
Proof.
  intros Hk Hb Hp Hlen Hs (l'&Hm&Ho&Hl&Hsd&Hbs&Hps&Hs'). rewrite chains_app, chains_single, app_assoc in Hs'.
  assert (Hsc : same_on (smem n1) (smem n') (chain kc)) by (eapply same_on_sub; [exact Hs'|sublist]).
  exists ((cur, kc) :: l'). rewrite <- app_assoc in Hm, Ho, Hl. cbn [app] in Hm, Ho, Hl. split_and!; try done.
  - rewrite fmap_cons. constructor; [by eapply sound_same|done].
  - rewrite !fmap_cons, Hbs. f_equal. cbn [snd]. by rewrite (same_on_content _ _ _ Hsc).
  - rewrite fmap_cons. by constructor.
  - eapply same_on_trans; [exact Hs|]. eapply same_on_sub; [exact Hs'|sublist].
Qed.

Lemma fragmented_one n n' k0 r0 e cur kc kc' l f h hlen : length h = hlen -> pushed_to n k0 r0 e cur kc [] l f h kc' n' ->
  fragmented n k0 r0 e l f hlen [h ++ content (smem n) (chain kc)] n'.
Proof.
  intros <- (Hm&Ho&Hl&Hk&Hcn&Hp&Hlen&Hs). exists [(cur, kc')]. rewrite fmap_app, chains_app, chains_single.
  assert (Hpm : chain kc' ++ chains [] ++ chain k0 ++ chains l ≡ₚ chain k0 ++ chains l ++ chain kc') by (cbn; solve_Permutation).
  split_and!; [done|by eapply own_perm|by eapply live_perm'|by constructor|exact (f_equal (fun b => [b]) Hcn)|by constructor|done].
Qed.

Lemma frag_loop_spec h base mo fp k0 r0 e f : (0 < fp)%nat -> (20 <= length h)%nat ->
  forall fuel n l cur kc off, made N g id n (mk_obj k0 r0 l.*1 e) ((cur, kc) :: l) ->
  own (smem n) (chain kc ++ chain k0 ++ chains l) f -> live (smem n) (chain kc ++ chain k0 ++ chains l) ->
  sound (smem n) kc -> (data_total_len kc < fuel)%nat -> 0 <= off -> off + Z.of_nat (data_total_len kc) < 2 ^ 32 ->
  nruns (frag_loop fuel id h (Z.of_nat fp) base mo (Some cur) off) n (fun ok n' =>
    if ok : bool then fragmented n k0 r0 e l f (length h) (fragments fuel h fp mo (base + off) (content (smem n) (chain kc))) n'
    else gave_up n k0 r0 e f n').
Proof.
  intros Hfp Hh. induction fuel as [|fuel IH]; intros n l cur kc off Hm Ho Hl Hk Hfuel Hoff Hmax; [lia|].
  pose proof (chain_content _ kc (proj1 Hk)) as Hcl. cbn [frag_loop fragments]. rewrite Hcl.
  assert (Hcur : objs n !! cur = Some (single kc)) by (apply Hm; left).
  apply nruns_bind. eapply nruns_get; [exact Hcur|]. cbn [skb single]. apply nruns_bind.
  destruct (Nat.ltb_spec fp (data_total_len kc)) as [Hlt|Hge].
  - rewrite (proj2 (Z.ltb_lt _ _)) by lia. apply nruns_bind, nruns_lift. rewrite Nat2Z.id.
    eapply runs_mono; [apply (split_apart (smem n) kc (chain k0 ++ chains l) f fp Ho Hl); apply Hk|]. intros [[tail|] k'] m1.
    2:{ intros [-> [Ho1 Hl1 Hc1 Ha1 Hcn1 Hs1]]. apply nruns_ret. apply (made_mem _ _ _ _ _ _ m1) in Hm.
        pose proof (proj1 Hs1) as [Hi0 Hil]%Forall_app.
        eapply nruns_mono; [by apply (frag_fail_spec _ k0 r0 e cur kc l f Hm Ho1)|]. intros ok n2 (->&Hm2&Ho2&Hs2).
        split_and!; [done..|]. eapply same_on_trans; [|exact Hs2]. eapply same_on_sub; [exact Hs1|sublist]. }
    intros [Ho1 Hl1 Hk1 Ht1 Hcn1 Hcnt1 Hs1 _]. apply nruns_bind. eapply nruns_set_skb; [exact Hcur|]. cbn [ref frag_list element single].
    apply (made_mem _ _ _ _ _ _ m1) in Hm. apply (made_set _ _ _ _ _ _ _ k') in Hm. apply nruns_bind.
    eapply nruns_mono; [exact (made_add _ _ _ _ _ tail _ Hm)|]. intros next n2 [Hm2e Hm2]. cbn in Hm2e. apply nruns_ret.
    apply nruns_bind. rewrite rewrite_header_some. apply nruns_ret.
    assert (Hm2' : made N g id n2 (mk_obj k0 r0 l.*1 e) ((cur, k') :: [(next, tail)] ++ l)) by (eapply made_perm; [|exact Hm2]; solve_Permutation).
    eapply (frag_push_spec n2 k0 r0 e cur k' [(next, tail)] l f _ _ _ Hm2'); rewrite ?Hm2e, ?chains_single; try done.
    + intros n3 kc' (Hm3&Ho3&Hl3&Hk3&Hcn3&Hp3&Hlen3&Hs3). rewrite Hm2e, ?chains_single in *.
      assert (Hcnt3 : content (smem n3) (chain tail) = drop fp (content (smem n) (chain kc))).
      { rewrite <- Hcnt1. apply same_on_content. eapply same_on_sub; [exact Hs3|sublist]. }
      cbn [orb] in Hcn3. eapply nruns_mono; [apply (IH n3 (l ++ [(cur, kc')]) next tail)|].
      * rewrite fmap_app. exact Hm3.
      * eapply own_perm; [|exact Ho3]. rewrite chains_app, chains_single. solve_Permutation.
      * eapply live_perm'; [|exact Hl3]. rewrite chains_app, chains_single. solve_Permutation.
      * eapply sound_same; [|exact Ht1]. eapply same_on_sub; [exact Hs3|sublist].
      * rewrite <- (chain_content m1 tail), Hcnt1, length_drop, Hcl by apply Ht1. lia.
      * rewrite wrap_id by (unfold is_u; lia). lia.
      * rewrite wrap_id by (unfold is_u; lia). rewrite <- (chain_content m1 tail), Hcnt1, length_drop, Hcl by apply Ht1. lia.
      * assert (Hs13 : same_on (smem n) (smem n3) (chain k0 ++ chains l)).
        { eapply same_on_trans; [exact Hs1|]. eapply same_on_sub; [exact Hs3|sublist]. }
        intros [] n4; [intros Hf|intros (Hm4&Ho4&Hs4)].
        -- eapply fragmented_cons; [exact Hk3| |done| |exact Hs13|].
           ++ rewrite Hcn3, Hcn1. unfold frag_header, frag_field. done.
           ++ by rewrite length_rewritten in Hlen3.
           ++ rewrite wrap_id, Hcnt3 in Hf by (unfold is_u; lia). by rewrite Z.add_assoc in Hf.
        -- split_and!; [done..|]. eapply same_on_trans; [|exact Hs4]. eapply same_on_sub; [exact Hs13|sublist].
    + intros n3 (Hm3&Ho3&Hs3). split_and!; [done..|]. rewrite Hm2e in Hs3. eapply same_on_trans; [|exact Hs3]. eapply same_on_sub; [exact Hs1|sublist].
  - rewrite (proj2 (Z.ltb_ge _ _)) by lia. apply nruns_ret. apply nruns_bind. rewrite rewrite_header_some. apply nruns_ret.
    eapply (frag_push_spec n k0 r0 e cur kc [] l f _ _ _ Hm); [cbn; lia|done|done|done| |].
    + intros n3 kc' Hp. destruct fuel; apply nruns_ret; (eapply fragmented_one; [|exact Hp]; by apply length_rewritten).
    + intros n3 H3. exact H3.
Qed.
End frag.

(** *** The first fragment *)

(** A packet object that holds the IPv4 packet [h ++ pay]. *)
Record ip_obj (m : mem) (k : skbuff) (h pay : list Z) : Prop := {
  io_sound : sound m k;
  io_l3 : l3_hdr k = skb_start k;
  io_len : (length h <= skb_data0_len k)%nat;
  io_pkt : ip_pkt h pay;
  io_content : content m (chain k) = h ++ pay
}.

Lemma fld8_take h j n : (j < n)%nat -> fld8 (take n h) j = fld8 h j.
Proof. intros Hj. unfold fld8. by rewrite !nth_lookup, lookup_take_lt. Qed.

Lemma fld16_take h j n : (S j < n)%nat -> fld16 (take n h) j = fld16 h j.
Proof. intros Hj. unfold fld16. by rewrite !fld8_take by lia. Qed.

Lemma take_hdr_fields h : ip_hdr_len (take 20 h) = ip_hdr_len h /\ ip_tot_len (take 20 h) = ip_tot_len h /\
  ipv4_frag_field_get_host (take 20 h) = ipv4_frag_field_get_host h.
Proof. unfold ip_hdr_len, ip_tot_len, ipv4_frag_field_get_host. by rewrite !fld16_take, fld8_take by lia. Qed.

Lemma io_load n k h pay len (Q : list Z -> net -> Prop) : ip_obj (smem n) k h pay -> (len <= length h)%nat ->
  Q (take len h) n -> nruns (load_hdr (l3_hdr k) len) n Q.
Proof.
  intros [[Hc Ha] Hl3 Hlen Hp Hcn] Hle HQ. rewrite Hl3. destruct (alive_chain _ k Hc Ha) as ([Hi _]&_).
  apply load_start; [by apply Forall_inv in Hi|lia|]. by rewrite Hcn, take_app_le by lia.
Qed.

Lemma skb_split_l3 k len m r k' m' : skb_split k len m = Some ((r, k'), m') -> l3_hdr k' = l3_hdr k.
Proof.
  unfold skb_split. destruct (data_total_len k <=? len)%nat; [by intros [= _ <- _]|]. destruct (split_walk (chain k) 0 len) as [[b a] c].
  assert (Hof : forall n t l, l3_hdr (of_chain k n t l) = l3_hdr k) by (by intros ? ? []).
  unfold mbind, M_bind, mret, M_ret. destruct (try_alloc m) as [[[] m1]|]; cbn [negb]; [|by intros [= _ <- _]|done].
  destruct a as [|d rest]; [by intros [= _ <- _]|]. destruct (c =? 0)%nat; cbn [negb].
  - destruct b; [by intros [= _ <- _]|]. intros [= _ <- _]. done.
  - destruct (load (slot d) m1) as [[? m2]|]; [|done]. destruct (alloc_data_info (size d) m2) as [[[x|] m3]|]; [|by intros [= _ <- _]|done].
    destruct (read _ _ _ m3) as [[bs m4]|]; [|done]. destruct (write _ _ bs m4) as [[[] m5]|]; [|done]. intros [= _ <- _]. apply Hof.
Qed.

(** Rounding down to a multiple of 8. *)
Lemma land_not7 x : 0 <= x < 2 ^ 32 -> Z.land x (u32 (Z.lnot 7)) = 8 * (x / 8).
Proof.
  intros Hx. unfold wrap. rewrite <- Z.land_ones by lia. rewrite Z.land_assoc, <- Z.ldiff_land. change 7 with (Z.ones 3).
  rewrite Z.ldiff_ones_r, Z.land_ones by lia. rewrite Z.shiftl_mul_pow2, Z.shiftr_div_pow2 by lia. change (2 ^ 3) with 8.
  rewrite Z.mod_small by zlia. lia.
Qed.

Lemma fragments_fuel h fp mo fuel : (0 < fp)%nat -> forall fuel' off pay, (length pay < fuel)%nat -> (length pay < fuel')%nat ->
  fragments fuel h fp mo off pay = fragments fuel' h fp mo off pay.
Proof.
  intros Hfp. induction fuel as [|fuel IH]; intros [|fuel'] off pay H1 H2; [lia..|]. cbn [fragments].
  destruct (Nat.ltb_spec fp (length pay)); [|done]. f_equal. apply IH; rewrite length_drop; lia.
Qed.

(** *** The whole function *)

(** The packets the fragments are, in order, the first being [id]. *)
Definition frags_left (n : net) (id : nat) (o : obj) (f : nat -> nat) (hlen : nat) (bytes : list (list Z)) (n' : net) : Prop :=
  exists k0 l, made (next_obj n) (objs n) id n' (mk_obj k0 (ref o) l.*1 (element o)) l /\
    own (smem n') (chain k0 ++ chains l) f /\ live (smem n') (chain k0 ++ chains l) /\
    (fun k => content (smem n') (chain k)) <$> (k0 :: l.*2) = bytes /\
    Forall (fun k => sound (smem n') k /\ l3_hdr k = skb_start k /\ (hlen <= skb_data0_len k)%nat) (k0 :: l.*2).

(** No fragment, and what is left of the packet. *)
Definition frags_failed (n : net) (id : nat) (o : obj) (f : nat -> nat) (n' : net) : Prop :=
  exists k0, made (next_obj n) (objs n) id n' (mk_obj k0 (ref o) [] (element o)) [] /\ own (smem n') (chain k0) f /\ sound (smem n') k0.

Lemma made_start n id o : objs n !! id = Some o -> (forall i, (next_obj n <= i)%nat -> objs n !! i = None) ->
  made (next_obj n) (objs n) id n o [].
Proof.
  intros Ho Hn. split; try done; try (by intros ? ?%not_elem_of_nil); try (by intros ? ? ?%not_elem_of_nil).
  - constructor.
  - destruct (decide (id < next_obj n)%nat); [done|]. rewrite Hn in Ho by lia. done.
Qed.

Section whole.
Context (n : net) (id : nat) (o : obj) (h pay : list Z) (f : nat -> nat).
Hypothesis (Hobj : objs n !! id = Some o) (Hfl : frag_list o = []) (Hnew : forall i, (next_obj n <= i)%nat -> objs n !! i = None).
Hypothesis (Hio : ip_obj (smem n) (skb o) h pay) (Hown : own (smem n) (chain (skb o)) f).

Lemma io_total : data_total_len (skb o) = (length h + length pay)%nat.
Proof. destruct Hio as [[Hc _] _ _ _ Hcn]. by rewrite <- (chain_content _ _ Hc), Hcn, length_app. Qed.

Abbreviation base := (ipv4_get_frag_offset h * 8).
Abbreviation mo := (ipv4_get_flag_mf h).

Lemma base_nonneg : 0 <= base.
Proof.
  unfold ipv4_get_frag_offset. pose proof (proj2 (Z.land_nonneg (ipv4_frag_field_get_host h) IPV4_FRAG_OFF_MASK) ltac:(right; done)). lia.
Qed.

Lemma first_header fp : base + Z.of_nat (length pay) <= UINT16_MAX ->
  rewritten h (htons (u16 (Z.lor (base / 8) IPV4_FRAG_MF))) (htons (u16 (Z.of_nat (length h + fp)))) = frag_header h base true fp.
Proof.
  intros Hb. pose proof base_nonneg as Hoff. unfold frag_header. destruct (frag_field_spec base true) as (Hu&_); [unfold UINT16_MAX in *; lia|].
  unfold frag_field in *. rewrite (wrap_id 32 base), (wrap_id 16 (base / 8)) in * by (unfold is_u, UINT16_MAX in *; zlia).
  rewrite (wrap_id 16 (Z.lor _ _) Hu). do 3 f_equal. lia.
Qed.

(** The end: the first fragment asks for no checksum offload. *)
Lemma frag_done n3 n4 k1 fp fuel :
  fragmented (next_obj n) (objs n) id n3 k1 (ref o) (element o) [] f (length h) (fragments fuel h fp mo (base + Z.of_nat fp) (drop fp pay)) n4 ->
  sound (smem n3) k1 -> content (smem n3) (chain k1) = frag_header h base true fp ++ take fp pay ->
  l3_hdr k1 = skb_start k1 -> (length h <= skb_data0_len k1)%nat -> (0 < fp < length pay)%nat -> (length pay - fp < fuel)%nat ->
  nruns (o ← get id; set_skb id (clear_l4 (skb o));; mret true) n4 (fun ok n' => ok = true /\
    frags_left n id o f (length h) (fragments (S (length pay)) h fp mo base pay) n').
Proof.
  intros (l'&Hm4&Ho4&Hl4&Hsd4&Hbs4&Hps4&Hs4) Hk1 Hcn Hst Hd Hfp Hfuel. cbn [app] in *. rewrite app_nil_r in Hs4.
  apply nruns_bind. eapply nruns_get; [apply Hm4|]. cbn [skb]. apply nruns_bind. eapply nruns_set_skb; [apply Hm4|]. apply nruns_ret.
  cbn [ref frag_list element]. apply (made_head _ _ _ _ _ (mk_obj (clear_l4 k1) (ref o) l'.*1 (element o))) in Hm4.
  split; [done|]. exists (clear_l4 k1), l'. cbn [smem set_objs]. split_and!; [exact Hm4|exact Ho4|exact Hl4| |].
  - rewrite fmap_cons, Hbs4. set (X := fragments _ _ _ _ _ (drop fp pay)). cbn [fragments].
    rewrite (proj2 (Nat.ltb_lt fp (length pay))) by lia. f_equal.
    + change (chain (clear_l4 k1)) with (chain k1). by rewrite (same_on_content _ _ _ Hs4).
    + unfold X. apply fragments_fuel; rewrite ?length_drop; lia.
  - constructor.
    + split_and!; [|done|done]. eapply sound_same_data; [..|eapply sound_same; [exact Hs4|done]]; done.
    + apply Forall_forall. intros k Hk. rewrite Forall_forall in Hsd4, Hps4. destruct (Hps4 k Hk). auto.
Qed.

(** After the split: the header of the first fragment, then the others. *)
Lemma frag_rest_spec m1 k1 tail fp : (0 < fp)%nat -> (fp < length pay)%nat ->
  halves (smem n) (skb o) [] f (length h + fp) k1 tail m1 -> l3_hdr k1 = l3_hdr (skb o) ->
  base + Z.of_nat (length pay) <= UINT16_MAX ->
  nruns (set_skb id k1;;
         cur ← new_obj tail;
         h' ← load_hdr (l3_hdr k1) (Z.to_nat (ip_hdr_len h));
         h' ← must (rewrite_header h' (htons (u16 (Z.lor (base / 8) IPV4_FRAG_MF))) (htons (u16 (Z.of_nat (data_total_len k1)))));
         store_hdr (l3_hdr k1) h';;
         ok ← frag_loop (S (data_total_len tail)) id h (Z.of_nat fp) base mo (Some cur) (Z.of_nat fp);
         if ok : bool then o ← get id; set_skb id (clear_l4 (skb o));; mret true else mret false) (set_mem n m1)
    (fun ok n' => if ok : bool then frags_left n id o f (length h) (fragments (S (length pay)) h fp mo base pay) n'
     else frags_failed n id o f n').
Proof.
  intros Hfp Hlt [Ho1 Hl1 Hk1 Ht1 Hcn1 Hcnt1 _ (F1&F2&F3)] Hl3 Hbase. rewrite !app_nil_r in *. pose proof base_nonneg as Hoff.
  destruct Hio as [[Hc Ha] Hl3' Hlen [P1 P2 P3 P4] Hcn]. rewrite Hcn, take_app_add in Hcn1. rewrite Hcn, drop_app_add in Hcnt1.
  assert (Htot1 : data_total_len k1 = (length h + fp)%nat).
  { rewrite <- (chain_content m1 k1), Hcn1, length_app, length_take by apply Hk1. lia. }
  assert (Htot2 : data_total_len tail = (length pay - fp)%nat).
  { rewrite <- (chain_content m1 tail), Hcnt1, length_drop by apply Ht1. done. }
  assert (Hst : l3_hdr k1 = skb_start k1) by (rewrite Hl3, Hl3'; unfold skb_start; by rewrite F1, F2).
  assert (Hd1 : (length h <= skb_data0_len k1)%nat) by lia.
  assert (Hm0 : made (next_obj n) (objs n) id n o []) by by apply made_start.
  apply nruns_bind. eapply nruns_set_skb; [exact Hobj|]. cbn [ref frag_list element]. rewrite Hfl.
  apply (made_mem _ _ _ _ _ _ m1) in Hm0. apply (made_head _ _ _ _ _ (mk_obj k1 (ref o) [] (element o))) in Hm0.
  apply nruns_bind. eapply nruns_mono; [exact (made_add _ _ _ _ _ tail _ Hm0)|]. intros cur n2 [Hm2e Hm2]. cbn in Hm2e.
  apply nruns_bind. rewrite Hst. apply load_start; rewrite ?Hm2e; [|lia|].
  { destruct (alive_chain m1 k1) as ([Hi _]&_); [apply Hk1..|]. by apply Forall_inv in Hi. }
  apply nruns_bind. rewrite rewrite_header_some. apply nruns_ret. apply nruns_bind. rewrite Hcn1, P2, Nat2Z.id, take_app_length.
  rewrite Htot1, first_header by done. pose proof (length_frag_header h base true fp P1) as Hh1.
  apply (store_start n2 k1 (chain tail) f); rewrite ?Hm2e; [done|done|apply Hk1|apply Hk1|lia|].
  intros m3 [Ho3 Hl3x Hc3 Ha3 Hcn3 Hs3]. rewrite Hcn1, Hh1, drop_app_length in Hcn3. apply (made_mem _ _ _ _ _ _ m3) in Hm2.
  assert (Hpm : chain k1 ++ chain tail ≡ₚ chain tail ++ chain k1 ++ chains []) by (cbn; rewrite app_nil_r; solve_Permutation).
  apply nruns_bind. eapply nruns_mono; [apply (frag_loop_spec (next_obj n) (objs n) id h base mo fp k1 (ref o) (element o) f Hfp P1 _
    (set_mem n2 m3) [] cur tail (Z.of_nat fp) Hm2);
    [by eapply own_perm|by eapply live_perm'|eapply sound_same; [exact Hs3|exact Ht1]|lia|lia|unfold UINT16_MAX in *; lia]|].
  cbn [smem set_mem]. rewrite (same_on_content _ _ _ Hs3), Hcnt1. intros [] n4; [intros H4|intros (Hm4&Ho4&Hs4)].
  - eapply nruns_mono; [apply (frag_done _ n4 k1 fp _ H4); [by split|done|done|done|lia|lia]|]. by intros ok n5 [-> ?].
  - apply nruns_ret. exists k1. split_and!; [done..|]. eapply sound_same; [exact Hs4|by split].
Qed.

Lemma ipv4_frag_spec mtu : ipv4_get_flag_df h = false -> Z.of_nat (length h) + 8 <= mtu < ip_tot_len h ->
  base + Z.of_nat (length pay) <= UINT16_MAX ->
  nruns (ipv4_frag mtu id) n (fun ok n' =>
    if ok : bool then
      frags_left n id o f (length h) (fragments (S (length pay)) h (Z.to_nat (8 * ((mtu - Z.of_nat (length h)) / 8))) mo base pay) n'
    else frags_failed n id o f n').
Proof.
  intros Hdf Hmtu Hbase. pose proof Hio as [[Hc Ha] Hl3 Hlen [P1 P2 P3 P4] Hcn]. unfold ipv4_frag, ipv4_hdr_of.
  apply nruns_bind, nruns_bind. eapply nruns_get; [exact Hobj|]. eapply io_load; [exact Hio|done|].
  destruct (take_hdr_fields h) as (E1&E2&E3). unfold ipv4_get_flag_df, ipv4_get_flag_mf, ipv4_get_frag_offset in *.
  rewrite E1, E2, E3, Hdf, (proj2 (Z.leb_gt _ _)) by lia.
  assert (Hu : is_u16 (ip_tot_len h)) by apply htons_range. unfold is_u in Hu.
  rewrite P2, (wrap_id 32 (mtu - _)) by (unfold is_u; lia). rewrite land_not7 by lia.
  set (fpz := 8 * ((mtu - Z.of_nat (length h)) / 8)). assert (Hfp : 8 <= fpz <= mtu - Z.of_nat (length h)) by (unfold fpz; zlia).
  apply nruns_bind. eapply nruns_get; [exact Hobj|]. apply nruns_bind. eapply io_load; [exact Hio|lia|].
  rewrite Nat2Z.id, firstn_all. apply nruns_bind, nruns_lift. rewrite wrap_id by (unfold is_u; lia).
  replace (Z.to_nat (Z.of_nat (length h) + fpz)) with (length h + Z.to_nat fpz)%nat by lia.
  pose proof (split_apart (smem n) (skb o) [] f (length h + Z.to_nat fpz)) as Hsp. rewrite app_nil_r in Hsp.
  destruct (alive_chain _ _ Hc Ha) as (Hlv&_). specialize (Hsp Hown Hlv Hc Ha). unfold runs in *.
  destruct (skb_split (skb o) (length h + Z.to_nat fpz) (smem n)) as [[[[tail|] k1] m1]|] eqn:E; [| |done].
  - assert (Efp : fpz = Z.of_nat (Z.to_nat fpz)) by lia.
    pose proof (frag_rest_spec m1 k1 tail (Z.to_nat fpz) ltac:(lia) ltac:(lia) Hsp (skb_split_l3 _ _ _ _ _ _ E)) as H.
    unfold ipv4_get_frag_offset, ipv4_get_flag_mf in H. rewrite P2, Nat2Z.id, <- Efp in H. exact (H Hbase).
  - destruct Hsp as [-> [Ho1 _ Hc1 Ha1 _ _]]. rewrite app_nil_r in Ho1. apply nruns_ret. exists (skb o). split_and!; [|done|by split].
    rewrite <- Hfl. destruct o. apply made_mem. by apply made_start.
Qed.
End whole.
