(* ===== verification/IpFragIn.v ===== *)
(** IPv4 reassembly, proofs: the fragments of a packet, arriving in any order, are
    joined into the packet when the last one arrives. *)

From stdpp Require Import prelude list gmap.
From Stdlib Require Import ZArith Lia.
From S2P Require Import Prelude Checksum Skbuff SkbuffMem SkbuffOps SkbuffSplit SkbuffFrame Net NetInv IpFrag IpFragHdr IpFragOut.
Import Skb Net IpFrag.


(** *** Joining *)

(** A fragment: its object, and the header and payload it holds. *)
Record frag := mk_frag { fr_id : nat; fr_skb : skbuff; fr_hdr : list Z; fr_pay : list Z }.

Definition frag_chains (l : list frag) : list data_info := l ≫= (fun x => chain (fr_skb x)).
Definition frag_pays (l : list frag) : list Z := l ≫= fr_pay.
Definition frag_nums (l : list frag) : nat := sum_list_with (fun x => data_num (fr_skb x)) l.

(** The fragments [l] follow each other from byte [off] on, and the last one ends
    the packet. *)
Fixpoint covers (off : Z) (l : list frag) : Prop :=
  match l with
  | [] => True
  | x :: l =>
      ipv4_get_frag_offset (fr_hdr x) * 8 = off /\ fr_pay x <> [] /\ ipv4_get_flag_df (fr_hdr x) = false /\
      ipv4_get_flag_mf (fr_hdr x) = bool_decide (l <> []) /\
      (l <> [] -> Z.of_nat (length (fr_pay x)) mod 8 = 0) /\ covers (off + Z.of_nat (length (fr_pay x))) l
  end.

(** The packet [k] with descriptors added. *)
Definition extended (k : skbuff) (l : list data_info) : skbuff :=
  with_data k (data_num k + length l) (data_total_len k) (data0 k) (more k ++ l).

Lemma extended_nil k : extended k [] = k.
Proof. unfold extended. rewrite app_nil_r, Nat.add_0_r. by destruct k. Qed.

Lemma chain_extended k l : chain (extended k l) = chain k ++ l.
Proof. done. Qed.

Lemma copy_descriptors_spec re rr l : forall n k o F N, objs n !! re = Some (mk_obj k rr [] None) ->
  own (smem n) (chain k ++ o) F -> Forall (inside (smem n)) l -> l ⊆ o -> plenty (smem n) (length l + N) ->
  nruns (copy_descriptors re l) n (fun ok n' => ok = true /\ exists m,
    n' = set_objs (set_mem n m) (<[re := mk_obj (extended k l) rr [] None]> (objs n)) /\
    own m (chain k ++ l ++ o) F /\ kept nowhere (smem n) m /\ plenty m N).
Proof.
  induction l as [|d l IH]; intros n k o F N Hre Ho Hi Hs Hp; cbn [copy_descriptors].
  { apply nruns_ret. split; [done|]. exists (smem n). rewrite extended_nil, insert_id by done. split_and!; [by destruct n|done|apply kept_refl|done]. }
  apply nruns_bind, nruns_lift. eapply plenty_alloc; [exact Hp|]. intros m1 E1 E2 E3 Hp1. cbn [negb].
  assert (Ho1 : own m1 (chain k ++ o) F) by by eapply same_slots_own. pose proof (same_slots_kept _ _ E1 E2 E3) as Hk1.
  apply Forall_cons in Hi as [(s&fs&Hsd&Hfs&Hin) Hi]. apply nruns_bind, nruns_lift. cbn [smem set_mem].
  assert (Hpos : (0 < refs (chain k ++ o) s)%nat) by (eapply refs_pos; [|exact Hsd]; apply elem_of_app; right; apply Hs; left).
  pose proof (inc_spec m1 d (chain k ++ o) F s Ho1 Hsd ltac:(lia)) as Hinc. unfold runs in *.
  destruct (INC_REF (slot d) m1) as [[[] m2]|] eqn:E; [|done]. destruct Hinc as [Ho2 Hk2]. apply INC_REF_allocs in E.
  assert (Hk02 : kept nowhere (smem n) m2) by by eapply kept_trans.
  apply nruns_bind. eapply nruns_get; [exact Hre|]. cbn [skb]. apply nruns_bind. eapply nruns_set_skb; [exact Hre|]. cbn [ref frag_list element].
  change (with_data k (data_num k + 1) (data_total_len k) (data0 k) (more k ++ [d])) with (extended k [d]).
  eapply nruns_mono; [eapply (IH _ (extended k [d]) o F N)|].
  - cbn. apply lookup_insert_eq.
  - cbn [smem set_mem set_objs]. rewrite chain_extended. eapply own_perm; [|exact Ho2]. solve_Permutation.
  - cbn [smem set_mem set_objs]. eapply insides_kept; [exact Ho|exact Ho2|exact Hk02|done|]. apply held_sub. intros x Hx. right.
    apply elem_of_app. right. apply Hs. by right.
  - intros x Hx. apply Hs. by right.
  - cbn [smem set_mem set_objs]. unfold plenty in *. by rewrite E.
  - intros ok n' (->&m&->&Ho3&Hk3&Hp3). split; [done|]. exists m. cbn [smem set_mem set_objs] in *. split_and!; [|..].
    + f_equal. cbn. rewrite insert_insert_eq. do 2 f_equal. unfold extended. cbn [with_data data_num data_total_len data0 more].
      rewrite <- app_assoc. f_equal. cbn. lia.
    + by rewrite chain_extended, <- app_assoc in Ho3.
    + by eapply kept_trans.
    + done.
Qed.

Lemma frag_pays_cons x l : frag_pays (x :: l) = fr_pay x ++ frag_pays l.
Proof. done. Qed.

(** *** One fragment joined *)

(** References of the packet being delivered: the caller's and the queue's. *)
Definition refs_of (cur i : nat) : nat := if decide (i = cur) then 2 else 1.

Section join.
Context (key : ipq_key) (r rr cur : nat).

(** The packet [kr] so far and the fragments still in the queue. *)
Record joining (n : net) (kr : skbuff) (l : list frag) (F : nat -> nat) : Prop := {
  jn_re : objs n !! r = Some (mk_obj kr rr [] None);
  jn_objs : Forall (fun x => objs n !! fr_id x = Some (mk_obj (fr_skb x) (refs_of cur (fr_id x)) [] None)) l;
  jn_own : own (smem n) (chain kr ++ frag_chains l) F;
  jn_live : live (smem n) (chain kr ++ frag_chains l);
  jn_sound : sound (smem n) kr;
  jn_ip : Forall (fun x => ip_obj (smem n) (fr_skb x) (fr_hdr x) (fr_pay x)) l;
  jn_nodup : NoDup (r :: (fr_id <$> l));
  jn_num : (data_num kr + frag_nums l <= SKB_DATA_MAX_NUM)%nat;
  jn_plenty : plenty (smem n) (frag_nums l)
}.

(** What joining [x] leaves; the packet at hand keeps the caller's reference. *)
Definition joined (n : net) (kr : skbuff) (x : frag) (l : list frag) (F : nat -> nat) (n' : net) (kr' : skbuff) (F' : nat -> nat) : Prop :=
  joining n' kr' l F' /\ content (smem n') (chain kr') = content (smem n) (chain kr) ++ fr_pay x /\
  data_total_len kr' = (data_total_len kr + length (fr_pay x))%nat /\
  l3_hdr kr' = l3_hdr kr /\ data0 kr' = data0 kr /\ ipqs n' = ipqs n /\
  (forall i, i <> r -> i <> fr_id x -> objs n' !! i = objs n !! i) /\
  (if decide (fr_id x = cur) then exists kc, objs n' !! cur = Some (single kc) /\ F' = beside (chain kc) F
   else objs n' !! fr_id x = None /\ F' = F).

Lemma frag_chains_cons x l : frag_chains (x :: l) = chain (fr_skb x) ++ frag_chains l.
Proof. done. Qed.

Lemma ip_obj_same m m' k h pay : same_on m m' (chain k) -> ip_obj m k h pay -> ip_obj m' k h pay.
Proof. intros Hs [H1 H2 H3 H4 H5]. split; try done; [by eapply sound_same|]. by rewrite (same_on_content _ _ _ Hs). Qed.

Lemma ip_objs_same m m' l o : same_on m m' o -> frag_chains l ⊆ o ->
  Forall (fun x => ip_obj m (fr_skb x) (fr_hdr x) (fr_pay x)) l -> Forall (fun x => ip_obj m' (fr_skb x) (fr_hdr x) (fr_pay x)) l.
Proof.
  intros Hs. induction l as [|x l IH]; [done|]. rewrite frag_chains_cons, !Forall_cons. intros [Hx Hl]%list_subseteq_app_iff_l [Hi His].
  split; [|by apply IH]. eapply ip_obj_same; [|done]. by eapply same_on_sub.
Qed.

(** The fragment without its header. *)
Lemma strip_spec n kr x l F : joining n kr (x :: l) F -> fr_pay x <> [] ->
  runs (skb_consume (fr_skb x) (length (fr_hdr x)) true) (smem n) (fun '(_, k) m =>
    apart (smem n) (chain kr ++ frag_chains l) F k (fr_pay x) m /\ (data_num k <= data_num (fr_skb x))%nat /\ allocs m = allocs (smem n)).
Proof.
  intros [J1 J2 J3 J4 J5 J6 J7 J8 J9] Hp. apply Forall_cons in J6 as [[Hs Hl3 Hlen Hpk Hcn] J6]. rewrite frag_chains_cons in *.
  assert (Ho : own (smem n) (chain (fr_skb x) ++ chain kr ++ frag_chains l) F) by (eapply own_perm; [|exact J3]; solve_Permutation).
  assert (Hl : live (smem n) (chain (fr_skb x) ++ chain kr ++ frag_chains l)) by (eapply live_perm'; [|exact J4]; solve_Permutation).
  assert (Ht : data_total_len (fr_skb x) = (length (fr_hdr x) + length (fr_pay x))%nat) by (rewrite <- (chain_content (smem n)), Hcn, length_app by apply Hs; done).
  assert (Hpos : (0 < length (fr_pay x))%nat) by (by destruct (fr_pay x); [|cbn; lia]).
  pose proof (consume_apart (smem n) (fr_skb x) (chain kr ++ frag_chains l) F (length (fr_hdr x)) true Ho Hl (proj1 Hs) ltac:(lia)) as H.
  unfold runs in *. destruct (skb_consume (fr_skb x) (length (fr_hdr x)) true (smem n)) as [[[c k] m]|] eqn:E; [|done].
  destruct H as [-> Hap]. rewrite Hcn, Nat.min_l, drop_app_length in Hap by done. split; [done|]. split; [|by eapply skb_consume_allocs].
  clear -E Hs. revert E. unfold skb_consume. destruct (_ =? 0)%nat; [by intros [= _ <- _]|]. destruct (di_len _ =? 0)%nat; [|by intros [= _ <- _]].
  unfold mbind, M_bind. destruct (1 <? data_num (fr_skb x))%nat; [destruct (more (fr_skb x)); [done|]|];
    (destruct (PUT_REF _ (smem n)) as [[[] m1]|]; [|done]); intros [= _ <- _]; cbn; lia.
Qed.

(** The packet with the descriptors of [k], which has the bytes [pay]. *)
Lemma extended_sound m kr k l pay : sound m kr -> sound m k -> live m (chain kr ++ chain k ++ l) -> content m (chain k) = pay ->
  (data_num kr + data_num k <= SKB_DATA_MAX_NUM)%nat ->
  sound m (set_total (extended kr (chain k)) (data_total_len kr + length pay)).
Proof.
  intros [Hc Ha] [Hck Hak] Hl Hp Hn. destruct (alive_chain m kr Hc Ha) as (_&N1&_). destruct (alive_chain m k Hck Hak) as (_&N2&_).
  destruct Hc as [Ht _]. pose proof Hck as [Htk _]. rewrite app_assoc in Hl. apply live_app in Hl as [Hl _].
  split; [split|unfold alive in *; cbn; lia]; unfold chain in *; cbn [set_total extended with_data data_total_len data_num data0 more] in *.
  - rewrite app_comm_cons, sum_list_with_app, <- Ht, <- Htk. rewrite <- (chain_content m k Hck). unfold chain. by rewrite Hp.
  - left. rewrite app_comm_cons. split_and!; [done|rewrite length_app; cbn in *; lia|cbn in *; lia].
Qed.

Lemma live_same m m' l : live m l -> same_on m m' l -> live m' l.
Proof. intros [_ Hn] [Hi _]. by split. Qed.

(** The state after one fragment, when its descriptors [k] have moved to the packet. *)
Lemma joined_intro n kr x l F k m1 n' F' : joining n kr (x :: l) F ->
  apart (smem n) (chain kr ++ frag_chains l) F k (fr_pay x) m1 -> (data_num k <= data_num (fr_skb x))%nat ->
  same_on m1 (smem n') (chain kr ++ chain k ++ frag_chains l) -> plenty (smem n') (frag_nums l) ->
  own (smem n') (chain kr ++ chain k ++ frag_chains l) F' -> ipqs n' = ipqs n ->
  let kr' := set_total (extended kr (chain k)) (data_total_len kr + length (fr_pay x)) in
  objs n' !! r = Some (mk_obj kr' rr [] None) -> (forall i, i <> r -> i <> fr_id x -> objs n' !! i = objs n !! i) ->
  (if decide (fr_id x = cur) then exists kc, objs n' !! cur = Some (single kc) /\ F' = beside (chain kc) F
   else objs n' !! fr_id x = None /\ F' = F) ->
  joined n kr x l F n' kr' F'.
Proof.
  intros [J1 J2 J3 J4 J5 J6 J7 J8 J9] [Ho1 Hl1 Hc1 Ha1 Hcn1 Hs1] Hnum Hs Hp Ho Hq kr' Hre Hoth Hcur.
  apply Forall_cons in J2 as [_ J2]. apply Forall_cons in J6 as [_ J6]. cbn [frag_nums sum_list_with] in J8, J9. fold (frag_nums l) in J8, J9.
  assert (Hsl : same_on (smem n) (smem n') (chain kr ++ frag_chains l)) by (eapply same_on_trans; [exact Hs1|]; eapply same_on_sub; [exact Hs|sublist]).
  assert (Hsr : same_on (smem n) (smem n') (chain kr)) by (eapply same_on_sub; [exact Hsl|sublist]).
  assert (Hsk : same_on m1 (smem n') (chain k)) by (eapply same_on_sub; [exact Hs|sublist]).
  assert (Hlv : live (smem n') (chain kr ++ chain k ++ frag_chains l)).
  { eapply live_same; [|exact Hs]. eapply live_perm'; [|exact Hl1]. solve_Permutation. }
  pose proof (same_on_content _ _ _ Hsk) as Hck. rewrite Hcn1 in Hck. unfold joined. split_and!; try done.
  - split; try done.
    + rewrite Forall_forall in J2 |- *. intros y Hy. rewrite Hoth; [by apply J2|..]; intros E; cbn in J7;
        apply NoDup_cons in J7 as [H1 H2]; [apply H1; right|apply NoDup_cons in H2 as [H2 _]; apply H2]; rewrite <- E; by apply list_elem_of_fmap_2.
    + change (chain kr') with (chain kr ++ chain k). by rewrite <- app_assoc.
    + change (chain kr') with (chain kr ++ chain k). by rewrite <- app_assoc.
    + eapply extended_sound; [by eapply sound_same|eapply sound_same; [exact Hsk|by split]|exact Hlv|done|lia].
    + eapply ip_objs_same; [exact Hsl|sublist|done].
    + cbn in J7. apply NoDup_cons in J7 as [H1 H2]. apply NoDup_cons in H2 as [_ H2]. apply NoDup_cons. split; [set_solver|done].
    + destruct (alive_chain m1 k Hc1 Ha1) as (_&Hnk&_). cbn in *. lia.
  - change (chain kr') with (chain kr ++ chain k). by rewrite content_app, (same_on_content _ _ _ Hsr), Hck.
Qed.

Lemma join_one_spec n kr x l F K Q : joining n kr (x :: l) F -> fr_pay x <> [] ->
  (forall n' kr' F', joined n kr x l F n' kr' F' -> nruns K n' Q) ->
  nruns (o ← get (fr_id x);
         '(_, k) ← lift (skb_consume (skb o) (length (fr_hdr x)) true);
         set_skb (fr_id x) k;;
         ro ← get r;
         if (SKB_DATA_MAX_NUM <? data_num (skb ro) + data_num k)%nat then drop_all key (fr_id x) r
         else
           ok ← copy_descriptors r (chain k);
           if negb ok then drop_all key (fr_id x) r
           else
             ro ← get r;
             set_skb r (set_total (skb ro) (data_total_len (skb ro) + length (fr_pay x)));;
             put_ref (Some (fr_id x));;
             K) n Q.
Proof.
  intros J Hp HK. pose proof J as [J1 J2 J3 J4 J5 J6 J7 J8 J9]. apply Forall_cons in J2 as [Jx J2]. apply Forall_cons in J6 as [Jix J6].
  assert (Hrx : r <> fr_id x) by (cbn in J7; apply NoDup_cons in J7 as [H _]; set_solver).
  apply nruns_bind. eapply nruns_get; [exact Jx|]. cbn [skb]. apply nruns_bind, nruns_lift.
  eapply runs_mono; [by eapply strip_spec|]. intros [c k] m1 ([Ho1 Hl1 Hc1 Ha1 Hcn1 Hs1]&Hnum&Hal1). cbn [frag_nums sum_list_with] in J8, J9.
  fold (frag_nums l) in J8, J9. apply nruns_bind. eapply nruns_set_skb; [exact Jx|]. cbn [ref frag_list element].
  apply nruns_bind. eapply nruns_get; [cbn; rewrite lookup_insert_ne by done; exact J1|]. cbn [skb].
  rewrite (proj2 (Nat.ltb_ge _ _)) by lia. apply nruns_bind.
  destruct (alive_chain m1 k Hc1 Ha1) as ([Hik _]&Hnk&_). assert (Hlk : length (chain k) = data_num k) by done.
  eapply nruns_mono; [eapply (copy_descriptors_spec r rr (chain k) _ kr (chain k ++ frag_chains l) F (frag_nums l))|].
  { cbn. rewrite lookup_insert_ne by done. exact J1. }
  { cbn [smem set_objs set_mem]. eapply own_perm; [|exact Ho1]. solve_Permutation. }
  { done. }
  { sublist. }
  { cbn [smem set_objs set_mem]. unfold plenty in *. rewrite Hal1. eapply (plenty_weak (smem n)); [|exact J9]. lia. }
  intros ok n2 (->&m2&->&Ho2&Hk2&Hp2). cbn [smem set_mem set_objs objs negb] in *.
  assert (Hi1 : Forall (inside m1) (chain kr ++ chain k ++ frag_chains l)).
  { destruct Hl1 as [[? [? ?]%Forall_app]%Forall_app _]. by repeat apply Forall_app_2. }
  apply nruns_bind. eapply nruns_get; [apply lookup_insert_eq|]. cbn [skb]. apply nruns_bind. eapply nruns_set_skb; [apply lookup_insert_eq|].
  cbn [ref frag_list element]. change (data_total_len (extended kr (chain k))) with (data_total_len kr).
  set (kr' := set_total (extended kr (chain k)) (data_total_len kr + length (fr_pay x))).
  assert (Hox : own m2 (chain k ++ chain kr ++ chain k ++ frag_chains l) F) by (eapply own_perm; [|exact Ho2]; solve_Permutation).
  apply nruns_bind. unfold refs_of. destruct (decide (fr_id x = cur)) as [Hcur|Hcur].
  - eapply nruns_put_ref_many; [cbn; rewrite !lookup_insert_ne by done; apply lookup_insert_eq|done|]. cbn [skb frag_list element].
    eapply HK. eapply (joined_intro n kr x l F k m1 _ (beside (chain k) F)); try done.
    + cbn. eapply kept_same; [exact Ho1|exact Hox|exact Hk2|done|sublist].
    + cbn. apply own_beside. eapply own_perm; [|exact Ho2]. solve_Permutation.
    + cbn. rewrite lookup_insert_ne by done. apply lookup_insert_eq.
    + intros i H1 H2. cbn. by rewrite !lookup_insert_ne by done.
    + rewrite decide_True by done. exists k. split; [|done]. cbn. rewrite <- Hcur. apply lookup_insert_eq.
  - eapply nruns_put_ref_last; [cbn; rewrite !lookup_insert_ne by done; apply lookup_insert_eq|done|cbn; exact Hox|].
    cbn [smem set_mem set_objs skb]. intros m3 Ho3 Hk3 Hal3. eapply HK. eapply (joined_intro n kr x l F k m1 _ F); try done.
    + cbn. eapply kept_same; [exact Ho1|exact Ho3|by eapply kept_trans|done|sublist].
    + cbn. unfold plenty in *. by rewrite Hal3.
    + cbn. rewrite lookup_delete_ne by done. apply lookup_insert_eq.
    + intros i H1 H2. cbn. by rewrite lookup_delete_ne, !lookup_insert_ne by done.
    + rewrite decide_False by done. split; [|done]. cbn. apply lookup_delete_eq.
Qed.

(** *** All fragments joined *)

(** The caller's packet [cur], when it is one of [l], is left with its reference. *)
Definition left_over (l : list frag) (F : nat -> nat) (n' : net) (F' : nat -> nat) : Prop :=
  if decide (cur ∈ fr_id <$> l) then exists kc, objs n' !! cur = Some (single kc) /\ F' = beside (chain kc) F else F' = F.

Record all_joined (n : net) (kr : skbuff) (l : list frag) (F : nat -> nat) (n' : net) (kr' : skbuff) (F' : nat -> nat) : Prop := {
  aj_re : objs n' !! r = Some (mk_obj kr' rr [] None);
  aj_own : own (smem n') (chain kr') F';
  aj_sound : sound (smem n') kr';
  aj_content : content (smem n') (chain kr') = content (smem n) (chain kr) ++ frag_pays l;
  aj_total : data_total_len kr' = (data_total_len kr + length (frag_pays l))%nat;
  aj_hdr : l3_hdr kr' = l3_hdr kr /\ data0 kr' = data0 kr;
  aj_queue : exists q, ipqs n' !! key = Some q /\ frag_head q = [];
  aj_queues : delete key (ipqs n') = delete key (ipqs n);
  aj_others i : i <> r -> i ∉ fr_id <$> l -> objs n' !! i = objs n !! i;
  aj_freed i : i ∈ fr_id <$> l -> i <> cur -> objs n' !! i = None;
  aj_left : left_over l F n' F'
}.

Lemma nruns_set_rest n q l (Q : unit -> net -> Prop) : ipqs n !! key = Some q ->
  Q tt (set_ipqs n (<[key := mk_ipq (total_len q) (received_len q) (last_update_time q) (last_recved q) (first_recved q) l]> (ipqs n))) ->
  nruns (set_rest key l) n Q.
Proof. intros H HQ. unfold set_rest, search_ipq. apply nruns_bind. unfold nruns at 1, gets. rewrite H. exact HQ. Qed.

Lemma joining_queues n kr l F qs : joining n kr l F -> joining (set_ipqs n qs) kr l F.
Proof. intros [J1 J2 J3 J4 J5 J6 J7 J8 J9]. by split. Qed.

Lemma hdr_of_frag n x k c (Q : list Z -> net -> Prop) : objs n !! fr_id x = Some (mk_obj k c [] None) -> ip_obj (smem n) k (fr_hdr x) (fr_pay x) ->
  Q (take 20 (fr_hdr x)) n -> nruns (ipv4_hdr_of (fr_id x)) n Q.
Proof. intros H Hi HQ. apply nruns_bind. eapply nruns_get; [exact H|]. eapply io_load; [exact Hi|apply (ip_min _ _ (io_pkt _ _ _ _ Hi))|done]. Qed.

Lemma frag_lens h pay : ip_pkt h pay -> ip_hdr_len (take 20 h) = Z.of_nat (length h) /\
  u32 (ip_tot_len (take 20 h) - ip_hdr_len (take 20 h)) = Z.of_nat (length pay) /\ Z.of_nat (length pay) <= UINT16_MAX.
Proof.
  intros [P1 P2 P3 P4]. destruct (take_hdr_fields h) as (->&->&_). assert (Hu : is_u16 (ip_tot_len h)) by apply htons_range.
  unfold is_u in Hu. rewrite P2, P3 in *. split_and!; [done| |unfold UINT16_MAX; lia]. rewrite wrap_id by (unfold is_u; lia). lia.
Qed.

Lemma frag_offset_take h : ipv4_get_frag_offset (take 20 h) = ipv4_get_frag_offset h.
Proof. unfold ipv4_get_frag_offset. by destruct (take_hdr_fields h) as (_&_&->). Qed.

Lemma all_joined_cons n kr x l F n1 kr1 F1 n' kr' F' : NoDup (r :: fr_id x :: (fr_id <$> l)) -> delete key (ipqs n1) = delete key (ipqs n) ->
  content (smem n1) (chain kr1) = content (smem n) (chain kr) ++ fr_pay x -> data_total_len kr1 = (data_total_len kr + length (fr_pay x))%nat ->
  l3_hdr kr1 = l3_hdr kr -> data0 kr1 = data0 kr -> (forall i, i <> r -> i <> fr_id x -> objs n1 !! i = objs n !! i) ->
  (if decide (fr_id x = cur) then exists kc, objs n1 !! cur = Some (single kc) /\ F1 = beside (chain kc) F
   else objs n1 !! fr_id x = None /\ F1 = F) ->
  all_joined n1 kr1 l F1 n' kr' F' -> all_joined n kr (x :: l) F n' kr' F'.
Proof.
  intros Hnd Hq Hc Ht Hl3 Hd Hoth Hlo [A1 A2 A3 A4 A5 [A6 A6'] A7 A8 A9 A10 A11]. apply NoDup_cons in Hnd as [Hr Hnd]. apply NoDup_cons in Hnd as [Hx Hnd].
  assert (Hrx : fr_id x <> r) by set_solver. split; try done.
  - rewrite A4, Hc, <- app_assoc. done.
  - rewrite A5, Ht. unfold frag_pays. rewrite bind_cons, length_app. lia.
  - split; congruence.
  - congruence.
  - intros i H1 H2. rewrite fmap_cons, not_elem_of_cons in H2. rewrite A9, Hoth; tauto.
  - intros i H1 H2. rewrite fmap_cons, elem_of_cons in H1. destruct H1 as [->|H1]; [|auto]. rewrite decide_False in Hlo by done. rewrite A9; tauto.
  - unfold left_over in *. rewrite fmap_cons. destruct (decide (fr_id x = cur)) as [<-|Hne].
    + rewrite decide_True by left. rewrite decide_False in A11 by done. destruct Hlo as (kc&Hkc&->). exists kc. split; [by rewrite A9|done].
    + destruct Hlo as [_ ->]. destruct (decide (cur ∈ fr_id <$> l)); [rewrite decide_True by (by right); done|].
      rewrite decide_False; [done|]. rewrite not_elem_of_cons. split; congruence.
Qed.

Lemma join_frags_spec l : forall n kr F expect q, joining n kr l F -> ipqs n !! key = Some q -> frag_head q = fr_id <$> l -> 0 <= expect ->
  covers (expect * 8) l -> expect * 8 + Z.of_nat (length (frag_pays l)) < 2 ^ 32 ->
  nruns (join_frags key (fr_id <$> l) (Some r) expect) n (fun res n' => res = Some (Some r) /\ exists kr' F', all_joined n kr l F n' kr' F').
Proof.
  induction l as [|x l IH]; intros n kr F expect q J Hq Hql Hexp Hcov Hmax; cbn [join_frags fmap list_fmap].
  { apply nruns_ret. split; [done|]. exists kr, F. destruct J as [J1 J2 J3 J4 J5 J6 J7 J8 J9]. rewrite app_nil_r in J3.
    split; try done; change (frag_pays []) with (@nil Z); [by rewrite app_nil_r|by exists q|by intros ? ?%not_elem_of_nil]. }
  cbn [covers] in Hcov. destruct Hcov as (C1&C2&C3&C4&C5&C6).
  apply nruns_bind. eapply nruns_set_rest; [exact Hq|]. set (n1 := set_ipqs n _). pose proof (joining_queues _ _ _ _ (<[key := mk_ipq (total_len q)
    (received_len q) (last_update_time q) (last_recved q) (first_recved q) (fr_id <$> l)]> (ipqs n)) J) as J'. fold n1 in J'.
  pose proof J' as [J1 J2 J3 J4 J5 J6 J7 J8 J9]. apply Forall_cons in J2 as [Jx J2]. apply Forall_cons in J6 as [Jix J6].
  apply nruns_bind. eapply hdr_of_frag; [exact Jx|exact Jix|]. rewrite frag_offset_take, (proj2 (Z.eqb_eq _ _)) by lia. cbn [negb].
  destruct (frag_lens _ _ (io_pkt _ _ _ _ Jix)) as (L1&L2&L3). rewrite L2, L1, !Nat2Z.id.
  eapply join_one_spec; [exact J'|done|]. intros n2 kr2 F2 (J2'&Hc2&Ht2&Hl3&Hd0&Hqs&Hoth&Hlo). 
  eapply nruns_mono; [eapply (IH n2 kr2 F2 _ _ J2')|].
  - rewrite Hqs. apply lookup_insert_eq.
  - done.
  - apply wrap_range. lia.
  - destruct l as [|y l]; [done|]. specialize (C5 ltac:(done)). rewrite wrap_id by (unfold is_u, UINT16_MAX in *; zlia).
    replace ((expect + Z.of_nat (length (fr_pay x)) / 8) * 8) with (expect * 8 + Z.of_nat (length (fr_pay x))) by zlia. done.
  - rewrite frag_pays_cons, length_app in Hmax. rewrite wrap_id by (unfold is_u, UINT16_MAX in *; zlia). zlia.
  - intros res n3 (->&kr3&F3&A3). split; [done|]. exists kr3, F3.
    eapply (all_joined_cons n kr x l F n2 kr2 F2); try done. rewrite Hqs. apply delete_insert_eq.
Qed.
End join.

(** *** The end of a reassembly *)

Lemma nruns_search key n (Q : option ipq -> net -> Prop) : Q (ipqs n !! key) n -> nruns (search_ipq key) n Q.
Proof. done. Qed.

Lemma destroy_empty key n q (Q : unit -> net -> Prop) : ipqs n !! key = Some q -> frag_head q = [] ->
  Q tt (set_ipqs n (delete key (ipqs n))) -> nruns (destroy_ipq key) n Q.
Proof. intros Hq Hl HQ. apply nruns_bind, nruns_search. rewrite Hq. apply nruns_bind. unfold nruns at 1, modify. rewrite Hl. exact HQ. Qed.

(** A whole packet: bytes, flag and protocol set. *)
Record whole (m : mem) (k : skbuff) (h pay : list Z) : Prop := {
  wh_sound : sound m k;
  wh_l3 : l3_hdr k = skb_start k;
  wh_len : (length h <= skb_data0_len k)%nat;
  wh_content : content m (chain k) = h ++ pay;
  wh_flag : is_defrag (flag k) = true;
  wh_proto : protocol (meta k) = fld8 h 9
}.

Lemma finish_defrag_spec key r rr n kr q F h pay : objs n !! r = Some (mk_obj kr rr [] None) -> ipqs n !! key = Some q -> frag_head q = [] ->
  own (smem n) (chain kr) F -> sound (smem n) kr -> l3_hdr kr = skb_start kr -> (20 <= length h <= skb_data0_len kr)%nat ->
  ip_hdr_len h = Z.of_nat (length h) -> content (smem n) (chain kr) = h ++ pay ->
  nruns (finish_defrag key r) n (fun res n' => res = Some r /\ exists kr',
    objs n' = <[r := mk_obj kr' rr [] None]> (objs n) /\ ipqs n' = delete key (ipqs n) /\ own (smem n') (chain kr') F /\
    next_obj n' = next_obj n /\ data0 kr' = data0 kr /\
    whole (smem n') kr' (rewritten h 0 (htons (u16 (Z.of_nat (length h + length pay))))) pay).
Proof.
  intros Hr Hq Hfl Ho Hs Hl3 [Hh Hd] Hihl Hcn. destruct (alive_chain _ kr (proj1 Hs) (proj2 Hs)) as (Hlv&_).
  assert (Ht : data_total_len kr = (length h + length pay)%nat) by (rewrite <- (chain_content (smem n)), Hcn, length_app by apply Hs; done).
  pose proof (Forall_inv (proj1 Hlv)) as Hd0. apply nruns_bind. eapply nruns_get; [exact Hr|]. cbn [skb].
  apply nruns_bind. rewrite Hl3. apply load_start; [done|lia|]. rewrite Hcn, take_app_le by lia.
  destruct (take_hdr_fields h) as (->&_). rewrite Hihl, Nat2Z.id. apply nruns_bind. apply load_start; [done|done|].
  rewrite Hcn, take_app_length. apply nruns_bind. rewrite rewrite_header_some. apply nruns_ret. rewrite Ht.
  set (h' := rewritten _ _ _). assert (Hh' : length h' = length h) by by apply length_rewritten.
  apply nruns_bind. apply (store_start n kr [] F); rewrite ?app_nil_r; [done|done|apply Hs|apply Hs|lia|].
  intros m1 [Ho1 Hl1 Hc1 Ha1 Hcn1 _]. rewrite app_nil_r in *. rewrite Hcn, Hh', drop_app_length in Hcn1.
  apply nruns_bind. eapply nruns_set_skb; [exact Hr|]. cbn [ref frag_list element]. apply nruns_bind.
  eapply destroy_empty; [exact Hq|done|]. apply nruns_ret. split; [done|]. exists (as_defrag kr (fld8 h' 9)).
  split_and!; try done. fold h'. split; [by eapply (sound_same_data m1 kr); [..|split]|done|rewrite Hh'; exact Hd|done..].
Qed.

(** *** The fragment that completes the packet *)

Section complete.
Context (key : ipq_key) (f0 : frag) (l : list frag) (cur : nat) (F : nat -> nat).
Abbreviation r := (fr_id f0).
Abbreviation frs := (f0 :: l).

Lemma join_complete n q : NoDup (fr_id <$> frs) -> ipqs n !! key = Some q -> frag_head q = fr_id <$> frs ->
  Forall (fun x => objs n !! fr_id x = Some (mk_obj (fr_skb x) (refs_of cur (fr_id x)) [] None)) frs ->
  own (smem n) (frag_chains frs) F -> live (smem n) (frag_chains frs) ->
  Forall (fun x => ip_obj (smem n) (fr_skb x) (fr_hdr x) (fr_pay x)) frs ->
  covers 0 frs -> Z.of_nat (length (frag_pays frs)) < 2 ^ 32 -> (frag_nums frs <= SKB_DATA_MAX_NUM)%nat -> plenty (smem n) (frag_nums frs) ->
  nruns (join_frags key (fr_id <$> frs) None 0) n (fun res n' => res = Some (Some r) /\
    exists kr F', all_joined key r (refs_of cur r) cur n (fr_skb f0) l F n' kr F').
Proof.
  intros Hnd Hq Hfh Hobj Ho Hl Hip Hcov Hmax Hnum Hpl. apply Forall_cons in Hobj as [H0 Hobj]. apply Forall_cons in Hip as [Hi0 Hip].
  cbn [covers] in Hcov. destruct Hcov as (C1&C2&C3&C4&C5&C6). rewrite frag_pays_cons, length_app in Hmax.
  cbn [join_frags fmap list_fmap]. apply nruns_bind. eapply nruns_set_rest; [exact Hq|]. set (n1 := set_ipqs n _).
  apply nruns_bind. eapply (hdr_of_frag n1); [exact H0|exact Hi0|]. destruct (frag_lens _ _ (io_pkt _ _ _ _ Hi0)) as (L1&L2&L3). rewrite L2.
  assert (J : joining r (refs_of cur r) cur n1 (fr_skb f0) l F).
  { split; try done; [apply Hi0|]. eapply (plenty_weak (smem n)); [|exact Hpl]. unfold frag_nums. cbn [sum_list_with]. lia. }
  eapply nruns_mono; [eapply (join_frags_spec key r (refs_of cur r) cur l n1 (fr_skb f0) F); [exact J|apply lookup_insert_eq|done|zlia|..]|].
  - destruct l as [|y l']; [done|]. specialize (C5 ltac:(done)). replace (Z.of_nat (length (fr_pay f0)) / 8 * 8) with (Z.of_nat (length (fr_pay f0))) by zlia. done.
  - zlia.
  - intros res n' (->&kr&F'&A). split; [done|]. exists kr, F'. destruct A as [A1 A2 A3 A4 A5 A6 A7 A8 A9 A10 A11]. split; try done.
    rewrite A8. cbn. apply delete_insert_eq.
Qed.
End complete.

(** *** Waiting for fragments *)

Abbreviation offset_of x := (ipv4_get_frag_offset (fr_hdr x)).

(** Sorted insertion by offset. *)
Fixpoint insert_by_offset (x : frag) (l : list frag) : list frag :=
  match l with
  | [] => [x]
  | y :: l' => if offset_of x <? offset_of y then x :: l else y :: insert_by_offset x l'
  end.

Lemma insert_frag_spec n x l c : objs n !! fr_id x = Some (mk_obj (fr_skb x) c [] None) -> ip_obj (smem n) (fr_skb x) (fr_hdr x) (fr_pay x) ->
  Forall (fun y => exists cy, objs n !! fr_id y = Some (mk_obj (fr_skb y) cy [] None)) l ->
  Forall (fun y => ip_obj (smem n) (fr_skb y) (fr_hdr y) (fr_pay y)) l -> Forall (fun y => offset_of y <> offset_of x) l ->
  insert_frag (fr_id x) (fr_id <$> l) n = Some (Some (fr_id <$> insert_by_offset x l), n).
Proof.
  intros Hx Hix. induction l as [|y l IH]; [done|]. rewrite !Forall_cons. intros [[cy Hy] Hl] [Hiy Hil] [Hne Hnes]. cbn [insert_frag fmap list_fmap insert_by_offset].
  assert (Ly : ipv4_hdr_of (fr_id y) n = Some (take 20 (fr_hdr y), n)).
  { pose proof (hdr_of_frag n y _ _ (fun a n' => a = take 20 (fr_hdr y) /\ n' = n) Hy Hiy ltac:(done)) as H. unfold nruns in H.
    destruct (ipv4_hdr_of (fr_id y) n) as [[a n']|]; [|done]. by destruct H as [-> ->]. }
  assert (Lx : ipv4_hdr_of (fr_id x) n = Some (take 20 (fr_hdr x), n)).
  { pose proof (hdr_of_frag n x _ _ (fun a n' => a = take 20 (fr_hdr x) /\ n' = n) Hx Hix ltac:(done)) as H. unfold nruns in H.
    destruct (ipv4_hdr_of (fr_id x) n) as [[a n']|]; [|done]. by destruct H as [-> ->]. }
  unfold mbind, NM_bind. rewrite Ly, Lx. unfold skb_offset_cmp. rewrite !frag_offset_take.
  destruct (Z.ltb_spec (offset_of y) (offset_of x)) as [Hlt|Hge].
  - rewrite (proj2 (Z.ltb_ge (offset_of x) _)) by lia. cbn. rewrite IH by done. done.
  - rewrite (proj2 (Z.ltb_lt (offset_of x) _)) by lia. done.
Qed.

(** *** Where the fragments are *)

Lemma covers_lower off l x : covers off l -> x ∈ l -> off <= offset_of x * 8.
Proof.
  revert off. induction l as [|y l IH]; intros off; [by intros _ ?%not_elem_of_nil|]. cbn [covers].
  intros (C1&C2&_&_&_&C6) [->|Hx]%elem_of_cons; [lia|]. specialize (IH _ C6 Hx). lia.
Qed.

Lemma covers_tail off y l x : covers off (y :: l) -> x ∈ l -> offset_of y < offset_of x.
Proof.
  cbn [covers]. intros (C1&C2&_&_&_&C6) Hx. pose proof (covers_lower _ _ _ C6 Hx).
  assert (0 < length (fr_pay y))%nat by (destruct (fr_pay y); [done|cbn; lia]). lia.
Qed.

Lemma covers_inj off l x y : covers off l -> NoDup (fr_id <$> l) -> x ∈ l -> y ∈ l -> offset_of x = offset_of y -> x = y.
Proof.
  revert off. induction l as [|z l IH]; intros off Hc Hnd Hx Hy E; [by apply not_elem_of_nil in Hx|].
  apply elem_of_cons in Hx as [->|Hx], Hy as [->|Hy]; [done|..].
  - pose proof (covers_tail _ _ _ _ Hc Hy). lia.
  - pose proof (covers_tail _ _ _ _ Hc Hx). lia.
  - cbn [covers] in Hc. destruct Hc as (_&_&_&_&_&Hc). cbn in Hnd. apply NoDup_cons in Hnd as [_ Hnd]. by eapply IH.
Qed.

(** The fragments of [l] that have arrived. *)
Definition arrived (D : list nat) (l : list frag) : list frag := filter (fun x => fr_id x ∈ D) l.

Lemma arrived_skip i D l : i ∉ fr_id <$> l -> arrived (i :: D) l = arrived D l.
Proof.
  unfold arrived. induction l as [|y l IH]; [done|]. rewrite fmap_cons, not_elem_of_cons. intros [Hy Hl]. rewrite !filter_cons, IH by done.
  destruct (decide (fr_id y ∈ D)); [by rewrite decide_True by (by right)|]. rewrite decide_False; [done|]. rewrite not_elem_of_cons. split; congruence.
Qed.

Lemma arrived_nil l : arrived [] l = [].
Proof. unfold arrived. induction l as [|y l IH]; [done|]. by rewrite filter_cons, decide_False by apply not_elem_of_nil. Qed.

Lemma arrived_all D l : Forall (fun x => fr_id x ∈ D) l -> arrived D l = l.
Proof. unfold arrived. induction 1 as [|y l Hy Hl IH]; [done|]. by rewrite filter_cons_True, IH. Qed.

Lemma insert_first x l : Forall (fun y => offset_of x < offset_of y) l -> insert_by_offset x l = x :: l.
Proof. destruct 1 as [|y l Hy _]; [done|]. cbn. by rewrite (proj2 (Z.ltb_lt _ _)). Qed.

Lemma insert_arrived off l x D : covers off l -> NoDup (fr_id <$> l) -> x ∈ l -> fr_id x ∉ D ->
  insert_by_offset x (arrived D l) = arrived (fr_id x :: D) l.
Proof.
  revert off. induction l as [|y l IH]; intros off Hc Hnd Hx HD; [by apply not_elem_of_nil in Hx|].
  pose proof Hc as (_&_&_&_&_&Hc'). pose proof Hnd as [Hy Hnd']%NoDup_cons. unfold arrived in *. rewrite !filter_cons.
  destruct (decide (fr_id y = fr_id x)) as [E|Hne].
  - assert (y = x) as ->.
    { apply elem_of_cons in Hx as [->|Hx]; [done|]. exfalso. apply Hy. rewrite E. by apply list_elem_of_fmap_2. }
    rewrite decide_False by done. rewrite (decide_True (P := fr_id x ∈ fr_id x :: D)) by left.
    rewrite insert_first.
    + f_equal. symmetry. by apply arrived_skip.
    + apply Forall_forall. intros z [_ Hz]%list_elem_of_filter. by eapply covers_tail.
  - apply elem_of_cons in Hx as [->|Hx]; [done|]. rewrite <- (IH _ Hc' Hnd' Hx HD).
    destruct (decide (fr_id y ∈ D)) as [Hin|Hin].
    + rewrite decide_True by (by right). cbn [insert_by_offset]. pose proof (covers_tail _ _ _ _ Hc Hx). by rewrite (proj2 (Z.ltb_ge _ _)) by lia.
    + rewrite decide_False; [done|]. rewrite not_elem_of_cons. done.
Qed.

(** *** The queue for the fragments that have arrived *)

Definition has_last (l : list frag) : bool := existsb (fun x => negb (ipv4_get_flag_mf (fr_hdr x))) l.
Definition has_first (l : list frag) : bool := existsb (fun x => offset_of x =? 0) l.

Definition queue_of (t total : Z) (l : list frag) : ipq :=
  mk_ipq (if has_last l then total else 0) (Z.of_nat (length (frag_pays l))) t (has_last l) (has_first l) (fr_id <$> l).

Lemma insert_perm x l : insert_by_offset x l ≡ₚ x :: l.
Proof.
  induction l as [|y l IH]; [done|]. cbn. destruct (offset_of x <? offset_of y); [done|]. rewrite IH. apply Permutation_swap.
Qed.

Lemma existsb_perm (p : frag -> bool) l l' : l ≡ₚ l' -> existsb p l = existsb p l'.
Proof. induction 1; cbn; [done|congruence|by rewrite !orb_assoc, (orb_comm (p y))|congruence]. Qed.

Lemma pays_perm l l' : l ≡ₚ l' -> length (frag_pays l) = length (frag_pays l').
Proof. induction 1; rewrite ?frag_pays_cons, ?length_app; [done|lia..|congruence]. Qed.

(** The last fragment ends the payload; nothing else sets the total. *)
Lemma covers_last off l x : covers off l -> x ∈ l -> ipv4_get_flag_mf (fr_hdr x) = false ->
  offset_of x * 8 + Z.of_nat (length (fr_pay x)) = off + Z.of_nat (length (frag_pays l)).
Proof.
  revert off. induction l as [|y l IH]; intros off; [by intros _ ?%not_elem_of_nil|]. cbn [covers]. rewrite frag_pays_cons, length_app.
  intros (C1&_&_&C4&_&C6) [->|Hx]%elem_of_cons Hmf.
  - rewrite Hmf in C4. destruct l; [cbn; lia|]. rewrite bool_decide_true in C4; done.
  - specialize (IH _ C6 Hx Hmf). lia.
Qed.

Lemma covers_ends off l : covers off l -> l <> [] -> has_last l = true.
Proof.
  unfold has_last. revert off. induction l as [|y l IH]; intros off; [done|]. cbn [covers]. intros (_&_&_&C4&_&C6) _. cbn. destruct l as [|z l].
  - by rewrite C4.
  - apply orb_true_iff. right. by eapply IH.
Qed.

Lemma arrived_le D l : (length (frag_pays (arrived D l)) <= length (frag_pays l))%nat.
Proof.
  induction l as [|y l IH]; [done|]. unfold arrived in *. rewrite filter_cons. destruct (decide _); rewrite !frag_pays_cons, !length_app; lia.
Qed.

Lemma arrived_short off l D x : covers off l -> x ∈ l -> fr_id x ∉ D -> (length (frag_pays (arrived D l)) < length (frag_pays l))%nat.
Proof.
  intros Hc Hx HD. revert off Hc Hx. induction l as [|y l IH]; intros off Hc Hx; [by apply not_elem_of_nil in Hx|]. pose proof Hc as (_&C2&_&_&_&C6).
  pose proof (arrived_le D l) as Hle. unfold arrived in *. rewrite filter_cons, frag_pays_cons, length_app. apply elem_of_cons in Hx as [->|Hx].
  - rewrite decide_False by done. destruct (fr_pay y); [done|]. cbn. lia.
  - specialize (IH _ C6 Hx). destruct (decide _); rewrite ?frag_pays_cons, ?length_app; lia.
Qed.

(** *** Arrival *)

(** A packet handed to reassembly by the receive path, which then drops its own
    reference. *)
Definition hand_over (id : nat) : NM (option nat) := r ← ipv4_defrag id; put_ref (Some id);; mret r.

Fixpoint hand_over_all (ids : list nat) : NM (list (option nat)) :=
  match ids with
  | [] => mret []
  | id :: ids => r ← hand_over id; rs ← hand_over_all ids; mret (r :: rs)
  end.

Definition key_of (h : list Z) : ipq_key := (ntohs (fld16 h 4), fld32 h 12, fld32 h 16, fld8 h 9).

Lemma key_of_take h : key_of (take 20 h) = key_of h.
Proof. unfold key_of, fld32. by rewrite !fld16_take, fld8_take by lia. Qed.

Lemma key_of_frag_header h off mf len : (20 <= length h)%nat -> key_of (frag_header h off mf len) = key_of h.
Proof. intros Hh. unfold key_of, fld32, fld16. by rewrite !(frag_header_fld8 h off mf len Hh) by compute_done. Qed.

Lemma flags_take h : ipv4_get_flag_mf (take 20 h) = ipv4_get_flag_mf h /\ ipv4_get_flag_df (take 20 h) = ipv4_get_flag_df h.
Proof. unfold ipv4_get_flag_mf, ipv4_get_flag_df. by destruct (take_hdr_fields h) as (_&_&->). Qed.

(** A packet object that holds [h ++ pay]; its header pointer may not be set yet. *)
Record holds (m : mem) (k : skbuff) (h pay : list Z) : Prop := {
  hd_sound : sound m k;
  hd_len : (length h <= skb_data0_len k)%nat;
  hd_pkt : ip_pkt h pay;
  hd_content : content m (chain k) = h ++ pay
}.

Definition ptr (k : skbuff) : Prop := l3_hdr k = skb_start k.

Lemma holds_obj m k h pay : holds m k h pay -> ptr k -> ip_obj m k h pay.
Proof. intros [H1 H2 H3 H4] Hp. by split. Qed.

Lemma obj_holds m k h pay : ip_obj m k h pay -> holds m k h pay /\ ptr k.
Proof. intros [H1 H2 H3 H4 H5]. by split. Qed.

Lemma holds_slots m m' k h pay : slots m' = slots m -> holds m k h pay -> holds m' k h pay.
Proof. intros Hs [[Hc Ha] H2 H3 H4]. destruct (same_chain_ok m m' k Hs Hc) as [Hc' Hcn]. split; try done. by rewrite Hcn. Qed.

(** All fragments of a packet, waiting to be received. *)
Record fragment_set (key : ipq_key) (frs : list frag) (n : net) (f : nat -> nat) : Prop := {
  fs_ids : NoDup (fr_id <$> frs);
  fs_key : Forall (fun x => key_of (fr_hdr x) = key) frs;
  fs_objs : Forall (fun x => objs n !! fr_id x = Some (single (fr_skb x))) frs;
  fs_own : own (smem n) (frag_chains frs) f;
  fs_live : live (smem n) (frag_chains frs);
  fs_ip : Forall (fun x => holds (smem n) (fr_skb x) (fr_hdr x) (fr_pay x)) frs;
  fs_covers : covers 0 frs;
  fs_some : frs <> [];
  fs_num : (frag_nums frs <= SKB_DATA_MAX_NUM)%nat
}.

Section arrival.
Context (key : ipq_key) (frs : list frag) (f : nat -> nat) (n0 : net).
Hypothesis (Hset : fragment_set key frs n0 f) (Hq0 : ipqs n0 !! key = None).

Abbreviation T := (Z.of_nat (length (frag_pays frs))).

Lemma total_bound : T < 2 ^ 17.
Proof.
  destruct Hset as [_ _ _ _ _ Hip Hc Hne _]. pose proof (covers_ends _ _ Hc Hne) as Hl. unfold has_last in Hl.
  apply existsb_exists in Hl as (x&Hx%list_elem_of_In&Hmf%negb_true_iff). pose proof (covers_last _ _ _ Hc Hx Hmf) as E.
  rewrite Forall_forall in Hip. destruct (frag_lens _ _ (hd_pkt _ _ _ _ (Hip x Hx))) as (_&_&Hp).
  assert (Ho : offset_of x < 8192).
  { unfold ipv4_get_frag_offset. change IPV4_FRAG_OFF_MASK with (Z.ones 13). rewrite Z.land_ones by lia. apply Z.mod_pos_bound. lia. }
  unfold UINT16_MAX in *. lia.
Qed.

(** The state when the fragments [D] have arrived and others have not. *)
Definition waiting (D : list nat) (n : net) : Prop :=
  Forall (fun x => fr_id x ∈ D -> ptr (fr_skb x)) frs /\ exists m, slots m = slots (smem n0) /\ next_slot m = next_slot (smem n0) /\ full_size m = full_size (smem n0) /\
    plenty m (frag_nums frs + if decide (D = []) then 1 else 0)%nat /\
    n = set_ipqs (set_mem n0 m) (if decide (D = []) then ipqs n0 else <[key := queue_of (u32 (now n0)) T (arrived D frs)]> (ipqs n0)).

(** The queue found or made. *)
Lemma find_queue D n : waiting D n ->
  nruns (q ← search_ipq key; match q with Some q => mret (Some q) | None => create_ipq key end) n (fun q n' =>
    q = Some (queue_of (u32 (now n0)) T (arrived D frs)) /\ exists m, slots m = slots (smem n0) /\ next_slot m = next_slot (smem n0) /\
      full_size m = full_size (smem n0) /\ plenty m (frag_nums frs) /\
      n' = set_ipqs (set_mem n0 m) (<[key := queue_of (u32 (now n0)) T (arrived D frs)]> (ipqs n0))).
Proof.
  intros (_&m&Hs&Hn&Hf&Hp&->). apply nruns_bind, nruns_search. cbn [ipqs set_ipqs]. destruct (decide (D = [])) as [->|HD].
  - rewrite Hq0. unfold create_ipq. apply nruns_bind, nruns_lift. cbn [smem set_ipqs set_mem].
    eapply plenty_alloc; [rewrite Nat.add_1_r in Hp; exact Hp|]. intros m1 Hs1 Hn1 Hf1 Hp1. cbn [negb].
    apply nruns_bind. unfold nruns at 1, gets. apply nruns_bind, nruns_search. cbn [ipqs set_mem set_ipqs]. rewrite Hq0.
    apply nruns_bind. unfold nruns at 1, set_ipq, modify. apply nruns_ret. rewrite arrived_nil. split; [done|]. exists m1.
    split_and!; try done; congruence.
  - rewrite lookup_insert_eq. apply nruns_ret. split; [done|]. exists m. rewrite Nat.add_0_r in Hp. split_and!; done.
Qed.

Lemma covers_in off l x : covers off l -> x ∈ l -> ipv4_get_flag_df (fr_hdr x) = false /\
  (ipv4_get_flag_mf (fr_hdr x) = true -> Z.of_nat (length (fr_pay x)) mod 8 = 0).
Proof.
  revert off. induction l as [|y l IH]; intros off; [by intros _ ?%not_elem_of_nil|]. cbn [covers].
  intros (_&_&C3&C4&C5&C6) [->|Hx]%elem_of_cons; [|by eapply IH]. split; [done|]. rewrite C4. intros H%bool_decide_eq_true. auto.
Qed.

(** The queue with one more fragment. *)
Lemma queue_step D x : x ∈ frs -> fr_id x ∉ D ->
  let q := queue_of (u32 (now n0)) T (arrived D frs) in
  let mf := ipv4_get_flag_mf (fr_hdr x) in
  mk_ipq (if mf then total_len q else u32 (offset_of x * 8 + Z.of_nat (length (fr_pay x)))) (u32 (received_len q + Z.of_nat (length (fr_pay x))))
    (last_update_time q) (if mf then last_recved q else true) (if offset_of x =? 0 then true else first_recved q)
    (fr_id <$> insert_by_offset x (arrived D frs)) = queue_of (u32 (now n0)) T (arrived (fr_id x :: D) frs).
Proof.
  intros Hx HD q mf. pose proof total_bound as HT. destruct Hset as [Hnd _ _ _ _ _ Hc _ _].
  pose proof (insert_arrived _ _ _ _ Hc Hnd Hx HD) as Hins. pose proof (insert_perm x (arrived D frs)) as Hp. rewrite Hins in Hp |- *.
  pose proof (arrived_le (fr_id x :: D) frs) as Hle. unfold queue_of. pose proof (pays_perm _ _ Hp) as Hlen. rewrite frag_pays_cons, length_app in Hlen.
  unfold has_last, has_first in *. rewrite (existsb_perm (fun x => negb (ipv4_get_flag_mf (fr_hdr x))) _ _ Hp), (existsb_perm (fun x => offset_of x =? 0) _ _ Hp).
  unfold q. cbn [existsb total_len received_len last_recved first_recved last_update_time queue_of]. fold mf.
  assert (E : u32 (Z.of_nat (length (frag_pays (arrived D frs))) + Z.of_nat (length (fr_pay x))) =
    Z.of_nat (length (frag_pays (arrived (fr_id x :: D) frs)))) by (rewrite wrap_id by (unfold is_u; lia); lia). rewrite E.
  destruct mf eqn:Emf; cbn [negb orb]; [by destruct (offset_of x =? 0)|].
  pose proof (covers_last _ _ _ Hc Hx Emf) as H. rewrite H, Z.add_0_l, wrap_id by (unfold is_u; lia). by destruct (offset_of x =? 0).
Qed.

Lemma nruns_assoc {A B C} (c : NM A) (g : A -> NM B) (k : B -> NM C) n Q :
  nruns (x ← (a ← c; g a); k x) n Q -> nruns (a ← c; x ← g a; k x) n Q.
Proof. unfold nruns, mbind, NM_bind. by destruct (c n) as [[a n']|]. Qed.

Definition same_mem (m : mem) : Prop :=
  slots m = slots (smem n0) /\ next_slot m = next_slot (smem n0) /\ full_size m = full_size (smem n0) /\ plenty m (frag_nums frs).

(** The state when [x] is in the queue, with the queue's reference and the caller's. *)
Definition queued (x : frag) (q : ipq) (m : mem) : net :=
  set_ipqs (set_objs (set_mem n0 m) (<[fr_id x := mk_obj (fr_skb x) 2 [] None]> (objs n0))) (<[key := q]> (ipqs n0)).

Lemma enqueue D n x Q : waiting D n -> x ∈ frs -> ptr (fr_skb x) -> fr_id x ∉ D ->
  (forall m, same_mem m -> let q := queue_of (u32 (now n0)) T (arrived (fr_id x :: D) frs) in
     nruns (complete_ipq key q) (queued x q m) Q) ->
  nruns (ipv4_defrag (fr_id x)) n Q.
Proof.
  intros Hw Hx Hpx HD HQ. pose proof Hset as [Hnd Hk Hob _ _ Hip Hc _ _]. rewrite Forall_forall in Hk, Hob, Hip.
  pose proof Hw as (Hpt&m0&Hs0&_&_&_&En). rewrite Forall_forall in Hpt. unfold ipv4_defrag. apply nruns_bind.
  assert (Hx0 : objs n !! fr_id x = Some (single (fr_skb x))) by (subst n; by apply Hob).
  assert (Hi0 : ip_obj (smem n) (fr_skb x) (fr_hdr x) (fr_pay x)) by (subst n; apply holds_obj; [|done]; eapply holds_slots; [exact Hs0|by apply Hip]).
  eapply hdr_of_frag; [exact Hx0|exact Hi0|]. destruct (frag_lens _ _ (io_pkt _ _ _ _ Hi0)) as (L1&L2&L3). destruct (flags_take (fr_hdr x)) as [-> ->].
  fold (key_of (take 20 (fr_hdr x))). rewrite L2, frag_offset_take, key_of_take, (Hk x Hx). destruct (covers_in _ _ _ Hc Hx) as [-> Hmod].
  rewrite orb_false_r. replace (ipv4_get_flag_mf (fr_hdr x) && negb (Z.land (Z.of_nat (length (fr_pay x))) 7 =? 0)) with false.
  2:{ symmetry. destruct (ipv4_get_flag_mf (fr_hdr x)); [|done]. change 7 with (Z.ones 3). rewrite Z.land_ones by lia. change (2 ^ 3) with 8. by rewrite (Hmod eq_refl). }
  apply nruns_assoc, nruns_bind. eapply nruns_mono; [by apply find_queue|]. intros q n1 (->&m&Hs&Hn&Hf&Hp&->). apply nruns_bind.
  assert (Hx1 : objs n0 !! fr_id x = Some (single (fr_skb x))) by by apply Hob.
  eapply nruns_inc_ref; [exact Hx1|]. cbn [skb ref frag_list element single]. apply nruns_bind. unfold nruns at 1. cbn [frag_head queue_of].
  rewrite (insert_frag_spec _ x (arrived D frs) 2); cbn [objs smem set_objs set_ipqs set_mem].
  - apply nruns_bind. unfold nruns at 1, set_ipq, modify. pose proof (queue_step D x Hx HD) as E. cbn in E. cbn. rewrite E. rewrite insert_insert_eq.
    apply HQ. by split_and!.
  - apply lookup_insert_eq.
  - apply holds_obj; [|done]. eapply holds_slots; [exact Hs|by apply Hip].
  - apply Forall_forall. intros y [HyD Hy]%list_elem_of_filter. exists 1%nat.
    rewrite lookup_insert_ne by (intros E; apply HD; by rewrite E). by apply Hob.
  - apply Forall_forall. intros y [HyD Hy]%list_elem_of_filter. apply holds_obj; [|by apply Hpt]. eapply holds_slots; [exact Hs|by apply Hip].
  - apply Forall_forall. intros y [HyD Hy]%list_elem_of_filter E. assert (y = x) as -> by by eapply covers_inj. done.
Qed.

Lemma NoDup_fmap_inj (g : frag -> nat) l x y : NoDup (g <$> l) -> x ∈ l -> y ∈ l -> g x = g y -> x = y.
Proof.
  induction l as [|z l IH]; [by intros _ ?%not_elem_of_nil|]. rewrite fmap_cons. intros [Hz Hnd]%NoDup_cons Hx Hy E.
  apply elem_of_cons in Hx as [->|Hx], Hy as [->|Hy]; [done|..|by apply IH].
  - exfalso. apply Hz. rewrite E. by apply list_elem_of_fmap_2.
  - exfalso. apply Hz. rewrite <- E. by apply list_elem_of_fmap_2.
Qed.

Lemma live_slots m m' l : slots m' = slots m -> live m l -> live m' l.
Proof. intros Hs [Hi Hn]. split; [|done]. eapply Forall_impl; [exact Hi|]. intros d. unfold inside. by rewrite Hs. Qed.

(** *** A fragment that is not the last to arrive *)

Lemma waiting_ptr D n x : waiting D n -> x ∈ frs -> ptr (fr_skb x) -> Forall (fun y => fr_id y ∈ fr_id x :: D -> ptr (fr_skb y)) frs.
Proof.
  intros [Hp _] Hx Hpx. rewrite Forall_forall in Hp |- *. intros y Hy [E|Hin]%elem_of_cons; [|by apply Hp].
  by rewrite (NoDup_fmap_inj fr_id frs y x (fs_ids _ _ _ _ Hset) Hy Hx E).
Qed.

Lemma hand_over_waits D n x y : waiting D n -> x ∈ frs -> ptr (fr_skb x) -> fr_id x ∉ D -> y ∈ frs -> fr_id y ∉ fr_id x :: D ->
  nruns (hand_over (fr_id x)) n (fun r n' => r = None /\ waiting (fr_id x :: D) n').
Proof.
  intros Hw Hx Hpx HD Hy HyD. pose proof Hset as [Hnd Hk Hob _ _ Hip Hc _ _]. rewrite Forall_forall in Hob. apply nruns_bind.
  apply (enqueue D n x); [done..|]. intros m (Hs&Hn&Hf&Hp) q. pose proof (arrived_short _ _ _ _ Hc Hy HyD) as Hlt.
  unfold complete_ipq. replace (first_recved q && last_recved q && (total_len q <=? received_len q)) with false.
  2:{ symmetry. unfold q, queue_of. cbn [first_recved last_recved total_len received_len]. destruct (has_last _); [|by rewrite andb_false_r].
      rewrite (proj2 (Z.leb_gt _ _)) by lia. apply andb_false_r. }
  cbn [negb]. apply nruns_ret. apply nruns_bind. eapply nruns_put_ref_many; [apply lookup_insert_eq|done|]. cbn [skb frag_list element].
  apply nruns_ret. split; [done|]. split; [by apply (waiting_ptr D n)|]. exists m. rewrite decide_False by done. rewrite Nat.add_0_r. split_and!; [done..|].
  unfold queued. cbn [objs set_objs set_ipqs]. rewrite insert_insert_eq, (insert_id (objs n0) (fr_id x) (mk_obj (fr_skb x) 1 [] None)) by by apply Hob. by destruct n0.
Qed.

(** *** The last one *)

Definition reassembled (f0 : frag) (l : list frag) (n : net) : Prop :=
  exists kr, objs n !! fr_id f0 = Some (single kr) /\ own (smem n) (chain kr) f /\
    whole (smem n) kr (rewritten (fr_hdr f0) 0 (htons (u16 (Z.of_nat (length (fr_hdr f0)) + T)))) (frag_pays frs) /\
    ipqs n = ipqs n0 /\ (forall i, i ∈ fr_id <$> l -> objs n !! i = None) /\ (forall i, i ∉ fr_id <$> frs -> objs n !! i = objs n0 !! i).

Lemma queue_complete f0 l t : covers 0 (f0 :: l) -> let q := queue_of t (Z.of_nat (length (frag_pays (f0 :: l)))) (f0 :: l) in
  first_recved q && last_recved q && (total_len q <=? received_len q) = true /\ (received_len q =? total_len q) = true.
Proof.
  intros Hc q. unfold q, queue_of. cbn [first_recved last_recved total_len received_len]. rewrite (covers_ends _ _ Hc) by done.
  split; [|apply Z.eqb_refl]. destruct Hc as (C1&_). unfold has_first. cbn [existsb]. rewrite (proj2 (Z.eqb_eq (offset_of f0) 0)) by lia.
  cbn [orb andb]. apply Z.leb_refl.
Qed.

Lemma complete_last f0 l x m : frs = f0 :: l -> x ∈ frs -> Forall (fun y => ptr (fr_skb y)) frs -> same_mem m ->
  nruns (complete_ipq key (queue_of (u32 (now n0)) T frs)) (queued x (queue_of (u32 (now n0)) T frs) m) (fun r n' => r = Some (fr_id f0) /\
    exists kr F', objs n' !! fr_id f0 = Some (mk_obj kr (refs_of (fr_id x) (fr_id f0)) [] None) /\ own (smem n') (chain kr) F' /\
      whole (smem n') kr (rewritten (fr_hdr f0) 0 (htons (u16 (Z.of_nat (length (fr_hdr f0)) + T)))) (frag_pays frs) /\
      ipqs n' = ipqs n0 /\ (forall i, i ∈ fr_id <$> l -> i <> fr_id x -> objs n' !! i = None) /\
      (forall i, i ∉ fr_id <$> frs -> objs n' !! i = objs n0 !! i) /\ left_over (fr_id x) l f n' F' /\ data0 kr = data0 (fr_skb f0)).
Proof.
  intros Ef Hx Hpt (Hs&Hn&Hf&Hp). pose proof Hset as [Hnd Hk Hob Ho Hl Hip Hc _ Hnum]. pose proof total_bound as HT. rewrite Ef in *.
  pose proof Hc as (C1&C2&C3&C4&C5&C6). set (q := queue_of _ _ _). unfold complete_ipq.
  destruct (queue_complete f0 l (u32 (now n0)) Hc) as [Hfull Heq]. fold q in Hfull, Heq. rewrite Hfull, Heq.
  cbn [negb]. apply nruns_bind. change (frag_head q) with (fr_id <$> f0 :: l).
  eapply nruns_mono; [eapply (join_complete key f0 l (fr_id x) f)|].
  - done.
  - apply lookup_insert_eq.
  - done.
  - rewrite Forall_forall in Hob |- *. intros y Hy. cbn [objs queued set_ipqs set_objs]. unfold refs_of. destruct (decide (fr_id y = fr_id x)) as [E|Hne].
    + assert (y = x) as -> by (by eapply (NoDup_fmap_inj fr_id)). apply lookup_insert_eq.
    + rewrite lookup_insert_ne by done. by apply Hob.
  - by eapply same_slots_own.
  - eapply live_slots; [exact Hs|done].
  - rewrite Forall_forall in Hip, Hpt |- *. intros y Hy. apply holds_obj; [|by apply Hpt]. eapply holds_slots; [exact Hs|by apply Hip].
  - done.
  - lia.
  - done.
  - done.
  - intros res n1 (->&kr&F'&[A1 A2 A3 A4 A5 [A6 A6'] (q'&A7&A7') A8 A9 A10 A11]).
    pose proof Hip as [[Hs0 Hlen [P1 P2 P3 P4] Hcn] _]%Forall_cons. pose proof Hpt as [Hl3 _]%Forall_cons. unfold ptr in Hl3. cbn [smem queued set_ipqs set_objs set_mem] in A4.
    assert (Hcn' : content m (chain (fr_skb f0)) = fr_hdr f0 ++ fr_pay f0) by (destruct (same_chain_ok (smem n0) m _ Hs (proj1 Hs0)) as [_ ->]; done).
    rewrite Hcn', <- app_assoc in A4. eapply nruns_mono; [eapply (finish_defrag_spec key (fr_id f0) _ n1 kr q' F' (fr_hdr f0) (frag_pays (f0 :: l)));
      [exact A1|exact A7|exact A7'|exact A2|exact A3|rewrite A6, Hl3; unfold skb_start; by rewrite A6'|unfold skb_data0_len in *; rewrite A6'; lia|exact P2|exact A4]|].
    intros res n2 (->&kr2&B1&B2&B3&_&B5&B4). split; [done|]. exists kr2, F'. rewrite Nat2Z.inj_add in B4. rewrite B1, B2, A8.
    cbn [ipqs queued set_ipqs]. split_and!; [apply lookup_insert_eq|done|done|by rewrite delete_insert_eq, delete_id| | | |congruence].
    + intros i Hi Hne. rewrite lookup_insert_ne; [by apply A10|]. intros <-. cbn in Hnd. apply NoDup_cons in Hnd as [H _]. done.
    + intros i Hi. rewrite fmap_cons, not_elem_of_cons in Hi. destruct Hi as [Hi1 Hi2]. rewrite lookup_insert_ne, A9 by done.
      cbn [objs queued set_ipqs set_objs]. rewrite lookup_insert_ne; [done|]. intros <-. apply (list_elem_of_fmap_2 fr_id) in Hx. rewrite fmap_cons, elem_of_cons in Hx. tauto.
    + unfold left_over in *. destruct (decide (fr_id x ∈ fr_id <$> l)) as [Hin|]; [|done]. destruct A11 as (kc&Hkc&->). exists kc. split; [|done].
      rewrite B1, lookup_insert_ne; [done|]. intros E. rewrite <- E in Hin. cbn in Hnd. apply NoDup_cons in Hnd as [H _]. done.
Qed.

Lemma hand_over_last D n f0 l x : waiting D n -> frs = f0 :: l -> x ∈ frs -> ptr (fr_skb x) -> fr_id x ∉ D -> Forall (fun y => fr_id y ∈ fr_id x :: D) frs ->
  nruns (hand_over (fr_id x)) n (fun r n' => r = Some (fr_id f0) /\ reassembled f0 l n').
Proof.
  intros Hw Ef Hx Hpx HD Hall. pose proof (waiting_ptr D n x Hw Hx Hpx) as Hpt. apply nruns_bind. apply (enqueue D n x); [done..|]. intros m Hm q. unfold q. rewrite arrived_all by done.
  eapply nruns_mono; [apply complete_last; [done|done| |done]; rewrite Forall_forall in *; auto|]. intros res n1 (->&kr&F'&A1&A2&A3&A4&A5&A6&A7&_). apply nruns_bind.
  pose proof (fs_ids _ _ _ _ Hset) as Hnd. rewrite Ef in Hnd, Hx. cbn in Hnd. apply NoDup_cons in Hnd as [H0 Hnd]. unfold left_over in A7.
  apply elem_of_cons in Hx as [->|Hx].
  - rewrite decide_False in A7 by done. subst F'. unfold refs_of in A1. rewrite decide_True in A1 by done.
    eapply nruns_put_ref_many; [exact A1|done|]. apply nruns_ret. split; [done|]. exists kr. cbn. split_and!; try done.
    + apply lookup_insert_eq.
    + intros i Hi. rewrite lookup_insert_ne by (by intros <-). apply A5; [done|by intros ->].
    + intros i Hi. rewrite lookup_insert_ne; [by apply A6|]. intros <-. apply Hi. rewrite Ef. left.
  - assert (Hin : fr_id x ∈ fr_id <$> l) by by apply list_elem_of_fmap_2. rewrite decide_True in A7 by done. destruct A7 as (kc&Hkc&->).
    assert (Hne : fr_id f0 <> fr_id x) by (intros E; apply H0; by rewrite E). unfold refs_of in A1. rewrite decide_False in A1 by done.
    eapply (nruns_put_ref_last (fr_id x) (single kc) (chain kr) f); [exact Hkc|done| |].
    { eapply own_perm; [|apply own_beside, A2]. apply Permutation_app_comm. }
    intros m' Ho' Hk' _. apply nruns_ret. split; [done|]. exists kr. cbn. destruct A3 as [W1 W2 W3 W4 W5 W6].
    assert (Hsm : same_on (smem n1) m' (chain kr)).
    { eapply kept_same; [exact A2|exact Ho'|exact Hk'| |done]. by destruct (alive_chain _ kr (proj1 W1) (proj2 W1)) as ([? _]&_). }
    split_and!; try done.
    + by rewrite lookup_delete_ne.
    + split; try done; [by eapply sound_same|]. by rewrite (same_on_content _ _ _ Hsm).
    + intros i Hi. destruct (decide (i = fr_id x)) as [->|Hix]; [apply lookup_delete_eq|]. rewrite lookup_delete_ne by done. by apply A5.
    + intros i Hi. rewrite lookup_delete_ne; [by apply A6|]. intros <-. apply Hi. rewrite Ef. by right.
Qed.

(** *** Any order *)

Lemma hand_over_all_spec f0 l rest : frs = f0 :: l -> forall D n, waiting D n -> D ++ (fr_id <$> rest) ≡ₚ fr_id <$> frs -> rest ⊆ frs -> Forall (fun x => ptr (fr_skb x)) rest -> rest <> [] ->
  nruns (hand_over_all (fr_id <$> rest)) n (fun rs n' =>
    rs = replicate (length rest - 1) None ++ [Some (fr_id f0)] /\ reassembled f0 l n').
Proof.
  intros Ef. induction rest as [|x rest IH]; intros D n Hw Hp Hsub Hpt Hne; [done|]. apply Forall_cons in Hpt as [Hpx Hpt]. pose proof (fs_ids _ _ _ _ Hset) as Hnd.
  assert (HD : fr_id x ∉ D).
  { rewrite <- Hp in Hnd. apply NoDup_app in Hnd as (_&H&_). intros Hin. apply (H _ Hin). rewrite fmap_cons. left. }
  cbn [hand_over_all fmap list_fmap]. apply nruns_bind. destruct rest as [|y rest].
  - eapply nruns_mono; [eapply (hand_over_last D n f0 l x Hw Ef); [apply Hsub; left|done|done|]|].
    + apply Forall_forall. intros z Hz. apply (list_elem_of_fmap_2 fr_id) in Hz. rewrite <- Hp in Hz. set_solver.
    + intros r n1 [-> Hr]. apply nruns_bind, nruns_ret, nruns_ret. done.
  - eapply nruns_mono; [eapply (hand_over_waits D n x y Hw); [apply Hsub; left|done|done|apply Hsub; right; left|]|].
    + rewrite <- Hp in Hnd. rewrite !fmap_cons in Hnd. apply NoDup_app in Hnd as (_&H1&H2). apply NoDup_cons in H2 as [H2 _].
      rewrite not_elem_of_cons. split; [intros E; apply H2; rewrite E; left|]. intros Hin. apply (H1 _ Hin). right. left.
    + intros r n1 [-> Hw1]. apply nruns_bind. eapply nruns_mono; [eapply (IH (fr_id x :: D) n1 Hw1); [|intros z Hz; apply Hsub; by right|done|done]|].
      * rewrite <- Hp, fmap_cons. solve_Permutation.
      * intros rs n2 [-> Hr]. apply nruns_ret. split; [|done]. cbn. by rewrite Nat.sub_0_r.
Qed.
End arrival.
