(* ===== verification/NetFrame.v ===== *)
(** What fragmentation and reassembly leave alone: the events so far, the counter
    of identifications, the time, the IPv6 queues; and the metadata of the packet
    that is cut into fragments, which every fragment has. *)

From stdpp Require Import prelude list gmap.
From Stdlib Require Import ZArith Lia.
From S2P Require Import Prelude Checksum Skbuff SkbuffMem Net NetInv IpFrag.
Import Skb Net IpFrag.

Create HintDb quiet.

(** *** Functions without events *)

Definition calm (n n' : net) : Prop :=
  events n' = events n /\ ip_id n' = ip_id n /\ now n' = now n /\ ipq6s n' = ipq6s n.

Definition quiet {A} (c : NM A) : Prop := forall n a n', c n = Some (a, n') -> calm n n'.

Lemma calm_refl n : calm n n.
Proof. done. Qed.

Lemma calm_trans n1 n2 n3 : calm n1 n2 -> calm n2 n3 -> calm n1 n3.
Proof. intros (?&?&?&?) (?&?&?&?). unfold calm. split_and!; congruence. Qed.

Lemma nruns_and {A} (c : NM A) n (P R : A -> net -> Prop) :
  nruns c n P -> (forall a n', c n = Some (a, n') -> R a n') -> nruns c n (fun a n' => P a n' /\ R a n').
Proof. unfold nruns. destruct (c n) as [[a n']|]; [|done]. auto. Qed.

Lemma nruns_quiet {A} (c : NM A) n (P : A -> net -> Prop) : nruns c n P -> quiet c -> nruns c n (fun a n' => P a n' /\ calm n n').
Proof. intros H Hc. apply nruns_and; [done|]. intros a n'. apply Hc. Qed.

Lemma quiet_ret {A} (a : A) : quiet (mret a).
Proof. by intros n b n' [= _ <-]. Qed.

Lemma quiet_bind {A B} (c : NM A) (g : A -> NM B) : quiet c -> (forall a, quiet (g a)) -> quiet (mbind g c).
Proof.
  intros Hc Hg n b n'. unfold mbind, NM_bind. destruct (c n) as [[a n1]|] eqn:E; [|done]. intros H. eapply calm_trans; [by eapply Hc|by eapply Hg].
Qed.

Lemma quiet_lift {A} (c : M A) : quiet (lift c).
Proof. intros n a n'. unfold lift. destruct (c (smem n)) as [[b m]|]; [|done]. by intros [= _ <-]. Qed.

Lemma quiet_crash {A} : quiet (@crash A).
Proof. done. Qed.

Lemma quiet_gets {A} (g : net -> A) : quiet (gets g).
Proof. by intros n a n' [= _ <-]. Qed.

Lemma quiet_get id : quiet (get id).
Proof. intros n a n'. unfold get. destruct (objs n !! id); [|done]. by intros [= _ <-]. Qed.

Lemma quiet_put id o : quiet (put id o).
Proof. by intros n a n' [= _ <-]. Qed.

Lemma quiet_new_obj k : quiet (new_obj k).
Proof. by intros n a n' [= _ <-]. Qed.

Lemma quiet_set_ipqs g : quiet (modify (fun n => set_ipqs n (g n))).
Proof. by intros n a n' [= _ <-]. Qed.

Lemma quiet_set_objs g : quiet (modify (fun n => set_objs n (g n))).
Proof. by intros n a n' [= _ <-]. Qed.

Lemma quiet_must {A} (o : option A) : quiet (must o).
Proof. destruct o; [apply quiet_ret|done]. Qed.

#[export] Hint Resolve quiet_ret quiet_lift quiet_crash quiet_gets quiet_get quiet_put quiet_new_obj quiet_set_ipqs quiet_set_objs quiet_must : quiet.

Ltac quiet_step :=
  match goal with
  | |- quiet (mbind _ _) => apply quiet_bind; [|let x := fresh "x" in intros x]
  | |- quiet (match ?x with _ => _ end) => destruct x
  | |- quiet _ => solve [eauto with quiet]
  end.
Ltac quiet := repeat quiet_step.

Lemma quiet_load p len : quiet (load_hdr p len).
Proof. unfold load_hdr. quiet. Qed.
Lemma quiet_store p h : quiet (store_hdr p h).
Proof. unfold store_hdr. quiet. Qed.
Lemma quiet_set_skb id k : quiet (set_skb id k).
Proof. unfold set_skb. quiet. Qed.
Lemma quiet_set_frags id l : quiet (set_frags id l).
Proof. unfold set_frags. quiet. Qed.
Lemma quiet_inc_ref id : quiet (inc_ref id).
Proof. unfold inc_ref. quiet. Qed.
Lemma quiet_put_ref id : quiet (put_ref id).
Proof. unfold put_ref. quiet. Qed.
#[export] Hint Resolve quiet_load quiet_store quiet_set_skb quiet_set_frags quiet_inc_ref quiet_put_ref : quiet.

Lemma quiet_free_frags l : quiet (free_frags l).
Proof. induction l; cbn [free_frags]; quiet. Qed.
Lemma quiet_release l : quiet (release_nodes l).
Proof. induction l; cbn [release_nodes]; quiet. Qed.
#[export] Hint Resolve quiet_free_frags quiet_release : quiet.

Lemma quiet_search key : quiet (search_ipq key).
Proof. unfold search_ipq. quiet. Qed.
Lemma quiet_set_ipq key q : quiet (set_ipq key q).
Proof. unfold set_ipq. quiet. Qed.
#[export] Hint Resolve quiet_search quiet_set_ipq : quiet.

Lemma quiet_destroy key : quiet (destroy_ipq key).
Proof. unfold destroy_ipq. quiet. Qed.
Lemma quiet_create key : quiet (create_ipq key).
Proof. unfold create_ipq. quiet. Qed.
Lemma quiet_hdr_of id : quiet (ipv4_hdr_of id).
Proof. unfold ipv4_hdr_of. quiet. Qed.
Lemma quiet_set_rest key l : quiet (set_rest key l).
Proof. unfold set_rest. quiet. Qed.
#[export] Hint Resolve quiet_destroy quiet_create quiet_hdr_of quiet_set_rest : quiet.

Lemma quiet_insert_frag add l : quiet (insert_frag add l).
Proof. induction l; cbn [insert_frag]; quiet. Qed.
Lemma quiet_copy re l : quiet (copy_descriptors re l).
Proof. induction l; cbn [copy_descriptors]; quiet. Qed.
Lemma quiet_drop_all key a b : quiet (drop_all key a b).
Proof. unfold drop_all. quiet. Qed.
Lemma quiet_frag_fail id cur : quiet (frag_fail id cur).
Proof. unfold frag_fail. quiet. Qed.
#[export] Hint Resolve quiet_insert_frag quiet_copy quiet_drop_all quiet_frag_fail : quiet.

Lemma quiet_join key l : forall re e, quiet (join_frags key l re e).
Proof. induction l; intros re e; cbn [join_frags]; quiet. Qed.
Lemma quiet_finish key r : quiet (finish_defrag key r).
Proof. unfold finish_defrag. quiet. Qed.
#[export] Hint Resolve quiet_join quiet_finish : quiet.

Lemma quiet_complete key q : quiet (complete_ipq key q).
Proof. unfold complete_ipq. quiet. Qed.
#[export] Hint Resolve quiet_complete : quiet.

Lemma quiet_defrag id : quiet (ipv4_defrag id).
Proof. unfold ipv4_defrag. quiet. Qed.

Lemma quiet_frag_loop fuel id h fp base more : forall cur off, quiet (frag_loop fuel id h fp base more cur off).
Proof. induction fuel; intros [cur|] off; cbn [frag_loop]; quiet. Qed.
#[export] Hint Resolve quiet_frag_loop : quiet.

Lemma quiet_frag mtu id : quiet (ipv4_frag mtu id).
Proof. unfold ipv4_frag. quiet. Qed.
#[export] Hint Resolve quiet_defrag quiet_frag : quiet.

(** *** Metadata *)

(** Every answer satisfies [P], whatever the memory. *)
Definition ans {A} (c : M A) (P : A -> Prop) : Prop := forall m a m', c m = Some (a, m') -> P a.

Lemma ans_ret {A} (a : A) (P : A -> Prop) : P a -> ans (mret a) P.
Proof. by intros H m b m' [= <- _]. Qed.

Lemma ans_bind {A B} (c : M A) (g : A -> M B) P R : ans c P -> (forall a, P a -> ans (g a) R) -> ans (mbind g c) R.
Proof. intros Hc Hg m b m'. unfold mbind, M_bind. destruct (c m) as [[a m1]|] eqn:E; [|done]. apply Hg. by eapply Hc. Qed.

Lemma ans_any {A} (c : M A) : ans c (fun _ => True).
Proof. done. Qed.

Ltac ans_step :=
  match goal with
  | |- ans (mbind _ _) _ => eapply ans_bind; [apply ans_any|let x := fresh "x" in intros x _]
  | |- ans (mret _) _ => apply ans_ret; cbn
  | |- ans (match ?x with _ => _ end) _ => destruct x
  end.
Ltac ans := repeat ans_step.

Lemma meta_of_chain k n t l : meta (of_chain k n t l) = meta k.
Proof. by destruct l. Qed.

Lemma skb_split_meta k len : ans (skb_split k len) (fun '(r, k') => meta k' = meta k /\ forall tail, r = Some tail -> meta tail = meta k).
Proof.
  unfold skb_split. destruct (_ <=? _)%nat; [by ans|]. destruct (split_walk _ _ _) as [[b a] c].
  ans; (split; [|by intros ? [= <-]]); by rewrite ?meta_of_chain.
Qed.

Lemma skb_data_push_meta k n : ans (skb_data_push k n) (fun '(_, k') => meta k' = meta k).
Proof.
  unfold skb_data_push. eapply ans_bind with (P := fun '(_, k') => meta k' = meta k).
  - unfold skb_data_expand. by ans.
  - intros [[] k'] E; by ans.
Qed.

Lemma push_header_meta k h : ans (push_header k h) (fun '(_, k') => meta k' = meta k).
Proof. unfold push_header. eapply ans_bind; [apply skb_data_push_meta|]. intros [[] k'] E; by ans. Qed.

(** Partial correctness: what holds after, if the function returns. *)
Definition tri {A} (P : net -> Prop) (c : NM A) (Q : A -> net -> Prop) : Prop := forall n a n', P n -> c n = Some (a, n') -> Q a n'.

Lemma tri_bind {A B} P (c : NM A) R (g : A -> NM B) Q : tri P c R -> (forall a, tri (R a) (g a) Q) -> tri P (mbind g c) Q.
Proof. intros Hc Hg n b n' HP. unfold mbind, NM_bind. destruct (c n) as [[a n1]|] eqn:E; [|done]. apply Hg. by eapply Hc. Qed.

Lemma tri_ret {A} (P : net -> Prop) (a : A) Q : (forall n, P n -> Q a n) -> tri P (mret a) Q.
Proof. intros H n b n' HP [= <- <-]. auto. Qed.

Section frag_meta.
Context (id N : nat) (t : skb_meta).

(** The packet and those made since have the metadata [t]. *)
Definition metas (n : net) : Prop :=
  (N <= next_obj n)%nat /\ forall i o, objs n !! i = Some o -> i = id \/ (N <= i)%nat -> meta (skb o) = t.
Definition ours (i : nat) : Prop := i = id \/ (N <= i)%nat.

Lemma metas_insert n i o : metas n -> meta (skb o) = t -> metas (set_objs n (<[i := o]> (objs n))).
Proof. intros [H1 H2] Ho. split; [done|]. cbn. intros j o' [[-> <-]|[_ Hj]]%lookup_insert_Some; [done|eauto]. Qed.

Lemma tri_get i : ours i -> tri metas (get i) (fun o n => metas n /\ meta (skb o) = t).
Proof. intros Hi n o n' Hn. unfold get. destruct (objs n !! i) eqn:E; [|done]. intros [= <- <-]. split; [done|]. by eapply Hn. Qed.

Lemma tri_get_any i : tri metas (get i) (fun _ n => metas n).
Proof. intros n o n' Hn. unfold get. destruct (objs n !! i) eqn:E; [|done]. by intros [= _ <-]. Qed.

Lemma tri_lift {A} (c : M A) P : ans c P -> tri metas (lift c) (fun a n => metas n /\ P a).
Proof. intros Hc n a n' Hn. unfold lift. destruct (c (smem n)) as [[b m]|] eqn:E; [|done]. intros [= <- <-]. split; [done|by eapply Hc]. Qed.

Lemma tri_set_skb i k : meta k = t -> tri metas (set_skb i k) (fun _ n => metas n).
Proof.
  intros Hk n a n' Hn. unfold set_skb, mbind, NM_bind, get. destruct (objs n !! i) as [o|]; [|done]. intros [= _ <-]. by apply metas_insert.
Qed.

Lemma tri_set_frags i l : tri metas (set_frags i l) (fun _ n => metas n).
Proof.
  intros n a n' [H1 H2]. unfold set_frags, mbind, NM_bind, get. destruct (objs n !! i) as [o|] eqn:E; [|done]. intros [= _ <-].
  split; [done|]. cbn. intros j o' [[-> <-]|[_ Hj]]%lookup_insert_Some; [|eauto]. cbn. eauto.
Qed.

Lemma tri_new_obj k : meta k = t -> tri metas (new_obj k) (fun i n => metas n /\ ours i).
Proof.
  intros Hk n a n' [H1 H2] [= <- <-]. split; [|by right]. split; [cbn; lia|]. cbn. intros j o' [[_ <-]|[_ Hj]]%lookup_insert_Some; [done|eauto].
Qed.

Lemma tri_put_ref i : tri metas (put_ref i) (fun _ n => metas n).
Proof.
  intros n a n' [H1 H2]. destruct i as [i|]; [|by intros [= _ <-]]. unfold put_ref, mbind, NM_bind, get. destruct (objs n !! i) as [o|] eqn:E; [|done].
  destruct (ref o) as [|[|r]]; [done| |].
  - unfold lift. destruct (skb_destroy _ _) as [[[] m]|]; [|done]. intros [= _ <-]. split; [done|]. cbn. intros j o' [_ Hj]%lookup_delete_Some. eauto.
  - intros [= _ <-]. split; [done|]. cbn. intros j o' [[-> <-]|[_ Hj]]%lookup_insert_Some; [|eauto]. cbn. eauto.
Qed.

Lemma tri_mono {A} (P P' : net -> Prop) (c : NM A) (Q Q' : A -> net -> Prop) :
  tri P c Q -> (forall n, P' n -> P n) -> (forall a n, Q a n -> Q' a n) -> tri P' c Q'.
Proof. intros H HP HQ n a n' Hn E. eauto. Qed.

Lemma tri_pure {A} (X : Prop) P (c : NM A) Q : (X -> tri P c Q) -> tri (fun n => P n /\ X) c Q.
Proof. intros H n a n' [HP HX]. by apply H. Qed.

Lemma tri_must {A} (o : option A) : tri metas (must o) (fun _ n => metas n).
Proof. destruct o; [by apply tri_ret|done]. Qed.

Lemma tri_free_frags l : tri metas (free_frags l) (fun _ n => metas n).
Proof. induction l; cbn [free_frags]; [by apply tri_ret|]. eapply tri_bind; [apply tri_put_ref|done]. Qed.

Lemma tri_frag_fail i cur : tri metas (frag_fail i cur) (fun _ n => metas n).
Proof.
  unfold frag_fail. repeat first [eapply tri_bind; [first [apply tri_put_ref|apply tri_get_any|apply tri_set_frags|apply tri_free_frags]|intros ?]].
  by apply tri_ret.
Qed.

Lemma tri_frag_loop h fp base mo fuel : forall cur off, (forall i, cur = Some i -> ours i) -> tri metas (frag_loop fuel id h fp base mo cur off) (fun _ n => metas n).
Proof.
  induction fuel as [|fuel IH]; intros [cur|] off Hcur; cbn [frag_loop]; try by apply tri_ret. { done. }
  eapply tri_bind; [by apply tri_get, Hcur|]. intros o. apply tri_pure. intros Ho.
  eapply tri_bind with (R := fun s n => metas n /\ forall next len, s = Some (Some next, len) -> ours next).
  - destruct (_ <? _); [|by apply tri_ret].
    eapply tri_bind; [apply tri_lift, skb_split_meta|]. intros [[tail|] k]; apply tri_pure; intros [Hk Ht]; [|by apply tri_ret].
    eapply tri_bind; [apply tri_set_skb; congruence|]. intros ?. eapply tri_bind; [apply tri_new_obj; rewrite (Ht tail); [congruence|done]|].
    intros next. apply tri_pure. intros Hn. apply tri_ret. intros n Hm. split; [done|]. by intros ? ? [= <- _].
  - intros [[next len]|]; apply tri_pure; intros Hs; [|apply tri_frag_fail]. eapply tri_bind; [apply tri_must|]. intros hd.
    eapply tri_bind; [by apply tri_get, Hcur|]. intros o2. apply tri_pure. intros Ho2.
    eapply tri_bind; [apply tri_lift, push_header_meta|]. intros [[] k]; apply tri_pure; intros Hk; cbn [negb].
    + eapply tri_bind; [apply tri_set_skb; cbn; congruence|]. intros ?. eapply tri_bind; [apply tri_get_any|]. intros o3.
      eapply tri_bind; [apply tri_set_frags|]. intros ?. apply IH. intros i ->. by eapply Hs.
    + eapply tri_bind; [apply tri_put_ref|]. intros ?. apply tri_frag_fail.
Qed.

Lemma tri_load p len : tri metas (load_hdr p len) (fun _ n => metas n).
Proof. destruct p as [[s off]|]; [|done]. eapply tri_mono; [apply tri_lift, ans_any|done|]. by intros a n [H _]. Qed.

Lemma tri_store p h : tri metas (store_hdr p h) (fun _ n => metas n).
Proof. destruct p as [[s off]|]; [|done]. eapply tri_mono; [apply tri_lift, ans_any|done|]. by intros a n [H _]. Qed.

Lemma tri_frag mtu : tri metas (ipv4_frag mtu id) (fun _ n => metas n).
Proof.
  assert (Hid : ours id) by by left. unfold ipv4_frag, ipv4_hdr_of. eapply tri_bind; [eapply tri_bind; [apply tri_get_any|intros ?; apply tri_load]|]. intros h.
  destruct (_ <=? _); [by apply tri_ret|]. destruct (ipv4_get_flag_df h); [by apply tri_ret|].
  eapply tri_bind; [by apply tri_get|]. intros o. apply tri_pure. intros Ho. eapply tri_bind; [apply tri_load|]. intros header.
  eapply tri_bind; [apply tri_lift, skb_split_meta|]. intros [[tail|] k]; apply tri_pure; intros [Hk Ht]; [|by apply tri_ret].
  eapply tri_bind; [apply tri_set_skb; congruence|]. intros ?. eapply tri_bind; [apply tri_new_obj; rewrite (Ht tail); [congruence|done]|].
  intros cur. apply tri_pure. intros Hcur. eapply tri_bind; [apply tri_load|]. intros h1. eapply tri_bind; [apply tri_must|]. intros h2.
  eapply tri_bind; [apply tri_store|]. intros ?. eapply tri_bind; [apply tri_frag_loop; by intros ? [= <-]|]. intros [|]; [|by apply tri_ret].
  eapply tri_bind; [by apply tri_get|]. intros o2. apply tri_pure. intros Ho2. eapply tri_bind; [by apply tri_set_skb|]. intros ?. by apply tri_ret.
Qed.
End frag_meta.

(** Fragments have the metadata of their packet. *)
Lemma frag_meta mtu id o n ok n' : ipv4_frag mtu id n = Some (ok, n') -> objs n !! id = Some o ->
  (forall i, (next_obj n <= i)%nat -> objs n !! i = None) ->
  forall i o', objs n' !! i = Some o' -> i = id \/ (next_obj n <= i)%nat -> meta (skb o') = meta (skb o).
Proof.
  intros E Ho Hnew. apply (tri_frag id (next_obj n) (meta (skb o)) mtu n ok n'); [|done]. split; [done|].
  intros i o' Hi [->|Hge]; [congruence|]. by rewrite Hnew in Hi.
Qed.
