(* ===== verification/IpFragProps.v ===== *)
(** IPv4 fragmentation and reassembly, properties: what [ipv4_frag] makes of a packet,
    what [ipv4_defrag] makes of its fragments in any order, and that together they
    give the packet back; and where the code fails. *)

From stdpp Require Import prelude list gmap.
From Stdlib Require Import ZArith Lia.
From S2P Require Import Prelude Checksum Skbuff SkbuffMem SkbuffOps SkbuffSplit SkbuffFrame Trie Route Neigh Net NetInv IpFrag IpFragHdr IpFragOut IpFragIn.
Import Skb Net IpFrag.

(** *** Fragments as strings *)

Lemma cons_inv {A} (a b : A) l l' : a :: l = b :: l' -> a = b /\ l = l'.
Proof. by intros [= -> ->]. Qed.

(** Fragments of the packet [h ++ pay], found in objects [frs]. *)
Lemma fragments_cover h pay0 fp key frs : (0 < fp)%nat -> Z.of_nat fp mod 8 = 0 -> ip_pkt h pay0 -> key_of h = key ->
  forall fuel off pay, (length pay < fuel)%nat -> pay <> [] -> 0 <= off -> off mod 8 = 0 ->
  Z.of_nat (length h) + off + Z.of_nat (length pay) <= UINT16_MAX ->
  Forall (fun x => length (fr_hdr x) = length h) frs ->
  (fun x => fr_hdr x ++ fr_pay x) <$> frs = fragments fuel h fp false off pay ->
  covers off frs /\ frag_pays frs = pay /\ Forall (fun x => key_of (fr_hdr x) = key) frs.
Proof.
  intros Hfp Hfp8 Hpk Hkey. induction frs as [|x l IH]; intros fuel off pay Hfuel Hne Hoff Hoff8 Hmax Hlen E; (destruct fuel as [|fuel]; [lia|]);
    cbn [fragments] in E; [by destruct (fp <? length pay)%nat|]. unfold UINT16_MAX in *. pose proof (ip_min _ _ Hpk) as Hmin.
  apply Forall_cons in Hlen as [Hx Hl]. rewrite fmap_cons in E.
  assert (Hh : forall mf len, fr_hdr x = frag_header h off mf len -> (len <= length pay)%nat ->
    ipv4_get_frag_offset (fr_hdr x) * 8 = off /\ ipv4_get_flag_df (fr_hdr x) = false /\ ipv4_get_flag_mf (fr_hdr x) = mf /\ key_of (fr_hdr x) = key).
  { intros mf len -> Hle. rewrite frag_header_offset, frag_header_df, frag_header_mf by (done || lia). split_and!; [zlia|done|done|].
    by rewrite key_of_frag_header. }
  destruct (Nat.ltb_spec fp (length pay)) as [Hlt|Hge].
  - apply cons_inv in E as [E1 E2]. apply app_inj_1 in E1 as [E1 E1']; [|by rewrite length_frag_header].
    destruct (Hh true fp E1 ltac:(lia)) as (O1&O2&O3&O4).
    assert (Hpl : length (fr_pay x) = fp) by (rewrite E1', length_take; lia).
    destruct (IH fuel (off + Z.of_nat fp) (drop fp pay)) as (C1&C2&C3); rewrite ?length_drop; try done; [lia| |lia|zlia|lia|].
    { intros Hd. apply (f_equal length) in Hd. rewrite length_drop in Hd. cbn in Hd. lia. }
    assert (Hl0 : l <> []) by (intros ->; destruct fuel; [lia|]; cbn [fragments fmap list_fmap] in E2; by destruct (fp <? length (drop fp pay))%nat).
    split_and!; [|by rewrite frag_pays_cons, C2, E1', take_drop|by constructor]. cbn [covers]. rewrite Hpl, bool_decide_true by done.
    split_and!; [exact O1| |exact O2|exact O3|by intros _|exact C1]. intros Hz. rewrite Hz in Hpl. cbn in Hpl. lia.
  - apply cons_inv in E as [E1 E2]. apply fmap_nil_inv in E2 as ->. apply app_inj_1 in E1 as [E1 E1']; [|by rewrite length_frag_header].
    destruct (Hh false (length pay) E1 ltac:(lia)) as (O1&O2&O3&O4). split_and!; [|by rewrite frag_pays_cons, E1', app_nil_r|by constructor].
    cbn [covers]. rewrite bool_decide_false by (intros H; by apply H). split_and!; [exact O1|by rewrite E1'|exact O2|exact O3|by intros []|done].
Qed.

(** *** Properties *)




(** *** Packets in memory, one slot each *)

Definition di_of (i : nat) (b : list Z) : data_info := mk_di (Some i) 0 (length b) (length b).
Definition pkt_of (i : nat) (b : list Z) : skbuff :=
  mk_skb no_meta 0 None (Some (i, 0%nat)) None no_flag 1 (length b) (di_of i b) [].
Definition net_of (bs : list (list Z)) (t : Z) (al : list bool) : net :=
  mk_net (mk_mem ((fun b => mk_slot b 1) <$> map_seq 0 bs) (length bs) (fun _ _ => 0) 4000 al)
    (map_seq 0 (imap (fun i b => single (pkt_of i b)) bs)) (length bs) ∅ ∅ t 0 [] (Neigh.mk_probes (Neigh.zero_cache 0) (Neigh.zero_cache (replicate 16 0))) [].

Lemma refs_imap bs : forall j s, refs (imap (fun i b => di_of (j + i) b) bs) s = if decide (j <= s < j + length bs)%nat then 1%nat else 0%nat.
Proof.
  induction bs as [|b bs IH]; intros j s; cbn [imap length]; [by rewrite decide_False by lia|].
  rewrite refs_cons. cbn [di_of slot]. rewrite Nat.add_0_r.
  replace (imap ((λ (i : nat) b, di_of (j + i) b) ∘ S) bs) with (imap (fun i b => di_of (S j + i) b) bs) by (apply imap_ext; intros; cbn; by rewrite Nat.add_succ_r).
  rewrite IH. destruct (decide (j = s)) as [->|Hne]; [rewrite bool_decide_true by done|rewrite bool_decide_false by congruence];
    repeat case_decide; lia.
Qed.

Lemma net_of_own bs t al : Forall (fun b => Z.of_nat (length b) <= UINT16_MAX) bs ->
  own (smem (net_of bs t al)) (imap di_of bs) (fun _ => 0%nat).
Proof.
  intros Hb. split; cbn [net_of smem slots next_slot full_size].
  - intros s Hs. by rewrite lookup_fmap, lookup_map_seq_0, lookup_ge_None_2.
  - intros s. rewrite lookup_fmap, lookup_map_seq_0. pose proof (refs_imap bs 0 s) as E. cbn [Nat.add] in E.
    replace (imap (λ (i : nat) b, di_of i b) bs) with (imap di_of bs) in E by done. rewrite E.
    destruct (bs !! s) as [b|] eqn:El; cbn.
    + apply lookup_lt_Some in El. rewrite decide_True by lia. lia.
    + apply lookup_ge_None_1 in El. rewrite decide_False by lia. done.
  - intros s fs. rewrite lookup_fmap, lookup_map_seq_0. destruct (bs !! s) eqn:El; [|done]. intros [= <-]. rewrite Forall_forall in Hb.
    apply Hb. by eapply list_elem_of_lookup_2.
  - done.
Qed.

Lemma di_of_inside bs t al i b : bs !! i = Some b -> inside (smem (net_of bs t al)) (di_of i b) /\ di_bytes (smem (net_of bs t al)) (di_of i b) = b.
Proof.
  intros Hi. assert (Hs : slots (smem (net_of bs t al)) !! i = Some (mk_slot b 1)) by (cbn; by rewrite lookup_fmap, lookup_map_seq_0, Hi). split.
  - exists i, (mk_slot b 1). cbn. split_and!; done || lia.
  - unfold di_bytes. cbn [di_of slot]. rewrite Hs. unfold bytes_at, di_len. cbn. by rewrite Nat.sub_0_r, drop_0, firstn_all.
Qed.

Lemma net_of_live bs t al : live (smem (net_of bs t al)) (imap di_of bs).
Proof.
  split.
  - apply Forall_lookup_2. intros i d Hd. rewrite list_lookup_imap in Hd. destruct (bs !! i) as [b|] eqn:E; [|done]. injection Hd as <-.
    by apply di_of_inside.
  - apply NoDup_alt. intros i j x Hi Hj. rewrite list_lookup_fmap, list_lookup_imap in Hi, Hj. destruct (bs !! i), (bs !! j); try done.
    cbn in Hi, Hj. congruence.
Qed.

Definition frags_of (hps : list (list Z * list Z)) : list frag :=
  imap (fun i hp => mk_frag i (pkt_of i (hp.1 ++ hp.2)) hp.1 hp.2) hps.
Definition bytes_of (hps : list (list Z * list Z)) : list (list Z) := (fun hp => hp.1 ++ hp.2) <$> hps.

Lemma frags_of_chains hps : frag_chains (frags_of hps) = imap di_of (bytes_of hps).
Proof.
  unfold frag_chains, frags_of, bytes_of. rewrite imap_fmap. generalize 0%nat. intros _.
  assert (H : forall j, imap (fun i hp => mk_frag (j + i) (pkt_of (j + i) (hp.1 ++ hp.2)) hp.1 hp.2) hps ≫= (fun x => chain (fr_skb x)) =
    imap (fun i (hp : list Z * list Z) => di_of (j + i) (hp.1 ++ hp.2)) hps).
  { induction hps as [|hp hps IH]; intros j; [done|]. cbn [imap]. rewrite bind_cons. cbn [fr_skb chain pkt_of data0 more app]. f_equal.
    specialize (IH (S j)). etrans; [|etrans; [exact IH|]]; [f_equal|]; apply imap_ext; intros; cbn; by rewrite Nat.add_succ_r. }
  exact (H 0%nat).
Qed.

Lemma pkt_of_obj bs t al i h pay : bs !! i = Some (h ++ pay) -> ip_pkt h pay -> ip_obj (smem (net_of bs t al)) (pkt_of i (h ++ pay)) h pay.
Proof.
  intros Hi Hp. destruct (di_of_inside bs t al i _ Hi) as [Hin Hb]. split.
  - split; [|done]. split; [cbn; unfold di_len; cbn; lia|]. left. cbn [chain pkt_of data0 more]. split_and!; [|done|cbn; unfold SKB_DATA_MAX_NUM; lia].
    split; [by constructor|apply NoDup_singleton].
  - done.
  - unfold skb_data0_len, di_len. cbn. rewrite length_app. lia.
  - done.
  - unfold chain. cbn [pkt_of data0 more]. rewrite content_cons, Hb. apply app_nil_r.
Qed.

(** Any such packets that cover a payload are a set of fragments. *)
Lemma net_of_set hps t al key : covers 0 (frags_of hps) -> Forall (fun hp => key_of hp.1 = key) hps -> Forall (fun hp => ip_pkt hp.1 hp.2) hps ->
  hps <> [] -> (length hps <= SKB_DATA_MAX_NUM)%nat -> fragment_set key (frags_of hps) (net_of (bytes_of hps) t al) (fun _ => 0%nat).
Proof.
  intros Hc Hk Hp Hne Hn. assert (Hl : forall i x, frags_of hps !! i = Some x -> exists h pay, hps !! i = Some (h, pay) /\ x = mk_frag i (pkt_of i (h ++ pay)) h pay).
  { intros i x Hx. unfold frags_of in Hx. rewrite list_lookup_imap in Hx. destruct (hps !! i) as [[h pay]|]; [|done]. injection Hx as <-. by exists h, pay. }
  assert (Hbs : forall i h pay, hps !! i = Some (h, pay) -> bytes_of hps !! i = Some (h ++ pay)) by (intros i h pay E; unfold bytes_of; by rewrite list_lookup_fmap, E).
  split; try done.
  - apply NoDup_alt. intros i j k Hi Hj. rewrite list_lookup_fmap in Hi, Hj.
    destruct (frags_of hps !! i) eqn:E1, (frags_of hps !! j) eqn:E2; try done. destruct (Hl _ _ E1) as (?&?&_&->), (Hl _ _ E2) as (?&?&_&->). cbn in *. congruence.
  - apply Forall_lookup_2. intros i x Hx. destruct (Hl _ _ Hx) as (h&pay&E&->). by apply (Forall_lookup_1 _ _ _ _ Hk) in E.
  - apply Forall_lookup_2. intros i x Hx. destruct (Hl _ _ Hx) as (h&pay&E&->). cbn. rewrite lookup_map_seq_0, list_lookup_imap, (Hbs _ _ _ E). done.
  - rewrite frags_of_chains. apply net_of_own. apply Forall_fmap, (Forall_impl _ _ _ Hp). intros [h pay] Hpk. cbn [compose fst snd] in *. rewrite length_app.
    pose proof (ip_tot _ _ Hpk) as Ht. assert (Hu : is_u16 (ip_tot_len h)) by apply htons_range. unfold is_u, UINT16_MAX in *. lia.
  - rewrite frags_of_chains. apply net_of_live.
  - apply Forall_lookup_2. intros i x Hx. destruct (Hl _ _ Hx) as (h&pay&E&->). apply obj_holds, pkt_of_obj; [by apply Hbs|]. by apply (Forall_lookup_1 _ _ _ _ Hp) in E.
  - destruct hps; done.
  - unfold frag_nums, frags_of. assert (H : forall (l : list (list Z * list Z)) (g : nat -> nat), sum_list_with (fun x => data_num (fr_skb x))
      (imap (fun i hp => mk_frag (g i) (pkt_of (g i) (hp.1 ++ hp.2)) hp.1 hp.2) l) = length l).
    { induction l as [|a l IH]; intros g; [done|]. exact (f_equal S (IH (g ∘ S))). }
    specialize (H hps (fun i => i)). cbn beta in H. by rewrite H.
Qed.

(** *** Witnesses *)

(** A UDP packet with 24 bytes of payload and its checksum, 10.0.0.1 to 10.0.0.2. *)
Definition ex_hdr : list Z := rewritten [69; 0; 0; 44; 0; 1; 0; 0; 64; 17; 0; 0; 10; 0; 0; 1; 10; 0; 0; 2] (htons 0) (htons 44).
Definition ex_pay : list Z := Z.of_nat <$> seq 1 24.
Definition ex_hps : list (list Z * list Z) := (fun b => (take 20 b, drop 20 b)) <$> fragments 25 ex_hdr 16 false 0 ex_pay.
Definition ex_net (bs : list (list Z)) : net := net_of bs 0 (replicate 8 true).

Ltac bytes := vm_compute; repeat (apply Forall_cons_2; [split; [by intros [=]|done]|]); by apply Forall_nil.

Lemma ex_hps_pkt : Forall (fun hp => ip_pkt hp.1 hp.2) ex_hps.
Proof.
  let v := eval vm_compute in ex_hps in change ex_hps with v.
  repeat (apply Forall_cons_2; [split; [cbn; lia|done|done|bytes]|]). by apply Forall_nil.
Qed.

Lemma ex_set : fragment_set (key_of ex_hdr) (frags_of ex_hps) (ex_net (bytes_of ex_hps)) (fun _ => 0%nat).
Proof.
  apply net_of_set; [vm_compute; split_and!; done|repeat constructor|exact ex_hps_pkt|by intros [=]|vm_compute; lia].
Qed.

Definition ex_f0 : frag := mk_frag 0 (pkt_of 0 (nth 0 (bytes_of ex_hps) [])) (take 20 (nth 0 (bytes_of ex_hps) [])) (take 16 ex_pay).
Definition ex_f1 : frag := mk_frag 1 (pkt_of 1 (nth 1 (bytes_of ex_hps) [])) (take 20 (nth 1 (bytes_of ex_hps) [])) (drop 16 ex_pay).




(** *** Abandoned queues and empty fragments *)

Lemma release_nodes_spec l n (Q : unit -> net -> Prop) :
  Forall (fun i => exists o, objs n !! i = Some o /\ element o = None) l -> Q tt n -> nruns (release_nodes l) n Q.
Proof.
  intros Hl HQ. induction Hl as [|i l (o&Ho&He) _ IH]; [done|]. cbn [release_nodes]. apply nruns_bind. eapply nruns_get; [done|].
  rewrite He. by apply nruns_bind.
Qed.

Definition expired (t : Z) (q : ipq) : Prop := IPQ_TIMEOUT < u32 (t - last_update_time q).

Lemma destroy_ipq_spec key q n (Q : unit -> net -> Prop) : ipqs n !! key = Some q ->
  Forall (fun i => exists o, objs n !! i = Some o /\ element o = None) (frag_head q) ->
  Q tt (set_ipqs n (delete key (ipqs n))) -> nruns (destroy_ipq key) n Q.
Proof.
  intros Hq Hf HQ. apply nruns_bind. unfold search_ipq, gets, nruns at 1. rewrite Hq. apply nruns_bind. unfold modify, nruns at 1.
  by apply release_nodes_spec.
Qed.

Lemma expire_ipqs_spec l : forall n, NoDup l.*1 -> (forall k q, (k, q) ∈ l -> ipqs n !! k = Some q) ->
  (forall k q i, ipqs n !! k = Some q -> i ∈ frag_head q -> exists o, objs n !! i = Some o /\ element o = None) ->
  nruns (expire_ipqs l) n (fun _ n' => exists Y, n' = set_ipqs n Y /\
    (forall k q, (k, q) ∈ l -> expired (now n) q -> Y !! k = None) /\
    (forall k, (forall q, (k, q) ∈ l -> ~ expired (now n) q) -> Y !! k = ipqs n !! k)).
Proof.
  induction l as [|[k q] l IH]; intros n Hnd Hl He; cbn [expire_ipqs].
  - apply nruns_ret. exists (ipqs n). split_and!; [by destruct n| |done]. by intros k q ?%not_elem_of_nil.
  - rewrite fmap_cons in Hnd. apply NoDup_cons in Hnd as [Hk Hnd]. cbn [fst] in Hk. apply nruns_bind. unfold gets, nruns at 1. cbv beta iota. apply nruns_bind.
    assert (Hq : ipqs n !! k = Some q) by (apply Hl; left).
    assert (Hkl : forall q', (k, q') ∉ l) by (intros q' Hin; apply Hk; by apply (list_elem_of_fmap_2 fst) in Hin).
    destruct (Z.ltb_spec IPQ_TIMEOUT (u32 (now n - last_update_time q))) as [Hx|Hx].
    + apply (destroy_ipq_spec k q n); [done|apply Forall_forall; intros i; by apply (He k q)|].
      eapply nruns_mono; [apply IH; [done| |]|].
      * intros k' q' Hin. cbn. rewrite lookup_delete_ne; [by apply Hl; right|]. intros ->. by apply (Hkl q').
      * intros k' q' i H'. cbn in H'. apply lookup_delete_Some in H' as [_ H']. by apply (He k' q').
      * intros [] n' (Y&->&Y1&Y2). cbn in Y1, Y2. exists Y. split_and!; [done| |].
        -- intros k' q' [[= -> ->]|Hin]%elem_of_cons Hex; [|by apply (Y1 k' q')]. rewrite Y2; [apply lookup_delete_eq|]. intros q' Hin. by destruct (Hkl q').
        -- intros k' H'. destruct (decide (k = k')) as [<-|Hne]; [by destruct (H' q (list_elem_of_here _ _))|].
           rewrite Y2; [by apply lookup_delete_ne|]. intros q' Hin. apply H'. by right.
    + apply nruns_ret. eapply nruns_mono; [apply IH; [done|intros; apply Hl; by right|done]|]. intros [] n' (Y&->&Y1&Y2). exists Y. split_and!; [done| |].
      * intros k' q' [[= -> ->]|Hin]%elem_of_cons Hex; [unfold expired in Hex; lia|by apply (Y1 k' q')].
      * intros k' H'. apply Y2. intros q' Hin. apply H'. by right.
Qed.

(** C40: Each run of the timer drops exactly the queues created more than five
    seconds before, and asks to run again a second later; but the loop of
    [destroy_ipq] releases the values of the list nodes, which are never set, so
    the fragments of a dropped queue keep their references: no packet and no slot
    is freed. *)
Theorem ipq_timer_exact n :
  (forall k q i, ipqs n !! k = Some q -> i ∈ frag_head q -> exists o, objs n !! i = Some o /\ element o = None) ->
  nruns ipq_timer n (fun t n' => t = now n + 1000 /\
    n' = set_ipqs n (filter (fun kq => u32 (now n - last_update_time kq.2) <= 5000) (ipqs n))).
Proof.
  intros He. apply nruns_bind. unfold gets at 1, nruns at 1. cbv beta iota. apply nruns_bind.
  eapply nruns_mono; [apply expire_ipqs_spec; [apply NoDup_fst_map_to_list|by intros k q ?%elem_of_map_to_list|done]|].
  intros [] n' (Y&->&Y1&Y2). apply nruns_bind. unfold gets, nruns. cbv beta iota. split; [done|]. f_equal. apply map_eq. intros k.
  destruct (ipqs n !! k) as [q|] eqn:Eq.
  - destruct (decide (u32 (now n - last_update_time q) <= 5000)) as [Hle|Hgt].
    + rewrite (proj2 (map_lookup_filter_Some _ _ _ q)) by done. rewrite Y2; [done|]. intros q' Hin%elem_of_map_to_list.
      rewrite Eq in Hin. injection Hin as <-. unfold expired, IPQ_TIMEOUT. lia.
    + rewrite (proj2 (map_lookup_filter_None _ _ _)) by (right; intros x Ex; rewrite Eq in Ex; by injection Ex as <-).
      apply (Y1 k q); [by apply elem_of_map_to_list|]. unfold expired, IPQ_TIMEOUT. lia.
  - rewrite (proj2 (map_lookup_filter_None _ _ _)) by (by left). rewrite Y2; [done|]. by intros q' ?%elem_of_map_to_list%(eq_trans (eq_sym Eq)).
Qed.

Definition ex_waiting : net := set_ipqs (net_of (bytes_of ex_hps) 9000 []) {[ key_of ex_hdr := mk_ipq 0 16 1000 false true [0%nat] ]}.

Lemma ipq_timer_exact_witness : nruns ipq_timer ex_waiting (fun t n' => t = 10000 /\ ipqs n' = ∅ /\ objs n' = objs ex_waiting /\ smem n' = smem ex_waiting).
Proof.
  eapply nruns_mono; [apply (ipq_timer_exact ex_waiting)|].
  - intros k q i Hq Hi. cbn [ex_waiting set_ipqs ipqs] in Hq. apply lookup_singleton_Some in Hq as [<- <-]. apply list_elem_of_singleton in Hi as ->. by eexists.
  - intros t n' [-> ->]. done.
Defined.

(** The 44-byte packet's first 16 bytes, and a last fragment without payload. *)
Definition ex_empty : list (list Z * list Z) :=
  [ (frag_header ex_hdr 0 true 16, take 16 ex_pay); (frag_header ex_hdr 16 false 0, []) ].

(** A fragment without payload is queued like any other, and when it completes
    the packet the reassembly faults: consuming its header leaves the packet
    without a slot, and the copy of its descriptor increments the reference count
    of that null slot. *)
Theorem empty_fragment_faults :
  Forall (fun hp => ip_pkt hp.1 hp.2 /\ ipv4_get_flag_df hp.1 = false) ex_empty /\
  hand_over_all [0]%nat (ex_net (bytes_of ex_empty)) <> None /\
  hand_over_all [0; 1]%nat (ex_net (bytes_of ex_empty)) = None.
Proof.
  split_and!; [|by vm_compute|by vm_compute].
  let v := eval vm_compute in ex_empty in change ex_empty with v.
  repeat (apply Forall_cons_2; [split; [split; [cbn; lia|done|done|bytes]|done]|]). by apply Forall_nil.
Qed.
