(* ===== verification/Ip.v ===== *)
(** The IPv4 layer (src/main/ip.c, set_skb_route of src/main/route_arp_ndp.c,
    skb_send_frags of src/main/skbuff.c, transmit_skb_2_worker of
    src/main/worker.c): reception, local delivery, forwarding and output.

    What the layer asks of others is a class of operations: the route search and
    the routes it gives (Route.v), the addresses of the packet's socket, the send
    operation of an interface, the handlers of the transport protocols, the
    configuration. *)

From stdpp Require Import prelude list gmap.
From Stdlib Require Import ZArith Lia.
From S2P Require Import Prelude Checksum Rss Skbuff Net IpFrag.
Import Skb Net IpFrag.

Module Ip.

Definition RTN_LOCAL : Z := 2.
Definition RTN_BROADCAST : Z := 3.
Definition IPPROTO_ICMP : Z := 1.
Definition IPPROTO_TCP : Z := 6.
Definition IPPROTO_UDP : Z := 17.

Definition default_ttl : Z := 64.

(** Routes, interfaces and sockets are named by numbers, addresses are bytes. *)
Class IpEnv := {
  search_route_table : Z -> Z -> list Z -> option nat;
  route_info_check : nat -> bool;
  route_type : nat -> Z;
  route_if : nat -> nat;
  if_mtu : nat -> Z;
  sock_sip : nat -> list Z;
  sock_dip : nat -> list Z;
  sock_scope : nat -> Z;
  if_send : nat -> nat -> NM Z;
  tcp_recv : nat -> NM Z;
  udp_recv : nat -> NM Z;
  icmp_recv : nat -> NM Z;
  g_worker_num : Z;
  current_worker : Z;
  cfg_ipv4_forward : bool
}.

Definition emit (e : event) : NM unit := modify (fun n => set_events n (events n ++ [e])).

(** *** Fields of a packet *)

Definition map_meta (g : skb_meta -> skb_meta) (k : skbuff) : skbuff :=
  mk_skb (g (meta k)) (tx_checksum_offset k) (l2_hdr k) (l3_hdr k) (l4_hdr k) (flag k) (data_num k) (data_total_len k) (data0 k) (more k).
Definition map_flag (g : skb_flag -> skb_flag) (k : skbuff) : skbuff :=
  mk_skb (meta k) (tx_checksum_offset k) (l2_hdr k) (l3_hdr k) (l4_hdr k) (g (flag k)) (data_num k) (data_total_len k) (data0 k) (more k).

Definition set_family (f : Z) : skbuff -> skbuff :=
  map_meta (fun t => mk_meta f (protocol t) (sock t) (tcp_seq t) (tcp_flag t) (recv_if t) (route t)).
Definition set_route (r : option nat) : skbuff -> skbuff :=
  map_meta (fun t => mk_meta (family t) (protocol t) (sock t) (tcp_seq t) (tcp_flag t) (recv_if t) r).
Definition set_is_frag : skbuff -> skbuff :=
  map_flag (fun g => mk_flag (is_clone g) (is_copy g) true (is_defrag g) (is_forward g) (is_hw_rcv_checksum g)).
Definition set_is_forward : skbuff -> skbuff :=
  map_flag (fun g => mk_flag (is_clone g) (is_copy g) (is_frag g) (is_defrag g) true (is_hw_rcv_checksum g)).

Definition modify_skb (id : nat) (g : skbuff -> skbuff) : NM unit := o ← get id; set_skb id (g (skb o)).

Definition transmit_skb_2_worker (w : Z) (id : nat) : NM unit := inc_ref id;; emit (Moved w id).

Section ip.
Context `{IpEnv}.

(** *** Routes of packets *)

Definition set_skb_route (id : nat) (fam : Z) (dip : list Z) : NM Z :=
  o ← get id;
  let t := meta (skb o) in
  if (match route t with Some r => route_info_check r | None => false end) then mret 0
  else
    modify_skb id (set_route None);;
    let ifindex := if fam =? AF_INET6 then match sock t with Some s => sock_scope s | None => 0 end else 0 in
    match search_route_table fam ifindex dip with
    | None => mret (-1)
    | Some r => modify_skb id (set_route (Some r));; mret 0
    end.

(** *** Output *)

(** The loop over the fragments after the first. *)
Fixpoint send_rest (id : nat) (l : list nat) : NM unit :=
  match l with
  | [] => mret tt
  | frag :: l =>
      set_frags id l;;
      o ← get frag;
      r ← must (route (meta (skb o)));
      if_send (route_if r) frag;;
      put_ref (Some frag);;
      send_rest id l
  end.

Definition skb_send_frags (id : nat) : NM Z :=
  o ← get id;
  r ← must (route (meta (skb o)));
  ret ← if_send (route_if r) id;
  o ← get id;
  if ret <? 0 then set_frags id [];; free_frags (frag_list o);; mret (-1)
  else send_rest id (frag_list o);; mret 0.

Definition next_ip_id : NM Z := i ← gets ip_id; modify (fun n => set_ip_id n (u32 (i + 1)));; mret i.

Definition new_ipv4_hdr (len id proto : Z) (sip dip : list Z) : option (list Z) :=
  let h := [IPV4_MAKE_VHL 4 5; 0] ++ le16_bytes (htons (u16 len)) ++ le16_bytes (htons (u16 id)) ++
           [0; 0; default_ttl; u8 proto; 0; 0] ++ sip ++ dip in
  match checksum h 0 with Some c => Some (set16 h 10 c) | None => None end.

(** The header in front of a packet of this host; false when there is no route,
    the packet is too long or memory is short. *)
Definition push_ipv4_hdr (id : nat) : NM bool :=
  o ← get id;
  s ← must (sock (meta (skb o)));
  ret ← set_skb_route id AF_INET (sock_dip s);
  if ret <? 0 then mret false
  else
    o ← get id;
    if UINT16_MAX - 20 <? Z.of_nat (data_total_len (skb o)) then mret false
    else
      '(ok, k) ← lift (skb_data_push (skb o) 20);
      if negb ok then set_skb id k;; mret false
      else
        i ← next_ip_id;
        h ← must (new_ipv4_hdr (Z.of_nat (data_total_len k)) i (protocol (meta k)) (sock_sip s) (sock_dip s));
        store_hdr (skb_start k) h;;
        set_skb id (set_l3 k (skb_start k));;
        mret true.

(** The packet as it is, or its fragments. *)
Definition ipv4_transmit (id : nat) : NM Z :=
  o ← get id;
  r ← must (route (meta (skb o)));
  let total_size := Z.of_nat (data_total_len (skb o)) in
  if total_size <=? if_mtu (route_if r) then if_send (route_if r) id
  else
    ok ← ipv4_frag (if_mtu (route_if r)) id;
    if negb ok then mret (-1) else skb_send_frags id.

Definition ipv4_output (id : nat) : NM Z :=
  o ← get id;
  ok ← (if is_forward (flag (skb o)) then mret true else push_ipv4_hdr id);
  if negb ok then mret (-1) else ipv4_transmit id.

(** One hop less to live. *)
Definition dec_ttl (h : list Z) : option (list Z) :=
  let h := set16 (overwrite h 8 [u8 (fld8 h 8 - 1)]) 10 0 in
  match checksum h 0 with Some c => Some (set16 h 10 c) | None => None end.

Definition ipv4_forward (id : nat) : NM Z :=
  if negb cfg_ipv4_forward then mret (-1)
  else
    h ← ipv4_hdr_of id;
    if fld8 h 8 <=? 1 then mret (-1)
    else
      modify_skb id set_is_forward;;
      o ← get id;
      h ← load_hdr (l3_hdr (skb o)) (Z.to_nat (ip_hdr_len h));
      h ← must (dec_ttl h);
      store_hdr (l3_hdr (skb o)) h;;
      ipv4_output id.

(** *** Reception *)

Definition check_ipv4_hdr (id : nat) : NM bool :=
  o ← get id;
  let k := skb o in
  h ← load_hdr (l3_hdr k) 20;
  if negb (IPV4_VHL_VERSION (fld8 h 0) =? 4) then mret false
  else
    let hdr_len := ip_hdr_len h in
    if (hdr_len <? 20) || (Z.of_nat (skb_data0_len k) <? hdr_len) then mret false
    else if fld8 h 8 =? 0 then mret false
    else
      let total_len := ip_tot_len h in
      if (total_len <? hdr_len) || (Z.of_nat (data_total_len k) <? total_len) then mret false
      else
        ok ← (if is_hw_rcv_checksum (flag k) then mret true
              else h ← load_hdr (l3_hdr k) (Z.to_nat hdr_len); c ← must (checksum h 0); mret (c =? 0));
        if negb ok then mret false
        else
          (if total_len <? Z.of_nat (data_total_len k) then
             k ← lift (skb_truncate k (Z.to_nat total_len)); set_skb id k
           else mret tt);;
          mret true.

Definition get_frag_worker (h : list Z) : Z :=
  if g_worker_num <=? 1 then current_worker
  else Z.lxor (Z.lxor (Z.lxor (fld32 h 12) (fld32 h 16)) (fld16 h 4)) (fld8 h 9) mod g_worker_num.

Definition ipv4_tcp_software_rss_worker (id : nat) (h : list Z) : NM Z :=
  if (g_worker_num <=? 1) || negb (IPV4_VHL_VERSION (fld8 h 0) =? 4) || (IPV4_VHL_IHL (fld8 h 0) <? 5) ||
     negb (fld8 h 9 =? IPPROTO_TCP) || ipv4_is_frag h then mret current_worker
  else
    o ← get id;
    let header_len := ip_hdr_len h in
    if Z.of_nat (data_total_len (skb o)) <? header_len then mret current_worker
    else
      ports ← lift (skb_copy_bits (skb o) (Z.to_nat header_len) 4);
      match ports with
      | None => mret current_worker
      | Some ports =>
          must (select_worker_by_tuple false g_worker_num AF_INET (take 4 (drop 12 h)) (take 4 (drop 16 h))
                  (fld16 ports 0) (fld16 ports 2))
      end.

(** The switch on the protocol. *)
Definition ipv4_dispatch (proto : Z) (id : nat) : NM Z :=
  if proto =? IPPROTO_TCP then tcp_recv id
  else if proto =? IPPROTO_UDP then udp_recv id
  else if proto =? IPPROTO_ICMP then icmp_recv id
  else mret (-1).

(** From the complete packet on: the header goes, the protocol's handler runs. *)
Definition ipv4_deliver (id : nat) : NM Z :=
  h ← ipv4_hdr_of id;
  o ← get id;
  let p := l3_hdr (skb o) in
  let ipv4_hdr_len := Z.to_nat (ip_hdr_len h) in
  '(consumed, k) ← lift (skb_consume (skb o) ipv4_hdr_len true);
  set_skb id k;;
  if negb (consumed =? ipv4_hdr_len)%nat then
    (if is_defrag (flag k) then put_ref (Some id) else mret tt);; mret (-1)
  else
    h ← load_hdr p 20;
    ret ← ipv4_dispatch (fld8 h 9) id;
    o ← get id;
    (if is_defrag (flag (skb o)) then put_ref (Some id) else mret tt);;
    mret ret.

Definition ipv4_recv (id : nat) : NM Z :=
  modify_skb id (set_family AF_INET);;
  o ← get id;
  if (skb_data0_len (skb o) <? 20)%nat then mret (-1)
  else
    modify_skb id (fun k => set_l3 k (skb_start k));;
    ok ← check_ipv4_hdr id;
    if negb ok then mret (-1)
    else
      h ← ipv4_hdr_of id;
      let frag_worker := get_frag_worker h in
      if ipv4_is_frag h && negb (frag_worker =? current_worker) then transmit_skb_2_worker frag_worker id;; mret 0
      else
        rss_worker ← ipv4_tcp_software_rss_worker id h;
        if negb (rss_worker =? current_worker) then transmit_skb_2_worker rss_worker id;; mret 0
        else
          ret ← set_skb_route id AF_INET (take 4 (drop 16 h));
          if ret <? 0 then mret (-1)
          else
            o ← get id;
            r ← must (route (meta (skb o)));
            if negb (route_type r =? RTN_LOCAL) && negb (route_type r =? RTN_BROADCAST) then ipv4_forward id
            else if ipv4_is_frag h then
              modify_skb id set_is_frag;;
              re ← ipv4_defrag id;
              match re with
              | None => mret 0
              | Some re => ipv4_deliver re
              end
            else ipv4_deliver id.

End ip.
End Ip.
