(* ===== verification/IpHdr.v ===== *)
(** IPv4 headers as bytes: a checksum stored makes the header verify, and what the
    headers of new, forwarded and fragmented packets contain. *)

From stdpp Require Import prelude list gmap.
From Stdlib Require Import ZArith Lia.
From S2P Require Import Prelude Checksum Rss Skbuff SkbuffMem SkbuffOps Net NetInv IpFrag IpFragHdr IpFragOut Ip.
Import Skb Net IpFrag Ip.

(** *** Checksums *)

(** The header with its checksum computed. *)
Definition summed (h : list Z) : list Z :=
  match checksum (set16 h 10 0) 0 with Some c => set16 (set16 h 10 0) 10 c | None => h end.

Lemma summed_eq h : exists c, is_u16 c /\ checksum (set16 h 10 0) 0 = Some c /\ summed h = set16 (set16 h 10 0) 10 c.
Proof. unfold summed. destruct (checksum_u16 (set16 h 10 0)) as (c&->&Hc). eauto. Qed.

Lemma length_summed h : (12 <= length h)%nat -> length (summed h) = length h.
Proof. intros Hl. destruct (summed_eq h) as (c&_&_&->). by rewrite !length_set16 by hlen. Qed.

Lemma summed_bytes h : is_bytes h -> is_bytes (summed h).
Proof. intros Hb. destruct (summed_eq h) as (c&_&_&->). by do 2 apply set16_bytes. Qed.

Lemma summed_fld8 h j : (12 <= length h)%nat -> j ∉ [10; 11]%nat -> fld8 (summed h) j = fld8 h j.
Proof.
  intros Hl Hj. destruct (summed_eq h) as (c&_&_&->). rewrite !fld8_set16 by hlen. rewrite !not_elem_of_cons in Hj.
  by rewrite !(proj2 (Nat.eqb_neq _ _)) by lia.
Qed.

Lemma summed_checksummed h : (12 <= length h)%nat -> checksummed (summed h).
Proof.
  intros Hl. unfold checksummed. destruct (summed_eq h) as (c&Hc&E&->). rewrite !set16_set16 by hlen. rewrite fld16_set16 by (done || hlen). done.
Qed.

Lemma set16_split h v : (12 <= length h)%nat -> set16 h 10 v = take 10 h ++ le16_bytes v ++ drop 12 h.
Proof. done. Qed.

(** A header with its checksum verifies at the receiver. *)
Lemma checksummed_verifies h : is_bytes h -> (12 <= length h <= 60)%nat -> checksummed h -> checksum h 0 = Some 0.
Proof.
  intros Hb Hl Hc. unfold checksummed in Hc. destruct (checksum_store (take 10 h) (drop 12 h) 0) as (c&E&Hu&Ev).
  - rewrite length_take. by replace (10 `min` length h)%nat with 10%nat by lia.
  - by apply Forall_take.
  - by apply Forall_drop.
  - rewrite length_take, length_drop. lia.
  - lia.
  - assert (E0 : set16 h 10 0 = take 10 h ++ [0; 0] ++ drop 12 h) by by rewrite set16_split by lia. rewrite E0, E in Hc. injection Hc as ->.
    rewrite <- Ev. f_equal. rewrite <- set16_split by lia. symmetry. apply set16_same; [done|lia].
Qed.

Lemma rewritten_summed h field tot : rewritten h field tot = summed (set16 (set16 h 6 field) 2 tot).
Proof.
  unfold rewritten, rewrite_header, summed. destruct (checksum_u16 (set16 (set16 (set16 h 6 field) 2 tot) 10 0)) as (c&->&_). done.
Qed.

Lemma frag_header_checksummed h off mf len : (20 <= length h)%nat -> checksummed (frag_header h off mf len).
Proof. intros Hl. unfold frag_header. rewrite rewritten_summed. apply summed_checksummed. hlen. Qed.

(** *** Headers that pass the checks of reception *)

Record good_hdr (h : list Z) : Prop := {
  gh_version : IPV4_VHL_VERSION (fld8 h 0) = 4;
  gh_ttl : fld8 h 8 <> 0;
  gh_sum : checksum h 0 = Some 0
}.

Lemma ihl_bound h : ip_hdr_len h <= 60.
Proof.
  unfold ip_hdr_len, IPV4_VHL_IHL. change 15 with (Z.ones 4). rewrite Z.land_ones by lia. pose proof (Z.mod_pos_bound (fld8 h 0) (2 ^ 4)). lia.
Qed.

Lemma ip_pkt_len h pay : ip_pkt h pay -> (20 <= length h <= 60)%nat.
Proof. intros [H1 H2 _ _]. pose proof (ihl_bound h). lia. Qed.

Lemma good_frag_header h off mf len : (20 <= length h <= 60)%nat -> is_bytes h -> good_hdr h -> good_hdr (frag_header h off mf len).
Proof.
  intros Hl Hb [G1 G2 G3]. split.
  - by rewrite frag_header_fld8 by (compute_done || lia).
  - by rewrite frag_header_fld8 by (compute_done || lia).
  - apply checksummed_verifies; [by apply rewritten_bytes|rewrite length_frag_header; lia|apply frag_header_checksummed; lia].
Qed.

(** *** A new header *)

Definition raw_hdr (len id proto : Z) (sip dip : list Z) : list Z :=
  [IPV4_MAKE_VHL 4 5; 0] ++ le16_bytes (htons (u16 len)) ++ le16_bytes (htons (u16 id)) ++ [0; 0; default_ttl; u8 proto; 0; 0] ++ sip ++ dip.

Section new_hdr.
Context (len id proto : Z) (sip dip : list Z).
Hypothesis (Hs : length sip = 4%nat) (Hd : length dip = 4%nat) (Hsb : is_bytes sip) (Hdb : is_bytes dip).

Lemma length_raw : length (raw_hdr len id proto sip dip) = 20%nat.
Proof. unfold raw_hdr. rewrite !length_app, Hs, Hd. done. Qed.

Lemma new_hdr_summed : new_ipv4_hdr len id proto sip dip = Some (summed (raw_hdr len id proto sip dip)).
Proof.
  assert (E : set16 (raw_hdr len id proto sip dip) 10 0 = raw_hdr len id proto sip dip) by by rewrite set16_split by (rewrite length_raw; lia).
  unfold new_ipv4_hdr, summed. fold (raw_hdr len id proto sip dip). rewrite E. by destruct (checksum_u16 (raw_hdr len id proto sip dip)) as (c&->&_).
Qed.

Lemma raw_bytes : is_bytes (raw_hdr len id proto sip dip).
Proof.
  assert (Hp : is_byte (u8 proto)) by (pose proof (wrap_range 8 proto ltac:(lia)) as H; unfold is_u in H; unfold is_byte; lia).
  unfold raw_hdr. repeat (apply Forall_app; split); try done; try apply le16_bytes_bytes; repeat (apply Forall_cons_2; [try done; unfold is_byte; vm_compute; intuition congruence|]); done.
Qed.

(** What a header for [len] bytes says. *)
Record says (h : list Z) : Prop := {
  hs_len : length h = 20%nat;
  hs_bytes : is_bytes h;
  hs_good : good_hdr h;
  hs_sum : checksummed h;
  hs_ihl : ip_hdr_len h = 20;
  hs_tot : ip_tot_len h = len;
  hs_field : fld16 h 6 = 0;
  hs_proto : fld8 h 9 = u8 proto;
  hs_sip : take 4 (drop 12 h) = sip;
  hs_dip : take 4 (drop 16 h) = dip
}.

Lemma new_hdr_says : 0 <= len <= UINT16_MAX -> says (summed (raw_hdr len id proto sip dip)).
Proof.
  intros Hlen. set (r := raw_hdr len id proto sip dip). pose proof length_raw as Hl. fold r in Hl. pose proof raw_bytes as Hb. fold r in Hb.
  assert (Hf : forall j, j ∉ [10; 11]%nat -> fld8 (summed r) j = fld8 r j) by (intros j Hj; apply summed_fld8; [lia|done]).
  assert (Hdrop : forall i, (12 <= i)%nat -> drop i (summed r) = drop i r).
  { intros i Hi. destruct (summed_eq r) as (c&_&_&->). rewrite set16_set16, set16_split by lia. rewrite app_assoc, drop_app_ge by (rewrite length_app, length_take; cbn; lia).
    rewrite length_app, length_take, drop_drop. f_equal. cbn. lia. }
  split; unfold ip_hdr_len, ip_tot_len, fld16; rewrite ?Hf by compute_done; try done.
  - by rewrite length_summed by lia.
  - by apply summed_bytes.
  - split; rewrite ?Hf by compute_done; [done..|]. apply checksummed_verifies; [by apply summed_bytes|rewrite length_summed; lia|apply summed_checksummed; lia].
  - apply summed_checksummed. lia.
  - change (fld8 r 2) with (htons (u16 len) mod 256). change (fld8 r 3) with ((htons (u16 len) / 256) mod 256).
    rewrite le16_le16_bytes by apply htons_range. rewrite htons_involutive by (apply wrap_range; lia). apply wrap_id. unfold is_u, UINT16_MAX in *. lia.
  - rewrite Hdrop by lia. change (drop 12 r) with (sip ++ dip). by rewrite take_app_length'.
  - rewrite Hdrop by lia. unfold r, raw_hdr. rewrite !app_assoc. rewrite drop_app_length' by (rewrite !length_app, Hs; done). rewrite take_ge; [done|lia].
Qed.
End new_hdr.

(** *** A forwarded header *)

(** One hop less, and the checksum of that. *)
Definition hop (h : list Z) : list Z := summed (overwrite h 8 [u8 (fld8 h 8 - 1)]).

Lemma dec_ttl_hop h : dec_ttl h = Some (hop h).
Proof.
  unfold dec_ttl, hop, summed. destruct (checksum_u16 (set16 (overwrite h 8 [u8 (fld8 h 8 - 1)]) 10 0)) as (c&->&_). done.
Qed.

Lemma length_hop h : (20 <= length h)%nat -> length (hop h) = length h.
Proof. intros Hl. unfold hop. rewrite length_summed; rewrite length_overwrite; cbn; lia. Qed.

Lemma hop_bytes h : is_bytes h -> is_bytes (hop h).
Proof.
  intros Hb. apply summed_bytes. unfold overwrite. repeat (apply Forall_app; split); [by apply Forall_take| |by apply Forall_drop].
  apply Forall_cons_2; [|done]. pose proof (wrap_range 8 (fld8 h 8 - 1) ltac:(lia)) as H. unfold is_u in H. unfold is_byte. lia.
Qed.

Lemma hop_fld8 h j : (20 <= length h)%nat -> j ∉ [8; 10; 11]%nat -> fld8 (hop h) j = fld8 h j.
Proof.
  intros Hl Hj. rewrite !not_elem_of_cons in Hj. unfold hop. rewrite summed_fld8; [|rewrite length_overwrite; cbn; lia|].
  - unfold fld8. rewrite !nth_lookup, lookup_overwrite; [done|cbn; lia..].
  - rewrite !not_elem_of_cons. tauto.
Qed.

Lemma hop_ttl h : (20 <= length h)%nat -> fld8 (hop h) 8 = u8 (fld8 h 8 - 1).
Proof.
  intros Hl. unfold hop. rewrite summed_fld8; [|rewrite length_overwrite; cbn; lia|compute_done].
  unfold fld8 at 1. rewrite nth_lookup, lookup_overwrite_in; [done|cbn; lia..].
Qed.

Lemma hop_pkt h pay : ip_pkt h pay -> ip_pkt (hop h) pay.
Proof.
  intros [H1 H2 H3 H4]. split; rewrite ?length_hop by done; [done| | |by apply hop_bytes].
  - rewrite <- H2. unfold ip_hdr_len. by rewrite hop_fld8 by (done || compute_done).
  - rewrite <- H3. unfold ip_tot_len, fld16. by rewrite !hop_fld8 by (done || compute_done).
Qed.

Lemma good_hop h pay : ip_pkt h pay -> IPV4_VHL_VERSION (fld8 h 0) = 4 -> 1 < fld8 h 8 -> good_hdr (hop h).
Proof.
  intros Hp Hv Ht. pose proof (ip_pkt_len _ _ Hp) as Hl. pose proof (ip_bytes _ _ Hp) as Hb. split.
  - rewrite hop_fld8 by (lia || compute_done). done.
  - rewrite hop_ttl by lia. pose proof (fld8_byte h 8 Hb) as H. unfold is_byte in H. rewrite wrap_id by (unfold is_u; lia). lia.
  - apply checksummed_verifies; [by apply hop_bytes|rewrite length_hop; lia|]. apply summed_checksummed. rewrite length_overwrite; cbn; lia.
Qed.
