(* ===== verification/IpOut.v ===== *)
(** The sending side of the IPv4 layer: the route of a packet, the header put in
    front of it, the packet or its fragments handed to the interface.

    Interfaces are known by a contract: sending may change the packet it is given
    (a link header in front) and may fail or drop the packet, but it keeps no
    reference and touches nothing else. *)

From stdpp Require Import prelude list gmap.
From Stdlib Require Import ZArith Lia.
From S2P Require Import Prelude Checksum Rss Skbuff SkbuffMem SkbuffOps SkbuffFrame Net NetInv IpFrag IpFragHdr IpFragOut NetFrame Ip IpHdr.
Import Skb Net IpFrag Ip.

(** *** The contract of an interface *)

Definition with_skb (o : obj) (k : skbuff) : obj := mk_obj k (ref o) (frag_list o) (element o).

(** The state after the packet [id] has become [k']. *)
Record changed (n : net) (id : nat) (o : obj) (rest : list data_info) (f : nat -> nat) (k' : skbuff) (n' : net) : Prop := {
  ch_objs : objs n' = <[id := with_skb o k']> (objs n);
  ch_next : next_obj n' = next_obj n;
  ch_ipqs : ipqs n' = ipqs n;
  ch_ip_id : ip_id n' = ip_id n;
  ch_own : own (smem n') (chain k' ++ rest) f;
  ch_live : live (smem n') (chain k' ++ rest);
  ch_sound : sound (smem n') k';
  ch_same : same_on (smem n) (smem n') rest
}.

(** [frame] is what the link makes of a packet's bytes. *)
Class Link `{IpEnv} (frame : nat -> skb_meta -> list Z -> list Z) : Prop :=
  link_send ifx id n o rest f : objs n !! id = Some o -> own (smem n) (chain (skb o) ++ rest) f -> live (smem n) (chain (skb o) ++ rest) ->
    sound (smem n) (skb o) -> l3_hdr (skb o) = skb_start (skb o) -> (20 <= skb_data0_len (skb o))%nat ->
    family (meta (skb o)) = AF_INET -> (exists r, route (meta (skb o)) = Some r) ->
    nruns (if_send ifx id) n (fun ret n' => exists k' (sent : bool), changed n id o rest f k' n' /\ (ret < 0 -> sent = false) /\
      events n' = events n ++ (if sent then [Sent ifx (frame ifx (meta (skb o)) (content (smem n) (chain (skb o))))] else [])).

(** *** The route of a packet *)

Section route.
Context `{IpEnv}.

Definition pick_route (t : skb_meta) (fam : Z) (dip : list Z) : option nat :=
  match route t with
  | Some r => if route_info_check r then Some r else search_route_table fam (if fam =? AF_INET6 then match sock t with Some s => sock_scope s | None => 0 end else 0) dip
  | None => search_route_table fam (if fam =? AF_INET6 then match sock t with Some s => sock_scope s | None => 0 end else 0) dip
  end.

Lemma set_route_id k : set_route (route (meta k)) k = k.
Proof. by destruct k as [[]]. Qed.

Lemma nruns_modify_skb id o g n (Q : unit -> net -> Prop) : objs n !! id = Some o ->
  Q tt (set_objs n (<[id := with_skb o (g (skb o))]> (objs n))) -> nruns (modify_skb id g) n Q.
Proof. intros Ho HQ. apply nruns_bind. eapply nruns_get; [done|]. by eapply nruns_set_skb. Qed.

Lemma set_skb_route_spec n id o fam dip (Q : Z -> net -> Prop) : objs n !! id = Some o ->
  (let p := pick_route (meta (skb o)) fam dip in
   Q (if p then 0 else -1) (set_objs n (<[id := with_skb o (set_route p (skb o))]> (objs n)))) ->
  nruns (set_skb_route id fam dip) n Q.
Proof.
  intros Ho HQ. apply nruns_bind. eapply nruns_get; [done|]. unfold pick_route in HQ. cbv zeta in *.
  assert (Hs : forall p, p = search_route_table fam (if fam =? AF_INET6 then match sock (meta (skb o)) with Some s => sock_scope s | None => 0 end else 0) dip ->
    Q (if p then 0 else -1) (set_objs n (<[id := with_skb o (set_route p (skb o))]> (objs n))) ->
    nruns (modify_skb id (set_route None);; match p with None => mret (-1) | Some r => modify_skb id (set_route (Some r));; mret 0 end) n Q).
  { intros p Ep HQp. apply nruns_bind. eapply nruns_modify_skb; [done|]. destruct p as [r|]; [|by apply nruns_ret]. apply nruns_bind.
    eapply nruns_modify_skb; [apply lookup_insert_eq|]. apply nruns_ret. cbn. rewrite insert_insert_eq. exact HQp. }
  destruct (route (meta (skb o))) as [r|] eqn:Er; [|exact (Hs _ eq_refl HQ)]. destruct (route_info_check r); [|exact (Hs _ eq_refl HQ)].
  apply nruns_ret. cbn in HQ. rewrite <- Er, set_route_id in HQ. unfold with_skb in HQ.
  rewrite (insert_id (objs n) id) in HQ by (by destruct o). by destruct n.
Qed.
End route.

(** *** The header of a new packet *)

Section push.
Context `{IpEnv}.

Lemma nruns_must {A} (a : A) n (Q : A -> net -> Prop) : Q a n -> nruns (must (Some a)) n Q.
Proof. done. Qed.

Lemma with_skb_twice o k k' : with_skb (with_skb o k) k' = with_skb o k'.
Proof. done. Qed.

(** The packet with its header, in the state [n] but for the packet, the memory
    and the counter. *)
Definition headed (n : net) (id : nat) (o : obj) (f : nat -> nat) (r : nat) (h pay : list Z) (n' : net) : Prop :=
  exists k m, n' = set_ip_id (set_mem (set_objs n (<[id := with_skb o k]> (objs n))) m) (u32 (ip_id n + 1)) /\
    own m (chain k) f /\ ip_obj m k h pay /\ meta k = meta (set_route (Some r) (skb o)) /\ is_forward (flag k) = is_forward (flag (skb o)).

(** No header: the packet's bytes are what they were. *)
Definition headless (n : net) (id : nat) (o : obj) (f : nat -> nat) (n' : net) : Prop :=
  exists k m, n' = set_mem (set_objs n (<[id := with_skb o k]> (objs n))) m /\
    own m (chain k) f /\ sound m k /\ content m (chain k) = content (smem n) (chain (skb o)).

Lemma skb_data_push_flag k n : ans (skb_data_push k n) (fun '(_, k') => flag k' = flag k).
Proof.
  unfold skb_data_push. eapply ans_bind with (P := fun '(_, k') => flag k' = flag k).
  - unfold skb_data_expand. by ans.
  - intros [[] k'] E; by ans.
Qed.

(** Room made by [skb_data_push], then the header stored there. *)
Lemma push_store n k f h pay (Q : bool * skbuff -> net -> Prop) : own (smem n) (chain k) f -> sound (smem n) k -> content (smem n) (chain k) = pay ->
  (forall m, own m (chain k) f -> sound m k -> content m (chain k) = pay -> Q (false, k) (set_mem n m)) ->
  (forall k' m, meta k' = meta k -> flag k' = flag k -> Z.of_nat (data_total_len k') = Z.of_nat (data_total_len k) + Z.of_nat (length h) ->
     (forall n' (Q' : unit -> net -> Prop), smem n' = m -> (forall m', own m' (chain k') f -> sound m' k' -> (length h <= skb_data0_len k')%nat ->
        content m' (chain k') = h ++ pay -> Q' tt (set_mem n' m')) -> nruns (store_hdr (skb_start k') h) n' Q') -> Q (true, k') (set_mem n m)) ->
  nruns (lift (skb_data_push k (length h))) n Q.
Proof.
  intros Ho [Hc Ha] Hp HF HT. destruct (alive_chain _ k Hc Ha) as (Hl&_). pose proof (push_apart (smem n) k [] f h) as Hpush. rewrite app_nil_r in Hpush.
  specialize (Hpush Ho Hl Hc Ha). pose proof (skb_data_push_meta k (length h) (smem n)) as Hm. pose proof (skb_data_push_flag k (length h) (smem n)) as Hf.
  apply nruns_lift. unfold runs, push_header, mbind, M_bind in *. destruct (skb_data_push k (length h) (smem n)) as [[[ok k'] m1]|]; [|done].
  specialize (Hm _ _ eq_refl). specialize (Hf _ _ eq_refl). cbn in Hm, Hf. destruct ok.
  - destruct (write (slot (data0 k')) (start (data0 k')) h m1) as [[[] m2]|] eqn:Ew; [|done]. destruct Hpush as [[A1 A2 A3 A4 A5 A6] Hlen].
    rewrite app_nil_r in A1. apply HT; [done|done| |].
    + pose proof (chain_content _ _ A3) as L1. pose proof (chain_content _ _ Hc) as L2. rewrite A5, length_app in L1. rewrite Hp in L1, L2. lia.
    + intros n' Q' Em HQ'. unfold skb_start. destruct A2 as [[(s&fs&Hs&_) _]%Forall_cons _]. rewrite Hs in *. cbn [store_hdr]. unfold nruns, lift. rewrite Em, Ew.
      apply HQ'; [done|done|done|]. by rewrite A5, Hp.
  - destruct Hpush as [-> [A1 A2 A3 A4 A5 A6]]. rewrite app_nil_r in A1. apply HF; [done|done|]. by rewrite A5.
Qed.

Lemma ip_obj_l3 m k h pay : sound m k -> (length h <= skb_data0_len k)%nat -> ip_pkt h pay -> content m (chain k) = h ++ pay ->
  ip_obj m (set_l3 k (skb_start k)) h pay.
Proof. intros Hs Hl Hp Hcn. split; try done. by eapply sound_same_data; [..|exact Hs]. Qed.

Context (n : net) (id : nat) (o : obj) (s : nat) (f : nat -> nat) (pay : list Z).
Hypothesis (Hobj : objs n !! id = Some o) (Hsock : sock (meta (skb o)) = Some s).
Hypothesis (Hown : own (smem n) (chain (skb o)) f) (Hsound : sound (smem n) (skb o)) (Hpay : content (smem n) (chain (skb o)) = pay).
Hypothesis (Hsip : length (sock_sip s) = 4%nat) (Hdip : length (sock_dip s) = 4%nat) (Hsb : is_bytes (sock_sip s)) (Hdb : is_bytes (sock_dip s)).

(** The header [ipv4_output] writes. *)
Definition out_hdr : list Z :=
  summed (raw_hdr (20 + Z.of_nat (length pay)) (ip_id n) (protocol (meta (skb o))) (sock_sip s) (sock_dip s)).

Lemma out_hdr_pkt : Z.of_nat (length pay) <= UINT16_MAX - 20 -> ip_pkt out_hdr pay /\
  says (20 + Z.of_nat (length pay)) (protocol (meta (skb o))) (sock_sip s) (sock_dip s) out_hdr.
Proof.
  intros Hlen. pose proof (new_hdr_says (20 + Z.of_nat (length pay)) (ip_id n) (protocol (meta (skb o))) _ _ Hsip Hdip Hsb Hdb ltac:(lia)) as Hs. split; [|done].
  destruct Hs as [H1 H2 _ _ H5 H6 _ _ _ _]. fold out_hdr in *. split; [lia|rewrite H5, H1; done|rewrite H6, H1; lia|done].
Qed.

Lemma push_ipv4_hdr_spec : nruns (push_ipv4_hdr id) n (fun ok n' =>
  if ok : bool then Z.of_nat (length pay) <= UINT16_MAX - 20 /\
    exists r, pick_route (meta (skb o)) AF_INET (sock_dip s) = Some r /\ headed n id o f r out_hdr pay n'
  else headless n id o f n').
Proof.
  apply nruns_bind. eapply nruns_get; [done|]. rewrite Hsock. apply nruns_bind, nruns_must, nruns_bind. eapply set_skb_route_spec; [done|]. cbv zeta.
  set (p := pick_route _ _ _). set (n1 := set_objs _ _). set (k1 := set_route p (skb o)).
  assert (Hs1 : sound (smem n1) k1) by (by eapply sound_same_data; [..|exact Hsound]).
  assert (Hfail : forall k m, own m (chain k) f -> sound m k -> content m (chain k) = pay -> headless n id o f (set_mem (set_objs n (<[id := with_skb o k]> (objs n))) m)).
  { intros k m H1 H2 H3. exists k, m. by rewrite H3, Hpay. }
  assert (Hn1 : set_mem n1 (smem n1) = n1) by by destruct n. destruct p as [r|] eqn:Ep; cbn [Z.ltb Z.compare].
  2:{ apply nruns_ret. rewrite <- Hn1. by apply (Hfail k1). }
  apply nruns_bind. eapply nruns_get; [apply lookup_insert_eq|]. cbn [with_skb skb].
  assert (Hlen : data_total_len (set_route (Some r) (skb o)) = length pay) by (rewrite <- Hpay; symmetry; exact (chain_content _ _ (proj1 Hs1))).
  rewrite Hlen. destruct (Z.ltb_spec (UINT16_MAX - 20) (Z.of_nat (length pay))) as [|Hle]; [apply nruns_ret; rewrite <- Hn1; by apply (Hfail k1)|].
  destruct (out_hdr_pkt Hle) as [Hpkt Hsays]. apply nruns_bind. replace 20%nat with (length out_hdr) by apply Hsays.
  eapply (push_store n1 k1 f out_hdr pay); [done|done|done| |].
  - intros m H1 H2 H3. cbn [negb]. apply nruns_bind. eapply nruns_set_skb; [apply lookup_insert_eq|]. apply nruns_ret. cbn. rewrite insert_insert_eq. by apply (Hfail k1).
  - intros k' m Hm Hf Ht Hst. cbn [negb]. apply nruns_bind. unfold next_ip_id. apply nruns_bind. unfold gets, nruns at 1. cbv beta iota. apply nruns_bind.
    unfold modify, nruns at 1. cbv beta iota. apply nruns_ret, nruns_bind. cbn [ip_id set_mem].
    rewrite Hm, Ht. replace (Z.of_nat (data_total_len k1) + Z.of_nat (length out_hdr)) with (20 + Z.of_nat (length pay)).
    2:{ rewrite (hs_len _ _ _ _ _ Hsays). change (data_total_len k1) with (data_total_len (set_route (Some r) (skb o))). rewrite Hlen. lia. }
    change (protocol (meta k1)) with (protocol (meta (skb o))). change (ip_id n1) with (ip_id n). rewrite new_hdr_summed by done. fold out_hdr.
    apply nruns_must, nruns_bind. apply Hst; [done|]. intros m' H1 H2 H3 H4. apply nruns_bind. eapply nruns_set_skb; [apply lookup_insert_eq|].
    apply nruns_ret. split; [done|]. exists r. split; [done|]. exists (set_l3 k' (skb_start k')), m'. cbn. rewrite insert_insert_eq.
    split_and!; [done|done|by apply ip_obj_l3|exact Hm|by rewrite Hf].
Qed.
End push.

(** *** Packets handed to the interface *)

Lemma made_ext N g id n n' ho l : objs n' = objs n -> next_obj n' = next_obj n -> made N g id n ho l -> made N g id n' ho l.
Proof. intros E1 E2 [H1 H2 H3 H4 H5 H6 H7 H8]. by split; rewrite ?E1, ?E2. Qed.

Lemma live_same_on m m' l : same_on m m' l -> live m l -> live m' l.
Proof. intros [Hi _] [_ Hn]. by split. Qed.

Lemma live_app_r m l1 l2 : live m (l1 ++ l2) -> live m l2.
Proof. intros [[_ Hi]%Forall_app Hn]. split; [done|]. rewrite fmap_app in Hn. by apply NoDup_app in Hn as (_&_&Hn). Qed.

Section send.
Context `{IpEnv} (frame : nat -> skb_meta -> list Z -> list Z) `{!Link frame}.

Definition sent_as (r : nat) (m : mem) (k : skbuff) : event := Sent (route_if r) (frame (route_if r) (meta k) (content m (chain k))).

(** A packet ready to be sent over the route [r]. *)
Record ready (r : nat) (m : mem) (k : skbuff) : Prop := {
  rd_sound : sound m k;
  rd_l3 : l3_hdr k = skb_start k;
  rd_len : (20 <= skb_data0_len k)%nat;
  rd_route : route (meta k) = Some r;
  rd_family : family (meta k) = AF_INET
}.

Lemma ready_same r m m' k : same_on m m' (chain k) -> ready r m k -> ready r m' k /\ sent_as r m' k = sent_as r m k.
Proof.
  intros Hs [[Hc Ha] H2 H3 H4 H5]. split.
  - split; try done. split; [by eapply same_on_ok|done].
  - unfold sent_as. by rewrite (same_on_content _ _ _ Hs).
Qed.

Lemma ready_all_same r m m' l : same_on m m' (chains l) -> Forall (ready r m) l.*2 ->
  Forall (ready r m') l.*2 /\ sent_as r m' <$> l.*2 = sent_as r m <$> l.*2.
Proof.
  induction l as [|[i k] l IH]; [done|]. rewrite chains_cons. intros Hs [Hk Hl]%Forall_cons.
  destruct (ready_same r m m' k) as [R1 R2]; [by eapply same_on_sub; [exact Hs|sublist]|done|].
  destruct IH as [I1 I2]; [by eapply same_on_sub; [exact Hs|sublist]|done|]. split; [by constructor|]. cbn. by rewrite R2, I2.
Qed.

(** What a sequence of sends leaves: the packet [id] and events for some of [evs]. *)
Definition sending (n : net) (evs : list event) (n' : net) : Prop :=
  ip_id n' = ip_id n /\ exists sub, sub `sublist_of` evs /\ events n' = events n ++ sub.

Lemma sending_refl n evs : sending n evs n.
Proof. split; [done|]. exists []. rewrite app_nil_r. split; [apply sublist_nil_l|done]. Qed.

Lemma sending_trans n1 n2 n3 e1 e2 : sending n1 e1 n2 -> sending n2 e2 n3 -> sending n1 (e1 ++ e2) n3.
Proof.
  intros (A1&s1&A3&A4) (B1&s2&B3&B4). split; [congruence|]. exists (s1 ++ s2).
  split; [by apply sublist_app|]. by rewrite B4, A4, app_assoc.
Qed.

Lemma sending_calm n n' : calm n n' -> sending n [] n'.
Proof. intros (A1&A2&_). split; [done|]. exists []. by rewrite app_nil_r. Qed.

Section rest.
Context (N : nat) (g : gmap nat obj) (id r : nat) (k0 : skbuff) (r0 : nat) (e : option nat) (f : nat -> nat).

Lemma send_rest_spec l : forall n, made N g id n (mk_obj k0 r0 l.*1 e) l -> own (smem n) (chains l ++ chain k0) f -> live (smem n) (chains l ++ chain k0) ->
  Forall (ready r (smem n)) l.*2 ->
  nruns (send_rest id l.*1) n (fun _ n' => made N g id n' (mk_obj k0 r0 [] e) [] /\ own (smem n') (chain k0) f /\
    same_on (smem n) (smem n') (chain k0) /\ sending n (sent_as r (smem n) <$> l.*2) n').
Proof.
  induction l as [|[i k] l IH]; intros n Hm Ho Hl Hr; cbn [send_rest fmap list_fmap fst snd].
  { apply nruns_ret. split_and!; [done|done| |apply sending_refl]. split; [by destruct Hl|done]. }
  rewrite chains_cons, <- app_assoc in Ho, Hl. apply Forall_cons in Hr as [[K1 K2 K3 K4 K5] Hr]. cbn [fst snd] in *. apply nruns_bind.
  eapply nruns_set_frags; [apply Hm|]. cbn [skb ref element]. apply (made_head _ _ _ _ _ (mk_obj k0 r0 l.*1 e)) in Hm. set (n1 := set_objs _ _) in *.
  assert (Hi : objs n1 !! i = Some (single k)) by (apply (md_objs _ _ _ _ _ _ Hm); left).
  apply nruns_bind. eapply nruns_get; [exact Hi|]. cbn [skb single]. rewrite K4. apply nruns_bind, nruns_must, nruns_bind.
  eapply nruns_mono; [eapply (link_send (route_if r) i n1 (single k) (chains l ++ chain k0) f Hi Ho Hl K1 K2 K3 K5 (ex_intro _ _ K4))|].
  intros ret n2 (k'&sent&[C1 C2 C3 C4 C5 C6 C7 C8]&_&Hev). apply nruns_bind.
  assert (Hm2 : made N g id n2 (mk_obj k0 r0 l.*1 e) ((i, k') :: l)) by (apply (made_ext _ _ _ (set_objs n1 (<[i := single k']> (objs n1)))); [exact C1|exact C2|by eapply made_set]).
  eapply nruns_mono; [apply (nruns_quiet _ _ _ (made_free _ _ _ _ _ _ _ _ _ _ Hm2 C5)), quiet_put_ref|]. intros [] n3 ((Hm3&Ho3&Hk3)&Hc3).
  assert (Hs3 : same_on (smem n2) (smem n3) (chains l ++ chain k0)) by (eapply kept_same; [exact C5|exact Ho3|exact Hk3|by destruct C8|sublist]).
  pose proof (same_on_trans _ _ _ _ C8 Hs3) as Hs. change (smem n1) with (smem n) in Hs. destruct (ready_all_same r (smem n) (smem n3) l) as [Hr3 Hev3];
    [by eapply same_on_sub; [exact Hs|sublist]|done|].
  eapply nruns_mono; [apply (IH n3 Hm3 Ho3); [|exact Hr3]|].
  - eapply live_same_on; [exact Hs3|]. by apply live_app_r in C6.
  - intros [] n4 (M4&O4&S4&E4). split_and!; [done|done| |].
    + eapply same_on_trans; [by eapply same_on_sub; [exact Hs|sublist]|done].
    + rewrite Hev3 in E4. apply (sending_trans n n3 n4 [sent_as r (smem n) k]); [|done].
      destruct Hc3 as (c1&c2&_). split; [by rewrite c2, C4|].
      exists (if sent then [sent_as r (smem n) k] else []). split; [destruct sent; [done|apply sublist_nil_l]|]. by rewrite c1, Hev.
Qed.
End rest.

Lemma skb_send_frags_spec N g id r k0 r0 e f l n : made N g id n (mk_obj k0 r0 l.*1 e) l -> own (smem n) (chain k0 ++ chains l) f -> live (smem n) (chain k0 ++ chains l) ->
  Forall (ready r (smem n)) (k0 :: l.*2) ->
  nruns (skb_send_frags id) n (fun ret n' => exists k', made N g id n' (mk_obj k' r0 [] e) [] /\ own (smem n') (chain k') f /\
    sound (smem n') k' /\ sending n (sent_as r (smem n) <$> (k0 :: l.*2)) n').
Proof.
  intros Hm Ho Hl [[K1 K2 K3 K4 K5] Hr]%Forall_cons. pose proof (md_head _ _ _ _ _ _ Hm) as Hid. apply nruns_bind. eapply nruns_get; [exact Hid|].
  cbn [skb]. rewrite K4. apply nruns_bind, nruns_must, nruns_bind.
  eapply nruns_mono; [eapply (link_send (route_if r) id n _ (chains l) f Hid Ho Hl K1 K2 K3 K5 (ex_intro _ _ K4))|].
  intros ret n1 (k'&sent&[C1 C2 C3 C4 C5 C6 C7 C8]&Hret&Hev). cbn [skb with_skb ref frag_list element] in *.
  assert (Hm1 : made N g id n1 (mk_obj k' r0 l.*1 e) l) by (apply (made_ext _ _ _ (set_objs n (<[id := mk_obj k' r0 l.*1 e]> (objs n)))); [exact C1|exact C2|by eapply made_head]).
  assert (Hfirst : sending n [sent_as r (smem n) k0] n1).
  { split; [done|]. exists (if sent then [sent_as r (smem n) k0] else []). split; [destruct sent; [done|apply sublist_nil_l]|done]. }
  apply nruns_bind. eapply nruns_get; [apply Hm1|]. cbn [frag_list].
  assert (Ho1 : own (smem n1) (chains l ++ chain k') f) by (eapply own_perm; [|exact C5]; solve_Permutation).
  destruct (Z.ltb_spec ret 0) as [Hneg|_].
  - apply nruns_bind. eapply nruns_set_frags; [apply Hm1|]. cbn [skb ref element]. apply (made_head _ _ _ _ _ (mk_obj k' r0 [] e)) in Hm1. apply nruns_bind.
    eapply nruns_mono; [apply (nruns_quiet _ _ _ (free_frags_spec _ _ _ l _ _ (chain k') f Hm1 Ho1 ltac:(by destruct C6 as [[? _]%Forall_app _]))), quiet_free_frags|].
    intros [] n2 ((Hm2&Ho2&Hs2)&Hc2). apply nruns_ret. exists k'. split_and!; [done|done|by eapply sound_same|].
    rewrite fmap_cons. destruct (sending_trans _ _ _ _ _ Hfirst (sending_calm _ _ Hc2)) as (E1&sub&E2&E3). split; [done|]. exists sub. split; [|done].
    etrans; [exact E2|]. apply (sublist_app [_] [_]); [done|apply sublist_nil_l].
  - apply nruns_bind. destruct (ready_all_same r (smem n) (smem n1) l C8 Hr) as [Hr1 He1].
    eapply nruns_mono; [eapply (send_rest_spec N g id r k' r0 e f l n1); [|exact Ho1| |exact Hr1]|].
    + exact Hm1.
    + eapply live_perm'; [|exact C6]. solve_Permutation.
    + intros [] n2 (Hm2&Ho2&Hs2&He2). apply nruns_ret. exists k'. split_and!; [done|done|by eapply sound_same|].
      rewrite He1 in He2. by apply (sending_trans _ _ _ [_] _ Hfirst).
Qed.

(** The packets on the wire for the packet [h ++ pay]. *)
Definition wire (mtu : Z) (h pay : list Z) : list (list Z) :=
  if Z.of_nat (length h + length pay) <=? mtu then [h ++ pay]
  else fragments (S (length pay)) h (Z.to_nat (8 * ((mtu - Z.of_nat (length h)) / 8))) (ipv4_get_flag_mf h) (ipv4_get_frag_offset h * 8) pay.

Definition on_wire (r : nat) (t : skb_meta) (bs : list Z) : event := Sent (route_if r) (frame (route_if r) t bs).

(** The packet as the sender keeps it. *)
Definition left_with (n : net) (id : nat) (o : obj) (f : nat -> nat) (n' : net) : Prop :=
  exists k', made (next_obj n) (objs n) id n' (mk_obj k' (ref o) [] (element o)) [] /\ own (smem n') (chain k') f /\ sound (smem n') k'.

Section transmit.
Context (n : net) (id : nat) (o : obj) (h pay : list Z) (f : nat -> nat) (r : nat).
Hypothesis (Hobj : objs n !! id = Some o) (Hfl : frag_list o = []) (Hnew : forall i, (next_obj n <= i)%nat -> objs n !! i = None).
Hypothesis (Hio : ip_obj (smem n) (skb o) h pay) (Hown : own (smem n) (chain (skb o)) f) (Hroute : route (meta (skb o)) = Some r).
Hypothesis (Hfam : family (meta (skb o)) = AF_INET).

Lemma frags_ready hl bytes n' : (20 <= hl)%nat -> frags_left n id o f hl bytes n' ->
  (forall i o', objs n' !! i = Some o' -> i = id \/ (next_obj n <= i)%nat -> meta (skb o') = meta (skb o)) ->
  exists k0 l, made (next_obj n) (objs n) id n' (mk_obj k0 (ref o) l.*1 (element o)) l /\ own (smem n') (chain k0 ++ chains l) f /\
    live (smem n') (chain k0 ++ chains l) /\ Forall (ready r (smem n')) (k0 :: l.*2) /\
    sent_as r (smem n') <$> (k0 :: l.*2) = on_wire r (meta (skb o)) <$> bytes.
Proof.
  intros Hhl (k0&l&Hm&Ho&Hl&Hb&Hf) Hmeta. exists k0, l.
  assert (Hall : Forall (fun k => meta k = meta (skb o)) (k0 :: l.*2)).
  { apply Forall_cons. split; [apply (Hmeta id _ (md_head _ _ _ _ _ _ Hm)); by left|]. apply Forall_forall.
    intros k ((i&k1)&->&Hik)%list_elem_of_fmap. pose proof (md_objs _ _ _ _ _ _ Hm i k1 Hik) as Hi.
    apply (Hmeta i _ Hi). right. apply (md_new _ _ _ _ _ _ Hm). by apply (list_elem_of_fmap_2 fst _ (i, k1)). }
  split_and!; [done..| |].
  - rewrite Forall_forall in Hf, Hall |- *. intros k Hk. destruct (Hf k Hk) as (F1&F2&F3). split; [done|done|lia|..]; by rewrite (Hall k Hk).
  - rewrite <- Hb, <- list_fmap_compose. apply list_fmap_ext. intros i k Hk. apply (Forall_lookup_1 _ _ _ _ Hall) in Hk. unfold sent_as, on_wire. cbn. by rewrite Hk.
Qed.

Lemma ipv4_transmit_spec : Z.of_nat (length h) + 8 <= if_mtu (route_if r) -> ipv4_get_frag_offset h * 8 + Z.of_nat (length pay) <= UINT16_MAX ->
  nruns (ipv4_transmit id) n (fun ret n' => left_with n id o f n' /\ sending n (on_wire r (meta (skb o)) <$> wire (if_mtu (route_if r)) h pay) n').
Proof.
  intros Hmtu Hoff. pose proof Hio as [Hs Hl3 Hlen [P1 P2 P3 P4] Hcn]. apply nruns_bind. eapply nruns_get; [done|]. rewrite Hroute. apply nruns_bind, nruns_must.
  assert (Htot : data_total_len (skb o) = (length h + length pay)%nat) by (rewrite <- (chain_content _ _ (proj1 Hs)), Hcn; apply length_app). rewrite Htot. unfold wire.
  destruct (Z.leb_spec (Z.of_nat (length h + length pay)) (if_mtu (route_if r))) as [Hfit|Hbig].
  - pose proof (link_send (route_if r) id n o [] f Hobj) as Hlink. rewrite app_nil_r in Hlink. specialize (Hlink Hown (proj1 (alive_chain _ _ (proj1 Hs) (proj2 Hs))) Hs Hl3 ltac:(lia) Hfam (ex_intro _ _ Hroute)).
    eapply nruns_mono; [exact Hlink|]. intros ret n1 (k'&sent&[C1 C2 C3 C4 C5 C6 C7 C8]&_&Hev). rewrite app_nil_r in C5. split.
    + exists k'. split_and!; [|done|done]. apply (made_ext _ _ _ (set_objs n (<[id := with_skb o k']> (objs n)))); [exact C1|exact C2|].
      unfold with_skb. rewrite Hfl. eapply made_head. by eapply made_start.
    + split; [done|]. exists (if sent then [on_wire r (meta (skb o)) (h ++ pay)] else []). rewrite Hev, Hcn. split; [destruct sent; [done|apply sublist_nil_l]|done].
  - apply nruns_bind. destruct (ipv4_get_flag_df h) eqn:Hdf.
    { unfold ipv4_frag, ipv4_hdr_of. apply nruns_bind, nruns_bind. eapply nruns_get; [exact Hobj|]. eapply io_load; [exact Hio|done|]. destruct (take_hdr_fields h) as (E1&E2&E3).
      unfold ipv4_get_flag_df in Hdf |- *. rewrite E2, E3, Hdf, (proj2 (Z.leb_gt _ _)) by lia. apply nruns_ret. cbn [negb]. apply nruns_ret. split.
      - exists (skb o). split_and!; [|done|done]. replace (mk_obj _ _ _ _) with o by (destruct o; cbn in *; by subst). by apply made_start.
      - split; [done|]. exists []. rewrite app_nil_r. split; [apply sublist_nil_l|done]. }
    assert (Hrange : Z.of_nat (length h) + 8 <= if_mtu (route_if r) < ip_tot_len h) by lia.
    eapply nruns_mono; [eapply nruns_and; [apply (nruns_quiet _ _ _ (ipv4_frag_spec n id o h pay f Hobj Hfl Hnew Hio Hown (if_mtu (route_if r)) Hdf Hrange Hoff)), quiet_frag|
      intros ok n' E; exact (frag_meta _ _ _ _ _ _ E Hobj Hnew)]|].
    intros ok n1 ((Hok&Hcalm)&Hmeta). destruct ok; cbn [negb].
    + destruct (frags_ready _ _ _ ltac:(done) Hok Hmeta) as (k0&l&Hm&Ho&Hl&Hr&He).
      eapply nruns_mono; [by eapply skb_send_frags_spec|]. intros ret n2 (k'&M&O&S&E). split; [by exists k'|]. rewrite He in E.
      by apply (sending_trans _ _ _ [] _ (sending_calm _ _ Hcalm)).
    + apply nruns_ret. destruct Hok as (k0&M&O&S). split; [by exists k0|]. destruct (sending_calm _ _ Hcalm) as (E1&sub&E2&E3). split; [done|].
      exists sub. split; [|done]. etrans; [exact E2|apply sublist_nil_l].
Qed.
End transmit.

Lemma made_insert N g id n ho x l : made N (<[id := x]> g) id n ho l -> made N g id n ho l.
Proof.
  intros [H1 H2 H3 H4 H5 H6 H7 H8]. split; try done.
  - intros i Hi Hl. rewrite H3 by done. by apply lookup_insert_ne.
  - intros i Hi. specialize (H8 i Hi). rewrite lookup_insert_ne in H8; [done|lia].
Qed.

Section output.
Context (n : net) (id : nat) (o : obj) (f : nat -> nat).
Hypothesis (Hobj : objs n !! id = Some o) (Hfl : frag_list o = []) (Hnew : forall i, (next_obj n <= i)%nat -> objs n !! i = None).
Hypothesis (Hown : own (smem n) (chain (skb o)) f) (Hsound : sound (smem n) (skb o)) (Hfam : family (meta (skb o)) = AF_INET).

Lemma id_old : (id < next_obj n)%nat.
Proof. destruct (decide (id < next_obj n)%nat); [done|]. rewrite Hnew in Hobj by lia. done. Qed.

(** A packet of this host. *)
Lemma ipv4_output_spec s pay : is_forward (flag (skb o)) = false -> sock (meta (skb o)) = Some s -> content (smem n) (chain (skb o)) = pay ->
  length (sock_sip s) = 4%nat -> length (sock_dip s) = 4%nat -> is_bytes (sock_sip s) -> is_bytes (sock_dip s) ->
  (forall r, pick_route (meta (skb o)) AF_INET (sock_dip s) = Some r -> 28 <= if_mtu (route_if r)) ->
  nruns (ipv4_output id) n (fun ret n' => left_with n id o f n' /\ exists sub, events n' = events n ++ sub /\
    (sub = [] \/ Z.of_nat (length pay) <= UINT16_MAX - 20 /\ exists r, pick_route (meta (skb o)) AF_INET (sock_dip s) = Some r /\
      sub `sublist_of` (on_wire r (meta (set_route (Some r) (skb o))) <$> wire (if_mtu (route_if r)) (out_hdr n o s pay) pay))).
Proof.
  intros Hfw Hsock Hpay Hs4 Hd4 Hsb Hdb Hmtu. apply nruns_bind. eapply nruns_get; [done|]. rewrite Hfw. apply nruns_bind.
  eapply nruns_mono; [by apply (push_ipv4_hdr_spec n id o s f pay)|]. intros [|] n1; cbn [negb].
  - intros (Hle&r&Hr&k&m&->&Ho&Hio&Hm&_). destruct (out_hdr_pkt n o s pay Hs4 Hd4 Hsb Hdb Hle) as [_ [S1 _ _ _ _ _ S7 _ _ _]].
    set (n1 := set_ip_id _ _). assert (Hoff : ipv4_get_frag_offset (out_hdr n o s pay) = 0) by (unfold ipv4_get_frag_offset, ipv4_frag_field_get_host; by rewrite S7).
    eapply nruns_mono; [apply (ipv4_transmit_spec n1 id (with_skb o k) (out_hdr n o s pay) pay f r)|]; try done.
    + apply lookup_insert_eq.
    + intros i Hi. cbn. rewrite lookup_insert_ne; [by apply Hnew|]. pose proof id_old. cbn in Hi. lia.
    + cbn. by rewrite Hm.
    + cbn. by rewrite Hm.
    + specialize (Hmtu r Hr). lia.
    + rewrite Hoff. lia.
    + intros ret n2 ((k'&M&O&S)&_&sub&E1&E2). split.
      * exists k'. split_and!; [|done|done]. by apply (made_insert _ _ _ _ _ (with_skb o k)).
      * exists sub. split; [done|]. right. split; [done|]. exists r. split; [done|]. cbn in E1. by rewrite Hm in E1.
  - intros (k&m&->&Ho&Hs&_). apply nruns_ret. split; [|exists []; rewrite app_nil_r; by split; [|left]]. exists k. split_and!; [|done|done].
    apply made_mem. unfold with_skb. rewrite Hfl. eapply made_head. by apply made_start.
Qed.

(** A packet of others: one hop less to live. *)
Lemma ipv4_forward_spec h pay r : ip_obj (smem n) (skb o) h pay -> route (meta (skb o)) = Some r ->
  Z.of_nat (length h) + 8 <= if_mtu (route_if r) -> ipv4_get_frag_offset h * 8 + Z.of_nat (length pay) <= UINT16_MAX ->
  nruns (ipv4_forward id) n (fun ret n' =>
    if cfg_ipv4_forward && (1 <? fld8 h 8)
    then left_with n id o f n' /\ sending n (on_wire r (meta (skb o)) <$> wire (if_mtu (route_if r)) (hop h) pay) n'
    else ret = -1 /\ n' = n).
Proof.
  intros Hio Hr Hmtu Hoff. unfold ipv4_forward. destruct cfg_ipv4_forward; cbn [negb andb]; [|by apply nruns_ret].
  pose proof Hio as [Hs Hl3 Hlen Hpk Hcn]. pose proof (ip_pkt_len _ _ Hpk) as Hh. unfold ipv4_hdr_of. apply nruns_bind, nruns_bind.
  eapply nruns_get; [exact Hobj|]. eapply io_load; [exact Hio|lia|]. rewrite fld8_take by lia.
  destruct (Z.leb_spec (fld8 h 8) 1) as [Hle|Hgt]; [rewrite (proj2 (Z.ltb_ge _ _)) by lia; by apply nruns_ret|]. rewrite (proj2 (Z.ltb_lt _ _)) by lia.
  apply nruns_bind. eapply nruns_modify_skb; [exact Hobj|]. set (k1 := set_is_forward (skb o)). set (n1 := set_objs _ _). apply nruns_bind.
  eapply nruns_get; [apply lookup_insert_eq|]. cbn [skb with_skb]. apply nruns_bind. change (l3_hdr k1) with (l3_hdr (skb o)).
  destruct (take_hdr_fields h) as (E1&_). rewrite E1, (ip_ihl _ _ Hpk), Nat2Z.id.
  eapply (io_load n1 (skb o) h pay); [exact Hio|done|]. rewrite firstn_all, dec_ttl_hop. apply nruns_bind, nruns_must, nruns_bind.
  pose proof (store_start n1 (skb o) [] f (hop h)) as Hst. rewrite app_nil_r, Hl3 in *. destruct (alive_chain _ _ (proj1 Hs) (proj2 Hs)) as (Hlv&_).
  apply Hst; [exact Hown|exact Hlv|apply Hs|apply Hs|rewrite length_hop; lia|]. change (smem n1) with (smem n). rewrite Hcn.
  intros m [A1 A2 A3 A4 A5 _]. rewrite app_nil_r in A1. rewrite length_hop, drop_app_length in A5 by lia.
  unfold ipv4_output. apply nruns_bind. eapply nruns_get; [apply lookup_insert_eq|]. cbn [skb with_skb flag k1 set_is_forward map_flag is_forward].
  apply nruns_bind, nruns_ret. cbn [negb].
  eapply nruns_mono; [eapply (ipv4_transmit_spec (set_mem n1 m) id (with_skb o k1) (hop h) pay f r)|].
  - apply lookup_insert_eq.
  - done.
  - intros i Hi. cbn. rewrite lookup_insert_ne; [by apply Hnew|]. pose proof id_old. cbn in Hi. lia.
  - split; [by eapply sound_same_data; [..|by split]|done|by rewrite length_hop by lia|by apply hop_pkt|done].
  - exact A1.
  - exact Hr.
  - exact Hfam.
  - by rewrite length_hop by lia.
  - unfold ipv4_get_frag_offset, ipv4_frag_field_get_host, fld16 in *. rewrite !hop_fld8 by (lia || compute_done). done.
  - intros ret n2 [(k'&M&O&S) E]. split; [|exact E]. exists k'. split_and!; [|done|done]. by apply (made_insert _ _ _ _ _ (with_skb o k1)).
Qed.
End output.
End send.
