(* ===== verification/IpIn.v ===== *)
(** The receiving side of the IPv4 layer: which packets pass the checks, and how a
    packet for this host reaches its protocol.

    The handlers of the transport protocols are known by a contract: they may do
    what they like with the packet they are given, but keep no reference to it and
    touch nothing else. *)

From stdpp Require Import prelude list gmap.
From Stdlib Require Import ZArith Lia.
From S2P Require Import Prelude Checksum Rss Skbuff SkbuffMem SkbuffOps SkbuffFrame Net NetInv IpFrag IpFragHdr IpFragOut IpFragIn NetFrame Ip IpHdr IpOut.
Import Skb Net IpFrag Ip.

(** *** Cutting off what follows the packet *)

Lemma truncate_walk_slots l : forall cum n keep gone, truncate_walk l cum n = Some (keep, gone) -> (slot <$> keep) ++ (slot <$> gone) = slot <$> l.
Proof.
  induction l as [|d l IH]; intros cum n keep gone; cbn [truncate_walk]; [done|]. destruct (_ <=? _)%nat; [by intros [= <- <-]|].
  destruct (truncate_walk l _ n) as [[keep' gone']|] eqn:E; [|done]. intros [= <- <-]. rewrite !fmap_cons. cbn. f_equal. by eapply IH.
Qed.

(** The packet keeps its front, its metadata and slots of its own. *)
Record cut (k k' : skbuff) (n : nat) : Prop := {
  cut_slots : slot <$> chain k' ⊆ slot <$> chain k;
  cut_slot : slot (data0 k') = slot (data0 k);
  cut_start : start (data0 k') = start (data0 k);
  cut_len : (Nat.min n (skb_data0_len k) <= skb_data0_len k')%nat;
  cut_meta : meta k' = meta k;
  cut_flag : flag k' = flag k;
  cut_l3 : l3_hdr k' = l3_hdr k
}.

Lemma cut_refl k n : cut k k n.
Proof. split; done || lia. Qed.

Lemma skb_truncate_cut k n : n <> 0%nat -> ans (skb_truncate k n) (fun k' => cut k k' n).
Proof.
  intros Hn. unfold skb_truncate. destruct (_ <=? n)%nat; [apply ans_ret, cut_refl|]. rewrite (proj2 (Nat.eqb_neq n 0)) by done.
  destruct (truncate_walk (chain k) 0 n) as [[[|d0 keep] gone]|] eqn:E; [apply ans_ret, cut_refl| |apply ans_ret, cut_refl].
  ans. pose proof (truncate_walk_slots _ _ _ _ _ E) as Hs. unfold chain in E. cbn [truncate_walk] in E. rewrite Nat.sub_0_r in E.
  assert (H0 : slot d0 = slot (data0 k) /\ start d0 = start (data0 k) /\ (Nat.min n (di_len (data0 k)) <= di_len d0)%nat).
  { destruct (Nat.leb_spec n (0 + di_len (data0 k))).
    - injection E as <- <- _. cbn. split_and!; [done..|]. unfold di_len in *. cbn. lia.
    - destruct (truncate_walk (more k) _ n) as [[keep' gone']|]; [|done]. injection E as <- _ _. split_and!; [done..|lia]. }
  destruct H0 as (H1&H2&H3). split; try done. rewrite <- Hs. apply list_subseteq_app_l. done.
Qed.

Lemma truncate_apart m k o f n : own m (chain k ++ o) f -> live m (chain k ++ o) -> chain_ok m k -> alive k -> n <> 0%nat ->
  runs (skb_truncate k n) m (fun k' m' => apart m o f k' (take n (content m (chain k))) m' /\ cut k k' n).
Proof.
  intros Ho Hl Hc Ha Hn. pose proof (skb_truncate_spec m k (beside o f) n ltac:(by apply own_beside) Hc) as H.
  pose proof (skb_truncate_cut k n Hn m) as Hcut. unfold runs in *. destruct (skb_truncate k n m) as [[k' m']|]; [|done].
  destruct H as [Hop Ha']. specialize (Hcut _ _ eq_refl). split; [|done].
  eapply (apart_intro nowhere); [done|done|by apply Ha'|exact Hop|by intros ? ? _ []|]. apply sub_slots_incl, Hcut.
Qed.

(** *** The checks *)

(** Is [bs], with [d0] bytes in the first descriptor, an acceptable packet? *)
Definition accepts (hw : bool) (d0 : nat) (bs : list Z) : bool :=
  let hl := ip_hdr_len bs in
  let tot := ip_tot_len bs in
  (IPV4_VHL_VERSION (fld8 bs 0) =? 4) && ((20 <=? hl) && (hl <=? Z.of_nat d0)) && negb (fld8 bs 8 =? 0) &&
  ((hl <=? tot) && (tot <=? Z.of_nat (length bs))) && (hw || bool_decide (checksum (take (Z.to_nat hl) bs) 0 = Some 0)).

(** The packet cut to [c], beside [rest]. *)
Definition trimmed (n : net) (id : nat) (o : obj) (rest : list data_info) (f : nat -> nat) (c : list Z) (n' : net) : Prop :=
  exists k' m, n' = set_mem (set_objs n (<[id := with_skb o k']> (objs n))) m /\
    apart (smem n) rest f k' c m /\ cut (skb o) k' (length c).

Section check.
Context (n : net) (id : nat) (o : obj) (rest : list data_info) (f : nat -> nat) (bs : list Z).
Hypothesis (Hobj : objs n !! id = Some o) (Hown : own (smem n) (chain (skb o) ++ rest) f) (Hlive : live (smem n) (chain (skb o) ++ rest)).
Hypothesis (Hsound : sound (smem n) (skb o)) (Hl3 : l3_hdr (skb o) = skb_start (skb o)) (Hd0 : (20 <= skb_data0_len (skb o))%nat).
Hypothesis (Hbs : content (smem n) (chain (skb o)) = bs).

Lemma load_l3 len (Q : list Z -> net -> Prop) : (len <= skb_data0_len (skb o))%nat -> Q (take len bs) n -> nruns (load_hdr (l3_hdr (skb o)) len) n Q.
Proof.
  intros Hle HQ. rewrite Hl3. destruct (alive_chain _ _ (proj1 Hsound) (proj2 Hsound)) as ([Hi _]&_).
  apply load_start; [by apply Forall_inv in Hi|done|]. by rewrite Hbs.
Qed.

Lemma trimmed_same : trimmed n id o rest f bs n.
Proof.
  exists (skb o), (smem n). split; [|split; [|apply cut_refl]].
  - unfold with_skb. rewrite (insert_id (objs n) id) by (by destruct o). by destruct n.
  - destruct Hsound. split; try done. split; [by destruct Hlive as [[_ ?]%Forall_app _]|done].
Qed.

Lemma check_ipv4_hdr_spec : nruns (check_ipv4_hdr id) n (fun ok n' =>
  ok = accepts (is_hw_rcv_checksum (flag (skb o))) (skb_data0_len (skb o)) bs /\
  (ok = true -> trimmed n id o rest f (take (Z.to_nat (ip_tot_len bs)) bs) n') /\
  (ok = false \/ ip_tot_len bs = Z.of_nat (length bs) -> n' = n)).
Proof.
  assert (Htot : data_total_len (skb o) = length bs) by (rewrite <- Hbs; symmetry; apply chain_content, Hsound).
  unfold check_ipv4_hdr, accepts. apply nruns_bind. eapply nruns_get; [done|]. apply nruns_bind. apply load_l3; [done|].
  destruct (take_hdr_fields bs) as (E1&E2&_). rewrite E1, E2, !fld8_take by lia. destruct (IPV4_VHL_VERSION (fld8 bs 0) =? 4); cbn [negb andb]; [|by apply nruns_ret; split_and!].
  rewrite !Z.leb_antisym, <- negb_orb. destruct ((ip_hdr_len bs <? 20) || (Z.of_nat (skb_data0_len (skb o)) <? ip_hdr_len bs)) eqn:Eh; cbn [negb andb]; [by apply nruns_ret; split_and!|].
  apply orb_false_iff in Eh as [Eh1%Z.ltb_ge Eh2%Z.ltb_ge]. destruct (fld8 bs 8 =? 0); cbn [negb andb]; [by apply nruns_ret; split_and!|]. rewrite Htot.
  rewrite <- negb_orb. destruct ((ip_tot_len bs <? ip_hdr_len bs) || (Z.of_nat (length bs) <? ip_tot_len bs)) eqn:Et; cbn [negb andb]; [by apply nruns_ret; split_and!|].
  apply orb_false_iff in Et as [Et1%Z.ltb_ge Et2%Z.ltb_ge]. apply nruns_bind.
  set (good := is_hw_rcv_checksum (flag (skb o)) || bool_decide (checksum (take (Z.to_nat (ip_hdr_len bs)) bs) 0 = Some 0)).
  assert (Hgood : forall Q : bool -> net -> Prop, Q good n -> nruns (if is_hw_rcv_checksum (flag (skb o)) then mret true
    else h ← load_hdr (l3_hdr (skb o)) (Z.to_nat (ip_hdr_len bs)); c ← must (checksum h 0); mret (c =? 0)) n Q).
  { intros Q HQ. unfold good in HQ. destruct (is_hw_rcv_checksum (flag (skb o))); [done|]. apply nruns_bind, load_l3; [lia|].
    destruct (checksum_u16 (take (Z.to_nat (ip_hdr_len bs)) bs)) as (c&->&_) in HQ |- *. apply nruns_bind, nruns_must, nruns_ret. cbn [orb] in HQ.
    destruct (Z.eqb_spec c 0) as [->|Hc]; [by rewrite bool_decide_true in HQ|]. rewrite bool_decide_false in HQ; [done|congruence]. }
  apply Hgood. destruct good; cbn [negb]; [|by apply nruns_ret; split_and!].
  apply nruns_bind. destruct (Z.ltb_spec (ip_tot_len bs) (Z.of_nat (length bs))).
  - apply nruns_bind, nruns_lift. eapply runs_mono; [apply (truncate_apart _ _ _ _ (Z.to_nat (ip_tot_len bs)) Hown Hlive); [apply Hsound..|lia]|].
    intros k' m [Hap Hcut]. eapply nruns_set_skb; [done|]. apply nruns_ret. split_and!; [done| |intros [|]; [done|lia]]. intros _. exists k', m. rewrite Hbs in Hap. split; [done|]. split; [done|].
    rewrite length_take. by replace (_ `min` _)%nat with (Z.to_nat (ip_tot_len bs)) by lia.
  - apply nruns_ret, nruns_ret. split_and!; [done| |done]. intros _. rewrite take_ge by lia. apply trimmed_same.
Qed.
End check.

(** *** A packet for this host *)

Section local.
Context `{IpEnv}.
Hypothesis Hone : g_worker_num <= 1.

(** What reception does to a packet on the way. *)
Definition stamp (r : nat) (k : skbuff) : skbuff := set_route (Some r) (set_l3 (set_family AF_INET k) (skb_start k)).

Lemma is_frag_take h : ipv4_is_frag (take 20 h) = ipv4_is_frag h.
Proof. unfold ipv4_is_frag. by destruct (take_hdr_fields h) as (_&_&->). Qed.

Lemma good_accepts hw d0 h pay : ip_pkt h pay -> good_hdr h -> (length h <= d0)%nat -> accepts hw d0 (h ++ pay) = true.
Proof.
  intros Hp [G1 G2 G3] Hd. pose proof Hp as [P1 P2 P3 P4]. unfold accepts.
  assert (E : forall j, (j < 20)%nat -> fld8 (h ++ pay) j = fld8 h j) by (intros j Hj; unfold fld8; rewrite app_nth1 by lia; done).
  assert (E1 : ip_hdr_len (h ++ pay) = ip_hdr_len h) by (unfold ip_hdr_len; by rewrite E by lia).
  assert (E2 : ip_tot_len (h ++ pay) = ip_tot_len h) by (unfold ip_tot_len, fld16; by rewrite !E by lia).
  rewrite !E, E1, E2, P2, P3, G1, Nat2Z.id, take_app_length, G3, bool_decide_true, orb_true_r, length_app by (done || lia).
  rewrite (proj2 (Z.eqb_neq _ _) G2). cbn [negb andb Z.eqb]. repeat (apply andb_true_iff; split); try done; apply Z.leb_le; lia.
Qed.

Definition recv_rest (id : nat) (frag : bool) : NM Z :=
  if frag then modify_skb id set_is_frag;; re ← ipv4_defrag id; match re with None => mret 0 | Some re => ipv4_deliver re end
  else ipv4_deliver id.

Lemma ipv4_recv_local n id o rest f h pay r (Q : Z -> net -> Prop) :
  objs n !! id = Some o -> own (smem n) (chain (skb o) ++ rest) f -> live (smem n) (chain (skb o) ++ rest) -> sound (smem n) (skb o) ->
  content (smem n) (chain (skb o)) = h ++ pay -> (length h <= skb_data0_len (skb o))%nat -> ip_pkt h pay -> good_hdr h ->
  pick_route (meta (skb o)) AF_INET (take 4 (drop 16 h)) = Some r -> route_type r = RTN_LOCAL \/ route_type r = RTN_BROADCAST ->
  nruns (recv_rest id (ipv4_is_frag h)) (set_objs n (<[id := with_skb o (stamp r (skb o))]> (objs n))) Q -> nruns (ipv4_recv id) n Q.
Proof.
  intros Hobj Ho Hl Hs Hcn Hd Hp Hg Hr Hty HQ. pose proof (ip_min _ _ Hp) as P1. unfold ipv4_recv. apply nruns_bind. eapply nruns_modify_skb; [done|].
  apply nruns_bind. eapply nruns_get; [apply lookup_insert_eq|]. cbn [skb with_skb]. change (skb_data0_len (set_family AF_INET (skb o))) with (skb_data0_len (skb o)).
  rewrite (proj2 (Nat.ltb_ge _ _)) by lia. apply nruns_bind. eapply nruns_modify_skb; [apply lookup_insert_eq|]. cbn [objs set_objs skb with_skb].
  rewrite insert_insert_eq, with_skb_twice. set (k1 := set_l3 _ _). set (n1 := set_objs _ _).
  assert (Hs1 : sound (smem n1) k1) by (by eapply sound_same_data; [..|exact Hs]). assert (Hob1 : objs n1 !! id = Some (with_skb o k1)) by apply lookup_insert_eq.
  apply nruns_bind. eapply nruns_mono; [eapply (check_ipv4_hdr_spec n1 id (with_skb o k1) rest f (h ++ pay)); [done|exact Ho|exact Hl|done|done|exact (Nat.le_trans _ _ _ P1 Hd)|exact Hcn]|].
  rewrite (good_accepts _ _ h pay) by done. intros ok n2 (->&_&->).
  2:{ right. unfold ip_tot_len, fld16, fld8. rewrite !app_nth1 by lia. by rewrite length_app, Nat2Z.inj_add, <- (ip_tot _ _ Hp). }
  cbn [negb]. unfold ipv4_hdr_of. apply nruns_bind, nruns_bind. eapply nruns_get; [exact Hob1|].
  apply (load_l3 n1 (with_skb o k1) (h ++ pay)); [exact Hs1|done|exact Hcn|exact (Nat.le_trans _ _ _ P1 Hd)|]. rewrite take_app_le by lia.
  unfold get_frag_worker, ipv4_tcp_software_rss_worker. rewrite (proj2 (Z.leb_le _ _)) by lia. cbn [orb]. rewrite Z.eqb_refl, andb_false_r.
  apply nruns_bind, nruns_ret. rewrite Z.eqb_refl. cbn [negb]. apply nruns_bind. eapply set_skb_route_spec; [exact Hob1|]. cbv zeta.
  assert (Edst : take 4 (drop 16 (take 20 h)) = take 4 (drop 16 h)) by (by rewrite !take_drop_commute, take_take). rewrite Edst.
  change (pick_route (meta (skb (with_skb o k1))) AF_INET (take 4 (drop 16 h))) with (pick_route (meta (skb o)) AF_INET (take 4 (drop 16 h))). rewrite Hr.
  cbn [Z.ltb Z.compare]. apply nruns_bind. eapply nruns_get; [apply lookup_insert_eq|]. cbn [skb with_skb set_route map_meta meta route]. apply nruns_bind, nruns_must.
  replace (negb (route_type r =? RTN_LOCAL) && negb (route_type r =? RTN_BROADCAST)) with false.
  2:{ symmetry. destruct Hty as [-> | ->]; done. }
  rewrite is_frag_take. unfold n1. cbn [objs set_objs]. rewrite insert_insert_eq. exact HQ.
Qed.
End local.

(** *** Delivery *)

(** The contract of the handlers: they log what they are given. *)
Class Handlers `{IpEnv} : Prop :=
  handler_ok proto id n o f : proto ∈ [IPPROTO_TCP; IPPROTO_UDP; IPPROTO_ICMP] -> objs n !! id = Some o -> own (smem n) (chain (skb o)) f ->
    sound (smem n) (skb o) ->
    nruns (ipv4_dispatch proto id) n (fun _ n' => exists k', objs n' = <[id := with_skb o k']> (objs n) /\ next_obj n' = next_obj n /\ ipqs n' = ipqs n /\
      own (smem n') (chain k') f /\ is_defrag (flag k') = is_defrag (flag (skb o)) /\
      events n' = events n ++ [Up proto (content (smem n) (chain (skb o)))]).

(** Consuming a part of the first descriptor moves its start. *)
Lemma consume_front k n m : (0 < n < skb_data0_len k)%nat -> (n <= data_total_len k)%nat ->
  skb_consume k n true m = Some ((n, with_data k (data_num k) (data_total_len k - n)
    (mk_di (slot (data0 k)) (start (data0 k) + n) (end_ (data0 k)) (size (data0 k))) (more k)), m).
Proof.
  intros Hn Ht. unfold skb_consume. replace (Nat.min n (data_total_len k)) with n by lia. rewrite (proj2 (Nat.eqb_neq n 0)) by lia.
  replace (Nat.min n (skb_data0_len k)) with n by lia. unfold skb_data0_len, di_len in *. cbn [start end_].
  by rewrite (proj2 (Nat.eqb_neq (_ - _) 0)) by lia.
Qed.

Section deliver.
Context `{IpEnv} `{!Handlers}.
Context (n : net) (id : nat) (o : obj) (f : nat -> nat) (h pay : list Z).
Hypothesis (Hobj : objs n !! id = Some o) (Hown : own (smem n) (chain (skb o)) f) (Hio : ip_obj (smem n) (skb o) h pay).
Hypothesis (Hfront : (length h < skb_data0_len (skb o))%nat) (Hproto : fld8 h 9 ∈ [IPPROTO_TCP; IPPROTO_UDP; IPPROTO_ICMP]).

Definition handed (k' : skbuff) (n' : net) : Prop :=
  objs n' = <[id := with_skb o k']> (objs n) /\ next_obj n' = next_obj n /\ ipqs n' = ipqs n /\ own (smem n') (chain k') f /\
  is_defrag (flag k') = is_defrag (flag (skb o)) /\ events n' = events n ++ [Up (fld8 h 9) pay].

Lemma ipv4_deliver_spec (Q : Z -> net -> Prop) :
  (forall ret k' n', handed k' n' -> nruns ((if is_defrag (flag (skb o)) then put_ref (Some id) else mret tt);; mret ret) n' Q) ->
  nruns (ipv4_deliver id) n Q.
Proof.
  intros HQ. pose proof Hio as [Hs Hl3 Hlen Hpk Hcn]. pose proof (ip_min _ _ Hpk) as P1. destruct (take_hdr_fields h) as (E1&_).
  assert (Htot : data_total_len (skb o) = (length h + length pay)%nat) by (rewrite <- (chain_content _ _ (proj1 Hs)), Hcn; apply length_app).
  unfold ipv4_deliver, ipv4_hdr_of. apply nruns_bind, nruns_bind. eapply nruns_get; [done|]. eapply io_load; [done|lia|]. rewrite E1, (ip_ihl _ _ Hpk), Nat2Z.id.
  apply nruns_bind. eapply nruns_get; [done|]. apply nruns_bind, nruns_lift.
  pose proof (skb_consume_spec (smem n) (skb o) f (length h) true Hown (proj1 Hs)) as Hc. unfold runs in *. rewrite consume_front in * by lia. set (k1 := with_data _ _ _ _ _) in *.
  destruct Hc as [_ [O1 _ C1 C2]]. assert (Hs1 : sound (smem n) k1) by (split; [done|exact (proj2 Hs)]). rewrite Hcn, drop_app_length in C2.
  apply nruns_bind. eapply nruns_set_skb; [done|]. rewrite Nat.eqb_refl. cbn [negb]. set (n1 := set_objs _ _).
  apply nruns_bind. eapply (io_load n1 (skb o) h pay); [done|lia|]. rewrite fld8_take by lia. apply nruns_bind.
  eapply nruns_mono; [eapply (handler_ok (fld8 h 9) id n1 (with_skb o k1) f Hproto); [apply lookup_insert_eq|exact O1|exact Hs1]|].
  intros ret n2 (k2&D1&D2&D3&D4&D5&D6). cbn [skb with_skb objs n1 set_objs set_mem next_obj ipqs events smem flag k1 with_data] in *. rewrite insert_insert_eq in D1.
  apply nruns_bind. eapply nruns_get; [rewrite D1; apply lookup_insert_eq|]. cbn [skb with_skb]. rewrite D5. apply (HQ ret k2 n2).
  split_and!; [done..|]. rewrite D6. by rewrite C2.
Qed.
End deliver.

(** *** Fragments marked on the way *)

(** The same fragments, but for what is not their bytes. *)
Record alike (x y : frag) : Prop := {
  al_id : fr_id y = fr_id x;
  al_hdr : fr_hdr y = fr_hdr x;
  al_pay : fr_pay y = fr_pay x;
  al_chain : chain (fr_skb y) = chain (fr_skb x);
  al_num : data_num (fr_skb y) = data_num (fr_skb x);
  al_total : data_total_len (fr_skb y) = data_total_len (fr_skb x)
}.

Lemma alike_refl x : alike x x.
Proof. done. Qed.

Lemma alike_trans x y z : alike x y -> alike y z -> alike x z.
Proof. intros [] []. split; congruence. Qed.

Lemma alike_ids l l' : Forall2 alike l l' -> fr_id <$> l' = fr_id <$> l.
Proof. induction 1 as [|x y l l' [E _ _ _ _ _] _ IH]; [done|]. rewrite !fmap_cons. by rewrite E, IH. Qed.

Lemma alike_pays l l' : Forall2 alike l l' -> frag_pays l' = frag_pays l.
Proof. induction 1 as [|x y l l' [_ _ E _ _ _] _ IH]; [done|]. rewrite !frag_pays_cons. by rewrite E, IH. Qed.

Lemma alike_chains l l' : Forall2 alike l l' -> frag_chains l' = frag_chains l.
Proof. induction 1 as [|x y l l' [_ _ _ E _ _] _ IH]; [done|]. rewrite !frag_chains_cons. by rewrite E, IH. Qed.

Lemma alike_nums l l' : Forall2 alike l l' -> frag_nums l' = frag_nums l.
Proof. unfold frag_nums. induction 1 as [|x y l l' [_ _ _ _ E _] _ IH]; [done|]. cbn. by rewrite E, IH. Qed.

Lemma alike_nil l l' : Forall2 alike l l' -> l' = [] <-> l = [].
Proof. by destruct 1. Qed.

Lemma alike_covers l l' : Forall2 alike l l' -> forall off, covers off l -> covers off l'.
Proof.
  induction 1 as [|x y l l' [E1 E2 E3 _ _ _] Hl IH]; intros off; [done|]. cbn [covers]. rewrite E2, E3. pose proof (alike_nil _ _ Hl) as Hn.
  intros (C1&C2&C3&C4&C5&C6). split_and!; [done..| | |by apply IH].
  - rewrite C4. apply bool_decide_ext. by rewrite Hn.
  - rewrite Hn. done.
Qed.

Lemma alike_arrived D l l' : Forall2 alike l l' -> Forall2 alike (arrived D l) (arrived D l').
Proof.
  unfold arrived. induction 1 as [|x y l l' [E ? ? ? ? ?] Hl IH]; [done|]. rewrite !filter_cons, E. destruct (decide _); [|done]. by constructor.
Qed.

Lemma alike_queue t total l l' : Forall2 alike l l' -> queue_of t total l' = queue_of t total l.
Proof.
  intros Hl. unfold queue_of. rewrite (alike_pays _ _ Hl), (alike_ids _ _ Hl).
  assert (Hb : has_last l' = has_last l /\ has_first l' = has_first l).
  { unfold has_last, has_first. induction Hl as [|x y l l' [E1 E2 _ _ _ _] Hl [IH1 IH2]]; [done|]. cbn. by rewrite E2, IH1, IH2. }
  by destruct Hb as [-> ->].
Qed.

Lemma alike_holds m x y : alike x y -> holds m (fr_skb x) (fr_hdr x) (fr_pay x) -> holds m (fr_skb y) (fr_hdr y) (fr_pay y).
Proof.
  intros [E1 E2 E3 E4 E5 E6] [H1 H2 H3 H4]. rewrite E2, E3. split; [by eapply sound_same_data; [..|exact H1]| |done|by rewrite E4].
  unfold chain in E4. injection E4 as E4 _. unfold skb_data0_len. by rewrite E4.
Qed.

(** The fragment [i] marked by [g]. *)
Definition mark (g : skbuff -> skbuff) (i : nat) (l : list frag) : list frag :=
  (fun y => if decide (fr_id y = i) then mk_frag (fr_id y) (g (fr_skb y)) (fr_hdr y) (fr_pay y) else y) <$> l.

Section mark.
Context (g : skbuff -> skbuff).
Hypothesis (Hchain : forall k, chain (g k) = chain k) (Hnum : forall k, data_num (g k) = data_num k) (Htot : forall k, data_total_len (g k) = data_total_len k).

Lemma mark_alike i l : Forall2 alike l (mark g i l).
Proof. unfold mark. induction l as [|x l IH]; [done|]. constructor; [|done]. destruct (decide _); [|done]. split; cbn; auto. Qed.

Lemma mark_elem i l y : y ∈ mark g i l -> exists x, x ∈ l /\ fr_id y = fr_id x /\ fr_hdr y = fr_hdr x /\ fr_skb y = if decide (fr_id x = i) then g (fr_skb x) else fr_skb x.
Proof. intros (x&->&Hx)%list_elem_of_fmap. exists x. split; [done|]. by destruct (decide _). Qed.

Context (key : ipq_key) (frs : list frag) (f : nat -> nat) (n0 : net).
Hypothesis (Hset : fragment_set key frs n0 f).

(** The object of [x] marked. *)
Definition mark_net (x : frag) (n : net) : net := set_objs n (<[fr_id x := single (g (fr_skb x))]> (objs n)).

Lemma mark_set x : x ∈ frs -> fragment_set key (mark g (fr_id x) frs) (mark_net x n0) f.
Proof.
  intros Hx. pose proof Hset as [H1 H2 H3 H4 H5 H6 H7 H8 H9]. pose proof (mark_alike (fr_id x) frs) as Ha. rewrite Forall_forall in H2, H3.
  split.
  - by rewrite (alike_ids _ _ Ha).
  - apply Forall_forall. intros y (z&Hz&_&->&_)%mark_elem. by apply H2.
  - apply Forall_forall. intros y (z&Hz&->&_&->)%mark_elem. cbn. destruct (decide _) as [E|E].
    + rewrite (NoDup_fmap_inj fr_id frs z x H1 Hz Hx E). apply lookup_insert_eq.
    + rewrite lookup_insert_ne by done. by apply H3.
  - rewrite (alike_chains _ _ Ha). exact H4.
  - rewrite (alike_chains _ _ Ha). exact H5.
  - clear -Ha H6. cbn [smem mark_net set_objs]. induction Ha as [|a b l l' Hab Hl IH]; [done|]. apply Forall_cons in H6 as [Ha6 H6].
    constructor; [by eapply alike_holds|by apply IH].
  - by eapply alike_covers.
  - by rewrite (alike_nil _ _ Ha).
  - by rewrite (alike_nums _ _ Ha).
Qed.

Lemma mark_waiting D n x : waiting key frs n0 D n -> x ∈ frs -> fr_id x ∉ D -> waiting key (mark g (fr_id x) frs) (mark_net x n0) D (mark_net x n).
Proof.
  intros (Hp&m&W1&W2&W3&W4&->) Hx HD. pose proof (mark_alike (fr_id x) frs) as Ha. split.
  - rewrite Forall_forall in Hp |- *. intros y (z&Hz&->&_&->)%mark_elem Hin. rewrite decide_False; [by apply Hp|]. intros E. by rewrite E in Hin.
  - exists m. rewrite (alike_nums _ _ Ha), (alike_pays _ _ Ha), (alike_queue _ _ _ _ (alike_arrived D _ _ Ha)). split_and!; try done.
Qed.
End mark.

(** *** Fragments received *)

(** The receive path of an interface: the packet goes to the layer, then its
    reference is dropped. *)
Definition receive `{IpEnv} (id : nat) : NM unit := ipv4_recv id;; put_ref (Some id).

Fixpoint receive_all `{IpEnv} (ids : list nat) : NM unit :=
  match ids with [] => mret tt | id :: ids => receive id;; receive_all ids end.

Lemma hand_over_inv id n (Q : option nat -> net -> Prop) : nruns (hand_over id) n Q ->
  nruns (ipv4_defrag id) n (fun r n1 => nruns (put_ref (Some id)) n1 (fun _ n2 => Q r n2)).
Proof. unfold hand_over, nruns, mbind, NM_bind. destruct (ipv4_defrag id n) as [[r n1]|]; [|done]. by destruct (put_ref (Some id) n1) as [[[] n2]|]. Qed.

Lemma frag_split (frs : list frag) x : x ∈ frs -> exists rest, frag_chains frs ≡ₚ chain (fr_skb x) ++ rest.
Proof.
  intros (l1&l2&->)%list_elem_of_split. exists (frag_chains (l1 ++ l2)). unfold frag_chains. rewrite !bind_app, bind_cons. solve_Permutation.
Qed.

Section receive.
Context `{IpEnv} `{!Handlers}.
Hypothesis Hone : g_worker_num <= 1.

(** A packet of [x] that reception accepts for this host, over the route [r]. *)
Record local (r : nat) (x : frag) : Prop := {
  lc_good : good_hdr (fr_hdr x);
  lc_route : pick_route (meta (fr_skb x)) AF_INET (take 4 (drop 16 (fr_hdr x))) = Some r;
  lc_type : route_type r = RTN_LOCAL \/ route_type r = RTN_BROADCAST
}.

Definition marked (r : nat) (k : skbuff) : skbuff := set_is_frag (stamp r k).

Section arrival.
Context (key : ipq_key) (f : nat -> nat) (r : nat).

Lemma recv_fragment frs n0 D n x (Q : Z -> net -> Prop) : fragment_set key frs n0 f -> waiting key frs n0 D n -> x ∈ frs -> local r x ->
  ipv4_is_frag (fr_hdr x) = true ->
  nruns (ipv4_defrag (fr_id x)) (mark_net (marked r) x n) (fun re n1 =>
    nruns (match re with None => mret 0 | Some re => ipv4_deliver re end) n1 Q) ->
  nruns (ipv4_recv (fr_id x)) n Q.
Proof.
  intros Hset (Hp&m&W1&W2&W3&W4&En) Hx [L1 L2 L3] Hfr HQ. pose proof Hset as [_ _ Hob Ho Hl Hh _ _ _]. rewrite Forall_forall in Hob, Hh.
  destruct (frag_split _ _ Hx) as [rest Hperm]. assert (Hsm : smem n = m) by by subst n. assert (Hon : objs n = objs n0) by by subst n.
  destruct (holds_slots _ m _ _ _ W1 (Hh x Hx)) as [S1 S2 S3 S4]. assert (Hx0 : objs n !! fr_id x = Some (single (fr_skb x))) by (rewrite Hon; by apply Hob).
  eapply (ipv4_recv_local Hone n (fr_id x) (single (fr_skb x)) rest f (fr_hdr x) (fr_pay x) r); rewrite ?Hsm; try done.
  - eapply own_perm; [exact Hperm|]. by eapply same_slots_own.
  - eapply live_perm'; [exact Hperm|]. by eapply live_slots.
  - rewrite Hfr. unfold recv_rest. apply nruns_bind. eapply nruns_modify_skb; [apply lookup_insert_eq|]. apply nruns_bind.
    cbn [objs set_objs skb with_skb single]. rewrite insert_insert_eq. exact HQ.
Qed.

Lemma receive_waits frs n0 D n x y : fragment_set key frs n0 f -> ipqs n0 !! key = None -> waiting key frs n0 D n -> x ∈ frs -> fr_id x ∉ D ->
  local r x -> ipv4_is_frag (fr_hdr x) = true -> y ∈ frs -> fr_id y ∉ fr_id x :: D ->
  nruns (receive (fr_id x)) n (fun _ n' => waiting key (mark (marked r) (fr_id x) frs) (mark_net (marked r) x n0) (fr_id x :: D) n').
Proof.
  intros Hset Hq Hw Hx HD Hloc Hfr Hy HyD. apply nruns_bind. eapply recv_fragment; [exact Hset|exact Hw|exact Hx|exact Hloc|exact Hfr|].
  set (x' := mk_frag (fr_id x) (marked r (fr_skb x)) (fr_hdr x) (fr_pay x)).
  assert (Hx' : x' ∈ mark (marked r) (fr_id x) frs) by (apply list_elem_of_fmap; exists x; rewrite decide_True by done; done).
  assert (Hy' : exists y', y' ∈ mark (marked r) (fr_id x) frs /\ fr_id y' = fr_id y).
  { eexists. split; [by apply list_elem_of_fmap_2, Hy|]. by destruct (decide _). }
  destruct Hy' as (y'&Hy'&Ey). change (fr_id x) with (fr_id x') at 1.
  pose proof (mark_set (marked r) ltac:(done) ltac:(done) ltac:(done) key frs f n0 Hset x Hx) as Hset'.
  pose proof (mark_waiting (marked r) ltac:(done) ltac:(done) ltac:(done) key frs n0 D n x Hw Hx HD) as Hw'.
  eapply nruns_mono; [apply hand_over_inv; eapply (hand_over_waits key _ f _ Hset' Hq D _ x' y' Hw' Hx'); [done|done|done|by rewrite Ey]|].
  intros re n1 H1. unfold nruns in H1. destruct (put_ref (Some (fr_id x')) n1) as [[[] n2]|] eqn:E; [|done]. destruct H1 as [-> H1].
  apply nruns_ret. change (fr_id x') with (fr_id x) in E. unfold nruns. by rewrite E.
Qed.

(** What is left when the packet has been delivered. *)
Definition delivered (frs : list frag) (n0 : net) (proto : Z) (n' : net) : Prop :=
  events n' = events n0 ++ [Up proto (frag_pays frs)] /\ ipqs n' = ipqs n0 /\ own (smem n') [] f /\
  (forall i, i ∈ fr_id <$> frs -> objs n' !! i = None) /\ (forall i, i ∉ fr_id <$> frs -> objs n' !! i = objs n0 !! i).

(** After the handler: the references to the packet and to the last fragment go. *)
Lemma release_last frs f0 l x n0 n1 n2 kr k' F' proto ret : NoDup (fr_id <$> frs) -> frs = f0 :: l -> x ∈ frs -> fld8 (fr_hdr f0) 9 = proto ->
  objs n1 !! fr_id f0 = Some (mk_obj kr (refs_of (fr_id x) (fr_id f0)) [] None) -> ipqs n1 = ipqs n0 -> events n1 = events n0 ->
  (forall i, i ∈ fr_id <$> l -> i <> fr_id x -> objs n1 !! i = None) -> (forall i, i ∉ fr_id <$> frs -> objs n1 !! i = objs n0 !! i) ->
  left_over (fr_id x) l f n1 F' ->
  objs n2 = <[fr_id f0 := mk_obj k' (refs_of (fr_id x) (fr_id f0)) [] None]> (objs n1) -> ipqs n2 = ipqs n1 -> own (smem n2) (chain k') F' ->
  events n2 = events n1 ++ [Up proto (frag_pays frs)] ->
  nruns (put_ref (Some (fr_id f0));; mret ret) n2 (fun (_ : Z) n3 => nruns (put_ref (Some (fr_id x))) n3 (fun _ n' => delivered frs n0 proto n')).
Proof.
  intros Hnd Ef Hx Hproto A1 A4 Aev A5 A6 A7 D1 D2 D3 D4. rewrite Ef in Hnd, Hx. cbn in Hnd. apply NoDup_cons in Hnd as [Hf0 Hnd]. unfold left_over in A7.
  apply nruns_bind. assert (D1' : objs n2 !! fr_id f0 = Some (mk_obj k' (refs_of (fr_id x) (fr_id f0)) [] None)) by (rewrite D1; apply lookup_insert_eq).
  apply elem_of_cons in Hx as [->|Hx].
  - rewrite decide_False in A7 by done. subst F'. unfold refs_of in D1'. rewrite decide_True in D1' by done.
    eapply nruns_put_ref_many; [exact D1'|done|]. apply nruns_ret.
    eapply (nruns_put_ref_last (fr_id f0) (single k') [] f); [apply lookup_insert_eq|done|by rewrite app_nil_r|].
    intros m Hm _ _. unfold delivered. cbn. split_and!; [by rewrite D4, Aev|by rewrite D2, A4|done| |]; intros i Hi; rewrite D1, insert_insert_eq, delete_insert_eq.
    + rewrite Ef, fmap_cons in Hi. destruct (decide (i = fr_id f0)) as [->|Hne]; [apply lookup_delete_eq|]. rewrite lookup_delete_ne by done.
      apply elem_of_cons in Hi as [->|Hi]; [done|]. by apply A5.
    + rewrite lookup_delete_ne; [by apply A6|]. intros <-. apply Hi. rewrite Ef. left.
  - assert (Hin : fr_id x ∈ fr_id <$> l) by by apply list_elem_of_fmap_2. rewrite decide_True in A7 by done. destruct A7 as (kc&Hkc&->).
    assert (Hne : fr_id f0 <> fr_id x) by (intros E; apply Hf0; by rewrite E). unfold refs_of in D1'. rewrite decide_False in D1' by done.
    eapply (nruns_put_ref_last (fr_id f0) (single k') [] (beside (chain kc) f)); [exact D1'|done|by rewrite app_nil_r|].
    intros m Hm _ _. apply own_beside in Hm. apply nruns_ret.
    eapply (nruns_put_ref_last (fr_id x) (single kc) [] f); [cbn; by rewrite lookup_delete_ne, D1, lookup_insert_ne|done|by rewrite app_nil_r|].
    intros m' Hm' _ _. unfold delivered. cbn. split_and!; [by rewrite D4, Aev|by rewrite D2, A4|done| |]; intros i Hi; rewrite D1, delete_insert_eq.
    + destruct (decide (i = fr_id x)) as [->|Hix]; [apply lookup_delete_eq|]. rewrite lookup_delete_ne by done.
      destruct (decide (i = fr_id f0)) as [->|Hne0]; [apply lookup_delete_eq|]. rewrite lookup_delete_ne by done. rewrite Ef, fmap_cons in Hi.
      apply elem_of_cons in Hi as [->|Hi]; [done|]. by apply A5.
    + rewrite !lookup_delete_ne; [by apply A6|..]; intros <-; apply Hi; rewrite Ef; [by left|by right].
Qed.

Lemma receive_last frs n0 D n x f0 l : fragment_set key frs n0 f -> ipqs n0 !! key = None -> waiting key frs n0 D n -> frs = f0 :: l -> x ∈ frs ->
  fr_id x ∉ D -> Forall (fun y => fr_id y ∈ fr_id x :: D) frs -> Forall (fun y => fr_id y <> fr_id x -> ptr (fr_skb y)) frs ->
  local r x -> ipv4_is_frag (fr_hdr x) = true -> (length (fr_hdr f0) < skb_data0_len (fr_skb f0))%nat ->
  Z.of_nat (length (fr_hdr f0)) + Z.of_nat (length (frag_pays frs)) <= UINT16_MAX -> fld8 (fr_hdr f0) 9 ∈ [IPPROTO_TCP; IPPROTO_UDP; IPPROTO_ICMP] ->
  nruns (receive (fr_id x)) n (fun _ n' => delivered frs n0 (fld8 (fr_hdr f0) 9) n').
Proof.
  intros Hset Hq Hw Ef Hx HD Hall Hpt Hloc Hfr Hd0 Hmax Hpr. apply nruns_bind. eapply recv_fragment; [exact Hset|exact Hw|exact Hx|exact Hloc|exact Hfr|].
  set (x' := mk_frag (fr_id x) (marked r (fr_skb x)) (fr_hdr x) (fr_pay x)). set (frs' := mark (marked r) (fr_id x) frs). set (n0' := mark_net (marked r) x n0).
  assert (Hx' : x' ∈ frs') by (apply list_elem_of_fmap; exists x; rewrite decide_True by done; done).
  pose proof (mark_set (marked r) ltac:(done) ltac:(done) ltac:(done) key frs f n0 Hset x Hx) as Hset'. fold frs' n0' in Hset'.
  pose proof (mark_waiting (marked r) ltac:(done) ltac:(done) ltac:(done) key frs n0 D n x Hw Hx HD) as Hw'. fold frs' n0' in Hw'.
  pose proof (mark_alike (marked r) ltac:(done) ltac:(done) ltac:(done) (fr_id x) frs) as Hal. fold frs' in Hal.
  pose proof Hal as Hal0. rewrite Ef in Hal0 at 1. apply Forall2_cons_inv_l in Hal0 as (f0'&l'&[F1 F2 F3 F4 F5 F6]&Hal'&Ef').
  assert (Hall' : Forall (fun y => fr_id y ∈ fr_id x' :: D) frs' /\ Forall (fun y => ptr (fr_skb y)) frs').
  { rewrite !Forall_forall in *. split; intros y (z&Hz&Ez&_&Ek)%mark_elem; [rewrite Ez; by apply Hall|].
    rewrite Ek. destruct (decide _); [done|by apply Hpt]. }
  destruct Hall' as [Hall' Hpt']. change (fr_id x) with (fr_id x') at 1.
  eapply (nruns_mono _ _ (fun re n1 => _ /\ _)); [apply nruns_quiet; [|apply quiet_defrag]; eapply (enqueue key frs' f n0' Hset' Hq D _ x' _ Hw' Hx'); [done|done|]|].
  { intros m Hm q. unfold q. rewrite arrived_all by done. exact (complete_last key frs' f n0' Hset' Hq f0' l' x' m Ef' Hx' Hpt' Hm). }
  intros re n1 ((->&kr&F'&A1&A2&A3&A4&A5&A6&A7&A8)&(Aev&_)). rewrite F2, (alike_pays _ _ Hal) in A3. set (h' := rewritten _ _ _) in A3.
  pose proof Hset as [Hnd _ _ _ _ Hh _ _ _]. rewrite Ef in Hh. apply Forall_cons in Hh as [[_ _ [P1 P2 P3 P4] _] _].
  assert (Hl' : length h' = length (fr_hdr f0)) by by apply length_rewritten.
  assert (Hp9 : fld8 h' 9 = fld8 (fr_hdr f0) 9) by (apply rewritten_fld8; [done|compute_done]).
  destruct A3 as [W1 W2 W3 W4 W5 W6]. assert (Hio : ip_obj (smem n1) kr h' (frag_pays frs)).
  { split; try done. split; [lia| | |by apply rewritten_bytes].
    - rewrite Hl', <- P2. unfold ip_hdr_len, h'. by rewrite rewritten_fld8 by (done || compute_done).
    - rewrite Hl'. unfold ip_tot_len, h'. rewrite (proj2 (rewritten_fields _ _ _ P1 ltac:(split; done) ltac:(apply htons_range))).
      rewrite htons_involutive by (apply wrap_range; lia). apply wrap_id. unfold is_u, UINT16_MAX in *. lia. }
  assert (Hdata : data0 kr = data0 (fr_skb f0)) by (rewrite A8; unfold chain in F4; by injection F4).
  assert (Hd0' : (length h' < skb_data0_len kr)%nat) by (rewrite Hl'; unfold skb_data0_len in *; by rewrite Hdata).
  eapply (ipv4_deliver_spec n1 (fr_id f0') _ F' h' (frag_pays frs) A1 A2 Hio Hd0'); [by rewrite Hp9|].
  intros ret k' n2 (D1&_&D3&D4&_&D6). cbn [skb flag]. rewrite W5. rewrite Hp9 in D6. rewrite F1 in *.
  assert (Hids : fr_id <$> l' = fr_id <$> l) by by apply alike_ids.
  eapply (release_last frs f0 l x n0 n1 n2 kr k' F'); try done.
  - destruct Hw as (_&m0&_&_&_&_&->). exact Aev.
  - by rewrite <- Hids.
  - intros i Hi. rewrite A6 by (by rewrite (alike_ids _ _ Hal)). cbn. apply lookup_insert_ne. intros <-. apply Hi. by apply list_elem_of_fmap_2.
  - unfold left_over in *. by rewrite <- Hids.
Qed.

Lemma delivered_mark frs n0 x proto n' : x ∈ frs -> delivered (mark (marked r) (fr_id x) frs) (mark_net (marked r) x n0) proto n' -> delivered frs n0 proto n'.
Proof.
  intros Hx (D1&D2&D3&D4&D5). pose proof (mark_alike (marked r) ltac:(done) ltac:(done) ltac:(done) (fr_id x) frs) as Hal.
  rewrite (alike_ids _ _ Hal) in *. rewrite (alike_pays _ _ Hal) in D1. split_and!; try done. intros i Hi. rewrite D5 by done. cbn. apply lookup_insert_ne.
  intros <-. apply Hi. by apply list_elem_of_fmap_2.
Qed.

Lemma receive_all_frags rest : forall frs n0 D n f0 l, fragment_set key frs n0 f -> ipqs n0 !! key = None -> waiting key frs n0 D n -> frs = f0 :: l ->
  D ++ (fr_id <$> rest) ≡ₚ fr_id <$> frs -> rest ⊆ frs -> rest <> [] -> Forall (fun x => local r x /\ ipv4_is_frag (fr_hdr x) = true) rest ->
  (length (fr_hdr f0) < skb_data0_len (fr_skb f0))%nat -> Z.of_nat (length (fr_hdr f0)) + Z.of_nat (length (frag_pays frs)) <= UINT16_MAX ->
  fld8 (fr_hdr f0) 9 ∈ [IPPROTO_TCP; IPPROTO_UDP; IPPROTO_ICMP] ->
  nruns (receive_all (fr_id <$> rest)) n (fun _ n' => delivered frs n0 (fld8 (fr_hdr f0) 9) n').
Proof.
  induction rest as [|x rest IH]; intros frs n0 D n f0 l Hset Hq Hw Ef Hp Hsub Hne Hloc Hd0 Hmax Hpr; [done|].
  apply Forall_cons in Hloc as [[Hlx Hfx] Hloc]. pose proof (fs_ids _ _ _ _ Hset) as Hnd. rewrite <- Hp, fmap_cons in Hnd. apply NoDup_app in Hnd as (_&HD&Hnd).
  apply NoDup_cons in Hnd as [Hxr Hnd]. assert (HxD : fr_id x ∉ D) by (intros Hin; apply (HD _ Hin); left). assert (Hx : x ∈ frs) by (apply Hsub; left).
  cbn [receive_all fmap list_fmap]. apply nruns_bind. destruct rest as [|y rest].
  - eapply nruns_mono; [eapply (receive_last frs n0 D n x f0 l); try done|intros [] n' Hd; exact Hd].
    + apply Forall_forall. intros z Hz. apply (list_elem_of_fmap_2 fr_id) in Hz. rewrite <- Hp in Hz. apply elem_of_app in Hz as [Hz|Hz]; [by right|].
      apply list_elem_of_singleton in Hz as ->. left.
    + destruct Hw as [Hpt _]. rewrite Forall_forall in Hpt |- *. intros z Hz Hzx. apply Hpt; [done|]. apply (list_elem_of_fmap_2 fr_id) in Hz. rewrite <- Hp in Hz.
      apply elem_of_app in Hz as [Hz|Hz]; [done|]. by apply list_elem_of_singleton in Hz.
  - assert (Hyx : fr_id y ∉ fr_id x :: D).
    { apply not_elem_of_cons. split; [intros E; apply Hxr; rewrite <- E, fmap_cons; left|]. intros Hin. apply (HD _ Hin). right. left. }
    eapply nruns_mono; [eapply (receive_waits frs n0 D n x y); try done; apply Hsub; right; left|]. intros [] n1 Hw1.
    pose proof (mark_set (marked r) ltac:(done) ltac:(done) ltac:(done) key frs f n0 Hset x Hx) as Hset'.
    pose proof (mark_alike (marked r) ltac:(done) ltac:(done) ltac:(done) (fr_id x) frs) as Hal.
    pose proof Hal as Hal0. rewrite Ef in Hal0 at 1. apply Forall2_cons_inv_l in Hal0 as (f0'&l'&[F1 F2 F3 F4 F5 F6]&_&Ef').
    eapply nruns_mono; [eapply (IH _ _ (fr_id x :: D) n1 f0' l' Hset' Hq Hw1 Ef')|].
    + rewrite (alike_ids _ _ Hal), <- Hp. solve_Permutation.
    + intros z Hz. assert (Hzf : z ∈ frs) by (apply Hsub; by right). apply list_elem_of_fmap. exists z. rewrite decide_False; [done|].
      intros E. apply Hxr. rewrite <- E. by apply list_elem_of_fmap_2.
    + done.
    + done.
    + rewrite F2. unfold skb_data0_len in *. unfold chain in F4. injection F4 as -> _. done.
    + by rewrite F2, (alike_pays _ _ Hal).
    + by rewrite F2.
    + intros [] n' Hd. rewrite F2 in Hd. by eapply delivered_mark.
Qed.

(** A packet that is not a fragment. *)
Lemma receive_whole n x : objs n !! fr_id x = Some (single (fr_skb x)) -> own (smem n) (chain (fr_skb x)) f ->
  holds (smem n) (fr_skb x) (fr_hdr x) (fr_pay x) -> local r x -> ipv4_is_frag (fr_hdr x) = false -> is_defrag (flag (fr_skb x)) = false ->
  (length (fr_hdr x) < skb_data0_len (fr_skb x))%nat -> fld8 (fr_hdr x) 9 ∈ [IPPROTO_TCP; IPPROTO_UDP; IPPROTO_ICMP] ->
  nruns (receive (fr_id x)) n (fun _ n' => delivered [x] n (fld8 (fr_hdr x) 9) n').
Proof.
  intros Hob Ho [S1 S2 S3 S4] [L1 L2 L3] Hfr Hdf Hd0 Hpr. destruct (alive_chain _ _ (proj1 S1) (proj2 S1)) as (Hlv&_). apply nruns_bind.
  eapply (ipv4_recv_local Hone n (fr_id x) (single (fr_skb x)) [] f (fr_hdr x) (fr_pay x) r); try done; [by rewrite app_nil_r..|].
  rewrite Hfr. unfold recv_rest. set (n1 := set_objs _ _).
  eapply (ipv4_deliver_spec n1 (fr_id x) (single (stamp r (fr_skb x))) f (fr_hdr x) (fr_pay x)); [apply lookup_insert_eq|exact Ho| |exact Hd0|exact Hpr|].
  - split; try done. by eapply sound_same_data; [..|exact S1].
  - intros ret k' n2 (D1&_&D3&D4&_&D6). cbn [skb single stamp set_route map_meta set_l3 set_family flag]. rewrite Hdf. apply nruns_bind, nruns_ret, nruns_ret.
    eapply (nruns_put_ref_last (fr_id x) (single k') [] f); [rewrite D1; apply lookup_insert_eq|done|by rewrite app_nil_r|].
    intros m Hm _ _. unfold delivered, frag_pays. cbn. rewrite app_nil_r, D1, D3, D6. cbn. split_and!; try done.
    + intros i ->%list_elem_of_singleton. apply lookup_delete_eq.
    + intros i Hi. apply not_elem_of_cons in Hi as [Hi _]. by rewrite lookup_delete_ne, !lookup_insert_ne.
Qed.
End arrival.
End receive.
