(* ===== verification/IpProps.v ===== *)
(** The IPv4 layer, properties: which packets are accepted, what goes out for a
    packet of this host and for one that is forwarded, and that what one host
    sends another delivers, in fragments or not and in any order. *)

From stdpp Require Import prelude list gmap.
From Stdlib Require Import ZArith Lia.
From S2P Require Import Prelude Checksum Rss Skbuff SkbuffMem SkbuffOps SkbuffFrame Net NetInv IpFrag IpFragHdr IpFragOut IpFragIn NetFrame IpFragProps Ip IpHdr IpOut IpIn.
Import Skb Net IpFrag Ip.

(** *** Fragments of a packet *)

Lemma take4_ext (h h' : list Z) i : (i + 4 <= length h)%nat -> (i + 4 <= length h')%nat ->
  (forall j, (i <= j < i + 4)%nat -> fld8 h j = fld8 h' j) -> take 4 (drop i h) = take 4 (drop i h').
Proof.
  intros H1 H2 Hj. apply set16_ext; [rewrite !length_take, !length_drop; lia|]. intros j. unfold fld8 in *. rewrite !nth_lookup.
  destruct (decide (j < 4)%nat) as [Hlt|Hge]; [|by rewrite !lookup_take_ge by lia]. rewrite !lookup_take_lt, !lookup_drop by done.
  specialize (Hj (i + j)%nat ltac:(lia)). by rewrite !nth_lookup in Hj.
Qed.

Lemma frag_header_dst h off mf len : (20 <= length h)%nat -> take 4 (drop 16 (frag_header h off mf len)) = take 4 (drop 16 h).
Proof.
  intros Hh. apply take4_ext; [rewrite length_frag_header by done; lia|lia|]. intros j Hj. apply frag_header_fld8; [done|].
  intros Hin. repeat (apply elem_of_cons in Hin as [->|Hin]; [lia|]). by apply not_elem_of_nil in Hin.
Qed.

Lemma frag_header_is_frag h off mf len : (20 <= length h)%nat -> 0 <= off < 65536 -> off mod 8 = 0 -> mf = true \/ 0 < off ->
  ipv4_is_frag (frag_header h off mf len) = true.
Proof.
  intros Hh Ho H8 Hor. unfold ipv4_is_frag. rewrite frag_header_field by done. destruct (frag_field_spec off mf Ho) as (_&E1&E2&_).
  change 0x1FFF with IPV4_FRAG_OFF_MASK. change 0x2000 with IPV4_FRAG_MF. rewrite E1, E2. destruct Hor as [->|Hpos]; [apply orb_true_r|].
  rewrite (proj2 (Z.eqb_neq (off / 8) 0)) by zlia. done.
Qed.

(** The headers of all fragments, when there are several. *)
Lemma fragments_headers h fp frs : (0 < fp)%nat -> Z.of_nat fp mod 8 = 0 -> (20 <= length h)%nat ->
  forall fuel off pay, (length pay < fuel)%nat -> 0 <= off -> off mod 8 = 0 -> off + Z.of_nat (length pay) < 65536 -> (fp < length pay)%nat \/ 0 < off ->
  Forall (fun x => length (fr_hdr x) = length h) frs ->
  (fun x => fr_hdr x ++ fr_pay x) <$> frs = fragments fuel h fp false off pay ->
  Forall (fun x => ipv4_is_frag (fr_hdr x) = true /\ exists off mf len, fr_hdr x = frag_header h off mf len) frs.
Proof.
  intros Hfp Hfp8 Hh. induction frs as [|x l IH]; intros fuel off pay Hfuel Hoff H8 Hmax Hor Hlen E; [done|]. destruct fuel as [|fuel]; [lia|].
  apply Forall_cons in Hlen as [Hx Hl]. rewrite fmap_cons in E. cbn [fragments] in E. destruct (Nat.ltb_spec fp (length pay)) as [Hlt|Hge].
  - apply cons_inv in E as [E1 E2]. apply app_inj_1 in E1 as [E1 _]; [|by rewrite length_frag_header]. constructor.
    + rewrite E1. split; [|by eexists _, _, _]. apply frag_header_is_frag; [done|lia|done|by left].
    + apply (IH fuel (off + Z.of_nat fp) (drop fp pay)); rewrite ?length_drop; try done; [lia|lia|zlia|lia|lia].
  - apply cons_inv in E as [E1 E2]. apply fmap_nil_inv in E2 as ->. apply app_inj_1 in E1 as [E1 _]; [|by rewrite length_frag_header]. constructor; [|done].
    rewrite E1. split; [|by eexists _, _, _]. apply frag_header_is_frag; [done|lia|done|right; lia].
Qed.

(** *** What arrives *)

(** The packets [frs] have arrived: their bytes are in memory, each in a packet of
    its own, with more than the header in the first slot, and the route of each is
    the local route [r]. *)
Record arriving `{IpEnv} (r : nat) (frs : list frag) (n : net) (f : nat -> nat) : Prop := {
  ar_ids : NoDup (fr_id <$> frs);
  ar_objs : Forall (fun x => objs n !! fr_id x = Some (single (fr_skb x))) frs;
  ar_own : own (smem n) (frag_chains frs) f;
  ar_live : live (smem n) (frag_chains frs);
  ar_holds : Forall (fun x => holds (smem n) (fr_skb x) (fr_hdr x) (fr_pay x)) frs;
  ar_first : Forall (fun x => (length (fr_hdr x) < skb_data0_len (fr_skb x))%nat /\ is_defrag (flag (fr_skb x)) = false) frs;
  ar_num : (frag_nums frs <= SKB_DATA_MAX_NUM)%nat;
  ar_plenty : plenty (smem n) (S (frag_nums frs));
  ar_route : Forall (fun x => pick_route (meta (fr_skb x)) AF_INET (take 4 (drop 16 (fr_hdr x))) = Some r) frs;
  ar_local : route_type r = RTN_LOCAL \/ route_type r = RTN_BROADCAST
}.

Section deliver.
Context `{IpEnv} `{!Handlers}.
Hypothesis Hone : g_worker_num <= 1.

(** The packets on the wire for [h ++ pay], in any order, give the payload. *)
Lemma wire_delivered mtu h pay r frs order n f : ip_pkt h pay -> good_hdr h -> fld16 h 6 = 0 -> pay <> [] ->
  Z.of_nat (length h) + 8 <= mtu -> fld8 h 9 ∈ [IPPROTO_TCP; IPPROTO_UDP; IPPROTO_ICMP] ->
  arriving r frs n f -> (fun x => fr_hdr x ++ fr_pay x) <$> frs = wire mtu h pay -> Forall (fun x => length (fr_hdr x) = length h) frs ->
  ipqs n !! key_of h = None -> order ≡ₚ frs ->
  nruns (receive_all (fr_id <$> order)) n (fun _ n' => delivered f frs n (fld8 h 9) n' /\ frag_pays frs = pay).
Proof.
  intros Hpk Hg H6 Hne Hmtu Hpr [A1 A2 A3 A4 A5 A6 A7 A8 A9 A10] E Hlen Hq Hord. pose proof Hpk as [P1 P2 P3 P4]. unfold wire in E.
  assert (Hu : is_u16 (ip_tot_len h)) by apply htons_range. unfold is_u in Hu.
  destruct (Z.leb_spec (Z.of_nat (length h + length pay)) mtu) as [Hfit|Hbig].
  - destruct frs as [|x [|]]; [done| |done]. apply Permutation_singleton_r in Hord as ->.
    apply cons_inv in E as [E _]. apply Forall_cons in Hlen as [Hlx _]. apply app_inj_1 in E as [Eh Ep]; [|done].
    apply Forall_cons in A2 as [A2 _]. apply Forall_cons in A5 as [A5 _]. apply Forall_cons in A6 as [[A6 A6'] _]. apply Forall_cons in A9 as [A9 _].
    rewrite frag_chains_cons, app_nil_r in A3. cbn [receive_all fmap list_fmap]. apply nruns_bind.
    eapply nruns_mono; [apply (receive_whole Hone f r n x); try done|].
    + split; [by rewrite Eh|done|done].
    + rewrite Eh. unfold ipv4_is_frag, ipv4_frag_field_get_host. by rewrite H6.
    + by rewrite Eh.
    + intros [] n' Hd. rewrite Eh in Hd. apply nruns_ret. split; [done|]. by rewrite frag_pays_cons, Ep, app_nil_r.
  - assert (Hoff : ipv4_get_frag_offset h = 0 /\ ipv4_get_flag_mf h = false) by (unfold ipv4_get_frag_offset, ipv4_get_flag_mf, ipv4_frag_field_get_host; by rewrite H6).
    destruct Hoff as [Ho Hm]. rewrite Ho, Hm in E. set (fp := Z.to_nat _) in E.
    assert (Hfp : (0 < fp)%nat /\ Z.of_nat fp mod 8 = 0 /\ Z.of_nat (length h) + Z.of_nat fp <= mtu) by (unfold fp; split_and!; zlia). destruct Hfp as (F1&F2&F3).
    destruct (fragments_cover h pay fp (key_of h) frs F1 F2 Hpk eq_refl (S (length pay)) 0 pay) as (C1&C2&C3); try done; [lia|unfold UINT16_MAX; lia|].
    pose proof (fragments_headers h fp frs F1 F2 P1 (S (length pay)) 0 pay ltac:(lia) ltac:(lia) eq_refl ltac:(lia) ltac:(lia) Hlen E) as Hfr.
    assert (Hloc : Forall (fun x => local r x /\ ipv4_is_frag (fr_hdr x) = true) frs).
    { rewrite Forall_forall in Hfr, A9 |- *. intros x Hx. destruct (Hfr x Hx) as (Hi&off&mf&len&Eh). split; [|done]. split; [|by apply A9|done].
      rewrite Eh. apply good_frag_header; [pose proof (ip_pkt_len _ _ Hpk); lia|done|done]. }
    assert (Hset : fragment_set (key_of h) frs n f) by (split; try done; intros ->; by destruct pay).
    destruct frs as [|f0 l]; [by destruct (fs_some _ _ _ _ Hset)|]. pose proof Hfr as [(_&off0&mf0&len0&E0) _]%Forall_cons.
    assert (E9 : fld8 (fr_hdr f0) 9 = fld8 h 9) by (rewrite E0; apply frag_header_fld8; [done|compute_done]).
    eapply nruns_mono; [eapply (receive_all_frags Hone (key_of h) f r order (f0 :: l) n [] n f0 l Hset Hq); try done|].
    + split; [by apply Forall_forall; intros ? _ ?%not_elem_of_nil|]. exists (smem n). rewrite decide_True by done.
      split_and!; [done..| |by destruct n]. by rewrite Nat.add_1_r.
    + by rewrite Hord.
    + intros x. by rewrite Hord.
    + intros ->. by apply Permutation_nil_cons in Hord.
    + by rewrite Hord.
    + by apply Forall_cons in A6 as [[A6 _] _].
    + apply Forall_cons in Hlen as [-> _]. rewrite C2. unfold UINT16_MAX. lia.
    + by rewrite E9.
    + intros [] n' Hd. rewrite E9 in Hd. done.
Qed.
End deliver.

(** *** Properties *)



(** C32: The checks of reception accept exactly the packets that are of version 4,
    whose header lies in the first slot, have hops to live, a total length that
    fits between the header and the bytes received, and a checksum that verifies
    unless the interface has verified it; an accepted packet is cut to its total
    length, beside other packets that do not change, and a refused one is left
    as it is. *)
Theorem check_ipv4_hdr_exact n id o rest f bs : objs n !! id = Some o -> own (smem n) (chain (skb o) ++ rest) f ->
  live (smem n) (chain (skb o) ++ rest) -> sound (smem n) (skb o) -> l3_hdr (skb o) = skb_start (skb o) -> (20 <= skb_data0_len (skb o))%nat ->
  content (smem n) (chain (skb o)) = bs ->
  nruns (check_ipv4_hdr id) n (fun ok n' => (ok = true <->
      IPV4_VHL_VERSION (fld8 bs 0) = 4 /\ 20 <= ip_hdr_len bs <= Z.of_nat (skb_data0_len (skb o)) /\ fld8 bs 8 <> 0 /\
      ip_hdr_len bs <= ip_tot_len bs <= Z.of_nat (length bs) /\
      (is_hw_rcv_checksum (flag (skb o)) = true \/ checksum (take (Z.to_nat (ip_hdr_len bs)) bs) 0 = Some 0)) /\
    if ok then trimmed n id o rest f (take (Z.to_nat (ip_tot_len bs)) bs) n' else n' = n).
Proof.
  intros Hob Ho Hl Hs Hl3 Hd Hc. eapply nruns_mono; [by apply (check_ipv4_hdr_spec n id o rest f bs)|]. intros ok n' (Hok&Ht&Hn). split.
  - rewrite Hok. unfold accepts. rewrite !andb_true_iff, orb_true_iff, negb_true_iff, bool_decide_eq_true, !Z.leb_le, Z.eqb_eq, Z.eqb_neq. tauto.
  - destruct ok; [by apply Ht|]. apply Hn. by left.
Qed.

(** *** Witnesses *)

(** Interfaces and handlers that only take the bytes. *)
Definition take_bytes (e : list Z -> event) (id : nat) : NM Z :=
  o ← get id;
  bs ← gets (fun n => content (smem n) (chain (skb o)));
  emit (e bs);; mret 0.

(** A host with one route; 36 bytes fit a packet. *)
Definition ex_host (type : Z) : IpEnv := {|
  search_route_table := fun _ _ _ => Some 0%nat; route_info_check := fun _ => true; route_type := fun _ => type; route_if := fun _ => 0%nat;
  if_mtu := fun _ => 36; sock_sip := fun _ => [10; 0; 0; 1]; sock_dip := fun _ => [10; 0; 0; 2]; sock_scope := fun _ => 0;
  if_send := fun i => take_bytes (Sent i); tcp_recv := take_bytes (Up IPPROTO_TCP); udp_recv := take_bytes (Up IPPROTO_UDP);
  icmp_recv := take_bytes (Up IPPROTO_ICMP); g_worker_num := 1; current_worker := 0; cfg_ipv4_forward := true |}.

Lemma take_bytes_eq e id n o : objs n !! id = Some o ->
  take_bytes e id n = Some (0, set_events n (events n ++ [e (content (smem n) (chain (skb o)))])).
Proof. intros Ho. unfold take_bytes, mbind, NM_bind, get. by rewrite Ho. Qed.

Lemma with_skb_id n id o : objs n !! id = Some o -> <[id := with_skb o (skb o)]> (objs n) = objs n.
Proof. intros Ho. apply insert_id. by destruct o. Qed.

Lemma ex_link type : @Link (ex_host type) (fun _ _ bs => bs).
Proof.
  intros ifx id n o rest f Ho Hown Hl Hs _ _ _ _. unfold nruns. cbn [if_send ex_host]. rewrite (take_bytes_eq _ _ _ _ Ho). exists (skb o), true.
  split_and!; [|by intros ?|done]. split; try done; [by rewrite with_skb_id|]. split; [by destruct Hl as [[_ ?]%Forall_app _]|done].
Qed.

Lemma ex_handlers type : @Handlers (ex_host type).
Proof.
  intros proto id n o f Hp Ho Hown Hs. assert (E : @ipv4_dispatch (ex_host type) proto id = take_bytes (Up proto) id).
  { repeat (apply elem_of_cons in Hp as [->|Hp]; [done|]). by apply not_elem_of_nil in Hp. }
  rewrite E. unfold nruns. rewrite (take_bytes_eq _ _ _ _ Ho). exists (skb o). cbn. by rewrite with_skb_id.
Qed.

(** A UDP datagram of 24 bytes to send. *)
Definition ex_out : obj := single (map_meta (fun t => mk_meta AF_INET IPPROTO_UDP (Some 0%nat) 0 0 None None) (pkt_of 0 ex_pay)).
Definition ex_sender : net := set_ip_id (set_objs (ex_net [ex_pay]) {[ 0%nat := ex_out ]}) 1.

Lemma ex_pay_sound (g : skb_meta -> skb_meta) bs al : bs <> [] -> sound (smem (net_of [bs] 0 al)) (map_meta g (pkt_of 0 bs)).
Proof.
  intros Hne. destruct (di_of_inside [bs] 0 al 0 bs eq_refl) as [Hin _]. split; [|done]. split; [cbn; unfold di_len; cbn; lia|]. left.
  split_and!; [split; [by constructor|apply NoDup_singleton]|done|cbn; unfold SKB_DATA_MAX_NUM; lia].
Qed.

Lemma ex_arriving : @arriving (ex_host RTN_LOCAL) 0 (frags_of ex_hps) (ex_net (bytes_of ex_hps)) (fun _ => 0%nat).
Proof.
  destruct ex_set as [S1 S2 S3 S4 S5 S6 S7 S8 S9]. split; try done.
  - repeat constructor.
  - by exists (replicate 5 true).
  - repeat constructor.
  - by left.
Qed.


(** The packet of 44 bytes on its way through. *)
Definition ex_through : obj := single (map_meta (fun t => mk_meta AF_INET 0 None 0 0 None (Some 0%nat)) (pkt_of 0 (ex_hdr ++ ex_pay))).
Definition ex_router : net := set_objs (ex_net [ex_hdr ++ ex_pay]) {[ 0%nat := ex_through ]}.

Lemma ex_pkt : ip_pkt ex_hdr ex_pay.
Proof. split; [vm_compute; lia|done|done|bytes]. Qed.

Lemma ex_through_obj : ip_obj (smem ex_router) (skb ex_through) ex_hdr ex_pay.
Proof.
  destruct (pkt_of_obj [ex_hdr ++ ex_pay] 0 (replicate 8 true) 0 ex_hdr ex_pay eq_refl ex_pkt) as [H1 H2 H3 H4 H5].
  split; [by apply ex_pay_sound|done..].
Qed.


(** The same packet with six bytes of padding. *)
Definition ex_padded : list Z := ex_hdr ++ ex_pay ++ replicate 6 0.

Lemma check_ipv4_hdr_exact_witness : nruns (check_ipv4_hdr 0) (ex_net [ex_padded]) (fun ok n' =>
  ok = true /\ trimmed (ex_net [ex_padded]) 0 (single (pkt_of 0 ex_padded)) [] (fun _ => 0%nat) (ex_hdr ++ ex_pay) n').
Proof.
  assert (Hs : sound (smem (ex_net [ex_padded])) (pkt_of 0 ex_padded)) by (eapply sound_same_data; [..|exact (ex_pay_sound id ex_padded (replicate 8 true) ltac:(done))]; done).
  eapply nruns_mono; [eapply (check_ipv4_hdr_exact (ex_net [ex_padded]) 0 (single (pkt_of 0 ex_padded)) [] (fun _ => 0%nat) ex_padded)|].
  - done.
  - rewrite app_nil_r. apply (net_of_own [ex_padded]). by repeat constructor.
  - rewrite app_nil_r. by destruct (alive_chain _ _ (proj1 Hs) (proj2 Hs)).
  - exact Hs.
  - done.
  - vm_compute. lia.
  - by vm_compute.
  - intros ok n' [Hok Ht]. destruct ok; [by split|]. exfalso. assert (H : false = true) by (apply Hok; by vm_compute; split_and!; try done; right). done.
Defined.

(** *** Where reception fails *)

(** A packet of 20 bytes, all of it header, for UDP. *)
Definition ex_bare : list Z := rewritten [69; 0; 0; 20; 0; 1; 0; 0; 64; 17; 0; 0; 10; 0; 0; 1; 10; 0; 0; 2] (htons 0) (htons 20).

(** A packet without payload passes the checks, but its delivery reads memory
    that has been released: consuming the header frees the packet's only slot, and
    the protocol is read from the header after that. *)
Theorem bare_header_faults :
  accepts false 20 ex_bare = true /\ @ipv4_recv (ex_host RTN_LOCAL) 0 (ex_net [ex_bare]) = None /\
  @ipv4_recv (ex_host RTN_LOCAL) 0 (ex_net [ex_hdr ++ ex_pay]) <> None.
Proof. split_and!; by vm_compute. Qed.
