(* ===== verification/LinkedList.v ===== *)
(** Doubly linked lists and queues over pointers (src/lib/list.c and the queue of
    src/lib/queue.c), and that they implement sequences.

    Memory is a map from addresses to nodes, NULL is [None]; an operation that
    follows a pointer to no node is [None].  The rest of the development uses
    sequences where the code uses these lists. *)

From stdpp Require Import prelude list gmap.
From Stdlib Require Import ZArith Lia.
From S2P Require Import Prelude.

Record list_node := mk_node { n_pre : option Z; n_next : option Z; n_element : Z }.
Abbreviation heap := (gmap Z list_node).
Implicit Types (h : heap) (l : list Z).

Definition set_pre (h : heap) (a : Z) (v : option Z) : option heap :=
  n ← h !! a; Some (<[a := mk_node v (n_next n) (n_element n)]> h).
Definition set_next (h : heap) (a : Z) (v : option Z) : option heap :=
  n ← h !! a; Some (<[a := mk_node (n_pre n) v (n_element n)]> h).

(** [if (p) p->pre = v] and [if (p) p->next = v]. *)
Definition set_pre_if (h : heap) (p v : option Z) : option heap :=
  match p with Some a => set_pre h a v | None => Some h end.
Definition set_next_if (h : heap) (p v : option Z) : option heap :=
  match p with Some a => set_next h a v | None => Some h end.

(** [calloc] at an address that is not in use. *)
Definition create_list_node (h : heap) (a element : Z) : heap := <[a := mk_node None None element]> h.

Definition add_list_node (h : heap) (pre add : Z) : option heap :=
  p ← h !! pre;
  let next := n_next p in
  h ← set_pre h add (Some pre);
  h ← set_next h add next;
  h ← set_next h pre (Some add);
  set_pre_if h next (Some add).

Definition add_list_node_pre (h : heap) (last add : Z) : option heap :=
  p ← h !! last;
  let pre := n_pre p in
  h ← set_pre h add pre;
  h ← set_next h add (Some last);
  h ← set_pre h last (Some add);
  set_next_if h pre (Some add).

Definition remove_list_node (h : heap) (remove : Z) : option heap :=
  p ← h !! remove;
  let pre := n_pre p in
  let next := n_next p in
  h ← set_next_if h pre next;
  h ← set_pre_if h next pre;
  h ← set_pre h remove None;
  set_next h remove None.

(** [destroy_list_node] without a function to free the element. *)
Definition destroy_list_node (h : heap) (a : Z) : heap := delete a h.

(** The walk of [add_list_node_compare] from [pre] on; [true] is the result 0. *)
Fixpoint add_compare (fuel : nat) (compare : Z -> Z -> Z) (h : heap) (pre add : Z)
    : option (bool * heap) :=
  match fuel with
  | O => None
  | S fuel =>
      p ← h !! pre;
      match n_next p with
      | None => h ← add_list_node h pre add; Some (true, h)
      | Some curr =>
          c ← h !! curr;
          n ← h !! add;
          let ret := compare (n_element c) (n_element n) in
          if 0 <? ret then h ← add_list_node h pre add; Some (true, h)
          else if ret <? 0 then add_compare fuel compare h curr add
          else Some (false, h)
      end
  end.

Definition add_list_node_compare (fuel : nat) (compare : Z -> Z -> Z) (h : heap) (head add : Z)
    : option (bool * heap) := add_compare fuel compare h head add.

Fixpoint element_exist (fuel : nat) (h : heap) (p : option Z) (element : Z) : option bool :=
  match p with
  | None => Some false
  | Some a =>
      match fuel with
      | O => None
      | S fuel =>
          n ← h !! a;
          if n_element n =? element then Some true else element_exist fuel h (n_next n) element
      end
  end.

Definition list_element_exist (fuel : nat) (h : heap) (head element : Z) : option bool :=
  n ← h !! head; element_exist fuel h (n_next n) element.

(** [clear_list_head]: the next pointer is read before the node is freed. *)
Fixpoint clear_nodes (fuel : nat) (h : heap) (p : option Z) : option heap :=
  match p with
  | None => Some h
  | Some a =>
      match fuel with
      | O => None
      | S fuel =>
          n ← h !! a;
          h ← remove_list_node h a;
          clear_nodes fuel (destroy_list_node h a) (n_next n)
      end
  end.

Definition clear_list_head (fuel : nat) (h : heap) (head : Z) : option heap :=
  n ← h !! head;
  h ← clear_nodes fuel h (n_next n);
  h ← set_next h head None;
  set_pre h head None.

(** *** Queues *)

Record queue := mk_queue { q_last : Z; q_first : Z; element_number : Z }.

Definition init_queue (h : heap) (last first : Z) : option (queue * heap) :=
  h ← set_next h first (Some last);
  h ← set_pre h first None;
  h ← set_pre h last (Some first);
  h ← set_next h last None;
  Some (mk_queue last first 0, h).

Definition counted (q : queue) (n : Z) : queue := mk_queue (q_last q) (q_first q) n.

Definition add_queue (q : queue) (h : heap) (node : Z) : option (queue * heap) :=
  h ← add_list_node_pre h (q_last q) node; Some (counted q (element_number q + 1), h).

Definition add_queue_first (q : queue) (h : heap) (node : Z) : option (queue * heap) :=
  h ← add_list_node h (q_first q) node; Some (counted q (element_number q + 1), h).

Definition get_queue_first (q : queue) (h : heap) : option (option Z) :=
  if element_number q =? 0 then Some None else n ← h !! q_first q; Some (n_next n).

Definition get_queue_last (q : queue) (h : heap) : option (option Z) :=
  if element_number q =? 0 then Some None else n ← h !! q_last q; Some (n_pre n).

Definition pop_queue (q : queue) (h : heap) : option (option Z * queue * heap) :=
  if element_number q =? 0 then Some (None, q, h)
  else
    n ← h !! q_first q;
    node ← n_next n;
    h ← remove_list_node h node;
    Some (Some node, counted q (element_number q - 1), h).

Definition pop_queue_last (q : queue) (h : heap) : option (option Z * queue * heap) :=
  if element_number q =? 0 then Some (None, q, h)
  else
    n ← h !! q_last q;
    node ← n_pre n;
    h ← remove_list_node h node;
    Some (Some node, counted q (element_number q - 1), h).

(** [QUEUE_FOR_EACH] in [queue_exist]. *)
Fixpoint queue_find (fuel : nat) (h : heap) (node last : Z) (element : Z) : option bool :=
  if node =? last then Some false
  else
    match fuel with
    | O => None
    | S fuel =>
        n ← h !! node;
        if n_element n =? element then Some true
        else next ← n_next n; queue_find fuel h next last element
    end.

Definition queue_exist (fuel : nat) (q : queue) (h : heap) (element : Z) : option bool :=
  n ← h !! q_first q; node ← n_next n; queue_find fuel h node (q_last q) element.

(** *** Sequences in memory *)

Definition nxt (h : heap) (a : Z) : option (option Z) := n_next <$> h !! a.
Definition prv (h : heap) (a : Z) : option (option Z) := n_pre <$> h !! a.
Definition elt (h : heap) (a : Z) : option Z := n_element <$> h !! a.

Fixpoint linked (h : heap) (l : list Z) : Prop :=
  match l with
  | [] => True
  | a :: l' =>
      match l' with
      | b :: _ => nxt h a = Some (Some b) /\ prv h b = Some (Some a)
      | [] => True
      end /\ linked h l'
  end.

(** The nodes of [l], in this order, the last one pointing to NULL. *)
Record dlist (h : heap) (l : list Z) : Prop := {
  dl_nodup : NoDup l;
  dl_live : Forall (fun a => is_Some (h !! a)) l;
  dl_linked : linked h l;
  dl_last a : last l = Some a -> nxt h a = Some None
}.

(** *** Single writes *)

(** [h'] is [h] with the pointers [f] and [g] say; same nodes, same elements. *)
Record rewired (h h' : heap) (f g : Z -> option (option Z)) : Prop := {
  rw_nxt a : nxt h' a = f a;
  rw_prv a : prv h' a = g a;
  rw_elt a : elt h' a = elt h a
}.

Definition upd1 (f : Z -> option (option Z)) (a : Z) (v : option Z) : Z -> option (option Z) :=
  fun k => if bool_decide (k = a) then Some v else f k.

Lemma set_next_ok h a v :
  is_Some (h !! a) -> exists h', set_next h a v = Some h' /\ rewired h h' (upd1 (nxt h) a v) (prv h).
Proof.
  intros [n Hn]. unfold set_next. rewrite Hn. cbn. eexists. split; [reflexivity|].
  split; intros k; unfold upd1, nxt, prv, elt; destruct (decide (k = a)) as [->|Hk].
  all: try (rewrite lookup_insert_eq, ?bool_decide_true, ?Hn by done; done).
  all: rewrite lookup_insert_ne, ?bool_decide_false by congruence; done.
Qed.

Lemma set_pre_ok h a v :
  is_Some (h !! a) -> exists h', set_pre h a v = Some h' /\ rewired h h' (nxt h) (upd1 (prv h) a v).
Proof.
  intros [n Hn]. unfold set_pre. rewrite Hn. cbn. eexists. split; [reflexivity|].
  split; intros k; unfold upd1, nxt, prv, elt; destruct (decide (k = a)) as [->|Hk].
  all: try (rewrite lookup_insert_eq, ?bool_decide_true, ?Hn by done; done).
  all: rewrite lookup_insert_ne, ?bool_decide_false by congruence; done.
Qed.

Lemma live_elt h a : is_Some (h !! a) <-> is_Some (elt h a).
Proof. unfold elt. by rewrite fmap_is_Some. Qed.

Lemma rewired_live h h' f g a : rewired h h' f g -> is_Some (h !! a) <-> is_Some (h' !! a).
Proof. intros H. by rewrite !live_elt, (rw_elt _ _ _ _ H). Qed.

Definition upd_if (f : Z -> option (option Z)) (p v : option Z) : Z -> option (option Z) :=
  match p with Some a => upd1 f a v | None => f end.

Lemma set_next_if_ok h p v :
  (forall a, p = Some a -> is_Some (h !! a)) ->
  exists h', set_next_if h p v = Some h' /\ rewired h h' (upd_if (nxt h) p v) (prv h).
Proof. destruct p as [a|]; cbn; intros H; [by apply set_next_ok, H|]. by exists h. Qed.

Lemma set_pre_if_ok h p v :
  (forall a, p = Some a -> is_Some (h !! a)) ->
  exists h', set_pre_if h p v = Some h' /\ rewired h h' (nxt h) (upd_if (prv h) p v).
Proof. destruct p as [a|]; cbn; intros H; [by apply set_pre_ok, H|]. by exists h. Qed.

(** *** The operations as rewirings *)

Lemma nxt_live h a v : nxt h a = Some v -> is_Some (h !! a).
Proof. unfold nxt. destruct (h !! a); [by eexists|done]. Qed.
Lemma prv_live h a v : prv h a = Some v -> is_Some (h !! a).
Proof. unfold prv. destruct (h !! a); [by eexists|done]. Qed.

(** One write after the other, and the composition of what they did. *)
Ltac live := intros; repeat match goal with
  | R : rewired _ ?h' _ _ |- is_Some (?h' !! _) => apply (proj1 (rewired_live _ _ _ _ _ R))
  end; by eauto.
Ltac write H := let h' := fresh "h" in let E := fresh "E" in let R := fresh "R" in
  destruct H as (h'&E&R); [live|rewrite E; cbn [mbind option_bind]].
Ltac rewire := split; intros k;
  repeat (unfold upd_if, upd1; cbn beta iota; match goal with
  | R : rewired _ ?h' _ _ |- context [nxt ?h' ?k] => rewrite (rw_nxt _ _ _ _ R k)
  | R : rewired _ ?h' _ _ |- context [prv ?h' ?k] => rewrite (rw_prv _ _ _ _ R k)
  | R : rewired _ ?h' _ _ |- context [elt ?h' ?k] => rewrite (rw_elt _ _ _ _ R k)
  end); unfold upd_if, upd1; cbn beta iota; done.

Lemma add_list_node_ok h pre add next :
  nxt h pre = Some next -> is_Some (h !! add) -> (forall x, next = Some x -> is_Some (h !! x)) ->
  exists h', add_list_node h pre add = Some h' /\
    rewired h h' (upd1 (upd1 (nxt h) add next) pre (Some add))
                 (upd_if (upd1 (prv h) add (Some pre)) next (Some add)).
Proof.
  intros Hn Ha Hx. pose proof (nxt_live _ _ _ Hn) as Hp. unfold add_list_node.
  unfold nxt in Hn. destruct (h !! pre) as [p|] eqn:Ep; [|done]. injection Hn as Hn. cbn. rewrite Hn.
  assert (Hp' : is_Some (h !! pre)) by by eexists.
  write (set_pre_ok h add (Some pre)). write (set_next_ok h0 add next). write (set_next_ok h1 pre (Some add)).
  write (set_pre_if_ok h2 next (Some add)). eexists. split; [reflexivity|]. destruct next; rewire.
Qed.

Lemma add_list_node_pre_ok h last add pre :
  prv h last = Some pre -> is_Some (h !! add) -> (forall x, pre = Some x -> is_Some (h !! x)) ->
  exists h', add_list_node_pre h last add = Some h' /\
    rewired h h' (upd_if (upd1 (nxt h) add (Some last)) pre (Some add))
                 (upd1 (upd1 (prv h) add pre) last (Some add)).
Proof.
  intros Hn Ha Hx. pose proof (prv_live _ _ _ Hn) as Hp. unfold add_list_node_pre.
  unfold prv in Hn. destruct (h !! last) as [p|] eqn:Ep; [|done]. injection Hn as Hn. cbn. rewrite Hn.
  assert (Hp' : is_Some (h !! last)) by by eexists.
  write (set_pre_ok h add pre). write (set_next_ok h0 add (Some last)). write (set_pre_ok h1 last (Some add)).
  write (set_next_if_ok h2 pre (Some add)). eexists. split; [reflexivity|]. destruct pre; rewire.
Qed.

Lemma remove_list_node_ok h x pre next :
  prv h x = Some pre -> nxt h x = Some next ->
  (forall a, pre = Some a -> is_Some (h !! a)) -> (forall b, next = Some b -> is_Some (h !! b)) ->
  exists h', remove_list_node h x = Some h' /\
    rewired h h' (upd1 (upd_if (nxt h) pre next) x None) (upd1 (upd_if (prv h) next pre) x None).
Proof.
  intros Hp Hn Ha Hb. pose proof (nxt_live _ _ _ Hn) as Hx. unfold remove_list_node.
  unfold nxt in Hn. unfold prv in Hp. destruct (h !! x) as [n|] eqn:Ex; [|done].
  injection Hp as Hp. injection Hn as Hn. cbn. rewrite Hp, Hn. assert (Hx' : is_Some (h !! x)) by by eexists.
  write (set_next_if_ok h pre next). write (set_pre_if_ok h0 next pre). write (set_pre_ok h1 x None).
  write (set_next_ok h2 x None). eexists. split; [reflexivity|]. destruct pre, next; rewire.
Qed.

(** *** The operations on sequences *)

Lemma linked_app h l1 a l2 : linked h (l1 ++ a :: l2) <-> linked h (l1 ++ [a]) /\ linked h (a :: l2).
Proof.
  induction l1 as [|b l1 IH]; [split; [by intros H; split|by intros [_ H]]|].
  destruct l1 as [|c l1].
  { split; [intros [H1 H2]; split; [by split|exact H2]|intros [[H1 _] H2]; by split]. }
  split.
  - intros [H1 H2]. apply IH in H2 as [H2 H3]. split; [by split|done].
  - intros [[H1 H2] H3]. split; [done|]. apply IH. by split.
Qed.

Lemma linked_frame h h' l :
  linked h l -> (forall k, k ∈ l -> last l <> Some k -> nxt h' k = nxt h k) ->
  (forall k, k ∈ tail l -> prv h' k = prv h k) -> NoDup l -> linked h' l.
Proof.
  induction l as [|a l IH]; [done|]. intros [H1 H2] Hn Hp [Ha Hd]%NoDup_cons. destruct l as [|b l]; [done|].
  split.
  - rewrite Hn, Hp; [done|left|left|]. cbn. intros E. apply last_Some_elem_of in E. by apply Ha.
  - apply IH; [done|intros k Hk Hl; apply Hn; [by right|done]| |done].
    intros k Hk. apply Hp. by right.
Qed.

(** [add] goes in after [a]. *)
Lemma dlist_insert h h' l1 a l2 add :
  dlist h (l1 ++ a :: l2) -> is_Some (h !! add) -> add ∉ (l1 ++ a :: l2) ->
  (forall k, elt h' k = elt h k) ->
  nxt h' a = Some (Some add) -> nxt h' add = Some (head l2) ->
  (forall k, k <> a -> k <> add -> nxt h' k = nxt h k) ->
  prv h' add = Some (Some a) -> (forall b, head l2 = Some b -> prv h' b = Some (Some add)) ->
  (forall k, k <> add -> head l2 <> Some k -> prv h' k = prv h k) ->
  dlist h' (l1 ++ a :: add :: l2).
Proof.
  intros [Hd Hl Hk Hlast] Hlive Hnew He Na Nd No Pd Pb Po.
  assert (Hadd : add <> a /\ add ∉ l1 /\ add ∉ l2) by set_solver. destruct Hadd as (Hne&Hn1&Hn2).
  apply NoDup_app in Hd as (D1&D2&D3). apply NoDup_cons in D3 as [D3 D4].
  assert (Ha1 : a ∉ l1) by (intros H; apply (D2 a H); left).
  apply linked_app in Hk as [K1 K2].
  assert (Hpn : forall k, k ∈ (l1 ++ [a]) -> head l2 <> Some k).
  { intros k Hk E. destruct l2 as [|b l2]; [done|]. injection E as ->. apply elem_of_app in Hk as [Hk|Hk].
    - apply (D2 k Hk). right. left.
    - apply list_elem_of_singleton in Hk as ->. apply D3. left. }
  split.
  - apply NoDup_app. split_and!; [done| |].
    + intros k Hk1 Hk2. apply elem_of_cons in Hk2 as [->|Hk2]; [done|].
      apply elem_of_cons in Hk2 as [->|Hk2]; [done|]. apply (D2 k Hk1). by right.
    + apply NoDup_cons. split; [set_solver|]. by apply NoDup_cons.
  - assert (Hlv : forall k, is_Some (h !! k) -> is_Some (h' !! k)) by (intros k; by rewrite !live_elt, He).
    apply Forall_app in Hl as [L1 L2]. apply Forall_cons in L2 as [L2 L3].
    apply Forall_app. split; [|apply Forall_cons; split; [|apply Forall_cons; split]]; auto;
      eapply Forall_impl; eauto.
  - apply linked_app. split; [|split; [by split|]].
    + eapply linked_frame; [exact K1| | |].
      * intros k Hk Hlk. apply No; [|set_solver]. intros ->. apply Hlk. by rewrite last_snoc.
      * intros k Hk. assert (Hk' : k ∈ (l1 ++ [a])) by (destruct l1; cbn in Hk; set_solver).
        apply Po; [set_solver|by apply Hpn].
      * apply NoDup_app. split_and!; [done|set_solver|apply NoDup_singleton].
    + destruct l2 as [|b l2]; [done|]. destruct K2 as [_ K2]. split; [split; [done|by apply Pb]|].
      apply NoDup_cons in D4 as [D4 D5].
      eapply linked_frame; [exact K2| | |by apply NoDup_cons].
      * intros k Hk _. apply No; set_solver.
      * intros k Hk. cbn in Hk. apply Po; [set_solver|]. cbn. congruence || (intros [= ->]; done).
  - intros x. rewrite !last_app_cons in *. intros Hx. destruct l2 as [|b l2]; cbn in Hx.
    + injection Hx as <-. done.
    + assert (Hx' : x ∈ (b :: l2)) by by apply last_Some_elem_of.
      rewrite No; [|set_solver..]. by apply Hlast.
Qed.

(** [x] after [a] goes out. *)
Lemma dlist_delete h h' l1 a x l2 :
  dlist h (l1 ++ a :: x :: l2) -> (forall k, elt h' k = elt h k) ->
  nxt h' a = Some (head l2) -> (forall k, k <> a -> k <> x -> nxt h' k = nxt h k) ->
  (forall b, head l2 = Some b -> prv h' b = Some (Some a)) ->
  (forall k, k <> x -> head l2 <> Some k -> prv h' k = prv h k) ->
  dlist h' (l1 ++ a :: l2).
Proof.
  intros [Hd Hl Hk Hlast] He Na No Pb Po.
  apply NoDup_app in Hd as (D1&D2&D3). apply NoDup_cons in D3 as [Da D3]. apply NoDup_cons in D3 as [Dx D4].
  assert (Ha : a ∉ l1 /\ x ∉ l1 /\ a <> x /\ a ∉ l2) by set_solver. destruct Ha as (Ha1&Hx1&Hax&Ha2).
  apply linked_app in Hk as [K1 [K2 K3]].
  split.
  - apply NoDup_app. split_and!; [done|set_solver|by apply NoDup_cons].
  - apply Forall_app in Hl as [L1 L2]. rewrite !Forall_cons in L2. destruct L2 as (L2&L3&L4).
    assert (Hlv : forall k, is_Some (h !! k) -> is_Some (h' !! k)) by (intros k; by rewrite !live_elt, He).
    apply Forall_app. split; [|apply Forall_cons; split]; auto; eapply Forall_impl; eauto.
  - apply linked_app. split.
    + eapply linked_frame; [exact K1| | |].
      * intros k Hk Hlk. apply No; [|set_solver]. intros ->. apply Hlk. by rewrite last_snoc.
      * intros k Hk. assert (Hk' : k ∈ (l1 ++ [a])) by (destruct l1; cbn in Hk; set_solver).
        apply Po; [set_solver|]. destruct l2 as [|b l2]; cbn; [done|]. intros [= ->]. set_solver.
      * apply NoDup_app. split_and!; [done|set_solver|apply NoDup_singleton].
    + destruct l2 as [|b l2]; [done|]. destruct K3 as [_ K3]. split; [split; [done|by apply Pb]|].
      eapply linked_frame; [exact K3| | |done].
      * intros k Hk _. apply No; set_solver.
      * intros k Hk. cbn in Hk. apply NoDup_cons in D4 as [D4 _]. apply Po; [set_solver|]. cbn. intros [= ->]. done.
  - intros y. rewrite !last_app_cons in *. intros Hy. destruct l2 as [|b l2]; cbn in Hy.
    + injection Hy as <-. done.
    + assert (Hy' : y ∈ (b :: l2)) by by apply last_Some_elem_of.
      rewrite No; [|set_solver..]. by apply Hlast.
Qed.

Lemma dlist_next h l1 a l2 : dlist h (l1 ++ a :: l2) -> nxt h a = Some (head l2).
Proof.
  intros H. destruct l2 as [|b l2]; [apply (dl_last _ _ H); by rewrite last_snoc|].
  by apply (dl_linked _ _), linked_app in H as [_ [[? _] _]].
Qed.

Lemma dlist_prev h l1 a b l2 : dlist h (l1 ++ a :: b :: l2) -> prv h b = Some (Some a).
Proof. intros H. by apply (dl_linked _ _), linked_app in H as [_ [[_ ?] _]]. Qed.

Lemma dlist_live h l k : dlist h l -> k ∈ l -> is_Some (h !! k).
Proof. intros H Hk. by apply (proj1 (Forall_forall _ _) (dl_live _ _ H)). Qed.

(** Node [a]'s pointers are untouched by an operation on other nodes. *)
Definition frame (h h' : heap) (l : list Z) : Prop :=
  (forall k, elt h' k = elt h k) /\ (forall k, k ∉ l -> nxt h' k = nxt h k /\ prv h' k = prv h k).

Ltac upd_simpl := unfold upd_if, upd1; repeat case_bool_decide; try congruence; try done.

Lemma head_elem (l : list Z) b : head l = Some b -> b ∈ l.
Proof. destruct l; [done|]. intros [= ->]. left. Qed.

Lemma add_after h l1 a l2 add :
  dlist h (l1 ++ a :: l2) -> is_Some (h !! add) -> add ∉ (l1 ++ a :: l2) ->
  exists h', add_list_node h a add = Some h' /\ dlist h' (l1 ++ a :: add :: l2) /\
    frame h h' (a :: add :: l2) /\ prv h' a = prv h a.
Proof.
  intros H Hl Hnew. pose proof (dlist_next _ _ _ _ H) as Hn.
  destruct (add_list_node_ok h a add (head l2)) as (h'&E&[N P El]); [done..| |].
  { intros b Hb. apply (dlist_live _ _ _ H). destruct l2; [done|]. injection Hb as ->. set_solver. }
  assert (Hadd : add <> a /\ (forall b, head l2 = Some b -> b <> add /\ b <> a)).
  { split; [set_solver|]. intros b Hb. destruct l2 as [|c l2]; [done|]. injection Hb as ->.
    split; [set_solver|]. apply (dl_nodup _ _), NoDup_app in H as (_&_&H). apply NoDup_cons in H as [H _]. set_solver. }
  destruct Hadd as [Hne Hb]. exists h'. split; [done|]. split; [|split; [split; [done|]|]].
  - apply (dlist_insert h); try done; intros; rewrite ?N, ?P; destruct (head l2) as [y|] eqn:Ey; upd_simpl;
      destruct (Hb y eq_refl); congruence.
  - intros k Hk. rewrite !not_elem_of_cons in Hk. destruct Hk as (?&?&Hk2). rewrite N, P.
    destruct (head l2) as [b|] eqn:Eb; upd_simpl. subst k. by apply head_elem in Eb.
  - rewrite P. destruct (head l2) as [b|] eqn:Eb; upd_simpl. destruct (Hb b eq_refl). congruence.
Qed.

Lemma add_before h l1 a b l2 add :
  dlist h (l1 ++ a :: b :: l2) -> is_Some (h !! add) -> add ∉ (l1 ++ a :: b :: l2) ->
  exists h', add_list_node_pre h b add = Some h' /\ dlist h' (l1 ++ a :: add :: b :: l2) /\
    frame h h' (a :: add :: b :: l2) /\ prv h' a = prv h a.
Proof.
  intros H Hl Hnew. pose proof (dlist_prev _ _ _ _ _ H) as Hn.
  destruct (add_list_node_pre_ok h b add (Some a)) as (h'&E&[N P El]); [done..| |].
  { intros c [= <-]. apply (dlist_live _ _ _ H). set_solver. }
  assert (Hadd : add <> a /\ add <> b /\ b <> a).
  { split_and!; [set_solver..|]. apply (dl_nodup _ _), NoDup_app in H as (_&_&H). apply NoDup_cons in H as [H _]. set_solver. }
  destruct Hadd as (Hne&Hnb&Hba). exists h'. split; [done|]. split; [|split; [split; [done|]|]].
  - apply (dlist_insert h); try done; intros; rewrite ?N, ?P; cbn in *; upd_simpl.
  - intros k Hk. rewrite !not_elem_of_cons in Hk. destruct Hk as (?&?&?&_). rewrite N, P. upd_simpl.
  - rewrite P. upd_simpl.
Qed.

Lemma remove_node_ok h l1 a x l2 :
  dlist h (l1 ++ a :: x :: l2) ->
  exists h', remove_list_node h x = Some h' /\ dlist h' (l1 ++ a :: l2) /\
    nxt h' x = Some None /\ prv h' x = Some None /\ frame h h' (a :: x :: l2) /\ prv h' a = prv h a.
Proof.
  intros H. pose proof (dlist_prev _ _ _ _ _ H) as Hp.
  pose proof (dlist_next h (l1 ++ [a]) x l2) as Hn. rewrite <- app_assoc in Hn. specialize (Hn H).
  destruct (remove_list_node_ok h x (Some a) (head l2)) as (h'&E&[N P El]); [done..| | |].
  { intros c [= <-]. apply (dlist_live _ _ _ H). set_solver. }
  { intros b Hb. apply (dlist_live _ _ _ H). destruct l2; [done|]. injection Hb as ->. set_solver. }
  pose proof (dl_nodup _ _ H) as D. apply NoDup_app in D as (_&_&D). rewrite !NoDup_cons in D. destruct D as (Da&Dx&_).
  assert (Hb : forall b, head l2 = Some b -> b <> x /\ b <> a).
  { intros b Hb. destruct l2 as [|c l2]; [done|]. injection Hb as ->. set_solver. }
  assert (Hax : a <> x) by set_solver. exists h'. split; [done|].
  split; [|split; [|split; [|split; [split; [done|]|]]]].
  - apply (dlist_delete h h' l1 a x l2 H); try done; intros; rewrite ?N, ?P; destruct (head l2) as [y|] eqn:Ey; upd_simpl;
      destruct (Hb y eq_refl); congruence.
  - rewrite N. upd_simpl.
  - rewrite P. upd_simpl.
  - intros k Hk. rewrite !not_elem_of_cons in Hk. destruct Hk as (?&?&Hk2). rewrite N, P.
    destruct (head l2) as [b|] eqn:Eb; upd_simpl. subst k. by apply head_elem in Eb.
  - rewrite P. destruct (head l2) as [b|] eqn:Eb; upd_simpl. destruct (Hb b eq_refl). congruence.
Qed.

Lemma frame_is_Some h h' l k : frame h h' l -> is_Some (h !! k) -> is_Some (h' !! k).
Proof. intros [He _]. by rewrite !live_elt, He. Qed.

Lemma lookup_next h a v : nxt h a = Some v -> exists n, h !! a = Some n /\ n_next n = v.
Proof. unfold nxt. destruct (h !! a) as [n|]; [|done]. intros [= <-]. by exists n. Qed.
Lemma lookup_prev h a v : prv h a = Some v -> exists n, h !! a = Some n /\ n_pre n = v.
Proof. unfold prv. destruct (h !! a) as [n|]; [|done]. intros [= <-]. by exists n. Qed.

(** *** Sorted insertion *)

(** What [add_list_node_compare] does to a sequence: [None] is the answer -1, an
    equal node exists. *)
Fixpoint insert_sorted {A} (compare : A -> A -> Z) (l : list A) (add : A) : option (list A) :=
  match l with
  | [] => Some [add]
  | curr :: rest =>
      let ret := compare curr add in
      if 0 <? ret then Some (add :: l)
      else if ret <? 0 then
        match insert_sorted compare rest add with
        | Some l' => Some (curr :: l')
        | None => None
        end
      else None
  end.

(** The comparison of the elements of two nodes. *)
Definition by_element (compare : Z -> Z -> Z) (h : heap) (a b : Z) : Z :=
  compare (default 0 (elt h a)) (default 0 (elt h b)).

Lemma add_compare_ok fuel compare h l0 pre l add :
  dlist h (l0 ++ pre :: l) -> is_Some (h !! add) -> add ∉ (l0 ++ pre :: l) -> (length l < fuel)%nat ->
  match insert_sorted (by_element compare h) l add with
  | None => add_compare fuel compare h pre add = Some (false, h)
  | Some l' => exists h', add_compare fuel compare h pre add = Some (true, h') /\
      dlist h' (l0 ++ pre :: l') /\ (forall k, elt h' k = elt h k)
  end.
Proof.
  revert l0 pre l. induction fuel as [|fuel IH]; intros l0 pre l H Hl Hnew Hf; [lia|].
  destruct (add_after h l0 pre l add H Hl Hnew) as (h1&E1&H1&[F1 _]&_).
  destruct (lookup_next _ _ _ (dlist_next _ _ _ _ H)) as (p&Ep&Hp).
  destruct Hl as [n En]. cbn [add_compare]. rewrite Ep. cbn [mbind option_bind]. rewrite Hp.
  destruct l as [|a l]; cbn [head insert_sorted].
  - exists h1. by rewrite E1.
  - destruct (dlist_live _ _ a H) as [c Ec]; [set_solver|]. rewrite Ec. cbn [mbind option_bind].
    rewrite En. cbn [mbind option_bind].
    assert (Hc : by_element compare h a add = compare (n_element c) (n_element n))
      by (unfold by_element, elt; by rewrite Ec, En).
    rewrite Hc. case_if; [exists h1; by rewrite E1|]. case_if; [|done].
    assert (H' : dlist h ((l0 ++ [pre]) ++ a :: l)) by by rewrite <- app_assoc.
    assert (Hnew' : add ∉ ((l0 ++ [pre]) ++ a :: l)) by by rewrite <- app_assoc.
    specialize (IH (l0 ++ [pre]) a l H' ltac:(by eexists) Hnew' ltac:(cbn in Hf; lia)).
    destruct (insert_sorted (by_element compare h) l add) as [l'|]; [|done].
    destruct IH as (h'&E'&Hd&Hel). exists h'. rewrite <- app_assoc in Hd. done.
Qed.

(** *** Queues *)

Definition queue_rep (h : heap) (q : queue) (l : list Z) : Prop :=
  dlist h (q_first q :: l ++ [q_last q]) /\ element_number q = Z.of_nat (length l).

Inductive qop := PushBack (node : Z) | PushFront (node : Z) | PopFront | PopBack | GetFirst | GetLast.

(** The queue in memory. *)
Definition q_step (q : queue) (h : heap) (o : qop) : option (option Z * queue * heap) :=
  match o with
  | PushBack n => r ← add_queue q h n; Some (None, r.1, r.2)
  | PushFront n => r ← add_queue_first q h n; Some (None, r.1, r.2)
  | PopFront => pop_queue q h
  | PopBack => pop_queue_last q h
  | GetFirst => r ← get_queue_first q h; Some (r, q, h)
  | GetLast => r ← get_queue_last q h; Some (r, q, h)
  end.

Fixpoint q_run (q : queue) (h : heap) (ops : list qop) : option (list (option Z) * queue * heap) :=
  match ops with
  | [] => Some ([], q, h)
  | o :: ops =>
      r ← q_step q h o;
      r' ← q_run r.1.2 r.2 ops;
      Some (r.1.1 :: r'.1.1, r'.1.2, r'.2)
  end.

(** The sequence it stands for. *)
Definition d_step (l : list Z) (o : qop) : option Z * list Z :=
  match o with
  | PushBack n => (None, l ++ [n])
  | PushFront n => (None, n :: l)
  | PopFront => (head l, tail l)
  | PopBack => (last l, take (pred (length l)) l)
  | GetFirst => (head l, l)
  | GetLast => (last l, l)
  end.

Fixpoint d_run (l : list Z) (ops : list qop) : list (option Z) * list Z :=
  match ops with
  | [] => ([], l)
  | o :: ops => let '(r, l) := d_step l o in let '(rs, l) := d_run l ops in (r :: rs, l)
  end.

(** A node that is pushed is allocated, not one of the queue's ends, and not in
    the queue already. *)
Definition push_ok (h : heap) (q : queue) (l : list Z) (o : qop) : Prop :=
  match o with
  | PushBack n | PushFront n => is_Some (h !! n) /\ n ∉ (q_first q :: l ++ [q_last q])
  | _ => True
  end.

Fixpoint pushes_ok (h : heap) (q : queue) (l : list Z) (ops : list qop) : Prop :=
  match ops with
  | [] => True
  | o :: ops => push_ok h q l o /\ pushes_ok h q (d_step l o).2 ops
  end.

Lemma ends_snoc (a : Z) l : exists l1 b, a :: l = l1 ++ [b].
Proof. destruct (exists_last (l := a :: l)) as (l1&b&E); [done|]. by exists l1, b. Qed.

Lemma push_back_ok h q l n :
  queue_rep h q l -> push_ok h q l (PushBack n) ->
  exists q' h', q_step q h (PushBack n) = Some (None, q', h') /\ queue_rep h' q' (l ++ [n]) /\
    q_first q' = q_first q /\ q_last q' = q_last q /\ forall k, elt h' k = elt h k.
Proof.
  intros [Hd Hn] [Hlive Hnew]. destruct (ends_snoc (q_first q) l) as (l1&b&E).
  assert (Ed : q_first q :: l ++ [q_last q] = l1 ++ b :: q_last q :: []).
  { change (q_first q :: l ++ [q_last q]) with ((q_first q :: l) ++ [q_last q]). by rewrite E, <- app_assoc. }
  rewrite Ed in Hd, Hnew. destruct (add_before h l1 b (q_last q) [] n Hd Hlive Hnew) as (h'&E'&Hd'&[Hel _]&_).
  cbn [q_step]. unfold add_queue. rewrite E'. cbn. eexists _, h'. split; [reflexivity|].
  split; [|done]. split; [|cbn; rewrite length_app, Hn; cbn; lia]. cbn.
  replace (q_first q :: (l ++ [n]) ++ [q_last q]) with (l1 ++ b :: n :: [q_last q]); [done|].
  rewrite <- app_assoc. change (q_first q :: l ++ [n] ++ [q_last q]) with ((q_first q :: l) ++ [n] ++ [q_last q]).
  by rewrite E, <- app_assoc.
Qed.

Lemma push_front_ok h q l n :
  queue_rep h q l -> push_ok h q l (PushFront n) ->
  exists q' h', q_step q h (PushFront n) = Some (None, q', h') /\ queue_rep h' q' (n :: l) /\
    q_first q' = q_first q /\ q_last q' = q_last q /\ forall k, elt h' k = elt h k.
Proof.
  intros [Hd Hn] [Hlive Hnew].
  destruct (add_after h [] (q_first q) (l ++ [q_last q]) n Hd Hlive Hnew) as (h'&E'&Hd'&[Hel _]&_).
  cbn [q_step]. unfold add_queue_first. rewrite E'. cbn. eexists _, h'. split; [reflexivity|].
  split; [|done]. split; [done|]. cbn. rewrite Hn. lia.
Qed.

Lemma first_ok h q l : queue_rep h q l -> get_queue_first q h = Some (head l).
Proof.
  intros [Hd Hn]. unfold get_queue_first. destruct l as [|a l]; [by rewrite Hn|].
  rewrite Hn. cbn [length]. rewrite (proj2 (Z.eqb_neq _ 0)) by lia.
  destruct (lookup_next _ _ _ (dlist_next h [] _ _ Hd)) as (n&->&Hx). cbn. by rewrite Hx.
Qed.

Lemma last_ok h q l : queue_rep h q l -> get_queue_last q h = Some (last l).
Proof.
  intros [Hd Hn]. unfold get_queue_last. destruct l as [|x l _] using rev_ind; [by rewrite Hn|].
  rewrite Hn, length_app. cbn [length]. rewrite (proj2 (Z.eqb_neq _ 0)) by lia.
  assert (Hd' : dlist h ((q_first q :: l) ++ x :: q_last q :: [])) by by rewrite <- app_assoc in Hd.
  destruct (lookup_prev _ _ _ (dlist_prev _ _ _ _ _ Hd')) as (n&->&Hx). cbn. by rewrite Hx, last_snoc.
Qed.

Lemma pop_front_ok h q l :
  queue_rep h q l ->
  exists q' h', pop_queue q h = Some (head l, q', h') /\ queue_rep h' q' (tail l) /\
    q_first q' = q_first q /\ q_last q' = q_last q /\ forall k, elt h' k = elt h k.
Proof.
  intros [Hd Hn]. unfold pop_queue. destruct l as [|a l]; [rewrite Hn; by exists q, h|].
  rewrite Hn. cbn [length]. rewrite (proj2 (Z.eqb_neq _ 0)) by lia.
  destruct (lookup_next _ _ _ (dlist_next h [] _ _ Hd)) as (n&->&Hx). cbn. rewrite Hx. cbn.
  destruct (remove_node_ok h [] (q_first q) a (l ++ [q_last q]) Hd) as (h'&->&Hd'&_&_&[Hel _]&_). cbn.
  eexists _, h'. split; [reflexivity|]. split; [|done]. split; [done|]. cbn. lia.
Qed.

Lemma pop_back_ok h q l :
  queue_rep h q l ->
  exists q' h', pop_queue_last q h = Some (last l, q', h') /\ queue_rep h' q' (take (pred (length l)) l) /\
    q_first q' = q_first q /\ q_last q' = q_last q /\ forall k, elt h' k = elt h k.
Proof.
  intros [Hd Hn]. unfold pop_queue_last. destruct l as [|x l _] using rev_ind; [rewrite Hn; by exists q, h|].
  rewrite Hn, length_app. cbn [length]. rewrite (proj2 (Z.eqb_neq _ 0)) by lia.
  assert (Hd' : dlist h ((q_first q :: l) ++ x :: q_last q :: [])) by by rewrite <- app_assoc in Hd.
  destruct (lookup_prev _ _ _ (dlist_prev _ _ _ _ _ Hd')) as (n&->&Hx). cbn. rewrite Hx. cbn.
  destruct (ends_snoc (q_first q) l) as (l1&b&E). rewrite E, <- app_assoc in Hd'. cbn in Hd'.
  destruct (remove_node_ok h l1 b x [q_last q] Hd') as (h'&->&Hd2&_&_&[Hel _]&_). cbn.
  eexists _, h'. rewrite last_snoc. split; [reflexivity|]. split; [|done].
  replace (pred (length l + 1)) with (length l) by lia. rewrite take_app_length. split; [|cbn; lia]. cbn.
  change (q_first q :: l ++ [q_last q]) with ((q_first q :: l) ++ [q_last q]). by rewrite E, <- app_assoc.
Qed.

Lemma q_step_ok h q l o :
  queue_rep h q l -> push_ok h q l o ->
  exists q' h', q_step q h o = Some ((d_step l o).1, q', h') /\ queue_rep h' q' (d_step l o).2 /\
    q_first q' = q_first q /\ q_last q' = q_last q /\ forall k, elt h' k = elt h k.
Proof.
  intros H Ho. destruct o; [by apply push_back_ok|by apply push_front_ok|by apply pop_front_ok|by apply pop_back_ok|..].
  - exists q, h. cbn. by rewrite (first_ok _ _ _ H).
  - exists q, h. cbn. by rewrite (last_ok _ _ _ H).
Qed.

Lemma pushes_same h q l h' q' ops :
  q_first q' = q_first q -> q_last q' = q_last q -> (forall k, elt h' k = elt h k) ->
  pushes_ok h q l ops -> pushes_ok h' q' l ops.
Proof.
  intros E1 E2 He. revert l. induction ops as [|o ops IH]; intros l; [done|]. intros [H1 H2].
  split; [|by apply IH]. destruct o; cbn in *; rewrite ?E1, ?E2, ?live_elt, ?He, <- ?live_elt; done.
Qed.

Lemma q_run_ok h q l ops :
  queue_rep h q l -> pushes_ok h q l ops ->
  exists q' h', q_run q h ops = Some ((d_run l ops).1, q', h') /\ queue_rep h' q' (d_run l ops).2.
Proof.
  revert h q l. induction ops as [|o ops IH]; intros h q l H Hops; [by exists q, h|].
  destruct Hops as [Ho Hops]. destruct (q_step_ok h q l o H Ho) as (q1&h1&E&H1&F1&F2&He).
  destruct (IH h1 q1 (d_step l o).2 H1) as (q2&h2&E2&H2).
  { by apply (pushes_same h q). }
  exists q2, h2. cbn [q_run d_run]. rewrite E. cbn. rewrite E2. cbn.
  destruct (d_step l o) as [r l1]. cbn in *. by destruct (d_run l1 ops).
Qed.

Lemma init_queue_ok h last first :
  is_Some (h !! last) -> is_Some (h !! first) -> last <> first ->
  exists q h', init_queue h last first = Some (q, h') /\ queue_rep h' q [] /\
    q_first q = first /\ q_last q = last /\ forall k, elt h' k = elt h k.
Proof.
  intros H1 H2 Hne. unfold init_queue.
  write (set_next_ok h first (Some last)). write (set_pre_ok h0 first None).
  write (set_pre_ok h1 last (Some first)). write (set_next_ok h2 last None).
  eexists _, h3. split; [reflexivity|]. split; [|split_and!; [done..|]].
  - split; [|done]. cbn. destruct R as [N P El], R0 as [N0 P0 El0], R1 as [N1 P1 El1], R2 as [N2 P2 El2].
    assert (Hl : forall k, is_Some (h !! k) -> is_Some (h3 !! k)) by (intros k; by rewrite !live_elt, El2, El1, El0, El).
    split.
    + apply NoDup_cons. split; [|apply NoDup_singleton]. by rewrite list_elem_of_singleton.
    + repeat constructor; auto.
    + cbn. split; [|by split]. rewrite N2, P2. unfold upd1. rewrite N1, P1. unfold upd1.
      rewrite N0, N. unfold upd1. repeat case_bool_decide; done.
    + cbn. intros a [= <-]. rewrite N2. upd_simpl.
  - intros k. by rewrite (rw_elt _ _ _ _ R2), (rw_elt _ _ _ _ R1), (rw_elt _ _ _ _ R0), (rw_elt _ _ _ _ R).
Qed.

(** A queue is a double-ended sequence: started empty, any sequence of
    additions and removals at either end, on nodes that are not in it already,
    follows only valid pointers and gives what the sequence gives. *)
Theorem queue_is_deque h last first ops :
  is_Some (h !! last) -> is_Some (h !! first) -> last <> first ->
  pushes_ok h (mk_queue last first 0) [] ops ->
  exists q h0 q' h', init_queue h last first = Some (q, h0) /\
    q_run q h0 ops = Some ((d_run [] ops).1, q', h') /\ queue_rep h' q' (d_run [] ops).2.
Proof.
  intros H1 H2 Hne Hops. destruct (init_queue_ok h last first H1 H2 Hne) as (q&h0&E&Hq&Ef&El&He).
  destruct (q_run_ok h0 q [] ops Hq) as (q'&h'&E'&H').
  { by apply (pushes_same h (mk_queue last first 0)). }
  by exists q, h0, q', h'.
Qed.

Definition sample_heap : heap :=
  foldr (fun a h => create_list_node h a (10 * a)) ∅ [1; 2; 3; 4; 5].

Lemma queue_is_deque_witness :
  exists q h0 q' h', init_queue sample_heap 1 2 = Some (q, h0) /\
    q_run q h0 [PushBack 3; PushFront 4; PushBack 5; PopFront; PopBack; GetFirst]
    = Some ([None; None; None; Some 4; Some 5; Some 3], q', h') /\ queue_rep h' q' [3].
Proof.
  apply (queue_is_deque sample_heap 1 2 [PushBack 3; PushFront 4; PushBack 5; PopFront; PopBack; GetFirst]).
  - by eexists.
  - by eexists.
  - done.
  - cbn [pushes_ok push_ok d_step snd]. split_and!; try (by eexists); try done;
      apply (bool_decide_unpack (_ ∉ _)); by vm_compute.
Defined.

(** [add_list_node_compare] inserts into the list in memory as [insert_sorted]
    does into the sequence, or refuses a node that compares equal and changes
    nothing; it follows valid pointers only and ends within as many steps as the
    list has nodes. *)
Theorem add_list_node_compare_correct fuel compare h head l add :
  dlist h (head :: l) -> is_Some (h !! add) -> add ∉ (head :: l) -> (length l < fuel)%nat ->
  match insert_sorted (by_element compare h) l add with
  | None => add_list_node_compare fuel compare h head add = Some (false, h)
  | Some l' => exists h', add_list_node_compare fuel compare h head add = Some (true, h') /\
      dlist h' (head :: l') /\ (forall k, elt h' k = elt h k)
  end.
Proof. intros H Hx Hnew Hf. by apply (add_compare_ok fuel compare h [] head l add). Qed.

Lemma add_list_node_compare_correct_witness :
  exists h', add_list_node_compare 5 Z.sub sample_heap 1 2 = Some (true, h') /\ dlist h' [1; 2].
Proof.
  destruct (add_list_node_compare_correct 5 Z.sub sample_heap 1 [] 2) as (h'&E&H&_).
  - split; [apply NoDup_singleton|repeat constructor; by eexists|done|]. by intros a [= <-].
  - by eexists.
  - apply (bool_decide_unpack (_ ∉ _)). by vm_compute.
  - cbn. lia.
  - by exists h'.
Defined.
