(* ===== verification/Mpsc.v ===== *)
(** The queue between threads (src/lib/queue.c: [mpsc_queue], [notify_queue]) with
    any number of producers and one consumer, as in the message tasks of a worker
    (src/main/stack.c: [req_task_cb], [pkt_task_cb]).

    Every access to shared memory is a step of its own and the steps of the
    threads interleave freely, one after the other: the acquire and release
    orders of the code give that to each of these single-location protocols.
    Nodes are addresses, NULL is [None]. *)

From stdpp Require Import prelude list.
From Stdlib Require Import ZArith Lia.
From S2P Require Import Prelude.

(** Address of the queue's own node. *)
Definition stub : Z := 0.

(** Where a producer is in [notify_queue_push]: before the exchange of the head,
    before linking behind [prev], before the compare-and-swap of [pending],
    before the write to the event descriptor. *)
Inductive pstate :=
  | PIdle
  | PXchg (n : Z)
  | PLink (n prev : Z)
  | PCas
  | PWrite.

(** Where the consumer is: waiting for the descriptor; in [notify_queue_drain];
    in [mpscq_pop] before each of its accesses; in the test after the loop. *)
Inductive cstate :=
  | CWait
  | CRead
  | CReset
  | CPop
  | CLoad
  | CHead
  | CInit
  | CXchg
  | CLink (prev : Z)
  | CLast
  | CEmpty
  | CCas
  | CWrite.

(** [pushed] and [popped] record the nodes in the order of the exchanges and of
    the returns. *)
Record mstate := mk_mstate {
  next : Z -> option Z;
  head_ : Z;
  tail_ : Z;
  pending : bool;
  efd : Z;
  producers : nat -> pstate;
  consumer : cstate;
  pushed : list Z;
  popped : list Z
}.

#[export] Instance eta_mstate : Eta mstate :=
  fun s => mk_mstate (next s) (head_ s) (tail_ s) (pending s) (efd s) 
    (producers s) (consumer s) (pushed s) (popped s).
#[export] Instance set_m_next : Setter next := ltac:(mk_setter).
#[export] Instance set_m_head : Setter head_ := ltac:(mk_setter).
#[export] Instance set_m_tail : Setter tail_ := ltac:(mk_setter).
#[export] Instance set_m_pending : Setter pending := ltac:(mk_setter).
#[export] Instance set_m_efd : Setter efd := ltac:(mk_setter).
#[export] Instance set_m_producers : Setter producers := ltac:(mk_setter).
#[export] Instance set_m_consumer : Setter consumer := ltac:(mk_setter).
#[export] Instance set_m_pushed : Setter pushed := ltac:(mk_setter).
#[export] Instance set_m_popped : Setter popped := ltac:(mk_setter).

Definition set_node (f : Z -> option Z) (a : Z) (v : option Z) : Z -> option Z :=
  fun k => if k =? a then v else f k.
Definition set_producer (f : nat -> pstate) (p : nat) (v : pstate) : nat -> pstate :=
  fun k => if (k =? p)%nat then v else f k.

(** *** Producers *)

Definition goto (p : nat) (st : pstate) (s : mstate) : mstate :=
  s <| producers := set_producer (producers s) p st |>.

(** [mpscq_push]: the node's pointer is cleared, the head exchanged, and the node
    linked behind the old head. *)
Definition push_step (s : mstate) (p : nat) (n : Z) : mstate :=
  match producers s p with
  | PIdle => goto p (PXchg n) (s <| next := set_node (next s) n None |>)
  | PXchg n => goto p (PLink n (head_ s)) (s <| head_ := n |> <| pushed ::= fun l => l ++ [n] |>)
  | PLink n prev => goto p PCas (s <| next := set_node (next s) prev (Some n) |>)
  | _ => s
  end.

(** [notify_queue_notify] of a producer. *)
Definition notify_step (s : mstate) (p : nat) : mstate :=
  match producers s p with
  | PCas => if pending s then goto p PIdle s else goto p PWrite (s <| pending := true |>)
  | PWrite => goto p PIdle (s <| efd ::= Z.succ |>)
  | _ => s
  end.

(** [notify_queue_push] of producer [p]; an idle one starts to push node [n]. *)
Definition producer_step (s : mstate) (p : nat) (n : Z) : mstate :=
  match producers s p with
  | PIdle | PXchg _ | PLink _ _ => push_step s p n
  | PCas | PWrite => notify_step s p
  end.

(** *** The consumer *)

Definition cgoto (st : cstate) (s : mstate) : mstate := s <| consumer := st |>.

(** [mpscq_pop] returns the tail, and the tail moves on to [n].  [again]: the loop
    has not used up its budget. *)
Definition pop_returns (s : mstate) (n : Z) (again : bool) : mstate :=
  s <| popped ::= fun l => l ++ [tail_ s] |> <| tail_ := n |>
    <| consumer := if again then CPop else CEmpty |>.

(** [notify_queue_drain]. *)
Definition drain_step (s : mstate) : mstate :=
  match consumer s with
  | CRead => cgoto CReset (s <| efd := 0 |>)
  | CReset => cgoto CPop (s <| pending := false |>)
  | _ => s
  end.

(** [mpscq_pop]; a pop that finds nothing ends the loop. *)
Definition pop_step (s : mstate) (again : bool) : mstate :=
  match consumer s with
  | CPop =>
      match next s (tail_ s) with
      | None => if tail_ s =? stub then cgoto CEmpty s else cgoto CHead s
      | Some n => if tail_ s =? stub then cgoto CLoad (s <| tail_ := n |>) else pop_returns s n again
      end
  | CLoad =>
      match next s (tail_ s) with
      | None => cgoto CHead s
      | Some n => pop_returns s n again
      end
  | CHead => if tail_ s =? head_ s then cgoto CInit s else cgoto CEmpty s
  | CInit => cgoto CXchg (s <| next := set_node (next s) stub None |>)
  | CXchg => cgoto (CLink (head_ s)) (s <| head_ := stub |>)
  | CLink prev => cgoto CLast (s <| next := set_node (next s) prev (Some stub) |>)
  | CLast =>
      match next s (tail_ s) with
      | None => cgoto CEmpty s
      | Some n => pop_returns s n again
      end
  | _ => s
  end.

(** [mpscq_is_empty] after the loop. *)
Definition empty_step (s : mstate) : mstate :=
  if negb (tail_ s =? stub) then cgoto CCas s
  else match next s (tail_ s) with None => cgoto CWait s | Some _ => cgoto CCas s end.

(** The consumer's next step in [req_task_cb]; [again] matters where a node is
    returned.  It does not move while it waits and the descriptor is not
    readable. *)
Definition consumer_step (s : mstate) (again : bool) : mstate :=
  match consumer s with
  | CWait => if 0 <? efd s then cgoto CRead s else s
  | CRead | CReset => drain_step s
  | CPop | CLoad | CHead | CInit | CXchg | CLink _ | CLast => pop_step s again
  | CEmpty => empty_step s
  | CCas => if pending s then cgoto CWait s else cgoto CWrite (s <| pending := true |>)
  | CWrite => cgoto CWait (s <| efd ::= Z.succ |>)
  end.

(** [mpscq_init]. *)
Definition mpscq_init : mstate :=
  mk_mstate (fun _ => None) stub stub false 0 (fun _ => PIdle) CWait [] [].

(** The node a producer holds and has not linked yet. *)
Definition holds (st : pstate) (n : Z) : Prop := st = PXchg n \/ exists prev, st = PLink n prev.

(** The nodes in the queue, from the tail to the head. *)
Definition adjacent (chain : list Z) (a b : Z) : Prop := exists l1 l2, chain = l1 ++ a :: b :: l2.

(** States in the middle of a pop, and those in which the stub is to be added. *)
Definition popping (st : cstate) : bool :=
  match st with CLoad | CHead | CInit | CXchg | CLink _ | CLast => true | _ => false end.
Definition adding (st : cstate) : bool := match st with CInit | CXchg => true | _ => false end.

Record chain_of (s : mstate) (chain : list Z) : Prop := {
  ch_tail : head chain = Some (tail_ s);
  ch_head : last chain = Some (head_ s);
  ch_nodup : NoDup chain;
  ch_end : next s (head_ s) = None;
  ch_next a b : adjacent chain a b ->
    next s a = Some b \/
    next s a = None /\ ((exists p, producers s p = PLink b a) \/ consumer s = CLink a /\ b = stub);
  ch_link p n prev : producers s p = PLink n prev ->
    adjacent chain prev n /\ next s prev = None /\ n <> stub;
  ch_xchg p n : producers s p = PXchg n -> (n ∉ chain) /\ n <> stub /\ next s n = None;
  ch_own p p' n : p <> p' -> holds (producers s p) n -> ~ holds (producers s p') n;
  ch_clink prev : consumer s = CLink prev -> adjacent chain prev stub /\ next s prev = None;
  ch_pop : popping (consumer s) = true -> tail_ s <> stub;
  ch_stub : adding (consumer s) = true -> stub ∉ chain;
  ch_init : consumer s = CXchg -> next s stub = None;
  ch_log : pushed s = popped s ++ filter (fun n => n <> stub) chain
}.

(** A node no one uses. *)
Definition free (s : mstate) (n : Z) : Prop :=
  n <> stub /\ (n ∉ drop (length (popped s)) (pushed s)) /\ forall p, ~ holds (producers s p) n.

Inductive mstep (s : mstate) : mstate -> Prop :=
  | m_push p n : producers s p = PIdle -> free s n -> mstep s (producer_step s p n)
  | m_producer p : producers s p <> PIdle -> mstep s (producer_step s p stub)
  | m_consumer again : mstep s (consumer_step s again).

Inductive mreachable : mstate -> Prop :=
  | mr_init : mreachable mpscq_init
  | mr_step s s' : mreachable s -> mstep s s' -> mreachable s'.

(** *** Neighbours in the chain *)

Lemma adjacent_app chain a b n : adjacent chain a b -> adjacent (chain ++ [n]) a b.
Proof. intros (l1&l2&->). exists l1, (l2 ++ [n]). by rewrite <- app_assoc. Qed.

Lemma adjacent_snoc chain h n : last chain = Some h -> adjacent (chain ++ [n]) h n.
Proof.
  intros H. destruct chain as [|x l _] using rev_ind; [done|]. rewrite last_snoc in H. injection H as ->.
  exists l, []. by rewrite <- app_assoc.
Qed.

Lemma adjacent_cons a l x y : adjacent (a :: l) x y <-> x = a /\ head l = Some y \/ adjacent l x y.
Proof.
  split.
  - intros ([|c l1]&l2&E); cbn in E; injection E as -> ->; [by left|]. right. by exists l1, l2.
  - intros [[-> H]|(l1&l2&->)]; [|by exists (a :: l1), l2]. destruct l; [done|]. injection H as ->. by exists [], l.
Qed.

Lemma adjacent_elem l x y : adjacent l x y -> x ∈ l /\ y ∈ l.
Proof. intros (l1&l2&->). set_solver. Qed.

Lemma adjacent_snoc_inv l n x y :
  adjacent (l ++ [n]) x y -> adjacent l x y \/ last l = Some x /\ y = n.
Proof.
  induction l as [|a l IH]; cbn [app].
  - rewrite adjacent_cons. intros [[_ ?]|(l1&l2&E)]; [done|]. by destruct l1.
  - rewrite adjacent_cons. intros [[-> H]|H].
    + destruct l as [|b l]; cbn in H; injection H as ->; [by right|]. left. apply adjacent_cons. by left.
    + destruct (IH H) as [?|[Hl ->]]; [left; apply adjacent_cons; by right|]. right. by rewrite last_cons, Hl.
Qed.

Lemma adjacent_fun l x y y' : NoDup l -> adjacent l x y -> adjacent l x y' -> y = y'.
Proof.
  induction l as [|a l IH]; [by intros _ ([]&?&?)|]. rewrite !adjacent_cons. intros [Ha Hd]%NoDup_cons.
  intros [[-> H1]|H1] [[E2 H2]|H2]; [congruence| | |by apply IH].
  - by apply adjacent_elem in H2 as [? _].
  - subst x. by apply adjacent_elem in H1 as [? _].
Qed.

Lemma adjacent_not_last l x y h : NoDup l -> adjacent l x y -> last l = Some h -> x <> h.
Proof.
  intros Hd (l1&l2&->) Hl ->. rewrite last_app_cons, last_cons_cons in Hl.
  apply last_Some_elem_of in Hl. apply NoDup_app in Hd as (_&_&Hd). by apply NoDup_cons in Hd as [? _].
Qed.

(** *** Steps that leave the chain as it is *)

Record same_queue (s s' : mstate) : Prop := {
  sq_next a : next s' a = next s a;
  sq_head : head_ s' = head_ s;
  sq_tail : tail_ s' = tail_ s;
  sq_pushed : pushed s' = pushed s;
  sq_popped : popped s' = popped s
}.

Lemma chain_consumer s s' chain :
  chain_of s chain -> same_queue s s' -> (forall p, producers s' p = producers s p) ->
  popping (consumer s') = false -> (forall prev, consumer s <> CLink prev) -> chain_of s' chain.
Proof.
  intros [] [] Hp Hc Hl.
  split; rewrite ?sq_next0, ?sq_head0, ?sq_tail0, ?sq_pushed0, ?sq_popped0; try done.
  - intros a b Hab. rewrite sq_next0. destruct (ch_next0 a b Hab) as [?|[? [[p Hpl]|[? _]]]]; [by left| |naive_solver].
    right. split; [done|]. left. exists p. by rewrite Hp.
  - intros p n prev. rewrite Hp, sq_next0. apply ch_link0.
  - intros p n. rewrite Hp, sq_next0. apply ch_xchg0.
  - intros p p' n. rewrite !Hp. apply ch_own0.
  - intros prev E. by rewrite E in Hc.
  - congruence.
  - intros H. by destruct (consumer s').
  - intros H. by rewrite H in Hc.
Qed.

(** *** Producer steps *)

Lemma set_producer_eq f p v : set_producer f p v p = v.
Proof. unfold set_producer. by rewrite Nat.eqb_refl. Qed.
Lemma set_producer_ne f p v k : k <> p -> set_producer f p v k = f k.
Proof. intros H. unfold set_producer. by rewrite (proj2 (Nat.eqb_neq k p)). Qed.
Lemma set_node_eq f a v : set_node f a v a = v.
Proof. unfold set_node. by rewrite Z.eqb_refl. Qed.
Lemma set_node_ne f a v k : k <> a -> set_node f a v k = f k.
Proof. intros H. unfold set_node. by rewrite (proj2 (Z.eqb_neq k a)). Qed.

(** A producer that holds no node changes to a state in which it holds none. *)
Definition empty_handed (st : pstate) : Prop := forall n, ~ holds st n.

Lemma empty_handed_link st n prev : empty_handed st -> st <> PLink n prev.
Proof. intros H ->. apply (H n). right. by exists prev. Qed.
Lemma empty_handed_xchg st n : empty_handed st -> st <> PXchg n.
Proof. intros H ->. apply (H n). by left. Qed.

Lemma chain_producer s s' chain p st :
  chain_of s chain -> same_queue s s' -> consumer s' = consumer s ->
  (forall k, producers s' k = set_producer (producers s) p st k) ->
  empty_handed (producers s p) -> empty_handed st -> chain_of s' chain.
Proof.
  intros [] [] Hc Hp He1 He2.
  assert (Hother : forall k q n, holds (producers s' k) n \/ producers s' k = q /\ ~ empty_handed q ->
    k <> p /\ producers s' k = producers s k).
  { intros k q n Hk. rewrite Hp in *. destruct (decide (k = p)) as [->|Hne]; [|by rewrite set_producer_ne].
    rewrite set_producer_eq in Hk. destruct Hk as [Hk|[<- Hk]]; [by apply He2 in Hk|done]. }
  assert (Hsame : forall k n, holds (producers s' k) n -> holds (producers s k) n).
  { intros k n Hk. destruct (Hother k PIdle n (or_introl Hk)) as [_ E]. by rewrite <- E. }
  assert (Hl : forall k n prev, producers s' k = PLink n prev -> producers s k = PLink n prev).
  { intros k n prev E. destruct (Hother k (PLink n prev) n) as [_ <-]; [|done]. left. right. by exists prev. }
  assert (Hx : forall k n, producers s' k = PXchg n -> producers s k = PXchg n).
  { intros k n E. destruct (Hother k (PXchg n) n) as [_ <-]; [|done]. left. by left. }
  split; rewrite ?sq_next0, ?sq_head0, ?sq_tail0, ?sq_pushed0, ?sq_popped0, ?Hc; try done.
  - intros a b Hab. rewrite sq_next0. destruct (ch_next0 a b Hab) as [?|[? [[k Hk]|?]]]; [by left| |right; tauto].
    right. split; [done|]. left. exists k. rewrite Hp, set_producer_ne; [done|]. intros ->. by apply empty_handed_link in Hk.
  - intros k n prev Hk%Hl. rewrite sq_next0. by apply (ch_link0 k).
  - intros k n Hk%Hx. rewrite sq_next0. by apply (ch_xchg0 k).
  - intros k k' n Hne H1%Hsame H2%Hsame. by apply (ch_own0 k k' n).
  - intros prev E. rewrite sq_next0. by apply ch_clink0.
Qed.

Lemma chain_push s chain p n :
  chain_of s chain -> producers s p = PIdle -> n <> stub -> n ∉ chain -> (forall k, ~ holds (producers s k) n) ->
  chain_of (producer_step s p n) chain.
Proof.
  intros H Hp Hs Hn Hh. destruct H. unfold producer_step, push_step, notify_step. rewrite Hp.
  assert (Hnx : forall a, a ∈ chain -> set_node (next s) n None a = next s a)
    by (intros a Ha; apply set_node_ne; intros ->; done).
  split; cbn; try done.
  - rewrite Hnx; [done|]. by apply last_Some_elem_of.
  - intros a b Hab. rewrite Hnx by by apply adjacent_elem in Hab as [? _].
    destruct (ch_next0 a b Hab) as [?|[? [[k Hk]|?]]]; [by left| |right; tauto].
    right. split; [done|]. left. exists k. rewrite set_producer_ne; [done|]. intros ->. congruence.
  - intros k m prev Hk. destruct (decide (k = p)) as [->|Hne]; [by rewrite set_producer_eq in Hk|].
    rewrite set_producer_ne in Hk by done. destruct (ch_link0 k m prev Hk) as (Ha&?&?). split_and!; [done| |done].
    rewrite Hnx; [done|]. by apply adjacent_elem in Ha as [? _].
  - intros k m Hk. destruct (decide (k = p)) as [->|Hne].
    { rewrite set_producer_eq in Hk. injection Hk as <-. by rewrite set_node_eq. }
    rewrite set_producer_ne in Hk by done. destruct (ch_xchg0 k m Hk) as (?&?&?). split_and!; [done..|].
    rewrite set_node_ne; [done|]. intros ->. apply (Hh k). by left.
  - intros k k' m Hne H1 H2.
    destruct (decide (k = p)) as [->|Hk]; [|destruct (decide (k' = p)) as [->|Hk']].
    + rewrite set_producer_eq in H1. destruct H1 as [[= <-]|[? ?]]; [|done].
      rewrite set_producer_ne in H2 by done. by apply (Hh k').
    + rewrite set_producer_eq in H2. destruct H2 as [[= <-]|[? ?]]; [|done].
      rewrite set_producer_ne in H1 by done. by apply (Hh k).
    + rewrite set_producer_ne in H1, H2 by done. by apply (ch_own0 k k' m).
  - intros prev Hc. destruct (ch_clink0 prev Hc) as [Ha ?]. split; [done|]. rewrite Hnx; [done|].
    by apply adjacent_elem in Ha as [? _].
  - intros Hc. rewrite set_node_ne by done. by apply ch_init0.
Qed.

Lemma chain_xchg s chain p n m :
  chain_of s chain -> producers s p = PXchg n -> chain_of (producer_step s p m) (chain ++ [n]).
Proof.
  intros H Hp. pose proof H as Hall. destruct H. destruct (ch_xchg0 p n Hp) as (Hn&Hs&Hnn).
  unfold producer_step, push_step, notify_step. rewrite Hp. split; cbn.
  - destruct chain; [done|]. by rewrite <- ch_tail0.
  - apply last_snoc.
  - apply NoDup_app. split_and!; [done| |apply NoDup_singleton]. intros k Hk ->%list_elem_of_singleton. done.
  - done.
  - intros a b [Hab|[Ha ->]]%adjacent_snoc_inv.
    + destruct (ch_next0 a b Hab) as [?|[? [[k Hk]|?]]]; [by left| |right; tauto].
      right. split; [done|]. left. exists k. rewrite set_producer_ne; [done|]. intros ->. congruence.
    + rewrite Ha in ch_head0. injection ch_head0 as ->. right. split; [done|]. left. exists p. by rewrite set_producer_eq.
  - intros k x prev Hk. destruct (decide (k = p)) as [->|Hne].
    { rewrite set_producer_eq in Hk. injection Hk as <- <-. split_and!; [by apply adjacent_snoc|done..]. }
    rewrite set_producer_ne in Hk by done. destruct (ch_link0 k x prev Hk) as (?&?&?). split_and!; [by apply adjacent_app|done..].
  - intros k x Hk. destruct (decide (k = p)) as [->|Hne]; [by rewrite set_producer_eq in Hk|].
    rewrite set_producer_ne in Hk by done. destruct (ch_xchg0 k x Hk) as (?&?&?). split_and!; [|done..].
    rewrite elem_of_app, list_elem_of_singleton. intros [?| ->]; [done|].
    apply (ch_own0 k p n Hne); [by left|by left].
  - intros k k' x Hne H1 H2. apply (ch_own0 k k' x Hne).
    + destruct (decide (k = p)) as [->|]; [|by rewrite set_producer_ne in H1].
      rewrite set_producer_eq in H1. destruct H1 as [?|[? [= <- _]]]; [done|]. rewrite Hp. by left.
    + destruct (decide (k' = p)) as [->|]; [|by rewrite set_producer_ne in H2].
      rewrite set_producer_eq in H2. destruct H2 as [?|[? [= <- _]]]; [done|]. rewrite Hp. by left.
  - intros prev Hc. destruct (ch_clink0 prev Hc). split; [by apply adjacent_app|done].
  - done.
  - intros Hc. rewrite elem_of_app, list_elem_of_singleton. intros [?|?]; [by apply ch_stub0|done].
  - done.
  - rewrite ch_log0, filter_app, filter_cons, decide_True, filter_nil by done. by rewrite app_assoc.
Qed.

Lemma chain_link s chain p n prev m :
  chain_of s chain -> producers s p = PLink n prev -> chain_of (producer_step s p m) chain.
Proof.
  intros H Hp. destruct H. destruct (ch_link0 p n prev Hp) as (Hadj&Hpn&Hs).
  assert (Hin : prev ∈ chain) by by apply adjacent_elem in Hadj as [? _].
  unfold producer_step, push_step, notify_step. rewrite Hp. split; cbn; try done.
  - rewrite set_node_ne; [done|]. intros E. by apply (adjacent_not_last _ _ _ _ ch_nodup0 Hadj ch_head0).
  - intros a b Hab. destruct (decide (a = prev)) as [->|Hne].
    { rewrite set_node_eq. left. f_equal. by apply (adjacent_fun chain prev). }
    rewrite set_node_ne by done. destruct (ch_next0 a b Hab) as [?|[? [[k Hk]|?]]]; [by left| |right; tauto].
    right. split; [done|]. left. exists k. rewrite set_producer_ne; [done|]. intros ->. congruence.
  - intros k x pr Hk. destruct (decide (k = p)) as [->|Hne]; [by rewrite set_producer_eq in Hk|].
    rewrite set_producer_ne in Hk by done. destruct (ch_link0 k x pr Hk) as (Ha&?&?). split_and!; [done| |done].
    rewrite set_node_ne; [done|]. intros ->. assert (x = n) as -> by by apply (adjacent_fun chain prev).
    apply (ch_own0 k p n Hne); [right; by exists prev|right; by exists prev].
  - intros k x Hk. destruct (decide (k = p)) as [->|Hne]; [by rewrite set_producer_eq in Hk|].
    rewrite set_producer_ne in Hk by done. destruct (ch_xchg0 k x Hk) as (?&?&?). split_and!; [done..|].
    rewrite set_node_ne; [done|]. by intros ->.
  - intros k k' x Hne H1 H2. apply (ch_own0 k k' x Hne).
    + destruct (decide (k = p)) as [->|]; [|by rewrite set_producer_ne in H1].
      rewrite set_producer_eq in H1. by destruct H1 as [?|[? ?]].
    + destruct (decide (k' = p)) as [->|]; [|by rewrite set_producer_ne in H2].
      rewrite set_producer_eq in H2. by destruct H2 as [?|[? ?]].
  - intros pr Hc. destruct (ch_clink0 pr Hc) as [Ha ?]. split; [done|]. rewrite set_node_ne; [done|].
    intros ->. apply Hs. by apply (adjacent_fun chain prev).
  - intros Hc. rewrite set_node_ne; [by apply ch_init0|]. intros E.
    apply ch_stub0; [by rewrite Hc|]. by rewrite E.
Qed.

(** *** Consumer steps *)

(** The tail's successor, when it is linked. *)
Lemma chain_second s chain n :
  chain_of s chain -> next s (tail_ s) = Some n ->
  exists rest, chain = tail_ s :: n :: rest.
Proof.
  intros [] Hn. destruct chain as [|t [|b rest]]; [done|..]; cbn in ch_tail0; injection ch_tail0 as ->.
  - cbn in ch_head0. injection ch_head0 as E. rewrite E in Hn. congruence.
  - exists rest. destruct (ch_next0 (tail_ s) b) as [?|[? _]]; [by exists [], rest|congruence|congruence].
Qed.

(** The tail leaves the chain. *)
Lemma chain_advance s s' chain n :
  chain_of s chain -> next s (tail_ s) = Some n ->
  (forall a, next s' a = next s a) -> head_ s' = head_ s -> tail_ s' = n ->
  (forall p, producers s' p = producers s p) -> pushed s' = pushed s ->
  (forall prev, consumer s <> CLink prev) -> (forall prev, consumer s' <> CLink prev) ->
  adding (consumer s') = false -> (popping (consumer s') = true -> n <> stub) ->
  popped s' = popped s ++ filter (fun n => n <> stub) [tail_ s] ->
  exists chain', chain_of s' chain'.
Proof.
  intros H Hn En Eh Et Ep Epu Hc Hc' Ha Hpop Elog.
  destruct (chain_second _ _ _ H Hn) as [rest ->]. destruct H. exists (n :: rest).
  assert (Hsub : forall a b, adjacent (tail_ s :: n :: rest) a b -> a <> tail_ s -> adjacent (n :: rest) a b).
  { intros a b Hab Hne. apply adjacent_cons in Hab as [[? _]|?]; done. }
  assert (Hsup : forall a b, adjacent (n :: rest) a b -> adjacent (tail_ s :: n :: rest) a b)
    by (intros a b Hab; apply adjacent_cons; by right).
  split; rewrite ?En, ?Eh, ?Et, ?Epu; try done.
  - by apply NoDup_cons in ch_nodup0 as [_ ?].
  - intros a b Hab. rewrite En. destruct (ch_next0 a b (Hsup a b Hab)) as [?|[? [[k Hk]|[? _]]]]; [by left| |naive_solver].
    right. split; [done|]. left. exists k. by rewrite Ep.
  - intros k x prev Hk. rewrite Ep in Hk. rewrite En. destruct (ch_link0 k x prev Hk) as (Hab&?&?). split_and!; [|done..].
    apply Hsub; [done|]. intros ->. congruence.
  - intros k x Hk. rewrite Ep in Hk. rewrite En. destruct (ch_xchg0 k x Hk) as (Hx&?&?). split_and!; [|done..]. set_solver.
  - intros k k' x. rewrite !Ep. apply ch_own0.
  - intros prev E. by apply Hc' in E.
  - congruence.
  - intros E. rewrite E in Ha. done.
  - rewrite ch_log0, Elog, <- app_assoc, <- filter_app. done.
Qed.

Lemma chain_stub_init s s' chain :
  chain_of s chain -> consumer s = CInit -> s' = consumer_step s true -> chain_of s' chain.
Proof.
  intros H Hc ->. destruct H. pose proof (ch_stub0 ltac:(by rewrite Hc)) as Hst.
  assert (Hnx : forall a, a <> stub -> set_node (next s) stub None a = next s a) by (intros; by apply set_node_ne).
  unfold consumer_step, drain_step, pop_step, empty_step. rewrite Hc. split; cbn; try done.
  - rewrite Hnx; [done|]. intros E. apply Hst. rewrite <- E. by apply last_Some_elem_of.
  - intros a b Hab. rewrite Hnx by (intros ->; by apply adjacent_elem in Hab as [? _]).
    destruct (ch_next0 a b Hab) as [?|[? [?|[? _]]]]; [by left|right; tauto|congruence].
  - intros k x prev Hk. destruct (ch_link0 k x prev Hk) as (Hab&?&?). split_and!; [done| |done].
    rewrite Hnx; [done|]. intros ->. by apply adjacent_elem in Hab as [? _].
  - intros k x Hk. destruct (ch_xchg0 k x Hk) as (?&?&?). rewrite Hnx by done. by split_and!.
  - intros _. apply ch_pop0. by rewrite Hc.
Qed.

Lemma chain_stub_xchg s chain :
  chain_of s chain -> consumer s = CXchg -> chain_of (consumer_step s true) (chain ++ [stub]).
Proof.
  intros H Hc. destruct H. pose proof (ch_stub0 ltac:(by rewrite Hc)) as Hst.
  unfold consumer_step, drain_step, pop_step, empty_step. rewrite Hc. split; cbn; try done.
  - destruct chain; [done|]. by rewrite <- ch_tail0.
  - apply last_snoc.
  - apply NoDup_app. split_and!; [done| |apply NoDup_singleton]. intros k Hk ->%list_elem_of_singleton. done.
  - by apply ch_init0.
  - intros a b [Hab|[Ha ->]]%adjacent_snoc_inv.
    + destruct (ch_next0 a b Hab) as [?|[? [?|[? _]]]]; [by left|right; tauto|congruence].
    + rewrite Ha in ch_head0. injection ch_head0 as ->. right. split; [done|]. by right.
  - intros k x prev Hk. destruct (ch_link0 k x prev Hk) as (?&?&?). split_and!; [by apply adjacent_app|done..].
  - intros k x Hk. destruct (ch_xchg0 k x Hk) as (?&?&?). split_and!; [|done..].
    rewrite elem_of_app, list_elem_of_singleton. tauto.
  - intros prev [= <-]. split; [by apply adjacent_snoc|done].
  - intros _. apply ch_pop0. by rewrite Hc.
  - rewrite ch_log0, filter_app, filter_cons, decide_False, filter_nil by (intros E; by apply E). by rewrite app_nil_r.
Qed.

Lemma chain_stub_link s chain prev :
  chain_of s chain -> consumer s = CLink prev -> chain_of (consumer_step s true) chain.
Proof.
  intros H Hc. destruct H. destruct (ch_clink0 prev Hc) as (Hadj&Hpn).
  assert (Hin : prev ∈ chain) by by apply adjacent_elem in Hadj as [? _].
  unfold consumer_step, drain_step, pop_step, empty_step. rewrite Hc. split; cbn; try done.
  - rewrite set_node_ne; [done|]. intros E. by apply (adjacent_not_last _ _ _ _ ch_nodup0 Hadj ch_head0).
  - intros a b Hab. destruct (decide (a = prev)) as [->|Hne].
    { rewrite set_node_eq. left. f_equal. by apply (adjacent_fun chain prev). }
    rewrite set_node_ne by done. destruct (ch_next0 a b Hab) as [?|[? [?|[? _]]]]; [by left|right; tauto|congruence].
  - intros k x pr Hk. destruct (ch_link0 k x pr Hk) as (Ha&?&?). split_and!; [done| |done].
    rewrite set_node_ne; [done|]. intros ->. assert (x = stub) by by apply (adjacent_fun chain prev). done.
  - intros k x Hk. destruct (ch_xchg0 k x Hk) as (?&?&?). split_and!; [done..|].
    rewrite set_node_ne; [done|]. by intros ->.
  - intros _. apply ch_pop0. by rewrite Hc.
Qed.

Lemma chain_single s chain : chain_of s chain -> tail_ s = head_ s -> chain = [tail_ s].
Proof.
  intros [] E. destruct chain as [|t rest]; [done|]. cbn in ch_tail0. injection ch_tail0 as ->.
  destruct rest as [|b rest]; [done|]. rewrite last_cons_cons in ch_head0. apply last_Some_elem_of in ch_head0.
  rewrite <- E in ch_head0. by apply NoDup_cons in ch_nodup0 as [? _].
Qed.

(** To [CHead] and [CInit]: nothing but the consumer changes. *)
Lemma chain_look s chain st :
  chain_of s chain -> tail_ s <> stub -> (forall prev, consumer s <> CLink prev) ->
  st = CHead \/ st = CInit /\ tail_ s = head_ s -> chain_of (s <| consumer := st |>) chain.
Proof.
  intros H Ht Hc Hst.
  assert (Hs : adding st = true -> stub ∉ chain).
  { intros Ha. destruct Hst as [->|[-> E]]; [done|]. rewrite (chain_single _ _ H E), list_elem_of_singleton. congruence. }
  destruct H. split; cbn; try done.
  - intros a b Hab. destruct (ch_next0 a b Hab) as [?|[? [?|[? _]]]]; [by left|right; tauto|naive_solver].
  - intros prev E. destruct Hst as [->|[-> _]]; done.
  - intros E. destruct Hst as [->|[-> _]]; done.
Qed.

(** *** Every interleaving *)

Definition queue_ok (s : mstate) : Prop := exists chain, chain_of s chain.

Lemma init_ok : queue_ok mpscq_init.
Proof.
  exists [stub]. split; cbn; try done.
  - apply NoDup_singleton.
  - intros a b (l1&l2&E). destruct l1 as [|? [|]]; done.
  - by intros p p' n _ [?|[? ?]].
Qed.

Lemma free_chain s chain n : chain_of s chain -> free s n -> n ∉ chain.
Proof.
  intros H (Hs&Hn&_) Hin. apply Hn. rewrite (ch_log _ _ H), drop_app_length.
  by apply list_elem_of_filter.
Qed.

Lemma producer_ok s p n : queue_ok s -> (producers s p = PIdle -> free s n) -> queue_ok (producer_step s p n).
Proof.
  intros [chain H] Hf. destruct (producers s p) as [|x|x prev| |] eqn:Hp.
  - specialize (Hf eq_refl). exists chain. apply chain_push; [done..|apply Hf|by apply (free_chain s)|apply Hf].
  - exists (chain ++ [x]). by apply chain_xchg.
  - exists chain. by apply (chain_link s chain p x prev).
  - exists chain. unfold producer_step, push_step, notify_step. rewrite Hp. destruct (pending s).
    + apply (chain_producer s _ chain p PIdle); try done; rewrite ?Hp; by intros n' [?|[? ?]].
    + apply (chain_producer s _ chain p PWrite); try done; rewrite ?Hp; by intros n' [?|[? ?]].
  - exists chain. unfold producer_step, push_step, notify_step. rewrite Hp.
    apply (chain_producer s _ chain p PIdle); try done; rewrite ?Hp; by intros n' [?|[? ?]].
Qed.

Lemma pop_ok s n again :
  queue_ok s -> next s (tail_ s) = Some n -> tail_ s <> stub -> (forall prev, consumer s <> CLink prev) ->
  queue_ok (pop_returns s n again).
Proof.
  intros [chain H] Hn Ht Hc. apply (chain_advance s _ chain n); try done; try (unfold pop_returns; cbn; by destruct again).
  change (popped s ++ [tail_ s] = popped s ++ filter (fun n => n <> stub) [tail_ s]).
  by rewrite filter_cons, decide_True, filter_nil.
Qed.

Lemma consumer_ok s again : queue_ok s -> queue_ok (consumer_step s again).
Proof.
  intros Hq. destruct Hq as [chain H]. pose proof (ex_intro _ chain H : queue_ok s) as Hq.
  assert (Hcalm : forall s', same_queue s s' -> (forall p, producers s' p = producers s p) ->
    popping (consumer s') = false -> (forall prev, consumer s <> CLink prev) -> queue_ok s')
    by (intros s' ? ? ? ?; exists chain; by apply (chain_consumer s)).
  pose proof (ch_pop _ _ H) as Hpop. unfold consumer_step, drain_step, pop_step, empty_step. destruct (consumer s) as [| | | | | | | |prev| | | |] eqn:Hc.
  - case_if; [by apply Hcalm|done].
  - by apply Hcalm.
  - by apply Hcalm.
  - destruct (next s (tail_ s)) as [n|] eqn:Hn; destruct (Z.eqb_spec (tail_ s) stub) as [Et|Et].
    + apply (chain_advance s _ chain n); try done; rewrite ?Hc; try done.
      * cbn. intros _ E. destruct (chain_second _ _ _ H Hn) as [rest ->]. rewrite Et, E in H.
        pose proof (ch_nodup _ _ H) as D. apply NoDup_cons in D as [D _]. apply D. left.
      * change (popped s = popped s ++ filter (fun n => n <> stub) [tail_ s]).
        rewrite filter_cons, decide_False, filter_nil by tauto. by rewrite app_nil_r.
    + apply pop_ok; rewrite ?Hc; done.
    + by apply Hcalm.
    + exists chain. apply chain_look; rewrite ?Hc; try done. by left.
  - destruct (next s (tail_ s)) as [n|] eqn:Hn; [apply pop_ok; rewrite ?Hc; auto|].
    exists chain. apply chain_look; rewrite ?Hc; auto.
  - destruct (Z.eqb_spec (tail_ s) (head_ s)) as [E|E]; [|by apply Hcalm].
    exists chain. apply chain_look; rewrite ?Hc; auto.
  - exists chain. apply (chain_stub_init s _ chain H Hc). unfold consumer_step, drain_step, pop_step, empty_step. by rewrite Hc.
  - exists (chain ++ [stub]). pose proof (chain_stub_xchg s chain H Hc) as Hx. unfold consumer_step, pop_step in Hx. by rewrite Hc in Hx.
  - exists chain. pose proof (chain_stub_link s chain prev H Hc) as Hx. unfold consumer_step, pop_step in Hx. by rewrite Hc in Hx.
  - destruct (next s (tail_ s)) as [n|] eqn:Hn; [apply pop_ok; rewrite ?Hc; auto|]. by apply Hcalm.
  - case_if; [by apply Hcalm|]. destruct (next s (tail_ s)); by apply Hcalm.
  - destruct (pending s); by apply Hcalm.
  - by apply Hcalm.
Qed.

Lemma mpsc_reachable_ok s : mreachable s -> queue_ok s.
Proof.
  induction 1 as [|s s' _ IH Hs]; [apply init_ok|].
  destruct Hs as [p n Hp Hf|p Hp|again]; [by apply producer_ok|by apply producer_ok|by apply consumer_ok].
Qed.

(** *** The wake-up protocol *)

(** Someone will still make the descriptor readable. *)
Definition notifying (st : pstate) : Prop := (exists n prev, st = PLink n prev) \/ st = PCas \/ st = PWrite.

Record wake_ok (s : mstate) : Prop := {
  wk_efd : 0 <= efd s;
  wk_pending : pending s = true -> 0 < efd s \/ (exists p, producers s p = PWrite) \/
    consumer s = CReset \/ consumer s = CWrite;
  wk_sleep : consumer s = CWait -> pushed s <> popped s -> 0 < efd s \/ exists p, notifying (producers s p)
}.

Lemma other_write s p : (exists k, producers s k = PWrite) -> producers s p <> PWrite ->
  forall st, exists k, set_producer (producers s) p st k = PWrite.
Proof. intros [k Hk] Hp st. exists k. rewrite set_producer_ne; [done|]. intros ->. done. Qed.

Lemma producer_wake s p n : wake_ok s -> wake_ok (producer_step s p n).
Proof.
  intros [H0 H1 H2].
  assert (Hn : forall st, notifying st -> exists k, notifying (set_producer (producers s) p st k))
    by (intros st Hst; exists p; by rewrite set_producer_eq).
  unfold producer_step, push_step, notify_step. destruct (producers s p) as [|x|x prev| |] eqn:Hp.
  - split; cbn; [done| |].
    + intros H. destruct (H1 H) as [?|[?|?]]; [by left|right; left; by apply other_write; [|rewrite Hp]|tauto].
    + intros Hc Hl. destruct (H2 Hc Hl) as [?|[k Hk]]; [by left|]. right. exists k.
      rewrite set_producer_ne; [done|]. intros ->. rewrite Hp in Hk. destruct Hk as [(?&?&?)|[?|?]]; done.
  - split; cbn; [done| |].
    + intros H. destruct (H1 H) as [?|[?|?]]; [by left|right; left; by apply other_write; [|rewrite Hp]|tauto].
    + intros _ _. right. apply Hn. left. by eexists _, _.
  - split; cbn; [done| |].
    + intros H. destruct (H1 H) as [?|[?|?]]; [by left|right; left; by apply other_write; [|rewrite Hp]|tauto].
    + intros _ _. right. apply Hn. right. by left.
  - destruct (pending s) eqn:Epd.
    + split; cbn; [done| |].
      * intros _. destruct (H1 eq_refl) as [?|[?|?]]; [by left|right; left; by apply other_write; [|rewrite Hp]|tauto].
      * intros Hc _. destruct (H1 eq_refl) as [?|[Hw|[?|?]]]; [by left| |congruence..]. right.
        destruct (other_write s p Hw ltac:(by rewrite Hp) PIdle) as [k Hk]. exists k. rewrite Hk. by right; right.
    + split; cbn; [done| |].
      * intros _. right. left. exists p. by rewrite set_producer_eq.
      * intros _ _. right. apply Hn. by right; right.
  - split; cbn; [lia| |].
    + intros _. left. lia.
    + intros _ _. left. lia.
Qed.

Lemma consumer_wake s again : queue_ok s -> wake_ok s -> wake_ok (consumer_step s again).
Proof.
  intros [chain H] [H0 H1 H2].
  (* nothing but the consumer moves, to a state in which it is awake *)
  assert (Hgo : forall s', efd s' = efd s -> pending s' = pending s -> (forall p, producers s' p = producers s p) ->
    consumer s <> CReset -> consumer s <> CWrite -> consumer s' <> CWait -> wake_ok s').
  { intros s' E1 E2 E3 N1 N2 N3. split; rewrite ?E1, ?E2; [done| |done].
    intros Hpd. destruct (H1 Hpd) as [?|[[p Hp]|[?|?]]]; [by left| |done..]. right. left. exists p. by rewrite E3. }
  assert (Hret : forall n, consumer s <> CReset -> consumer s <> CWrite -> wake_ok (pop_returns s n again))
    by (intros n ? ?; apply Hgo; try done; cbn; by destruct again).
  unfold consumer_step, drain_step, pop_step, empty_step. destruct (consumer s) as [| | | | | | | |prev| | | |] eqn:Hc.
  - case_if; [by apply Hgo|split; rewrite ?Hc; done].
  - split; cbn; [done|tauto|done].
  - split; cbn; done.
  - destruct (next s (tail_ s)); case_if; first [by apply Hret|by apply Hgo].
  - destruct (next s (tail_ s)); first [by apply Hret|by apply Hgo].
  - case_if; by apply Hgo.
  - by apply Hgo.
  - by apply Hgo.
  - by apply Hgo.
  - destruct (next s (tail_ s)); first [by apply Hret|by apply Hgo].
  - destruct (Z.eqb_spec (tail_ s) stub) as [Et|Et]; cbn [negb]; [|by apply Hgo].
    destruct (next s (tail_ s)) as [n|] eqn:Hn; [by apply Hgo|]. split; cbn; [done| |].
    + intros Hpd. destruct (H1 Hpd) as [?|[?|[?|?]]]; try done; tauto.
    + intros _ Hne. right. destruct H. destruct chain as [|t [|b rest]]; [done|..]; cbn in ch_tail0; injection ch_tail0 as ->.
      * rewrite ch_log0, Et, filter_cons, decide_False, filter_nil, app_nil_r in Hne by tauto. done.
      * destruct (ch_next0 (tail_ s) b) as [?|[_ [[p Hp]|[? _]]]]; [by exists [], rest|congruence| |congruence].
        exists p. left. by eexists _, _.
  - destruct (pending s) eqn:Epd.
    + split; cbn; [done| |].
      * intros _. destruct (H1 eq_refl) as [?|[?|[?|?]]]; try done; tauto.
      * intros _ _. destruct (H1 eq_refl) as [?|[[p Hp]|[?|?]]]; try done; [tauto|]. right. exists p. rewrite Hp. by right; right.
    + split; cbn; [done|tauto|done].
  - split; cbn; [lia| |].
    + intros _. left. lia.
    + intros _ _. left. lia.
Qed.

Lemma reachable_wake s : mreachable s -> wake_ok s.
Proof.
  induction 1 as [|s s' Hr IH Hs]; [by split|].
  destruct Hs as [p n Hp Hf|p Hp|again]; [by apply producer_wake|by apply producer_wake|].
  apply consumer_wake; [by apply mpsc_reachable_ok|done].
Qed.

(** *** Theorems *)

(** C14: The queue is first-in first-out whatever the interleaving: the nodes that
    have been popped are the first of those pushed, in the order of the pushes;
    the others are all still there, none twice. *)
Theorem mpsc_fifo s :
  mreachable s -> exists queued, pushed s = popped s ++ queued /\ NoDup queued /\ stub ∉ queued.
Proof.
  intros [chain H]%mpsc_reachable_ok. exists (filter (fun n => n <> stub) chain). split_and!.
  - apply H.
  - apply NoDup_filter, H.
  - rewrite list_elem_of_filter. tauto.
Qed.


Fixpoint consume (k : nat) (s : mstate) : mstate :=
  match k with O => s | S k => consume k (consumer_step s true) end.

Lemma consume_S k s : consume (S k) s = consume k (consumer_step s true).
Proof. reflexivity. Qed.

Definition got (s : mstate) (x : Z) (s' : mstate) : Prop :=
  popped s' = popped s ++ [x] /\ consumer s' = CPop.

Lemma head_run s : consumer s = CHead -> tail_ s = head_ s -> tail_ s <> stub -> got s (tail_ s) (consume 5 s).
Proof.
  destruct s as [nx hd tl pd ef pr cs pu po]. cbn. intros -> -> Hs.
  unfold got. cbn. rewrite Z.eqb_refl. cbn. by rewrite set_node_eq.
Qed.

Lemma pop_now s n :
  consumer s = CPop \/ consumer s = CLoad -> tail_ s <> stub -> next s (tail_ s) = Some n ->
  got s (tail_ s) (consumer_step s true).
Proof.
  intros Hc Hs Hn. unfold consumer_step, drain_step, pop_step, empty_step. destruct Hc as [-> | ->]; rewrite Hn; [|done].
  by rewrite (proj2 (Z.eqb_neq _ _) Hs).
Qed.

Lemma pop_last s chain :
  chain_of s chain -> consumer s = CPop \/ consumer s = CLoad -> tail_ s <> stub -> tail_ s = head_ s ->
  got s (tail_ s) (consume 6 s).
Proof.
  intros H Hc Hs Ht. rewrite consume_S.
  assert (E : consumer_step s true = s <| consumer := CHead |>).
  { unfold consumer_step, drain_step, pop_step, empty_step. pose proof (ch_end _ _ H) as Hn. rewrite <- Ht in Hn.
    destruct Hc as [-> | ->]; rewrite Hn; [|done]. by rewrite (proj2 (Z.eqb_neq _ _) Hs). }
  rewrite E. exact (head_run (s <| consumer := CHead |>) eq_refl Ht Hs).
Qed.

(** From a tail that is not the stub the pop succeeds. *)
Lemma pop_from s chain :
  chain_of s chain -> consumer s = CPop \/ consumer s = CLoad -> tail_ s <> stub ->
  (forall p n prev, producers s p <> PLink n prev) ->
  exists k, (k <= 6)%nat /\ got s (tail_ s) (consume k s).
Proof.
  intros H Hc Hs Hp. destruct (decide (tail_ s = head_ s)) as [E|E]; [exists 6%nat; split; [lia|by eapply pop_last]|].
  exists 1%nat. split; [lia|]. destruct chain as [|t [|b rest]].
  - by destruct H.
  - destruct H. cbn in *. congruence.
  - assert (t = tail_ s) as -> by (destruct H; cbn in *; congruence).
    destruct (ch_next _ _ H (tail_ s) b) as [?|[_ [[p Hl]|[Hl _]]]]; [by exists [], rest|by apply (pop_now s b)|by apply Hp in Hl|].
    destruct Hc; congruence.
Qed.

(** C21: A pop that is not disturbed succeeds: with something queued and no producer
    between its exchange and its link, the consumer returns the oldest node
    within seven steps of its own. *)
Theorem pop_progress s x rest :
  mreachable s -> consumer s = CPop -> (forall p n prev, producers s p <> PLink n prev) ->
  pushed s = popped s ++ x :: rest ->
  exists k, (k <= 7)%nat /\ popped (consume k s) = popped s ++ [x] /\ consumer (consume k s) = CPop.
Proof.
  intros [chain H]%mpsc_reachable_ok Hc Hp Hlog. rewrite (ch_log _ _ H) in Hlog. apply app_inv_head in Hlog.
  destruct chain as [|t l]; [by destruct H|].
  assert (t = tail_ s) as -> by (destruct H; cbn in *; congruence).
  destruct (decide (tail_ s = stub)) as [E|E].
  - rewrite filter_cons, decide_False in Hlog by tauto. destruct l as [|b l]; [done|].
    destruct (ch_next _ _ H (tail_ s) b) as [Hn|[_ [[p Hl]|[Hl _]]]]; [by exists [], l| |by apply Hp in Hl|congruence].
    assert (Hb : b <> stub).
    { intros ->. pose proof (ch_nodup _ _ H) as D. rewrite E in D. apply NoDup_cons in D as [D _]. apply D. left. }
    rewrite filter_cons, decide_True in Hlog by done. injection Hlog as <- _.
    assert (Es : consumer_step s true = s <| tail_ := b |> <| consumer := CLoad |>).
    { unfold consumer_step, drain_step, pop_step, empty_step. by rewrite Hc, Hn, (proj2 (Z.eqb_eq _ _) E). }
    pose proof (consumer_ok s true (ex_intro _ _ H)) as [chain' H']. rewrite Es in H'.
    destruct (pop_from _ chain' H') as (k&Hk&Hg); [by right|done|done|].
    exists (S k). split; [lia|]. rewrite consume_S, Es. exact Hg.
  - rewrite filter_cons, decide_True in Hlog by done. injection Hlog as <- _.
    destruct (pop_from s _ H (or_introl Hc) E Hp) as (k&Hk&Hg). exists k. split; [lia|done].
Qed.

(** A producer pushes node 7, and the consumer is woken up. *)
Definition push_all (s : mstate) (p : nat) (n : Z) : mstate := Nat.iter 4 (fun s => producer_step s p n) (producer_step s p n).
Definition woken : mstate := consume 3 (push_all mpscq_init 0 7).

Lemma free_7 : free mpscq_init 7.
Proof. split_and!; [done|by intros ?%elem_of_nil|]. by intros p [?|[? ?]]. Qed.

Lemma steps_reachable s p n :
  mreachable s -> producers s p <> PIdle -> mreachable (producer_step s p n).
Proof.
  intros H Hp. assert (E : producer_step s p n = producer_step s p stub).
  { unfold producer_step, push_step, notify_step. by destruct (producers s p). }
  rewrite E. by eapply mr_step; [|apply m_producer].
Qed.

Lemma pushed_reachable : mreachable (push_all mpscq_init 0 7).
Proof.
  unfold push_all. cbn [Nat.iter].
  do 4 (apply steps_reachable; [|by vm_compute]). eapply mr_step; [apply mr_init|]. apply m_push; [done|apply free_7].
Qed.

Lemma woken_reachable : mreachable woken.
Proof. unfold woken. cbn [consume]. do 3 (eapply mr_step; [|apply m_consumer]). apply pushed_reachable. Qed.

Lemma mpsc_fifo_witness : exists queued, pushed woken = popped woken ++ queued /\ NoDup queued /\ stub ∉ queued.
Proof. apply (mpsc_fifo woken). apply woken_reachable. Defined.


Lemma pop_progress_witness :
  exists k, (k <= 7)%nat /\ popped (consume k woken) = [7] /\ consumer (consume k woken) = CPop.
Proof.
  apply (pop_progress woken 7 []); [apply woken_reachable|done| |done].
  intros p n prev. assert (E : producers woken p = PIdle) by (destruct p; done). by rewrite E.
Defined.
