(* ===== verification/FrameRing.v ===== *)
(** The shared cache of free frame slots (src/lib/frame_cache.c:
    [global_frame_cache_class] with its batched enqueue and dequeue), a bounded
    queue used by any number of threads at once.  Its size is a parameter, a power
    of two, so that the pool of frames (FramePool.v) can use its theorems.

    Every access to shared memory is a step of its own and the steps of the
    threads interleave freely; the compare-and-swap may fail spuriously.  The
    accesses to [entry] are plain loads and stores in the code, so their freedom
    from races is a theorem here.  Frame slots are addresses. *)

From stdpp Require Import prelude list.
From Stdlib Require Import ZArith Lia.
From S2P Require Import Prelude.

Definition GLOBAL_FRAME_CACHE_LIMIT : Z := 1024.

(** Conversion to [intptr_t]. *)
Definition s64 (x : Z) : Z := if x <? 2 ^ 63 then x else x - 2 ^ 64.

(** Where a thread is in [global_cache_class_enqueue_batch] (E) or
    [global_cache_class_dequeue_batch] (D): before the load of the position, in
    the loop that counts ready slots, before the compare-and-swap, before the
    access to [entry] and before the store of [sequence] of the [i]-th slot of its
    batch, at the return. *)
Inductive rstate :=
  | RIdle
  | ELoad (entries : list Z) (max_entries : Z)
  | EScan (entries : list Z) (max_entries pos ready : Z)
  | ECas (entries : list Z) (max_entries pos ready : Z)
  | EWrite (entries : list Z) (pos ready i : Z)
  | EPublish (entries : list Z) (pos ready i : Z)
  | EReturn (ready : Z)
  | DLoad (max_entries : Z)
  | DScan (max_entries pos ready : Z)
  | DCas (max_entries pos ready : Z)
  | DRead (pos ready i : Z) (got : list Z)
  | DRelease (pos ready i : Z) (got : list Z)
  | DReturn (got : list Z).

Record ring := mk_ring {
  sequence : Z -> Z;
  entry : Z -> Z;
  enqueue_pos : Z;
  dequeue_pos : Z;
  threads : nat -> rstate
}.

#[export] Instance eta_ring : Eta ring :=
  fun s => mk_ring (sequence s) (entry s) (enqueue_pos s) (dequeue_pos s) (threads s).
#[export] Instance set_r_sequence : Setter sequence := ltac:(mk_setter).
#[export] Instance set_r_entry : Setter entry := ltac:(mk_setter).
#[export] Instance set_r_enqueue_pos : Setter enqueue_pos := ltac:(mk_setter).
#[export] Instance set_r_dequeue_pos : Setter dequeue_pos := ltac:(mk_setter).
#[export] Instance set_r_threads : Setter threads := ltac:(mk_setter).

Definition store (f : Z -> Z) (a v : Z) : Z -> Z := fun k => if k =? a then v else f k.
Definition at_thread {A} (f : nat -> A) (t : nat) (v : A) : nat -> A :=
  fun k => if (k =? t)%nat then v else f k.
Definition rgoto (t : nat) (st : rstate) (s : ring) : ring :=
  s <| threads := at_thread (threads s) t st |>.

(** What is seen of a run: the batches at the compare-and-swap that claims their
    slots, and the values returned. *)
Inductive revent :=
  | Put (t : nat) (entries : list Z)
  | Take (t : nat) (n : Z)
  | PutReturn (t : nat) (n : Z)
  | TakeReturn (t : nat) (entries : list Z).

(** The contract is a queue: its contents, and what the calls under way will
    return. *)
Record fifo := mk_fifo { items : list Z; stored : nat -> Z; taken : nat -> list Z }.

(** States that agree on every slot and thread. *)
#[export] Instance ring_equiv : Equiv ring := fun s s' =>
  (forall i, sequence s i = sequence s' i) /\ (forall i, entry s i = entry s' i) /\
  enqueue_pos s = enqueue_pos s' /\ dequeue_pos s = dequeue_pos s' /\
  (forall t, threads s t = threads s' t).

#[export] Instance ring_equivalence : Equivalence (≡@{ring}).
Proof.
  split.
  - done.
  - intros s s' (?&?&?&?&?). split_and!; done.
  - intros a b c (?&?&?&?&?) (?&?&?&?&?). split_and!; try congruence; intros; etrans; eauto.
Qed.

(** The sizes of the queues. *)
Definition power_of_two (n : Z) : Prop := exists bits, 1 <= bits <= 32 /\ n = 2 ^ bits.
#[global] Arguments power_of_two : simpl never.

Section Ring.
Context (LIMIT : Z).

(** The slot of a position. *)
Definition ring_slot (pos : Z) : Z := Z.land pos (LIMIT - 1).

(** *** [global_cache_class_enqueue_batch] *)

Definition enqueue_call (entries : list Z) : rstate :=
  let max_entries := Z.of_nat (length entries) in
  if max_entries =? 0 then EReturn 0
  else ELoad entries (if LIMIT <? max_entries then LIMIT
                      else max_entries).

(** After the loop: nothing ready ends the call. *)
Definition enqueue_counted (entries : list Z) (max_entries pos ready : Z) : rstate :=
  if ready =? 0 then EReturn 0 else ECas entries max_entries pos ready.

(** One step of thread [t]; [weak] makes the compare-and-swap fail. *)
Definition enqueue_step (s : ring) (t : nat) (weak : bool) : ring * list revent :=
  match threads s t with
  | ELoad es mx => (rgoto t (EScan es mx (enqueue_pos s) 0) s, [])
  | EScan es mx pos ready =>
      if ready <? mx then
        let entry_pos := u64 (pos + ready) in
        let diff := s64 (sequence s (ring_slot entry_pos)) - s64 entry_pos in
        if diff =? 0 then (rgoto t (EScan es mx pos (ready + 1)) s, [])
        else if 0 <? diff then (rgoto t (ELoad es mx) s, [])
        else (rgoto t (enqueue_counted es mx pos ready) s, [])
      else (rgoto t (enqueue_counted es mx pos ready) s, [])
  | ECas es mx pos ready =>
      if weak || negb (enqueue_pos s =? pos) then (rgoto t (EScan es mx (enqueue_pos s) 0) s, [])
      else (rgoto t (EWrite es pos ready 0) (s <| enqueue_pos := u64 (pos + ready) |>),
            [Put t (take (Z.to_nat ready) es)])
  | EWrite es pos ready i =>
      if i <? ready then
        let entry_pos := u64 (pos + i) in
        (rgoto t (EPublish es pos ready i)
           (s <| entry := store (entry s) (ring_slot entry_pos) (es !!! Z.to_nat i) |>), [])
      else (rgoto t (EReturn ready) s, [])
  | EPublish es pos ready i =>
      let entry_pos := u64 (pos + i) in
      (rgoto t (EWrite es pos ready (i + 1))
         (s <| sequence := store (sequence s) (ring_slot entry_pos) (u64 (entry_pos + 1)) |>), [])
  | EReturn n => (rgoto t RIdle s, [PutReturn t n])
  | _ => (s, [])
  end.

(** *** [global_cache_class_dequeue_batch] *)

Definition dequeue_call (max_entries : Z) : rstate :=
  if max_entries =? 0 then DReturn []
  else DLoad (if LIMIT <? max_entries then LIMIT
              else max_entries).

Definition dequeue_counted (max_entries pos ready : Z) : rstate :=
  if ready =? 0 then DReturn [] else DCas max_entries pos ready.

Definition dequeue_step (s : ring) (t : nat) (weak : bool) : ring * list revent :=
  match threads s t with
  | DLoad mx => (rgoto t (DScan mx (dequeue_pos s) 0) s, [])
  | DScan mx pos ready =>
      if ready <? mx then
        let entry_pos := u64 (pos + ready) in
        let diff := s64 (sequence s (ring_slot entry_pos)) - s64 (u64 (entry_pos + 1)) in
        if diff =? 0 then (rgoto t (DScan mx pos (ready + 1)) s, [])
        else if 0 <? diff then (rgoto t (DLoad mx) s, [])
        else (rgoto t (dequeue_counted mx pos ready) s, [])
      else (rgoto t (dequeue_counted mx pos ready) s, [])
  | DCas mx pos ready =>
      if weak || negb (dequeue_pos s =? pos) then (rgoto t (DScan mx (dequeue_pos s) 0) s, [])
      else (rgoto t (DRead pos ready 0 []) (s <| dequeue_pos := u64 (pos + ready) |>),
            [Take t ready])
  | DRead pos ready i got =>
      if i <? ready then
        let entry_pos := u64 (pos + i) in
        (rgoto t (DRelease pos ready i (got ++ [entry s (ring_slot entry_pos)])) s, [])
      else (rgoto t (DReturn got) s, [])
  | DRelease pos ready i got =>
      let entry_pos := u64 (pos + i) in
      (rgoto t (DRead pos ready (i + 1) got)
         (s <| sequence := store (sequence s) (ring_slot entry_pos)
                             (u64 (entry_pos + LIMIT)) |>), [])
  | DReturn got => (rgoto t RIdle s, [TakeReturn t got])
  | _ => (s, [])
  end.

Definition ring_step (s : ring) (t : nat) (weak : bool) : ring * list revent :=
  match threads s t with
  | ELoad _ _ | EScan _ _ _ _ | ECas _ _ _ _ | EWrite _ _ _ _ | EPublish _ _ _ _ | EReturn _ =>
      enqueue_step s t weak
  | _ => dequeue_step s t weak
  end.

(** A run: idle threads call, the others step, in any order. *)
Inductive run (s0 : ring) : list revent -> ring -> Prop :=
  | run_init : run s0 [] s0
  | run_enqueue evs s t entries :
      run s0 evs s -> threads s t = RIdle -> run s0 evs (rgoto t (enqueue_call entries) s)
  | run_dequeue evs s t max_entries :
      run s0 evs s -> threads s t = RIdle -> 0 <= max_entries ->
      run s0 evs (rgoto t (dequeue_call max_entries) s)
  | run_step evs s t weak s' new :
      run s0 evs s -> ring_step s t weak = (s', new) -> run s0 (evs ++ new) s'.

(** *** The contract: a bounded queue *)

Definition fifo_step (f : fifo) (e : revent) : option fifo :=
  match e with
  | Put t xs =>
      if Z.of_nat (length (items f ++ xs)) <=? LIMIT
      then Some (mk_fifo (items f ++ xs) (at_thread (stored f) t (Z.of_nat (length xs))) (taken f))
      else None
  | Take t n =>
      if n <=? Z.of_nat (length (items f))
      then Some (mk_fifo (drop (Z.to_nat n) (items f)) (stored f)
                   (at_thread (taken f) t (take (Z.to_nat n) (items f))))
      else None
  | PutReturn t n =>
      if n =? stored f t then Some (mk_fifo (items f) (at_thread (stored f) t 0) (taken f)) else None
  | TakeReturn t xs =>
      if decide (xs = taken f t) then Some (mk_fifo (items f) (stored f) (at_thread (taken f) t []))
      else None
  end.

Definition fifo_all (f : fifo) (evs : list revent) : option fifo :=
  foldl (fun f e => f ≫= fun f => fifo_step f e) (Some f) evs.

(** The queue starts with the entries [start]. *)
Definition fifo_start (start : list Z) : fifo := mk_fifo start (fun _ => 0) (fun _ => []).
Definition fifo_run (start : list Z) (evs : list revent) : option fifo :=
  fifo_all (fifo_start start) evs.

(** Everything put into the queue so far. *)
Definition put_entries (evs : list revent) : list Z :=
  evs ≫= fun e => match e with Put _ xs => xs | _ => [] end.

(** *** Positions and slots *)

Context (Hpow2 : power_of_two LIMIT).

Lemma LIMIT_range : 2 <= LIMIT <= 2 ^ 32.
Proof.
  destruct Hpow2 as (bits & ? & ->).
  split; [change 2 with (2 ^ 1) at 1|]; apply Z.pow_le_mono_r; lia.
Qed.

Ltac lim := pose proof LIMIT_range; cbv zeta in *; lia.

Lemma ring_slot_mod p : ring_slot p = p mod LIMIT.
Proof.
  unfold ring_slot. destruct Hpow2 as (bits & ? & ->). replace (2 ^ bits - 1) with (Z.ones bits).
  - apply Z.land_ones. lia.
  - rewrite Z.ones_equiv. lia.
Qed.

Lemma ring_slot_eq p q : ring_slot p = ring_slot q -> exists k, q = p + k * LIMIT.
Proof.
  rewrite !ring_slot_mod. intros. exists (q / LIMIT - p / LIMIT).
  pose proof LIMIT_range. pose proof (Z.div_mod p LIMIT). pose proof (Z.div_mod q LIMIT). lia.
Qed.

Lemma ring_slot_shift p k : ring_slot (p + k * LIMIT) = ring_slot p.
Proof. rewrite !ring_slot_mod. apply Z.mod_add. lim. Qed.

Lemma LIMIT_times k : k = 0 \/ k * LIMIT <= - LIMIT \/ LIMIT <= k * LIMIT.
Proof.
  pose proof LIMIT_range as [HL _]. assert (k <= -1 \/ k = 0 \/ 1 <= k) as [?|[?|?]] by lia; [|lia|];
    right; [left|right]; nia.
Qed.

(** Positions up to which no counter wraps. *)
Definition MAX_POS : Z := 2 ^ 62.

Lemma u64_pos x : 0 <= x <= MAX_POS + 2 * LIMIT -> u64 x = x.
Proof. intros. apply wrap_id. unfold is_u, MAX_POS in *. lim. Qed.

Lemma s64_pos x : 0 <= x <= MAX_POS + 2 * LIMIT -> s64 x = x.
Proof. intros. unfold s64, MAX_POS in *. case_if; bool_prop; lim. Qed.

Lemma store_eq f a v : store f a v a = v.
Proof. unfold store. by rewrite Z.eqb_refl. Qed.
Lemma store_ne f a v k : k <> a -> store f a v k = f k.
Proof. unfold store. by intros ->%Z.eqb_neq. Qed.
Lemma at_thread_eq {A} (f : nat -> A) t v : at_thread f t v t = v.
Proof. unfold at_thread. by rewrite Nat.eqb_refl. Qed.
Lemma at_thread_ne {A} (f : nat -> A) t v k : k <> t -> at_thread f t v k = f k.
Proof. unfold at_thread. by intros ->%Nat.eqb_neq. Qed.

(** *** Invariant

    The positions of a batch whose slots are not handed over yet belong to its
    thread. *)
Definition putting (st : rstate) (p : Z) : Prop :=
  match st with
  | EWrite _ pos ready i | EPublish _ pos ready i => pos + i <= p < pos + ready
  | _ => False
  end.
Definition taking (st : rstate) (p : Z) : Prop :=
  match st with
  | DRead pos ready i _ => pos + i <= p < pos + ready
  | DRelease pos ready i _ => pos + i <= p < pos + ready
  | _ => False
  end.

Definition nth_put (put : list Z) (p x : Z) : Prop := 0 <= p /\ put !! Z.to_nat p = Some x.

(** What a thread knows.  [E] and [D] are the two positions. *)
Definition knows (s : ring) (put : list Z) (f : fifo) (t : nat) (st : rstate) : Prop :=
  let E := enqueue_pos s in
  let D := dequeue_pos s in
  match st with
  | RIdle => stored f t = 0 /\ taken f t = []
  | ELoad es mx => 0 < mx <= LIMIT /\ mx <= Z.of_nat (length es) /\ stored f t = 0 /\ taken f t = []
  | EScan es mx pos ready =>
      0 < mx <= LIMIT /\ mx <= Z.of_nat (length es) /\ stored f t = 0 /\ taken f t = [] /\
      0 <= pos <= E /\ 0 <= ready <= mx /\
      (forall q, pos <= q < pos + ready -> E <= q -> sequence s (ring_slot q) = q)
  | ECas es mx pos ready =>
      0 < mx <= LIMIT /\ mx <= Z.of_nat (length es) /\ stored f t = 0 /\ taken f t = [] /\
      0 <= pos <= E /\ 0 < ready <= mx /\
      (forall q, pos <= q < pos + ready -> E <= q -> sequence s (ring_slot q) = q)
  | EWrite es pos ready i =>
      0 <= pos /\ 0 <= i <= ready /\ ready <= LIMIT /\ ready <= Z.of_nat (length es) /\
      pos + ready <= E /\ stored f t = ready /\ taken f t = [] /\
      (forall q, pos + i <= q < pos + ready ->
         sequence s (ring_slot q) = q /\ nth_put put q (es !!! Z.to_nat (q - pos)))
  | EPublish es pos ready i =>
      0 <= pos /\ 0 <= i < ready /\ ready <= LIMIT /\ ready <= Z.of_nat (length es) /\
      pos + ready <= E /\ stored f t = ready /\ taken f t = [] /\
      entry s (ring_slot (pos + i)) = es !!! Z.to_nat i /\
      (forall q, pos + i <= q < pos + ready ->
         sequence s (ring_slot q) = q /\ nth_put put q (es !!! Z.to_nat (q - pos)))
  | EReturn n => stored f t = n /\ taken f t = []
  | DLoad mx => 0 < mx <= LIMIT /\ stored f t = 0 /\ taken f t = []
  | DScan mx pos ready =>
      0 < mx <= LIMIT /\ stored f t = 0 /\ taken f t = [] /\
      0 <= pos <= D /\ 0 <= ready <= mx /\
      (forall q, pos <= q < pos + ready -> D <= q -> sequence s (ring_slot q) = q + 1)
  | DCas mx pos ready =>
      0 < mx <= LIMIT /\ stored f t = 0 /\ taken f t = [] /\
      0 <= pos <= D /\ 0 < ready <= mx /\
      (forall q, pos <= q < pos + ready -> D <= q -> sequence s (ring_slot q) = q + 1)
  | DRead pos ready i got =>
      0 <= pos /\ 0 <= i <= ready /\ ready <= LIMIT /\ pos + ready <= D /\ stored f t = 0 /\
      taken f t = take (Z.to_nat ready) (drop (Z.to_nat pos) put) /\
      got = take (Z.to_nat i) (taken f t) /\
      (forall q, pos + i <= q < pos + ready ->
         sequence s (ring_slot q) = q + 1 /\ nth_put put q (entry s (ring_slot q)))
  | DRelease pos ready i got =>
      0 <= pos /\ 0 <= i < ready /\ ready <= LIMIT /\ pos + ready <= D /\ stored f t = 0 /\
      taken f t = take (Z.to_nat ready) (drop (Z.to_nat pos) put) /\
      got = take (Z.to_nat (i + 1)) (taken f t) /\
      (forall q, pos + i <= q < pos + ready ->
         sequence s (ring_slot q) = q + 1 /\ nth_put put q (entry s (ring_slot q)))
  | DReturn got => stored f t = 0 /\ taken f t = got
  end.

Record ring_inv (s : ring) (put : list Z) (f : fifo) : Prop := {
  ri_enq : enqueue_pos s = Z.of_nat (length put);
  ri_deq : 0 <= dequeue_pos s <= enqueue_pos s;
  ri_items : items f = drop (Z.to_nat (dequeue_pos s)) put;
  ri_cap : enqueue_pos s <= dequeue_pos s + LIMIT;
  ri_full q : dequeue_pos s <= q < enqueue_pos s ->
    (sequence s (ring_slot q) = q + 1 /\ nth_put put q (entry s (ring_slot q))) \/
    exists t, putting (threads s t) q;
  ri_free q : enqueue_pos s <= q < dequeue_pos s + LIMIT ->
    sequence s (ring_slot q) = q \/ exists t, taking (threads s t) (q - LIMIT);
  ri_knows t : knows s put f t (threads s t);
  ri_put_once t t' q : putting (threads s t) q -> putting (threads s t') q -> t = t';
  ri_take_once t t' q : taking (threads s t) q -> taking (threads s t') q -> t = t'
}.

(** *** Steps keep the invariant *)

(** What stays true of a thread while others move. *)
Lemma knows_frame s s' put put' f f' t st :
  knows s put f t st -> stored f' t = stored f t -> taken f' t = taken f t ->
  enqueue_pos s = Z.of_nat (length put) -> dequeue_pos s <= enqueue_pos s ->
  enqueue_pos s <= enqueue_pos s' -> dequeue_pos s <= dequeue_pos s' -> put `prefix_of` put' ->
  (forall q, sequence s (ring_slot q) = q -> enqueue_pos s' <= q \/ putting st q ->
     sequence s' (ring_slot q) = q) ->
  (forall q, sequence s (ring_slot q) = q + 1 -> dequeue_pos s' <= q \/ taking st q ->
     sequence s' (ring_slot q) = q + 1) ->
  (forall q, sequence s (ring_slot q) = q + 1 -> taking st q ->
     entry s' (ring_slot q) = entry s (ring_slot q)) ->
  (forall q, sequence s (ring_slot q) = q -> putting st q ->
     entry s' (ring_slot q) = entry s (ring_slot q)) ->
  knows s' put' f' t st.
Proof.
  intros HK Hs Ht HE HDE HE' HD' [more ->] Hq Hq1 He1 He.
  assert (Hnth : forall q x, nth_put put q x -> nth_put (put ++ more) q x).
  { intros q x [? ?]. split; [done|]. by apply lookup_app_l_Some. }
  assert (Hdrop : forall pos ready, 0 <= pos -> 0 <= ready -> pos + ready <= dequeue_pos s ->
    take (Z.to_nat ready) (drop (Z.to_nat pos) put) =
    take (Z.to_nat ready) (drop (Z.to_nat pos) (put ++ more))).
  { intros. rewrite drop_app_le, take_app_le by (rewrite ?length_drop; lia). done. }
  destruct st; cbn in *; rewrite ?Hs, ?Ht; try done; destruct_and!;
    try match goal with H : forall q, _ <= q < _ -> _ /\ _ |- _ => rename H into Hown end;
    split_and!; try done; try lia.
  - intros q ? ?. apply Hq; [|lia]. by match goal with H : _ |- _ => apply H; lia end.
  - intros q ? ?. apply Hq; [|lia]. by match goal with H : _ |- _ => apply H; lia end.
  - intros q Hr. destruct (Hown q Hr). auto.
  - rewrite He; [done| |lia]. apply Hown. lia.
  - intros q Hr. destruct (Hown q Hr). auto.
  - intros q ? ?. apply Hq1; [|lia]. by match goal with H : _ |- _ => apply H; lia end.
  - intros q ? ?. apply Hq1; [|lia]. by match goal with H : _ |- _ => apply H; lia end.
  - rewrite <- Hdrop by lia. done.
  - intros q Hr. destruct (Hown q Hr). rewrite He1 by auto. auto.
  - rewrite <- Hdrop by lia. done.
  - intros q Hr. destruct (Hown q Hr). rewrite He1 by auto. auto.
Qed.

(** A step that changes only what its thread knows. *)
Lemma inv_local s put f f' t st :
  ring_inv s put f ->
  (forall q, putting st q <-> putting (threads s t) q) ->
  (forall q, taking st q <-> taking (threads s t) q) ->
  items f' = items f ->
  (forall t', t' <> t -> stored f' t' = stored f t' /\ taken f' t' = taken f t') ->
  knows s put f' t st ->
  ring_inv (rgoto t st s) put f'.
Proof.
  intros HI Hp Ht Hi Hf HK.
  assert (Hp' : forall t' q, putting (threads (rgoto t st s) t') q <-> putting (threads s t') q).
  { intros t' q. cbn. unfold at_thread. destruct (Nat.eqb_spec t' t) as [->|]; auto. }
  assert (Ht' : forall t' q, taking (threads (rgoto t st s) t') q <-> taking (threads s t') q).
  { intros t' q. cbn. unfold at_thread. destruct (Nat.eqb_spec t' t) as [->|]; auto. }
  destruct HI as [HE HD HIt HC HFu HFr HKn HP1 HT1].
  split; try done.
  - by rewrite Hi.
  - intros q Hq. destruct (HFu q Hq) as [?|[t' ?]]; [by left|right; exists t'; by apply Hp'].
  - intros q Hq. destruct (HFr q Hq) as [?|[t' ?]]; [by left|right; exists t'; by apply Ht'].
  - intros t'. destruct (decide (t' = t)) as [->|Hne].
    { cbn. rewrite at_thread_eq. done. }
    cbn. rewrite at_thread_ne by done. destruct (Hf t' Hne).
    eapply (knows_frame s); eauto; cbn; lia.
  - intros t1 t2 q H1%Hp' H2%Hp'. eauto.
  - intros t1 t2 q H1%Ht' H2%Ht'. eauto.
Qed.

Lemma ring_inv_ext s s' put f : s ≡ s' -> ring_inv s put f -> ring_inv s' put f.
Proof.
  intros (Hs & He & HE & HD & Ht) [H1 H2 H3 H4 H5 H6 H7 H8 H9].
  split; rewrite <- ?HE, <- ?HD; try done.
  - intros q Hq. rewrite <- Hs, <- He. destruct (H5 q Hq) as [?|[t ?]]; [by left|].
    right. exists t. by rewrite <- Ht.
  - intros q Hq. rewrite <- Hs. destruct (H6 q Hq) as [?|[t ?]]; [by left|].
    right. exists t. by rewrite <- Ht.
  - intros t. rewrite <- Ht. apply (knows_frame s _ put _ f); rewrite <- ?HE, <- ?HD; try done.
    + lia.
    + intros q. by rewrite Hs.
    + intros q. by rewrite Hs.
  - intros t t' q. rewrite <- !Ht. apply H8.
  - intros t t' q. rewrite <- !Ht. apply H9.
Qed.

(** Ownership of the slots by the threads under way. *)
Lemma putting_seq s put f t q :
  ring_inv s put f -> putting (threads s t) q ->
  sequence s (ring_slot q) = q /\ 0 <= q < enqueue_pos s.
Proof.
  intros HI Hq. pose proof (ri_knows _ _ _ HI t) as HK.
  destruct (threads s t); try done; cbn in *; destruct_and!; split; try lia;
    match goal with H : forall q, _ <= q < _ -> _ /\ _ |- _ => by apply H end.
Qed.

Lemma taking_seq s put f t q :
  ring_inv s put f -> taking (threads s t) q ->
  sequence s (ring_slot q) = q + 1 /\ 0 <= q < dequeue_pos s.
Proof.
  intros HI Hq. pose proof (ri_knows _ _ _ HI t) as HK.
  destruct (threads s t); try done; cbn in *; destruct_and!; split; try lia;
    match goal with H : forall q, _ <= q < _ -> _ /\ _ |- _ => by apply H end.
Qed.

(** The sequence number of a slot, seen from any position of it. *)
Lemma full_below s put f q :
  ring_inv s put f -> dequeue_pos s <= q < dequeue_pos s + LIMIT ->
  sequence s (ring_slot q) = q + 1 ->
  q < enqueue_pos s /\ nth_put put q (entry s (ring_slot q)).
Proof.
  intros HI Hq Hs. destruct (decide (q < enqueue_pos s)) as [|].
  - split; [done|]. destruct (ri_full _ _ _ HI q) as [[_ ?]|[t Ht]]; [lia|done|].
    destruct (putting_seq _ _ _ _ _ HI Ht). lia.
  - destruct (ri_free _ _ _ HI q) as [?|[t Ht]]; [lia|lia|].
    destruct (taking_seq _ _ _ _ _ HI Ht) as [Hs' _].
    rewrite <- (ring_slot_shift (q - LIMIT) 1) in Hs'.
    replace (q - LIMIT + 1 * LIMIT) with q in Hs' by lia. lim.
Qed.

Lemma free_above s put f q :
  ring_inv s put f -> enqueue_pos s <= q < enqueue_pos s + LIMIT ->
  sequence s (ring_slot q) = q -> q < dequeue_pos s + LIMIT.
Proof.
  intros HI Hq Hs. destruct (decide (q < dequeue_pos s + LIMIT)) as [|]; [done|].
  assert (Hsl : ring_slot (q - LIMIT) = ring_slot q).
  { rewrite <- (ring_slot_shift (q - LIMIT) 1). f_equal. lia. }
  destruct (ri_full _ _ _ HI (q - LIMIT)) as [[Hs' _]|[t Ht]]; [lia| |].
  - rewrite Hsl in Hs'. lim.
  - destruct (putting_seq _ _ _ _ _ HI Ht) as [Hs' _]. rewrite Hsl in Hs'. lim.
Qed.

(** The four steps that hand over positions and slots. *)
Lemma inv_enqueue_cas s put f t es mx pos ready :
  ring_inv s put f -> threads s t = ECas es mx pos ready -> enqueue_pos s = pos ->
  let xs := take (Z.to_nat ready) es in
  exists f', fifo_step f (Put t xs) = Some f' /\
    ring_inv (rgoto t (EWrite es pos ready 0) (s <| enqueue_pos := pos + ready |>)) (put ++ xs) f'.
Proof.
  intros HI Ht HE xs. pose proof (ri_knows _ _ _ HI t) as HK. rewrite Ht in HK.
  destruct HK as (? & ? & ? & ? & Hpos & ? & Hscan).
  pose proof (ri_enq _ _ _ HI) as HEn. pose proof (ri_deq _ _ _ HI) as HDe.
  assert (Hxs : Z.of_nat (length xs) = ready) by (unfold xs; rewrite length_take; lia).
  assert (Hcap : pos + ready <= dequeue_pos s + LIMIT).
  { pose proof (free_above s put f (pos + ready - 1) HI ltac:(lia)) as HF.
    enough (pos + ready - 1 < dequeue_pos s + LIMIT) by lia. apply HF, Hscan; lia. }
  cbn [fifo_step]. rewrite (ri_items _ _ _ HI), length_app, length_drop.
  rewrite (proj2 (Z.leb_le _ _)) by lia. eexists. split; [done|].
  split; cbn [set_field set_r_enqueue_pos set_r_threads rgoto enqueue_pos dequeue_pos sequence
    entry threads items]; try lia.
  - rewrite length_app. lia.
  - by rewrite drop_app_le by lia.
  - intros q Hq. destruct (decide (q < enqueue_pos s)) as [Hlt|].
    + destruct (ri_full _ _ _ HI q) as [[? [? Hn]]|[t' Hp]]; [lia| |].
      * left. split; [done|]. split; [done|]. by apply lookup_app_l_Some.
      * right. exists t'. rewrite at_thread_ne; [done|]. intros ->. by rewrite Ht in Hp.
    + right. exists t. rewrite at_thread_eq. cbn. lia.
  - intros q Hq. destruct (ri_free _ _ _ HI q) as [?|[t' Hp]]; [lia|by left|].
    right. exists t'. rewrite at_thread_ne; [done|]. intros ->. by rewrite Ht in Hp.
  - intros t'. destruct (decide (t' = t)) as [->|Hne].
    + rewrite at_thread_eq. cbn. rewrite at_thread_eq. split_and!; try done; try lia.
      intros q Hq. split; [apply Hscan; lia|]. split; [lia|].
      rewrite lookup_app_r by lia. unfold xs. rewrite lookup_take_lt by lia.
      rewrite list_lookup_lookup_total_lt by lia. do 2 f_equal. lia.
    + rewrite at_thread_ne by done. apply (knows_frame s _ put _ f); cbn; try done; try lia.
      * apply HI.
      * by rewrite at_thread_ne.
      * by exists xs.
  - intros t1 t2 q. unfold at_thread. destruct (Nat.eqb_spec t1 t), (Nat.eqb_spec t2 t); cbn; try congruence.
    + intros ? H4. destruct (putting_seq _ _ _ _ _ HI H4). lia.
    + intros H4 ?. destruct (putting_seq _ _ _ _ _ HI H4). lia.
    + apply HI.
  - intros t1 t2 q. unfold at_thread. destruct (Nat.eqb_spec t1 t), (Nat.eqb_spec t2 t); cbn; try done.
    apply HI.
Qed.

Lemma inv_dequeue_cas s put f t mx pos ready :
  ring_inv s put f -> threads s t = DCas mx pos ready -> dequeue_pos s = pos ->
  exists f', fifo_step f (Take t ready) = Some f' /\
    ring_inv (rgoto t (DRead pos ready 0 []) (s <| dequeue_pos := pos + ready |>)) put f'.
Proof.
  intros HI Ht HD. pose proof (ri_knows _ _ _ HI t) as HK. rewrite Ht in HK.
  destruct HK as (? & ? & ? & Hpos & ? & Hscan).
  pose proof (ri_enq _ _ _ HI) as HEn. pose proof (ri_deq _ _ _ HI) as HDe.
  pose proof (ri_cap _ _ _ HI) as HCa.
  assert (Hfull : forall q, pos <= q < pos + ready ->
    q < enqueue_pos s /\ nth_put put q (entry s (ring_slot q))).
  { intros q Hq. apply (full_below s put f q HI); [lia|]. apply Hscan; lia. }
  destruct (Hfull (pos + ready - 1)) as [HlE _]; [lia|].
  cbn [fifo_step]. rewrite (ri_items _ _ _ HI), length_drop.
  rewrite (proj2 (Z.leb_le _ _)) by lia. eexists. split; [done|].
  split; cbn [set_field set_r_dequeue_pos set_r_threads rgoto enqueue_pos dequeue_pos sequence
    entry threads items]; try lia.
  - rewrite drop_drop. f_equal. lia.
  - intros q Hq. destruct (ri_full _ _ _ HI q) as [?|[t' Hp]]; [lia|by left|].
    right. exists t'. rewrite at_thread_ne; [done|]. intros ->. by rewrite Ht in Hp.
  - intros q Hq. destruct (decide (q < dequeue_pos s + LIMIT)).
    + destruct (ri_free _ _ _ HI q) as [?|[t' Hp]]; [lia|by left|].
      right. exists t'. rewrite at_thread_ne; [done|]. intros ->. by rewrite Ht in Hp.
    + right. exists t. rewrite at_thread_eq. cbn. lia.
  - intros t'. destruct (decide (t' = t)) as [->|Hne].
    + rewrite at_thread_eq. cbn. rewrite at_thread_eq, HD. split_and!; try done; try lia.
      intros q Hq. split; [apply Hscan; lia|]. apply Hfull. lia.
    + rewrite at_thread_ne by done. apply (knows_frame s _ put _ f); cbn; try done; try lia.
      * apply HI.
      * by rewrite at_thread_ne.
  - intros t1 t2 q. unfold at_thread. destruct (Nat.eqb_spec t1 t), (Nat.eqb_spec t2 t); cbn; try done.
    apply HI.
  - intros t1 t2 q. unfold at_thread. destruct (Nat.eqb_spec t1 t), (Nat.eqb_spec t2 t); cbn; try congruence.
    + intros ? H4. destruct (taking_seq _ _ _ _ _ HI H4). lia.
    + intros H4 ?. destruct (taking_seq _ _ _ _ _ HI H4). lia.
    + apply HI.
Qed.

(** A slot waiting for position [p] is not full, nor waiting for another. *)
Lemma waits_not_full (g : Z -> Z) p q :
  g (ring_slot p) = p -> g (ring_slot q) = q + 1 -> ring_slot q <> ring_slot p.
Proof.
  intros Hp Hq He. rewrite He, Hp in Hq. destruct (ring_slot_eq _ _ He) as [k Hk].
  pose proof (LIMIT_times k). lim.
Qed.

Lemma waits_other (g : Z -> Z) p q :
  g (ring_slot p) = p -> g (ring_slot q) = q -> q <> p -> ring_slot q <> ring_slot p.
Proof. congruence. Qed.

Lemma full_other (g : Z -> Z) p q :
  g (ring_slot p) = p + 1 -> g (ring_slot q) = q + 1 -> q <> p -> ring_slot q <> ring_slot p.
Proof. intros ? ? ? He. rewrite He in *. lia. Qed.

Lemma inv_write s put f t es pos ready i :
  ring_inv s put f -> threads s t = EWrite es pos ready i -> i < ready ->
  ring_inv (rgoto t (EPublish es pos ready i)
    (s <| entry := store (entry s) (ring_slot (pos + i)) (es !!! Z.to_nat i) |>)) put f.
Proof.
  intros HI Ht Hi. pose proof (ri_knows _ _ _ HI t) as HK. rewrite Ht in HK.
  destruct HK as (? & ? & ? & ? & HE & ? & ? & Hown).
  destruct (Hown (pos + i)) as [Hsq _]; [lia|].
  assert (Hsame : forall t' q, putting (at_thread (threads s) t (EPublish es pos ready i) t') q <->
                          putting (threads s t') q).
  { intros t' q. unfold at_thread. destruct (Nat.eqb_spec t' t) as [->|]; [|done]. by rewrite Ht. }
  assert (Hother : forall t' q, t' <> t -> putting (threads s t') q -> q <> pos + i).
  { intros t' q Hne Hp ->. apply Hne, (ri_put_once _ _ _ HI t' t (pos + i) Hp). rewrite Ht. cbn. lia. }
  split; cbn [set_field set_r_entry set_r_threads rgoto enqueue_pos dequeue_pos sequence
    entry threads items]; try apply HI.
  - intros q Hq. destruct (ri_full _ _ _ HI q Hq) as [[Hs Hn]|[t' Hp]].
    + left. split; [done|]. rewrite store_ne; [done|]. by eapply waits_not_full.
    + right. exists t'. by apply Hsame.
  - intros q Hq. destruct (ri_free _ _ _ HI q Hq) as [?|[t' Hp]]; [by left|right; exists t'].
    rewrite at_thread_ne; [done|]. intros ->. by rewrite Ht in Hp.
  - intros t'. destruct (decide (t' = t)) as [->|Hne].
    + rewrite at_thread_eq. cbn. rewrite store_eq. split_and!; try done; lia.
    + rewrite at_thread_ne by done. apply (knows_frame s _ put _ f); cbn; try apply HI; try done.
      * intros q Hq _. rewrite store_ne; [done|]. by eapply waits_not_full.
      * intros q Hq Hp. rewrite store_ne; [done|]. eapply waits_other; eauto.
  - intros t1 t2 q Ha%Hsame Hb%Hsame. by eapply HI.
  - intros t1 t2 q. unfold at_thread. destruct (Nat.eqb_spec t1 t), (Nat.eqb_spec t2 t); cbn; try done.
    apply HI.
Qed.

Lemma inv_publish s put f t es pos ready i :
  ring_inv s put f -> threads s t = EPublish es pos ready i ->
  ring_inv (rgoto t (EWrite es pos ready (i + 1))
    (s <| sequence := store (sequence s) (ring_slot (pos + i)) (pos + i + 1) |>)) put f.
Proof.
  intros HI Ht. pose proof (ri_knows _ _ _ HI t) as HK. rewrite Ht in HK.
  destruct HK as (? & ? & ? & ? & HE & ? & ? & Hen & Hown).
  destruct (Hown (pos + i)) as [Hsq Hn]; [lia|].
  assert (Hother : forall t' q, t' <> t -> putting (threads s t') q -> q <> pos + i).
  { intros t' q Hne Hp ->. apply Hne, (ri_put_once _ _ _ HI t' t (pos + i) Hp). rewrite Ht. cbn. lia. }
  assert (Hwas : forall t' q, putting (at_thread (threads s) t (EWrite es pos ready (i + 1)) t') q ->
                         putting (threads s t') q).
  { intros t' q. unfold at_thread. destruct (Nat.eqb_spec t' t) as [->|]; [|done].
    rewrite Ht. cbn. lia. }
  split; cbn [set_field set_r_sequence set_r_threads rgoto enqueue_pos dequeue_pos sequence
    entry threads items]; try apply HI.
  - intros q Hq. destruct (ri_full _ _ _ HI q Hq) as [[Hs Hn']|[t' Hp]].
    + left. split; [|done]. rewrite store_ne; [done|]. by eapply waits_not_full.
    + destruct (decide (q = pos + i)) as [->|Hne].
      { left. rewrite store_eq. split; [done|]. rewrite Hen.
        replace (pos + i - pos) with i in Hn by lia. done. }
      right. exists t'. unfold at_thread. destruct (Nat.eqb_spec t' t) as [->|]; [|done].
      rewrite Ht in Hp. cbn in *. lia.
  - intros q Hq. destruct (ri_free _ _ _ HI q Hq) as [Hs|[t' Hp]].
    + left. rewrite store_ne; [done|]. eapply waits_other; eauto. lia.
    + right. exists t'. rewrite at_thread_ne; [done|]. intros ->. by rewrite Ht in Hp.
  - intros t'. destruct (decide (t' = t)) as [->|Hne].
    + rewrite at_thread_eq. cbn. split_and!; try done; try lia.
      intros q Hq. destruct (Hown q) as [Hs ?]; [lia|]. split; [|done].
      rewrite store_ne; [done|]. eapply waits_other; eauto. lia.
    + rewrite at_thread_ne by done. apply (knows_frame s _ put _ f); cbn; try apply HI; try done.
      * intros q Hq Hw. rewrite store_ne; [done|]. eapply waits_other; eauto.
        destruct Hw; [lia|]. eauto.
      * intros q Hq _. rewrite store_ne; [done|]. by eapply waits_not_full.
  - intros t1 t2 q Ha%Hwas Hb%Hwas. by eapply HI.
  - intros t1 t2 q. unfold at_thread. destruct (Nat.eqb_spec t1 t), (Nat.eqb_spec t2 t); cbn; try done.
    apply HI.
Qed.

Lemma inv_release s put f t pos ready i got :
  ring_inv s put f -> threads s t = DRelease pos ready i got ->
  ring_inv (rgoto t (DRead pos ready (i + 1) got)
    (s <| sequence := store (sequence s) (ring_slot (pos + i)) (pos + i + LIMIT) |>)) put f.
Proof.
  intros HI Ht. pose proof (ri_knows _ _ _ HI t) as HK. rewrite Ht in HK.
  destruct HK as (? & ? & ? & HD & ? & ? & ? & Hown).
  destruct (Hown (pos + i)) as [Hsq Hn]; [lia|].
  assert (Hother : forall t' q, t' <> t -> taking (threads s t') q -> q <> pos + i).
  { intros t' q Hne Hp ->. apply Hne, (ri_take_once _ _ _ HI t' t (pos + i) Hp). rewrite Ht. cbn. lia. }
  assert (Hwas : forall t' q, taking (at_thread (threads s) t (DRead pos ready (i + 1) got) t') q ->
                         taking (threads s t') q).
  { intros t' q. unfold at_thread. destruct (Nat.eqb_spec t' t) as [->|]; [|done].
    rewrite Ht. cbn. lia. }
  assert (Hslot : forall q, q - LIMIT = pos + i -> ring_slot q = ring_slot (pos + i)).
  { intros q Hq. rewrite <- (ring_slot_shift (pos + i) 1). f_equal. lia. }
  split; cbn [set_field set_r_sequence set_r_threads rgoto enqueue_pos dequeue_pos sequence
    entry threads items]; try apply HI.
  - intros q Hq. destruct (ri_full _ _ _ HI q Hq) as [[Hs Hn']|[t' Hp]].
    + left. split; [|done]. rewrite store_ne; [done|]. eapply full_other; eauto. lia.
    + right. exists t'. rewrite at_thread_ne; [done|]. intros ->. by rewrite Ht in Hp.
  - intros q Hq. destruct (decide (q - LIMIT = pos + i)) as [He|Hne].
    { left. rewrite (Hslot q He), store_eq. lia. }
    destruct (ri_free _ _ _ HI q Hq) as [Hs|[t' Hp]].
    + left. rewrite store_ne; [done|]. intros He. symmetry in He. revert He.
      by eapply waits_not_full.
    + right. exists t'. unfold at_thread. destruct (Nat.eqb_spec t' t) as [->|]; [|done].
      rewrite Ht in Hp. cbn in *. lia.
  - intros t'. destruct (decide (t' = t)) as [->|Hne].
    + rewrite at_thread_eq. cbn. split_and!; try done; try lia.
      intros q Hq. destruct (Hown q) as [Hs ?]; [lia|]. split; [|done].
      rewrite store_ne; [done|]. eapply full_other; eauto. lia.
    + rewrite at_thread_ne by done. apply (knows_frame s _ put _ f); cbn; try apply HI; try done.
      * intros q Hq Hw. rewrite store_ne; [done|]. intros He. symmetry in He. revert He.
        by eapply waits_not_full.
      * intros q Hq Hw. rewrite store_ne; [done|]. eapply full_other; eauto.
        destruct Hw; [lia|]. eauto.
  - intros t1 t2 q. unfold at_thread. destruct (Nat.eqb_spec t1 t), (Nat.eqb_spec t2 t); cbn; try done.
    apply HI.
  - intros t1 t2 q Ha%Hwas Hb%Hwas. by eapply (ri_take_once _ _ _ HI).
Qed.

(** Every slot is in use by one of the [LIMIT] positions from [dequeue_pos] on. *)
Lemma seq_cases s put f p :
  ring_inv s put f -> dequeue_pos s <= p < dequeue_pos s + LIMIT ->
  let x := sequence s (ring_slot p) in
  x = p \/ (x = p + 1 /\ p < enqueue_pos s) \/ (x = p - LIMIT + 1 /\ enqueue_pos s <= p /\ LIMIT <= p).
Proof.
  intros HI Hp x. destruct (decide (p < enqueue_pos s)).
  - destruct (ri_full _ _ _ HI p) as [[? _]|[t Ht]]; [lia|tauto|].
    left. eapply putting_seq; eauto.
  - destruct (ri_free _ _ _ HI p) as [?|[t Ht]]; [lia|by left|].
    destruct (taking_seq _ _ _ _ _ HI Ht) as [Hs ?].
    rewrite <- (ring_slot_shift (p - LIMIT) 1) in Hs.
    replace (p - LIMIT + 1 * LIMIT) with p in Hs by lia. right. right. subst x. lia.
Qed.

Lemma seq_range s put f p :
  ring_inv s put f -> 0 <= sequence s (ring_slot p) <= enqueue_pos s + LIMIT.
Proof.
  intros HI. set (D := dequeue_pos s).
  assert (exists k, D <= p + k * LIMIT < D + LIMIT) as [k Hk].
  { exists (- ((p - D) / LIMIT)). pose proof LIMIT_range.
    pose proof (Z.div_mod (p - D) LIMIT). pose proof (Z.mod_pos_bound (p - D) LIMIT). lia. }
  rewrite <- (ring_slot_shift p k). pose proof (ri_deq _ _ _ HI). fold D in H.
  destruct (seq_cases s put f (p + k * LIMIT) HI Hk) as [->|[[-> ?]|(-> & ? & ?)]];
    lim.
Qed.

(** The loops count exactly the slots whose number is the one they look for. *)
Lemma scan_diff s put f p x :
  ring_inv s put f -> enqueue_pos s <= MAX_POS -> 0 <= x <= MAX_POS + 2 * LIMIT ->
  s64 (sequence s (ring_slot p)) - s64 x = sequence s (ring_slot p) - x.
Proof.
  intros HI HE Hx. pose proof (seq_range s put f p HI). rewrite !s64_pos; [done| |]; lim.
Qed.

(** A step without effect on the queue. *)
Lemma inv_silent s put f t st :
  ring_inv s put f ->
  (forall q, putting st q <-> putting (threads s t) q) ->
  (forall q, taking st q <-> taking (threads s t) q) ->
  knows s put f t st ->
  exists f', fifo_all f [] = Some f' /\ ring_inv (rgoto t st s) (put ++ put_entries []) f'.
Proof. intros. exists f. split; [done|]. cbn. rewrite app_nil_r. by eapply inv_local. Qed.

(** The end of the counting loop of either call. *)
Lemma knows_counted s put f t es mx pos ready :
  knows s put f t (EScan es mx pos ready) -> knows s put f t (enqueue_counted es mx pos ready).
Proof.
  unfold enqueue_counted. intros (? & ? & ? & ? & ? & ? & ?).
  destruct (Z.eqb_spec ready 0); cbn; [done|]. split_and!; try done; lia.
Qed.

Lemma knows_dcounted s put f t mx pos ready :
  knows s put f t (DScan mx pos ready) -> knows s put f t (dequeue_counted mx pos ready).
Proof.
  unfold dequeue_counted. intros (? & ? & ? & ? & ? & ?).
  destruct (Z.eqb_spec ready 0); cbn; [done|]. split_and!; try done; lia.
Qed.

Lemma knows_ready s put f t es mx pos ready :
  knows s put f t (EScan es mx pos ready) -> ready < mx ->
  sequence s (ring_slot (pos + ready)) = pos + ready ->
  knows s put f t (EScan es mx pos (ready + 1)).
Proof.
  cbn. intros (? & ? & ? & ? & ? & ? & Hq) ? Hr. split_and!; try done; try lia.
  intros q ? ?. destruct (decide (q = pos + ready)) as [->|]; [done|]. apply Hq; lia.
Qed.

Lemma knows_dready s put f t mx pos ready :
  knows s put f t (DScan mx pos ready) -> ready < mx ->
  sequence s (ring_slot (pos + ready)) = pos + ready + 1 ->
  knows s put f t (DScan mx pos (ready + 1)).
Proof.
  cbn. intros (? & ? & ? & ? & ? & Hq) ? Hr. split_and!; try done; try lia.
  intros q ? ?. destruct (decide (q = pos + ready)) as [->|]; [done|]. apply Hq; lia.
Qed.

Lemma inv_enqueue_step s put f t weak s' new :
  ring_inv s put f -> enqueue_step s t weak = (s', new) ->
  Z.of_nat (length (put ++ put_entries new)) <= MAX_POS ->
  exists f', fifo_all f new = Some f' /\ ring_inv s' (put ++ put_entries new) f'.
Proof.
  intros HI Hstep HB. pose proof (ri_knows _ _ _ HI t) as HK.
  pose proof (ri_enq _ _ _ HI) as HE. pose proof (ri_deq _ _ _ HI) as HD.
  assert (HEB : enqueue_pos s <= MAX_POS) by (rewrite length_app in HB; lia).
  assert (Hid : s = s' /\ new = [] -> exists f', fifo_all f new = Some f' /\ ring_inv s' (put ++ put_entries new) f').
  { intros [<- ->]. exists f. cbn. by rewrite app_nil_r. }
  unfold enqueue_step in Hstep.
  destruct (threads s t) as [|es mx|es mx pos ready|es mx pos ready|es pos ready i|es pos ready i|n
    | | | | | |] eqn:Ht; try (apply Hid; by simplify_eq).
  - simplify_eq. apply inv_silent; rewrite ?Ht; try done. cbn in *. destruct_and!. split_and!; try done; lia.
  - pose proof HK as (? & ? & ? & ? & ? & ? & Hq).
    assert (Hcount : exists f', fifo_all f [] = Some f' /\
      ring_inv (rgoto t (enqueue_counted es mx pos ready) s) (put ++ put_entries []) f').
    { apply inv_silent; rewrite ?Ht; try apply (knows_counted s); try done;
        unfold enqueue_counted; by case_if. }
    destruct (ready <? mx) eqn:Hr; bool_prop; [|by simplify_eq].
    rewrite u64_pos, (scan_diff s put f) in Hstep by (lim || done).
    repeat case_if; bool_prop; simplify_eq; try done; apply inv_silent; rewrite ?Ht; try done.
    apply knows_ready; try done. lia.
  - pose proof HK as (? & ? & ? & ? & ? & ? & Hq). case_if; bool_prop; simplify_eq.
    + apply inv_silent; rewrite ?Ht; try done. cbn. split_and!; try done; lia.
    + rewrite u64_pos by (lim).
      destruct (inv_enqueue_cas s put f t es mx _ ready HI Ht) as (f' & Hf & ?); [done|].
      exists f'. unfold fifo_all, put_entries. cbn [foldl mbind list_bind option_bind app]. rewrite Hf, app_nil_r. done.
  - pose proof HK as (? & ? & ? & ? & ? & ? & ? & Hq). case_if; bool_prop; simplify_eq.
    + exists f. split; [done|]. cbn [put_entries]. rewrite app_nil_r, u64_pos by (lim).
      by apply inv_write.
    + by apply inv_silent; rewrite ?Ht; cbn; auto with lia.
  - pose proof HK as (? & ? & ? & ? & ? & ? & ? & ? & Hq). simplify_eq.
    exists f. split; [done|]. cbn [put_entries]. rewrite app_nil_r, !u64_pos by (lim).
    by apply inv_publish.
  - simplify_eq. cbn in HK. destruct HK as [Hn Htk]. eexists.
    unfold fifo_all, put_entries. cbn [foldl fifo_step mbind list_bind option_bind app].
    rewrite Hn, Z.eqb_refl. split; [done|].
    rewrite app_nil_r. apply (inv_local s put f); rewrite ?Ht; try done.
    + intros t' Ht'. cbn. by rewrite at_thread_ne.
    + cbn. by rewrite at_thread_eq.
Qed.

Lemma inv_dequeue_step s put f t weak s' new :
  ring_inv s put f -> dequeue_step s t weak = (s', new) ->
  Z.of_nat (length (put ++ put_entries new)) <= MAX_POS ->
  exists f', fifo_all f new = Some f' /\ ring_inv s' (put ++ put_entries new) f'.
Proof.
  intros HI Hstep HB. pose proof (ri_knows _ _ _ HI t) as HK.
  pose proof (ri_enq _ _ _ HI) as HE. pose proof (ri_deq _ _ _ HI) as HD.
  assert (HEB : enqueue_pos s <= MAX_POS) by (rewrite length_app in HB; lia).
  assert (Hid : s = s' /\ new = [] -> exists f', fifo_all f new = Some f' /\ ring_inv s' (put ++ put_entries new) f').
  { intros [<- ->]. exists f. cbn. by rewrite app_nil_r. }
  unfold dequeue_step in Hstep.
  destruct (threads s t) as [| | | | | | |mx|mx pos ready|mx pos ready|pos ready i got
    |pos ready i got|got] eqn:Ht; try (apply Hid; by simplify_eq).
  - simplify_eq. apply inv_silent; rewrite ?Ht; try done. cbn in *. destruct_and!. split_and!; try done; lia.
  - pose proof HK as (? & ? & ? & ? & ? & Hq).
    assert (Hcount : exists f', fifo_all f [] = Some f' /\
      ring_inv (rgoto t (dequeue_counted mx pos ready) s) (put ++ put_entries []) f').
    { apply inv_silent; rewrite ?Ht; try apply (knows_dcounted s); try done;
        unfold dequeue_counted; by case_if. }
    destruct (ready <? mx) eqn:Hr; bool_prop; [|by simplify_eq].
    rewrite !u64_pos, (scan_diff s put f) in Hstep by (lim || done).
    repeat case_if; bool_prop; simplify_eq; try done; apply inv_silent; rewrite ?Ht; try done.
    apply knows_dready; try done. lia.
  - pose proof HK as (? & ? & ? & ? & ? & Hq). case_if; bool_prop; simplify_eq.
    + apply inv_silent; rewrite ?Ht; try done. cbn. split_and!; try done; lia.
    + rewrite u64_pos by (lim).
      destruct (inv_dequeue_cas s put f t mx _ ready HI Ht) as (f' & Hf & ?); [done|].
      exists f'. unfold fifo_all, put_entries. cbn [foldl mbind list_bind option_bind app]. rewrite Hf, app_nil_r. done.
  - pose proof HK as (? & ? & ? & ? & ? & Htk & Hgot & Hq). case_if; bool_prop; simplify_eq.
    + rewrite u64_pos by (lim). apply inv_silent; rewrite ?Ht; try done.
      cbn [knows]. split_and!; try done; try lia.
      destruct (Hq (pos + i)) as [_ [_ Hn]]; [lia|].
      rewrite Z2Nat.inj_add, Nat.add_1_r by lia. symmetry. apply take_S_r. rewrite Htk.
      rewrite lookup_take_lt, lookup_drop by lia. rewrite <- Hn. f_equal. lia.
    + apply inv_silent; rewrite ?Ht; try done; cbn; try lia. split; [done|].
      rewrite take_ge; [done|]. rewrite Htk, length_take. lia.
  - pose proof HK as (? & ? & ? & ? & ? & ? & ? & Hq). simplify_eq.
    exists f. split; [done|]. cbn [put_entries]. rewrite app_nil_r, !u64_pos by (lim).
    by apply inv_release.
  - simplify_eq. cbn in HK. destruct HK as [Hn Htk]. eexists.
    unfold fifo_all, put_entries. cbn [foldl fifo_step mbind list_bind option_bind app].
    rewrite decide_True by done. split; [done|].
    rewrite app_nil_r. apply (inv_local s put f); rewrite ?Ht; try done.
    + intros t' Ht'. cbn. by rewrite at_thread_ne.
    + cbn. by rewrite at_thread_eq.
Qed.

Lemma inv_ring_step s put f t weak s' new :
  ring_inv s put f -> ring_step s t weak = (s', new) ->
  Z.of_nat (length (put ++ put_entries new)) <= MAX_POS ->
  exists f', fifo_all f new = Some f' /\ ring_inv s' (put ++ put_entries new) f'.
Proof.
  unfold ring_step. intros HI Hs. revert Hs.
  destruct (threads s t); eauto using inv_enqueue_step, inv_dequeue_step.
Qed.

Lemma put_entries_app a b : put_entries (a ++ b) = put_entries a ++ put_entries b.
Proof. apply bind_app. Qed.

Lemma fifo_all_app f a b f' :
  fifo_all f a = Some f' -> fifo_all f (a ++ b) = fifo_all f' b.
Proof. unfold fifo_all. rewrite foldl_app. by intros ->. Qed.

(** Runs from a state that holds the entries [start]. *)
Context (s0 : ring) (start : list Z) (Hs0 : ring_inv s0 start (fifo_start start)).

Definition total (evs : list revent) : list Z := start ++ put_entries evs.

Lemma total_app a b : total (a ++ b) = total a ++ put_entries b.
Proof. unfold total. by rewrite put_entries_app, app_assoc. Qed.

Lemma inv_run evs s :
  run s0 evs s -> Z.of_nat (length (total evs)) <= MAX_POS ->
  exists f, fifo_run start evs = Some f /\ ring_inv s (total evs) f.
Proof.
  induction 1 as [|evs s t es Hr IH Hidle|evs s t mx Hr IH Hidle Hmx|evs s t weak s' new Hr IH Hs];
    intros HB.
  - eexists. split; [done|]. unfold total. cbn. by rewrite app_nil_r.
  - destruct (IH HB) as (f & Hf & HI). exists f. split; [done|].
    pose proof (ri_knows _ _ _ HI t) as HK. rewrite Hidle in HK. cbn in HK.
    apply (inv_local s _ f); rewrite ?Hidle; try done; unfold enqueue_call;
      repeat case_if; bool_prop; cbn; try done; split_and!; try apply HK; lim.
  - destruct (IH HB) as (f & Hf & HI). exists f. split; [done|].
    pose proof (ri_knows _ _ _ HI t) as HK. rewrite Hidle in HK. cbn in HK.
    apply (inv_local s _ f); rewrite ?Hidle; try done; unfold dequeue_call;
      repeat case_if; bool_prop; cbn; try done; split_and!; try apply HK; lim.
  - rewrite total_app in *. destruct IH as (f & Hf & HI); [rewrite length_app in HB; lia|].
    destruct (inv_ring_step s (total evs) f t weak s' new HI Hs HB) as (f' & Hf' & HI').
    exists f'. split; [|done]. by rewrite <- Hf', <- (fifo_all_app _ _ _ _ Hf).
Qed.

(** *** A thread running alone *)

(** [k] steps of thread [t], none of the others. *)
Fixpoint solo (k : nat) (t : nat) (s : ring) : ring * list revent :=
  match k with
  | O => (s, [])
  | S k =>
      let '(s1, new1) := ring_step s t false in
      let '(s2, new2) := solo k t s1 in (s2, new1 ++ new2)
  end.

(** Steps a call needs at most.  A position read before others moved on costs a
    second count. *)
Definition steps_left (s : ring) (t : nat) : Z :=
  match threads s t with
  | RIdle => 0
  | EReturn _ | DReturn _ => 1
  | EWrite _ _ ready i | DRead _ ready i _ => 2 * (ready - i) + 2
  | EPublish _ _ ready i | DRelease _ ready i _ => 2 * (ready - i) + 1
  | ECas _ _ pos ready => if pos =? enqueue_pos s then 2 * ready + 3 else 3 * LIMIT + 6
  | DCas _ pos ready => if pos =? dequeue_pos s then 2 * ready + 3 else 3 * LIMIT + 6
  | EScan _ mx pos ready => mx - ready + if pos =? enqueue_pos s then 2 * LIMIT + 5 else 3 * LIMIT + 8
  | DScan mx pos ready => mx - ready + if pos =? dequeue_pos s then 2 * LIMIT + 5 else 3 * LIMIT + 8
  | ELoad _ _ | DLoad _ => 3 * LIMIT + 6
  end.

Lemma enqueue_not_stale s put f ready :
  ring_inv s put f -> 0 <= ready < LIMIT ->
  let q := enqueue_pos s + ready in sequence s (ring_slot q) <= q.
Proof.
  intros HI Hr q. pose proof (ri_deq _ _ _ HI). pose proof (ri_cap _ _ _ HI).
  destruct (decide (q < dequeue_pos s + LIMIT)).
  - pose proof (seq_cases s put f q HI ltac:(lia)). lim.
  - pose proof (seq_cases s put f (q - LIMIT) HI ltac:(lia)) as Hc. cbv zeta in Hc.
    rewrite <- (ring_slot_shift (q - LIMIT) 1) in Hc.
    replace (q - LIMIT + 1 * LIMIT) with q in Hc by lia. lim.
Qed.

Lemma dequeue_not_stale s put f ready :
  ring_inv s put f -> 0 <= ready < LIMIT ->
  let q := dequeue_pos s + ready in sequence s (ring_slot q) <= q + 1.
Proof.
  intros HI Hr q. pose proof (seq_cases s put f q HI ltac:(lia)). lim.
Qed.

Lemma solo_step_decreases s put f t :
  ring_inv s put f -> enqueue_pos s <= MAX_POS -> threads s t <> RIdle ->
  0 <= steps_left (ring_step s t false).1 t < steps_left s t.
Proof.
  intros HI HE Hbusy. pose proof (ri_knows _ _ _ HI t) as HK. pose proof (ri_deq _ _ _ HI) as HD.
  unfold ring_step, enqueue_step, dequeue_step, enqueue_counted, dequeue_counted, steps_left.
  destruct (threads s t) eqn:Ht; try done; cbn [knows] in HK; destruct_and?;
    repeat (rewrite u64_pos by (lim));
    rewrite ?(scan_diff s put f) by (done || lim);
    repeat (case_if; bool_prop); cbn; rewrite ?at_thread_eq; try lim;
    repeat (case_if; bool_prop); try lia.
  - pose proof (enqueue_not_stale s put f ready HI ltac:(lim)). subst. cbv zeta in *. lia.
  - pose proof (dequeue_not_stale s put f ready HI ltac:(lim)). subst. cbv zeta in *. lia.
Qed.

#[export] Instance rstate_eq_dec : EqDecision rstate.
Proof. solve_decision. Defined.

(** A call that has not claimed positions yet may still need some. *)
Definition may_claim (st : rstate) : bool :=
  match st with ELoad _ _ | EScan _ _ _ _ | ECas _ _ _ _ => true | _ => false end.

Definition room (s : ring) (t : nat) (put : list Z) : Prop :=
  Z.of_nat (length put) + (if may_claim (threads s t) then LIMIT else 0) <= MAX_POS.

Lemma solo_step_room s put f t :
  ring_inv s put f -> room s t put ->
  room (ring_step s t false).1 t (put ++ put_entries (ring_step s t false).2).
Proof.
  intros HI. pose proof (ri_knows _ _ _ HI t) as HK. unfold room, ring_step.
  destruct (threads s t) eqn:Ht; unfold enqueue_step, dequeue_step, enqueue_counted, dequeue_counted;
    rewrite Ht; cbn [knows] in HK; cbn [may_claim]; intros HR; repeat case_if;
    cbn; rewrite ?at_thread_eq, ?Ht, ?app_nil_r; cbn; try done;
    repeat match goal with H : may_claim _ = true |- _ => cbn in H; rewrite ?at_thread_eq, ?Ht in H end;
    try discriminate; destruct_and?; rewrite ?length_app, ?length_take; lim.
Qed.

(** Whatever a step of the thread preserves holds at the end of its call. *)
Lemma solo_ends (P : list revent -> ring -> Prop) t :
  (forall evs s, P evs s -> threads s t <> RIdle ->
     P (evs ++ (ring_step s t false).2) (ring_step s t false).1 /\
     0 <= steps_left (ring_step s t false).1 t < steps_left s t) ->
  forall n evs s, P evs s -> 0 <= steps_left s t <= Z.of_nat n ->
  exists k s' new, (k <= n)%nat /\ solo k t s = (s', new) /\ threads s' t = RIdle /\ P (evs ++ new) s'.
Proof.
  intros HP n. induction n as [|n IH]; intros evs s Hs Hn;
    (destruct (decide (threads s t = RIdle)) as [Hi|Hb];
      [exists 0%nat, s, []; rewrite app_nil_r; split_and!; [lia|done..]|]);
    destruct (HP _ _ Hs Hb) as [Hs' Hd]; [lia|].
  destruct (IH _ _ Hs' ltac:(lia)) as (k & s' & new & Hk & Hrun & Hi & Hend).
  exists (S k), s', ((ring_step s t false).2 ++ new). split_and!; try done; [lia| |].
  - cbn. destruct (ring_step s t false). cbn in *. by rewrite Hrun.
  - by rewrite app_assoc.
Qed.

Lemma steps_left_bound s put f t : ring_inv s put f -> 0 <= steps_left s t <= 4 * LIMIT + 8.
Proof.
  intros HI. pose proof (ri_knows _ _ _ HI t) as HK. unfold steps_left.
  destruct (threads s t); cbn [knows] in HK; repeat case_if; lim.
Qed.

(** What holds of a state in which the thread runs alone. *)
Definition sound (evs : list revent) (s : ring) (t : nat) : Prop :=
  exists f, fifo_run start evs = Some f /\ ring_inv s (total evs) f /\ room s t (total evs).

Lemma sound_step evs s t :
  sound evs s t -> threads s t <> RIdle ->
  sound (evs ++ (ring_step s t false).2) (ring_step s t false).1 t /\
  0 <= steps_left (ring_step s t false).1 t < steps_left s t.
Proof.
  intros (f & Hf & HI & HR) Hb. pose proof (solo_step_room _ _ _ _ HI HR) as HR'.
  assert (HE : enqueue_pos s <= MAX_POS).
  { rewrite (ri_enq _ _ _ HI). unfold room in HR. case_if; lim. }
  split; [|by eapply solo_step_decreases].
  destruct (ring_step s t false) as [s' new] eqn:Hs. cbn [fst snd] in *.
  destruct (inv_ring_step s _ f t false s' new HI Hs) as (f' & Hf' & HI').
  { unfold room in HR'. destruct (may_claim _); lim. }
  exists f'. unfold fifo_run in *. rewrite total_app, (fifo_all_app _ _ _ _ Hf). done.
Qed.

Lemma run_sound evs s t :
  run s0 evs s -> Z.of_nat (length (total evs)) + LIMIT <= MAX_POS -> sound evs s t.
Proof.
  intros Hr HB. destruct (inv_run evs s Hr) as (f & Hf & HI); [lim|].
  exists f. split_and!; try done. unfold room. case_if; lim.
Qed.

(** The progress of a batch while all other threads are idle; [n] slots will be
    moved. *)
Definition putting_alone (evs0 : list revent) (es : list Z) (E n : Z) (t : nat)
    (evs : list revent) (s : ring) : Prop :=
  let done := if n =? 0 then evs0 else evs0 ++ [Put t (take (Z.to_nat n) es)] in
  let mx := Z.min (Z.of_nat (length es)) LIMIT in
  n = Z.min mx (dequeue_pos s + LIMIT - E) /\
  match threads s t with
  | RIdle => evs = done ++ [PutReturn t n]
  | ELoad es' mx' => es' = es /\ mx' = mx /\ enqueue_pos s = E /\ evs = evs0
  | EScan es' mx' pos ready =>
      es' = es /\ mx' = mx /\ enqueue_pos s = E /\ evs = evs0 /\ pos = E /\ ready <= n
  | ECas es' mx' pos ready =>
      es' = es /\ mx' = mx /\ enqueue_pos s = E /\ evs = evs0 /\ pos = E /\ ready = n
  | EWrite _ _ ready _ | EPublish _ _ ready _ => ready = n /\ 0 < n /\ evs = done
  | EReturn r => r = n /\ evs = done
  | _ => False
  end.

Definition taking_alone (evs0 : list revent) (mx0 D n : Z) (t : nat)
    (evs : list revent) (s : ring) : Prop :=
  let done := if n =? 0 then evs0 else evs0 ++ [Take t n] in
  let mx := Z.min mx0 LIMIT in
  let xs := take (Z.to_nat n) (drop (Z.to_nat D) (total evs0)) in
  n = Z.min mx (enqueue_pos s - D) /\
  match threads s t with
  | RIdle => evs = done ++ [TakeReturn t xs]
  | DLoad mx' => mx' = mx /\ dequeue_pos s = D /\ evs = evs0
  | DScan mx' pos ready => mx' = mx /\ dequeue_pos s = D /\ evs = evs0 /\ pos = D /\ ready <= n
  | DCas mx' pos ready => mx' = mx /\ dequeue_pos s = D /\ evs = evs0 /\ pos = D /\ ready = n
  | DRead pos ready _ _ | DRelease pos ready _ _ => pos = D /\ ready = n /\ 0 < n /\ evs = done
  | DReturn got => got = xs /\ evs = done
  | _ => False
  end.

Definition others_idle (s : ring) (t : nat) : Prop := forall t', t' <> t -> threads s t' = RIdle.

Lemma others_idle_step s t weak : others_idle s t -> others_idle (ring_step s t weak).1 t.
Proof.
  intros Ho t' Hne. unfold ring_step, enqueue_step, dequeue_step.
  destruct (threads s t); repeat case_if; cbn; rewrite ?at_thread_ne by done; by apply Ho.
Qed.

Lemma putting_alone_step evs0 es E n t evs s :
  sound evs s t -> others_idle s t -> putting_alone evs0 es E n t evs s -> threads s t <> RIdle ->
  putting_alone evs0 es E n t (evs ++ (ring_step s t false).2) (ring_step s t false).1.
Proof.
  intros (f & _ & HI & HR) Ho [Hn HP] Hb. pose proof (ri_knows _ _ _ HI t) as HK.
  pose proof (ri_enq _ _ _ HI) as HE. pose proof (ri_deq _ _ _ HI) as HD.
  pose proof (ri_cap _ _ _ HI) as HC.
  assert (HB : enqueue_pos s <= MAX_POS) by (unfold room in HR; destruct (may_claim _); lim).
  assert (Hn' : n <= Z.min (Z.min (Z.of_nat (length es)) LIMIT) (dequeue_pos s + LIMIT - E) <= n) by lia. clear Hn.
  unfold ring_step, enqueue_step, enqueue_counted, putting_alone.
  destruct (threads s t) eqn:Ht; try done; cbn [knows] in HK; destruct_and?; simplify_eq.
  - cbn. rewrite at_thread_eq, app_nil_r. split_and!; try done; lim.
  - set (q := enqueue_pos s + ready).
    assert (Hfree : ready < n <-> ready < Z.min (Z.of_nat (length es)) LIMIT /\ sequence s (ring_slot q) = q).
    { split.
      - intros Hlt. split; [lia|]. destruct (ri_free _ _ _ HI q) as [?|[t' Ht']]; [subst q; lia|done|].
        destruct (decide (t' = t)) as [->|]; [by rewrite Ht in Ht'|by rewrite Ho in Ht'].
      - intros [? Hq]. pose proof (free_above s _ f q HI). subst q. lia. }
    repeat (rewrite u64_pos by (lim)).
    rewrite ?(scan_diff s _ f) by (done || lim).
    assert (Hst : ready < LIMIT -> sequence s (ring_slot q) <= q).
    { intros. by eapply enqueue_not_stale. }
    fold q. destruct (Z.ltb_spec ready (Z.min (Z.of_nat (length es)) LIMIT)); [|];
      [destruct (Z.eqb_spec (sequence s (ring_slot q) - q) 0);
       [|rewrite (proj2 (Z.ltb_ge _ _)) by lia]|]; cbn; rewrite at_thread_eq, app_nil_r; [|..].
    + split_and!; try done; lia.
    + destruct (Z.eqb_spec ready 0); [|split_and!; try done; lia].
      replace n with 0 by lia. cbn. split_and!; try done. lia.
    + destruct (Z.eqb_spec ready 0); split_and!; try done; lia.
  - rewrite Z.eqb_refl. cbn. rewrite at_thread_eq. split_and!; try done; [lia|].
    by rewrite (proj2 (Z.eqb_neq _ _)) by lia.
  - match goal with |- context [i <? ?x] => destruct (Z.ltb_spec i x) end; cbn; rewrite at_thread_eq, app_nil_r; split_and!; try done; lia.
  - cbn. rewrite at_thread_eq, app_nil_r. split_and!; try done; lia.
  - cbn. rewrite at_thread_eq. split; [lia|done].
Qed.

Lemma taking_alone_step evs0 mx D n t evs s :
  sound evs s t -> others_idle s t -> taking_alone evs0 mx D n t evs s -> threads s t <> RIdle ->
  taking_alone evs0 mx D n t (evs ++ (ring_step s t false).2) (ring_step s t false).1.
Proof.
  intros (f & _ & HI & HR) Ho [Hn HP] Hb. pose proof (ri_knows _ _ _ HI t) as HK.
  pose proof (ri_enq _ _ _ HI) as HE. pose proof (ri_deq _ _ _ HI) as HD.
  pose proof (ri_cap _ _ _ HI) as HC.
  assert (HB : enqueue_pos s <= MAX_POS) by (unfold room in HR; destruct (may_claim _); lim).
  assert (Hn' : n <= Z.min (Z.min mx LIMIT) (enqueue_pos s - D) <= n) by lia. clear Hn.
  unfold ring_step, dequeue_step, dequeue_counted, taking_alone.
  destruct (threads s t) as [| | | | | | |mx'|mx' pos ready|mx' pos ready|pos ready i got
    |pos ready i got|got] eqn:Ht; try done; cbn [knows] in HK.
  - destruct HP as (-> & HD0 & ->). cbn. rewrite at_thread_eq, app_nil_r. split_and!; try done; lia.
  - destruct HP as (-> & HD0 & -> & -> & Hle). destruct HK as (? & ? & ? & ? & ? & Hq). subst D.
    set (q := dequeue_pos s + ready) in *.
    assert (Hfull : ready < n <-> ready < Z.min mx LIMIT /\ sequence s (ring_slot q) = q + 1).
    { split.
      - intros Hlt. split; [lia|]. destruct (ri_full _ _ _ HI q) as [[? _]|[t' Ht']]; [subst q; lia|done|].
        destruct (decide (t' = t)) as [->|]; [by rewrite Ht in Ht'|by rewrite Ho in Ht'].
      - intros [? Hs]. pose proof (full_below s _ f q HI) as HF. subst q. destruct HF; lia. }
    repeat (rewrite u64_pos by (subst q; lim)).
    rewrite ?(scan_diff s _ f) by (done || (subst q; lim)).
    assert (Hst : ready < LIMIT -> sequence s (ring_slot q) <= q + 1).
    { intros. apply (dequeue_not_stale s _ f ready HI). lia. }
    destruct (Z.ltb_spec ready (Z.min mx LIMIT));
      [destruct (Z.eqb_spec (sequence s (ring_slot q) - (q + 1)) 0);
       [|rewrite (proj2 (Z.ltb_ge _ _)) by lia]|]; cbn; rewrite at_thread_eq, app_nil_r.
    + split_and!; try done; lia.
    + destruct (Z.eqb_spec ready 0); [|split_and!; try done; lia].
      replace n with 0 by lia. cbn. split_and!; try done. lia.
    + destruct (Z.eqb_spec ready 0); split_and!; try done; lia.
  - destruct HP as (-> & HD0 & -> & -> & ->). destruct HK as (? & ? & ? & ? & ? & Hq). subst D.
    rewrite Z.eqb_refl. cbn. rewrite at_thread_eq. split_and!; try done; [lia|lia|].
    by rewrite (proj2 (Z.eqb_neq _ _)) by lia.
  - destruct HP as (-> & -> & Hpos & Hev). destruct HK as (? & ? & ? & ? & ? & Htk & Hgot & Hq).
    destruct (Z.ltb_spec i n); cbn; rewrite at_thread_eq, app_nil_r; split_and!; try done; try lia.
    rewrite Hgot, take_ge, Htk by (rewrite Htk, length_take; lia).
    rewrite Hev. case_if; [done|]. rewrite total_app. cbn. by rewrite app_nil_r.
  - destruct HP as (-> & -> & Hpos & Hev). cbn. rewrite at_thread_eq, app_nil_r. split_and!; try done; lia.
  - destruct HP as (-> & Hev). cbn. rewrite at_thread_eq. split; [lia|]. by rewrite Hev.
Qed.

(** *** The contract holds *)

Lemma ring_queue evs s :
  run s0 evs s -> Z.of_nat (length (total evs)) <= MAX_POS ->
  exists f, fifo_run start evs = Some f /\ items f = drop (Z.to_nat (dequeue_pos s)) (total evs) /\
    Z.of_nat (length (items f)) = enqueue_pos s - dequeue_pos s.
Proof.
  intros Hr HB. destruct (inv_run evs s Hr HB) as (f & Hf & HI). exists f.
  pose proof (ri_items _ _ _ HI) as Hit. pose proof (ri_enq _ _ _ HI). pose proof (ri_deq _ _ _ HI).
  split_and!; try done. rewrite Hit, length_drop. lia.
Qed.

(** The plain access to [entry] a thread is about to make: the slot, and whether it
    writes. *)
Definition entry_access (st : rstate) : option (Z * bool) :=
  match st with
  | EWrite _ pos ready i => if i <? ready then Some (ring_slot (u64 (pos + i)), true) else None
  | DRead pos ready i _ => if i <? ready then Some (ring_slot (u64 (pos + i)), false) else None
  | _ => None
  end.

Lemma ring_race_free evs s t t' slot w w' :
  run s0 evs s -> Z.of_nat (length (total evs)) <= MAX_POS -> t <> t' ->
  entry_access (threads s t) = Some (slot, w) -> entry_access (threads s t') <> Some (slot, w').
Proof.
  intros Hr HB Hne Ha Hb. destruct (inv_run evs s Hr HB) as (f & Hf & HI).
  assert (Hacc : forall t w, entry_access (threads s t) = Some (slot, w) ->
    exists p, slot = ring_slot p /\
      (if w then putting (threads s t) p /\ sequence s slot = p
       else taking (threads s t) p /\ sequence s slot = p + 1)).
  { clear - Hpow2 HI HB. intros t w Ha. unfold entry_access in Ha. pose proof (ri_knows _ _ _ HI t) as HK.
    pose proof (ri_enq _ _ _ HI). pose proof (ri_deq _ _ _ HI).
    destruct (threads s t) as [| | | |es pos ready i| | | | | |pos ready i got| |] eqn:Ht; try done;
      destruct (Z.ltb_spec i ready); simplify_eq; cbn [knows] in HK; destruct_and!;
      rewrite u64_pos by (lim); exists (pos + i); split; try done;
      (split; [cbn; lia|]); [eapply putting_seq|eapply taking_seq]; eauto; rewrite Ht; cbn; lia. }
  destruct (Hacc _ _ Ha) as (p & Hp & Hop), (Hacc _ _ Hb) as (q & Hq & Hoq).
  assert (Hsl : ring_slot p = ring_slot q) by congruence.
  destruct (ring_slot_eq _ _ Hsl) as [k Hk].
  destruct w, w'; destruct Hop as [Hop Hsp], Hoq as [Hoq Hsq]; try (pose proof (LIMIT_times k); lim).
  - replace q with p in * by lia. by apply Hne, (ri_put_once _ _ _ HI t t' p).
  - replace q with p in * by lia. by apply Hne, (ri_take_once _ _ _ HI t t' p).
Qed.

Lemma ring_terminates evs s t :
  run s0 evs s -> Z.of_nat (length (total evs)) + LIMIT <= MAX_POS ->
  exists k s' new, (Z.of_nat k <= 4 * LIMIT + 8) /\ solo k t s = (s', new) /\ threads s' t = RIdle /\
    is_Some (fifo_run start (evs ++ new)).
Proof.
  intros Hr HB. pose proof (run_sound evs s t Hr HB) as Hs.
  destruct (solo_ends (fun evs s => sound evs s t) t (fun evs s H Hb => sound_step evs s t H Hb)
    (Z.to_nat (4 * LIMIT + 8)) evs s Hs) as (k & s' & new & Hk & Hrun & Hidle & (f & Hf & _)).
  { destruct Hs as (f & _ & HI & _). pose proof (steps_left_bound s _ f t HI). lim. }
  exists k, s', new. split_and!; try done. lim.
Qed.

(** A call run alone, among idle threads, to its end. *)
Lemma alone_ends (P : list revent -> ring -> Prop) evs s t st :
  (forall evs s, sound evs s t -> others_idle s t -> P evs s -> threads s t <> RIdle ->
     P (evs ++ (ring_step s t false).2) (ring_step s t false).1) ->
  run s0 evs (rgoto t st s) -> (forall t', threads s t' = RIdle) ->
  Z.of_nat (length (total evs)) + LIMIT <= MAX_POS -> P evs (rgoto t st s) ->
  exists k s' new, solo k t (rgoto t st s) = (s', new) /\ (forall t', threads s' t' = RIdle) /\
    P (evs ++ new) s'.
Proof.
  intros HP Hr Hidle HB H0. pose proof (run_sound evs _ t Hr HB) as Hs.
  assert (Ho : others_idle (rgoto t st s) t).
  { intros t' Hne. cbn. by rewrite at_thread_ne, Hidle. }
  destruct (solo_ends (fun evs s => sound evs s t /\ others_idle s t /\ P evs s) t) with
    (n := Z.to_nat (4 * LIMIT + 8)) (evs := evs) (s := rgoto t st s)
    as (k & s' & new & _ & Hrun & Hend & Hs' & Ho' & HP').
  - intros evs1 s1 (Hs1 & Ho1 & HP1) Hb. destruct (sound_step _ _ _ Hs1 Hb).
    split; [|done]. split_and!; auto using others_idle_step.
  - done.
  - destruct Hs as (f & _ & HI & _). pose proof (steps_left_bound _ _ f t HI). lim.
  - exists k, s', new. split_and!; try done. intros t'.
    destruct (decide (t' = t)) as [->|]; auto.
Qed.

Lemma ring_exact evs s f t :
  run s0 evs s -> Z.of_nat (length (total evs)) + LIMIT <= MAX_POS ->
  (forall t', threads s t' = RIdle) -> fifo_run start evs = Some f ->
  (forall entries, exists k s',
     let n := Z.min (Z.of_nat (length entries)) (LIMIT - Z.of_nat (length (items f))) in
     solo k t (rgoto t (enqueue_call entries) s) =
       (s', (if n =? 0 then [] else [Put t (take (Z.to_nat n) entries)]) ++ [PutReturn t n]) /\
     forall t', threads s' t' = RIdle) /\
  (forall max_entries, 0 <= max_entries -> exists k s',
     let n := Z.min max_entries (Z.of_nat (length (items f))) in
     solo k t (rgoto t (dequeue_call max_entries) s) =
       (s', (if n =? 0 then [] else [Take t n]) ++ [TakeReturn t (take (Z.to_nat n) (items f))]) /\
     forall t', threads s' t' = RIdle).
Proof.
  intros Hr HB Hidle Hf.
  destruct (inv_run evs s Hr) as (f' & Hf' & HI); [lim|].
  assert (f' = f) as -> by congruence. pose proof (ri_items _ _ _ HI) as Hit.
  pose proof (ri_enq _ _ _ HI) as HE. pose proof (ri_deq _ _ _ HI) as HD. pose proof (ri_cap _ _ _ HI) as HC.
  assert (Hlen : Z.of_nat (length (items f)) = enqueue_pos s - dequeue_pos s).
  { rewrite Hit, length_drop. lia. }
  split.
  - intros es. set (n := Z.min (Z.of_nat (length es)) (LIMIT - Z.of_nat (length (items f)))).
    destruct (alone_ends (putting_alone evs es (enqueue_pos s) n t) evs s t (enqueue_call es))
      as (k & s' & new & Hrun & Hend & HP).
    + intros ????. by apply putting_alone_step.
    + by apply run_enqueue.
    + done.
    + done.
    + unfold putting_alone, enqueue_call. cbn. rewrite at_thread_eq. split; [lia|].
      repeat case_if; bool_prop; split_and!; try done; lim.
    + exists k, s'. cbv zeta. fold n. split; [|done]. rewrite Hrun. f_equal.
      destruct HP as [_ HP]. rewrite Hend in HP. apply (app_inv_head evs). rewrite HP.
      case_if; [done|]. by rewrite <- app_assoc.
  - intros mx Hmx. set (n := Z.min mx (Z.of_nat (length (items f)))).
    destruct (alone_ends (taking_alone evs mx (dequeue_pos s) n t) evs s t (dequeue_call mx))
      as (k & s' & new & Hrun & Hend & HP).
    + intros ????. by apply taking_alone_step.
    + by apply run_dequeue.
    + done.
    + done.
    + unfold taking_alone, dequeue_call. cbn. rewrite at_thread_eq. split; [lia|].
      repeat case_if; bool_prop; split_and!; try done; try lim.
      by replace n with 0 by lia.
    + exists k, s'. cbv zeta. fold n. split; [|done]. rewrite Hrun. f_equal.
      destruct HP as [_ HP]. rewrite Hend, <- Hit in HP. apply (app_inv_head evs). rewrite HP.
      case_if; [done|]. by rewrite <- app_assoc.
Qed.

End Ring.

#[export] Instance ring_inv_proper L : Proper ((≡) ==> (=) ==> (=) ==> iff) (ring_inv L).
Proof. intros s s' Hs put ? <- f ? <-. split; apply ring_inv_ext; done. Qed.

(** *** The shared cache of one size class *)

(** [frame_global_cache_init]. *)
Definition frame_global_cache_init : ring :=
  mk_ring (fun i => i) (fun _ => 0) 0 0 (fun _ => RIdle).

Lemma limit_power_of_two : power_of_two GLOBAL_FRAME_CACHE_LIMIT.
Proof. by exists 10. Qed.

Lemma cache_init_inv : ring_inv GLOBAL_FRAME_CACHE_LIMIT frame_global_cache_init [] (fifo_start []).
Proof.
  split; cbn; unfold GLOBAL_FRAME_CACHE_LIMIT; try done; try lia.
  intros q Hq. left. rewrite (ring_slot_mod _ limit_power_of_two).
  unfold GLOBAL_FRAME_CACHE_LIMIT. zlia.
Qed.

Abbreviation cache_run := (run GLOBAL_FRAME_CACHE_LIMIT frame_global_cache_init).
Abbreviation cache_queue := (fifo_run GLOBAL_FRAME_CACHE_LIMIT []).

(** C8: Under every interleaving of any number of threads, with spurious failures
    of the compare-and-swap, the batches act on one bounded queue: each enqueue
    appends the first entries of its batch at its successful compare-and-swap and
    returns their number, each dequeue removes the oldest entries there and returns
    exactly those, at most [GLOBAL_FRAME_CACHE_LIMIT] entries are ever queued, and
    what is queued is what was put and not taken.  Positions must not have reached
    [2 ^ 62]. *)
Theorem cache_linearizable evs s :
  cache_run evs s -> Z.of_nat (length (put_entries evs)) <= MAX_POS ->
  exists f, cache_queue evs = Some f /\ items f = drop (Z.to_nat (dequeue_pos s)) (put_entries evs) /\
    Z.of_nat (length (items f)) = enqueue_pos s - dequeue_pos s.
Proof. apply (ring_queue _ limit_power_of_two _ _ cache_init_inv). Qed.

(** C23: The plain loads and stores of [entry] never race: whenever two threads are
    about to access the entry of one slot, neither writes; no two threads even read
    one. *)
Theorem cache_race_free evs s t t' slot w w' :
  cache_run evs s -> Z.of_nat (length (put_entries evs)) <= MAX_POS -> t <> t' ->
  entry_access GLOBAL_FRAME_CACHE_LIMIT (threads s t) = Some (slot, w) ->
  entry_access GLOBAL_FRAME_CACHE_LIMIT (threads s t') <> Some (slot, w').
Proof. apply (ring_race_free _ limit_power_of_two _ _ cache_init_inv). Qed.

(** C20: A batch never waits for another thread: in every reachable state, wherever
    the other threads have stopped, a thread that runs alone ends its call within
    [4 * GLOBAL_FRAME_CACHE_LIMIT + 8] steps, and its result is the queue's. *)
Theorem batch_terminates evs s t :
  cache_run evs s -> Z.of_nat (length (put_entries evs)) + GLOBAL_FRAME_CACHE_LIMIT <= MAX_POS ->
  exists k s' new, Z.of_nat k <= 4 * GLOBAL_FRAME_CACHE_LIMIT + 8 /\
    solo GLOBAL_FRAME_CACHE_LIMIT k t s = (s', new) /\ threads s' t = RIdle /\
    is_Some (cache_queue (evs ++ new)).
Proof. apply (ring_terminates _ limit_power_of_two _ _ cache_init_inv). Qed.

(** Among idle threads a batch moves as much as there is: an enqueue returns and
    has queued its first entries, as many as fit, a dequeue returns the oldest
    entries, as many as were asked for or are there. *)
Theorem batch_exact evs s f t :
  cache_run evs s -> Z.of_nat (length (put_entries evs)) + GLOBAL_FRAME_CACHE_LIMIT <= MAX_POS ->
  (forall t', threads s t' = RIdle) -> cache_queue evs = Some f ->
  (forall entries, exists k s',
     let n := Z.min (Z.of_nat (length entries)) (GLOBAL_FRAME_CACHE_LIMIT - Z.of_nat (length (items f))) in
     solo GLOBAL_FRAME_CACHE_LIMIT k t (rgoto t (enqueue_call GLOBAL_FRAME_CACHE_LIMIT entries) s) =
       (s', (if n =? 0 then [] else [Put t (take (Z.to_nat n) entries)]) ++ [PutReturn t n]) /\
     forall t', threads s' t' = RIdle) /\
  (forall max_entries, 0 <= max_entries -> exists k s',
     let n := Z.min max_entries (Z.of_nat (length (items f))) in
     solo GLOBAL_FRAME_CACHE_LIMIT k t (rgoto t (dequeue_call GLOBAL_FRAME_CACHE_LIMIT max_entries) s) =
       (s', (if n =? 0 then [] else [Take t n]) ++ [TakeReturn t (take (Z.to_nat n) (items f))]) /\
     forall t', threads s' t' = RIdle).
Proof. apply (ring_exact _ limit_power_of_two _ _ cache_init_inv). Qed.

(** *** Witnesses *)

Lemma run_solo L s0 k t evs s : run L s0 evs s -> run L s0 (evs ++ (solo L k t s).2) (solo L k t s).1.
Proof.
  revert evs s. induction k as [|k IH]; intros evs s Hr; cbn.
  - by rewrite app_nil_r.
  - destruct (ring_step L s t false) as [s1 new1] eqn:H1.
    pose proof (IH _ _ (run_step _ _ _ _ _ _ _ _ Hr H1)) as H2.
    destruct (solo L k t s1). cbn in *. by rewrite app_assoc.
Qed.

(** Thread 0 has claimed a position and stopped, thread 1 has put two entries
    behind it, thread 2 is at the start of a dequeue. *)
Definition ex_run1 :=
  solo 1024 4 0 (rgoto 0 (enqueue_call 1024 [7]) frame_global_cache_init).
Definition ex_run2 := solo 1024 11 1 (rgoto 1 (enqueue_call 1024 [8; 9]) ex_run1.1).
Definition ex_evs : list revent := ([] ++ ex_run1.2) ++ ex_run2.2.
Definition ex_ring : ring := rgoto 2 (dequeue_call 1024 4) ex_run2.1.

Lemma ex_ring_run : cache_run ex_evs ex_ring.
Proof.
  apply run_dequeue; [|by vm_compute|lia]. apply run_solo, run_enqueue; [|by vm_compute].
  apply run_solo, run_enqueue; [apply run_init|done].
Qed.

Lemma cache_linearizable_witness :
  exists f, cache_queue ex_evs = Some f /\ items f = [7; 8; 9].
Proof.
  destruct (cache_linearizable ex_evs ex_ring ex_ring_run) as (f & Hf & Hi & _).
  { by vm_compute. }
  exists f. split; [done|]. rewrite Hi. by vm_compute.
Defined.

Lemma cache_race_free_witness :
  entry_access 1024 (threads ex_ring 0) = Some (0, true) /\
  entry_access 1024 (threads ex_ring 2) <> Some (0, false).
Proof.
  split; [by vm_compute|].
  apply (cache_race_free ex_evs ex_ring 0 2 0 true false ex_ring_run).
  - by vm_compute.
  - lia.
  - by vm_compute.
Defined.

Lemma batch_terminates_witness :
  exists k s' new, Z.of_nat k <= 4104 /\ solo 1024 k 2 ex_ring = (s', new) /\ threads s' 2 = RIdle /\
    is_Some (cache_queue (ex_evs ++ new)).
Proof. apply (batch_terminates _ _ 2 ex_ring_run). by vm_compute. Defined.

Lemma batch_exact_witness :
  exists k s', solo 1024 k 5 (rgoto 5 (enqueue_call 1024 [7; 8; 9]) frame_global_cache_init) =
    (s', [Put 5 [7; 8; 9]; PutReturn 5 3]) /\ forall t', threads s' t' = RIdle.
Proof.
  destruct (batch_exact [] frame_global_cache_init (fifo_start []) 5 (run_init _ _))
    as [He _]; [by vm_compute|done|done|].
  exact (He [7; 8; 9]).
Defined.
