(* ===== verification/FramePool.v ===== *)
(** The pool of free frames (src/lib/xdp.c: [xdp_frame_pool], [xdp_frame_alloc],
    [xdp_frame_free]), used by any number of threads at once.

    As in FrameRing.v every access to shared memory is a step of its own.  The
    protocol of the slots is that of the shared cache, with batches of one, so the
    invariant comes from there; what is new is who owns which frame, and the retry
    of a push that finds its slot still being emptied. *)

From stdpp Require Import prelude list.
From Stdlib Require Import ZArith Lia.
From S2P Require Import Prelude FrameRing.

Definition XDP_UMEM_FRAME_SIZE : Z := 4096.
Definition XDP_UMEM_FRAME_CNT : Z := 64 * 1024.

(** Where a thread is in [xdp_frame_pool_pop_idx] or [xdp_frame_pool_push_idx]:
    before the load of the position, the load of the sequence number, the
    compare-and-swap, the access to [frame_idx], the store of the sequence number,
    the return; [PushFull]: before the load of the dequeue position that tells a
    full ring.  [PAbort]: the process has aborted. *)
Inductive pstate :=
  | PIdle
  | PopLoad
  | PopSeq (pos : Z)
  | PopCas (pos : Z)
  | PopRead (pos : Z)
  | PopRelease (pos idx : Z)
  | PopReturn (r : option Z)
  | PushLoad (idx : Z)
  | PushSeq (idx pos : Z)
  | PushCas (idx pos : Z)
  | PushFull (idx pos : Z)
  | PushWrite (idx pos : Z)
  | PushPublish (idx pos : Z)
  | PushReturn (idx : Z) (ok : bool)
  | PAbort (pos idx : Z).

Record pool := mk_pool {
  slot_sequence : Z -> Z;
  slot_frame_idx : Z -> Z;
  pool_enqueue_pos : Z;
  pool_dequeue_pos : Z;
  callers : nat -> pstate
}.

#[export] Instance eta_pool : Eta pool :=
  fun s => mk_pool (slot_sequence s) (slot_frame_idx s) (pool_enqueue_pos s) (pool_dequeue_pos s)
             (callers s).
#[export] Instance set_p_sequence : Setter slot_sequence := ltac:(mk_setter).
#[export] Instance set_p_frame_idx : Setter slot_frame_idx := ltac:(mk_setter).
#[export] Instance set_p_enqueue_pos : Setter pool_enqueue_pos := ltac:(mk_setter).
#[export] Instance set_p_dequeue_pos : Setter pool_dequeue_pos := ltac:(mk_setter).
#[export] Instance set_p_callers : Setter callers := ltac:(mk_setter).

Definition pgoto (t : nat) (st : pstate) (s : pool) : pool :=
  s <| callers := at_thread (callers s) t st |>.

(** What is seen of a run: calls and returns, and the compare-and-swaps that take a
    frame from the pool and put one into it. *)
Inductive pevent :=
  | Popped (t : nat)
  | PopRet (t : nat) (r : option Z)
  | PushCall (t : nat) (idx : Z)
  | Pushed (t : nat) (idx : Z)
  | Retry (t : nat)
  | PushRet (t : nat) (idx : Z) (ok : bool).

(** *** The contract: who owns a frame *)

Inductive owner :=
  | Free
  | Popping (t : nat)
  | Held
  | Pushing (t : nat)
  | Lost.

#[export] Instance owner_dec : EqDecision owner.
Proof. solve_decision. Defined.

(** The frames in the pool, oldest first, and the owner of every frame. *)
Record ledger := mk_ledger { queued : list Z; own : Z -> owner }.

Definition give (l : ledger) (idx : Z) (o : owner) : Z -> owner :=
  fun k => if k =? idx then o else own l k.

Definition ledger_step (l : ledger) (e : pevent) : option ledger :=
  match e with
  | Popped t =>
      match queued l with
      | idx :: rest => Some (mk_ledger rest (give l idx (Popping t)))
      | [] => None
      end
  | PopRet t None => Some l
  | PopRet t (Some idx) =>
      if decide (own l idx = Popping t) then Some (mk_ledger (queued l) (give l idx Held)) else None
  | PushCall t idx =>
      if decide (own l idx = Held) then Some (mk_ledger (queued l) (give l idx (Pushing t))) else None
  | Pushed t idx =>
      if decide (own l idx = Pushing t)
      then Some (mk_ledger (queued l ++ [idx]) (give l idx Free)) else None
  | Retry _ => Some l
  | PushRet t idx true => Some l
  | PushRet t idx false =>
      if decide (own l idx = Pushing t) then Some (mk_ledger (queued l) (give l idx Lost)) else None
  end.

(** *** Frames and their addresses *)

Definition idx_to_ptr (buffer frame_size idx : Z) : Z := buffer + idx * frame_size.
Definition ptr_to_idx (buffer frame_size ptr : Z) : Z := u32 ((ptr - buffer) / frame_size).
Definition xdp_frame_ptr_valid (buffer frame_size num_frames ptr : Z) : bool :=
  let size := frame_size * num_frames in
  if (ptr <? buffer) || (buffer + size <=? ptr) then false
  else (ptr - buffer) mod frame_size =? 0.

(** [xdp_frame_alloc] on the result of the pop: the return value and the frame;
    [xdp_frame_free]: the index it pushes, if the pointer is a frame's. *)
Definition xdp_frame_alloc (buffer : Z) (popped : option Z) : Z * option Z :=
  match popped with
  | None => (-1, None)
  | Some idx => (0, Some (idx_to_ptr buffer XDP_UMEM_FRAME_SIZE idx))
  end.
Definition xdp_frame_free (buffer frame : Z) : option Z :=
  if xdp_frame_ptr_valid buffer XDP_UMEM_FRAME_SIZE XDP_UMEM_FRAME_CNT frame
  then Some (ptr_to_idx buffer XDP_UMEM_FRAME_SIZE frame) else None.

(** The indexes [i], [i + 1], ..., [n] of them. *)
Fixpoint count_up (n : nat) (i : Z) : list Z :=
  match n with O => [] | S n => i :: count_up n (i + 1) end.

Lemma count_up_seqZ n i : count_up n i = seqZ i (Z.of_nat n).
Proof.
  revert i. induction n as [|n IH]; intros i; [done|]. cbn [count_up].
  rewrite seqZ_cons by lia. f_equal. rewrite IH. f_equal; lia.
Qed.

Section Pool.
Context (ring_size : Z).

Definition pool_slot (pos : Z) : Z := Z.land (u32 pos) (ring_size - 1).

(** *** [xdp_frame_pool_pop_idx] *)
Definition pop_idx_step (s : pool) (t : nat) (weak : bool) : pool * list pevent :=
  match callers s t with
  | PopLoad => (pgoto t (PopSeq (pool_dequeue_pos s)) s, [])
  | PopSeq pos =>
      let diff := s64 (slot_sequence s (pool_slot pos)) - s64 (u64 (pos + 1)) in
      if diff =? 0 then (pgoto t (PopCas pos) s, [])
      else if diff <? 0 then (pgoto t (PopReturn None) s, [])
      else (pgoto t PopLoad s, [])
  | PopCas pos =>
      if weak || negb (pool_dequeue_pos s =? pos) then (pgoto t (PopSeq (pool_dequeue_pos s)) s, [])
      else (pgoto t (PopRead pos) (s <| pool_dequeue_pos := u64 (pos + 1) |>), [Popped t])
  | PopRead pos =>
      let idx := slot_frame_idx s (pool_slot pos) in
      if ring_size <=? idx then (pgoto t (PAbort pos idx) s, [])
      else (pgoto t (PopRelease pos idx) s, [])
  | PopRelease pos idx =>
      (pgoto t (PopReturn (Some idx))
         (s <| slot_sequence := store (slot_sequence s) (pool_slot pos) (u64 (pos + ring_size)) |>), [])
  | PopReturn r => (pgoto t PIdle s, [PopRet t r])
  | _ => (s, [])
  end.

(** *** [xdp_frame_pool_push_idx] *)
Definition push_call (idx : Z) : pstate :=
  if ring_size <=? idx then PushReturn idx false else PushLoad idx.

Definition push_idx_step (s : pool) (t : nat) (weak : bool) : pool * list pevent :=
  match callers s t with
  | PushLoad idx => (pgoto t (PushSeq idx (pool_enqueue_pos s)) s, [])
  | PushSeq idx pos =>
      let diff := s64 (slot_sequence s (pool_slot pos)) - s64 pos in
      if diff =? 0 then (pgoto t (PushCas idx pos) s, [])
      else if diff <? 0 then (pgoto t (PushFull idx pos) s, [])
      else (pgoto t (PushLoad idx) s, [])
  | PushCas idx pos =>
      if weak || negb (pool_enqueue_pos s =? pos)
      then (pgoto t (PushSeq idx (pool_enqueue_pos s)) s, [])
      else (pgoto t (PushWrite idx pos) (s <| pool_enqueue_pos := u64 (pos + 1) |>), [Pushed t idx])
  | PushFull idx pos =>
      if ring_size <=? u64 (pos - pool_dequeue_pos s) then (pgoto t (PushReturn idx false) s, [])
      else (pgoto t (PushLoad idx) s, [Retry t])
  | PushWrite idx pos =>
      (pgoto t (PushPublish idx pos)
         (s <| slot_frame_idx := store (slot_frame_idx s) (pool_slot pos) idx |>), [])
  | PushPublish idx pos =>
      (pgoto t (PushReturn idx true)
         (s <| slot_sequence := store (slot_sequence s) (pool_slot pos) (u64 (pos + 1)) |>), [])
  | PushReturn idx ok => (pgoto t PIdle s, [PushRet t idx ok])
  | _ => (s, [])
  end.

Definition pool_step (s : pool) (t : nat) (weak : bool) : pool * list pevent :=
  match callers s t with
  | PopLoad | PopSeq _ | PopCas _ | PopRead _ | PopRelease _ _ | PopReturn _ => pop_idx_step s t weak
  | _ => push_idx_step s t weak
  end.

(** [xdp_frame_pool_init]: the ring starts full. *)
Definition xdp_frame_pool_init : pool :=
  mk_pool (fun i => i + 1) (fun i => i) ring_size 0 (fun _ => PIdle).

Definition frames : list Z := count_up (Z.to_nat ring_size) 0.
Definition ledger_start : ledger := mk_ledger frames (fun _ => Free).

Definition ledger_all (l : ledger) (evs : list pevent) : option ledger :=
  foldl (fun l e => l ≫= fun l => ledger_step l e) (Some l) evs.
Definition ledger_run (evs : list pevent) : option ledger := ledger_all ledger_start evs.

(** A run of threads that free only frames they were given and have not freed. *)
Inductive pool_run : list pevent -> pool -> Prop :=
  | pool_run_init : pool_run [] xdp_frame_pool_init
  | pool_run_pop evs s t :
      pool_run evs s -> callers s t = PIdle -> pool_run evs (pgoto t PopLoad s)
  | pool_run_push evs s t idx l :
      pool_run evs s -> callers s t = PIdle ->
      ledger_run evs = Some l -> own l idx = Held ->
      pool_run (evs ++ [PushCall t idx]) (pgoto t (push_call idx) s)
  | pool_run_step evs s t weak s' new :
      pool_run evs s -> pool_step s t weak = (s', new) -> pool_run (evs ++ new) s'.

(** *** The slots behave as those of the shared cache *)

Context (Hpow2 : power_of_two ring_size).

Definition as_thread (st : pstate) : rstate :=
  match st with
  | PIdle => RIdle
  | PopLoad => DLoad 1
  | PopSeq pos => DScan 1 pos 0
  | PopCas pos => DCas 1 pos 1
  | PopRead pos => DRead pos 1 0 []
  | PopRelease pos idx | PAbort pos idx => DRelease pos 1 0 [idx]
  | PopReturn r => DReturn (option_list r)
  | PushLoad idx => ELoad [idx] 1
  | PushSeq idx pos => EScan [idx] 1 pos 0
  | PushCas idx pos => ECas [idx] 1 pos 1
  | PushFull _ _ => EReturn 0
  | PushWrite idx pos => EWrite [idx] pos 1 0
  | PushPublish idx pos => EPublish [idx] pos 1 0
  | PushReturn _ ok => EReturn (if ok then 1 else 0)
  end.

Definition as_ring (s : pool) : ring :=
  mk_ring (slot_sequence s) (slot_frame_idx s) (pool_enqueue_pos s) (pool_dequeue_pos s)
    (fun t => as_thread (callers s t)).

Definition as_events (e : pevent) : list revent :=
  match e with
  | Popped t => [Take t 1]
  | PopRet t r => [TakeReturn t (option_list r)]
  | PushCall _ _ => []
  | Pushed t idx => [Put t [idx]]
  | Retry t => [PutReturn t 0]
  | PushRet t _ ok => [PutReturn t (if ok then 1 else 0)]
  end.

Lemma pool_slot_ring pos : pool_slot pos = ring_slot ring_size pos.
Proof.
  unfold pool_slot. change (Z.land (u32 pos) (ring_size - 1)) with (ring_slot ring_size (u32 pos)).
  rewrite !(ring_slot_mod _ Hpow2). destruct Hpow2 as (bits & Hb & ->). unfold wrap.
  replace (2 ^ 32) with (2 ^ bits * 2 ^ (32 - bits)) by (rewrite <- Z.pow_add_r by lia; f_equal; lia).
  rewrite Z.rem_mul_r by lia. rewrite Z.mul_comm, Z.mod_add by lia. apply Z.mod_mod. lia.
Qed.

Lemma as_ring_goto t st s : as_ring (pgoto t st s) ≡ rgoto t (as_thread st) (as_ring s).
Proof.
  split_and!; cbn; try done. intros t'. unfold at_thread. by case_if.
Qed.

Abbreviation rinv := (ring_inv ring_size).
Abbreviation allf := (fifo_all ring_size).
Abbreviation claimed new := (put_entries (new ≫= as_events)).

(** Steps that leave the queue as it is. *)
Lemma sim_silent s put f t st :
  rinv (as_ring s) put f ->
  (forall q, putting (as_thread st) q <-> putting (as_thread (callers s t)) q) ->
  (forall q, taking (as_thread st) q <-> taking (as_thread (callers s t)) q) ->
  knows ring_size (as_ring s) put f t (as_thread st) ->
  exists f', allf f ([] ≫= as_events) = Some f' /\ rinv (as_ring (pgoto t st s)) (put ++ claimed []) f'.
Proof.
  intros HI Hp Ht HK. exists f. split; [done|]. cbn. rewrite app_nil_r, as_ring_goto.
  by eapply inv_local.
Qed.

(** Steps that are one step there. *)
Lemma sim_one s put f t weak s' new :
  rinv (as_ring s) put f -> (ring_step ring_size (as_ring s) t weak).2 = new ≫= as_events ->
  as_ring s' ≡ (ring_step ring_size (as_ring s) t weak).1 -> Z.of_nat (length (put ++ claimed new)) <= MAX_POS ->
  exists f', allf f (new ≫= as_events) = Some f' /\ rinv (as_ring s') (put ++ claimed new) f'.
Proof.
  intros HI Hn He HB. destruct (ring_step ring_size (as_ring s) t weak) as [rs rnew] eqn:Hs.
  cbn in Hn, He. subst rnew. destruct (inv_ring_step _ Hpow2 _ _ _ _ _ _ _ HI Hs HB) as (f' & Hf & HI').
  exists f'. split; [done|]. by rewrite He.
Qed.

Lemma sim_pop s put f t weak s' new :
  rinv (as_ring s) put f -> pop_idx_step s t weak = (s', new) ->
  Z.of_nat (length (put ++ claimed new)) <= MAX_POS ->
  exists f', allf f (new ≫= as_events) = Some f' /\ rinv (as_ring s') (put ++ claimed new) f'.
Proof.
  intros HI Hs HB. pose proof (ri_knows _ _ _ _ HI t) as HK.
  pose proof (ri_enq _ _ _ _ HI) as HE. pose proof (ri_deq _ _ _ _ HI) as HD.
  pose proof (LIMIT_range _ Hpow2) as HL.
  assert (HEB : pool_enqueue_pos s <= MAX_POS) by (rewrite length_app in HB; cbn in *; lia).
  assert (Hid : s = s' /\ new = [] -> exists f', allf f (new ≫= as_events) = Some f' /\
    rinv (as_ring s') (put ++ claimed new) f').
  { intros [<- ->]. exists f. cbn. by rewrite app_nil_r. }
  unfold pop_idx_step in Hs.
  change (threads (as_ring s) t) with (as_thread (callers s t)) in HK.
  destruct (callers s t) as [| |pos|pos|pos|pos idx|r| | | | | | | |] eqn:Ht;
    try (apply Hid; by simplify_eq); cbn [as_thread] in HK.
  - simplify_eq. apply (sim_one s put f t weak); try done; unfold ring_step, dequeue_step; cbn;
      rewrite Ht; [done|apply as_ring_goto].
  - pose proof HK as (? & ? & ? & Hpos & ? & Hq). cbn in *.
    rewrite pool_slot_ring, (u64_pos _ Hpow2) in Hs by lia.
    change (slot_sequence s) with (sequence (as_ring s)) in Hs.
    rewrite (scan_diff ring_size Hpow2 (as_ring s) put f) in Hs by (done || cbn; lia).
    repeat case_if; bool_prop; simplify_eq; apply sim_silent; rewrite ?Ht; try done.
    apply (knows_dcounted _ _ _ _ _ 1 pos 1). apply (knows_dready _ _ _ _ _ 1 pos 0); try done. 
    rewrite Z.add_0_r. lia.
  - apply (sim_one s put f t weak); try done; unfold ring_step, dequeue_step; cbn;
      rewrite Ht; cbn; case_if; simplify_eq; try done; [apply as_ring_goto|].
    split_and!; cbn; try done. intros t'. unfold at_thread. by case_if.
  - destruct HK as (? & ? & ? & ? & ? & Htk & Hgot & Hq). cbn in *.
    rewrite pool_slot_ring in Hs. case_if; simplify_eq; apply (sim_one s put f t weak); try done;
      unfold ring_step, dequeue_step; cbn; rewrite Ht; cbn; try done;
      rewrite (u64_pos _ Hpow2), Z.add_0_r by lia; apply as_ring_goto.
  - destruct HK as (? & ? & ? & ? & ? & Htk & Hgot & Hq). cbn in *. simplify_eq.
    rewrite pool_slot_ring. exists f. split; [done|]. cbn. rewrite app_nil_r.
    rewrite (u64_pos _ Hpow2) by lia.
    pose proof (inv_release ring_size Hpow2 (as_ring s) put f t pos 1 0 [idx] HI) as HR.
    cbn in HR. rewrite Ht, Z.add_0_r in HR. specialize (HR eq_refl).
    eapply (inv_local ring_size _ _ _ f t (DReturn [idx])) in HR; try done.
    + eapply ring_inv_ext; [|exact HR]. split_and!; cbn; try done. intros t'. unfold at_thread. by case_if.
    + intros q. cbn. rewrite at_thread_eq. cbn. lia.
    + intros q. cbn. rewrite at_thread_eq. cbn. lia.
    + cbn. rewrite Hgot, take_ge; [done|]. rewrite Htk, length_take. lia.
  - simplify_eq. apply (sim_one s put f t weak); try done; unfold ring_step, dequeue_step; cbn;
      rewrite Ht; [done|apply as_ring_goto].
Qed.

Lemma sim_push s put f t weak s' new :
  rinv (as_ring s) put f -> push_idx_step s t weak = (s', new) ->
  Z.of_nat (length (put ++ claimed new)) <= MAX_POS ->
  exists f', allf f (new ≫= as_events) = Some f' /\ rinv (as_ring s') (put ++ claimed new) f'.
Proof.
  intros HI Hs HB. pose proof (ri_knows _ _ _ _ HI t) as HK.
  pose proof (ri_enq _ _ _ _ HI) as HE. pose proof (ri_deq _ _ _ _ HI) as HD.
  pose proof (LIMIT_range _ Hpow2) as HL.
  assert (HEB : pool_enqueue_pos s <= MAX_POS) by (rewrite length_app in HB; cbn in *; lia).
  assert (Hid : s = s' /\ new = [] -> exists f', allf f (new ≫= as_events) = Some f' /\
    rinv (as_ring s') (put ++ claimed new) f').
  { intros [<- ->]. exists f. cbn. by rewrite app_nil_r. }
  unfold push_idx_step in Hs.
  change (threads (as_ring s) t) with (as_thread (callers s t)) in HK.
  destruct (callers s t) as [| | | | | | |idx|idx pos|idx pos|idx pos|idx pos|idx pos|idx ok|] eqn:Ht;
    try (apply Hid; by simplify_eq); cbn [as_thread] in HK.
  - simplify_eq. apply (sim_one s put f t weak); try done; unfold ring_step, enqueue_step; cbn;
      rewrite Ht; [done|apply as_ring_goto].
  - pose proof HK as (? & ? & ? & ? & Hpos & ? & Hq). cbn in *.
    rewrite pool_slot_ring in Hs. change (slot_sequence s) with (sequence (as_ring s)) in Hs.
    rewrite (scan_diff ring_size Hpow2 (as_ring s) put f) in Hs by (done || cbn; lia).
    repeat case_if; bool_prop; simplify_eq; apply sim_silent; rewrite ?Ht; try done.
    apply (knows_counted _ _ _ _ _ [idx] 1 pos 1), (knows_ready _ _ _ _ _ [idx] 1 pos 0); try done.
    rewrite Z.add_0_r. lia.
  - apply (sim_one s put f t weak); try done; unfold ring_step, enqueue_step; cbn;
      rewrite Ht; cbn; case_if; simplify_eq; try done; [apply as_ring_goto|].
    split_and!; cbn; try done. intros t'. unfold at_thread. by case_if.
  - destruct HK as [Hst Htk]. case_if; simplify_eq; [by apply sim_silent; rewrite ?Ht|].
    eexists. cbn. rewrite Hst, app_nil_r. split; [done|]. rewrite as_ring_goto.
    apply (inv_local ring_size _ _ f); cbn; rewrite ?Ht, ?at_thread_eq; try done.
    + intros t' Hne. by rewrite at_thread_ne.
    + split_and!; try done; lia.
  - destruct HK as (? & ? & ? & ? & ? & ? & ? & Hq). cbn in *. simplify_eq.
    rewrite pool_slot_ring. apply (sim_one s put f t weak); try done;
      unfold ring_step, enqueue_step; cbn; rewrite Ht; [done|]. cbn.
    rewrite (u64_pos _ Hpow2), Z.add_0_r by lia.
    split_and!; cbn; try done. intros t'. unfold at_thread. by case_if.
  - destruct HK as (? & ? & ? & ? & ? & ? & ? & ? & Hq). cbn in *. simplify_eq.
    rewrite pool_slot_ring. exists f. split; [done|]. cbn. rewrite app_nil_r.
    rewrite (u64_pos _ Hpow2) by lia.
    pose proof (inv_publish ring_size Hpow2 (as_ring s) put f t [idx] pos 1 0 HI) as HR.
    cbn in HR. rewrite Ht, Z.add_0_r in HR. specialize (HR eq_refl).
    eapply (inv_local ring_size _ _ _ f t (EReturn 1)) in HR; try done.
    + eapply ring_inv_ext; [|exact HR]. split_and!; cbn; try done. intros t'. unfold at_thread. by case_if.
    + intros q. cbn. rewrite at_thread_eq. cbn. lia.
    + intros q. cbn. rewrite at_thread_eq. cbn. lia.
  - simplify_eq. apply (sim_one s put f t weak); try done; unfold ring_step, enqueue_step; cbn;
      rewrite Ht; [done|apply as_ring_goto].
Qed.

Lemma sim_step s put f t weak s' new :
  rinv (as_ring s) put f -> pool_step s t weak = (s', new) ->
  Z.of_nat (length (put ++ claimed new)) <= MAX_POS ->
  exists f', allf f (new ≫= as_events) = Some f' /\ rinv (as_ring s') (put ++ claimed new) f'.
Proof.
  unfold pool_step. intros HI Hs. revert Hs.
  destruct (callers s t); eauto using sim_pop, sim_push.
Qed.

Lemma pool_init_inv : rinv (as_ring xdp_frame_pool_init) frames (fifo_start frames).
Proof.
  pose proof (LIMIT_range _ Hpow2) as HL.
  assert (Hfr : frames = seqZ 0 ring_size) by (unfold frames; rewrite count_up_seqZ; f_equal; lia).
  assert (Hlen : length frames = Z.to_nat ring_size) by (rewrite Hfr; apply length_seqZ).
  split; cbn; try done; try lia.
  intros q Hq. left. rewrite (ring_slot_mod _ Hpow2), Z.mod_small by lia.
  split; [done|]. split; [lia|]. rewrite Hfr. apply lookup_seqZ. lia.
Qed.

(** *** Ownership *)

(** The frame a thread is about to give back. *)
Definition giving_back (st : pstate) : option Z :=
  match st with
  | PushLoad idx | PushSeq idx _ | PushCas idx _ | PushFull idx _ | PushReturn idx false => Some idx
  | _ => None
  end.

Definition aborted (st : pstate) : bool := match st with PAbort _ _ => true | _ => false end.

(** The ledger says of a thread what its state and the queue say. *)
Record tracks (l : ledger) (f : fifo) (t : nat) (st : pstate) : Prop := {
  tr_pop x : taken f t = [x] -> own l x = Popping t;
  tr_push x : giving_back st = Some x -> own l x = Pushing t;
  tr_abort : aborted st = false
}.

Record pool_inv (put : list Z) (s : pool) (l : ledger) (f : fifo) : Prop := {
  pi_ring : rinv (as_ring s) put f;
  pi_items : items f = queued l;
  pi_nodup : NoDup (queued l);
  pi_free x : x ∈ queued l <-> own l x = Free /\ 0 <= x < ring_size;
  pi_range x : own l x <> Free -> 0 <= x < ring_size;
  pi_tracks t : tracks l f t (callers s t)
}.

Lemma tracks_frame l f t st l' f' :
  tracks l f t st -> taken f' t = taken f t ->
  (forall x, own l x = Popping t -> own l' x = Popping t) ->
  (forall x, own l x = Pushing t -> own l' x = Pushing t) -> tracks l' f' t st.
Proof. intros [H1 H2 H3] Ht Hp Hq. split; rewrite ?Ht; auto. Qed.

Lemma give_eq l x o : give l x o x = o.
Proof. unfold give. by rewrite Z.eqb_refl. Qed.
Lemma give_ne l x o y : y <> x -> give l x o y = own l y.
Proof. unfold give. by intros ->%Z.eqb_neq. Qed.

(** An event that moves one frame between owners outside the pool. *)
Lemma pool_inv_move put s l f t x o put' s' f' :
  pool_inv put s l f -> rinv (as_ring s') put' f' -> items f' = items f ->
  own l x = Popping t \/ own l x = Held \/ own l x = Pushing t -> o <> Free ->
  (forall t', t' <> t -> callers s' t' = callers s t' /\ taken f' t' = taken f t') ->
  tracks (mk_ledger (queued l) (give l x o)) f' t (callers s' t) ->
  pool_inv put' s' (mk_ledger (queued l) (give l x o)) f'.
Proof.
  intros [HR Hi Hnd Hfree Hrange Htr] HR' Hi' Hx Ho Hother Ht. split; cbn; try done.
  - by rewrite Hi'.
  - intros y. rewrite Hfree. unfold give. destruct (Z.eqb_spec y x) as [->|]; [|done].
    split; [|by intros [? _]]. intros [Hf _]. intuition congruence.
  - intros y Hy. apply Hrange. intros Hf. destruct (decide (y = x)) as [->|Hne]; [intuition congruence|].
    by rewrite give_ne in Hy.
  - intros t'. destruct (decide (t' = t)) as [->|Hne]; [done|].
    destruct (Hother t' Hne) as [-> Htk]. apply (tracks_frame l f); try done; cbn; intros y Hy;
        (rewrite give_ne; [done|]); intros Heq; subst y; intuition congruence.
Qed.

(** A step that moves no frame. *)
Lemma pool_inv_still put s l f t put' s' f' :
  pool_inv put s l f -> rinv (as_ring s') put' f' -> items f' = items f ->
  (forall t', t' <> t -> callers s' t' = callers s t' /\ taken f' t' = taken f t') ->
  tracks l f' t (callers s' t) -> pool_inv put' s' l f'.
Proof.
  intros [HR Hi Hnd Hfree Hrange Htr] HR' Hi' Hother Ht. split; try done.
  - by rewrite Hi'.
  - intros t'. destruct (decide (t' = t)) as [->|Hne]; [done|].
    destruct (Hother t' Hne) as [-> Htk]. by apply (tracks_frame l f).
Qed.

(** The oldest frame leaves the pool. *)
Lemma pool_inv_popped put s l f t x rest s' f' :
  pool_inv put s l f -> queued l = x :: rest -> rinv (as_ring s') put f' -> items f' = rest ->
  taken f' t = [x] -> giving_back (callers s' t) = None -> aborted (callers s' t) = false ->
  (forall t', t' <> t -> callers s' t' = callers s t' /\ taken f' t' = taken f t') ->
  pool_inv put s' (mk_ledger rest (give l x (Popping t))) f'.
Proof.
  intros [HR Hi Hnd Hfree Hrange Htr] Hq HR' Hi' Htk Hg Ha Hother.
  assert (Hx : own l x = Free /\ 0 <= x < ring_size) by (apply Hfree; rewrite Hq; by left).
  rewrite Hq in Hnd. apply NoDup_cons in Hnd as [Hnin Hnd].
  split; cbn; try done.
  - intros y. unfold give. destruct (Z.eqb_spec y x) as [->|Hne].
    + split; [done|]. by intros [? _].
    + rewrite <- Hfree, Hq, elem_of_cons. intuition.
  - intros y Hy. destruct (decide (y = x)) as [->|Hne]; [apply Hx|].
    rewrite give_ne in Hy by done. by apply Hrange.
  - intros t'. destruct (decide (t' = t)) as [->|Hne].
    + split; try done; [|by rewrite Hg]. intros y Hy. rewrite Htk in Hy. simplify_eq.
      cbn. apply give_eq.
    + destruct (Hother t' Hne) as [-> Htk']. apply (tracks_frame l f); try done; cbn; intros y Hy;
        (rewrite give_ne; [done|]); intros Heq; subst y; intuition congruence.
Qed.

(** A frame comes back. *)
Lemma pool_inv_pushed put s l f t x put' s' f' :
  pool_inv put s l f -> own l x = Pushing t -> rinv (as_ring s') put' f' ->
  items f' = queued l ++ [x] ->
  taken f' t = [] -> giving_back (callers s' t) = None -> aborted (callers s' t) = false ->
  (forall t', t' <> t -> callers s' t' = callers s t' /\ taken f' t' = taken f t') ->
  pool_inv put' s' (mk_ledger (queued l ++ [x]) (give l x Free)) f'.
Proof.
  intros [HR Hi Hnd Hfree Hrange Htr] Hx HR' Hi' Htk Hg Ha Hother.
  assert (Hr : 0 <= x < ring_size) by (apply Hrange; by rewrite Hx).
  assert (Hnin : x ∉ queued l) by (rewrite Hfree; intuition congruence).
  split; cbn; try done.
  - apply NoDup_app. split_and!; [done| |apply NoDup_singleton].
    intros y Hy. rewrite list_elem_of_singleton. by intros ->.
  - intros y. rewrite elem_of_app, list_elem_of_singleton, Hfree. unfold give.
    destruct (Z.eqb_spec y x) as [->|Hne]; intuition congruence.
  - intros y Hy. destruct (decide (y = x)) as [->|Hne]; [done|].
    rewrite give_ne in Hy by done. by apply Hrange.
  - intros t'. destruct (decide (t' = t)) as [->|Hne].
    + split; try done; [by rewrite Htk|by rewrite Hg].
    + destruct (Hother t' Hne) as [-> Htk']. apply (tracks_frame l f); try done; cbn; intros y Hy;
        (rewrite give_ne; [done|]); intros Heq; subst y; intuition congruence.
Qed.

Lemma callers_goto t st s t' : t' <> t -> callers (pgoto t st s) t' = callers s t'.
Proof. apply at_thread_ne. Qed.

Lemma pool_inv_pop put s l f t weak s' new :
  pool_inv put s l f -> pop_idx_step s t weak = (s', new) ->
  Z.of_nat (length (put ++ claimed new)) <= MAX_POS ->
  exists l' f', ledger_all l new = Some l' /\ allf f (new ≫= as_events) = Some f' /\
    pool_inv (put ++ claimed new) s' l' f'.
Proof.
  intros HI Hs HB. destruct (sim_pop s put f t weak s' new (pi_ring _ _ _ _ HI) Hs HB) as (f' & Hf & HR).
  pose proof (pi_tracks _ _ _ _ HI t) as [Hpop _ _]. pose proof (pi_items _ _ _ _ HI) as Hit.
  pose proof (ri_knows _ _ _ _ (pi_ring _ _ _ _ HI) t) as HK.
  assert (Hquiet : forall st s', new = [] -> (forall t', callers s' t' = callers (pgoto t st s) t') ->
    giving_back st = None -> aborted st = false -> rinv (as_ring s') (put ++ claimed []) f' ->
    exists l' f', ledger_all l new = Some l' /\ allf f (new ≫= as_events) = Some f' /\
    pool_inv (put ++ claimed new) s' l' f').
  { intros st s1 -> Hc Hg Ha HR1. exists l, f'. split; [done|]. split; [done|].
    injection Hf as <-. apply (pool_inv_still put s l f t); try done.
    - intros t' Hne. rewrite Hc. split; [by apply callers_goto|done].
    - rewrite Hc. cbn. rewrite at_thread_eq. split; try done. by rewrite Hg. }
  assert (Hid : s = s' /\ new = [] -> exists l' f', ledger_all l new = Some l' /\
    allf f (new ≫= as_events) = Some f' /\ pool_inv (put ++ claimed new) s' l' f').
  { intros [<- ->]. exists l, f. split_and!; try done. cbn. by rewrite app_nil_r. }
  unfold pop_idx_step in Hs. cbn in HK.
  destruct (callers s t) as [| |pos|pos|pos|pos idx|r| | | | | | | |] eqn:Ht;
    try (apply Hid; by simplify_eq).
  - simplify_eq. by eapply Hquiet.
  - repeat case_if; simplify_eq; by eapply Hquiet.
  - case_if; simplify_eq; [by eapply Hquiet|]. cbn in Hf. case_if; [|done]. bool_prop. simplify_eq.
    destruct (queued l) as [|x rest] eqn:Hq; [rewrite Hit in *; cbn in *; lia|].
    exists (mk_ledger rest (give l x (Popping t))). eexists. cbn. rewrite Hq. split; [done|]. 
    split; [by rewrite (proj2 (Z.leb_le _ _)) by done|].
    cbn in HR. rewrite app_nil_r in *. rewrite Hit in HR |- *.
    apply (pool_inv_popped put s l f t); cbn; rewrite ?at_thread_eq; try done.
    intros t' Hne. by rewrite !at_thread_ne.
  - destruct HK as (? & ? & ? & ? & ? & Htk & Hgot & Hq). cbn in *.
    assert (Hidx : slot_frame_idx s (pool_slot pos) < ring_size).
    { destruct (Hq pos) as [_ [_ Hn]]; [lia|]. rewrite pool_slot_ring.
      apply (pi_range _ _ _ _ HI). rewrite (Hpop (slot_frame_idx s (ring_slot ring_size pos))); [done|].
      rewrite Htk. change (Z.to_nat 1) with 1%nat. by rewrite (drop_S _ _ _ Hn). }
    rewrite (proj2 (Z.leb_gt _ _)) in Hs by done. simplify_eq. by eapply Hquiet.
  - simplify_eq. by eapply (Hquiet (PopReturn (Some idx))).
  - destruct HK as [_ Htk]. simplify_eq. cbn in Hf, HR. rewrite decide_True in Hf by done. simplify_eq.
    rewrite app_nil_r in HR. destruct r as [idx|]; cbn.
    + specialize (Hpop idx Htk). rewrite !decide_True by done. do 2 eexists.
      split_and!; [done..|]. rewrite app_nil_r.
      apply (pool_inv_move put s l f t idx); cbn; rewrite ?at_thread_eq; auto.
      * intros t' Hne. by rewrite !at_thread_ne.
      * split; cbn; rewrite ?at_thread_eq; done.
    + rewrite !decide_True by done. do 2 eexists. split_and!; [done..|]. rewrite app_nil_r.
      apply (pool_inv_still put s l f t); cbn; rewrite ?at_thread_eq; auto.
      * intros t' Hne. by rewrite !at_thread_ne.
      * split; cbn; rewrite ?at_thread_eq; done.
Qed.

Lemma pool_inv_push put s l f t weak s' new :
  pool_inv put s l f -> push_idx_step s t weak = (s', new) ->
  Z.of_nat (length (put ++ claimed new)) <= MAX_POS ->
  exists l' f', ledger_all l new = Some l' /\ allf f (new ≫= as_events) = Some f' /\
    pool_inv (put ++ claimed new) s' l' f'.
Proof.
  intros HI Hs HB. destruct (sim_push s put f t weak s' new (pi_ring _ _ _ _ HI) Hs HB) as (f' & Hf & HR).
  pose proof (pi_tracks _ _ _ _ HI t) as [Hpop Hpush _]. pose proof (pi_items _ _ _ _ HI) as Hit.
  pose proof (ri_knows _ _ _ _ (pi_ring _ _ _ _ HI) t) as HK.
  assert (Hquiet : forall st s', new = [] -> (forall t', callers s' t' = callers (pgoto t st s) t') ->
    (forall x, giving_back st = Some x -> giving_back (callers s t) = Some x) -> aborted st = false ->
    rinv (as_ring s') (put ++ claimed []) f' ->
    exists l' f', ledger_all l new = Some l' /\ allf f (new ≫= as_events) = Some f' /\
    pool_inv (put ++ claimed new) s' l' f').
  { intros st s1 -> Hc Hg Ha HR1. exists l, f'. split; [done|]. split; [done|].
    injection Hf as <-. apply (pool_inv_still put s l f t); try done.
    - intros t' Hne. rewrite Hc. split; [by apply callers_goto|done].
    - rewrite Hc. cbn. rewrite at_thread_eq. split; auto. }
  assert (Hid : s = s' /\ new = [] -> exists l' f', ledger_all l new = Some l' /\
    allf f (new ≫= as_events) = Some f' /\ pool_inv (put ++ claimed new) s' l' f').
  { intros [<- ->]. exists l, f. split_and!; try done. cbn. by rewrite app_nil_r. }
  unfold push_idx_step in Hs. cbn in HK.
  destruct (callers s t) as [| | | | | | |idx|idx pos|idx pos|idx pos|idx pos|idx pos|idx ok|] eqn:Ht;
    try (apply Hid; by simplify_eq).
  - simplify_eq. by eapply Hquiet.
  - repeat case_if; simplify_eq; by eapply Hquiet.
  - case_if; simplify_eq; [by eapply Hquiet|]. specialize (Hpush idx eq_refl).
    destruct HK as (_ & _ & _ & Htk & _). cbn in Hf. case_if; [|done]. bool_prop. simplify_eq.
    exists (mk_ledger (queued l ++ [idx]) (give l idx Free)). eexists. cbn [ledger_all foldl mbind option_bind].
    cbn. rewrite decide_True by done. split; [done|].
    split; [by rewrite (proj2 (Z.leb_le _ _)) by done|]. cbn in HR. rewrite Hit in HR |- *.
    apply (pool_inv_pushed put s l f t); cbn; rewrite ?at_thread_eq; try done.
    intros t' Hne. by rewrite !at_thread_ne.
  - case_if; simplify_eq; [by eapply Hquiet|]. specialize (Hpush idx eq_refl).
    destruct HK as [Hst Htk]. cbn in Hf, HR. rewrite Hst in Hf. cbn in Hf. simplify_eq.
    cbn. rewrite Hst. do 2 eexists. split_and!; [done..|].
    apply (pool_inv_still put s l f t); cbn; rewrite ?at_thread_eq; try done.
    + intros t' Hne. by rewrite !at_thread_ne.
    + split; cbn; try done. by intros x [= <-].
  - simplify_eq. by eapply (Hquiet (PushPublish idx pos)).
  - simplify_eq. by eapply (Hquiet (PushReturn idx true)).
  - destruct HK as [Hst Htk]. simplify_eq. cbn in Hf, HR. rewrite Hst, Z.eqb_refl in Hf. simplify_eq.
    cbn. rewrite Hst, Z.eqb_refl. destruct ok; cbn.
    + do 2 eexists. split_and!; [done..|]. apply (pool_inv_still put s l f t); cbn; rewrite ?at_thread_eq; try done.
      * intros t' Hne. by rewrite !at_thread_ne.
    + specialize (Hpush idx eq_refl). rewrite decide_True by done. do 2 eexists. split_and!; [done..|].
      apply (pool_inv_move put s l f t idx); cbn; rewrite ?at_thread_eq; auto.
      * intros t' Hne. by rewrite !at_thread_ne.
      * split; cbn; try done. by rewrite Htk.
Qed.

Lemma ledger_all_app l a b l' : ledger_all l a = Some l' -> ledger_all l (a ++ b) = ledger_all l' b.
Proof. unfold ledger_all. rewrite foldl_app. by intros ->. Qed.

Definition all_claimed (evs : list pevent) : list Z := frames ++ claimed evs.

Lemma all_claimed_app a b : all_claimed (a ++ b) = all_claimed a ++ claimed b.
Proof. unfold all_claimed. by rewrite bind_app, put_entries_app, app_assoc. Qed.

Lemma pool_inv_run evs s :
  pool_run evs s -> Z.of_nat (length (all_claimed evs)) <= MAX_POS ->
  exists l f, ledger_run evs = Some l /\ pool_inv (all_claimed evs) s l f.
Proof.
  induction 1 as [|evs s t Hr IH Hidle|evs s t idx l Hr IH Hidle Hl Hheld|evs s t weak s' new Hr IH Hs];
    intros HB.
  - exists ledger_start, (fifo_start frames). split; [done|]. unfold all_claimed. cbn. rewrite app_nil_r.
    split; cbn; try done.
    + apply pool_init_inv.
    + unfold frames. rewrite count_up_seqZ. apply NoDup_seqZ.
    + intros x. pose proof (LIMIT_range _ Hpow2). unfold frames.
      rewrite count_up_seqZ, elem_of_seqZ. intuition lia.
  - destruct (IH HB) as (l & f & Hl & HI). exists l, f. split; [done|].
    pose proof (pi_tracks _ _ _ _ HI t) as [Hpop _ _].
    pose proof (ri_knows _ _ _ _ (pi_ring _ _ _ _ HI) t) as HK. cbn in HK. rewrite Hidle in HK.
    apply (pool_inv_still (all_claimed evs) s l f t); try done.
    + rewrite as_ring_goto. pose proof (LIMIT_range _ Hpow2).
      apply (inv_local ring_size _ _ f); cbn; rewrite ?Hidle; try done; [apply HI|].
      destruct HK. split_and!; try done; lia.
    + intros t' Hne. by rewrite callers_goto.
    + cbn. rewrite at_thread_eq. split; done.
  - rewrite all_claimed_app in *. cbn in *. rewrite app_nil_r in *.
    destruct (IH HB) as (l1 & f & Hl1 & HI). assert (l1 = l) as -> by congruence.
    pose proof (ri_knows _ _ _ _ (pi_ring _ _ _ _ HI) t) as HK. cbn in HK. rewrite Hidle in HK.
    destruct HK as [Hst Htk]. pose proof (pi_range _ _ _ _ HI idx) as Hrange. rewrite Hheld in Hrange.
    eexists. exists f. unfold ledger_run in *. rewrite (ledger_all_app _ _ _ _ Hl). cbn.
    rewrite decide_True by done. split; [done|].
    unfold push_call. rewrite (proj2 (Z.leb_gt _ _)) by (by apply Hrange).
    apply (pool_inv_move (all_claimed evs) s l f t idx); auto.
    + rewrite as_ring_goto. pose proof (LIMIT_range _ Hpow2).
      apply (inv_local ring_size _ _ f); cbn; rewrite ?Hidle; try done; [apply HI|].
      split_and!; try done; lia.
    + intros t' Hne. by rewrite callers_goto.
    + cbn. rewrite at_thread_eq. split; cbn; try done; [by rewrite Htk|].
      intros x [= <-]. apply give_eq.
  - rewrite all_claimed_app in *.
    destruct IH as (l & f & Hl & HI); [rewrite length_app in HB; lia|].
    assert (exists l' f', ledger_all l new = Some l' /\ allf f (new ≫= as_events) = Some f' /\
      pool_inv (all_claimed evs ++ claimed new) s' l' f') as (l' & f' & Hl' & _ & HI').
    { unfold pool_step in Hs. destruct (callers s t); eauto using pool_inv_pop, pool_inv_push. }
    exists l', f'. unfold ledger_run in *. by rewrite (ledger_all_app _ _ _ _ Hl).
Qed.

(** *** A pop run alone *)

(** The frame at the head is ready: its position, its slot and its index. *)
Definition head_ready (s : pool) (idx : Z) : Prop :=
  let D := pool_dequeue_pos s in
  0 <= D <= MAX_POS /\ slot_sequence s (pool_slot D) = D + 1 /\ slot_frame_idx s (pool_slot D) = idx /\
  idx < ring_size.

Definition same_callers (s s' : pool) : Prop := forall t, callers s t = callers s' t.

Lemma pop_alone evs s t idx :
  pool_run evs s -> callers s t = PIdle -> head_ready s idx ->
  exists s', pool_run (evs ++ [Popped t; PopRet t (Some idx)]) s' /\ same_callers s s' /\
    slot_sequence s' = store (slot_sequence s) (pool_slot (pool_dequeue_pos s))
                         (pool_dequeue_pos s + ring_size) /\
    slot_frame_idx s' = slot_frame_idx s /\ pool_enqueue_pos s' = pool_enqueue_pos s /\
    pool_dequeue_pos s' = pool_dequeue_pos s + 1.
Proof.
  intros Hr Hidle (HD & Hseq & Hidx & Hlt). pose proof (LIMIT_range _ Hpow2) as HL.
  assert (Hu : forall x, 0 <= x <= MAX_POS + 2 * ring_size -> u64 x = x) by apply (u64_pos _ Hpow2).
  assert (Hs : forall x, 0 <= x <= MAX_POS + 2 * ring_size -> s64 x = x) by apply (s64_pos _ Hpow2).
  pose proof (pool_run_pop _ _ t Hr Hidle) as H1.
  do 6 (eapply (pool_run_step _ _ t false) in H1;
    [|unfold pool_step, pop_idx_step; cbn; rewrite at_thread_eq; cbn;
      rewrite ?Hseq, ?Hidx, ?Z.eqb_refl, ?Hu, ?Hs, ?Z.sub_diag by lia; cbn;
      rewrite ?(proj2 (Z.leb_gt _ _)) by lia; reflexivity]).
  eexists. split; [|split; [|split_and!]].
  - rewrite <- !app_assoc in H1. exact H1.
  - intros t'. cbn. unfold at_thread. destruct (Nat.eqb_spec t' t) as [->|]; done.
  - done.
  - done.
  - done.
  - done.
Qed.

(** As many pops as frames are ready. *)
Lemma pops_alone n : forall evs s t,
  pool_run evs s -> callers s t = PIdle ->
  let D := pool_dequeue_pos s in
  0 <= D -> D + Z.of_nat n <= MAX_POS -> Z.of_nat n <= ring_size ->
  (forall q, D <= q < D + Z.of_nat n ->
     slot_sequence s (pool_slot q) = q + 1 /\ slot_frame_idx s (pool_slot q) < ring_size) ->
  exists new s', pool_run (evs ++ new) s' /\ same_callers s s' /\ claimed new = [] /\
    pool_enqueue_pos s' = pool_enqueue_pos s /\ pool_dequeue_pos s' = D + Z.of_nat n.
Proof.
  induction n as [|n IH]; intros evs s t Hr Hidle D HD HB Hn Hready.
  { exists [], s. rewrite app_nil_r. split_and!; try done. subst D. lia. }
  destruct (pop_alone evs s t (slot_frame_idx s (pool_slot D)) Hr Hidle) as (s1 & Hr1 & Hc & Hseq & Hfi & HE1 & HD1).
  { destruct (Hready D) as [H1 H2]; [lia|]. split_and!; [lia|lia|exact H1|done|exact H2]. }
  fold D in HD1, Hseq. destruct (IH _ s1 t Hr1) as (new & s2 & Hr2 & Hc2 & Hn2 & HE2 & HD2); try lia.
  - by rewrite <- Hc.
  - intros q Hq. rewrite Hfi, Hseq. destruct (Hready q) as [H1 H2]; [lia|]. split; [|done].
    rewrite store_ne; [done|]. rewrite !pool_slot_ring. intros Heq.
    destruct (ring_slot_eq _ Hpow2 _ _ Heq) as [k Hk]. pose proof (LIMIT_times _ Hpow2 k). lia.
  - exists ([Popped t; PopRet t (Some (slot_frame_idx s (pool_slot D)))] ++ new), s2.
    rewrite app_assoc. split_and!; try done; try lia.
    intros t'. by rewrite Hc, Hc2.
Qed.

(** A run given as a list of moves. *)
Inductive move := StartPop (t : nat) | StartPush (t : nat) (idx : Z) | Step (t : nat).

Definition do_move (w : list pevent * pool) (m : move) : option (list pevent * pool) :=
  let '(evs, s) := w in
  match m with
  | StartPop t => match callers s t with PIdle => Some (evs, pgoto t PopLoad s) | _ => None end
  | StartPush t idx =>
      match callers s t, ledger_run evs with
      | PIdle, Some l =>
          if decide (own l idx = Held)
          then Some (evs ++ [PushCall t idx], pgoto t (push_call idx) s) else None
      | _, _ => None
      end
  | Step t => let '(s', new) := pool_step s t false in Some (evs ++ new, s')
  end.

Definition do_moves (ms : list move) : option (list pevent * pool) :=
  foldl (fun w m => w ≫= fun w => do_move w m) (Some ([], xdp_frame_pool_init)) ms.

Lemma do_moves_run ms evs s : do_moves ms = Some (evs, s) -> pool_run evs s.
Proof.
  revert evs s. induction ms as [|m ms IH] using rev_ind; intros evs s.
  { cbn. intros [= <- <-]. apply pool_run_init. }
  unfold do_moves. rewrite foldl_app. fold (do_moves ms). cbn.
  destruct (do_moves ms) as [[evs1 s1]|]; [|done]. specialize (IH _ _ eq_refl). cbn.
  destruct m as [t|t idx|t]; cbn.
  - destruct (callers s1 t) eqn:Hc; try done. intros [= <- <-]. by apply pool_run_pop.
  - destruct (callers s1 t) eqn:Hc; try done. destruct (ledger_run evs1) eqn:Hl; [|done].
    destruct (decide _); [|done]. intros [= <- <-]. by eapply pool_run_push.
  - destruct (pool_step s1 t false) eqn:Hs. intros [= <- <-]. by eapply pool_run_step.
Qed.

Lemma ledger_lost evs t idx l :
  ledger_run (evs ++ [PushRet t idx false]) = Some l -> own l idx = Lost.
Proof.
  unfold ledger_run, ledger_all. rewrite foldl_app. destruct (foldl _ _ evs) as [l1|]; cbn; [|done].
  case_decide; [|done]. intros [= <-]. apply give_eq.
Qed.

(** A push that asks whether the ring is full after its position was taken by
    others, in an empty pool. *)
Lemma refused_when_drained evs s t idx pos :
  pool_run evs s -> callers s t = PushFull idx pos -> pool_dequeue_pos s = pos + 1 ->
  pool_enqueue_pos s = pool_dequeue_pos s -> Z.of_nat (length (all_claimed evs)) <= MAX_POS ->
  exists evs' s' l, pool_run evs' s' /\ ledger_run evs' = Some l /\ own l idx = Lost /\
    pool_enqueue_pos s' = pool_dequeue_pos s' /\ queued l = [].
Proof.
  intros Hr Hc HD HE HB. pose proof (LIMIT_range _ Hpow2).
  assert (Hs1 : pool_step s t false = (pgoto t (PushReturn idx false) s, [])).
  { unfold pool_step, push_idx_step. rewrite Hc, HD. replace (pos - (pos + 1)) with (-1) by lia.
    rewrite (proj2 (Z.leb_le _ _)); [done|]. unfold wrap. zlia. }
  pose proof (pool_run_step _ _ _ _ _ _ Hr Hs1) as Hr1. rewrite app_nil_r in Hr1.
  assert (Hs2 : pool_step (pgoto t (PushReturn idx false) s) t false =
    (pgoto t PIdle (pgoto t (PushReturn idx false) s), [PushRet t idx false])).
  { unfold pool_step, push_idx_step. cbn. by rewrite at_thread_eq. }
  pose proof (pool_run_step _ _ _ _ _ _ Hr1 Hs2) as Hr2.
  destruct (pool_inv_run _ _ Hr2) as (l & f & Hl & HI).
  { rewrite all_claimed_app. cbn. by rewrite app_nil_r. }
  do 2 eexists. exists l. split_and!; [exact Hr2|exact Hl|by eapply ledger_lost|exact HE|].
  apply nil_length_inv.
  rewrite <- (pi_items _ _ _ _ HI), (ri_items _ _ _ _ (pi_ring _ _ _ _ HI)), length_drop.
  pose proof (ri_enq _ _ _ _ (pi_ring _ _ _ _ HI)) as HEn. cbn in HEn |- *. lia.
Qed.
End Pool.

(** *** The pool of the program *)

Lemma frame_cnt_power_of_two : power_of_two XDP_UMEM_FRAME_CNT.
Proof. by exists 16. Qed.

(** C9: Under every interleaving of threads that free only frames they were given,
    every frame has one owner: the frames in the pool are exactly those nobody
    owns, each once; a pop gives the caller a frame nobody else owns, in the order
    the frames came back; and no index out of range is ever read, so the process
    never aborts. *)
Theorem frame_exclusive evs s :
  pool_run XDP_UMEM_FRAME_CNT evs s ->
  Z.of_nat (length (all_claimed XDP_UMEM_FRAME_CNT evs)) <= MAX_POS ->
  exists l, ledger_run XDP_UMEM_FRAME_CNT evs = Some l /\ NoDup (queued l) /\
    (forall x, x ∈ queued l <-> own l x = Free /\ 0 <= x < XDP_UMEM_FRAME_CNT) /\
    (forall t, aborted (callers s t) = false).
Proof.
  intros Hr HB. destruct (pool_inv_run _ frame_cnt_power_of_two evs s Hr HB) as (l & f & Hl & HI).
  exists l. split_and!; try done; try apply HI.
Qed.

(** Thread 0 has taken a frame and not handed its slot back; thread 1 wants to push
    frame 2 into that slot and is about to ask whether the ring is full; then thread
    0 finishes and pushes its frame. *)
Definition ex_moves : list move :=
  StartPop 2 :: replicate 6 (Step 2) ++ StartPop 0 :: replicate 4 (Step 0) ++
  StartPop 2 :: replicate 6 (Step 2) ++ StartPush 2 0 :: replicate 6 (Step 2) ++
  StartPush 1 2 :: replicate 2 (Step 1) ++ replicate 2 (Step 0) ++ StartPush 0 1 :: replicate 6 (Step 0).

Definition ex_state : list pevent * pool :=
  default ([], xdp_frame_pool_init XDP_UMEM_FRAME_CNT) (do_moves XDP_UMEM_FRAME_CNT ex_moves).

Lemma ex_state_run : pool_run XDP_UMEM_FRAME_CNT ex_state.1 ex_state.2.
Proof.
  unfold ex_state. destruct (do_moves XDP_UMEM_FRAME_CNT ex_moves) as [[evs s]|] eqn:Hm; cbn.
  - by eapply do_moves_run.
  - apply pool_run_init.
Qed.

Lemma ex_sequence :
  slot_sequence ex_state.2 =
    store (store (store (store (store (fun i => i + 1) 0 65536) 2 65538) 0 65537) 1 65537) 1 65538.
Proof. by vm_compute. Qed.

Lemma ex_frame_idx : slot_frame_idx ex_state.2 = store (store (fun i => i) 0 0) 1 1.
Proof. by vm_compute. Qed.

(** Everything but what thread 1 is about to push gets allocated. *)
Lemma ex_drained : exists new s,
  pool_run XDP_UMEM_FRAME_CNT (ex_state.1 ++ new) s /\ put_entries (new ≫= as_events) = [] /\
  callers s 1%nat = PushFull 2 65537 /\ pool_enqueue_pos s = 65538 /\ pool_dequeue_pos s = 65538.
Proof.
  assert (exists n, Z.of_nat n = 65535) as [n Hn65535] by (exists (Z.to_nat 65535); by apply Z2Nat.id).
  destruct (pops_alone _ frame_cnt_power_of_two n ex_state.1 ex_state.2 2 ex_state_run)
    as (new & s & Hr & Hc & Hn & HE & HD); rewrite ?Hn65535 in *.
  - by vm_compute.
  - by vm_compute.
  - by vm_compute.
  - by vm_compute.
  - replace (pool_dequeue_pos ex_state.2) with 3 by (by vm_compute).
    intros q Hq. rewrite (pool_slot_ring _ frame_cnt_power_of_two), (ring_slot_mod _ frame_cnt_power_of_two).
    change XDP_UMEM_FRAME_CNT with 65536. rewrite ex_sequence, ex_frame_idx.
    assert (q < 65536 /\ q mod 65536 = q \/ q = 65536 \/ q = 65537) as [[? ->]|[-> | ->]] by zlia; [|done..].
    rewrite !store_ne by lia. lia.
  - exists new, s. split_and!; [exact Hr|exact Hn|..].
    + rewrite <- Hc. by vm_compute.
    + rewrite HE. by vm_compute.
    + rewrite HD. by vm_compute.
Qed.

(** C26: A push can be refused although the pool is empty: while a thread asks
    whether the ring is full, others may move the dequeue position past the position
    the thread holds; the unsigned difference wraps, the push reports a full ring
    and the frame is lost for good. *)
Theorem push_refused_on_empty_pool :
  exists evs s l idx, pool_run XDP_UMEM_FRAME_CNT evs s /\
    ledger_run XDP_UMEM_FRAME_CNT evs = Some l /\ own l idx = Lost /\
    pool_enqueue_pos s = pool_dequeue_pos s /\ queued l = [].
Proof.
  destruct ex_drained as (new & s & Hr & Hn & Hc & HE & HD).
  destruct (refused_when_drained _ frame_cnt_power_of_two _ _ _ _ _ Hr Hc) as (evs' & s' & l & H).
  - rewrite HD. lia.
  - rewrite HE, HD. lia.
  - rewrite all_claimed_app, Hn, app_nil_r. by vm_compute.
  - exists evs', s', l, 2. exact H.
Qed.

(** Freeing a pointer pushes exactly the index it was allocated for, and nothing
    for a pointer that is no frame's. *)
Theorem frame_ptr_roundtrip buffer frame idx :
  xdp_frame_free buffer frame = Some idx <->
  0 <= idx < XDP_UMEM_FRAME_CNT /\ xdp_frame_alloc buffer (Some idx) = (0, Some frame).
Proof.
  unfold xdp_frame_free, xdp_frame_alloc, xdp_frame_ptr_valid, ptr_to_idx, idx_to_ptr,
    XDP_UMEM_FRAME_SIZE, XDP_UMEM_FRAME_CNT, wrap. split.
  - repeat case_if; try done; bool_prop; intros [= <-]. split; [zlia|]. do 2 f_equal. zlia.
  - intros [Hi [= <-]]. rewrite (proj2 (Z.ltb_ge _ _)), (proj2 (Z.leb_gt _ _)) by lia. cbn.
    rewrite (proj2 (Z.eqb_eq _ _)) by zlia. f_equal. zlia.
Qed.

(** *** Witness *)

Lemma frame_exclusive_witness :
  exists l, ledger_run XDP_UMEM_FRAME_CNT ex_state.1 = Some l /\ NoDup (queued l).
Proof.
  destruct (frame_exclusive ex_state.1 ex_state.2 ex_state_run) as (l & Hl & Hn & _).
  - by vm_compute.
  - exists l. exact (conj Hl Hn).
Defined.
