(* ===== verification/FrameCache.v ===== *)
(** Allocation of frame slots (src/lib/frame_cache.c): frames carved into slots of
    six sizes, a cache of free slots per thread, the shared caches behind them.

    Each call is one step here; the shared caches are the queues FrameRing.v shows
    them to be, and the frames come from the pool of FramePool.v.  What the other
    threads do to the shared caches meanwhile shows in how many slots a batch moves,
    which is an argument ([accept], [offer]); one call moves at most one batch into and
    one out of a shared cache.  A slot is its frame and its index in
    the frame.  An assertion that fails is [None]. *)

From stdpp Require Import functions prelude list.
From Stdlib Require Import ZArith Lia.
From S2P Require Import Prelude FrameRing.

Definition FRAME_PAGE_SIZE : Z := 4096.
Definition FRAME_SLOT_CLASS_COUNT : nat := 6.
Definition THREAD_FRAME_CACHE_LIMIT : nat := 64.
Definition THREAD_FRAME_CACHE_LOW : nat := 32.

(** [sizeof(page_info)] and [sizeof(frame_slot)]. *)
Definition PAGE_INFO_SIZE : Z := 16.
Definition FRAME_SLOT_STRUCT_SIZE : Z := 40.

Definition align_up_u32 (value align : Z) : Z :=
  Z.land (u32 (value + align - 1)) (u32 (Z.lnot (align - 1))).

Lemma align_up_16 v : 0 <= v <= 65536 -> align_up_u32 v 16 = 16 * ((v + 15) / 16).
Proof.
  intros Hv. unfold align_up_u32. change (16 - 1) with 15.
  change (u32 (Z.lnot 15)) with (Z.shiftl (Z.ones 28) 4).
  replace (v + 16 - 1) with (v + 15) by lia. rewrite wrap_id by (unfold is_u; lia).
  replace (16 * ((v + 15) / 16)) with (Z.shiftl (Z.shiftr (v + 15) 4) 4)
    by (rewrite Z.shiftl_mul_pow2, Z.shiftr_div_pow2 by lia; change (2 ^ 4) with 16; lia).
  apply Z.bits_inj'. intros n Hn. rewrite Z.land_spec, !Z.shiftl_spec by done.
  destruct (decide (n < 4)).
  - rewrite !(Z.testbit_neg_r _ (n - 4)) by lia. apply andb_false_r.
  - rewrite Z.shiftr_spec by lia. replace (n - 4 + 4) with n by lia.
    destruct (decide (n < 32)).
    + rewrite Z.ones_spec_low by lia. apply andb_true_r.
    + rewrite <- (Z.mod_small (v + 15) (2 ^ 32)), Z.mod_pow2_bits_high by lia. done.
Qed.

Abbreviation slot := (Z * nat)%type.

Record cache_world := mk_cache_world {
  local : nat -> nat -> list slot;
  shared : nat -> list slot;
  page_ref : Z -> Z;
  slot_ref : slot -> Z;
  slot_size : slot -> Z;
  returned : list Z
}.

#[export] Instance eta_cache_world : Eta cache_world :=
  fun w => mk_cache_world (local w) (shared w) (page_ref w) (slot_ref w) (slot_size w) (returned w).
#[export] Instance set_w_local : Setter local := ltac:(mk_setter).
#[export] Instance set_w_shared : Setter shared := ltac:(mk_setter).
#[export] Instance set_w_page_ref : Setter page_ref := ltac:(mk_setter).
#[export] Instance set_w_slot_ref : Setter slot_ref := ltac:(mk_setter).
#[export] Instance set_w_slot_size : Setter slot_size := ltac:(mk_setter).
#[export] Instance set_w_returned : Setter returned := ltac:(mk_setter).

Section Cache.

(** [sizeof(struct xsk_tx_metadata)]. *)
Context (XDP_TX_METADATA_LEN : Z).

(** [FRAME_SLOT_SIZE_6]: what a whole frame leaves for data. *)
Definition FRAME_SLOT_FULL_HEADROOM : Z :=
  align_up_u32 (align_up_u32 PAGE_INFO_SIZE 16 + FRAME_SLOT_STRUCT_SIZE + XDP_TX_METADATA_LEN) 16.
Definition FRAME_SLOT_SIZE_6 : Z := FRAME_PAGE_SIZE - FRAME_SLOT_FULL_HEADROOM.

Definition g_frame_slot_sizes : list Z := [128; 254; 512; 1024; 1800; FRAME_SLOT_SIZE_6].

Fixpoint first_class (p : Z -> bool) (sizes : list Z) (i : nat) : option nat :=
  match sizes with
  | [] => None
  | size :: sizes => if p size then Some i else first_class p sizes (S i)
  end.

Definition frame_size_class (min_data_len : Z) : option nat :=
  let min_data_len := if min_data_len =? 0 then FRAME_SLOT_SIZE_6 else min_data_len in
  first_class (fun size => min_data_len <=? size) g_frame_slot_sizes 0.

Definition frame_slot_size_class (slot_size : Z) : option nat :=
  first_class (fun size => slot_size =? size) g_frame_slot_sizes 0.

(** *** References to frames *)

(** [PUT_REF] of a [page_info]; the last one is [xdp_frame_free]. *)
Definition put_page (w : cache_world) (p : Z) : cache_world :=
  if page_ref w p =? 0 then w
  else
    let w' := w <| page_ref := <[p := page_ref w p - 1]> (page_ref w) |> in
    if page_ref w p =? 1 then w' <| returned := returned w ++ [p] |> else w'.

Definition put_pages (w : cache_world) (entries : list slot) : cache_world :=
  foldl (fun w s => put_page w s.1) w entries.

(** *** The cache of a thread *)

Definition set_local (w : cache_world) (t c : nat) (l : list slot) : cache_world :=
  w <| local := <[t := <[c := l]> (local w t)]> (local w) |>.

Definition local_cache_push (w : cache_world) (t c : nat) (s : slot) : option cache_world :=
  if (THREAD_FRAME_CACHE_LIMIT <=? length (local w t c))%nat then None
  else Some (set_local w t c (local w t c ++ [s])).

(** [global_cache_enqueue_batch]: at most [accept] entries, as many as fit. *)
Definition global_cache_enqueue_batch (w : cache_world) (c : nat) (entries : list slot) (accept : nat)
    : nat * cache_world :=
  let room := (Z.to_nat GLOBAL_FRAME_CACHE_LIMIT - length (shared w c))%nat in
  let pushed := Nat.min accept (Nat.min (length entries) room) in
  (pushed, w <| shared := <[c := shared w c ++ take pushed entries]> (shared w) |>).

Definition local_cache_spill (w : cache_world) (t c : nat) (accept : nat) : cache_world :=
  let l := local w t c in
  if (length l <=? THREAD_FRAME_CACHE_LOW)%nat then w
  else
    let entries := drop THREAD_FRAME_CACHE_LOW l in
    let w := set_local w t c (take THREAD_FRAME_CACHE_LOW l) in
    let '(pushed, w) := global_cache_enqueue_batch w c entries accept in
    put_pages w (drop pushed entries).

(** Push, with room made when there is none. *)
Definition push_or_spill (w : cache_world) (t c : nat) (s : slot) (accept : nat) : option cache_world :=
  match local_cache_push w t c s with
  | Some w => Some w
  | None => local_cache_push (local_cache_spill w t c accept) t c s
  end.

Definition cache_free_slot (w : cache_world) (t : nat) (s : slot) (accept : nat) : option cache_world :=
  match frame_slot_size_class (slot_size w s) with
  | None => Some (put_page w s.1)
  | Some c => push_or_spill w t c s accept
  end.

Definition cache_slot_acquire (w : cache_world) (s : slot) : option cache_world :=
  if slot_ref w s =? 0 then Some (w <| slot_ref := <[s := 1]> (slot_ref w) |>) else None.

Definition local_cache_pop (w : cache_world) (t c : nat) : option (option slot * cache_world) :=
  match last (local w t c) with
  | None => Some (None, w)
  | Some s =>
      let w := set_local w t c (take (length (local w t c) - 1) (local w t c)) in
      w ← cache_slot_acquire w s; Some (Some s, w)
  end.

(** [global_cache_dequeue_batch]: at most [offer] entries, as many as there are. *)
Definition global_cache_dequeue_batch (w : cache_world) (c want offer : nat) : list slot * cache_world :=
  let got := take (Nat.min offer want) (shared w c) in
  (got, w <| shared := <[c := drop (length got) (shared w c)]> (shared w) |>).

Definition local_cache_refill (w : cache_world) (t c : nat) (offer : nat) : nat * cache_world :=
  let room := (THREAD_FRAME_CACHE_LIMIT - length (local w t c))%nat in
  let want := Nat.min THREAD_FRAME_CACHE_LOW room in
  let '(got, w) := global_cache_dequeue_batch w c want offer in
  (length got, set_local w t c (local w t c ++ got)).

(** *** Carving a frame *)

Definition slot_offset : Z := align_up_u32 PAGE_INFO_SIZE 16.
Definition class_size (c : nat) : Z := nth c g_frame_slot_sizes 0.
Definition stride (c : nat) : Z :=
  align_up_u32 (FRAME_SLOT_STRUCT_SIZE + XDP_TX_METADATA_LEN + class_size c) 16.
Definition slot_count (c : nat) : nat := Z.to_nat ((FRAME_PAGE_SIZE - slot_offset) / stride c).

(** Where the [i]-th slot of a frame has its data. *)
Definition slot_data (c : nat) (i : nat) : Z :=
  slot_offset + Z.of_nat i * stride c + FRAME_SLOT_STRUCT_SIZE + XDP_TX_METADATA_LEN.

Definition init_slot (w : cache_world) (s : slot) (size : Z) (allocated : bool) : cache_world :=
  w <| slot_ref := <[s := if allocated then 1 else 0]> (slot_ref w) |>
    <| slot_size := <[s := size]> (slot_size w) |>.

(** The loop of [alloc_slot_page] from the second slot on; [n] slots are left. *)
Fixpoint carve (w : cache_world) (t c : nat) (page : Z) (n i : nat) (accept : nat) : option cache_world :=
  match n with
  | O => Some w
  | S n =>
      let s := (page, i) in
      w ← push_or_spill (init_slot w s (class_size c) false) t c s accept;
      carve w t c page n (S i) accept
  end.

(** [frame]: what [xdp_frame_alloc] gives. *)
Definition alloc_slot_page (w : cache_world) (t c : nat) (frame : option Z) (accept : nat)
    : option (option slot * cache_world) :=
  match frame with
  | None => Some (None, w)
  | Some page =>
      let count := slot_count c in
      let w := w <| page_ref := <[page := Z.of_nat count]> (page_ref w) |> in
      match count with
      | O => Some (None, w)
      | S n =>
          let first := (page, 0%nat) in
          w ← carve (init_slot w first (class_size c) true) t c page n 1 accept;
          Some (Some first, w)
      end
  end.

(** [frame_slot_alloc_class]: the thread's cache, then the shared one, then a new
    frame. *)
Definition frame_slot_alloc_class (w : cache_world) (t c : nat) (offer : nat) (frame : option Z) (accept : nat)
    : option (option slot * cache_world) :=
  '(s, w) ← local_cache_pop w t c;
  match s with
  | Some s => Some (Some s, w)
  | None =>
      let '(added, w) := local_cache_refill w t c offer in
      if (added =? 0)%nat then alloc_slot_page w t c frame accept
      else
        '(s, w) ← local_cache_pop w t c;
        match s with
        | Some s => Some (Some s, w)
        | None => alloc_slot_page w t c frame accept
        end
  end.

Definition frame_slot_alloc (w : cache_world) (t : nat) (min_data_len : Z) (offer : nat) (frame : option Z)
    (accept : nat) : option (option slot * cache_world) :=
  match frame_size_class min_data_len with
  | None => Some (None, w)
  | Some c => frame_slot_alloc_class w t c offer frame accept
  end.

(** *** References to slots *)

(** [PUT_REF] of a slot; the last one is [destroy_frame_slot]. *)
Definition put_slot (w : cache_world) (t : nat) (s : slot) (accept : nat) : option cache_world :=
  if slot_ref w s =? 0 then Some w
  else
    let w' := w <| slot_ref := <[s := slot_ref w s - 1]> (slot_ref w) |> in
    if slot_ref w s =? 1 then cache_free_slot w' t s accept else Some w'.

Definition inc_slot (w : cache_world) (s : slot) : cache_world :=
  w <| slot_ref := <[s := slot_ref w s + 1]> (slot_ref w) |>.

(** *** Reset *)

Definition frame_cache_init : nat -> list slot := fun _ => [].

Definition frame_cache_reset (w : cache_world) (t : nat) : cache_world :=
  let w' := foldl (fun w c => put_pages w (local w t c)) w (seq 0 FRAME_SLOT_CLASS_COUNT) in
  w' <| local := <[t := frame_cache_init]> (local w') |>.

(** The loop of [frame_global_cache_reset] for one class; alone, a batch takes what
    there is. *)
Fixpoint reset_class (fuel : nat) (w : cache_world) (c : nat) : cache_world :=
  match fuel with
  | O => w
  | S fuel =>
      let '(entries, w) := global_cache_dequeue_batch w c THREAD_FRAME_CACHE_LOW THREAD_FRAME_CACHE_LOW in
      let w := put_pages w entries in
      if (length entries =? 0)%nat then w else reset_class fuel w c
  end.

Definition frame_global_cache_reset (w : cache_world) : cache_world :=
  foldl (fun w c => reset_class (S (length (shared w c))) w c) w (seq 0 FRAME_SLOT_CLASS_COUNT).

(** *** Where the slots are *)

Inductive place :=
  | Live
  | InLocal (t c : nat)
  | InShared (c : nat)
  | InHand
  | Gone.

#[local] Instance place_dec : EqDecision place.
Proof. solve_decision. Defined.

Definition mark (l : list slot) (x : place) (pl : slot -> place) : slot -> place :=
  fun s => if decide (s ∈ l) then x else pl s.

Lemma mark_in l x pl s : s ∈ l -> mark l x pl s = x.
Proof. intros. unfold mark. by rewrite decide_True. Qed.
Lemma mark_out l x pl s : s ∉ l -> mark l x pl s = pl s.
Proof. intros. unfold mark. by rewrite decide_False. Qed.

(** More slots than a frame can hold. *)
Definition MAX_SLOTS : nat := Z.to_nat 4096.
#[local] Arguments MAX_SLOTS : simpl never.

Definition in_use_below (n : nat) (pl : slot -> place) (p : Z) : nat :=
  length (filter (fun i => pl (p, i) <> Gone) (seq 0 n)).
Definition in_use : (slot -> place) -> Z -> nat := in_use_below MAX_SLOTS.

Lemma in_use_S n pl p :
  in_use_below (S n) pl p = (in_use_below n pl p + if decide (pl (p, n) <> Gone) then 1 else 0)%nat.
Proof.
  unfold in_use_below. rewrite seq_S, filter_app, length_app. cbn. f_equal.
  destruct (decide _); done.
Qed.

Lemma in_use_ext n pl pl' p :
  (forall i, (i < n)%nat -> pl (p, i) <> Gone <-> pl' (p, i) <> Gone) ->
  in_use_below n pl p = in_use_below n pl' p.
Proof.
  induction n as [|n IH]; intros H; [done|]. rewrite !in_use_S, IH by (intros; apply H; lia).
  f_equal. specialize (H n ltac:(lia)). repeat case_decide; tauto.
Qed.

Lemma in_use_gone n pl s :
  pl s <> Gone -> (s.2 < n)%nat ->
  in_use_below n pl s.1 = S (in_use_below n (mark [s] Gone pl) s.1).
Proof.
  destruct s as [p i]. cbn [fst snd]. intros Hs. induction n as [|n IH]; intros Hi; [lia|].
  rewrite !in_use_S. destruct (decide (i = n)) as [->|Hne].
  - rewrite decide_True by done. rewrite decide_False by (rewrite mark_in by (by left); auto).
    rewrite (in_use_ext n pl (mark [(p, n)] Gone pl)); [lia|]. intros j Hj.
    rewrite mark_out; [done|]. rewrite list_elem_of_singleton. intros [= ->]. lia.
  - rewrite IH by lia. rewrite (mark_out [(p, i)] _ _ (p, n)); [done|].
    rewrite list_elem_of_singleton. intros [= ->]. done.
Qed.

(** The invariant: the caches hold what the places say, a frame's count is that of
    its slots in use. *)
Record winv (w : cache_world) (pl : slot -> place) : Prop := {
  wi_local t c : NoDup (local w t c) /\ forall s, s ∈ local w t c <-> pl s = InLocal t c;
  wi_local_len t c : (length (local w t c) <= THREAD_FRAME_CACHE_LIMIT)%nat;
  wi_shared c : NoDup (shared w c) /\ forall s, s ∈ shared w c <-> pl s = InShared c;
  wi_shared_len c : (length (shared w c) <= Z.to_nat GLOBAL_FRAME_CACHE_LIMIT)%nat;
  wi_live s : pl s = Live -> 0 < slot_ref w s /\
    exists c, (c < FRAME_SLOT_CLASS_COUNT)%nat /\ slot_size w s = class_size c;
  wi_cached s c : (exists t, pl s = InLocal t c) \/ pl s = InShared c ->
    slot_ref w s = 0 /\ (c < FRAME_SLOT_CLASS_COUNT)%nat /\ slot_size w s = class_size c;
  wi_page p : page_ref w p = Z.of_nat (in_use pl p);
  wi_index s : pl s <> Gone -> (s.2 < MAX_SLOTS)%nat
}.

Lemma winv_ext w pl pl' : (forall s, pl s = pl' s) -> winv w pl -> winv w pl'.
Proof.
  intros He [H1 H2 H3 H4 H5 H6 H7 H8]. split; try done.
  - intros t c. destruct (H1 t c). split; [done|]. intros s. by rewrite <- He.
  - intros c. destruct (H3 c). split; [done|]. intros s. by rewrite <- He.
  - intros s. rewrite <- He. apply H5.
  - intros s c. rewrite <- He. apply H6.
  - intros p. rewrite H7. f_equal. apply in_use_ext. intros i _. by rewrite He.
  - intros s. rewrite <- He. apply H8.
Qed.

(** *** Moves of slots *)

Lemma local_set_eq w t c l : local (set_local w t c l) t c = l.
Proof. cbn. by rewrite !fn_lookup_insert. Qed.
Lemma local_set_ne w t c l t' c' :
  (t', c') <> (t, c) -> local (set_local w t c l) t' c' = local w t' c'.
Proof.
  intros Hne. cbn. destruct (decide (t = t')) as [->|]; [|by rewrite fn_lookup_insert_ne].
  rewrite fn_lookup_insert. apply fn_lookup_insert_ne. congruence.
Qed.

(** Slots of a cache, or in hand, whose count is not given up. *)
Definition idle_slots (w : cache_world) (c : nat) (b : list slot) : Prop :=
  NoDup b /\ (c < FRAME_SLOT_CLASS_COUNT)%nat /\
  forall s, s ∈ b -> slot_ref w s = 0 /\ slot_size w s = class_size c.

(** Changes of place that keep the counts of the frames. *)
Lemma in_use_mark pl b x p :
  x <> Gone -> (forall s, s ∈ b -> pl s <> Gone) -> in_use (mark b x pl) p = in_use pl p.
Proof.
  intros Hx Hb. apply in_use_ext. intros i _. unfold mark. case_decide as Hi; [|done].
  split; intros _; [by apply Hb|done].
Qed.

(** The end of a thread's cache is taken in hand. *)
Lemma winv_take_local w pl t c a b :
  winv w pl -> local w t c = a ++ b -> (c < FRAME_SLOT_CLASS_COUNT)%nat ->
  winv (set_local w t c a) (mark b InHand pl) /\ idle_slots w c b /\
  (forall s, s ∈ b -> pl s = InLocal t c).
Proof.
  intros [H1 H2 H3 H4 H5 H6 H7 H8] Hl Hc. destruct (H1 t c) as [Hnd Hin]. rewrite Hl in Hnd, Hin.
  apply NoDup_app in Hnd as (Hna & Hab & Hnb).
  assert (Hpl : forall s, s ∈ b -> pl s = InLocal t c) by (intros s Hs; apply Hin, elem_of_app; by right).
  assert (Hin_b : forall s, pl s <> InLocal t c -> mark b InHand pl s = pl s).
  { intros s Hs. apply mark_out. intros Hb. by apply Hs, Hpl. }
  split; [split|split]; try done.
  - intros t' c'. destruct (decide ((t', c') = (t, c))) as [[= -> ->]|Hne].
    + rewrite local_set_eq. split; [done|]. intros s. destruct (decide (s ∈ b)) as [Hb|Hb].
      * rewrite mark_in by done. split; [|done]. intros Ha. by destruct (Hab s).
      * rewrite mark_out, <- Hin, elem_of_app by done. tauto.
    + rewrite local_set_ne by done. destruct (H1 t' c') as [Hnd' Hin']. split; [done|]. intros s.
      rewrite Hin'. unfold mark. case_decide as Hb; [|done]. rewrite Hpl by done.
      split; [|done]. intros [= -> ->]. done.
  - intros t' c'. destruct (decide ((t', c') = (t, c))) as [[= -> ->]|Hne].
    + rewrite local_set_eq. specialize (H2 t c). rewrite Hl, length_app in H2. lia.
    + by rewrite local_set_ne.
  - intros c'. destruct (H3 c') as [? Hin']. split; [done|]. intros s. cbn. rewrite Hin'.
    unfold mark. case_decide as Hb; [|done]. by rewrite Hpl.
  - intros s. unfold mark. case_decide; [done|]. apply H5.
  - intros s c'. unfold mark. case_decide; [naive_solver|]. apply H6.
  - intros p. cbn. rewrite H7. f_equal. symmetry. apply in_use_mark; [done|].
    intros s Hs. by rewrite Hpl.
  - intros s Hs. apply H8. unfold mark in Hs. case_decide; [by rewrite Hpl|done].
  - split; [done|]. split; [done|]. intros s Hs. destruct (H6 s c) as (? & ? & ?); [|done].
    left. exists t. auto.
Qed.

(** Slots in hand join a thread's cache. *)
Lemma winv_to_local w pl t c b :
  winv w pl -> idle_slots w c b -> (forall s, s ∈ b -> pl s = InHand) ->
  (length (local w t c ++ b) <= THREAD_FRAME_CACHE_LIMIT)%nat ->
  winv (set_local w t c (local w t c ++ b)) (mark b (InLocal t c) pl).
Proof.
  intros [H1 H2 H3 H4 H5 H6 H7 H8] (Hnd & Hc & Hidle) Hpl Hlen.
  split; try done.
  - intros t' c'. destruct (decide ((t', c') = (t, c))) as [[= -> ->]|Hne].
    + rewrite local_set_eq. destruct (H1 t c) as [Hnd1 Hin1]. split.
      * apply NoDup_app. split_and!; try done. intros s Hs%Hin1 Hb. by rewrite Hpl in Hs.
      * intros s. rewrite elem_of_app. unfold mark. case_decide; [tauto|]. rewrite Hin1. tauto.
    + rewrite local_set_ne by done. destruct (H1 t' c') as [Hnd' Hin']. split; [done|]. intros s.
      rewrite Hin'. unfold mark. case_decide as Hb; [|done]. rewrite Hpl by done.
      split; [done|]. intros [= -> ->]. done.
  - intros t' c'. destruct (decide ((t', c') = (t, c))) as [[= -> ->]|Hne].
    + by rewrite local_set_eq.
    + by rewrite local_set_ne.
  - intros c'. destruct (H3 c') as [? Hin']. split; [done|]. intros s. cbn. rewrite Hin'.
    unfold mark. case_decide as Hb; [|done]. by rewrite Hpl.
  - intros s. unfold mark. case_decide; [done|]. apply H5.
  - intros s c'. unfold mark. case_decide as Hb; [|apply H6].
    intros [[t' [= -> ->]]|?]; [|done]. cbn. destruct (Hidle s Hb). done.
  - intros p. cbn. rewrite H7. f_equal. symmetry. apply in_use_mark; [done|].
    intros s Hs. by rewrite Hpl.
  - intros s Hs. apply H8. unfold mark in Hs. case_decide; [by rewrite Hpl|done].
Qed.

(** Slots in hand join the shared cache. *)
Lemma winv_to_shared w pl c b :
  winv w pl -> idle_slots w c b -> (forall s, s ∈ b -> pl s = InHand) ->
  (length (shared w c ++ b) <= Z.to_nat GLOBAL_FRAME_CACHE_LIMIT)%nat ->
  winv (w <| shared := <[c := shared w c ++ b]> (shared w) |>) (mark b (InShared c) pl).
Proof.
  intros [H1 H2 H3 H4 H5 H6 H7 H8] (Hnd & Hc & Hidle) Hpl Hlen.
  split; try done.
  - intros t' c'. destruct (H1 t' c') as [? Hin']. split; [done|]. intros s. cbn. rewrite Hin'.
    unfold mark. case_decide as Hb; [|done]. by rewrite Hpl.
  - intros c'. cbn [shared set_field set_w_shared]. destruct (decide (c' = c)) as [->|Hne].
    + rewrite fn_lookup_insert. destruct (H3 c) as [Hnd1 Hin1]. split.
      * apply NoDup_app. split_and!; try done. intros s Hs%Hin1 Hb. by rewrite Hpl in Hs.
      * intros s. rewrite elem_of_app. unfold mark. case_decide; [tauto|]. rewrite Hin1. tauto.
    + rewrite fn_lookup_insert_ne by done. destruct (H3 c') as [Hnd' Hin']. split; [done|]. intros s.
      rewrite Hin'. unfold mark. case_decide as Hb; [|done]. rewrite Hpl by done.
      split; [done|]. intros [= ->]. done.
  - intros c'. cbn [shared set_field set_w_shared]. destruct (decide (c' = c)) as [->|Hne].
    + by rewrite fn_lookup_insert.
    + by rewrite fn_lookup_insert_ne.
  - intros s. unfold mark. case_decide; [done|]. apply H5.
  - intros s c'. unfold mark. case_decide as Hb; [|apply H6].
    intros [[t' ?]|[= ->]]; [done|]. cbn. destruct (Hidle s Hb). done.
  - intros p. cbn. rewrite H7. f_equal. symmetry. apply in_use_mark; [done|].
    intros s Hs. by rewrite Hpl.
  - intros s Hs. apply H8. unfold mark in Hs. case_decide; [by rewrite Hpl|done].
Qed.

(** The front of the shared cache is taken in hand. *)
Lemma winv_take_shared w pl c a b :
  winv w pl -> shared w c = b ++ a -> (c < FRAME_SLOT_CLASS_COUNT)%nat ->
  winv (w <| shared := <[c := a]> (shared w) |>) (mark b InHand pl) /\ idle_slots w c b /\
  (forall s, s ∈ b -> pl s = InShared c).
Proof.
  intros [H1 H2 H3 H4 H5 H6 H7 H8] Hl Hc. destruct (H3 c) as [Hnd Hin]. rewrite Hl in Hnd, Hin.
  apply NoDup_app in Hnd as (Hnb & Hba & Hna).
  assert (Hpl : forall s, s ∈ b -> pl s = InShared c) by (intros s Hs; apply Hin, elem_of_app; by left).
  split; [split|split]; try done.
  - intros t' c'. destruct (H1 t' c') as [? Hin']. split; [done|]. intros s. cbn. rewrite Hin'.
    unfold mark. case_decide as Hb; [|done]. by rewrite Hpl.
  - intros c'. cbn [shared set_field set_w_shared]. destruct (decide (c' = c)) as [->|Hne].
    + rewrite fn_lookup_insert. split; [done|]. intros s. destruct (decide (s ∈ b)) as [Hb|Hb].
      * rewrite mark_in by done. split; [|done]. intros Ha. by destruct (Hba s).
      * rewrite mark_out, <- Hin, elem_of_app by done. tauto.
    + rewrite fn_lookup_insert_ne by done. destruct (H3 c') as [Hnd' Hin']. split; [done|]. intros s.
      rewrite Hin'. unfold mark. case_decide as Hb; [|done]. rewrite Hpl by done.
      split; [|done]. intros [= ->]. done.
  - intros c'. cbn [shared set_field set_w_shared]. destruct (decide (c' = c)) as [->|Hne].
    + rewrite fn_lookup_insert. specialize (H4 c). rewrite Hl, length_app in H4. lia.
    + by rewrite fn_lookup_insert_ne.
  - intros s. unfold mark. case_decide; [done|]. apply H5.
  - intros s c'. unfold mark. case_decide; [naive_solver|]. apply H6.
  - intros p. cbn. rewrite H7. f_equal. symmetry. apply in_use_mark; [done|].
    intros s Hs. by rewrite Hpl.
  - intros s Hs. apply H8. unfold mark in Hs. case_decide; [by rewrite Hpl|done].
  - split; [done|]. split; [done|]. intros s Hs. destruct (H6 s c) as (? & ? & ?); [|done].
    right. auto.
Qed.

(** *** Slots in hand given up *)

Definition same_caches (w w' : cache_world) : Prop :=
  local w' = local w /\ shared w' = shared w /\ slot_ref w' = slot_ref w /\ slot_size w' = slot_size w.

Lemma put_page_same w p : same_caches w (put_page w p).
Proof. unfold put_page. repeat case_if; done. Qed.

Lemma put_pages_same b : forall w, same_caches w (put_pages w b).
Proof.
  induction b as [|s b IH]; intros w; [done|]. cbn.
  destruct (IH (put_page w s.1)) as (E1 & E2 & E3 & E4). destruct (put_page_same w s.1) as (F1 & F2 & F3 & F4).
  unfold put_pages in *. repeat split; congruence.
Qed.

Lemma mark_mark_cons s b x pl s' : mark b x (mark [s] x pl) s' = mark (s :: b) x pl s'.
Proof.
  unfold mark. destruct (decide (s' ∈ b)) as [Hb|Hb]; [by rewrite decide_True by (by right)|].
  destruct (decide (s' ∈ [s])) as [Hi|Hs].
  - apply list_elem_of_singleton in Hi as ->. by rewrite decide_True by left.
  - rewrite decide_False; [done|]. intros [->|?]%elem_of_cons; [apply Hs; by left|done].
Qed.

Lemma winv_evict_one w pl s :
  winv w pl -> pl s = InHand -> winv (put_page w s.1) (mark [s] Gone pl).
Proof.
  intros [H1 H2 H3 H4 H5 H6 H7 H8] Hs. destruct (put_page_same w s.1) as (El & Es & Er & Ez).
  assert (Hu : in_use pl s.1 = S (in_use (mark [s] Gone pl) s.1)).
  { apply in_use_gone; [by rewrite Hs|]. apply H8. by rewrite Hs. }
  assert (Hm : forall s' x, x <> Gone -> x <> InHand -> mark [s] Gone pl s' = x <-> pl s' = x).
  { intros s' x Hx Hx'. unfold mark. case_decide as Hi; [|done].
    apply list_elem_of_singleton in Hi as ->. rewrite Hs. split; congruence. }
  split; rewrite ?El, ?Es, ?Er, ?Ez; try done.
  - intros t c. destruct (H1 t c) as [? Hin]. split; [done|]. intros s'. by rewrite Hin, Hm.
  - intros c. destruct (H3 c) as [? Hin]. split; [done|]. intros s'. by rewrite Hin, Hm.
  - intros s' Hl. apply H5. by apply (Hm s' Live).
  - intros s' c Hl. apply H6. destruct Hl as [[t Hl]|Hl]; [left; exists t|right]; by apply Hm in Hl.
  - intros p. destruct (decide (p = s.1)) as [->|Hne].
    + unfold put_page. rewrite H7. rewrite (proj2 (Z.eqb_neq _ _)) by lia.
      case_if; cbn; rewrite fn_lookup_insert; lia.
    + transitivity (page_ref w p).
      { unfold put_page. repeat case_if; cbn; rewrite ?fn_lookup_insert_ne by done; done. }
      rewrite H7. f_equal. apply in_use_ext. intros i _. rewrite mark_out; [done|].
      rewrite list_elem_of_singleton. intros <-. done.
  - intros s' Hs'. apply H8. unfold mark in Hs'. by case_decide.
Qed.

Lemma winv_evict b : forall w pl,
  winv w pl -> NoDup b -> (forall s, s ∈ b -> pl s = InHand) -> winv (put_pages w b) (mark b Gone pl).
Proof.
  induction b as [|s b IH]; intros w pl HI Hnd Hb; cbn.
  { apply (winv_ext _ pl); [|done]. intros s. by rewrite mark_out by apply not_elem_of_nil. }
  apply NoDup_cons in Hnd as [Hs Hnd].
  eapply winv_ext; [intros s'; apply mark_mark_cons|]. apply IH; [|done|].
  - apply winv_evict_one; [done|]. apply Hb. by left.
  - intros s' Hs'. rewrite mark_out; [apply Hb; by right|].
    rewrite list_elem_of_singleton. by intros ->.
Qed.

(** *** References to a slot *)

Lemma winv_ref w pl s n :
  winv w pl -> pl s = Live -> 0 < n -> winv (w <| slot_ref := <[s := n]> (slot_ref w) |>) pl.
Proof.
  intros [H1 H2 H3 H4 H5 H6 H7 H8] Hs Hn. split; try done; cbn.
  - intros s' Hl. destruct (decide (s = s')) as [->|].
    + rewrite fn_lookup_insert. split; [done|]. by apply H5.
    + rewrite fn_lookup_insert_ne by done. by apply H5.
  - intros s' c Hc. rewrite fn_lookup_insert_ne; [by apply H6|].
    intros ->. rewrite Hs in Hc. naive_solver.
Qed.

(** From hand to a holder, and back. *)
Lemma winv_acquire w pl s c :
  winv w pl -> pl s = InHand -> (c < FRAME_SLOT_CLASS_COUNT)%nat -> slot_size w s = class_size c ->
  winv (w <| slot_ref := <[s := 1]> (slot_ref w) |>) (mark [s] Live pl).
Proof.
  intros [H1 H2 H3 H4 H5 H6 H7 H8] Hs Hc Hz.
  assert (Hm : forall s' x, x <> Live -> x <> InHand -> mark [s] Live pl s' = x <-> pl s' = x).
  { intros s' x Hx Hx'. unfold mark. case_decide as Hi; [|done].
    apply list_elem_of_singleton in Hi as ->. rewrite Hs. split; congruence. }
  split; try done; cbn.
  - intros t c'. destruct (H1 t c') as [? Hin]. split; [done|]. intros s'. by rewrite Hin, Hm.
  - intros c'. destruct (H3 c') as [? Hin]. split; [done|]. intros s'. by rewrite Hin, Hm.
  - intros s' Hl. destruct (decide (s = s')) as [<-|Hne].
    + rewrite fn_lookup_insert. split; [lia|]. by exists c.
    + rewrite fn_lookup_insert_ne by done. apply H5.
      rewrite mark_out in Hl; [done|]. rewrite list_elem_of_singleton. congruence.
  - intros s' c' Hl. assert (Hl' : (exists t, pl s' = InLocal t c') \/ pl s' = InShared c').
    { destruct Hl as [[t Hl]|Hl]; [left; exists t|right]; by apply Hm in Hl. }
    rewrite fn_lookup_insert_ne; [by apply H6|]. intros ->. rewrite Hs in Hl'. naive_solver.
  - intros p. rewrite H7. f_equal. symmetry. apply in_use_mark; [done|].
    intros s' ->%list_elem_of_singleton. by rewrite Hs.
  - intros s' Hs'. apply H8. unfold mark in Hs'. case_decide as Hi; [|done].
    apply list_elem_of_singleton in Hi as ->. by rewrite Hs.
Qed.

Lemma winv_release w pl s :
  winv w pl -> pl s = Live ->
  winv (w <| slot_ref := <[s := 0]> (slot_ref w) |>) (mark [s] InHand pl).
Proof.
  intros [H1 H2 H3 H4 H5 H6 H7 H8] Hs.
  assert (Hm : forall s' x, x <> Live -> x <> InHand -> mark [s] InHand pl s' = x <-> pl s' = x).
  { intros s' x Hx Hx'. unfold mark. case_decide as Hi; [|done].
    apply list_elem_of_singleton in Hi as ->. rewrite Hs. split; congruence. }
  split; try done; cbn.
  - intros t c'. destruct (H1 t c') as [? Hin]. split; [done|]. intros s'. by rewrite Hin, Hm.
  - intros c'. destruct (H3 c') as [? Hin]. split; [done|]. intros s'. by rewrite Hin, Hm.
  - intros s' Hl. unfold mark in Hl. case_decide as Hi; [done|]. rewrite list_elem_of_singleton in Hi.
    rewrite fn_lookup_insert_ne by congruence. by apply H5.
  - intros s' c' Hl. assert (Hl' : (exists t, pl s' = InLocal t c') \/ pl s' = InShared c').
    { destruct Hl as [[t Hl]|Hl]; [left; exists t|right]; by apply Hm in Hl. }
    rewrite fn_lookup_insert_ne; [by apply H6|]. intros ->. rewrite Hs in Hl'. naive_solver.
  - intros p. rewrite H7. f_equal. symmetry. apply in_use_mark; [done|].
    intros s' ->%list_elem_of_singleton. by rewrite Hs.
  - intros s' Hs'. apply H8. unfold mark in Hs'. case_decide as Hi; [|done].
    apply list_elem_of_singleton in Hi as ->. by rewrite Hs.
Qed.

(** *** Operations *)

Context (Hmeta : 0 <= XDP_TX_METADATA_LEN <= 256).

Lemma full_size_range : 3700 <= FRAME_SLOT_SIZE_6 <= 4032.
Proof.
  unfold FRAME_SLOT_SIZE_6, FRAME_SLOT_FULL_HEADROOM, FRAME_PAGE_SIZE, PAGE_INFO_SIZE, FRAME_SLOT_STRUCT_SIZE.
  change (align_up_u32 16 16) with 16. rewrite align_up_16 by lia. zlia.
Qed.

Lemma frame_slot_size_class_of c :
  (c < FRAME_SLOT_CLASS_COUNT)%nat -> frame_slot_size_class (class_size c) = Some c.
Proof.
  pose proof full_size_range. unfold FRAME_SLOT_CLASS_COUNT. intros Hc.
  do 6 (destruct c as [|c];
    [unfold frame_slot_size_class, class_size, g_frame_slot_sizes; cbn [nth first_class];
     repeat (rewrite (proj2 (Z.eqb_neq _ _)) by lia); by rewrite Z.eqb_refl|]). lia.
Qed.

(** What an operation on the caches leaves alone: references, sizes, the slots with
    holders, and those in hand but the ones it uses. *)
Record kept (w w' : cache_world) (pl pl' : slot -> place) (used : list slot) : Prop := {
  k_live s : pl' s = Live <-> pl s = Live;
  k_hand s : pl' s = InHand <-> pl s = InHand /\ s ∉ used;
  k_ref : slot_ref w' = slot_ref w;
  k_size : slot_size w' = slot_size w
}.

Lemma spill_spec w pl t c accept :
  winv w pl -> (c < FRAME_SLOT_CLASS_COUNT)%nat ->
  exists pl', winv (local_cache_spill w t c accept) pl' /\
    kept w (local_cache_spill w t c accept) pl pl' [] /\
    (length (local (local_cache_spill w t c accept) t c) <= THREAD_FRAME_CACHE_LOW)%nat.
Proof.
  intros HI Hc. unfold local_cache_spill.
  destruct (Nat.leb_spec (length (local w t c)) THREAD_FRAME_CACHE_LOW).
  { exists pl. split; [done|]. split; [|done]. split; try done. intros s. set_solver. }
  set (a := take THREAD_FRAME_CACHE_LOW (local w t c)). set (b := drop THREAD_FRAME_CACHE_LOW (local w t c)).
  destruct (winv_take_local w pl t c a b HI) as (HI1 & Hidle & Hpl); [subst a b; by rewrite take_drop|done|].
  cbv zeta. unfold global_cache_enqueue_batch.
  set (pushed := Nat.min accept _). set (w1 := set_local w t c a) in *.
  assert (Hp : (pushed <= Z.to_nat GLOBAL_FRAME_CACHE_LIMIT - length (shared w1 c))%nat) by (unfold pushed; lia).
  clearbody pushed.
  assert (Hb : take pushed b ++ drop pushed b = b) by apply take_drop.
  destruct Hidle as (Hnd & _ & Hid). pose proof Hnd as Hnd'. rewrite <- Hb in Hnd'.
  apply NoDup_app in Hnd' as (Hnd1 & Hdisj & Hnd2).
  pose proof (winv_to_shared w1 (mark b InHand pl) c (take pushed b) HI1) as HI2.
  set (w2 := w1 <| shared := _ |>) in *.
  assert (HI2' : winv w2 (mark (take pushed b) (InShared c) (mark b InHand pl))).
  { apply HI2.
    - split; [done|]. split; [done|]. intros s Hs. apply Hid. rewrite <- Hb. set_solver.
    - intros s Hs. apply mark_in. rewrite <- Hb. set_solver.
    - rewrite length_app, length_take. pose proof (wi_shared_len _ _ HI1 c). lia. }
  eexists. split; [apply (winv_evict (drop pushed b) w2 _ HI2'); [done|]|].
  { intros s Hs. rewrite mark_out by (intros ?; by apply (Hdisj s)). apply mark_in. rewrite <- Hb. set_solver. }
  assert (Hold : forall s, s ∉ b ->
    mark (drop pushed b) Gone (mark (take pushed b) (InShared c) (mark b InHand pl)) s = pl s).
  { intros s Hs. rewrite <- Hb in Hs. apply not_elem_of_app in Hs as [Hs1 Hs2].
    rewrite !mark_out; try done. rewrite <- Hb. by apply not_elem_of_app. }
  assert (Hnew : forall s, s ∈ b ->
    mark (drop pushed b) Gone (mark (take pushed b) (InShared c) (mark b InHand pl)) s = Gone \/
    mark (drop pushed b) Gone (mark (take pushed b) (InShared c) (mark b InHand pl)) s = InShared c).
  { intros s Hs. rewrite <- Hb in Hs. apply elem_of_app in Hs as [Hs|Hs]; [right|left; by apply mark_in].
    rewrite mark_out by (intros ?; by apply (Hdisj s)). by apply mark_in. }
  destruct (put_pages_same (drop pushed b) w2) as (El & Es & Er & Ez).
  split; [split|]; rewrite ?El, ?Er, ?Ez; try done.
  - intros s. destruct (decide (s ∈ b)) as [Hi|Ho]; [|by rewrite Hold].
    rewrite (Hpl s Hi). destruct (Hnew s Hi) as [-> | ->]; done.
  - intros s. destruct (decide (s ∈ b)) as [Hi|Ho].
    + rewrite (Hpl s Hi). destruct (Hnew s Hi) as [-> | ->]; split; try done; by intros [? _].
    + rewrite Hold by done. split; [|by intros [? _]]. intros Hs. split; [done|apply not_elem_of_nil].
  - subst w2 w1. cbn [local set_field set_w_shared]. rewrite local_set_eq. unfold a. rewrite length_take. lia.
Qed.

Lemma kept_chain w1 w2 w3 pl1 pl2 pl3 u1 u2 :
  kept w1 w2 pl1 pl2 u1 -> kept w2 w3 pl2 pl3 u2 -> kept w1 w3 pl1 pl3 (u1 ++ u2).
Proof.
  intros [A1 A2 A3 A4] [B1 B2 B3 B4]. split; try congruence.
  - intros s. by rewrite B1, A1.
  - intros s. rewrite B2, A2, not_elem_of_app. tauto.
Qed.

Lemma push_spec w pl t c s :
  winv w pl -> pl s = InHand -> idle_slots w c [s] ->
  (length (local w t c) < THREAD_FRAME_CACHE_LIMIT)%nat ->
  exists w' pl', local_cache_push w t c s = Some w' /\ winv w' pl' /\ kept w w' pl pl' [s].
Proof.
  intros HI Hs Hidle Hlen. unfold local_cache_push. rewrite (proj2 (Nat.leb_gt _ _)) by done.
  do 2 eexists. split; [done|]. split.
  - apply winv_to_local; try done.
    + by intros s' ->%list_elem_of_singleton.
    + rewrite length_app. cbn. lia.
  - split; try done; intros s'; unfold mark; case_decide as Hi; try done.
    + apply list_elem_of_singleton in Hi as ->. by rewrite Hs.
    + split; [done|]. by intros [_ []].
    + split; [done|]. by intros [? _].
Qed.

Lemma push_or_spill_spec w pl t c s accept :
  winv w pl -> pl s = InHand -> idle_slots w c [s] ->
  exists w' pl', push_or_spill w t c s accept = Some w' /\ winv w' pl' /\ kept w w' pl pl' [s].
Proof.
  intros HI Hs Hidle. unfold push_or_spill.
  destruct (decide (length (local w t c) < THREAD_FRAME_CACHE_LIMIT)%nat) as [Hlen|Hlen].
  { destruct (push_spec w pl t c s HI Hs Hidle Hlen) as (w' & pl' & -> & ? & ?). by exists w', pl'. }
  replace (local_cache_push w t c s) with (@None cache_world);
    [|unfold local_cache_push; by rewrite (proj2 (Nat.leb_le _ _)) by lia].
  destruct Hidle as (Hnd & Hc & Hid).
  destruct (spill_spec w pl t c accept HI Hc) as (pl1 & HI1 & HK & Hl).
  destruct (push_spec (local_cache_spill w t c accept) pl1 t c s) as (w' & pl' & -> & HI' & HK').
  - done.
  - apply (k_hand _ _ _ _ _ HK). split; [done|apply not_elem_of_nil].
  - destruct HK as [_ _ Er Ez]. unfold idle_slots. rewrite Er, Ez. done.
  - unfold THREAD_FRAME_CACHE_LOW, THREAD_FRAME_CACHE_LIMIT in *. lia.
  - exists w', pl'. split; [done|]. split; [done|]. by apply (kept_chain _ _ _ _ _ _ [] [s] HK).
Qed.

(** One more holder. *)
Record lent (w w' : cache_world) (pl pl' : slot -> place) (c : nat) (s : slot) : Prop := {
  l_fresh : pl s <> Live;
  l_live s' : pl' s' = Live <-> pl s' = Live \/ s' = s;
  l_one : slot_ref w' s = 1;
  l_size : slot_size w' s = class_size c;
  l_ref s' : pl s' = Live -> slot_ref w' s' = slot_ref w s';
  l_hand s' : pl' s' = InHand <-> pl s' = InHand
}.

Lemma pop_spec w pl t c :
  winv w pl -> (c < FRAME_SLOT_CLASS_COUNT)%nat ->
  (local w t c = [] /\ local_cache_pop w t c = Some (None, w)) \/
  exists s w' pl', local_cache_pop w t c = Some (Some s, w') /\ winv w' pl' /\ lent w w' pl pl' c s.
Proof.
  intros HI Hc. unfold local_cache_pop.
  destruct (last (local w t c)) as [s|] eqn:Hlast.
  2:{ left. apply last_None in Hlast. done. }
  right. apply last_Some in Hlast as [a Ha].
  destruct (winv_take_local w pl t c a [s] HI Ha Hc) as (HI1 & (_ & _ & Hid) & Hpl).
  specialize (Hid s ltac:(by left)) as [Hr Hz]. specialize (Hpl s ltac:(by left)).
  rewrite Ha, length_app, Nat.add_sub, take_app_length. unfold cache_slot_acquire.
  cbn [slot_ref set_local set_field set_w_local]. rewrite Hr. cbn.
  do 3 eexists. split; [done|].
  split; [apply (winv_acquire _ _ s c HI1); try done; apply mark_in; by left|].
  split; cbn.
  - by rewrite Hpl.
  - intros s'. unfold mark. case_decide as Hi.
    + apply list_elem_of_singleton in Hi as ->. tauto.
    + rewrite list_elem_of_singleton in Hi. tauto.
  - apply fn_lookup_insert.
  - done.
  - intros s' Hs'. apply fn_lookup_insert_ne. congruence.
  - intros s'. unfold mark. case_decide as Hi; [|done].
    apply list_elem_of_singleton in Hi as ->. by rewrite Hpl.
Qed.

Lemma refill_spec w pl t c offer :
  winv w pl -> (c < FRAME_SLOT_CLASS_COUNT)%nat ->
  let '(added, w') := local_cache_refill w t c offer in
  exists pl', winv w' pl' /\ kept w w' pl pl' [].
Proof.
  intros HI Hc. unfold local_cache_refill, global_cache_dequeue_batch.
  set (k := Nat.min offer _). set (got := take k (shared w c)).
  destruct (winv_take_shared w pl c (drop (length got) (shared w c)) got HI) as (HI1 & Hidle & Hpl); try done.
  { subst got. destruct (decide (k <= length (shared w c))%nat).
    - rewrite length_take_le by done. by rewrite take_drop.
    - rewrite take_ge, drop_all, app_nil_r by lia. done. }
  exists (mark got (InLocal t c) (mark got InHand pl)). split.
  - apply winv_to_local; try done.
    + intros s Hs. by apply mark_in.
    + pose proof (wi_local_len _ _ HI t c). cbn [local set_field set_w_shared].
      rewrite length_app. subst got. rewrite length_take. unfold THREAD_FRAME_CACHE_LIMIT in *. lia.
  - assert (Hm : forall s, mark got (InLocal t c) (mark got InHand pl) s =
                           if decide (s ∈ got) then InLocal t c else pl s).
    { intros s. unfold mark. by case_decide. }
    split; try done; intros s; rewrite Hm; case_decide as Hi; try (rewrite (Hpl s Hi)); try done.
    + split; [done|]. by intros [? _].
    + split; [|by intros [? _]]. intros Hs. split; [done|apply not_elem_of_nil].
Qed.

(** A slot in hand may be written. *)
Lemma winv_init w pl s size b : winv w pl -> pl s = InHand -> winv (init_slot w s size b) pl.
Proof.
  intros [H1 H2 H3 H4 H5 H6 H7 H8] Hs. split; try done; cbn.
  - intros s' Hl. rewrite !fn_lookup_insert_ne by congruence. by apply H5.
  - intros s' c Hl. rewrite !fn_lookup_insert_ne; [by apply H6|..]; intros ->; rewrite Hs in Hl; naive_solver.
Qed.

Lemma carve_spec t c page accept n : forall i w pl,
  winv w pl -> (c < FRAME_SLOT_CLASS_COUNT)%nat ->
  (forall j, (i <= j < i + n)%nat -> pl (page, j) = InHand) ->
  exists w' pl', carve w t c page n i accept = Some w' /\ winv w' pl' /\
    (forall s, pl' s = Live <-> pl s = Live) /\
    (forall s, pl' s = InHand <-> pl s = InHand /\ ~ (s.1 = page /\ (i <= s.2 < i + n)%nat)) /\
    (forall s, pl s = Live -> slot_ref w' s = slot_ref w s /\ slot_size w' s = slot_size w s).
Proof.
  induction n as [|n IH]; intros i w pl HI Hc Hh.
  { exists w, pl. split_and!; try done. intros s. split; [|tauto]. intros ?. split; [done|lia]. }
  cbn [carve]. set (s := (page, i)). assert (Hs : pl s = InHand) by (apply Hh; lia).
  destruct (push_or_spill_spec (init_slot w s (class_size c) false) pl t c s accept)
    as (w1 & pl1 & Hp & HI1 & HK).
  - by apply winv_init.
  - done.
  - split; [apply NoDup_singleton|]. split; [done|]. intros s' ->%list_elem_of_singleton.
    cbn. by rewrite !fn_lookup_insert.
  - rewrite Hp. cbn. destruct (IH (S i) w1 pl1 HI1 Hc) as (w' & pl' & Hcv & HI' & Hl & Hha & Hr).
    { intros j Hj. apply (k_hand _ _ _ _ _ HK). split; [apply Hh; lia|].
      rewrite list_elem_of_singleton. intros [= ->]. lia. }
    exists w', pl'. split_and!; try done.
    + intros s'. by rewrite Hl, (k_live _ _ _ _ _ HK).
    + intros [p' j]. rewrite Hha, (k_hand _ _ _ _ _ HK), list_elem_of_singleton. subst s. cbn.
      destruct (decide (p' = page)) as [->|].
      * split; [intros [[? Hne] Hn]|intros [? Hn]]; split_and!; try done; try lia.
        -- intros [_ Hj]. destruct (decide (j = i)) as [->|]; [done|lia].
        -- intros [= ->]. lia.
      * split; [tauto|]. intros [? _]. split; [split; [done|by intros [= ->]]|by intros [? _]].
    + intros s' Hs'. destruct (Hr s') as [-> ->]; [by apply (k_live _ _ _ _ _ HK)|].
      rewrite (k_ref _ _ _ _ _ HK), (k_size _ _ _ _ _ HK). cbn. rewrite !fn_lookup_insert_ne by congruence. done.
Qed.

(** The slots of a new frame. *)
Definition page_slots (page : Z) (n : nat) : list slot := pair page <$> seq 0 n.

Lemma elem_of_page_slots page n p i : (p, i) ∈ page_slots page n <-> p = page /\ (i < n)%nat.
Proof.
  unfold page_slots. rewrite list_elem_of_fmap. setoid_rewrite elem_of_seq. split.
  - intros (j & [= -> ->] & ?). lia.
  - intros [-> ?]. exists i. split; [done|lia].
Qed.

Lemma in_use_zero n pl p i : in_use_below n pl p = 0%nat -> (i < n)%nat -> pl (p, i) = Gone.
Proof.
  induction n as [|n IH]; intros H Hi; [lia|]. rewrite in_use_S in H. case_decide as Hd; [lia|].
  destruct (decide (i = n)) as [->|]; [|apply IH; lia]. by destruct (decide (pl (p, n) = Gone)).
Qed.

Lemma in_use_page m pl p n :
  (forall i, pl (p, i) = Gone) -> in_use_below m (mark (page_slots p n) InHand pl) p = Nat.min m n.
Proof.
  intros Hg. induction m as [|m IH]; [done|]. rewrite in_use_S, IH. unfold mark.
  destruct (decide ((p, m) ∈ page_slots p n)) as [Hi|Hi]; rewrite elem_of_page_slots in Hi.
  - rewrite decide_True by done. lia.
  - rewrite Hg, decide_False by auto. lia.
Qed.

Lemma winv_new_page w pl page n :
  winv w pl -> page_ref w page = 0 -> (n <= MAX_SLOTS)%nat ->
  winv (w <| page_ref := <[page := Z.of_nat n]> (page_ref w) |>) (mark (page_slots page n) InHand pl) /\
  forall i, pl (page, i) = Gone.
Proof.
  intros HI H0 Hn. pose proof HI as [H1 H2 H3 H4 H5 H6 H7 H8].
  assert (Hgone : forall i, pl (page, i) = Gone).
  { intros i. destruct (decide (i < MAX_SLOTS)%nat) as [Hi|Hi].
    - apply (in_use_zero MAX_SLOTS); [|done]. specialize (H7 page). unfold in_use in H7. lia.
    - destruct (decide (pl (page, i) = Gone)) as [|Hne]; [done|]. by apply H8 in Hne. }
  assert (Hm : forall s x, x <> Gone -> x <> InHand -> mark (page_slots page n) InHand pl s = x <-> pl s = x).
  { intros [p i] x Hx Hx'. unfold mark. case_decide as Hi; [|done].
    apply elem_of_page_slots in Hi as [-> _]. rewrite Hgone. split; congruence. }
  split; [|done]. split; try done; cbn.
  - intros t c. destruct (H1 t c) as [? Hin]. split; [done|]. intros s. by rewrite Hin, Hm.
  - intros c. destruct (H3 c) as [? Hin]. split; [done|]. intros s. by rewrite Hin, Hm.
  - intros s Hl. apply H5. by apply Hm in Hl.
  - intros s c Hl. apply H6. destruct Hl as [[t Hl]|Hl]; [left; exists t|right]; by apply Hm in Hl.
  - intros p. destruct (decide (page = p)) as [<-|Hne].
    + rewrite fn_lookup_insert. unfold in_use. rewrite in_use_page by done. lia.
    + rewrite fn_lookup_insert_ne, H7 by done. f_equal. apply in_use_ext. intros i _.
      rewrite mark_out; [done|]. rewrite elem_of_page_slots. naive_solver.
  - intros [p i] Hs. unfold mark in Hs. case_decide as Hi; [|by apply H8].
    apply elem_of_page_slots in Hi as [_ ?]. cbn. lia.
Qed.

Lemma class_size_range c : (c < FRAME_SLOT_CLASS_COUNT)%nat ->
  0 < class_size c /\ FRAME_SLOT_STRUCT_SIZE + XDP_TX_METADATA_LEN + class_size c <= 4080.
Proof.
  pose proof full_size_range. unfold FRAME_SLOT_CLASS_COUNT. intros Hc.
  assert (FRAME_SLOT_SIZE_6 <= 4040 - XDP_TX_METADATA_LEN).
  { unfold FRAME_SLOT_SIZE_6, FRAME_SLOT_FULL_HEADROOM, FRAME_PAGE_SIZE, PAGE_INFO_SIZE, FRAME_SLOT_STRUCT_SIZE.
    change (align_up_u32 16 16) with 16. rewrite align_up_16 by lia. zlia. }
  unfold FRAME_SLOT_STRUCT_SIZE.
  do 6 (destruct c as [|c]; [unfold class_size; cbn [nth g_frame_slot_sizes]; lia|]). lia.
Qed.

Lemma stride_range c : (c < FRAME_SLOT_CLASS_COUNT)%nat ->
  FRAME_SLOT_STRUCT_SIZE + XDP_TX_METADATA_LEN + class_size c <= stride c <= 4080.
Proof.
  intros Hc. destruct (class_size_range c Hc). unfold stride, FRAME_SLOT_STRUCT_SIZE in *.
  rewrite align_up_16 by lia. zlia.
Qed.

Lemma slot_count_range c : (c < FRAME_SLOT_CLASS_COUNT)%nat -> (1 <= slot_count c <= MAX_SLOTS)%nat.
Proof.
  intros Hc. destruct (stride_range c Hc), (class_size_range c Hc).
  unfold slot_count, MAX_SLOTS, slot_offset, PAGE_INFO_SIZE, FRAME_PAGE_SIZE, FRAME_SLOT_STRUCT_SIZE in *.
  change (align_up_u32 16 16) with 16 in *. change (4096 - 16) with 4080.
  assert (1 <= 4080 / stride c <= 4080); [|lia].
  split; [apply Z.div_le_lower_bound; lia|]. apply Z.div_le_upper_bound; nia.
Qed.

Lemma winv_init_live w pl s c :
  winv w pl -> pl s = InHand -> (c < FRAME_SLOT_CLASS_COUNT)%nat ->
  winv (init_slot w s (class_size c) true) (mark [s] Live pl).
Proof.
  intros HI Hs Hc. pose proof (winv_init w pl s (class_size c) true HI Hs) as HI1.
  pose proof (winv_acquire _ pl s c HI1 Hs Hc ltac:(cbn; apply fn_lookup_insert)) as [H1 H2 H3 H4 H5 H6 H7 H8].
  assert (Hr : forall s', slot_ref (init_slot w s (class_size c) true) s' =
    <[s := 1]> (slot_ref (init_slot w s (class_size c) true)) s').
  { intros s'. destruct (decide (s = s')) as [<-|]; cbn.
    - by rewrite !fn_lookup_insert.
    - by rewrite !fn_lookup_insert_ne. }
  split; try done.
  - intros s' Hl. rewrite Hr. by apply H5.
  - intros s' c' Hl. rewrite Hr. by apply H6.
Qed.

Lemma alloc_page_spec w pl t c page accept :
  winv w pl -> (c < FRAME_SLOT_CLASS_COUNT)%nat -> page_ref w page = 0 ->
  exists s w' pl', alloc_slot_page w t c (Some page) accept = Some (Some s, w') /\
    winv w' pl' /\ lent w w' pl pl' c s.
Proof.
  intros HI Hc H0. destruct (slot_count_range c Hc) as [Hn1 Hn2]. unfold alloc_slot_page.
  destruct (winv_new_page w pl page (slot_count c) HI H0 Hn2) as [HI1 Hgone].
  destruct (slot_count c) as [|n] eqn:Hcnt; [lia|]. cbv zeta. set (first := (page, 0%nat)).
  set (w1 := w <| page_ref := _ |>) in *. set (pl1 := mark (page_slots page (S n)) InHand pl) in *.
  assert (Hpl1 : forall p i, pl1 (p, i) = if decide (p = page /\ (i < S n)%nat) then InHand else pl (p, i)).
  { intros p i. unfold pl1, mark. pose proof (elem_of_page_slots page (S n) p i).
    repeat case_decide; tauto. }
  assert (Hf : pl1 first = InHand) by (unfold first; rewrite Hpl1, decide_True by lia; done).
  pose proof (winv_init_live w1 pl1 first c HI1 Hf Hc) as HI2.
  assert (Hpl2 : forall p i, mark [first] Live pl1 (p, i) =
    if decide ((p, i) = first) then Live else pl1 (p, i)).
  { intros p i. unfold mark. pose proof (list_elem_of_singleton (p, i) first).
    repeat case_decide; tauto. }
  destruct (carve_spec t c page accept n 1 _ _ HI2 Hc) as (w' & pl' & -> & HI' & Hl & Hh & Hr).
  { intros j Hj. rewrite Hpl2, decide_False, Hpl1, decide_True by (unfold first; naive_solver lia). done. }
  exists first, w', pl'. split; [done|]. split; [done|]. split.
  - unfold first. by rewrite Hgone.
  - intros [p i]. rewrite Hl, Hpl2. case_decide as Hd; [tauto|]. rewrite Hpl1.
    case_decide as Hd'; [|tauto]. destruct Hd' as [-> _]. rewrite Hgone. naive_solver.
  - destruct (Hr first) as [-> _]; [unfold first; by rewrite Hpl2, decide_True|]. cbn. by rewrite fn_lookup_insert.
  - destruct (Hr first) as [_ ->]; [unfold first; by rewrite Hpl2, decide_True|]. cbn. by rewrite fn_lookup_insert.
  - intros [p i] Hs. assert (p <> page) by (intros ->; by rewrite Hgone in Hs).
    destruct (Hr (p, i)) as [-> _]; [|cbn; apply fn_lookup_insert_ne; unfold first; congruence].
    rewrite Hpl2. case_decide; [done|]. rewrite Hpl1, decide_False by tauto. done.
  - intros [p i]. rewrite Hh, Hpl2. cbn. case_decide as Hd.
    + injection Hd as -> ->. rewrite Hgone. split; [|done]. by intros [? _].
    + rewrite Hpl1. case_decide as Hd'.
      * destruct Hd' as [-> Hi]. rewrite Hgone. split; [|done]. intros [_ Hn].
        destruct Hn. split; [done|]. destruct i; [done|lia].
      * split; [tauto|]. intros Hp. split; [done|]. intros [-> ?]. by rewrite Hgone in Hp.
Qed.

Lemma kept_lent w w1 w2 pl pl1 pl2 c s :
  kept w w1 pl pl1 [] -> lent w1 w2 pl1 pl2 c s -> lent w w2 pl pl2 c s.
Proof.
  intros [K1 K2 K3 K4] [L1 L2 L3 Lz L4 L5]. split; try done.
  - by rewrite <- K1.
  - intros s'. by rewrite L2, K1.
  - intros s' Hs'. rewrite L4, K3 by (by apply K1). done.
  - intros s'. rewrite L5, K2. split; [tauto|]. intros ?. split; [done|apply not_elem_of_nil].
Qed.

(** A slot, or nothing when there is no frame. *)
Definition alloc_post (w : cache_world) (pl : slot -> place) (c : nat) (frame : option Z) (r : option slot) (w' : cache_world) : Prop :=
  exists pl', winv w' pl' /\
    match r with Some s => lent w w' pl pl' c s | None => frame = None /\ kept w w' pl pl' [] end.

Lemma alloc_frame_spec w pl t c frame accept :
  winv w pl -> (c < FRAME_SLOT_CLASS_COUNT)%nat -> (forall p, frame = Some p -> page_ref w p = 0) ->
  exists r w', alloc_slot_page w t c frame accept = Some (r, w') /\ alloc_post w pl c frame r w'.
Proof.
  intros HI Hc Hfr. destruct frame as [p|].
  - destruct (alloc_page_spec w pl t c p accept HI Hc (Hfr p eq_refl)) as (s & w' & pl' & -> & ? & ?).
    exists (Some s), w'. split; [done|]. by exists pl'.
  - exists None, w. split; [done|]. exists pl. split; [done|]. split; [done|]. split; try done.
    intros s. split; [|tauto]. intros ?. split; [done|apply not_elem_of_nil].
Qed.

Lemma alloc_class_spec w pl t c offer frame accept :
  winv w pl -> (c < FRAME_SLOT_CLASS_COUNT)%nat -> (forall p, frame = Some p -> page_ref w p = 0) ->
  exists r w', frame_slot_alloc_class w t c offer frame accept = Some (r, w') /\ alloc_post w pl c frame r w'.
Proof.
  intros HI Hc Hfr. unfold frame_slot_alloc_class.
  destruct (pop_spec w pl t c HI Hc) as [[_ ->]|(s & w1 & pl1 & -> & HI1 & HL1)]; cbn [mbind option_bind].
  2:{ exists (Some s), w1. split; [done|]. by exists pl1. }
  pose proof (refill_spec w pl t c offer HI Hc) as HR.
  assert (Hpr : page_ref (local_cache_refill w t c offer).2 = page_ref w) by done.
  destruct (local_cache_refill w t c offer) as [added w1]. cbn in Hpr. destruct HR as (pl1 & HI1 & HK1).
  assert (Hpost : forall r w2, alloc_post w1 pl1 c frame r w2 -> alloc_post w pl c frame r w2).
  { intros r w2 (pl2 & HI2 & HL2). exists pl2. split; [done|]. destruct r as [s|].
    - by eapply kept_lent.
    - destruct HL2 as [? HK2]. split; [done|]. by apply (kept_chain _ _ _ _ _ _ [] [] HK1). }
  assert (Hpage : exists r w', alloc_slot_page w1 t c frame accept = Some (r, w') /\ alloc_post w pl c frame r w').
  { destruct (alloc_frame_spec w1 pl1 t c frame accept HI1 Hc) as (r & w' & ? & ?); [by rewrite Hpr|].
    exists r, w'. split; [done|]. by apply Hpost. }
  destruct (added =? 0)%nat; [exact Hpage|]. destruct (pop_spec w1 pl1 t c HI1 Hc) as [[_ ->]|(s & w2 & pl2 & -> & HI2 & HL2)]; cbn [mbind option_bind].
  - done.
  - exists (Some s), w2. split; [done|]. apply Hpost. by exists pl2.
Qed.

Lemma first_class_bound p sizes i c :
  first_class p sizes i = Some c -> (i <= c < i + length sizes)%nat.
Proof.
  revert i. induction sizes as [|z sizes IH]; intros i; cbn; [done|].
  case_if; [intros [= <-]; lia|]. intros ?%IH. lia.
Qed.

Lemma slot_alloc_spec w pl t len offer frame accept :
  winv w pl -> (forall p, frame = Some p -> page_ref w p = 0) ->
  exists r w', frame_slot_alloc w t len offer frame accept = Some (r, w') /\
    (r = None /\ w' = w /\ frame_size_class len = None \/
     exists c, frame_size_class len = Some c /\ alloc_post w pl c frame r w').
Proof.
  intros HI Hfr. unfold frame_slot_alloc. destruct (frame_size_class len) as [c|] eqn:Hc.
  - pose proof Hc as Hc'. apply first_class_bound in Hc. cbn in Hc.
    destruct (alloc_class_spec w pl t c offer frame accept HI) as (r & w' & ? & ?); [|done|].
    + unfold FRAME_SLOT_CLASS_COUNT. lia.
    + exists r, w'. eauto.
  - exists None, w. auto.
Qed.

(** The last reference puts the slot into the thread's cache. *)
Lemma put_slot_spec w pl t s accept :
  winv w pl -> pl s = Live ->
  exists w' pl', put_slot w t s accept = Some w' /\ winv w' pl' /\
    (forall s', pl' s' = Live <-> pl s' = Live /\ ~ (s' = s /\ slot_ref w s = 1)) /\
    (forall s', pl' s' = InHand <-> pl s' = InHand) /\
    slot_ref w' = <[s := slot_ref w s - 1]> (slot_ref w).
Proof.
  intros HI Hs. destruct (wi_live _ _ HI s Hs) as (Hpos & c & Hc & Hz). unfold put_slot.
  rewrite (proj2 (Z.eqb_neq _ _)) by lia. case_if; bool_prop.
  - unfold cache_free_slot. cbn [slot_size set_field set_w_slot_ref].
    rewrite Hz, frame_slot_size_class_of by done. rewrite Heqb. change (1 - 1) with 0.
    pose proof (winv_release w pl s HI Hs) as HI1.
    destruct (push_or_spill_spec _ _ t c s accept HI1) as (w' & pl' & -> & HI' & HK).
    + apply mark_in. by left.
    + split; [apply NoDup_singleton|]. split; [done|]. intros s' ->%list_elem_of_singleton.
      cbn. by rewrite fn_lookup_insert.
    + exists w', pl'. split; [done|]. split; [done|]. split_and!; [| |apply HK].
      * intros s'. rewrite (k_live _ _ _ _ _ HK). unfold mark. case_decide as Hi.
        -- apply list_elem_of_singleton in Hi as ->. split; [done|]. by intros [_ []].
        -- rewrite list_elem_of_singleton in Hi. tauto.
      * intros s'. rewrite (k_hand _ _ _ _ _ HK), list_elem_of_singleton.
        destruct (decide (s' = s)) as [->|Hne].
        -- rewrite mark_in by (by left). rewrite Hs. split; [by intros [_ []]|done].
        -- rewrite mark_out by (by rewrite list_elem_of_singleton). tauto.
  - do 2 eexists. split; [done|]. split; [apply winv_ref; [done|done|lia]|].
    split_and!; try done. intros s'. split; [|tauto]. intros ?. split; [done|lia].
Qed.

(** *** Reset *)

(** Worlds that agree everywhere. *)
Definition alike (w w' : cache_world) : Prop :=
  (forall t c, local w t c = local w' t c) /\ (forall c, shared w c = shared w' c) /\
  (forall p, page_ref w p = page_ref w' p) /\ slot_ref w = slot_ref w' /\ slot_size w = slot_size w'.

Lemma winv_alike w w' pl : alike w w' -> winv w pl -> winv w' pl.
Proof.
  intros (El & Es & Ep & Er & Ez) [H1 H2 H3 H4 H5 H6 H7 H8].
  split; rewrite <- ?Er, <- ?Ez; try done; intros; rewrite <- ?El, <- ?Es, <- ?Ep; auto.
Qed.

Lemma put_page_page_ref w w' p q :
  (forall p, page_ref w p = page_ref w' p) -> page_ref (put_page w p) q = page_ref (put_page w' p) q.
Proof.
  intros E. unfold put_page. rewrite !E. repeat case_if; cbn; try done;
    (destruct (decide (p = q)) as [<-|]; [rewrite !fn_lookup_insert|rewrite !fn_lookup_insert_ne by done]);
    auto; by rewrite E.
Qed.

Lemma put_pages_page_ref b : forall w w' q,
  (forall p, page_ref w p = page_ref w' p) -> page_ref (put_pages w b) q = page_ref (put_pages w' b) q.
Proof.
  induction b as [|s b IH]; intros w w' q E; [apply E|]. apply IH. intros p. by apply put_page_page_ref.
Qed.

(** The cache_world with the classes [cs] of a thread's cache emptied. *)
Definition hide (w : cache_world) (t : nat) (cs : list nat) : cache_world :=
  w <| local := <[t := fun c => if decide (c ∈ cs) then [] else local w t c]> (local w) |>.

Definition unhurt (pl pl' : slot -> place) : Prop :=
  (forall s, pl' s = Live <-> pl s = Live) /\ (forall s, pl' s = InHand <-> pl s = InHand).

Lemma hide_snoc w t cs c b :
  alike (put_pages (set_local (hide w t cs) t c []) b) (hide (put_pages w b) t (cs ++ [c])).
Proof.
  destruct (put_pages_same b (set_local (hide w t cs) t c [])) as (El & Es & Er & Ez).
  destruct (put_pages_same b w) as (El' & Es' & Er' & Ez').
  split_and!; cbn; rewrite ?El, ?Es, ?Er, ?Ez, ?Es', ?Er', ?Ez'; try done.
  - intros t' c'. destruct (decide (t' = t)) as [->|Hne].
    + rewrite fn_lookup_insert. destruct (decide (c' = c)) as [->|Hne].
      * rewrite local_set_eq, decide_True; [done|]. apply elem_of_app. right. by left.
      * rewrite local_set_ne by congruence. cbn. rewrite fn_lookup_insert, El'.
        destruct (decide (c' ∈ cs)) as [Hi|Hi]; [rewrite decide_True; [done|]|rewrite decide_False; [done|]].
        -- apply elem_of_app. by left.
        -- rewrite elem_of_app, list_elem_of_singleton. tauto.
    + rewrite fn_lookup_insert_ne, local_set_ne, El' by congruence. cbn.
      by rewrite fn_lookup_insert_ne by done.
  - intros p. by apply put_pages_page_ref.
Qed.

Lemma reset_local_spec w pl t cs :
  winv w pl -> NoDup cs -> (forall c, c ∈ cs -> (c < FRAME_SLOT_CLASS_COUNT)%nat) ->
  let w' := foldl (fun w c => put_pages w (local w t c)) w cs in
  local w' = local w /\ exists pl', winv (hide w' t cs) pl' /\ unhurt pl pl'.
Proof.
  intros HI. induction cs as [|c cs IH] using rev_ind; intros Hnd Hcs w'.
  { split; [done|]. exists pl. split; [|done]. eapply winv_alike; [|exact HI].
    split_and!; try done. intros t' c'. cbn. destruct (decide (t = t')) as [<-|].
    - by rewrite fn_lookup_insert, decide_False by apply not_elem_of_nil.
    - by rewrite fn_lookup_insert_ne. }
  apply NoDup_app in Hnd as (Hnd & Hdisj & _).
  destruct IH as [El (pl1 & HI1 & Hu1)]; [done|intros; apply Hcs, elem_of_app; by left|].
  subst w'. rewrite foldl_snoc. set (w1 := foldl _ w cs) in *.
  destruct (put_pages_same (local w1 t c) w1) as (El' & _). split; [congruence|].
  assert (Hl : local (hide w1 t cs) t c = [] ++ local w1 t c).
  { cbn. rewrite fn_lookup_insert, decide_False; [done|]. intros Hc. apply (Hdisj c Hc). by left. }
  destruct (winv_take_local _ _ t c _ _ HI1 Hl) as (HI2 & (Hnd2 & _ & _) & Hpl).
  { apply Hcs, elem_of_app. right. by left. }
  pose proof (winv_evict (local w1 t c) _ _ HI2 Hnd2 (fun s Hs => mark_in _ _ _ _ Hs)) as HI3.
  eexists. split; [eapply winv_alike; [apply hide_snoc|exact HI3]|].
  destruct Hu1 as [Hu1 Hu2]. split; intros s; unfold mark; (case_decide as Hi; [|auto]).
  - rewrite <- Hu1, (Hpl s Hi). done.
  - rewrite <- Hu2, (Hpl s Hi). done.
Qed.

Lemma frame_cache_reset_spec w pl t :
  winv w pl -> exists pl', winv (frame_cache_reset w t) pl' /\ unhurt pl pl' /\
    (forall c, local (frame_cache_reset w t) t c = []) /\
    (forall t', t' <> t -> local (frame_cache_reset w t) t' = local w t') /\
    shared (frame_cache_reset w t) = shared w /\ slot_ref (frame_cache_reset w t) = slot_ref w.
Proof.
  intros HI. unfold frame_cache_reset.
  destruct (reset_local_spec w pl t (seq 0 FRAME_SLOT_CLASS_COUNT) HI) as [El (pl' & HI' & Hu)].
  { apply NoDup_seq. }
  { intros c ?%elem_of_seq. lia. }
  set (w1 := foldl _ w _) in *. cbv zeta. exists pl'. split_and!.
  - eapply winv_alike; [|exact HI']. split_and!; try done. intros t' c'.
    unfold hide. cbn [local set_field set_w_local]. unfold frame_cache_init.
    destruct (decide (t = t')) as [<-|]; [|by rewrite !fn_lookup_insert_ne].
    rewrite !fn_lookup_insert. case_decide as Hc; [done|]. rewrite elem_of_seq in Hc.
    rewrite El. destruct (local w t c') as [|s l] eqn:Hl; [done|].
    destruct (wi_cached _ _ HI s c') as (_ & Hc' & _); [|lia].
    left. exists t. apply (wi_local _ _ HI). rewrite Hl. by left.
  - done.
  - intros c. cbn. by rewrite fn_lookup_insert.
  - intros t' Ht'. cbn [local set_field set_w_local]. by rewrite fn_lookup_insert_ne, El.
  - subst w1. clear. generalize (seq 0 FRAME_SLOT_CLASS_COUNT) as cs. intros cs. revert w.
    induction cs as [|c cs IH]; intros w; [done|]. cbn in *. rewrite IH. by apply put_pages_same.
  - subst w1. clear. generalize (seq 0 FRAME_SLOT_CLASS_COUNT) as cs. intros cs. revert w.
    induction cs as [|c cs IH]; intros w; [done|]. cbn in *. rewrite IH. by apply put_pages_same.
Qed.

Lemma reset_class_spec c fuel : forall w pl,
  winv w pl -> (c < FRAME_SLOT_CLASS_COUNT)%nat -> (length (shared w c) < fuel)%nat ->
  let w' := reset_class fuel w c in
  exists pl', winv w' pl' /\ unhurt pl pl' /\ shared w' c = [] /\
    (forall c', c' <> c -> shared w' c' = shared w c') /\ local w' = local w /\ slot_ref w' = slot_ref w.
Proof.
  induction fuel as [|fuel IH]; intros w pl HI Hc Hf; [lia|]. cbn [reset_class]. unfold global_cache_dequeue_batch.
  rewrite Nat.min_id. set (got := take THREAD_FRAME_CACHE_LOW (shared w c)).
  destruct (winv_take_shared w pl c (drop (length got) (shared w c)) got HI) as (HI1 & (Hnd & _) & Hpl); try done.
  { subst got. destruct (decide (THREAD_FRAME_CACHE_LOW <= length (shared w c))%nat).
    - rewrite length_take_le by done. by rewrite take_drop.
    - rewrite take_ge, drop_all, app_nil_r by lia. done. }
  set (w1 := w <| shared := _ |>) in *. cbv zeta.
  pose proof (winv_evict got w1 _ HI1 Hnd (fun s Hs => mark_in _ _ _ _ Hs)) as HI2.
  destruct (put_pages_same got w1) as (El & Es & Er & _).
  assert (Hu : unhurt pl (mark got Gone (mark got InHand pl))).
  { split; intros s; unfold mark; (case_decide as Hi; [by rewrite (Hpl s Hi)|done]). }
  assert (Hsh : shared (put_pages w1 got) c = drop (length got) (shared w c)).
  { rewrite Es. subst w1. cbn. apply fn_lookup_insert. }
  assert (Hsh' : forall c', c' <> c -> shared (put_pages w1 got) c' = shared w c').
  { intros c' Hne. rewrite Es. subst w1. cbn. by apply fn_lookup_insert_ne. }
  destruct (Nat.eqb_spec (length got) 0) as [H0|H0].
  - eexists. split; [exact HI2|]. split; [done|]. rewrite Hsh, El, Er. split_and!; try done.
    assert (length (shared w c) = 0%nat) as ->%nil_length_inv; [|by rewrite drop_nil].
    subst got. rewrite length_take in H0. unfold THREAD_FRAME_CACHE_LOW in H0. lia.
  - destruct (IH _ _ HI2 Hc) as (pl' & HI' & Hu' & He & Ho & El' & Er').
    { rewrite Hsh, length_drop. subst got. rewrite length_take in *. lia. }
    exists pl'. split; [done|]. destruct Hu as [Hu1 Hu2], Hu' as [Hu1' Hu2']. split.
    { split; intros s; [by rewrite Hu1', Hu1|by rewrite Hu2', Hu2]. }
    split; [done|]. split; [|split; [etrans; [exact El'|exact El]|etrans; [exact Er'|exact Er]]]. intros c' Hne. by rewrite Ho, Hsh' by done.
Qed.

Lemma frame_global_cache_reset_spec w pl :
  winv w pl -> exists pl', winv (frame_global_cache_reset w) pl' /\ unhurt pl pl' /\
    (forall c, shared (frame_global_cache_reset w) c = []) /\
    local (frame_global_cache_reset w) = local w /\ slot_ref (frame_global_cache_reset w) = slot_ref w.
Proof.
  intros HI. unfold frame_global_cache_reset.
  assert (Hgen : forall cs, (forall c, c ∈ cs -> (c < FRAME_SLOT_CLASS_COUNT)%nat) ->
    let w' := foldl (fun w c => reset_class (S (length (shared w c))) w c) w cs in
    exists pl', winv w' pl' /\ unhurt pl pl' /\ (forall c, c ∈ cs -> shared w' c = []) /\
    local w' = local w /\ slot_ref w' = slot_ref w).
  { induction cs as [|c cs IH] using rev_ind; intros Hcs w'.
    { exists pl. split_and!; try done. intros c Hc. by apply not_elem_of_nil in Hc. }
    destruct IH as (pl1 & HI1 & Hu1 & Hs1 & El1 & Er1); [intros; apply Hcs, elem_of_app; by left|].
    subst w'. rewrite foldl_snoc. set (w1 := foldl _ w cs) in *.
    destruct (reset_class_spec c (S (length (shared w1 c))) w1 pl1 HI1) as (pl' & HI' & Hu' & He & Ho & El' & Er').
    { apply Hcs, elem_of_app. right. by left. }
    { lia. }
    exists pl'. split; [done|]. destruct Hu1 as [Ha Hb], Hu' as [Ha' Hb']. split_and!.
    - split; intros s; [by rewrite Ha', Ha|by rewrite Hb', Hb].
    - intros c' [Hc'|Hc']%elem_of_app.
      + destruct (decide (c' = c)) as [->|Hne]; [done|]. rewrite Ho by done. by apply Hs1.
      + apply list_elem_of_singleton in Hc' as ->. done.
    - congruence.
    - congruence. }
  destruct (Hgen (seq 0 FRAME_SLOT_CLASS_COUNT)) as (pl' & HI' & Hu & Hs & El & Er).
  { intros c ?%elem_of_seq. lia. }
  exists pl'. split_and!; try done. intros c. destruct (decide (c < FRAME_SLOT_CLASS_COUNT)%nat) as [Hc|Hc].
  - apply Hs, elem_of_seq. lia.
  - destruct (shared _ c) as [|s l] eqn:Hl; [done|].
    destruct (wi_cached _ _ HI' s c) as (_ & Hc' & _); [|done].
    right. apply (wi_shared _ _ HI'). rewrite Hl. by left.
Qed.

(** *** Runs *)

(** Nothing allocated yet; the memory of the frames is arbitrary. *)
Definition start_world (mem_ref : slot -> Z) (mem_size : slot -> Z) : cache_world :=
  mk_cache_world (fun _ => frame_cache_init) (fun _ => []) (fun _ => 0) mem_ref mem_size [].

(** Calls of any threads, in any order.  [held s]: the references to slot [s] the
    callers have and have not put.  The pool gives only frames that are not in
    use. *)
Inductive cache_run_to (w0 : cache_world) : cache_world -> (slot -> Z) -> Prop :=
  | cr_start : cache_run_to w0 w0 (fun _ => 0)
  | cr_alloc w held t len offer frame accept s w' :
      cache_run_to w0 w held -> (forall p, frame = Some p -> page_ref w p = 0) ->
      frame_slot_alloc w t len offer frame accept = Some (Some s, w') ->
      cache_run_to w0 w' (<[s := held s + 1]> held)
  | cr_alloc_none w held t len offer frame accept w' :
      cache_run_to w0 w held -> (forall p, frame = Some p -> page_ref w p = 0) ->
      frame_slot_alloc w t len offer frame accept = Some (None, w') -> cache_run_to w0 w' held
  | cr_inc w held s :
      cache_run_to w0 w held -> 0 < held s -> cache_run_to w0 (inc_slot w s) (<[s := held s + 1]> held)
  | cr_put w held t s accept w' :
      cache_run_to w0 w held -> 0 < held s -> put_slot w t s accept = Some w' ->
      cache_run_to w0 w' (<[s := held s - 1]> held)
  | cr_reset w held t : cache_run_to w0 w held -> cache_run_to w0 (frame_cache_reset w t) held
  | cr_global_reset w held : cache_run_to w0 w held -> cache_run_to w0 (frame_global_cache_reset w) held.

Record held_inv (w : cache_world) (held : slot -> Z) (pl : slot -> place) : Prop := {
  hi_winv : winv w pl;
  hi_live s : pl s = Live <-> 0 < held s;
  hi_ref s : 0 < held s -> slot_ref w s = held s;
  hi_hand s : pl s <> InHand;
  hi_pos s : 0 <= held s
}.

Lemma held_unhurt w held pl w' pl' :
  held_inv w held pl -> winv w' pl' -> unhurt pl pl' -> (forall s, pl s = Live -> slot_ref w' s = slot_ref w s) ->
  held_inv w' held pl'.
Proof.
  intros [H1 H2 H3 H4 H5] HI' [Hl Hh] Hr. split; try done.
  - intros s. by rewrite Hl.
  - intros s Hs. rewrite Hr by (by apply H2). by apply H3.
  - intros s. rewrite Hh. apply H4.
Qed.

Lemma held_alloc w held pl w' pl' c s :
  held_inv w held pl -> winv w' pl' -> lent w w' pl pl' c s ->
  held s = 0 /\ held_inv w' (<[s := held s + 1]> held) pl'.
Proof.
  intros [H1 H2 H3 H4 H5] HI' [L1 L2 L3 Lz L4 L5].
  assert (Hs : held s = 0) by (specialize (H5 s); rewrite H2 in L1; lia).
  split; [done|]. rewrite Hs. split; try done.
  - intros s'. rewrite L2, H2. destruct (decide (s = s')) as [<-|Hne].
    + rewrite fn_lookup_insert. split; [lia|by right].
    + rewrite fn_lookup_insert_ne by done. split; [intros [?|?]; [done|congruence]|by left].
  - intros s'. destruct (decide (s = s')) as [<-|Hne].
    + by rewrite fn_lookup_insert.
    + rewrite fn_lookup_insert_ne by done. intros Hs'. rewrite L4 by (by apply H2). by apply H3.
  - intros s'. rewrite L5. apply H4.
  - intros s'. destruct (decide (s = s')) as [<-|Hne].
    + rewrite fn_lookup_insert. lia.
    + by rewrite fn_lookup_insert_ne.
Qed.

Lemma held_put w held pl t s accept :
  held_inv w held pl -> 0 < held s ->
  exists w' pl', put_slot w t s accept = Some w' /\ held_inv w' (<[s := held s - 1]> held) pl'.
Proof.
  intros [H1 H2 H3 H4 H5] Hs.
  destruct (put_slot_spec w pl t s accept H1) as (w' & pl' & Hp & HI' & Hl & Hh & Hr); [by apply H2|].
  exists w', pl'. split; [done|]. rewrite H3 in Hl, Hr by done. split; try done.
  - intros s'. rewrite Hl, H2. destruct (decide (s = s')) as [<-|Hne].
    + rewrite fn_lookup_insert. intuition lia.
    + rewrite fn_lookup_insert_ne by done. intuition congruence.
  - intros s'. rewrite Hr. destruct (decide (s = s')) as [<-|Hne].
    + by rewrite !fn_lookup_insert.
    + rewrite !fn_lookup_insert_ne by done. apply H3.
  - intros s'. rewrite Hh. apply H4.
  - intros s'. destruct (decide (s = s')) as [<-|Hne].
    + rewrite fn_lookup_insert. lia.
    + by rewrite fn_lookup_insert_ne.
Qed.

Lemma held_inc w held pl s :
  held_inv w held pl -> 0 < held s -> held_inv (inc_slot w s) (<[s := held s + 1]> held) pl.
Proof.
  intros [H1 H2 H3 H4 H5] Hs. split; try done.
  - apply winv_ref; [done|by apply H2|]. rewrite H3; lia.
  - intros s'. rewrite H2. destruct (decide (s = s')) as [<-|Hne].
    + rewrite fn_lookup_insert. lia.
    + by rewrite fn_lookup_insert_ne.
  - intros s'. cbn. destruct (decide (s = s')) as [<-|Hne].
    + rewrite !fn_lookup_insert, H3 by done. done.
    + rewrite !fn_lookup_insert_ne by done. apply H3.
  - intros s'. destruct (decide (s = s')) as [<-|Hne].
    + rewrite fn_lookup_insert. lia.
    + by rewrite fn_lookup_insert_ne.
Qed.

Lemma held_start mem_ref mem_size : held_inv (start_world mem_ref mem_size) (fun _ => 0) (fun _ => Gone).
Proof.
  split; try done. split; cbn; try done.
  - intros t c. split; [apply NoDup_nil_2|]. intros s. split; [|done]. by intros ?%not_elem_of_nil.
  - intros t c. unfold THREAD_FRAME_CACHE_LIMIT. cbn. lia.
  - intros c. split; [apply NoDup_nil_2|]. intros s. split; [|done]. by intros ?%not_elem_of_nil.
  - intros c. cbn. lia.
  - intros s c. naive_solver.
Qed.

Lemma held_run mem_ref mem_size w held :
  cache_run_to (start_world mem_ref mem_size) w held -> exists pl, held_inv w held pl.
Proof.
  induction 1 as [|w held t len offer frame accept s w' Hr IH Hfr Ha|w held t len offer frame accept w' Hr IH Hfr Ha
    |w held s Hr IH Hs|w held t s accept w' Hr IH Hs Hp|w held t Hr IH|w held Hr IH].
  - eexists. apply held_start.
  - destruct IH as [pl HI].
    destruct (slot_alloc_spec w pl t len offer frame accept (hi_winv _ _ _ HI) Hfr) as (r & w1 & Ha' & Hpost).
    rewrite Ha in Ha'. injection Ha' as <- <-. destruct Hpost as [[? _]|(c & _ & pl' & HI' & HL)]; [done|].
    exists pl'. by eapply held_alloc.
  - destruct IH as [pl HI].
    destruct (slot_alloc_spec w pl t len offer frame accept (hi_winv _ _ _ HI) Hfr) as (r & w1 & Ha' & Hpost).
    rewrite Ha in Ha'. injection Ha' as <- <-. destruct Hpost as [(_ & -> & _)|(c & _ & pl' & HI' & _ & HK)]; [by exists pl|].
    exists pl'. eapply held_unhurt; [done|done| |].
    + split; intros s; [apply HK|]. rewrite (k_hand _ _ _ _ _ HK). split; [tauto|].
      intros ?. split; [done|apply not_elem_of_nil].
    + intros s _. by rewrite (k_ref _ _ _ _ _ HK).
  - destruct IH as [pl HI]. exists pl. by apply held_inc.
  - destruct IH as [pl HI]. destruct (held_put w held pl t s accept HI Hs) as (w1 & pl' & Hp' & HI').
    exists pl'. congruence.
  - destruct IH as [pl HI].
    destruct (frame_cache_reset_spec w pl t (hi_winv _ _ _ HI)) as (pl' & HI' & Hu & _ & _ & _ & Er).
    exists pl'. eapply held_unhurt; [done|done|done|]. intros s _. by rewrite Er.
  - destruct IH as [pl HI].
    destruct (frame_global_cache_reset_spec w pl (hi_winv _ _ _ HI)) as (pl' & HI' & Hu & _ & _ & Er).
    exists pl'. eapply held_unhurt; [done|done|done|]. intros s _. by rewrite Er.
Qed.

(** A frame is in use exactly while one of its slots is held or cached. *)
Definition cached (w : cache_world) (s : slot) : Prop :=
  (exists t c, s ∈ local w t c) \/ (exists c, s ∈ shared w c).

Lemma in_use_pos n pl p : (0 < in_use_below n pl p)%nat <-> exists i, (i < n)%nat /\ pl (p, i) <> Gone.
Proof.
  induction n as [|n IH]; [cbn; naive_solver lia|]. rewrite in_use_S. case_decide as Hd.
  - split; [|lia]. intros _. exists n. split; [lia|done].
  - rewrite Nat.add_0_r, IH. split; intros (i & Hi & Hp); exists i; (split; [|done]); [lia|].
    destruct (decide (i = n)) as [->|]; [done|lia].
Qed.

Lemma page_in_use w held pl p :
  held_inv w held pl -> 0 < page_ref w p <-> exists i, 0 < held (p, i) \/ cached w (p, i).
Proof.
  intros [H1 H2 H3 H4 H5]. rewrite (wi_page _ _ H1 p).
  transitivity (exists i, pl (p, i) <> Gone).
  - split.
    + intros Hp. destruct (proj1 (in_use_pos MAX_SLOTS pl p)) as (i & _ & Hi); [unfold in_use in Hp; lia|].
      by exists i.
    + intros [i Hi]. assert (0 < in_use pl p)%nat; [|lia]. apply in_use_pos. exists i.
      split; [|done]. by apply (wi_index _ _ H1) in Hi.
  - split; intros [i Hi]; exists i.
    + destruct (pl (p, i)) as [|t c|c| |] eqn:Hpl; try done.
      * left. by apply H2.
      * right. left. exists t, c. by apply (wi_local _ _ H1).
      * right. right. exists c. by apply (wi_shared _ _ H1).
      * by apply H4 in Hpl.
    + destruct Hi as [Hi|[(t & c & Hi)|[c Hi]]].
      * apply H2 in Hi. by rewrite Hi.
      * apply (wi_local _ _ H1) in Hi. by rewrite Hi.
      * apply (wi_shared _ _ H1) in Hi. by rewrite Hi.
Qed.
End Cache.

Lemma first_class_spec p sizes : forall i c,
  first_class p sizes i = Some c ->
  p (nth (c - i) sizes 0) = true /\ forall j, (j < c - i)%nat -> p (nth j sizes 0) = false.
Proof.
  induction sizes as [|z sizes IH]; intros i c; cbn; [done|].
  destruct (p z) eqn:Hz.
  - intros [= <-]. rewrite Nat.sub_diag. cbn. split; [done|]. intros; lia.
  - intros Hc. pose proof (first_class_bound _ _ _ _ Hc).
    destruct (IH _ _ Hc) as [Hp Hlt]. replace (c - i)%nat with (S (c - S i)) by lia. cbn.
    split; [done|]. intros [|j] Hj; [done|]. apply Hlt. lia.
Qed.

(** *** Properties *)

(** C10: However threads allocate, share and put slots, and whatever the shared
    caches accept or offer meanwhile, every slot with references belongs to whoever
    holds them: its count is their number and its frame is in use; an allocation
    returns a slot nobody holds, with one reference and at least the size asked for;
    no assertion fails; and a frame is in use exactly while one of its slots is held
    or cached. *)
Theorem slot_ownership meta mem_ref mem_size w held :
  0 <= meta <= 256 -> cache_run_to meta (start_world mem_ref mem_size) w held ->
  (forall s, 0 < held s -> slot_ref w s = held s /\ 0 < page_ref w s.1) /\
  (forall t len offer frame accept, (forall p, frame = Some p -> page_ref w p = 0) ->
     exists r w', frame_slot_alloc meta w t len offer frame accept = Some (r, w') /\
       (forall s, r = Some s -> held s = 0 /\ slot_ref w' s = 1 /\ len <= slot_size w' s) /\
       (r = None -> frame = None \/ FRAME_SLOT_SIZE_6 meta < len)) /\
  (forall t s accept, 0 < held s -> is_Some (put_slot meta w t s accept)) /\
  (forall p, 0 < page_ref w p <-> exists i, 0 < held (p, i) \/ cached w (p, i)).
Proof.
  intros Hm Hr. destruct (held_run meta Hm _ _ _ _ Hr) as [pl HI].
  split; [|split; [|split]].
  - intros [p i] Hs. split; [by apply (hi_ref _ _ _ _ HI)|]. apply (page_in_use meta Hm _ _ _ p HI). eauto.
  - intros t len offer frame accept Hfr.
    destruct (slot_alloc_spec meta Hm w pl t len offer frame accept (hi_winv _ _ _ _ HI) Hfr)
      as (r & w' & Ha & Hpost). exists r, w'. split; [done|]. split.
    + intros s ->. destruct Hpost as [[? _]|(c & Hc & pl' & HI' & HL)]; [done|].
      split; [by eapply (held_alloc meta)|]. split; [apply HL|]. rewrite (l_size _ _ _ _ _ _ _ HL).
      apply first_class_spec in Hc as [Hc _]. rewrite Nat.sub_0_r in Hc. apply Z.leb_le in Hc.
      unfold class_size. destruct (Z.eqb_spec len 0); [|done].
      pose proof (full_size_range meta Hm). lia.
    + intros ->. destruct Hpost as [(_ & _ & Hc)|(c & _ & pl' & _ & -> & _)]; [right|by left].
      unfold frame_size_class, g_frame_slot_sizes in Hc. cbn in Hc. pose proof (full_size_range meta Hm).
      repeat (case_if; bool_prop); try done; lia.
  - intros t s accept Hs. destruct (held_put meta Hm w held pl t s accept HI Hs) as (w' & ? & -> & _). done.
  - intros p. by eapply (page_in_use meta Hm).
Qed.



(** *** Witnesses *)

Definition ex_start : cache_world := start_world (fun _ => 77) (fun _ => 99).

(** Thread 0 allocates 100 bytes on frame 3, thread 1 puts the slot. *)
Definition ex_alloc : option (option slot * cache_world) := frame_slot_alloc 24 ex_start 0 100 0 (Some 3) 0.
Definition ex_held : cache_world := (default (None, ex_start) ex_alloc).2.
Definition ex_put : cache_world := default ex_held (put_slot 24 ex_held 1 (3, 0%nat) 0).

Lemma ex_held_run : cache_run_to 24 ex_start ex_held (<[(3, 0%nat) := 1]> (fun _ => 0)).
Proof.
  apply (cr_alloc 24 _ ex_start (fun _ => 0) 0 100 0 (Some 3) 0 (3, 0%nat)).
  - apply cr_start.
  - by intros p [= <-].
  - by vm_compute.
Qed.

Lemma ex_put_run :
  cache_run_to 24 ex_start ex_put
    (<[(3, 0%nat) := <[(3, 0%nat) := 1]> (fun _ => 0) (3, 0%nat) - 1]> (<[(3, 0%nat) := 1]> (fun _ => 0))).
Proof.
  apply (cr_put 24 _ ex_held _ 1 _ 0); [apply ex_held_run|by vm_compute|by vm_compute].
Qed.

Lemma slot_ownership_witness :
  slot_ref ex_held (3, 0%nat) = 1 /\ page_ref ex_held 3 = 21 /\ is_Some (put_slot 24 ex_held 1 (3, 0%nat) 0).
Proof.
  destruct (slot_ownership 24 _ _ _ _ ltac:(lia) ex_held_run) as (Hs & _ & Hp & _).
  split_and!.
  - exact (proj1 (Hs (3, 0%nat) ltac:(by vm_compute))).
  - by vm_compute.
  - exact (Hp 1%nat (3, 0%nat) 0%nat ltac:(by vm_compute)).
Defined.

Lemma ex_put_local t c : local ex_put t c <> [] -> t ∈ [0%nat; 1%nat].
Proof.
  destruct t as [|[|t]]; [by left|by right; left|]. intros Hl. destruct Hl. by vm_compute.
Qed.


