(* ===== verification/TimerWheel.v ===== *)
(** The timers of a worker thread (src/lib/thread.c): a wheel of two levels, the
    registration of timer tasks and the pass that fires them.

    A slot of a wheel is the list of its tasks; a task's list node is on at most
    one list, so removing it is removing the task from every slot.  The arrays
    are functions of the index, always taken modulo the size.  Callbacks are a
    parameter: what one does to the timers is a list of operations.  A pass that
    does not end within its fuel is [None]. *)

From stdpp Require Import prelude list gmap.
From Stdlib Require Import ZArith Lia.
From S2P Require Import Prelude.

Module Wheel.

Definition WHEEL_0_SIZE : Z := 100.
Definition WHEEL_0_TICK_MS : Z := 1.
Definition WHEEL_1_SIZE : Z := 100.
Definition WHEEL_1_TICK_MS : Z := WHEEL_0_TICK_MS * WHEEL_0_SIZE.

Record task := mk_task { timeout : Z; registered : bool }.

Record thread := mk_thread {
  wheel0_list : Z -> list Z;
  wheel1_list : Z -> list Z;
  wheel0_cursor : Z;
  wheel1_cursor : Z;
  last_timer_check_ms : Z;
  tasks : gmap Z task
}.

(** *** The wheel *)

Inductive slot := Slot0 (i : Z) | Slot1 (i : Z).

Definition slot_at (t : thread) (s : slot) : list Z :=
  match s with Slot0 i => wheel0_list t i | Slot1 i => wheel1_list t i end.

Definition set_slot (t : thread) (s : slot) (l : list Z) : thread :=
  match s with
  | Slot0 i => mk_thread (fun j => if j =? i then l else wheel0_list t j) (wheel1_list t)
                 (wheel0_cursor t) (wheel1_cursor t) (last_timer_check_ms t) (tasks t)
  | Slot1 i => mk_thread (wheel0_list t) (fun j => if j =? i then l else wheel1_list t j)
                 (wheel0_cursor t) (wheel1_cursor t) (last_timer_check_ms t) (tasks t)
  end.

Definition set_tasks (t : thread) (m : gmap Z task) : thread :=
  mk_thread (wheel0_list t) (wheel1_list t) (wheel0_cursor t) (wheel1_cursor t)
    (last_timer_check_ms t) m.

Definition set_cursors (t : thread) (c0 c1 : Z) : thread :=
  mk_thread (wheel0_list t) (wheel1_list t) c0 c1 (last_timer_check_ms t) (tasks t).

Definition wheel_timer_slot (t : thread) (timeout now_ms : Z) : slot :=
  if timeout <=? now_ms then Slot0 (wheel0_cursor t)
  else
    let delta_ms := u64 (timeout - now_ms) in
    let l0_ticks := u32 (u64 (delta_ms + WHEEL_0_TICK_MS - 1) / WHEEL_0_TICK_MS) in
    if l0_ticks <? WHEEL_0_SIZE
    then Slot0 (u32 (wheel0_cursor t + l0_ticks) mod WHEEL_0_SIZE)
    else
      let l1_ticks := u32 (delta_ms / WHEEL_1_TICK_MS) in
      let l1_ticks := if WHEEL_1_SIZE <=? l1_ticks then WHEEL_1_SIZE - 1 else l1_ticks in
      Slot1 (u32 (wheel1_cursor t + l1_ticks) mod WHEEL_1_SIZE).

(** [wheel_add_timer_at_locked] links at the head of the slot. *)
Definition wheel_add (t : thread) (id timeout now_ms : Z) : thread :=
  let s := wheel_timer_slot t timeout now_ms in set_slot t s (id :: slot_at t s).

(** [wheel_requeue_timer_locked] links at its tail. *)
Definition wheel_requeue (t : thread) (id timeout now_ms : Z) : thread :=
  let s := wheel_timer_slot t timeout now_ms in set_slot t s (slot_at t s ++ [id]).

Definition remove_node (t : thread) (id : Z) : thread :=
  mk_thread (fun i => filter (fun k => k <> id) (wheel0_list t i))
    (fun i => filter (fun k => k <> id) (wheel1_list t i))
    (wheel0_cursor t) (wheel1_cursor t) (last_timer_check_ms t) (tasks t).

(** A task that is not in the map is as [create_task] makes it. *)
Definition find (t : thread) (id : Z) : task := default (mk_task 0 false) (tasks t !! id).

(** The tasks of the level-1 slot move down; the list is the one the slot had. *)
Fixpoint cascade (t : thread) (ids : list Z) (now_ms : Z) : thread :=
  match ids with
  | [] => t
  | id :: rest => cascade (wheel_add (remove_node t id) id (timeout (find t id)) now_ms) rest now_ms
  end.

Definition wheel_cascade_l1 (t : thread) (now_ms : Z) : thread :=
  cascade t (wheel1_list t (wheel1_cursor t)) now_ms.

Definition wheel_advance (t : thread) (now_ms : Z) : thread :=
  let c0 := u32 (wheel0_cursor t + 1) mod WHEEL_0_SIZE in
  if c0 =? 0
  then wheel_cascade_l1 (set_cursors t c0 (u32 (wheel1_cursor t + 1) mod WHEEL_1_SIZE)) now_ms
  else set_cursors t c0 (wheel1_cursor t).

(** *** Tasks *)

(** [register_task] of a timer task of this thread. *)
Definition register_task (t : thread) (id now_ms : Z) : thread :=
  let T := timeout (find t id) in
  let t := if registered (find t id) then remove_node t id else t in
  wheel_add (set_tasks t (<[id := mk_task T true]> (tasks t))) id T now_ms.

Definition unregister_task (t : thread) (id : Z) : thread :=
  if negb (registered (find t id)) then t
  else
    let T := timeout (find t id) in
    let t := remove_node t id in
    set_tasks t (<[id := mk_task T false]> (tasks t)).

(** What the code does to timers: set a task's timeout and register it,
    unregister it, destroy it. *)
Inductive op :=
  | Arm (id timeout : Z)
  | Disarm (id : Z)
  | DestroyTask (id : Z).

Definition op_id (o : op) : Z :=
  match o with Arm id _ | Disarm id | DestroyTask id => id end.

Definition do_op (t : thread) (now_ms : Z) (o : op) : thread :=
  match o with
  | Arm id timeout =>
      register_task (set_tasks t (<[id := mk_task timeout (registered (find t id))]> (tasks t))) id now_ms
  | Disarm id => unregister_task t id
  | DestroyTask id =>
      let t := unregister_task t id in set_tasks t (delete id (tasks t))
  end.

Definition do_ops (t : thread) (now_ms : Z) (ops : list op) : thread :=
  foldl (fun t o => do_op t now_ms o) t ops.

(** *** The pass *)

Section pass.
Context {A : Type} (cb_timer : Z -> A -> list op * A).

(** A task that has fired, and what its callback did. *)
Record firing := mk_firing { f_id : Z; f_timeout : Z; f_ops : list op }.

(** [fire_timer_task] of a task whose time has come. *)
Definition fire_timer_task (t : thread) (a : A) (id now_ms : Z) : thread * A * firing :=
  let T := timeout (find t id) in
  let t := set_tasks t (<[id := mk_task T false]> (tasks t)) in
  let '(ops, a) := cb_timer id a in
  (do_ops t now_ms ops, a, mk_firing id T ops).

Fixpoint process_current_timer_slot (fuel : nat) (t : thread) (a : A) (now_ms : Z)
    : option (thread * A * list firing) :=
  match wheel0_list t (wheel0_cursor t) with
  | [] => Some (t, a, [])
  | id :: _ =>
      match fuel with
      | O => None
      | S fuel =>
          let T := timeout (find t id) in
          let t := remove_node t id in
          if now_ms <? T
          then process_current_timer_slot fuel (wheel_requeue t id T now_ms) a now_ms
          else
            let '(t, a, f) := fire_timer_task t a id now_ms in
            match process_current_timer_slot fuel t a now_ms with
            | Some (t, a, fs) => Some (t, a, f :: fs)
            | None => None
            end
      end
  end.

Fixpoint do_ticks (fuel ticks : nat) (t : thread) (a : A) (now_ms : Z)
    : option (thread * A * list firing) :=
  match ticks with
  | O => Some (t, a, [])
  | S ticks =>
      match process_current_timer_slot fuel (wheel_advance t now_ms) a now_ms with
      | None => None
      | Some (t, a, fs) =>
          match do_ticks fuel ticks t a now_ms with
          | Some (t, a, fs') => Some (t, a, fs ++ fs')
          | None => None
          end
      end
  end.

Definition do_timer_tasks (fuel : nat) (t : thread) (a : A) (now_ms : Z)
    : option (thread * A * list firing) :=
  let elapsed_ticks := u64 (now_ms - last_timer_check_ms t) / WHEEL_0_TICK_MS in
  match process_current_timer_slot fuel t a now_ms with
  | None => None
  | Some (t, a, fs) =>
      match do_ticks fuel (Z.to_nat elapsed_ticks) t a now_ms with
      | None => None
      | Some (t, a, fs') =>
          Some (mk_thread (wheel0_list t) (wheel1_list t) (wheel0_cursor t) (wheel1_cursor t)
                  (u64 (last_timer_check_ms t + elapsed_ticks * WHEEL_0_TICK_MS)) (tasks t),
                a, fs ++ fs')
      end
  end.
End pass.

Definition create_thread (now_ms : Z) : thread :=
  mk_thread (fun _ => []) (fun _ => []) 0 0 now_ms ∅.

(** *** Where a timer may be *)

(** A slot is reached no later than the deadline of its tasks, the wheel standing
    at time [pos]: one of level 0 after as many ticks as it is ahead of the
    cursor; one of level 1 when level 0 has gone round. *)
Definition placed (c0 c1 pos : Z) (s : slot) (T : Z) : Prop :=
  match s with
  | Slot0 i => 0 <= i < 100 /\ ((i - c0) mod 100 = 0 \/ pos + (i - c0) mod 100 <= T)
  | Slot1 i => 0 <= i < 100 /\ 1 <= (i - c1) mod 100 /\ pos + 100 * ((i - c1) mod 100) - c0 <= T
  end.

(** [ids] are still in the level-1 slot that is being emptied, [x] is in no slot
    for the moment. *)
Record wheel_inv (ids : list Z) (x : option Z) (t : thread) (pos now : Z) : Prop := {
  wi_c0 : 0 <= wheel0_cursor t < 100;
  wi_c1 : 0 <= wheel1_cursor t < 100;
  wi_slot s id : id ∈ slot_at t s ->
    Some id <> x /\ registered (find t id) = true /\ timeout (find t id) < now + 2 ^ 32 /\
    (placed (wheel0_cursor t) (wheel1_cursor t) pos s (timeout (find t id)) \/
     id ∈ ids /\ s = Slot1 (wheel1_cursor t));
  wi_reg id : registered (find t id) = true -> Some id = x \/ exists s, id ∈ slot_at t s
}.

Lemma slot_placed t T now pos :
  0 <= wheel0_cursor t < 100 -> 0 <= wheel1_cursor t < 100 -> pos <= now -> T < now + 2 ^ 32 ->
  placed (wheel0_cursor t) (wheel1_cursor t) pos (wheel_timer_slot t T now) T.
Proof.
  intros H0 H1 Hp HT. unfold wheel_timer_slot, WHEEL_1_TICK_MS, WHEEL_0_TICK_MS, WHEEL_0_SIZE, WHEEL_1_SIZE.
  case_if; [cbn; rewrite Z.sub_diag; split; [lia|by left]|]. apply Z.leb_gt in Heqb. cbn zeta.
  assert (E : u64 (T - now) = T - now) by (apply wrap_id; unfold is_u; lia). rewrite E.
  replace (T - now + 1 - 1) with (T - now) by lia. rewrite E, Z.div_1_r, (wrap_id 32 (T - now)) by (unfold is_u; lia).
  case_if.
  - apply Z.ltb_lt in Heqb0. cbn. rewrite (wrap_id 32) by (unfold is_u; lia).
    split; [apply Z.mod_pos_bound; lia|]. right. rewrite Zminus_mod_idemp_l.
    replace (wheel0_cursor t + (T - now) - wheel0_cursor t) with (T - now) by lia. rewrite Z.mod_small; lia.
  - apply Z.ltb_ge in Heqb0. change (1 * 100) with 100.
    assert (Hd : 1 <= (T - now) / 100 /\ 100 * ((T - now) / 100) <= T - now < 2 ^ 32)
      by (pose proof (Z.div_mod (T - now) 100 ltac:(lia)); pose proof (Z.mod_pos_bound (T - now) 100); lia).
    rewrite (wrap_id 32 ((T - now) / 100)) by (unfold is_u; lia).
    set (k := if 100 <=? (T - now) / 100 then 100 - 1 else (T - now) / 100).
    assert (Hk : 1 <= k <= 99 /\ k <= (T - now) / 100) by (subst k; case_if; bool_prop; lia).
    cbn. rewrite (wrap_id 32) by (unfold is_u; lia). split; [apply Z.mod_pos_bound; lia|].
    rewrite Zminus_mod_idemp_l. replace (wheel1_cursor t + k - wheel1_cursor t) with k by lia.
    rewrite Z.mod_small; lia.
Qed.

(** A task whose time has come is in the current slot, any other is not. *)
Lemma slot_due t T now : T <= now -> wheel_timer_slot t T now = Slot0 (wheel0_cursor t).
Proof. intros H. unfold wheel_timer_slot. by rewrite (proj2 (Z.leb_le _ _) H). Qed.

Lemma slot_later t T now :
  0 <= wheel0_cursor t < 100 -> now < T < now + 2 ^ 32 ->
  wheel_timer_slot t T now <> Slot0 (wheel0_cursor t).
Proof.
  intros H0 HT. unfold wheel_timer_slot, WHEEL_1_TICK_MS, WHEEL_0_TICK_MS, WHEEL_0_SIZE.
  rewrite (proj2 (Z.leb_gt _ _)) by lia. cbn zeta.
  assert (E : u64 (T - now) = T - now) by (apply wrap_id; unfold is_u; lia). rewrite E.
  replace (T - now + 1 - 1) with (T - now) by lia.
  rewrite E, Z.div_1_r, (wrap_id 32 (T - now)) by (unfold is_u; lia).
  case_if; [|done]. apply Z.ltb_lt in Heqb. rewrite wrap_id by (unfold is_u; lia).
  intros [= Hc]. apply (f_equal (fun z => (z - wheel0_cursor t) mod 100)) in Hc.
  rewrite Zminus_mod_idemp_l, Z.sub_diag in Hc.
  replace (wheel0_cursor t + (T - now) - wheel0_cursor t) with (T - now) in Hc by lia.
  rewrite Z.mod_small in Hc by lia. rewrite Zmod_0_l in Hc. lia.
Qed.

Lemma find_set t m id tk k :
  m = <[id := tk]> (tasks t) -> find (set_tasks t m) k = if k =? id then tk else find t k.
Proof.
  intros ->. unfold find. cbn. destruct (Z.eqb_spec k id) as [->|Hk].
  - by rewrite lookup_insert_eq.
  - by rewrite lookup_insert_ne.
Qed.

Lemma find_delete t id k :
  find (set_tasks t (delete id (tasks t))) k = if k =? id then mk_task 0 false else find t k.
Proof.
  unfold find. cbn. destruct (Z.eqb_spec k id) as [->|Hk].
  - by rewrite lookup_delete_eq.
  - by rewrite lookup_delete_ne.
Qed.

Lemma slot_remove t id s k : k ∈ slot_at (remove_node t id) s <-> k <> id /\ k ∈ slot_at t s.
Proof. destruct s; cbn; by rewrite list_elem_of_filter. Qed.

Lemma slot_set_eq t s l : slot_at (set_slot t s l) s = l.
Proof. destruct s; cbn; by rewrite Z.eqb_refl. Qed.

Lemma slot_set_ne t s s' l : s' <> s -> slot_at (set_slot t s l) s' = slot_at t s'.
Proof. destruct s as [i|i], s' as [j|j]; cbn; intros H; try done; by rewrite (proj2 (Z.eqb_neq j i)) by congruence. Qed.

#[local] Instance slot_eq_dec : EqDecision slot.
Proof. solve_decision. Defined.

Lemma remove_inv ids t pos now id :
  wheel_inv ids None t pos now -> wheel_inv ids (Some id) (remove_node t id) pos now.
Proof.
  intros [H0 H1 Hs Hr]. split; [done..| |].
  - intros s k [Hk Hin]%slot_remove. destruct (Hs s k Hin) as (_&?). split; [congruence|done].
  - intros k Hk. destruct (decide (k = id)) as [->|Hne]; [by left|]. right.
    destruct (Hr k Hk) as [?|[s Hin]]; [done|]. exists s. by apply slot_remove.
Qed.

(** Linking a task into the slot of its deadline, anywhere in the slot. *)
Lemma link_inv ids t pos now id l :
  let T := timeout (find t id) in
  let s := wheel_timer_slot t T now in
  wheel_inv ids (Some id) t pos now -> pos <= now -> registered (find t id) = true -> T < now + 2 ^ 32 ->
  (forall k, k ∈ l <-> k = id \/ k ∈ slot_at t s) -> wheel_inv ids None (set_slot t s l) pos now.
Proof.
  intros T s [H0 H1 Hs Hr] Hp Hreg HT Hl.
  assert (Hf : forall k, find (set_slot t s l) k = find t k) by (intros; by destruct s).
  assert (E0 : wheel0_cursor (set_slot t s l) = wheel0_cursor t) by by destruct s.
  assert (E1 : wheel1_cursor (set_slot t s l) = wheel1_cursor t) by by destruct s.
  split; rewrite ?E0, ?E1; [done..| |].
  - intros s' k Hk. rewrite !Hf. split; [done|]. destruct (decide (s' = s)) as [->|Hne].
    + rewrite slot_set_eq in Hk. apply Hl in Hk as [->|Hk]; [|by apply Hs].
      split_and!; [done..|]. left. by apply slot_placed.
    + rewrite slot_set_ne in Hk by done. by apply Hs.
  - intros k Hk. rewrite Hf in Hk. right. destruct (decide (k = id)) as [->|Hne].
    { exists s. rewrite slot_set_eq. apply Hl. by left. }
    destruct (Hr k Hk) as [?|[s' Hin]]; [congruence|]. exists s'. destruct (decide (s' = s)) as [->|Hs'].
    + rewrite slot_set_eq. apply Hl. by right.
    + by rewrite slot_set_ne.
Qed.

Lemma add_inv ids t pos now id :
  wheel_inv ids (Some id) t pos now -> pos <= now -> registered (find t id) = true ->
  timeout (find t id) < now + 2 ^ 32 ->
  wheel_inv ids None (wheel_add t id (timeout (find t id)) now) pos now.
Proof. intros. apply link_inv; try done. intros k. by rewrite elem_of_cons. Qed.

Lemma requeue_inv ids t pos now id :
  wheel_inv ids (Some id) t pos now -> pos <= now -> registered (find t id) = true ->
  timeout (find t id) < now + 2 ^ 32 ->
  wheel_inv ids None (wheel_requeue t id (timeout (find t id)) now) pos now.
Proof. intros. apply link_inv; try done. intros k. rewrite elem_of_app, list_elem_of_singleton. tauto. Qed.

(** The record of a task that is in no slot may change. *)
Lemma record_inv ids t pos now id tk :
  wheel_inv ids (Some id) t pos now ->
  wheel_inv ids (Some id) (set_tasks t (<[id := tk]> (tasks t))) pos now.
Proof.
  intros [H0 H1 Hs Hr]. split; [done..| |].
  - intros s k Hk. assert (Hk' : k ∈ slot_at t s) by by destruct s.
    destruct (Hs s k Hk') as [Hne Hrest]. rewrite (find_set _ _ _ _ _ eq_refl).
    rewrite (proj2 (Z.eqb_neq k id)) by congruence. done.
  - intros k. rewrite (find_set _ _ _ _ _ eq_refl). destruct (Z.eqb_spec k id) as [->|Hne]; [by left|].
    intros Hk. destruct (Hr k Hk) as [?|[s Hin]]; [by left|]. right. exists s. by destruct s.
Qed.

Lemma idle_inv ids t pos now id :
  wheel_inv ids (Some id) t pos now -> registered (find t id) = false -> wheel_inv ids None t pos now.
Proof.
  intros [H0 H1 Hs Hr] Hreg. split; [done..| |].
  - intros s k Hk. destruct (Hs s k Hk) as [_ ?]. by split.
  - intros k Hk. destruct (Hr k Hk) as [[= ->]|?]; [congruence|by right].
Qed.

Lemma loose_inv ids t pos now id :
  wheel_inv ids None t pos now -> registered (find t id) = false -> wheel_inv ids (Some id) t pos now.
Proof.
  intros [H0 H1 Hs Hr] Hreg. split; [done..| |].
  - intros s k Hk. destruct (Hs s k Hk) as (_&Hk2&?). split; [congruence|done].
  - intros k Hk. destruct (Hr k Hk) as [?|?]; [done|by right].
Qed.

(** *** Operations keep the wheel in order *)

Definition unlinked (t : thread) (id : Z) : thread :=
  if registered (find t id) then remove_node t id else t.

Lemma unlinked_inv t pos now id :
  wheel_inv [] None t pos now -> wheel_inv [] (Some id) (unlinked t id) pos now.
Proof.
  intros H. unfold unlinked. destruct (registered (find t id)) eqn:E.
  - by apply remove_inv.
  - by apply loose_inv.
Qed.

Lemma arm_eq t now id T :
  do_op t now (Arm id T) =
  wheel_add (set_tasks (unlinked t id) (<[id := mk_task T true]> (tasks t))) id T now.
Proof.
  unfold do_op, register_task, unlinked. rewrite (find_set _ _ _ _ _ eq_refl), Z.eqb_refl. cbn [timeout registered].
  destruct (registered (find t id)); cbn; unfold set_tasks; cbn; by rewrite insert_insert_eq.
Qed.

Lemma unregister_eq t id :
  unregister_task t id =
  if registered (find t id)
  then set_tasks (remove_node t id) (<[id := mk_task (timeout (find t id)) false]> (tasks t)) else t.
Proof. unfold unregister_task. by destruct (registered (find t id)). Qed.

Lemma tasks_unlinked t id : tasks (unlinked t id) = tasks t.
Proof. unfold unlinked. by destruct (registered _). Qed.

Lemma unregister_inv t pos now id :
  wheel_inv [] None t pos now ->
  wheel_inv [] (Some id) (unregister_task t id) pos now /\ registered (find (unregister_task t id) id) = false.
Proof.
  intros H. rewrite unregister_eq. destruct (registered (find t id)) eqn:E; [|split; [by apply loose_inv|done]].
  assert (Hf : registered (find (set_tasks (remove_node t id)
    (<[id := mk_task (timeout (find t id)) false]> (tasks t))) id) = false).
  { rewrite (find_set (remove_node t id) _ _ _ _ eq_refl : find (set_tasks _ (<[id := _]> (tasks t))) _ = _).
    by rewrite Z.eqb_refl. }
  split; [|done]. change (tasks t) with (tasks (remove_node t id)). by apply record_inv, remove_inv.
Qed.

Lemma do_op_inv t pos now o :
  wheel_inv [] None t pos now -> pos <= now -> (forall id T, o = Arm id T -> T < now + 2 ^ 32) ->
  wheel_inv [] None (do_op t now o) pos now.
Proof.
  intros H Hp HT. destruct o as [id T|id|id].
  - rewrite arm_eq. specialize (HT _ _ eq_refl). rewrite <- (tasks_unlinked t id).
    set (t1 := set_tasks _ _).
    assert (Hf : find t1 id = mk_task T true) by (unfold t1; by rewrite (find_set _ _ _ _ _ eq_refl), Z.eqb_refl).
    pose proof (add_inv [] t1 pos now id) as Ha. rewrite Hf in Ha. apply Ha; try done.
    by apply record_inv, unlinked_inv.
  - destruct (unregister_inv t pos now id H) as [H1 H2]. by eapply idle_inv.
  - destruct (unregister_inv t pos now id H) as [[H0 H1 Hs Hr] H2]. cbn [do_op].
    set (t1 := unregister_task t id) in *. split; [done..| |].
    + intros s k Hk. assert (Hk' : k ∈ slot_at t1 s) by by destruct s.
      destruct (Hs s k Hk') as (Hne&Hrest). rewrite find_delete, (proj2 (Z.eqb_neq k id)) by congruence.
      by split.
    + intros k. rewrite find_delete. destruct (Z.eqb_spec k id) as [->|Hne]; [done|].
      intros Hk. destruct (Hr k Hk) as [?|[s Hin]]; [congruence|]. right. exists s. by destruct s.
Qed.

Definition soon (now : Z) (o : op) : Prop := forall id T, o = Arm id T -> T < now + 2 ^ 32.

Lemma do_ops_inv t pos now ops :
  wheel_inv [] None t pos now -> pos <= now -> Forall (soon now) ops ->
  wheel_inv [] None (do_ops t now ops) pos now.
Proof.
  intros H Hp. revert t H. induction ops as [|o ops IH]; intros t H Hops; [done|].
  apply Forall_cons in Hops as [Ho Hops]. apply IH; [|done]. by apply do_op_inv.
Qed.

(** Operations move no cursor and touch no other task. *)
Record same_place (t t' : thread) : Prop := {
  sp_c0 : wheel0_cursor t' = wheel0_cursor t;
  sp_c1 : wheel1_cursor t' = wheel1_cursor t;
  sp_last : last_timer_check_ms t' = last_timer_check_ms t
}.

#[local] Instance same_place_refl : Reflexive same_place.
Proof. by split. Qed.
#[local] Instance same_place_trans : Transitive same_place.
Proof. intros t1 t2 t3 [] []. split; congruence. Qed.

Lemma set_slot_place t s l : same_place t (set_slot t s l).
Proof. by destruct s. Qed.

Lemma do_op_place t now o : same_place t (do_op t now o).
Proof.
  destruct o as [id T|id|id].
  - rewrite arm_eq. unfold wheel_add, unlinked. destruct (registered _); etrans; [|apply set_slot_place| |apply set_slot_place]; done.
  - cbn. rewrite unregister_eq. by destruct (registered _).
  - cbn. rewrite unregister_eq. by destruct (registered _).
Qed.

Lemma find_set_slot t s l k : find (set_slot t s l) k = find t k.
Proof. by destruct s. Qed.

Lemma do_op_find t now o k : k <> op_id o -> find (do_op t now o) k = find t k.
Proof.
  intros Hk. destruct o as [id T|id|id]; cbn [op_id] in Hk.
  - rewrite arm_eq. unfold wheel_add. rewrite find_set_slot. rewrite <- (tasks_unlinked t id).
    rewrite (find_set _ _ _ _ _ eq_refl), (proj2 (Z.eqb_neq k id)) by done.
    unfold find. by rewrite tasks_unlinked.
  - cbn. rewrite unregister_eq. destruct (registered _); [|done].
    rewrite (find_set (remove_node t id) _ _ _ _ eq_refl : find (set_tasks _ (<[id := _]> (tasks t))) _ = _).
    by rewrite (proj2 (Z.eqb_neq k id)).
  - cbn. rewrite find_delete, (proj2 (Z.eqb_neq k id)) by done. rewrite unregister_eq. destruct (registered _); [|done].
    rewrite (find_set (remove_node t id) _ _ _ _ eq_refl : find (set_tasks _ (<[id := _]> (tasks t))) _ = _).
    by rewrite (proj2 (Z.eqb_neq k id)).
Qed.

Lemma do_ops_place t now ops : same_place t (do_ops t now ops).
Proof.
  revert t. induction ops as [|o ops IH]; intros t; [done|]. etrans; [apply do_op_place|apply IH].
Qed.

Lemma do_ops_find t now ops k : k ∉ op_id <$> ops -> find (do_ops t now ops) k = find t k.
Proof.
  revert t. induction ops as [|o ops IH]; intros t Hk; [done|].
  cbn in Hk. apply not_elem_of_cons in Hk as [Hk Hrest]. change (do_ops t now (o :: ops)) with (do_ops (do_op t now o) now ops). rewrite IH by done. by apply do_op_find.
Qed.

(** How many tasks an operation adds to the current slot. *)
Definition due_arm (now : Z) (o : op) : nat :=
  match o with Arm _ T => if T <=? now then 1%nat else 0%nat | _ => 0%nat end.

Definition current (t : thread) : list Z := wheel0_list t (wheel0_cursor t).

Lemma current_remove t id : (length (current (remove_node t id)) <= length (current t))%nat.
Proof. apply length_filter. Qed.

Lemma current_set_other t s l : s <> Slot0 (wheel0_cursor t) -> current (set_slot t s l) = current t.
Proof.
  intros Hs. unfold current. destruct s as [i|i]; cbn; [|done].
  rewrite (proj2 (Z.eqb_neq _ i)) by congruence. done.
Qed.

Lemma do_op_current t pos now o :
  wheel_inv [] None t pos now -> soon now o ->
  (length (current (do_op t now o)) <= length (current t) + due_arm now o)%nat.
Proof.
  intros H Hs. destruct o as [id T|id|id]; cbn [due_arm].
  - rewrite arm_eq. unfold wheel_add. set (t1 := set_tasks _ _).
    assert (E0 : wheel0_cursor t1 = wheel0_cursor t) by (unfold t1, unlinked; by destruct (registered _)).
    assert (Hc : (length (current t1) <= length (current t))%nat).
    { unfold t1, unlinked. destruct (registered _); [apply (current_remove t)|done]. }
    clearbody t1. destruct (Z.leb_spec T now) as [Hd|Hd].
    + rewrite slot_due by done. unfold current at 1. cbn. rewrite Z.eqb_refl. cbn.
      change (wheel0_list t1 (wheel0_cursor t1)) with (current t1). lia.
    + rewrite current_set_other; [lia|]. apply slot_later.
      * rewrite E0. apply H.
      * specialize (Hs _ _ eq_refl). lia.
  - cbn [do_op]. rewrite unregister_eq, Nat.add_0_r. destruct (registered _); [exact (current_remove t id)|done].
  - cbn [do_op]. rewrite unregister_eq, Nat.add_0_r. destruct (registered _); [exact (current_remove t id)|done].
Qed.

Definition due_arms (now : Z) (ops : list op) : nat := sum_list_with (due_arm now) ops.

Lemma do_ops_current t pos now ops :
  wheel_inv [] None t pos now -> pos <= now -> Forall (soon now) ops ->
  (length (current (do_ops t now ops)) <= length (current t) + due_arms now ops)%nat.
Proof.
  intros H Hp. revert t H. induction ops as [|o ops IH]; intros t H Hops; [cbn; lia|].
  apply Forall_cons in Hops as [Ho Hops].
  change (do_ops t now (o :: ops)) with (do_ops (do_op t now o) now ops).
  change (due_arms now (o :: ops)) with (due_arm now o + due_arms now ops)%nat.
  pose proof (do_op_current t pos now o H Ho).
  specialize (IH (do_op t now o) (do_op_inv t pos now o H Hp Ho) Hops). unfold due_arms in *. lia.
Qed.

(** *** Advancing *)

Lemma wheel_add_place t id T now : same_place t (wheel_add t id T now).
Proof. apply set_slot_place. Qed.

Lemma tasks_wheel_add t id T now : tasks (wheel_add t id T now) = tasks t.
Proof. unfold wheel_add. by destruct (wheel_timer_slot t T now). Qed.

Lemma cascade_inv ids t pos now :
  wheel_inv ids None t pos now -> pos <= now ->
  Forall (fun id => registered (find t id) = true /\ timeout (find t id) < now + 2 ^ 32) ids ->
  wheel_inv [] None (cascade t ids now) pos now.
Proof.
  revert t. induction ids as [|id ids IH]; intros t H Hp Hids; [done|].
  apply Forall_cons in Hids as [[Hreg HT] Hids]. cbn [cascade]. apply IH; [|done|].
  - change (find t id) with (find (remove_node t id) id). apply add_inv; [|done..].
    destruct (remove_inv _ _ _ _ id H) as [H0 H1 Hs Hr]. split; [done..| |done].
    intros s k Hk. destruct (Hs s k Hk) as (Hne&?&?&Hpl). split_and!; [done..|].
    destruct Hpl as [?|[Hin ->]]; [by left|]. right. split; [|done].
    apply elem_of_cons in Hin as [->|?]; done.
  - eapply Forall_impl; [exact Hids|]. intros k Hk. unfold find in *. by rewrite tasks_wheel_add.
Qed.

Lemma cascade_frame ids t now : same_place t (cascade t ids now) /\ tasks (cascade t ids now) = tasks t.
Proof.
  revert t. induction ids as [|id ids IH]; intros t; [done|]. cbn [cascade].
  destruct (IH (wheel_add (remove_node t id) id (timeout (find t id)) now)) as [H1 H2]. split.
  - etrans; [|exact H1].
    by destruct (wheel_add_place (remove_node t id) id (timeout (find t id)) now) as [? ? ?]; split.
  - rewrite H2. apply (tasks_wheel_add (remove_node t id)).
Qed.

(** One tick brings every slot nearer by one; those of level 1 whose turn it is
    are emptied. *)
Lemma cursor_next c i : 0 <= c < 100 -> 0 <= i < 100 -> (i - c) mod 100 <> 0 ->
  (i - u32 (c + 1) mod 100) mod 100 = (i - c) mod 100 - 1.
Proof. intros Hc Hi Hd. rewrite wrap_id by (unfold is_u; lia). Z.div_mod_to_equations; lia. Qed.

Lemma advance_inv t pos now :
  wheel_inv [] None t pos now -> pos + 1 <= now -> current t = [] ->
  wheel_inv [] None (wheel_advance t now) (pos + 1) now.
Proof.
  intros [H0 H1 Hs Hr] Hp Hc. unfold wheel_advance, WHEEL_0_SIZE, WHEEL_1_SIZE.
  set (c0 := u32 (wheel0_cursor t + 1) mod 100). set (c1 := u32 (wheel1_cursor t + 1) mod 100).
  assert (Hc0 : 0 <= c0 < 100) by (apply Z.mod_pos_bound; lia).
  assert (Hc1 : 0 <= c1 < 100) by (apply Z.mod_pos_bound; lia).
  assert (E0 : c0 = 0 /\ wheel0_cursor t = 99 \/ c0 = wheel0_cursor t + 1)
    by (unfold c0; rewrite wrap_id by (unfold is_u; lia); Z.div_mod_to_equations; lia).
  assert (Hlow : forall i id, id ∈ wheel0_list t i -> forall c1',
    placed c0 c1' (pos + 1) (Slot0 i) (timeout (find t id))).
  { intros i id Hin c1'. destruct (Hs (Slot0 i) id Hin) as (_&_&_&[[Hi Hd]|[Hbad _]]);
      [|by apply elem_of_nil in Hbad].
    assert (Hne : (i - wheel0_cursor t) mod 100 <> 0).
    { intros E. assert (i = wheel0_cursor t) as -> by (Z.div_mod_to_equations; lia).
      change (wheel0_list t (wheel0_cursor t)) with (current t) in Hin. rewrite Hc in Hin. by apply elem_of_nil in Hin. }
    destruct Hd as [?|Hd]; [done|]. split; [done|]. right. unfold c0. rewrite cursor_next by done. lia. }
  assert (Hhigh : forall i id, id ∈ wheel1_list t i -> 0 <= i < 100 /\ 1 <= (i - wheel1_cursor t) mod 100 /\
    pos + 100 * ((i - wheel1_cursor t) mod 100) - wheel0_cursor t <= timeout (find t id)).
  { intros i id Hin. destruct (Hs (Slot1 i) id Hin) as (_&_&_&[?|[Hbad _]]); [done|by apply elem_of_nil in Hbad]. }
  destruct (Z.eqb_spec c0 0) as [Ez|Ez].
  - unfold wheel_cascade_l1. apply cascade_inv; [|done|].
    + split; [done..| |exact Hr]. intros s id Hin. cbn [set_cursors wheel0_cursor wheel1_cursor].
      assert (Hin' : id ∈ slot_at t s) by by destruct s.
      destruct (Hs s id Hin') as (?&?&?&_). split_and!; [done..|]. destruct s as [i|i]; [left; by apply Hlow|].
      destruct (Hhigh i id Hin') as (Hi&He&HT). destruct (decide (i = c1)) as [->|Hne]; [by right|].
      left. change (find (set_cursors t c0 c1) id) with (find t id). cbn. split; [done|].
      unfold c1. rewrite cursor_next by (done || lia). rewrite Ez in *.
      assert ((i - wheel1_cursor t) mod 100 <> 1); [|lia].
      intros E1. apply Hne. unfold c1. rewrite wrap_id by (unfold is_u; lia). Z.div_mod_to_equations; lia.
    + apply Forall_forall. intros id Hin. by destruct (Hs (Slot1 c1) id Hin) as (_&?&?&_).
  - split; [done..| |exact Hr]. intros s id Hin. cbn [set_cursors wheel0_cursor wheel1_cursor].
    assert (Hin' : id ∈ slot_at t s) by by destruct s.
    destruct (Hs s id Hin') as (?&?&?&_). split_and!; [done..|]. left. destruct s as [i|i]; [by apply Hlow|].
    destruct (Hhigh i id Hin') as (Hi&He&HT). cbn. change (find (set_cursors t c0 (wheel1_cursor t)) id) with (find t id).
    lia.
Qed.

Lemma advance_frame t now :
  last_timer_check_ms (wheel_advance t now) = last_timer_check_ms t /\ tasks (wheel_advance t now) = tasks t.
Proof.
  unfold wheel_advance. case_if; [|done]. unfold wheel_cascade_l1.
  match goal with |- context [cascade ?t ?ids now] => destruct (cascade_frame ids t now) as [[_ _ H1] H2] end.
  by rewrite H1, H2.
Qed.

(** *** The pass *)

Section pass_ok.
Context {A : Type} (cb_timer : Z -> A -> list op * A) (work : A -> nat) (now : Z).

(** Callbacks arm timers less than 2^32 ms ahead, and use up [work] for each one
    they arm at once. *)
Definition tame : Prop := forall id a ops a', cb_timer id a = (ops, a') ->
  Forall (soon now) ops /\ (due_arms now ops + work a' <= work a)%nat.

Definition touched (fs : list firing) : list Z :=
  mjoin ((fun f => f_id f :: (op_id <$> f_ops f)) <$> fs).

(** What firing [fs] amounts to. *)
Record fires (t : thread) (fs : list firing) (t' : thread) : Prop := {
  fi_due : Forall (fun f => f_timeout f <= now) fs;
  fi_last : last_timer_check_ms t' = last_timer_check_ms t;
  fi_rest k : k ∉ touched fs -> find t' k = find t k
}.

Lemma touched_app fs fs' : touched (fs ++ fs') = touched fs ++ touched fs'.
Proof. unfold touched. by rewrite fmap_app, join_app. Qed.

Lemma fires_nil t t' : last_timer_check_ms t' = last_timer_check_ms t -> tasks t' = tasks t -> fires t [] t'.
Proof. intros H1 H2. split; [done..|]. intros k _. unfold find. by rewrite H2. Qed.

Lemma fires_trans t1 fs t2 fs' t3 : fires t1 fs t2 -> fires t2 fs' t3 -> fires t1 (fs ++ fs') t3.
Proof.
  intros [D1 L1 R1] [D2 L2 R2]. split; [by apply Forall_app|congruence|].
  intros k Hk. rewrite touched_app, not_elem_of_app in Hk. destruct Hk. by rewrite R2, R1.
Qed.

Hypothesis Htame : tame.

Lemma fire_ok t a id pos :
  wheel_inv [] (Some id) t pos now -> pos <= now -> timeout (find t id) <= now ->
  exists t' a' f, fire_timer_task cb_timer t a id now = (t', a', f) /\ wheel_inv [] None t' pos now /\
    same_place t t' /\ fires t [f] t' /\ (length (current t') + work a' <= length (current t) + work a)%nat.
Proof.
  intros H Hp Hd. unfold fire_timer_task. destruct (cb_timer id a) as [ops a'] eqn:Ec.
  destruct (Htame _ _ _ _ Ec) as [Hsoon Hwork]. eexists _, _, _. split; [reflexivity|].
  set (t1 := set_tasks t _).
  assert (Hf : forall k, find t1 k = if k =? id then mk_task (timeout (find t id)) false else find t k)
    by (intros k; apply (find_set _ _ _ _ _ eq_refl)).
  assert (H1 : wheel_inv [] None t1 pos now).
  { apply (idle_inv _ _ _ _ id); [by apply record_inv|]. by rewrite Hf, Z.eqb_refl. }
  split; [by apply do_ops_inv|]. split; [etrans; [|apply do_ops_place]; done|]. split.
  - split; [by repeat constructor|apply (sp_last _ _ (do_ops_place t1 now ops))|].
    intros k Hk. cbn in Hk. rewrite app_nil_r in Hk. apply not_elem_of_cons in Hk as [Hk Hk'].
    rewrite do_ops_find by done. by rewrite Hf, (proj2 (Z.eqb_neq k id)).
  - pose proof (do_ops_current t1 pos now ops H1 Hp Hsoon) as Hc.
    change (current t1) with (current t) in Hc. lia.
Qed.

Lemma current_pop t id rest :
  current t = id :: rest -> (length (current (remove_node t id)) <= length rest)%nat.
Proof.
  unfold current. cbn [remove_node wheel0_list wheel0_cursor]. intros ->.
  rewrite filter_cons, decide_False by tauto. apply length_filter.
Qed.

Lemma process_ok fuel t a pos :
  wheel_inv [] None t pos now -> pos <= now -> (length (current t) + work a <= fuel)%nat ->
  exists t' a' fs, process_current_timer_slot cb_timer fuel t a now = Some (t', a', fs) /\
    wheel_inv [] None t' pos now /\ current t' = [] /\ fires t fs t'.
Proof.
  revert t a. induction fuel as [|fuel IH]; intros t a H Hp Hfuel; cbn [process_current_timer_slot];
    change (wheel0_list t (wheel0_cursor t)) with (current t); destruct (current t) as [|id rest] eqn:Ec.
  - exists t, a, []. split_and!; try done; by apply fires_nil.
  - cbn in Hfuel. lia.
  - exists t, a, []. split_and!; try done; by apply fires_nil.
  - pose proof (current_pop _ _ _ Ec) as Hlen. pose proof (remove_inv _ _ _ _ id H) as Hrm.
    destruct (wi_slot _ _ _ _ _ H (Slot0 (wheel0_cursor t)) id) as (_&Hreg&HT&_).
    { change (id ∈ current t). rewrite Ec. left. }
    change (find t id) with (find (remove_node t id) id) in *.
    cbn [length] in Hfuel. destruct (Z.ltb_spec now (timeout (find (remove_node t id) id))) as [Hl|Hl].
    + assert (Hcur : current (wheel_requeue (remove_node t id) id (timeout (find (remove_node t id) id)) now)
                     = current (remove_node t id)).
      { apply current_set_other, slot_later; [apply H|lia]. }
      destruct (IH (wheel_requeue (remove_node t id) id (timeout (find (remove_node t id) id)) now) a)
        as (t'&a'&fs&E&Hok&Hc&Hf).
      * by apply requeue_inv.
      * done.
      * rewrite Hcur. lia.
      * exists t', a', fs. split_and!; try done. refine (fires_trans _ [] _ _ _ _ Hf).
        unfold wheel_requeue. by apply fires_nil; destruct (wheel_timer_slot _ _ _).
    + destruct (fire_ok (remove_node t id) a id pos Hrm Hp Hl) as (t1&a1&f&Ef&H1&_&Hf1&Hw).
      rewrite Ef. destruct (IH t1 a1 H1 Hp ltac:(lia)) as (t'&a'&fs&E&Hok&Hc&Hf). rewrite E.
      exists t', a', (f :: fs). split_and!; try done.
      apply (fires_trans t [f] t1 fs t'); [|done]. destruct Hf1. by split.
Qed.

Lemma process_mono fuel fuel' t a r :
  process_current_timer_slot cb_timer fuel t a now = Some r -> (fuel <= fuel')%nat ->
  process_current_timer_slot cb_timer fuel' t a now = Some r.
Proof.
  revert fuel' t a r. induction fuel as [|fuel IH]; intros fuel' t a r H Hle.
  - destruct fuel'; cbn in *; by destruct (wheel0_list t (wheel0_cursor t)).
  - destruct fuel' as [|fuel']; [lia|]. cbn in *. destruct (wheel0_list t (wheel0_cursor t)); [done|].
    case_if; [apply IH; [done|lia]|]. destruct (fire_timer_task _ _ _ _ _) as [[t1 a1] f].
    destruct (process_current_timer_slot cb_timer fuel t1 a1 now) as [r1|] eqn:E; [|done].
    by rewrite (IH fuel' _ _ r1 E ltac:(lia)).
Qed.

Lemma ticks_ok ticks t a pos :
  wheel_inv [] None t pos now -> pos + Z.of_nat ticks <= now -> current t = [] ->
  exists n t' a' fs, (forall fuel, (n <= fuel)%nat -> do_ticks cb_timer fuel ticks t a now = Some (t', a', fs)) /\
    wheel_inv [] None t' (pos + Z.of_nat ticks) now /\ current t' = [] /\ fires t fs t'.
Proof.
  revert t a pos. induction ticks as [|ticks IH]; intros t a pos H Hp Hc.
  - exists 0%nat, t, a, []. rewrite Z.add_0_r. split_and!; try done; by apply fires_nil.
  - pose proof (advance_inv t pos now H ltac:(lia) Hc) as H1. destruct (advance_frame t now) as [L1 T1].
    destruct (process_ok _ _ a _ H1 ltac:(lia) (Nat.le_refl _)) as (t2&a2&fs2&E2&H2&Hc2&Hf2).
    destruct (IH t2 a2 (pos + 1) H2 ltac:(lia) Hc2) as (n&t3&a3&fs3&E3&H3&Hc3&Hf3).
    exists ((length (current (wheel_advance t now)) + work a) `max` n)%nat, t3, a3, (fs2 ++ fs3). split_and!.
    + intros fuel Hfuel. cbn [do_ticks]. rewrite (process_mono _ fuel _ _ _ E2) by lia. by rewrite E3 by lia.
    + replace (pos + Z.of_nat (S ticks)) with (pos + 1 + Z.of_nat ticks) by lia. done.
    + done.
    + apply (fires_trans t fs2 t2 fs3 t3); [|done]. destruct Hf2 as [D L R]. split; [done|congruence|].
      intros k Hk. rewrite R by done. unfold find. by rewrite T1.
Qed.

Lemma due_gone t pos id :
  wheel_inv [] None t now pos -> current t = [] -> registered (find t id) = true -> now < timeout (find t id).
Proof.
  intros [H0 H1 Hs Hr] Hc Hreg. destruct (Hr id Hreg) as [?|[s Hin]]; [done|].
  destruct (Hs s id Hin) as (_&_&_&[Hp|[Hbad _]]); [|by apply elem_of_nil in Hbad].
  destruct s as [i|i]; cbn in Hp.
  - destruct Hp as [Hi [Hd|Hd]].
    + assert (i = wheel0_cursor t) as -> by (Z.div_mod_to_equations; lia).
      change (id ∈ current t) in Hin. rewrite Hc in Hin. by apply elem_of_nil in Hin.
    + destruct (Z.eq_dec ((i - wheel0_cursor t) mod 100) 0) as [E|E]; [|zlia].
      assert (i = wheel0_cursor t) as -> by (Z.div_mod_to_equations; lia).
      change (id ∈ current t) in Hin. rewrite Hc in Hin. by apply elem_of_nil in Hin.
  - lia.
Qed.
End pass_ok.

(** *** Every history of a thread's timers *)

(** Times pass; timers are armed, disarmed and destroyed, less than 2^32 ms ahead;
    passes run with tame callbacks. *)
Inductive wheel_reachable : thread -> Z -> Prop :=
  | wr_create now : 0 <= now < 2 ^ 64 -> wheel_reachable (create_thread now) now
  | wr_op t now now' o : wheel_reachable t now -> now <= now' < 2 ^ 64 -> soon now' o ->
      wheel_reachable (do_op t now' o) now'
  | wr_pass {A} (cb_timer : Z -> A -> list op * A) work fuel t a now now' t' a' fs :
      wheel_reachable t now -> now <= now' < 2 ^ 64 -> tame cb_timer work now' ->
      do_timer_tasks cb_timer fuel t a now' = Some (t', a', fs) -> wheel_reachable t' now'.

Lemma inv_later t pos now now' : wheel_inv [] None t pos now -> now <= now' -> wheel_inv [] None t pos now'.
Proof.
  intros [H0 H1 Hs Hr] Hle. split; [done..| |done]. intros s id Hin.
  destruct (Hs s id Hin) as (?&?&?&?). split_and!; [done..|lia|done].
Qed.

Lemma pass_ok {A} (cb_timer : Z -> A -> list op * A) work t a now :
  tame cb_timer work now -> wheel_inv [] None t (last_timer_check_ms t) now ->
  0 <= last_timer_check_ms t <= now -> now < 2 ^ 64 ->
  exists n t' a' fs,
    (forall fuel, (n <= fuel)%nat -> do_timer_tasks cb_timer fuel t a now = Some (t', a', fs)) /\
    wheel_inv [] None t' now now /\ last_timer_check_ms t' = now /\ current t' = [] /\
    Forall (fun f => f_timeout f <= now) fs /\ (forall k, k ∉ touched fs -> find t' k = find t k).
Proof.
  intros Htame H Hlast Hnow.
  destruct (process_ok cb_timer work now Htame _ t a _ H ltac:(lia) (Nat.le_refl _))
    as (t1&a1&fs1&E1&H1&Hc1&Hf1).
  assert (Eu : u64 (now - last_timer_check_ms t) / WHEEL_0_TICK_MS = now - last_timer_check_ms t)
    by (rewrite wrap_id by (unfold is_u; lia); apply Z.div_1_r).
  destruct (ticks_ok cb_timer work now Htame (Z.to_nat (now - last_timer_check_ms t)) t1 a1 _ H1 ltac:(lia) Hc1)
    as (n&t2&a2&fs2&E2&H2&Hc2&Hf2).
  replace (last_timer_check_ms t + Z.of_nat (Z.to_nat (now - last_timer_check_ms t))) with now in H2 by lia.
  destruct (fires_trans _ _ _ _ _ _ Hf1 Hf2) as [HD HL HR].
  exists ((length (current t) + work a) `max` n)%nat. eexists _, a2, (fs1 ++ fs2). split_and!.
  - intros fuel Hfuel. unfold do_timer_tasks. rewrite Eu.
    rewrite (process_mono _ _ _ _ _ _ _ E1) by lia. rewrite E2 by lia. reflexivity.
  - by destruct H2.
  - cbn. unfold WHEEL_0_TICK_MS. rewrite HL, wrap_id by (unfold is_u; lia). lia.
  - done.
  - done.
  - exact HR.
Qed.

Lemma do_timer_tasks_mono {A} (cb_timer : Z -> A -> list op * A) fuel fuel' t a now r :
  do_timer_tasks cb_timer fuel t a now = Some r -> (fuel <= fuel')%nat ->
  do_timer_tasks cb_timer fuel' t a now = Some r.
Proof.
  intros H Hle. unfold do_timer_tasks in *.
  destruct (process_current_timer_slot cb_timer fuel t a now) as [[[t1 a1] fs1]|] eqn:E1; [|done].
  rewrite (process_mono _ _ _ _ _ _ _ E1 Hle).
  destruct (do_ticks cb_timer fuel _ t1 a1 now) as [[[t2 a2] fs2]|] eqn:E2; [|done].
  enough (Ht : do_ticks cb_timer fuel' (Z.to_nat (u64 (now - last_timer_check_ms t) / WHEEL_0_TICK_MS)) t1 a1 now
               = Some (t2, a2, fs2)) by by rewrite Ht.
  clear -E2 Hle. revert t1 a1 t2 a2 fs2 E2. generalize (Z.to_nat (u64 (now - last_timer_check_ms t) / WHEEL_0_TICK_MS)).
  intros ticks. induction ticks as [|ticks IH]; intros t1 a1 t2 a2 fs2 E2; [done|]. cbn in *.
  destruct (process_current_timer_slot cb_timer fuel _ a1 now) as [[[t3 a3] fs3]|] eqn:E3; [|done].
  rewrite (process_mono _ _ _ _ _ _ _ E3 Hle).
  destruct (do_ticks cb_timer fuel ticks t3 a3 now) as [[[t4 a4] fs4]|] eqn:E4; [|done].
  by rewrite (IH _ _ _ _ _ E4).
Qed.

Lemma reachable_inv t now :
  wheel_reachable t now ->
  wheel_inv [] None t (last_timer_check_ms t) now /\ 0 <= last_timer_check_ms t <= now.
Proof.
  induction 1 as [now Hn|t now now' o _ [IH IHl] Hle Ho|A cb work fuel t a now now' t' a' fs _ [IH IHl] Hle Ht Hrun].
  - split; [|cbn; lia]. split; cbn; try lia.
    + intros [i|i] id Hin; by apply elem_of_nil in Hin.
    + intros id Hreg. unfold find in Hreg. cbn in Hreg. by rewrite lookup_empty in Hreg.
  - destruct (do_op_place t now' o) as [_ _ ->]. split; [|lia].
    apply do_op_inv; [eapply inv_later; [eassumption|lia]|lia|done].
  - destruct (pass_ok cb work t a now' Ht) as (n&t2&a2&fs2&E&H2&Hl2&_); [eapply inv_later; [eassumption|lia]|lia..|].
    specialize (E (n `max` fuel)%nat ltac:(lia)).
    rewrite (do_timer_tasks_mono _ _ (n `max` fuel)%nat _ _ _ _ Hrun) in E by lia. injection E as -> -> ->.
    rewrite Hl2. split; [done|lia].
Qed.

(** The tasks callbacks have operated on. *)
Definition handled (fs : list firing) : list Z := mjoin ((fun f => op_id <$> f_ops f) <$> fs).

Lemma touched_elem fs k : k ∈ touched fs <-> k ∈ f_id <$> fs \/ k ∈ handled fs.
Proof.
  induction fs as [|f fs IH]; [split; [by intros ?%elem_of_nil|by intros [?%elem_of_nil|?%elem_of_nil]]|].
  unfold touched, handled in *. cbn. rewrite !elem_of_app, !elem_of_cons. rewrite elem_of_app. rewrite IH. tauto.
Qed.


(** Two timers, the first of which arms the second for the same time. *)
Definition chain_cb (id : Z) (left : nat) : list op * nat :=
  match left with O => ([], O) | S n => ([Arm 2 1500; Arm 3 20000], n) end.


Lemma slot_wraps t now : 0 <= wheel0_cursor t < 100 ->
  wheel_timer_slot t (now + 2 ^ 32) now = Slot0 (wheel0_cursor t).
Proof.
  intros Hc. unfold wheel_timer_slot, WHEEL_1_TICK_MS, WHEEL_0_TICK_MS, WHEEL_0_SIZE.
  rewrite (proj2 (Z.leb_gt _ _)) by lia. replace (now + 2 ^ 32 - now) with (2 ^ 32) by lia.
  change (u32 (u64 (u64 (2 ^ 32) + 1 - 1) / 1)) with 0. cbn zeta. change (0 <? 100) with true. cbv iota.
  rewrite Z.add_0_r, wrap_id by (unfold is_u; lia). by rewrite Z.mod_small.
Qed.

Lemma stuck_loop {A} (cb_timer : Z -> A -> list op * A) fuel t a now id :
  current t = [id] -> 0 <= wheel0_cursor t < 100 -> timeout (find t id) = now + 2 ^ 32 ->
  process_current_timer_slot cb_timer fuel t a now = None.
Proof.
  revert t. induction fuel as [|fuel IH]; intros t Hc Hr HT; cbn [process_current_timer_slot];
    change (wheel0_list t (wheel0_cursor t)) with (current t); rewrite Hc; [done|].
  cbn zeta. rewrite HT, (proj2 (Z.ltb_lt _ _)) by lia. unfold wheel_requeue.
  rewrite slot_wraps by done. apply IH; [|done|done].
  unfold current in *. cbn. rewrite Z.eqb_refl, Hc, filter_cons, decide_False by tauto. done.
Qed.

(** A timer armed a multiple of 2^32 ms ahead hangs its worker: the number of
    ticks is cut to 32 bits, so it goes to the current slot, and the pass takes
    it out and puts it back for ever. *)
Theorem far_timer_hangs {A} (cb_timer : Z -> A -> list op * A) fuel a now id :
  0 <= now < 2 ^ 63 ->
  do_timer_tasks cb_timer fuel (do_op (create_thread now) now (Arm id (now + 2 ^ 32))) a now = None.
Proof.
  intros Hnow. rewrite arm_eq.
  assert (E : unlinked (create_thread now) id = create_thread now)
    by (unfold unlinked, find; cbn; by rewrite lookup_empty).
  rewrite E. unfold do_timer_tasks, wheel_add. rewrite slot_wraps by (cbn; lia).
  rewrite (stuck_loop _ _ _ _ _ id); [done|done|cbn; lia|].
  rewrite find_set_slot, (find_set _ _ _ _ _ eq_refl), Z.eqb_refl. done.
Qed.

Lemma far_timer_hangs_witness :
  do_timer_tasks chain_cb 1000 (do_op (create_thread 1000) 1000 (Arm 1 (1000 + 2 ^ 32))) 0%nat 1000 = None.
Proof. apply (far_timer_hangs chain_cb 1000 0%nat 1000 1). lia. Defined.

End Wheel.
