(* ===== verification/TcpDefs.v ===== *)
(** Shared data of the TCP model (src/main/tcp.h, src/main/socket.h,
    src/main/tcp_metrics.h): constants, sequence arithmetic, the protocol
    control block, the socket and the connection state the handlers thread.

    A queued segment is [tskb]: the part of a [skbuff] TCP looks at, its
    [l4_private.tcp] sequence number and flags and its payload bytes (Skbuff.v
    relates the byte list to the fragment chain).  [conn] is what one handler
    invocation sees: the control block, its socket, and the environment
    ([env]: clock, outcomes of allocations and of IP output, packets handed to
    IP so far). *)

From stdpp Require Import prelude list.
From Stdlib Require Import ZArith Lia.
From S2P Require Import Prelude.

(** *** Constants of tcp.h *)
Definition MAX_TCP_HDR_OPT_LEN : Z := 60.
Definition TCP_HDR_LEN : Z := 20.
Definition TCP_RCV_WND_SCALE_DEFAULT : Z := 6.
Definition TCP_FLAG_FIN : Z := 0x01.
Definition TCP_FLAG_SYN : Z := 0x02.
Definition TCP_FLAG_RST : Z := 0x04.
Definition TCP_FLAG_PSH : Z := 0x08.
Definition TCP_FLAG_ACK : Z := 0x10.

Definition TCP_RETRIES2_DEFAULT : Z := 10.
Definition TCP_ORPHAN_RETRIES_DEFAULT : Z := 6.
Definition TCP_KEEPALIVE_TIMEOUT_MS_DEFAULT : Z := 75000.
Definition TCP_KEEPALIVE_INTERVAL_MS_DEFAULT : Z := 75000.
Definition TCP_KEEPALIVE_REPEAT_MAX_DEFAULT : Z := 9.
Definition TCP_PERSIST_BACKOFF_MS_DEFAULT : Z := 2000.
Definition TCP_PERSIST_BACKOFF_MS_MAX : Z := 60000.
Definition TCP_TIMEWAIT_TIMEOUT_MS_DEFAULT : Z := 60000.
Definition TCP_FINWAIT2_TIMEOUT_MS_DEFAULT : Z := 60000.
Definition TCP_DELACK_TIMEOUT_MS_DEFAULT : Z := 40.
Definition TCP_NAGLE_INTERVAL_MS_DEFAULT : Z := 10.
Definition TCP_CORK_TIMEOUT_MS_DEFAULT : Z := 200.
Definition TCP_OUTPUT_BURST_MAX : Z := 64.
Definition TCP_KEEPALIVE_RETRY_TIMEOUT_MS_DEFAULT : Z := 1000.
Definition TCP_CONNECT_TIMEOUT_MS_DEFAULT : Z := 1000.
Definition TCP_CONNECT_RETRY_MAX : Z := 8.
Definition TCP_TIMER_STOP : Z := 0.

(** *** Sequence numbers: modulo-2^32 order *)
Definition SEQ_LT (a b : Z) : bool := s32 (a - b) <? 0.
Definition SEQ_LEQ (a b : Z) : bool := s32 (a - b) <=? 0.
Definition SEQ_GT (a b : Z) : bool := 0 <? s32 (a - b).
Definition SEQ_GEQ (a b : Z) : bool := 0 <=? s32 (a - b).

(** [flags & F] as a condition. *)
Definition has (flags f : Z) : bool := negb (Z.land flags f =? 0).

Inductive tcp_state :=
  | TCP_STATE_CLOSED | TCP_STATE_LISTEN | TCP_STATE_SYN_SENT
  | TCP_STATE_SYN_RECEIVED | TCP_STATE_ESTABLISHED | TCP_STATE_FIN_WAIT_1
  | TCP_STATE_FIN_WAIT_2 | TCP_STATE_CLOSE_WAIT | TCP_STATE_CLOSING
  | TCP_STATE_LAST_ACK | TCP_STATE_TIME_WAIT.

#[export] Instance tcp_state_eq_dec : EqDecision tcp_state.
Proof. solve_decision. Defined.

Definition st_eqb (a b : tcp_state) : bool := bool_decide (a = b).

Inductive netfast_tcp_ca_state :=
  | NET_TCP_CA_OPEN | NET_TCP_CA_RECOVERY | NET_TCP_CA_LOSS.

#[export] Instance ca_state_eq_dec : EqDecision netfast_tcp_ca_state.
Proof. solve_decision. Defined.

(** Readiness events of socket_notify_event (src/main/fd_entry.h). *)
Definition notify_data_read : Z := 1.
Definition notify_data_write : Z := 2.
Definition notify_new_connection : Z := 4.
Definition notify_err : Z := 8.
Definition notify_recv_fin : Z := 16.

(** Linux error numbers the handlers return or store. *)
Definition EIO : Z := 5.
Definition EAGAIN : Z := 11.
Definition ENOMEM : Z := 12.
Definition EFAULT : Z := 14.
Definition EINVAL : Z := 22.
Definition EMFILE : Z := 24.
Definition EPIPE : Z := 32.
Definition ENOPROTOOPT : Z := 92.
Definition EAFNOSUPPORT : Z := 97.
Definition EADDRINUSE : Z := 98.
Definition EADDRNOTAVAIL : Z := 99.
Definition ENETUNREACH : Z := 101.
Definition ECONNRESET : Z := 104.
Definition EISCONN : Z := 106.
Definition ENOTCONN : Z := 107.
Definition ETIMEDOUT : Z := 110.
Definition ECONNREFUSED : Z := 111.
Definition EHOSTUNREACH : Z := 113.
Definition EALREADY : Z := 114.
Definition EINPROGRESS : Z := 115.

(** A segment on a TCP queue: [l4_private.tcp.seq], [l4_private.tcp.flag] and
    the payload bytes. *)
Record tskb := mk_tskb {
  t_seq : Z;
  t_flag : Z;
  t_data : list Z
}.

#[export] Instance eta_tskb : Eta tskb := fun r =>
  mk_tskb (t_seq r) (t_flag r) (t_data r).
#[export] Instance set_t_seq : Setter t_seq := ltac:(mk_setter).
#[export] Instance set_t_flag : Setter t_flag := ltac:(mk_setter).
#[export] Instance set_t_data : Setter t_data := ltac:(mk_setter).

(** The scheduling fields of a timer [task] (src/lib/thread.h). *)
Record task := mk_task {
  registered : bool;
  timeout : Z
}.

#[export] Instance eta_task : Eta task := fun r =>
  mk_task (registered r) (timeout r).
#[export] Instance set_registered : Setter registered := ltac:(mk_setter).
#[export] Instance set_timeout : Setter timeout := ltac:(mk_setter).

(** [netfast_tcp_cubic]. *)
Record netfast_tcp_cubic := mk_cubic {
  epoch_start_ms : Z;
  last_max_cwnd : Z;
  origin_point : Z;
  k_ms : Z;
  ack_cnt : Z;
  tcp_cwnd : Z;
  cnt : Z;
  cwnd_cnt : Z;
  acked_bytes : Z
}.

#[export] Instance eta_netfast_tcp_cubic : Eta netfast_tcp_cubic := fun r =>
  mk_cubic (epoch_start_ms r) (last_max_cwnd r) (origin_point r) (k_ms r)
    (ack_cnt r) (tcp_cwnd r) (cnt r) (cwnd_cnt r) (acked_bytes r).
#[export] Instance set_epoch_start_ms : Setter epoch_start_ms := ltac:(mk_setter).
#[export] Instance set_last_max_cwnd : Setter last_max_cwnd := ltac:(mk_setter).
#[export] Instance set_origin_point : Setter origin_point := ltac:(mk_setter).
#[export] Instance set_k_ms : Setter k_ms := ltac:(mk_setter).
#[export] Instance set_ack_cnt : Setter ack_cnt := ltac:(mk_setter).
#[export] Instance set_tcp_cwnd : Setter tcp_cwnd := ltac:(mk_setter).
#[export] Instance set_cnt : Setter cnt := ltac:(mk_setter).
#[export] Instance set_cwnd_cnt : Setter cwnd_cnt := ltac:(mk_setter).
#[export] Instance set_acked_bytes : Setter acked_bytes := ltac:(mk_setter).

(** [tcp_metrics]: interface of the route and the RTT estimator. *)
Record tcp_metrics := mk_metrics {
  m_ifindex : Z;
  rtt : Z;
  rttvar : Z
}.

#[export] Instance eta_tcp_metrics : Eta tcp_metrics := fun r =>
  mk_metrics (m_ifindex r) (rtt r) (rttvar r).
#[export] Instance set_m_ifindex : Setter m_ifindex := ltac:(mk_setter).
#[export] Instance set_rtt : Setter rtt := ltac:(mk_setter).
#[export] Instance set_rttvar : Setter rttvar := ltac:(mk_setter).

(** The fields of a [route_info] TCP reads; [r_unicast] is false for broadcast
    and multicast routes. *)
Record route_info := mk_route {
  r_ifindex : Z;
  r_mtu : Z;
  r_l2_len : Z;
  r_unicast : bool
}.

#[export] Instance eta_route_info : Eta route_info := fun r =>
  mk_route (r_ifindex r) (r_mtu r) (r_l2_len r) (r_unicast r).
#[export] Instance set_r_ifindex : Setter r_ifindex := ltac:(mk_setter).
#[export] Instance set_r_mtu : Setter r_mtu := ltac:(mk_setter).
#[export] Instance set_r_l2_len : Setter r_l2_len := ltac:(mk_setter).
#[export] Instance set_r_unicast : Setter r_unicast := ltac:(mk_setter).

(** [tcp_pcb].  The intrusive lists [syn_list]/[accept_list] of a listener are
    lists of child socket identifiers; the fields no code reads ([snd_last_time],
    [recv_rst], [send_rst], [is_child_sock]) are left out. *)
Record tcp_pcb := mk_pcb {
  metrics : option tcp_metrics;
  state : tcp_state;
  timer_task : task;
  retransmit_deadline_ms : Z;
  keepalive_deadline_ms : Z;
  persist_deadline_ms : Z;
  timewait_deadline_ms : Z;
  finwait2_deadline_ms : Z;
  ack_deadline_ms : Z;
  connect_deadline_ms : Z;
  nagle_deadline_ms : Z;
  retransmit_timeout : Z;
  keepalive_timeout : Z;
  keepalive_interval : Z;
  keepalive_retry_timeout : Z;
  keepalive_repeat_count : Z;
  keepalive_repeat_max : Z;
  persist_backoff : Z;
  retries_out : Z;
  retries_max : Z;
  timewait_timeout : Z;
  finwait2_timeout : Z;
  ack_timeout : Z;
  ack_pending_segments : Z;
  connect_timeout : Z;
  connect_retry_times : Z;
  nagle_interval : Z;
  rtt_meas_time : Z;
  rtt_meas_seq : Z;
  syn_list : list Z;
  syn_list_num : Z;
  accept_list : list Z;
  accept_list_num : Z;
  parent_sock : option Z;
  retransmit_queue : list tskb;
  unordered_skb_list : list tskb;
  rcv_nxt : Z;
  rcv_wnd : Z;
  rcv_mss : Z;
  last_ack : Z;
  last_ack_repeat : Z;
  snd_wnd : Z;
  snd_una : Z;
  snd_nxt : Z;
  snd_end : Z;
  snd_cwnd : Z;
  snd_ssthresh : Z;
  snd_wl1 : Z;
  snd_wl2 : Z;
  peer_mss : Z;
  snd_mss : Z;
  snd_wnd_scale : Z;
  rcv_wnd_scale : Z;
  backlog : Z;
  ts_recent : Z;
  ts_recent_age_ms : Z;
  ts_last_tsecr : Z;
  recv_fin : bool;
  peer_ts_ok : bool;
  peer_mss_ok : bool;
  wnd_scale_sent : bool;
  peer_wnd_scale_ok : bool;
  cork : bool;
  ca_recovery_seq : Z;
  ca_prior_cwnd : Z;
  ca_state : netfast_tcp_ca_state;
  cubic : netfast_tcp_cubic
}.

#[export] Instance eta_tcp_pcb : Eta tcp_pcb := fun r =>
  mk_pcb (metrics r) (state r) (timer_task r) (retransmit_deadline_ms r)
    (keepalive_deadline_ms r) (persist_deadline_ms r)
    (timewait_deadline_ms r) (finwait2_deadline_ms r)
    (ack_deadline_ms r) (connect_deadline_ms r) (nagle_deadline_ms r)
    (retransmit_timeout r) (keepalive_timeout r)
    (keepalive_interval r) (keepalive_retry_timeout r)
    (keepalive_repeat_count r) (keepalive_repeat_max r)
    (persist_backoff r) (retries_out r) (retries_max r)
    (timewait_timeout r) (finwait2_timeout r) (ack_timeout r)
    (ack_pending_segments r) (connect_timeout r)
    (connect_retry_times r) (nagle_interval r) (rtt_meas_time r)
    (rtt_meas_seq r) (syn_list r) (syn_list_num r) (accept_list r)
    (accept_list_num r) (parent_sock r) (retransmit_queue r)
    (unordered_skb_list r) (rcv_nxt r) (rcv_wnd r) (rcv_mss r)
    (last_ack r) (last_ack_repeat r) (snd_wnd r) (snd_una r)
    (snd_nxt r) (snd_end r) (snd_cwnd r) (snd_ssthresh r) (snd_wl1 r)
    (snd_wl2 r) (peer_mss r) (snd_mss r) (snd_wnd_scale r)
    (rcv_wnd_scale r) (backlog r) (ts_recent r) (ts_recent_age_ms r)
    (ts_last_tsecr r) (recv_fin r) (peer_ts_ok r) (peer_mss_ok r)
    (wnd_scale_sent r) (peer_wnd_scale_ok r) (cork r)
    (ca_recovery_seq r) (ca_prior_cwnd r) (ca_state r) (cubic r).
#[export] Instance set_metrics : Setter metrics := ltac:(mk_setter).
#[export] Instance set_state : Setter state := ltac:(mk_setter).
#[export] Instance set_timer_task : Setter timer_task := ltac:(mk_setter).
#[export] Instance set_retransmit_deadline_ms : Setter retransmit_deadline_ms := ltac:(mk_setter).
#[export] Instance set_keepalive_deadline_ms : Setter keepalive_deadline_ms := ltac:(mk_setter).
#[export] Instance set_persist_deadline_ms : Setter persist_deadline_ms := ltac:(mk_setter).
#[export] Instance set_timewait_deadline_ms : Setter timewait_deadline_ms := ltac:(mk_setter).
#[export] Instance set_finwait2_deadline_ms : Setter finwait2_deadline_ms := ltac:(mk_setter).
#[export] Instance set_ack_deadline_ms : Setter ack_deadline_ms := ltac:(mk_setter).
#[export] Instance set_connect_deadline_ms : Setter connect_deadline_ms := ltac:(mk_setter).
#[export] Instance set_nagle_deadline_ms : Setter nagle_deadline_ms := ltac:(mk_setter).
#[export] Instance set_retransmit_timeout : Setter retransmit_timeout := ltac:(mk_setter).
#[export] Instance set_keepalive_timeout : Setter keepalive_timeout := ltac:(mk_setter).
#[export] Instance set_keepalive_interval : Setter keepalive_interval := ltac:(mk_setter).
#[export] Instance set_keepalive_retry_timeout : Setter keepalive_retry_timeout := ltac:(mk_setter).
#[export] Instance set_keepalive_repeat_count : Setter keepalive_repeat_count := ltac:(mk_setter).
#[export] Instance set_keepalive_repeat_max : Setter keepalive_repeat_max := ltac:(mk_setter).
#[export] Instance set_persist_backoff : Setter persist_backoff := ltac:(mk_setter).
#[export] Instance set_retries_out : Setter retries_out := ltac:(mk_setter).
#[export] Instance set_retries_max : Setter retries_max := ltac:(mk_setter).
#[export] Instance set_timewait_timeout : Setter timewait_timeout := ltac:(mk_setter).
#[export] Instance set_finwait2_timeout : Setter finwait2_timeout := ltac:(mk_setter).
#[export] Instance set_ack_timeout : Setter ack_timeout := ltac:(mk_setter).
#[export] Instance set_ack_pending_segments : Setter ack_pending_segments := ltac:(mk_setter).
#[export] Instance set_connect_timeout : Setter connect_timeout := ltac:(mk_setter).
#[export] Instance set_connect_retry_times : Setter connect_retry_times := ltac:(mk_setter).
#[export] Instance set_nagle_interval : Setter nagle_interval := ltac:(mk_setter).
#[export] Instance set_rtt_meas_time : Setter rtt_meas_time := ltac:(mk_setter).
#[export] Instance set_rtt_meas_seq : Setter rtt_meas_seq := ltac:(mk_setter).
#[export] Instance set_syn_list : Setter syn_list := ltac:(mk_setter).
#[export] Instance set_syn_list_num : Setter syn_list_num := ltac:(mk_setter).
#[export] Instance set_accept_list : Setter accept_list := ltac:(mk_setter).
#[export] Instance set_accept_list_num : Setter accept_list_num := ltac:(mk_setter).
#[export] Instance set_parent_sock : Setter parent_sock := ltac:(mk_setter).
#[export] Instance set_retransmit_queue : Setter retransmit_queue := ltac:(mk_setter).
#[export] Instance set_unordered_skb_list : Setter unordered_skb_list := ltac:(mk_setter).
#[export] Instance set_rcv_nxt : Setter rcv_nxt := ltac:(mk_setter).
#[export] Instance set_rcv_wnd : Setter rcv_wnd := ltac:(mk_setter).
#[export] Instance set_rcv_mss : Setter rcv_mss := ltac:(mk_setter).
#[export] Instance set_last_ack : Setter last_ack := ltac:(mk_setter).
#[export] Instance set_last_ack_repeat : Setter last_ack_repeat := ltac:(mk_setter).
#[export] Instance set_snd_wnd : Setter snd_wnd := ltac:(mk_setter).
#[export] Instance set_snd_una : Setter snd_una := ltac:(mk_setter).
#[export] Instance set_snd_nxt : Setter snd_nxt := ltac:(mk_setter).
#[export] Instance set_snd_end : Setter snd_end := ltac:(mk_setter).
#[export] Instance set_snd_cwnd : Setter snd_cwnd := ltac:(mk_setter).
#[export] Instance set_snd_ssthresh : Setter snd_ssthresh := ltac:(mk_setter).
#[export] Instance set_snd_wl1 : Setter snd_wl1 := ltac:(mk_setter).
#[export] Instance set_snd_wl2 : Setter snd_wl2 := ltac:(mk_setter).
#[export] Instance set_peer_mss : Setter peer_mss := ltac:(mk_setter).
#[export] Instance set_snd_mss : Setter snd_mss := ltac:(mk_setter).
#[export] Instance set_snd_wnd_scale : Setter snd_wnd_scale := ltac:(mk_setter).
#[export] Instance set_rcv_wnd_scale : Setter rcv_wnd_scale := ltac:(mk_setter).
#[export] Instance set_backlog : Setter backlog := ltac:(mk_setter).
#[export] Instance set_ts_recent : Setter ts_recent := ltac:(mk_setter).
#[export] Instance set_ts_recent_age_ms : Setter ts_recent_age_ms := ltac:(mk_setter).
#[export] Instance set_ts_last_tsecr : Setter ts_last_tsecr := ltac:(mk_setter).
#[export] Instance set_recv_fin : Setter recv_fin := ltac:(mk_setter).
#[export] Instance set_peer_ts_ok : Setter peer_ts_ok := ltac:(mk_setter).
#[export] Instance set_peer_mss_ok : Setter peer_mss_ok := ltac:(mk_setter).
#[export] Instance set_wnd_scale_sent : Setter wnd_scale_sent := ltac:(mk_setter).
#[export] Instance set_peer_wnd_scale_ok : Setter peer_wnd_scale_ok := ltac:(mk_setter).
#[export] Instance set_cork : Setter cork := ltac:(mk_setter).
#[export] Instance set_ca_recovery_seq : Setter ca_recovery_seq := ltac:(mk_setter).
#[export] Instance set_ca_prior_cwnd : Setter ca_prior_cwnd := ltac:(mk_setter).
#[export] Instance set_ca_state : Setter ca_state := ltac:(mk_setter).
#[export] Instance set_cubic : Setter cubic := ltac:(mk_setter).

(** The fields of a [req] a socket handler uses: its identity, [type],
    [status], and the expiry of its [timeout_task]. *)
Record req := mk_req {
  q_id : Z;
  q_type : Z;
  q_status : Z;
  q_timeout : option Z
}.

#[export] Instance eta_req : Eta req := fun r =>
  mk_req (q_id r) (q_type r) (q_status r) (q_timeout r).
#[export] Instance set_q_id : Setter q_id := ltac:(mk_setter).
#[export] Instance set_q_type : Setter q_type := ltac:(mk_setter).
#[export] Instance set_q_status : Setter q_status := ltac:(mk_setter).
#[export] Instance set_q_timeout : Setter q_timeout := ltac:(mk_setter).

(** The fields of [Socket] the TCP handlers use; addresses are byte strings in
    network order ([sip6]/[dip6], or the 4-byte [sip]/[dip]).  [owner] tells
    whether a worker thread owns the socket; [pending] holds the waiting
    requests. *)
Record Socket := mk_Socket {
  fd_entry : option Z;
  family : Z;
  file_flags : Z;
  opt_reuseaddr : bool;
  opt_reuseport : bool;
  opt_keepalive : bool;
  opt_send_timeout : bool;
  opt_recv_timeout : bool;
  opt_linger : bool;
  send_timeout_ms : Z;
  recv_timeout_ms : Z;
  linger_seconds : Z;
  sip : list Z;
  sip_scope : Z;
  sport : Z;
  dip : list Z;
  dip_scope : Z;
  dport : Z;
  close_recv : bool;
  close_send : bool;
  is_bound : bool;
  is_hash : bool;
  is_connected : bool;
  recv_queue : list tskb;
  recv_buffer_len : Z;
  recv_buffer_len_max : Z;
  send_queue : list tskb;
  send_buffer_len : Z;
  send_buffer_len_max : Z;
  route : option route_info;
  error : Z;
  notified_events : Z;
  owner : bool;
  pending : list req;
  pending_task : option task
}.

#[export] Instance eta_Socket : Eta Socket := fun r =>
  mk_Socket (fd_entry r) (family r) (file_flags r) (opt_reuseaddr r)
    (opt_reuseport r) (opt_keepalive r) (opt_send_timeout r)
    (opt_recv_timeout r) (opt_linger r) (send_timeout_ms r)
    (recv_timeout_ms r) (linger_seconds r) (sip r) (sip_scope r)
    (sport r) (dip r) (dip_scope r) (dport r) (close_recv r)
    (close_send r) (is_bound r) (is_hash r) (is_connected r)
    (recv_queue r) (recv_buffer_len r) (recv_buffer_len_max r)
    (send_queue r) (send_buffer_len r) (send_buffer_len_max r)
    (route r) (error r) (notified_events r) (owner r) (pending r)
    (pending_task r).
#[export] Instance set_fd_entry : Setter fd_entry := ltac:(mk_setter).
#[export] Instance set_family : Setter family := ltac:(mk_setter).
#[export] Instance set_file_flags : Setter file_flags := ltac:(mk_setter).
#[export] Instance set_opt_reuseaddr : Setter opt_reuseaddr := ltac:(mk_setter).
#[export] Instance set_opt_reuseport : Setter opt_reuseport := ltac:(mk_setter).
#[export] Instance set_opt_keepalive : Setter opt_keepalive := ltac:(mk_setter).
#[export] Instance set_opt_send_timeout : Setter opt_send_timeout := ltac:(mk_setter).
#[export] Instance set_opt_recv_timeout : Setter opt_recv_timeout := ltac:(mk_setter).
#[export] Instance set_opt_linger : Setter opt_linger := ltac:(mk_setter).
#[export] Instance set_send_timeout_ms : Setter send_timeout_ms := ltac:(mk_setter).
#[export] Instance set_recv_timeout_ms : Setter recv_timeout_ms := ltac:(mk_setter).
#[export] Instance set_linger_seconds : Setter linger_seconds := ltac:(mk_setter).
#[export] Instance set_sip : Setter sip := ltac:(mk_setter).
#[export] Instance set_sip_scope : Setter sip_scope := ltac:(mk_setter).
#[export] Instance set_sport : Setter sport := ltac:(mk_setter).
#[export] Instance set_dip : Setter dip := ltac:(mk_setter).
#[export] Instance set_dip_scope : Setter dip_scope := ltac:(mk_setter).
#[export] Instance set_dport : Setter dport := ltac:(mk_setter).
#[export] Instance set_close_recv : Setter close_recv := ltac:(mk_setter).
#[export] Instance set_close_send : Setter close_send := ltac:(mk_setter).
#[export] Instance set_is_bound : Setter is_bound := ltac:(mk_setter).
#[export] Instance set_is_hash : Setter is_hash := ltac:(mk_setter).
#[export] Instance set_is_connected : Setter is_connected := ltac:(mk_setter).
#[export] Instance set_recv_queue : Setter recv_queue := ltac:(mk_setter).
#[export] Instance set_recv_buffer_len : Setter recv_buffer_len := ltac:(mk_setter).
#[export] Instance set_recv_buffer_len_max : Setter recv_buffer_len_max := ltac:(mk_setter).
#[export] Instance set_send_queue : Setter send_queue := ltac:(mk_setter).
#[export] Instance set_send_buffer_len : Setter send_buffer_len := ltac:(mk_setter).
#[export] Instance set_send_buffer_len_max : Setter send_buffer_len_max := ltac:(mk_setter).
#[export] Instance set_route : Setter route := ltac:(mk_setter).
#[export] Instance set_error : Setter error := ltac:(mk_setter).
#[export] Instance set_notified_events : Setter notified_events := ltac:(mk_setter).
#[export] Instance set_owner : Setter owner := ltac:(mk_setter).
#[export] Instance set_pending : Setter pending := ltac:(mk_setter).
#[export] Instance set_pending_task : Setter pending_task := ltac:(mk_setter).

(** A segment handed to IP: header fields in host order, option bytes, payload. *)
Record packet := mk_packet {
  k_seq : Z;
  k_ack : Z;
  k_flags : Z;
  k_window : Z;
  k_opts : list Z;
  k_data : list Z
}.

#[export] Instance eta_packet : Eta packet := fun r =>
  mk_packet (k_seq r) (k_ack r) (k_flags r) (k_window r) (k_opts r) (k_data r).
#[export] Instance set_k_seq : Setter k_seq := ltac:(mk_setter).
#[export] Instance set_k_ack : Setter k_ack := ltac:(mk_setter).
#[export] Instance set_k_flags : Setter k_flags := ltac:(mk_setter).
#[export] Instance set_k_window : Setter k_window := ltac:(mk_setter).
#[export] Instance set_k_opts : Setter k_opts := ltac:(mk_setter).
#[export] Instance set_k_data : Setter k_data := ltac:(mk_setter).

(** Environment of a handler: the cached clock; the outcomes of the coming
    buffer allocations ([true]: success) and of the coming calls of IP output
    (the returned code); for the coming route checks, whether the current
    route is still valid and what a new lookup finds; the packets handed to IP
    so far, newest first; whether a null pointer has been dereferenced;
    [FRAME_SLOT_MAX_SIZE], which depends on a kernel structure size; the requests
    completed so far with their result, newest first.  Past the
    end of a list an allocation succeeds, output returns 0, a route stays
    valid and a lookup fails. *)
Record env := mk_env {
  now : Z;
  allocs : list bool;
  outs : list Z;
  routes : list (bool * option route_info);
  wire : list packet;
  fault : bool;
  slot_max : Z;
  completed : list (Z * Z)
}.

#[export] Instance eta_env : Eta env := fun r =>
  mk_env (now r) (allocs r) (outs r) (routes r) (wire r) (fault r)
    (slot_max r) (completed r).
#[export] Instance set_now : Setter now := ltac:(mk_setter).
#[export] Instance set_allocs : Setter allocs := ltac:(mk_setter).
#[export] Instance set_outs : Setter outs := ltac:(mk_setter).
#[export] Instance set_routes : Setter routes := ltac:(mk_setter).
#[export] Instance set_wire : Setter wire := ltac:(mk_setter).
#[export] Instance set_fault : Setter fault := ltac:(mk_setter).
#[export] Instance set_slot_max : Setter slot_max := ltac:(mk_setter).
#[export] Instance set_completed : Setter completed := ltac:(mk_setter).

(** Everything one handler invocation on a connection reads and writes. *)
Record conn := mk_conn {
  pcb : tcp_pcb;
  sock : Socket;
  ev : env
}.

#[export] Instance eta_conn : Eta conn := fun r =>
  mk_conn (pcb r) (sock r) (ev r).
#[export] Instance set_pcb : Setter pcb := ltac:(mk_setter).
#[export] Instance set_sock : Setter sock := ltac:(mk_setter).
#[export] Instance set_ev : Setter ev := ltac:(mk_setter).

(** All-zero objects, as [calloc] returns them. *)
Definition pcb_zero : tcp_pcb :=
  mk_pcb None TCP_STATE_CLOSED (mk_task false 0) 0 0 0 0 0 0 0 0 0 0 0 0
    0 0 0 0 0 0 0 0 0 0 0 0 0 0 [] 0 [] 0 None [] [] 0 0 0 0 0 0 0 0 0 0 0
    0 0 0 0 0 0 0 0 0 0 false false false false false false 0 0
    NET_TCP_CA_OPEN (mk_cubic 0 0 0 0 0 0 0 0 0).
Definition socket_zero : Socket :=
  mk_Socket None 0 0 false false false false false false 0 0 0 [] 0 0 []
    0 0 false false false false false [] 0 0 [] 0 0 None 0 0 false [] None.
Definition env_zero : env := mk_env 0 [] [] [] [] false 3840 [].

(** Update of a field of the control block, the socket, the environment. *)
Notation "c <|p f := v |>" := (set_field pcb (set_field f (fun _ => v)) c)
  (at level 1, f at level 200, v at level 200, left associativity) : netfast_scope.
Notation "c <|s f := v |>" := (set_field sock (set_field f (fun _ => v)) c)
  (at level 1, f at level 200, v at level 200, left associativity) : netfast_scope.
Notation "c <|e f := v |>" := (set_field ev (set_field f (fun _ => v)) c)
  (at level 1, f at level 200, v at level 200, left associativity) : netfast_scope.

(** Expand updates of the three parts of a connection. *)
Ltac rsplit := cbv [set_field set_pcb set_sock set_ev]; cbn [pcb sock ev].

(** Reduce reads of updated records. *)
Ltac rsimpl :=
  cbn [set_field t_seq set_t_seq t_flag set_t_flag t_data set_t_data
    registered set_registered timeout set_timeout epoch_start_ms
    set_epoch_start_ms last_max_cwnd set_last_max_cwnd origin_point
    set_origin_point k_ms set_k_ms ack_cnt set_ack_cnt tcp_cwnd
    set_tcp_cwnd cnt set_cnt cwnd_cnt set_cwnd_cnt acked_bytes
    set_acked_bytes m_ifindex set_m_ifindex rtt set_rtt rttvar set_rttvar
    r_ifindex set_r_ifindex r_mtu set_r_mtu r_l2_len set_r_l2_len
    r_unicast set_r_unicast metrics set_metrics state set_state timer_task
    set_timer_task retransmit_deadline_ms set_retransmit_deadline_ms
    keepalive_deadline_ms set_keepalive_deadline_ms persist_deadline_ms
    set_persist_deadline_ms timewait_deadline_ms set_timewait_deadline_ms
    finwait2_deadline_ms set_finwait2_deadline_ms ack_deadline_ms
    set_ack_deadline_ms connect_deadline_ms set_connect_deadline_ms
    nagle_deadline_ms set_nagle_deadline_ms retransmit_timeout
    set_retransmit_timeout keepalive_timeout set_keepalive_timeout
    keepalive_interval set_keepalive_interval keepalive_retry_timeout
    set_keepalive_retry_timeout keepalive_repeat_count
    set_keepalive_repeat_count keepalive_repeat_max
    set_keepalive_repeat_max persist_backoff set_persist_backoff
    retries_out set_retries_out retries_max set_retries_max
    timewait_timeout set_timewait_timeout finwait2_timeout
    set_finwait2_timeout ack_timeout set_ack_timeout ack_pending_segments
    set_ack_pending_segments connect_timeout set_connect_timeout
    connect_retry_times set_connect_retry_times nagle_interval
    set_nagle_interval rtt_meas_time set_rtt_meas_time rtt_meas_seq
    set_rtt_meas_seq syn_list set_syn_list syn_list_num set_syn_list_num
    accept_list set_accept_list accept_list_num set_accept_list_num
    parent_sock set_parent_sock retransmit_queue set_retransmit_queue
    unordered_skb_list set_unordered_skb_list rcv_nxt set_rcv_nxt rcv_wnd
    set_rcv_wnd rcv_mss set_rcv_mss last_ack set_last_ack last_ack_repeat
    set_last_ack_repeat snd_wnd set_snd_wnd snd_una set_snd_una snd_nxt
    set_snd_nxt snd_end set_snd_end snd_cwnd set_snd_cwnd snd_ssthresh
    set_snd_ssthresh snd_wl1 set_snd_wl1 snd_wl2 set_snd_wl2 peer_mss
    set_peer_mss snd_mss set_snd_mss snd_wnd_scale set_snd_wnd_scale
    rcv_wnd_scale set_rcv_wnd_scale backlog set_backlog ts_recent
    set_ts_recent ts_recent_age_ms set_ts_recent_age_ms ts_last_tsecr
    set_ts_last_tsecr recv_fin set_recv_fin peer_ts_ok set_peer_ts_ok
    peer_mss_ok set_peer_mss_ok wnd_scale_sent set_wnd_scale_sent
    peer_wnd_scale_ok set_peer_wnd_scale_ok cork set_cork ca_recovery_seq
    set_ca_recovery_seq ca_prior_cwnd set_ca_prior_cwnd ca_state
    set_ca_state cubic set_cubic q_id set_q_id q_type set_q_type q_status
    set_q_status q_timeout set_q_timeout fd_entry set_fd_entry family
    set_family file_flags set_file_flags opt_reuseaddr set_opt_reuseaddr
    opt_reuseport set_opt_reuseport opt_keepalive set_opt_keepalive
    opt_send_timeout set_opt_send_timeout opt_recv_timeout
    set_opt_recv_timeout opt_linger set_opt_linger send_timeout_ms
    set_send_timeout_ms recv_timeout_ms set_recv_timeout_ms linger_seconds
    set_linger_seconds sip set_sip sip_scope set_sip_scope sport set_sport
    dip set_dip dip_scope set_dip_scope dport set_dport close_recv
    set_close_recv close_send set_close_send is_bound set_is_bound is_hash
    set_is_hash is_connected set_is_connected recv_queue set_recv_queue
    recv_buffer_len set_recv_buffer_len recv_buffer_len_max
    set_recv_buffer_len_max send_queue set_send_queue send_buffer_len
    set_send_buffer_len send_buffer_len_max set_send_buffer_len_max route
    set_route error set_error notified_events set_notified_events owner
    set_owner pending set_pending pending_task set_pending_task k_seq
    set_k_seq k_ack set_k_ack k_flags set_k_flags k_window set_k_window
    k_opts set_k_opts k_data set_k_data now set_now allocs set_allocs outs
    set_outs routes set_routes wire set_wire fault set_fault slot_max
    set_slot_max completed set_completed pcb set_pcb sock set_sock ev
    set_ev].

Tactic Notation "rsimpl" "in" "*" :=
  cbn [set_field t_seq set_t_seq t_flag set_t_flag t_data set_t_data
    registered set_registered timeout set_timeout epoch_start_ms
    set_epoch_start_ms last_max_cwnd set_last_max_cwnd origin_point
    set_origin_point k_ms set_k_ms ack_cnt set_ack_cnt tcp_cwnd
    set_tcp_cwnd cnt set_cnt cwnd_cnt set_cwnd_cnt acked_bytes
    set_acked_bytes m_ifindex set_m_ifindex rtt set_rtt rttvar set_rttvar
    r_ifindex set_r_ifindex r_mtu set_r_mtu r_l2_len set_r_l2_len
    r_unicast set_r_unicast metrics set_metrics state set_state timer_task
    set_timer_task retransmit_deadline_ms set_retransmit_deadline_ms
    keepalive_deadline_ms set_keepalive_deadline_ms persist_deadline_ms
    set_persist_deadline_ms timewait_deadline_ms set_timewait_deadline_ms
    finwait2_deadline_ms set_finwait2_deadline_ms ack_deadline_ms
    set_ack_deadline_ms connect_deadline_ms set_connect_deadline_ms
    nagle_deadline_ms set_nagle_deadline_ms retransmit_timeout
    set_retransmit_timeout keepalive_timeout set_keepalive_timeout
    keepalive_interval set_keepalive_interval keepalive_retry_timeout
    set_keepalive_retry_timeout keepalive_repeat_count
    set_keepalive_repeat_count keepalive_repeat_max
    set_keepalive_repeat_max persist_backoff set_persist_backoff
    retries_out set_retries_out retries_max set_retries_max
    timewait_timeout set_timewait_timeout finwait2_timeout
    set_finwait2_timeout ack_timeout set_ack_timeout ack_pending_segments
    set_ack_pending_segments connect_timeout set_connect_timeout
    connect_retry_times set_connect_retry_times nagle_interval
    set_nagle_interval rtt_meas_time set_rtt_meas_time rtt_meas_seq
    set_rtt_meas_seq syn_list set_syn_list syn_list_num set_syn_list_num
    accept_list set_accept_list accept_list_num set_accept_list_num
    parent_sock set_parent_sock retransmit_queue set_retransmit_queue
    unordered_skb_list set_unordered_skb_list rcv_nxt set_rcv_nxt rcv_wnd
    set_rcv_wnd rcv_mss set_rcv_mss last_ack set_last_ack last_ack_repeat
    set_last_ack_repeat snd_wnd set_snd_wnd snd_una set_snd_una snd_nxt
    set_snd_nxt snd_end set_snd_end snd_cwnd set_snd_cwnd snd_ssthresh
    set_snd_ssthresh snd_wl1 set_snd_wl1 snd_wl2 set_snd_wl2 peer_mss
    set_peer_mss snd_mss set_snd_mss snd_wnd_scale set_snd_wnd_scale
    rcv_wnd_scale set_rcv_wnd_scale backlog set_backlog ts_recent
    set_ts_recent ts_recent_age_ms set_ts_recent_age_ms ts_last_tsecr
    set_ts_last_tsecr recv_fin set_recv_fin peer_ts_ok set_peer_ts_ok
    peer_mss_ok set_peer_mss_ok wnd_scale_sent set_wnd_scale_sent
    peer_wnd_scale_ok set_peer_wnd_scale_ok cork set_cork ca_recovery_seq
    set_ca_recovery_seq ca_prior_cwnd set_ca_prior_cwnd ca_state
    set_ca_state cubic set_cubic q_id set_q_id q_type set_q_type q_status
    set_q_status q_timeout set_q_timeout fd_entry set_fd_entry family
    set_family file_flags set_file_flags opt_reuseaddr set_opt_reuseaddr
    opt_reuseport set_opt_reuseport opt_keepalive set_opt_keepalive
    opt_send_timeout set_opt_send_timeout opt_recv_timeout
    set_opt_recv_timeout opt_linger set_opt_linger send_timeout_ms
    set_send_timeout_ms recv_timeout_ms set_recv_timeout_ms linger_seconds
    set_linger_seconds sip set_sip sip_scope set_sip_scope sport set_sport
    dip set_dip dip_scope set_dip_scope dport set_dport close_recv
    set_close_recv close_send set_close_send is_bound set_is_bound is_hash
    set_is_hash is_connected set_is_connected recv_queue set_recv_queue
    recv_buffer_len set_recv_buffer_len recv_buffer_len_max
    set_recv_buffer_len_max send_queue set_send_queue send_buffer_len
    set_send_buffer_len send_buffer_len_max set_send_buffer_len_max route
    set_route error set_error notified_events set_notified_events owner
    set_owner pending set_pending pending_task set_pending_task k_seq
    set_k_seq k_ack set_k_ack k_flags set_k_flags k_window set_k_window
    k_opts set_k_opts k_data set_k_data now set_now allocs set_allocs outs
    set_outs routes set_routes wire set_wire fault set_fault slot_max
    set_slot_max completed set_completed pcb set_pcb sock set_sock ev
    set_ev] in *.

Tactic Notation "rsimpl" "in" hyp(H) :=
  cbn [set_field t_seq set_t_seq t_flag set_t_flag t_data set_t_data
    registered set_registered timeout set_timeout epoch_start_ms
    set_epoch_start_ms last_max_cwnd set_last_max_cwnd origin_point
    set_origin_point k_ms set_k_ms ack_cnt set_ack_cnt tcp_cwnd
    set_tcp_cwnd cnt set_cnt cwnd_cnt set_cwnd_cnt acked_bytes
    set_acked_bytes m_ifindex set_m_ifindex rtt set_rtt rttvar set_rttvar
    r_ifindex set_r_ifindex r_mtu set_r_mtu r_l2_len set_r_l2_len
    r_unicast set_r_unicast metrics set_metrics state set_state timer_task
    set_timer_task retransmit_deadline_ms set_retransmit_deadline_ms
    keepalive_deadline_ms set_keepalive_deadline_ms persist_deadline_ms
    set_persist_deadline_ms timewait_deadline_ms set_timewait_deadline_ms
    finwait2_deadline_ms set_finwait2_deadline_ms ack_deadline_ms
    set_ack_deadline_ms connect_deadline_ms set_connect_deadline_ms
    nagle_deadline_ms set_nagle_deadline_ms retransmit_timeout
    set_retransmit_timeout keepalive_timeout set_keepalive_timeout
    keepalive_interval set_keepalive_interval keepalive_retry_timeout
    set_keepalive_retry_timeout keepalive_repeat_count
    set_keepalive_repeat_count keepalive_repeat_max
    set_keepalive_repeat_max persist_backoff set_persist_backoff
    retries_out set_retries_out retries_max set_retries_max
    timewait_timeout set_timewait_timeout finwait2_timeout
    set_finwait2_timeout ack_timeout set_ack_timeout ack_pending_segments
    set_ack_pending_segments connect_timeout set_connect_timeout
    connect_retry_times set_connect_retry_times nagle_interval
    set_nagle_interval rtt_meas_time set_rtt_meas_time rtt_meas_seq
    set_rtt_meas_seq syn_list set_syn_list syn_list_num set_syn_list_num
    accept_list set_accept_list accept_list_num set_accept_list_num
    parent_sock set_parent_sock retransmit_queue set_retransmit_queue
    unordered_skb_list set_unordered_skb_list rcv_nxt set_rcv_nxt rcv_wnd
    set_rcv_wnd rcv_mss set_rcv_mss last_ack set_last_ack last_ack_repeat
    set_last_ack_repeat snd_wnd set_snd_wnd snd_una set_snd_una snd_nxt
    set_snd_nxt snd_end set_snd_end snd_cwnd set_snd_cwnd snd_ssthresh
    set_snd_ssthresh snd_wl1 set_snd_wl1 snd_wl2 set_snd_wl2 peer_mss
    set_peer_mss snd_mss set_snd_mss snd_wnd_scale set_snd_wnd_scale
    rcv_wnd_scale set_rcv_wnd_scale backlog set_backlog ts_recent
    set_ts_recent ts_recent_age_ms set_ts_recent_age_ms ts_last_tsecr
    set_ts_last_tsecr recv_fin set_recv_fin peer_ts_ok set_peer_ts_ok
    peer_mss_ok set_peer_mss_ok wnd_scale_sent set_wnd_scale_sent
    peer_wnd_scale_ok set_peer_wnd_scale_ok cork set_cork ca_recovery_seq
    set_ca_recovery_seq ca_prior_cwnd set_ca_prior_cwnd ca_state
    set_ca_state cubic set_cubic q_id set_q_id q_type set_q_type q_status
    set_q_status q_timeout set_q_timeout fd_entry set_fd_entry family
    set_family file_flags set_file_flags opt_reuseaddr set_opt_reuseaddr
    opt_reuseport set_opt_reuseport opt_keepalive set_opt_keepalive
    opt_send_timeout set_opt_send_timeout opt_recv_timeout
    set_opt_recv_timeout opt_linger set_opt_linger send_timeout_ms
    set_send_timeout_ms recv_timeout_ms set_recv_timeout_ms linger_seconds
    set_linger_seconds sip set_sip sip_scope set_sip_scope sport set_sport
    dip set_dip dip_scope set_dip_scope dport set_dport close_recv
    set_close_recv close_send set_close_send is_bound set_is_bound is_hash
    set_is_hash is_connected set_is_connected recv_queue set_recv_queue
    recv_buffer_len set_recv_buffer_len recv_buffer_len_max
    set_recv_buffer_len_max send_queue set_send_queue send_buffer_len
    set_send_buffer_len send_buffer_len_max set_send_buffer_len_max route
    set_route error set_error notified_events set_notified_events owner
    set_owner pending set_pending pending_task set_pending_task k_seq
    set_k_seq k_ack set_k_ack k_flags set_k_flags k_window set_k_window
    k_opts set_k_opts k_data set_k_data now set_now allocs set_allocs outs
    set_outs routes set_routes wire set_wire fault set_fault slot_max
    set_slot_max completed set_completed pcb set_pcb sock set_sock ev
    set_ev] in H.
