(* ===== verification/TcpSeq.v ===== *)
(** Sequence-number order and the advertised window (src/main/tcp.h).

    The comparison macros work on differences modulo 2^32; inside any half of
    the sequence space they agree with the order of the unwrapped stream
    positions, across the 2^32 boundary.  The window a receiver encodes is
    never decoded to more than it has. *)

From stdpp Require Import prelude list.
From Stdlib Require Import ZArith Lia.
From S2P Require Import Prelude TcpDefs.

(** *** Definitions *)

Definition tcp_window_scale_negotiated (p : tcp_pcb) : bool :=
  wnd_scale_sent p && peer_wnd_scale_ok p.

Definition tcp_should_send_window_scale (p : tcp_pcb) (flags : Z) : bool :=
  if negb (has flags TCP_FLAG_SYN) then false
  else if negb (has flags TCP_FLAG_ACK) then true
  else peer_wnd_scale_ok p.

Definition tcp_encode_window (p : tcp_pcb) (flags : Z) : Z :=
  let window := rcv_wnd p in
  let window :=
    if negb (has flags TCP_FLAG_SYN) && tcp_window_scale_negotiated p
    then Z.shiftr window (rcv_wnd_scale p) else window in
  u16 (if 65535 <? window then 65535 else window).

Definition tcp_decode_window (p : tcp_pcb) (window flags : Z) : Z :=
  if has flags TCP_FLAG_SYN || negb (tcp_window_scale_negotiated p) then window
  else u32 (Z.shiftl window (snd_wnd_scale p)).

(** *** Lemmas *)

(** The representative of a 32-bit difference nearest to zero. *)
Lemma s32_unique x y :
  - 2 ^ 31 <= y < 2 ^ 31 -> (x - y) mod 2 ^ 32 = 0 -> s32 x = y.
Proof. unfold s32, wrap. intros. case_if; bool_prop; zlia. Qed.

Lemma s32_congr x : (x - s32 x) mod 2 ^ 32 = 0.
Proof. unfold s32, wrap. case_if; bool_prop; zlia. Qed.

Lemma s32_diff x a b :
  - 2 ^ 31 <= a - b < 2 ^ 31 -> s32 (u32 (x + a) - u32 (x + b)) = a - b.
Proof. intros. apply s32_unique; [done|]. unfold wrap. zlia. Qed.

Lemma s32_small x : - 2 ^ 31 <= x < 2 ^ 31 -> s32 x = x.
Proof. intros. apply s32_unique; [done|]. rewrite Z.sub_diag. done. Qed.

Lemma s32_wrap x : s32 (u32 x) = s32 x.
Proof. unfold s32. by rewrite wrap_wrap by lia. Qed.

(** Reading the macros as comparisons of unwrapped positions. *)
Lemma SEQ_LT_pos x a b :
  - 2 ^ 31 <= a - b < 2 ^ 31 -> SEQ_LT (u32 (x + a)) (u32 (x + b)) = (a <? b).
Proof. intros. unfold SEQ_LT. rewrite s32_diff by done. lia. Qed.

Lemma SEQ_LEQ_pos x a b :
  - 2 ^ 31 <= a - b < 2 ^ 31 -> SEQ_LEQ (u32 (x + a)) (u32 (x + b)) = (a <=? b).
Proof. intros. unfold SEQ_LEQ. rewrite s32_diff by done. lia. Qed.

Lemma SEQ_GT_pos x a b :
  - 2 ^ 31 <= a - b < 2 ^ 31 -> SEQ_GT (u32 (x + a)) (u32 (x + b)) = (b <? a).
Proof. intros. unfold SEQ_GT. rewrite s32_diff by done. lia. Qed.

Lemma SEQ_GEQ_pos x a b :
  - 2 ^ 31 <= a - b < 2 ^ 31 -> SEQ_GEQ (u32 (x + a)) (u32 (x + b)) = (b <=? a).
Proof. intros. unfold SEQ_GEQ. rewrite s32_diff by done. lia. Qed.

(** The same with the base folded into the positions. *)
Lemma SEQ_u32 a b :
  - 2 ^ 31 <= a - b < 2 ^ 31 ->
  SEQ_LT (u32 a) (u32 b) = (a <? b) /\ SEQ_LEQ (u32 a) (u32 b) = (a <=? b) /\
  SEQ_GT (u32 a) (u32 b) = (b <? a) /\ SEQ_GEQ (u32 a) (u32 b) = (b <=? a).
Proof.
  intros. rewrite <- (Z.add_0_l a), <- (Z.add_0_l b).
  rewrite SEQ_LT_pos, SEQ_LEQ_pos, SEQ_GT_pos, SEQ_GEQ_pos by done. done.
Qed.

Lemma SEQ_LT_u32 a b : - 2 ^ 31 <= a - b < 2 ^ 31 -> SEQ_LT (u32 a) (u32 b) = (a <? b).
Proof. apply SEQ_u32. Qed.
Lemma SEQ_LEQ_u32 a b : - 2 ^ 31 <= a - b < 2 ^ 31 -> SEQ_LEQ (u32 a) (u32 b) = (a <=? b).
Proof. apply SEQ_u32. Qed.
Lemma SEQ_GT_u32 a b : - 2 ^ 31 <= a - b < 2 ^ 31 -> SEQ_GT (u32 a) (u32 b) = (b <? a).
Proof. apply SEQ_u32. Qed.
Lemma SEQ_GEQ_u32 a b : - 2 ^ 31 <= a - b < 2 ^ 31 -> SEQ_GEQ (u32 a) (u32 b) = (b <=? a).
Proof. apply SEQ_u32. Qed.

(** Nearby positions have different residues. *)
Lemma u32_inj_near a b : u32 a = u32 b -> - 2 ^ 32 < a - b < 2 ^ 32 -> a = b.
Proof. unfold wrap. intros. Z.to_euclidean_division_equations. lia. Qed.

Lemma SEQ_LT_GEQ a b : SEQ_GEQ a b = negb (SEQ_LT a b).
Proof. unfold SEQ_GEQ, SEQ_LT. lia. Qed.

Lemma SEQ_GT_LEQ a b : SEQ_LEQ a b = negb (SEQ_GT a b).
Proof. unfold SEQ_GT, SEQ_LEQ. lia. Qed.

Create Rewrite HintDb seqpos.
#[export] Hint Rewrite SEQ_LT_pos SEQ_LEQ_pos SEQ_GT_pos SEQ_GEQ_pos
  using lia : seqpos.

(** Every 32-bit number is a position relative to any base. *)
Lemma seq_position base x :
  is_u32 x -> exists a, - 2 ^ 31 <= a < 2 ^ 31 /\ x = u32 (base + a).
Proof.
  intros Hx. exists (s32 (x - base)). split; [apply s32_range|].
  pose proof (s32_congr (x - base)). unfold is_u, wrap in *.
  set (d := s32 (x - base)) in *. clearbody d. zlia.
Qed.

(** *** Properties *)

(** the SEQ macros compare stream positions.  For two positions less than
    2^31 apart, whatever the initial sequence number and however often the
    32-bit counter has wrapped, the four macros on the wrapped numbers decide
    the order of the positions. *)
Theorem seq_macros_order iss a b :
  - 2 ^ 31 < a - b < 2 ^ 31 ->
  SEQ_LT (u32 (iss + a)) (u32 (iss + b)) = (a <? b) /\
  SEQ_LEQ (u32 (iss + a)) (u32 (iss + b)) = (a <=? b) /\
  SEQ_GT (u32 (iss + a)) (u32 (iss + b)) = (b <? a) /\
  SEQ_GEQ (u32 (iss + a)) (u32 (iss + b)) = (b <=? a).
Proof. intros. autorewrite with seqpos. done. Qed.

Lemma seq_macros_order_witness :
  SEQ_LT (u32 (4294967290 + 3)) (u32 (4294967290 + 10)) = (3 <? 10) /\
  SEQ_LEQ (u32 (4294967290 + 3)) (u32 (4294967290 + 10)) = (3 <=? 10) /\
  SEQ_GT (u32 (4294967290 + 3)) (u32 (4294967290 + 10)) = (10 <? 3) /\
  SEQ_GEQ (u32 (4294967290 + 3)) (u32 (4294967290 + 10)) = (10 <=? 3).
Proof. apply (seq_macros_order 4294967290 3 10). lia. Defined.

(** the window field never promises more than the receiver has.  Whatever
    the sender's segment flags, decoding with the shift the receiver announced
    gives at most the receive window, loses less than one scaling unit, and is
    exact when the window is a representable multiple of the unit. *)
Theorem window_never_overstated (rx tx : tcp_pcb) flags :
  is_u32 (rcv_wnd rx) -> 0 <= rcv_wnd_scale rx <= 14 ->
  snd_wnd_scale tx = rcv_wnd_scale rx ->
  tcp_window_scale_negotiated tx = tcp_window_scale_negotiated rx ->
  let w := tcp_decode_window tx (tcp_encode_window rx flags) flags in
  let unit := if has flags TCP_FLAG_SYN || negb (tcp_window_scale_negotiated rx)
              then 1 else 2 ^ rcv_wnd_scale rx in
  w <= rcv_wnd rx /\
  (rcv_wnd rx <= 65535 * unit -> rcv_wnd rx - unit < w).
Proof.
  intros Hw Hs Hsc Hn. cbn zeta. unfold tcp_decode_window, tcp_encode_window.
  rewrite Hn, Hsc. set (s := rcv_wnd_scale rx) in *. set (W := rcv_wnd rx) in *.
  assert (Hp : 0 < 2 ^ s <= 2 ^ 14) by
    (split; [lia|apply Z.pow_le_mono_r; lia]).
  unfold is_u in Hw.
  destruct (has flags TCP_FLAG_SYN), (tcp_window_scale_negotiated rx);
    cbn [negb andb orb]; try (unfold wrap; case_if; bool_prop; zlia).
  rewrite Z.shiftr_div_pow2, Z.shiftl_mul_pow2 by lia.
  set (q := 2 ^ s) in *. clearbody q W.
  assert (0 <= W / q) by (apply Z.div_pos; lia).
  pose proof (Z.div_mod W q ltac:(lia)). pose proof (Z.mod_pos_bound W q ltac:(lia)).
  set (d := W / q) in *. clearbody d.
  unfold wrap. case_if; bool_prop.
  - change (65535 mod 2 ^ 16) with 65535. rewrite Z.mod_small by lia. nia.
  - rewrite (Z.mod_small d) by lia. rewrite Z.mod_small by nia. nia.
Qed.

Lemma window_never_overstated_witness :
  let rx := pcb_zero <| rcv_wnd := 262143 |> <| rcv_wnd_scale := 6 |>
              <| wnd_scale_sent := true |> <| peer_wnd_scale_ok := true |> in
  let tx := pcb_zero <| snd_wnd_scale := 6 |>
              <| wnd_scale_sent := true |> <| peer_wnd_scale_ok := true |> in
  tcp_decode_window tx (tcp_encode_window rx TCP_FLAG_ACK) TCP_FLAG_ACK = 262080 /\
  262080 <= 262143.
Proof.
  intros rx tx. split; [reflexivity|].
  apply (window_never_overstated rx tx TCP_FLAG_ACK); cbn; unfold is_u; lia.
Defined.
