(* ===== verification/TcpMetrics.v ===== *)
(** Round-trip-time estimator and retransmission timeout policy
    (src/main/tcp_metrics.c). *)

From stdpp Require Import prelude list.
From Stdlib Require Import ZArith Lia.
From S2P Require Import Prelude TcpDefs.

(** *** Definitions *)

Definition TCP_RETRANSMIT_TIMEOUT_MS_MAX : Z := 6000.
Definition TCP_RTO_MIN_MS : Z := 200.

(** [tcp_metrics_get]: a fresh object, or NULL when the allocation fails. *)
Definition tcp_metrics_get (alloc_ok : bool) (ifindex : Z) : option tcp_metrics :=
  if alloc_ok then Some (mk_metrics ifindex 0 0) else None.

Definition tcp_metrics_default_rto : Z := TCP_RTO_MIN_MS * 5.

Definition tcp_metrics_rto (metrics : option tcp_metrics) : Z :=
  match metrics with
  | None => tcp_metrics_default_rto
  | Some m =>
      if rtt m =? 0 then tcp_metrics_default_rto
      else
        let rto := u64 (rtt m + 4 * rttvar m) in
        let rto := Z.max rto TCP_RTO_MIN_MS in
        if TCP_RETRANSMIT_TIMEOUT_MS_MAX <? rto
        then TCP_RETRANSMIT_TIMEOUT_MS_MAX else u32 rto
  end.

(** The update of the estimator by one sample ([metrics] not NULL, sample not
    zero). *)
Definition tcp_metrics_update (m : tcp_metrics) (measured_rtt : Z) : tcp_metrics :=
  if rtt m =? 0 then
    m <| rtt := measured_rtt |> <| rttvar := measured_rtt / 2 |>
  else
    let err := if measured_rtt <? rtt m
               then rtt m - measured_rtt else measured_rtt - rtt m in
    m <| rttvar := u32 (u64 (3 * rttvar m + err) / 4) |>
      <| rtt := u32 (u64 (7 * rtt m + measured_rtt) / 8) |>.

(** [tcp_metrics_sample]: the returned timeout and the updated object. *)
Definition tcp_metrics_sample (metrics : option tcp_metrics) (measured_rtt : Z)
    : Z * option tcp_metrics :=
  match metrics with
  | None => (tcp_metrics_rto None, None)
  | Some m =>
      if measured_rtt =? 0 then (tcp_metrics_rto (Some m), Some m)
      else
        let m' := tcp_metrics_update m measured_rtt in
        (tcp_metrics_rto (Some m'), Some m')
  end.

Definition tcp_metrics_backoff (rto : Z) : Z :=
  if TCP_RETRANSMIT_TIMEOUT_MS_MAX / 2 <=? rto
  then TCP_RETRANSMIT_TIMEOUT_MS_MAX else u32 (rto * 2).

(** *** Lemmas *)

(** Estimator fields are [uint32_t]. *)
Definition metrics_wf (m : tcp_metrics) : Prop :=
  is_u32 (rtt m) /\ is_u32 (rttvar m).

Lemma tcp_metrics_rto_range metrics :
  (forall m, metrics = Some m -> metrics_wf m) ->
  200 <= tcp_metrics_rto metrics <= 6000.
Proof.
  intros Hwf. unfold tcp_metrics_rto, TCP_RETRANSMIT_TIMEOUT_MS_MAX,
    TCP_RTO_MIN_MS, tcp_metrics_default_rto, TCP_RTO_MIN_MS.
  destruct metrics as [m|]; [|lia]. destruct (Hwf m eq_refl) as [H1 H2].
  unfold is_u in *. case_if; [lia|]. case_if; bool_prop; [lia|].
  rewrite (wrap_id 64) in * by (unfold is_u; lia).
  rewrite wrap_id; unfold is_u; lia.
Qed.

Lemma tcp_metrics_update_avg m s :
  metrics_wf m -> 0 < s < 2 ^ 32 ->
  let m' := tcp_metrics_update m s in
  metrics_wf m' /\ 0 < rtt m' /\
  (rtt m = 0 -> rtt m' = s) /\
  (0 < rtt m -> rtt m' = (7 * rtt m + s) / 8).
Proof.
  intros [H1 H2] Hs. unfold metrics_wf, tcp_metrics_update, is_u in *.
  case_if; bool_prop; rsimpl; [split_and!; try zlia; try lia|].
  rewrite !(wrap_id 64) by (unfold is_u; try case_if; bool_prop; lia).
  rewrite !(wrap_id 32) by (unfold is_u; try case_if; bool_prop; zlia).
  split_and!; try case_if; bool_prop; try zlia.
Qed.

Lemma tcp_metrics_backoff_min rto :
  0 <= rto -> tcp_metrics_backoff rto = Z.min (2 * rto) 6000.
Proof.
  intros. unfold tcp_metrics_backoff, TCP_RETRANSMIT_TIMEOUT_MS_MAX.
  case_if; bool_prop; [zlia|]. rewrite wrap_id; [zlia|]. unfold is_u. zlia.
Qed.

(** [seen] records that a non-zero sample has been taken. *)
Lemma samples_invariant samples :
  Forall (fun s => 0 <= s < 2 ^ 32) samples ->
  forall m0 (seen : Prop),
    (forall m, m0 = Some m -> metrics_wf m /\ (seen -> 0 < rtt m)) ->
    forall m, foldl (fun m s => snd (tcp_metrics_sample m s)) m0 samples = Some m ->
    metrics_wf m /\ (seen \/ Exists (fun s => s <> 0) samples -> 0 < rtt m).
Proof.
  induction samples as [|s samples IH]; intros Hs m0 seen H0 m Hm.
  - destruct (H0 m Hm) as [? Hr]. split; [done|]. intros [?|He]; [auto|].
    by apply Exists_nil in He.
  - apply Forall_cons in Hs as [Hs Hss]. cbn [foldl] in Hm.
    destruct (IH Hss (snd (tcp_metrics_sample m0 s)) (seen \/ s <> 0)) with (m := m)
      as [Hw Hr]; [|done|split; [done|rewrite Exists_cons; tauto]].
    intros m1 Hm1. destruct m0 as [m0'|]; [|done]. cbn in Hm1.
    destruct (H0 _ eq_refl) as [Hw0 Hr0].
    destruct (Z.eqb_spec s 0) as [->|Hne]; cbn in Hm1; simplify_eq.
    + split; [done|]. intros [?|?]; [auto|done].
    + destruct (tcp_metrics_update_avg m0' s Hw0 ltac:(lia)) as (?&?&_). auto.
Qed.

(** *** Properties *)

(** every retransmission timeout lies in [200, 6000] ms.  After any
    sequence of RTT samples, including none, on a live estimator or without
    one (allocation failure), both the timeout [tcp_metrics_sample] returns
    and the one [tcp_metrics_rto] returns later are within the policy bounds,
    and once a sample has been taken the smoothed RTT stays positive, so the
    "no measurement yet" encoding is never re-entered. *)
Theorem rto_bounded samples ok ifindex :
  Forall (fun s => 0 <= s < 2 ^ 32) samples ->
  let final := foldl (fun m s => snd (tcp_metrics_sample m s))
                 (tcp_metrics_get ok ifindex) samples in
  200 <= tcp_metrics_rto final <= 6000 /\
  (forall m, final = Some m -> Exists (fun s => s <> 0) samples -> 0 < rtt m).
Proof.
  intros Hs. cbn zeta. pose proof (samples_invariant samples Hs) as H.
  assert (H0 : forall m, tcp_metrics_get ok ifindex = Some m ->
    metrics_wf m /\ (False -> 0 < rtt m)).
  { unfold tcp_metrics_get. intros m Hm. case_if; simplify_eq.
    split; [|done]. done. }
  split.
  - apply tcp_metrics_rto_range. intros m Hm. by destruct (H _ _ H0 m Hm).
  - intros m Hm He. destruct (H _ _ H0 m Hm) as [_ Hr]. auto.
Qed.

Lemma rto_bounded_witness :
  let final := foldl (fun m s => snd (tcp_metrics_sample m s))
                 (tcp_metrics_get true 3) [120; 0; 90; 3000] in
  tcp_metrics_rto final = 3516 /\ 200 <= tcp_metrics_rto final <= 6000.
Proof.
  split; [reflexivity|].
  apply (rto_bounded [120; 0; 90; 3000] true 3). repeat constructor; lia.
Defined.

(** exponential backoff.  [n] consecutive timeouts turn a timeout [rto]
    into [min (2^n * rto) 6000], with no [uint32_t] overflow for any [n]. *)
Theorem backoff_exponential n rto :
  0 <= rto <= 6000 ->
  Nat.iter n tcp_metrics_backoff rto = Z.min (2 ^ Z.of_nat n * rto) 6000.
Proof.
  intros Hr. induction n as [|n IH]; [cbn; lia|].
  cbn [Nat.iter nat_rect]. change (nat_rect _ _ _ n) with (Nat.iter n tcp_metrics_backoff rto).
  rewrite IH. pose proof (Z.pow_pos_nonneg 2 (Z.of_nat n) ltac:(lia) ltac:(lia)).
  rewrite tcp_metrics_backoff_min by nia.
  rewrite Nat2Z.inj_succ, Z.pow_succ_r by lia. nia.
Qed.

Lemma backoff_exponential_witness :
  Nat.iter 4 tcp_metrics_backoff 300 = 4800 /\
  Nat.iter 4 tcp_metrics_backoff 300 = Z.min (2 ^ Z.of_nat 4 * 300) 6000.
Proof. split; [reflexivity|apply (backoff_exponential 4 300); lia]. Defined.
