(* ===== verification/TcpTimer.v ===== *)
(** Multiplexing the TCP deadlines on one timer task (src/main/tcp.c:
    [tcp_update_timer], [tcp_reset_timer], [tcp_deadline_due]).

    A control block has several deadlines and a single [task] on the worker's
    timer wheel.  [tcp_update_timer] re-registers the task only when it must.
    The theorems show that this shortcut always leaves the task armed exactly
    for the earliest running deadline, so that no deadline is ever lost. *)

From stdpp Require Import prelude list.
From Stdlib Require Import ZArith Lia.
From S2P Require Import Prelude TcpDefs.

(** *** Definitions *)

(** The [uint64_t *which] arguments the code passes: [&pcb->X_deadline_ms].
    ([connect_deadline_ms] is never passed nor read.) *)
Inductive timer_id :=
  | keepalive_deadline | retransmit_deadline | persist_deadline | ack_deadline
  | nagle_deadline | timewait_deadline | finwait2_deadline.

#[export] Instance timer_id_eq_dec : EqDecision timer_id.
Proof. solve_decision. Defined.

(** [*which]. *)
Definition get_deadline (p : tcp_pcb) (which : timer_id) : Z :=
  match which with
  | keepalive_deadline => keepalive_deadline_ms p
  | retransmit_deadline => retransmit_deadline_ms p
  | persist_deadline => persist_deadline_ms p
  | ack_deadline => ack_deadline_ms p
  | nagle_deadline => nagle_deadline_ms p
  | timewait_deadline => timewait_deadline_ms p
  | finwait2_deadline => finwait2_deadline_ms p
  end.

(** [*which = d]. *)
Definition set_deadline (p : tcp_pcb) (which : timer_id) (d : Z) : tcp_pcb :=
  match which with
  | keepalive_deadline => p <| keepalive_deadline_ms := d |>
  | retransmit_deadline => p <| retransmit_deadline_ms := d |>
  | persist_deadline => p <| persist_deadline_ms := d |>
  | ack_deadline => p <| ack_deadline_ms := d |>
  | nagle_deadline => p <| nagle_deadline_ms := d |>
  | timewait_deadline => p <| timewait_deadline_ms := d |>
  | finwait2_deadline => p <| finwait2_deadline_ms := d |>
  end.

(** The array [timeouts] of [tcp_reset_timer]. *)
Definition timeouts (p : tcp_pcb) : list Z :=
  [keepalive_deadline_ms p; retransmit_deadline_ms p; persist_deadline_ms p;
   ack_deadline_ms p; nagle_deadline_ms p; timewait_deadline_ms p;
   finwait2_deadline_ms p].

(** Body of its selection loop. *)
Definition pick_next (next t : Z) : Z :=
  if negb (t =? 0) && ((next =? 0) || (t <? next)) then t else next.

Definition next_deadline (p : tcp_pcb) : Z := foldl pick_next 0 (timeouts p).

(** [register_task]/[unregister_task] on a timer task with a live thread:
    the [registered] flag (TimerWheel.v models the wheel). *)
Definition tcp_reset_timer (p : tcp_pcb) : tcp_pcb :=
  let next := next_deadline p in
  if negb (next =? 0)
  then p <| timer_task := mk_task true next |>
  else p <| timer_task := mk_task false 0 |>.

Definition tcp_update_timer (p : tcp_pcb) (which : timer_id) (deadline_ms : Z)
    (override : bool) : tcp_pcb :=
  if get_deadline p which =? deadline_ms then p
  else if (get_deadline p which =? TCP_TIMER_STOP)
          || (deadline_ms <? get_deadline p which) || override then
    let tk := timer_task p in
    let old_deadline_ms := get_deadline p which in
    let p := set_deadline p which deadline_ms in
    if negb (registered tk) || (old_deadline_ms =? timeout tk) then
      tcp_reset_timer p
    else if negb (deadline_ms =? TCP_TIMER_STOP)
            && ((timeout tk =? TCP_TIMER_STOP) || (deadline_ms <? timeout tk)) then
      p <| timer_task := mk_task true deadline_ms |>
    else p
  else p.

(** [tcp_deadline_due]: whether the deadline has passed, and the new state. *)
Definition tcp_deadline_due (p : tcp_pcb) (now_ms : Z) (which : timer_id)
    : bool * tcp_pcb :=
  if get_deadline p which =? TCP_TIMER_STOP then (false, p)
  else if get_deadline p which <=? now_ms then
    (true, tcp_reset_timer (set_deadline p which TCP_TIMER_STOP))
  else (false, p).

(** The deadline the code means to keep after an update. *)
Definition updated_deadline (old deadline_ms : Z) (override : bool) : Z :=
  if (old =? TCP_TIMER_STOP) || (deadline_ms <? old) || override
  then deadline_ms else old.

(** The task is armed for the earliest running deadline, or idle when no
    deadline runs. *)
Definition timer_ok (p : tcp_pcb) : Prop :=
  registered (timer_task p) = negb (next_deadline p =? 0) /\
  timeout (timer_task p) = next_deadline p.

Definition deadlines_nonneg (p : tcp_pcb) : Prop := Forall (Z.le 0) (timeouts p).

(** *** Lemmas *)

(** [n] is the least non-zero element of [l], zero when there is none. *)
Definition is_next (l : list Z) (n : Z) : Prop :=
  (n = 0 /\ Forall (eq 0) l) \/
  (n <> 0 /\ n ∈ l /\ Forall (fun x => x = 0 \/ n <= x) l).

Lemma is_next_unique l n m :
  Forall (Z.le 0) l -> is_next l n -> is_next l m -> n = m.
Proof.
  unfold is_next. rewrite !Forall_forall.
  intros H0 [[-> Hn]|(Hn1&Hn2&Hn3)] [[-> Hm]|(Hm1&Hm2&Hm3)]; [done| | |].
  - destruct Hm1. symmetry. by apply Hn.
  - destruct Hn1. symmetry. by apply Hm.
  - specialize (Hn3 m Hm2). specialize (Hm3 n Hn2). lia.
Qed.

Lemma foldl_pick_next l : Forall (Z.le 0) l -> is_next l (foldl pick_next 0 l).
Proof.
  induction l as [|x l IH] using rev_ind; intros H0; [by left|].
  apply Forall_app in H0 as [H0 Hx]. apply Forall_cons in Hx as [Hx _].
  rewrite foldl_app. cbn [foldl]. specialize (IH H0).
  set (n := foldl pick_next 0 l) in *. clearbody n.
  unfold pick_next, is_next in *. rewrite !Forall_app, !Forall_singleton.
  destruct IH as [[-> Hn]|(Hn1&Hn2&Hn3)]; case_if.
  - right. bool_prop. split_and!; [done|set_solver| |lia].
    eapply Forall_impl; [exact Hn|]. intros; by left.
  - left. rewrite andb_true_r in *. bool_prop. done.
  - right. bool_prop. apply orb_true_iff in H1 as [?|?]; bool_prop; [done|].
    split_and!; [done|set_solver| |lia].
    eapply Forall_impl; [exact Hn3|]. intros y [?|?]; lia.
  - right. split_and!; [done|set_solver|done|].
    apply andb_false_iff in Heqb as [?|?]; bool_prop; lia.
Qed.

Lemma next_deadline_spec p : deadlines_nonneg p -> is_next (timeouts p) (next_deadline p).
Proof. apply foldl_pick_next. Qed.

(** Position of a deadline in the array. *)
Definition timer_index (which : timer_id) : nat :=
  match which with
  | keepalive_deadline => 0 | retransmit_deadline => 1 | persist_deadline => 2
  | ack_deadline => 3 | nagle_deadline => 4 | timewait_deadline => 5
  | finwait2_deadline => 6
  end.

Lemma timeouts_get p which :
  timeouts p !! timer_index which = Some (get_deadline p which).
Proof. by destruct which. Qed.

Lemma timeouts_set p which d :
  timeouts (set_deadline p which d) = <[timer_index which := d]> (timeouts p).
Proof. by destruct which. Qed.

Lemma set_deadline_task p which d : timer_task (set_deadline p which d) = timer_task p.
Proof. by destruct which. Qed.

Lemma get_set_deadline p which w d :
  get_deadline (set_deadline p which d) w =
    if decide (w = which) then d else get_deadline p w.
Proof. by destruct which, w. Qed.

Lemma get_deadline_task p tk w :
  get_deadline (p <| timer_task := tk |>) w = get_deadline p w.
Proof. by destruct w. Qed.

Lemma timeouts_task p tk : timeouts (p <| timer_task := tk |>) = timeouts p.
Proof. done. Qed.

Lemma tcp_reset_timer_timeouts p : timeouts (tcp_reset_timer p) = timeouts p.
Proof. unfold tcp_reset_timer. by case_if. Qed.

(** Replacing an element that was not the earliest. *)
Lemma is_next_insert l i old d n :
  Forall (Z.le 0) l -> 0 <= d -> l !! i = Some old -> old <> n -> is_next l n ->
  is_next (<[i := d]> l)
    (if negb (d =? 0) && ((n =? 0) || (d <? n)) then d else n).
Proof.
  intros H0 Hd Hi Hne Hn. unfold is_next in *.
  assert (Hlt : (i < length l)%nat) by (by apply lookup_lt_Some in Hi).
  assert (Hin : d ∈ <[i := d]> l)
    by (apply list_elem_of_lookup; exists i; by apply list_lookup_insert_eq).
  destruct Hn as [[-> Hn]|(Hn1&Hn2&Hn3)]; [|].
  { rewrite Forall_forall in Hn. destruct Hne. symmetry. apply Hn.
    apply list_elem_of_lookup. eauto. }
  right. assert (Hn2' : n ∈ <[i := d]> l).
  { apply list_elem_of_lookup in Hn2 as [j Hj]. apply list_elem_of_lookup.
    exists j. rewrite list_lookup_insert_ne; [done|]. intros ->. congruence. }
  assert (Hall : forall P : Z -> Prop, P d -> Forall P l -> Forall P (<[i := d]> l))
    by (intros P Pd Pl; by apply Forall_insert).
  case_if; bool_prop.
  - split_and!; [done..|]. apply Hall; [lia|]. eapply Forall_impl; [exact Hn3|].
    apply orb_true_iff in H1 as [?|?]; bool_prop; [done|]. intros y [?|?]; lia.
  - split_and!; [done..|]. apply Hall; [|done].
    apply andb_false_iff in Heqb as [?|?]; bool_prop; lia.
Qed.

Lemma tcp_reset_timer_ok p : timer_ok (tcp_reset_timer p).
Proof.
  unfold timer_ok, next_deadline. rewrite tcp_reset_timer_timeouts.
  unfold tcp_reset_timer. fold (next_deadline p).
  case_if; bool_prop; rsimpl; [done|]. by rewrite Heqb.
Qed.

Lemma set_deadline_nonneg p which d :
  0 <= d -> deadlines_nonneg p -> deadlines_nonneg (set_deadline p which d).
Proof.
  unfold deadlines_nonneg. rewrite timeouts_set. intros. by apply Forall_insert.
Qed.

Lemma tcp_update_timer_deadlines p which d ov w :
  get_deadline (tcp_update_timer p which d ov) w =
    if decide (w = which) then updated_deadline (get_deadline p which) d ov
    else get_deadline p w.
Proof.
  assert (Hr : forall q w, get_deadline (tcp_reset_timer q) w = get_deadline q w)
    by (intros q w'; unfold tcp_reset_timer; destruct w'; by case_if).
  unfold tcp_update_timer, updated_deadline.
  destruct (Z.eqb_spec (get_deadline p which) d) as [He|Hne].
  { destruct (decide (w = which)) as [->|]; [|done]. case_if; congruence. }
  destruct ((get_deadline p which =? TCP_TIMER_STOP)
    || (d <? get_deadline p which) || ov) eqn:Hc.
  - case_if; [by rewrite Hr, get_set_deadline|].
    case_if; [|by rewrite get_set_deadline].
    by rewrite get_deadline_task, get_set_deadline.
  - by destruct (decide (w = which)) as [->|].
Qed.

Lemma tcp_update_timer_nonneg p which d ov :
  0 <= d -> deadlines_nonneg p -> deadlines_nonneg (tcp_update_timer p which d ov).
Proof.
  intros Hd H0. unfold tcp_update_timer. case_if; [done|]. case_if; [|done].
  pose proof (set_deadline_nonneg p which d Hd H0).
  case_if; [by unfold deadlines_nonneg; rewrite tcp_reset_timer_timeouts|].
  by case_if.
Qed.

(** The shortcut of [tcp_update_timer] agrees with a full re-selection. *)
Lemma tcp_update_timer_keeps p which d ov :
  0 <= d -> deadlines_nonneg p -> timer_ok p ->
  timer_ok (tcp_update_timer p which d ov).
Proof.
  intros Hd H0 [Hr Ht]. unfold tcp_update_timer. case_if; [done|]. case_if; [|done].
  case_if; [apply tcp_reset_timer_ok|].
  apply orb_false_iff in Heqb1 as [Hreg Hold]. bool_prop.
  pose proof (is_next_insert (timeouts p) (timer_index which) (get_deadline p which) d
    (next_deadline p) H0 Hd (timeouts_get p which) ltac:(congruence)
    (next_deadline_spec p H0)) as Hn.
  rewrite <- timeouts_set in Hn.
  assert (H0' := set_deadline_nonneg p which d Hd H0).
  rewrite Ht. change TCP_TIMER_STOP with 0. rewrite Hreg in Hr.
  set (q := set_deadline p which d) in *.
  assert (Hq := next_deadline_spec q H0').
  destruct (negb (d =? 0) && ((next_deadline p =? 0) || (d <? next_deadline p))) eqn:Hc;
    pose proof (is_next_unique _ _ _ H0' Hq Hn) as He.
  - unfold timer_ok. change (next_deadline (q <| timer_task := mk_task true d |>))
      with (next_deadline q). rsimpl. rewrite He. split; [|done].
    apply andb_true_iff in Hc as [-> _]. done.
  - unfold timer_ok, q. rewrite set_deadline_task. fold q. by rewrite He, Ht, Hreg, <- Hr.
Qed.

(** Inside the timer callback the task is no longer registered; the first
    deadline found due re-arms it. *)
Lemma tcp_deadline_due_ok p now_ms which p' :
  tcp_deadline_due p now_ms which = (true, p') -> timer_ok p'.
Proof.
  unfold tcp_deadline_due. case_if; [done|]. case_if; [|done].
  intros [= <-]. apply tcp_reset_timer_ok.
Qed.

Lemma tcp_deadline_due_false p now_ms which p' :
  tcp_deadline_due p now_ms which = (false, p') ->
  p' = p /\ (get_deadline p which = 0 \/ now_ms < get_deadline p which).
Proof.
  unfold tcp_deadline_due. case_if; [|case_if]; intros [= <-]; bool_prop; auto.
Qed.

(** When the wheel fires a correctly armed task, some deadline is due. *)
Lemma timer_fired_due p now_ms :
  deadlines_nonneg p -> timer_ok p -> registered (timer_task p) = true ->
  timeout (timer_task p) <= now_ms ->
  exists which, get_deadline p which <> 0 /\ get_deadline p which <= now_ms.
Proof.
  intros H0 [Hr Ht] Hreg Hle. rewrite Hreg in Hr. symmetry in Hr. bool_prop.
  destruct (next_deadline_spec p H0) as [[? _]|(_&Hin&_)]; [done|].
  rewrite Ht in Hle.
  assert (Hw : exists which, get_deadline p which = next_deadline p).
  { unfold timeouts in Hin. rewrite !elem_of_cons in Hin.
    destruct Hin as [H|[H|[H|[H|[H|[H|[H|H]]]]]]]; [..|by apply not_elem_of_nil in H].
    - by exists keepalive_deadline. - by exists retransmit_deadline.
    - by exists persist_deadline. - by exists ack_deadline.
    - by exists nagle_deadline. - by exists timewait_deadline.
    - by exists finwait2_deadline. }
  destruct Hw as [which Hw]. exists which. lia.
Qed.

Lemma get_deadline_In p which : get_deadline p which ∈ timeouts p.
Proof. apply list_elem_of_lookup. exists (timer_index which). apply timeouts_get. Qed.

(** *** Frame: only the deadlines and the task change *)

Definition erase_timers (p : tcp_pcb) : tcp_pcb :=
  p <| timer_task := mk_task false 0 |> <| keepalive_deadline_ms := 0 |>
    <| retransmit_deadline_ms := 0 |> <| persist_deadline_ms := 0 |>
    <| ack_deadline_ms := 0 |> <| nagle_deadline_ms := 0 |>
    <| timewait_deadline_ms := 0 |> <| finwait2_deadline_ms := 0 |>.

Lemma erase_reset_timer p : erase_timers (tcp_reset_timer p) = erase_timers p.
Proof. unfold tcp_reset_timer. by case_if. Qed.

Lemma erase_set_deadline p which d : erase_timers (set_deadline p which d) = erase_timers p.
Proof. by destruct which. Qed.

Lemma erase_update_timer p which d ov :
  erase_timers (tcp_update_timer p which d ov) = erase_timers p.
Proof.
  unfold tcp_update_timer. repeat case_if;
    rewrite ?erase_reset_timer, ?erase_set_deadline; try done.
  apply (erase_set_deadline p which).
Qed.

Lemma erase_deadline_due p now_ms which :
  erase_timers (snd (tcp_deadline_due p now_ms which)) = erase_timers p.
Proof.
  unfold tcp_deadline_due. repeat case_if; cbn [snd]; [done| |done].
  by rewrite erase_reset_timer, erase_set_deadline.
Qed.

(** *** Properties *)

(** C34: no deadline is lost.  After any sequence of [tcp_update_timer] calls
    (deadlines set, moved, stopped, in any order, with or without override) on
    a control block whose task is armed correctly, the task is registered iff
    some deadline runs, it is never armed later than any running deadline, and
    it is armed for one of them. *)
Theorem tcp_timer_earliest ops p :
  Forall (fun '(which, d, ov) => 0 <= d) ops ->
  deadlines_nonneg p -> timer_ok p ->
  let q := foldl (fun p '(which, d, ov) => tcp_update_timer p which d ov) p ops in
  (forall which, get_deadline q which <> 0 ->
     registered (timer_task q) = true /\
     timeout (timer_task q) <= get_deadline q which) /\
  (registered (timer_task q) = true ->
     exists which, get_deadline q which = timeout (timer_task q)).
Proof.
  intros Hops H0 Hok q.
  assert (Hq : deadlines_nonneg q /\ timer_ok q).
  { subst q. revert p H0 Hok. induction Hops as [|[[which d] ov] ops Hd _ IH];
      intros p H0 Hok; [done|]. cbn [foldl]. apply IH.
    - by apply tcp_update_timer_nonneg.
    - by apply tcp_update_timer_keeps. }
  clearbody q. destruct Hq as [Hn Hq].
  pose proof (next_deadline_spec q Hn) as Hs. split.
  - intros which Hw. destruct Hq as [-> ->].
    destruct Hs as [[_ Hz]|(Hne&_&Hz)]; rewrite Forall_forall in Hz;
      specialize (Hz _ (get_deadline_In q which)); [congruence|].
    split; [by apply negb_true_iff, Z.eqb_neq|]. destruct Hz; lia.
  - intros Hreg. destruct (timer_fired_due q _ Hn Hq Hreg (Z.le_refl _)) as (which&Hw&Hle).
    exists which. destruct Hq as [_ Ht]. rewrite Ht in *.
    destruct Hs as [[_ Hz]|(_&_&Hz)]; rewrite Forall_forall in Hz;
      specialize (Hz _ (get_deadline_In q which)); [congruence|].
    destruct Hz; lia.
Qed.

Lemma tcp_timer_earliest_witness :
  let ops := [(ack_deadline, 140, false); (retransmit_deadline, 1100, false);
              (ack_deadline, 0, true); (nagle_deadline, 110, false)] in
  let q := foldl (fun p '(which, d, ov) => tcp_update_timer p which d ov) pcb_zero ops in
  timeout (timer_task q) = 110 /\
  ((forall which, get_deadline q which <> 0 ->
     registered (timer_task q) = true /\
     timeout (timer_task q) <= get_deadline q which) /\
   (registered (timer_task q) = true ->
     exists which, get_deadline q which = timeout (timer_task q))).
Proof.
  intros ops q. split; [reflexivity|].
  apply (tcp_timer_earliest ops pcb_zero).
  - repeat constructor; lia.
  - repeat constructor; cbn; lia.
  - split; reflexivity.
Defined.
