(* ===== verification/TcpWindow.v ===== *)
(** Send-window bookkeeping (src/main/tcp.c, first part): sequence length of a
    segment, effective MSS, and the reactions of the retransmit, Nagle and
    persist timers to changes of the peer and congestion windows. *)

From stdpp Require Import prelude list.
From Stdlib Require Import ZArith Lia.
From S2P Require Import Prelude TcpDefs TcpSeq TcpTimer.

(** *** Definitions *)

(** [tcp_update_timer(pcb, &pcb->which, d, override)] on a connection. *)
Definition update_timer (c : conn) (which : timer_id) (d : Z) (override : bool) : conn :=
  c <| pcb ::= fun p => tcp_update_timer p which d override |>.

(** [get_current_time_ms()]. *)
Definition get_current_time_ms (c : conn) : Z := now (ev c).

(** [queue.element_number != 0]. *)
Definition nonempty {A} (q : list A) : bool :=
  match q with [] => false | _ => true end.

(** Outcome of the next allocation ([skb_alloc], [skb_clone], [skb_split],
    [skb_append_skb], [create_task], [calloc]). *)
Definition alloc (c : conn) : bool * conn :=
  match allocs (ev c) with
  | [] => (true, c)
  | b :: l => (b, c <|e allocs := l |>)
  end.

(** [socket_notify_event] (src/main/stack.c): accumulate the readiness bits and,
    when a request waits on the socket, schedule the task that serves it. *)
Definition notify_event (c : conn) (event : Z) : conn :=
  let old_events := notified_events (sock c) in
  let c := c <|s notified_events := Z.lor old_events event |> in
  if negb (nonempty (pending (sock c))) then c
  else if negb (owner (sock c)) then c
  else
    match pending_task (sock c) with
    | Some tk =>
        if has old_events event && registered tk then c
        else if registered tk then c
        else c <|s pending_task := Some (mk_task true (get_current_time_ms c)) |>
    | None =>
        let '(ok, c) := alloc c in
        if ok then c <|s pending_task := Some (mk_task true (get_current_time_ms c)) |> else c
    end.

Definition skb_data_len (skb : tskb) : Z := Z.of_nat (length (t_data skb)).

Definition tcp_skb_seq_len (skb : tskb) : Z :=
  u32 (skb_data_len skb
       + (if has (t_flag skb) TCP_FLAG_SYN then 1 else 0)
       + (if has (t_flag skb) TCP_FLAG_FIN then 1 else 0)).

Definition tcp_data_mss (p : tcp_pcb) : Z :=
  u32 (snd_mss p - (if peer_ts_ok p then 12 else 0)).

Definition tcp_arm_persist (c : conn) : conn :=
  if (snd_wnd (pcb c) =? 0) && (persist_deadline_ms (pcb c) =? TCP_TIMER_STOP)
     && (nonempty (retransmit_queue (pcb c)) || nonempty (send_queue (sock c)))
  then update_timer c persist_deadline
         (get_current_time_ms c + persist_backoff (pcb c)) false
  else c.

(** [queue nonempty && limit && SEQ_LT(snd_nxt, snd_una + limit)]. *)
Definition sendable (c : conn) (limit : Z) : bool :=
  nonempty (send_queue (sock c)) && negb (limit =? 0)
  && SEQ_LT (snd_nxt (pcb c)) (u32 (snd_una (pcb c) + limit)).

Definition tcp_send_window_update (c : conn) (old_limit new_limit : Z) : conn :=
  if old_limit =? new_limit then c
  else
    let c :=
      if negb (nonempty (retransmit_queue (pcb c))) || (new_limit =? 0)
      then update_timer c retransmit_deadline TCP_TIMER_STOP true
      else if retransmit_deadline_ms (pcb c) =? TCP_TIMER_STOP
      then update_timer c retransmit_deadline
             (get_current_time_ms c + retransmit_timeout (pcb c)) false
      else c in
    let was_sendable := sendable c old_limit in
    let is_sendable := sendable c new_limit in
    if negb is_sendable then update_timer c nagle_deadline TCP_TIMER_STOP false
    else if negb was_sendable || (nagle_deadline_ms (pcb c) =? TCP_TIMER_STOP)
    then update_timer c nagle_deadline (get_current_time_ms c) false
    else c.

Definition tcp_snd_win_change (c : conn) (new_wnd : Z) : conn :=
  let old_wnd := snd_wnd (pcb c) in
  let old_limit := Z.min (snd_wnd (pcb c)) (snd_cwnd (pcb c)) in
  if old_wnd =? new_wnd then c
  else
    let c :=
      if new_wnd =? 0 then c <|p retries_out := 0 |>
      else if old_wnd =? 0 then
        update_timer
          (c <|p persist_backoff := TCP_PERSIST_BACKOFF_MS_DEFAULT |>
             <|p retries_out := 0 |>)
          persist_deadline TCP_TIMER_STOP true
      else c in
    let c := c <|p snd_wnd := new_wnd |> in
    let c := tcp_send_window_update c old_limit
               (Z.min (snd_wnd (pcb c)) (snd_cwnd (pcb c))) in
    tcp_arm_persist c.

Definition tcp_snd_cwnd_change (c : conn) (new_cwnd : Z) : conn :=
  if snd_cwnd (pcb c) =? new_cwnd then c
  else
    let old_limit := Z.min (snd_wnd (pcb c)) (snd_cwnd (pcb c)) in
    let c := c <|p snd_cwnd := new_cwnd |> in
    tcp_send_window_update c old_limit (Z.min (snd_wnd (pcb c)) (snd_cwnd (pcb c))).

(** *** Lemmas *)

(** A connection without its timers: what window and timer bookkeeping leaves
    alone. *)
Definition untimed (c : conn) : conn := c <| pcb ::= erase_timers |>.

(** Read a non-timer field off an equation between untimed connections. *)
Ltac untimed_field H f := exact (f_equal (fun c => f c) H).

Lemma untimed_update_timer c which d ov :
  untimed (update_timer c which d ov) = untimed c.
Proof.
  unfold untimed, update_timer. rsplit. by rewrite erase_update_timer.
Qed.

Lemma untimed_arm_persist c : untimed (tcp_arm_persist c) = untimed c.
Proof. unfold tcp_arm_persist. case_if; auto using untimed_update_timer. Qed.

Lemma untimed_send_window_update c a b :
  untimed (tcp_send_window_update c a b) = untimed c.
Proof.
  unfold tcp_send_window_update. repeat case_if;
    rewrite ?untimed_update_timer; done.
Qed.

Lemma untimed_cwnd_change c n :
  untimed (tcp_snd_cwnd_change c n) = untimed (c <|p snd_cwnd := n |>).
Proof.
  unfold tcp_snd_cwnd_change. case_if; bool_prop.
  - destruct c as [p ? ?]. destruct p. cbn in *. by subst.
  - apply untimed_send_window_update.
Qed.

Create Rewrite HintDb untimed.
#[export] Hint Rewrite untimed_update_timer untimed_arm_persist
  untimed_send_window_update untimed_cwnd_change : untimed.
