(* ===== verification/TcpCongestion.v ===== *)
(** Congestion control (src/main/tcp_congestion.c): CUBIC with slow start,
    fast recovery and loss recovery. *)

From stdpp Require Import prelude list.
From Stdlib Require Import ZArith Lia.
From S2P Require Import Prelude TcpDefs TcpSeq TcpTimer TcpWindow.

(** *** Definitions *)

Definition CUBIC_INITIAL_WINDOW : Z := 10.
Definition CUBIC_BETA : Z := 717.
Definition CUBIC_BETA_SCALE : Z := 1024.
Definition CUBIC_C_NUM : Z := 2.
Definition CUBIC_C_DEN : Z := 5.
Definition CUBIC_TCP_FRIEND_SCALE : Z := 15.
Definition CUBIC_MAX_OFFSET_MS : Z := 600000.

Definition tcp_ca_mss (p : tcp_pcb) : Z :=
  if snd_mss p =? 0 then 1 else snd_mss p.

Definition tcp_ca_saturating_add (value increment : Z) : Z :=
  let result := u64 (value + increment) in
  if UINT32_MAX <? result then UINT32_MAX else u32 result.

(** The control block always has its socket here, so the window change goes
    through [tcp_snd_cwnd_change]. *)
Definition tcp_ca_set_cwnd (c : conn) (cwnd : Z) : conn :=
  let cwnd := Z.max cwnd (tcp_ca_mss (pcb c)) in
  tcp_snd_cwnd_change c cwnd.

Definition tcp_cubic_cwnd_packets (p : tcp_pcb) : Z :=
  let mss := tcp_ca_mss p in Z.max (snd_cwnd p / mss) 1.

Definition tcp_cubic_set_cwnd_packets (c : conn) (packets : Z) : conn :=
  let bytes := u64 (packets * tcp_ca_mss (pcb c)) in
  tcp_ca_set_cwnd c (if UINT32_MAX <? bytes then UINT32_MAX else u32 bytes).

(** The binary search of [tcp_cubic_root]; [None]: out of fuel. *)
Fixpoint tcp_cubic_root_loop (fuel : nat) (value low high : Z) : option Z :=
  match fuel with
  | O => None
  | S f =>
      if low <? high then
        let mid := u32 (low + u32 (high - low + 1) / 2) in
        let fits := (mid =? 0) || (mid <=? value / mid / mid) in
        if fits then tcp_cubic_root_loop f value mid high
        else tcp_cubic_root_loop f value low (mid - 1)
      else Some low
  end.

(** [high - low] is below 2^22 and at least halves each round. *)
Definition ROOT_FUEL : nat := 23.

Definition tcp_cubic_root (value : Z) : Z :=
  default 0 (tcp_cubic_root_loop ROOT_FUEL value 0 2642245).

Definition tcp_cubic_reset : netfast_tcp_cubic := mk_cubic 0 0 0 0 0 0 0 0 0.

Definition tcp_cubic_take_acked_packets (c : conn) (acked : Z) : Z * conn :=
  let mss := tcp_ca_mss (pcb c) in
  let total := u64 (acked_bytes (cubic (pcb c)) + acked) in
  let packets := total / mss in
  let c := c <|p cubic := (cubic (pcb c)) <| acked_bytes := u32 (total mod mss) |> |> in
  (if UINT32_MAX <? packets then UINT32_MAX else u32 packets, c).

Definition tcp_cubic_slow_start (c : conn) (acked : Z) : Z * conn :=
  let mss := tcp_ca_mss (pcb c) in
  let cwnd := tcp_cubic_cwnd_packets (pcb c) in
  let ssthresh := Z.max (snd_ssthresh (pcb c) / mss) 2 in
  if ssthresh <=? cwnd then (acked, c)
  else
    let increase := Z.min acked (ssthresh - cwnd) in
    (u32 (acked - increase), tcp_cubic_set_cwnd_packets c (cwnd + increase)).

Definition tcp_cubic_k_ms (distance : Z) : Z :=
  let scale := CUBIC_C_DEN * 1000000000 in
  let value := if UINT64_MAX / scale <? distance
               then UINT64_MAX else u64 (distance * scale) in
  tcp_cubic_root (value / CUBIC_C_NUM).

Definition tcp_cubic_delta (offset_ms : Z) : Z :=
  let offset_ms := Z.min offset_ms CUBIC_MAX_OFFSET_MS in
  let cube := u64 (u64 (offset_ms * offset_ms) * offset_ms) in
  let delta := u64 (CUBIC_C_NUM * cube) / (CUBIC_C_DEN * 1000000000) in
  if UINT32_MAX <? delta then UINT32_MAX else u32 delta.

(** First half of [tcp_cubic_update]: start of an epoch. *)
Definition tcp_cubic_epoch (b : netfast_tcp_cubic) (now cwnd acked : Z)
    : netfast_tcp_cubic :=
  let b := b <| ack_cnt := tcp_ca_saturating_add (ack_cnt b) acked |> in
  if epoch_start_ms b =? 0 then
    let b := b <| epoch_start_ms := if now =? 0 then 1 else now |>
               <| ack_cnt := acked |> <| tcp_cwnd := cwnd |> in
    if last_max_cwnd b <=? cwnd
    then b <| k_ms := 0 |> <| origin_point := cwnd |>
    else b <| k_ms := tcp_cubic_k_ms (u32 (last_max_cwnd b - cwnd)) |>
           <| origin_point := last_max_cwnd b |>
  else b.

(** The cubic target window. *)
Definition tcp_cubic_target (b : netfast_tcp_cubic) (now : Z) : Z :=
  let elapsed := if epoch_start_ms b <=? now then u64 (now - epoch_start_ms b) else 0 in
  let offset := if k_ms b <? elapsed then u64 (elapsed - k_ms b) else u64 (k_ms b - elapsed) in
  let delta := tcp_cubic_delta offset in
  if elapsed <? k_ms b
  then if origin_point b <=? delta then 1 else u32 (origin_point b - delta)
  else tcp_ca_saturating_add (origin_point b) delta.

(** The TCP-friendly adjustment and the final bounds on [cnt]. *)
Definition tcp_cubic_friendly (b : netfast_tcp_cubic) (cwnd : Z) : netfast_tcp_cubic :=
  let threshold64 := Z.shiftr (u64 (cwnd * CUBIC_TCP_FRIEND_SCALE)) 3 in
  let threshold := if UINT32_MAX <? threshold64 then UINT32_MAX
                   else Z.max (u32 threshold64) 1 in
  let b :=
    if threshold <? ack_cnt b then
      let steps := u32 (ack_cnt b - 1) / threshold in
      b <| ack_cnt := u32 (ack_cnt b - u32 (steps * threshold)) |>
        <| tcp_cwnd := tcp_ca_saturating_add (tcp_cwnd b) steps |>
    else b in
  let b :=
    if cwnd <? tcp_cwnd b then
      let difference := u32 (tcp_cwnd b - cwnd) in
      let friendly_cnt := Z.max (cwnd / difference) 1 in
      b <| cnt := Z.min (cnt b) friendly_cnt |>
    else b in
  b <| cnt := Z.max (cnt b) 2 |>.

Definition tcp_cubic_update (b : netfast_tcp_cubic) (now cwnd acked : Z)
    : netfast_tcp_cubic :=
  let b := tcp_cubic_epoch b now cwnd acked in
  let target := tcp_cubic_target b now in
  let b :=
    if cwnd <? target
    then b <| cnt := Z.max (cwnd / u32 (target - cwnd)) 1 |>
    else b <| cnt := tcp_ca_saturating_add 0 (u64 (100 * cwnd)) |> in
  let b := if (last_max_cwnd b =? 0) && (20 <? cnt b) then b <| cnt := 20 |> else b in
  tcp_cubic_friendly b cwnd.

(** Congestion-avoidance half of [tcp_cubic_cong_avoid]. *)
Definition tcp_cubic_avoid (c : conn) (acked : Z) : conn :=
  let cwnd := tcp_cubic_cwnd_packets (pcb c) in
  let b := tcp_cubic_update (cubic (pcb c)) (get_current_time_ms c) cwnd acked in
  let credits := u64 (cwnd_cnt b + acked) in
  let increase := u32 (credits / cnt b) in
  let b := b <| cwnd_cnt := u32 (credits mod cnt b) |> in
  let c := c <|p cubic := b |> in
  if increase =? 0 then c else tcp_cubic_set_cwnd_packets c (cwnd + increase).

Definition tcp_cubic_cong_avoid (c : conn) (acked : Z) : conn :=
  if snd_cwnd (pcb c) <? snd_ssthresh (pcb c) then
    let '(acked, c) := tcp_cubic_slow_start c acked in
    if acked =? 0 then c else tcp_cubic_avoid c acked
  else tcp_cubic_avoid c acked.

Definition tcp_cubic_recalc_ssthresh (p : tcp_pcb) : Z * tcp_pcb :=
  let cwnd := tcp_cubic_cwnd_packets p in
  let b := (cubic p) <| epoch_start_ms := 0 |> <| cwnd_cnt := 0 |> in
  let b :=
    if cwnd <? last_max_cwnd b
    then b <| last_max_cwnd :=
           u32 (u64 (cwnd * (CUBIC_BETA_SCALE + CUBIC_BETA)) / (2 * CUBIC_BETA_SCALE)) |>
    else b <| last_max_cwnd := cwnd |> in
  let threshold := u32 (u64 (cwnd * CUBIC_BETA) / CUBIC_BETA_SCALE) in
  let threshold_bytes := u64 (Z.max threshold 2 * tcp_ca_mss p) in
  (if UINT32_MAX <? threshold_bytes then UINT32_MAX else u32 threshold_bytes,
   p <| cubic := b |>).

Definition tcp_congestion_init (p : tcp_pcb) : tcp_pcb :=
  let initial := u64 (CUBIC_INITIAL_WINDOW * tcp_ca_mss p) in
  p <| snd_cwnd := if UINT32_MAX <? initial then UINT32_MAX else u32 initial |>
    <| snd_ssthresh := UINT32_MAX |>
    <| ca_recovery_seq := 0 |> <| ca_prior_cwnd := 0 |>
    <| ca_state := NET_TCP_CA_OPEN |> <| cubic := tcp_cubic_reset |>.

Definition tcp_congestion_mss_changed (p : tcp_pcb) : tcp_pcb :=
  match state p with
  | TCP_STATE_CLOSED | TCP_STATE_SYN_SENT | TCP_STATE_SYN_RECEIVED =>
      tcp_congestion_init p
  | _ => p
  end.

(** Returns whether the caller must retransmit at once. *)
Definition tcp_congestion_on_ack (c : conn) (acked_bytes_arg : Z)
    (was_cwnd_limited : bool) : bool * conn :=
  match ca_state (pcb c) with
  | NET_TCP_CA_OPEN =>
      if was_cwnd_limited && negb (acked_bytes_arg =? 0) then
        let '(acked, c) := tcp_cubic_take_acked_packets c acked_bytes_arg in
        (false, if acked =? 0 then c else tcp_cubic_cong_avoid c acked)
      else (false, c)
  | ca =>
      if SEQ_GEQ (snd_una (pcb c)) (ca_recovery_seq (pcb c)) then
        let c := tcp_ca_set_cwnd c (snd_ssthresh (pcb c)) in
        let c := c <|p ca_state := NET_TCP_CA_OPEN |> in
        (false, c <|p cubic := (cubic (pcb c)) <| cwnd_cnt := 0 |> |>)
      else
        (true, match ca with
               | NET_TCP_CA_RECOVERY =>
                   tcp_ca_set_cwnd c (tcp_ca_saturating_add (snd_ssthresh (pcb c))
                                        (tcp_ca_mss (pcb c)))
               | _ => c
               end)
  end.

(** The common part of entering recovery and loss: [ca_prior_cwnd],
    [snd_ssthresh] and [ca_recovery_seq]. *)
Definition ca_enter (p : tcp_pcb) : tcp_pcb :=
  let p := p <| ca_prior_cwnd := snd_cwnd p |> in
  let '(thr, p) := tcp_cubic_recalc_ssthresh p in
  p <| snd_ssthresh := thr |> <| ca_recovery_seq := snd_nxt p |>.

Definition tcp_congestion_on_duplicate_ack (c : conn) (duplicate_acks : Z) : bool * conn :=
  let open := bool_decide (ca_state (pcb c) = NET_TCP_CA_OPEN) in
  let recovery := bool_decide (ca_state (pcb c) = NET_TCP_CA_RECOVERY) in
  if (duplicate_acks =? 3) && open then
    let c := c <| pcb ::= ca_enter |> in
    let c := c <|p ca_state := NET_TCP_CA_RECOVERY |> in
    (true, tcp_ca_set_cwnd c (tcp_ca_saturating_add (snd_ssthresh (pcb c))
                                (3 * tcp_ca_mss (pcb c))))
  else if (3 <? duplicate_acks) && recovery then
    (false, tcp_ca_set_cwnd c (tcp_ca_saturating_add (snd_cwnd (pcb c))
                                 (tcp_ca_mss (pcb c))))
  else (false, c).

Definition tcp_congestion_on_timeout (c : conn) : conn :=
  let c := match ca_state (pcb c) with
           | NET_TCP_CA_OPEN => c <| pcb ::= ca_enter |>
           | _ => c
           end in
  let c := c <|p ca_state := NET_TCP_CA_LOSS |> in
  let c := tcp_ca_set_cwnd c (tcp_ca_mss (pcb c)) in
  c <|p cubic := tcp_cubic_reset |>.

(** *** Lemmas: the integer cube root *)

Lemma div_div_le value mid :
  0 < mid -> 0 <= value -> (mid <=? value / mid / mid) = (mid * mid * mid <=? value).
Proof.
  intros Hm Hv. rewrite Z.div_div by lia.
  destruct (Z.leb_spec (mid * mid * mid) value) as [H|H].
  - apply Z.leb_le. apply Z.div_le_lower_bound; nia.
  - apply Z.leb_gt. apply Z.div_lt_upper_bound; nia.
Qed.

Lemma tcp_cubic_root_loop_ok fuel value : forall low high,
  0 <= value -> 0 <= low <= high -> high < 2 ^ 31 ->
  high - low < 2 ^ Z.of_nat fuel ->
  low * low * low <= value < (high + 1) * (high + 1) * (high + 1) ->
  exists r, tcp_cubic_root_loop (S fuel) value low high = Some r /\
    0 <= r <= high /\ r * r * r <= value < (r + 1) * (r + 1) * (r + 1).
Proof.
  induction fuel as [|fuel IH]; intros low high Hv Hlh Hh Hf Hr; cbn [tcp_cubic_root_loop].
  - change (2 ^ Z.of_nat 0) with 1 in Hf. rewrite (proj2 (Z.ltb_ge low high)) by lia.
    assert (low = high) by lia. subst. eauto with lia.
  - rewrite Nat2Z.inj_succ, Z.pow_succ_r in Hf by lia.
    destruct (Z.ltb_spec low high); [|assert (low = high) by lia; subst; eauto with lia].
    assert (Hmid : u32 (low + u32 (high - low + 1) / 2) = low + (high - low + 1) / 2).
    { rewrite (wrap_id 32 (high - low + 1)) by (unfold is_u; lia).
      apply wrap_id. unfold is_u. zlia. }
    rewrite Hmid. set (mid := low + (high - low + 1) / 2).
    assert (Hm : low < mid <= high /\ high - mid <= (high - low) / 2 /\
                 mid - 1 - low <= (high - low) / 2) by (unfold mid; zlia).
    rewrite (proj2 (Z.eqb_neq mid 0)) by lia. cbn [orb].
    rewrite div_div_le by lia.
    assert (Hd : (high - low) / 2 < 2 ^ Z.of_nat fuel) by (apply Z.div_lt_upper_bound; lia).
    destruct (Z.leb_spec (mid * mid * mid) value).
    + apply IH; try lia.
    + destruct (IH low (mid - 1)) as (r&Hl&?&?); try lia; eauto with lia.
Qed.

Lemma tcp_cubic_root_ok value :
  is_u64 value ->
  let r := tcp_cubic_root value in
  0 <= r <= 2642245 /\ r * r * r <= value < (r + 1) * (r + 1) * (r + 1).
Proof.
  unfold is_u. intros Hv. unfold tcp_cubic_root, ROOT_FUEL.
  destruct (tcp_cubic_root_loop_ok 22 value 0 2642245) as (r&->&?&?); cbn [default]; try lia; auto.
Qed.

(** *** Lemmas: ranges *)

Lemma saturating_range v i : is_u32 (tcp_ca_saturating_add v i).
Proof.
  unfold tcp_ca_saturating_add, is_u, UINT32_MAX. case_if; [lia|].
  apply wrap_range. lia.
Qed.

Lemma saturating_exact v i :
  0 <= v -> 0 <= i -> v + i < 2 ^ 64 ->
  tcp_ca_saturating_add v i = Z.min (v + i) UINT32_MAX.
Proof.
  intros. unfold tcp_ca_saturating_add, UINT32_MAX.
  rewrite (wrap_id 64) by (unfold is_u; lia).
  case_if; bool_prop; [lia|]. rewrite wrap_id; unfold is_u; lia.
Qed.

Lemma clamp32 x : (if UINT32_MAX <? x then UINT32_MAX else u32 x) = Z.min x UINT32_MAX \/ x < 0.
Proof.
  destruct (Z.ltb_spec x 0); [by right|left]. unfold UINT32_MAX.
  case_if; bool_prop; [lia|]. rewrite wrap_id; unfold is_u; lia.
Qed.

(** An MSS is far below 2^31 (it fits a frame); the MSS used is positive. *)
Lemma tcp_ca_mss_range p : is_u 31 (snd_mss p) -> 1 <= tcp_ca_mss p < 2 ^ 31.
Proof. unfold tcp_ca_mss, is_u. intros. case_if; bool_prop; lia. Qed.

(** The congestion window after [tcp_ca_set_cwnd]. *)
Lemma tcp_ca_set_cwnd_untimed c n :
  untimed (tcp_ca_set_cwnd c n) =
  untimed (c <|p snd_cwnd := Z.max n (tcp_ca_mss (pcb c)) |>).
Proof. apply untimed_cwnd_change. Qed.

(** The state the congestion controller works in: the window is at least one
    segment and every [uint32_t] field is in range. *)
Definition cubic_wf (b : netfast_tcp_cubic) : Prop :=
  is_u32 (last_max_cwnd b) /\ is_u32 (origin_point b) /\ is_u32 (ack_cnt b) /\
  is_u32 (tcp_cwnd b) /\ is_u32 (cwnd_cnt b) /\ is_u32 (acked_bytes b) /\ is_u32 (k_ms b).

Definition ca_wf (p : tcp_pcb) : Prop :=
  is_u 31 (snd_mss p) /\ tcp_ca_mss p <= snd_cwnd p < 2 ^ 32 /\
  is_u32 (snd_ssthresh p) /\ cubic_wf (cubic p).

(** A whole number of segments, at least one, inside the window. *)
Lemma cwnd_packets_range p :
  ca_wf p ->
  1 <= tcp_cubic_cwnd_packets p < 2 ^ 32 /\
  tcp_cubic_cwnd_packets p * tcp_ca_mss p <= snd_cwnd p /\
  snd_cwnd p < (tcp_cubic_cwnd_packets p + 1) * tcp_ca_mss p.
Proof.
  intros (Hm&Hc&_). pose proof (tcp_ca_mss_range _ Hm).
  unfold tcp_cubic_cwnd_packets. set (m := tcp_ca_mss p) in *. clearbody m.
  assert (1 <= snd_cwnd p / m) by (apply Z.div_le_lower_bound; lia).
  rewrite Z.max_l by lia.
  pose proof (Z.mul_div_le (snd_cwnd p) m). pose proof (Z.mul_succ_div_gt (snd_cwnd p) m).
  split; [|lia]. split; [lia|]. apply Z.div_lt_upper_bound; nia.
Qed.

Definition clamp_cwnd (bytes mss : Z) : Z := Z.max (Z.min bytes UINT32_MAX) mss.

(** [tcp_cubic_set_cwnd_packets] sets [packets] segments, clamped. *)
Lemma tcp_cubic_set_cwnd_packets_untimed c packets :
  0 <= packets * tcp_ca_mss (pcb c) < 2 ^ 64 ->
  untimed (tcp_cubic_set_cwnd_packets c packets) =
  untimed (c <|p snd_cwnd := clamp_cwnd (packets * tcp_ca_mss (pcb c)) (tcp_ca_mss (pcb c)) |>).
Proof.
  intros Hp. unfold tcp_cubic_set_cwnd_packets. rewrite tcp_ca_set_cwnd_untimed.
  rewrite (wrap_id 64) by done. destruct (clamp32 (packets * tcp_ca_mss (pcb c))) as [->|]; [done|lia].
Qed.

Lemma clamp_cwnd_range bytes mss :
  1 <= mss < 2 ^ 32 -> mss <= clamp_cwnd bytes mss < 2 ^ 32.
Proof. unfold clamp_cwnd, UINT32_MAX. lia. Qed.

Lemma tcp_cubic_k_ms_range d : is_u32 (tcp_cubic_k_ms d).
Proof.
  unfold tcp_cubic_k_ms.
  match goal with |- is_u 32 (tcp_cubic_root ?v) => pose proof (tcp_cubic_root_ok v) as Hr end.
  cbn zeta in Hr. unfold is_u. destruct Hr as [Hr _]; [|lia].
  unfold UINT64_MAX, CUBIC_C_NUM. unfold is_u. case_if; [zlia|].
  match goal with |- context [u64 ?x] => pose proof (wrap_range 64 x ltac:(lia)) as Hw end.
  unfold is_u in Hw. zlia.
Qed.

Lemma tcp_cubic_epoch_ok b now cwnd acked :
  cubic_wf b -> is_u32 cwnd -> is_u32 acked ->
  let b' := tcp_cubic_epoch b now cwnd acked in
  cubic_wf b' /\ cwnd_cnt b' = cwnd_cnt b /\ acked_bytes b' = acked_bytes b.
Proof.
  intros Hb Hc Ha. unfold tcp_cubic_epoch, cubic_wf in *.
  pose proof (saturating_range (ack_cnt b) acked).
  repeat case_if; rsimpl in *; split_and!; try tauto; try done; apply tcp_cubic_k_ms_range.
Qed.

Lemma tcp_cubic_friendly_ok b cwnd :
  cubic_wf b -> is_u32 cwnd -> is_u32 (cnt b) ->
  let b' := tcp_cubic_friendly b cwnd in
  cubic_wf b' /\ cwnd_cnt b' = cwnd_cnt b /\ acked_bytes b' = acked_bytes b /\
  2 <= cnt b' < 2 ^ 32.
Proof.
  intros Hb Hc Hn. unfold tcp_cubic_friendly, cubic_wf, is_u in *.
  repeat case_if; rsimpl; split_and!; try tauto; try lia;
    try apply (wrap_range 32); try apply saturating_range; try lia.
Qed.

Lemma tcp_cubic_update_ok b now cwnd acked :
  cubic_wf b -> 1 <= cwnd < 2 ^ 32 -> is_u32 acked ->
  let b' := tcp_cubic_update b now cwnd acked in
  cubic_wf b' /\ cwnd_cnt b' = cwnd_cnt b /\ acked_bytes b' = acked_bytes b /\
  2 <= cnt b' < 2 ^ 32.
Proof.
  intros Hb Hc Ha. assert (Hc' : is_u32 cwnd) by (unfold is_u; lia).
  destruct (tcp_cubic_epoch_ok b now cwnd acked Hb Hc' Ha) as (He&Hcc&Hab).
  unfold tcp_cubic_update. set (e := tcp_cubic_epoch b now cwnd acked) in *. clearbody e.
  set (e1 := if cwnd <? _ then _ else _).
  assert (H1 : cubic_wf e1 /\ cwnd_cnt e1 = cwnd_cnt b /\ acked_bytes e1 = acked_bytes b
               /\ is_u32 (cnt e1)).
  { subst e1. unfold cubic_wf in *. case_if; rsimpl; split_and!; try tauto.
    - unfold is_u. split; [lia|]. apply Z.max_lub_lt; [|lia].
      set (w := u32 _). assert (0 <= w) by (apply (wrap_range 32); lia). clearbody w.
      destruct (decide (w = 0)) as [->|]; [rewrite Z.div_0_r; lia|].
      apply Z.div_lt_upper_bound; nia.
    - apply saturating_range. }
  clearbody e1. destruct H1 as (Hw1&Hc1&Ha1&Hn1).
  case_if; [|destruct (tcp_cubic_friendly_ok e1 cwnd Hw1 Hc' Hn1) as (?&?&?&?);
    split_and!; try done; try congruence; lia].
  destruct (tcp_cubic_friendly_ok (e1 <| cnt := 20 |>) cwnd) as (?&Hx&Hy&?); try done.
  rsimpl in Hx. rsimpl in Hy. split_and!; try done; try lia; congruence.
Qed.

Lemma ca_wf_untimed c c' : untimed c = untimed c' -> ca_wf (pcb c) -> ca_wf (pcb c').
Proof. intros He H. change (ca_wf (pcb (untimed c'))). by rewrite <- He. Qed.

(** One step of congestion avoidance: the window grows by [inc] segments paid
    for, at the rate of at least two, by the ACK credits. *)
Lemma tcp_cubic_avoid_ok c acked :
  ca_wf (pcb c) -> is_u32 acked ->
  exists inc b, 0 <= inc /\ cubic_wf b /\ acked_bytes b = acked_bytes (cubic (pcb c)) /\
    2 * inc + cwnd_cnt b <= cwnd_cnt (cubic (pcb c)) + acked /\
    untimed (tcp_cubic_avoid c acked) =
    untimed (c <|p cubic := b |>
               <|p snd_cwnd := if inc =? 0 then snd_cwnd (pcb c)
                     else clamp_cwnd ((tcp_cubic_cwnd_packets (pcb c) + inc) * tcp_ca_mss (pcb c))
                            (tcp_ca_mss (pcb c)) |>).
Proof.
  intros Hwf Ha. destruct (cwnd_packets_range _ Hwf) as (Hp1&Hp2&_).
  destruct Hwf as (Hm&Hc&Ht&Hb). pose proof (tcp_ca_mss_range _ Hm) as Hmr.
  unfold tcp_cubic_avoid.
  destruct (tcp_cubic_update_ok (cubic (pcb c)) (get_current_time_ms c)
    (tcp_cubic_cwnd_packets (pcb c)) acked Hb Hp1 Ha) as (Hw&Hcc&Hab&Hcnt).
  set (b := tcp_cubic_update _ _ _ _) in *. clearbody b. rewrite <- Hcc.
  assert (Hcu : is_u32 (cwnd_cnt b)) by apply Hw. unfold is_u in Ha, Hcu.
  rewrite (wrap_id 64) by (unfold is_u; lia).
  set (t := cwnd_cnt b + acked).
  assert (Hdm : cnt b * (t / cnt b) + t mod cnt b = t) by (symmetry; apply Z.div_mod; lia).
  assert (Hmb := Z.mod_pos_bound t (cnt b) ltac:(lia)).
  assert (Hd0 : 0 <= t / cnt b) by (apply Z.div_pos; lia).
  set (q := t / cnt b) in *. set (r := t mod cnt b) in *. clearbody q r.
  assert (Hq : 2 * q + r <= t) by nia.
  rewrite (wrap_id 32 q), (wrap_id 32 r) by (unfold is_u; lia).
  exists q, (b <| cwnd_cnt := r |>).
  split; [done|]. split; [unfold cubic_wf, is_u in *; rsimpl; intuition lia|].
  split; [done|]. split; [rsimpl; lia|].
  destruct (Z.eqb_spec q 0); [by subst; destruct c as [[] ? ?]|].
  set (k := tcp_cubic_cwnd_packets (pcb c)) in *. clearbody k.
  rewrite tcp_cubic_set_cwnd_packets_untimed; [done|].
  change (tcp_ca_mss (pcb (c <|p cubic := _ |>))) with (tcp_ca_mss (pcb c)). nia.
Qed.

(** Slow start: one segment per acknowledged segment, never past the
    threshold. *)
Lemma tcp_cubic_slow_start_ok c acked :
  ca_wf (pcb c) -> is_u32 acked -> acked * tcp_ca_mss (pcb c) < 2 ^ 34 ->
  let n := tcp_cubic_cwnd_packets (pcb c) in
  let m := tcp_ca_mss (pcb c) in
  let thr := Z.max (snd_ssthresh (pcb c) / m) 2 in
  (tcp_cubic_slow_start c acked = (acked, c) /\ thr <= n) \/
  exists inc c', 0 <= inc <= acked /\ n + inc <= thr /\
    tcp_cubic_slow_start c acked = (acked - inc, c') /\
    untimed c' = untimed (c <|p snd_cwnd := clamp_cwnd ((n + inc) * m) m |>).
Proof.
  intros Hwf Ha Hb. cbn zeta. unfold is_u in Ha.
  destruct (cwnd_packets_range _ Hwf) as (Hp1&Hp2&_).
  destruct Hwf as (Hm&Hc&Ht&_). pose proof (tcp_ca_mss_range _ Hm) as Hmr.
  unfold tcp_cubic_slow_start.
  set (n := tcp_cubic_cwnd_packets (pcb c)) in *.
  set (thr := Z.max (snd_ssthresh (pcb c) / tcp_ca_mss (pcb c)) 2) in *.
  case_if; bool_prop; [left; done|]. right.
  exists (Z.min acked (thr - n)), (tcp_cubic_set_cwnd_packets c (n + Z.min acked (thr - n))).
  split; [lia|]. split; [lia|]. split.
  - rewrite wrap_id; [done|]. unfold is_u. lia.
  - apply tcp_cubic_set_cwnd_packets_untimed. nia.
Qed.

Lemma ca_wf_set_cwnd c w b :
  ca_wf (pcb c) -> tcp_ca_mss (pcb c) <= w < 2 ^ 32 -> cubic_wf b ->
  ca_wf (pcb (c <|p cubic := b |> <|p snd_cwnd := w |>)).
Proof. intros (?&?&?&?) Hw Hb. unfold ca_wf. rsimpl. done. Qed.

Lemma ca_wf_cubic c b :
  ca_wf (pcb c) -> cubic_wf b -> ca_wf (pcb (c <|p cubic := b |>)).
Proof. intros (?&?&?&?) Hb. refine (conj _ (conj _ (conj _ _))); done. Qed.

Lemma tcp_cubic_avoid_wf c acked :
  ca_wf (pcb c) -> is_u32 acked -> ca_wf (pcb (tcp_cubic_avoid c acked)).
Proof.
  intros Hwf Ha. destruct (tcp_cubic_avoid_ok c acked Hwf Ha) as (inc&b&?&?&?&?&He).
  eapply ca_wf_untimed; [symmetry; exact He|].
  apply ca_wf_set_cwnd; [done| |done]. destruct Hwf as (Hm&?&_).
  case_if; [done|]. apply clamp_cwnd_range. pose proof (tcp_ca_mss_range _ Hm). lia.
Qed.

Lemma ca_wf_cwnd_untimed c c' w :
  ca_wf (pcb c) -> untimed c' = untimed (c <|p snd_cwnd := w |>) ->
  tcp_ca_mss (pcb c) <= w < 2 ^ 32 -> ca_wf (pcb c').
Proof.
  intros (?&?&?&?) He Hw. eapply ca_wf_untimed; [symmetry; exact He|].
  unfold ca_wf. rsimpl. done.
Qed.

Lemma tcp_cubic_cong_avoid_wf c acked :
  ca_wf (pcb c) -> is_u32 acked -> acked * tcp_ca_mss (pcb c) < 2 ^ 34 ->
  ca_wf (pcb (tcp_cubic_cong_avoid c acked)).
Proof.
  intros Hwf Ha Hb. unfold tcp_cubic_cong_avoid, is_u in *.
  case_if; [|by apply tcp_cubic_avoid_wf].
  destruct (tcp_cubic_slow_start_ok c acked Hwf Ha Hb)
    as [[-> _]|(inc&c'&Hi&_&->&He)].
  - case_if; [done|]. by apply tcp_cubic_avoid_wf.
  - assert (Hwf' : ca_wf (pcb c')).
    { eapply ca_wf_cwnd_untimed; [exact Hwf|exact He|]. apply clamp_cwnd_range.
      destruct Hwf as (Hm&_). pose proof (tcp_ca_mss_range _ Hm). lia. }
    case_if; [done|]. apply tcp_cubic_avoid_wf; [done|]. unfold is_u. lia.
Qed.

Lemma ca_set_cwnd_wf c n :
  ca_wf (pcb c) -> is_u32 n -> ca_wf (pcb (tcp_ca_set_cwnd c n)).
Proof.
  intros Hwf Hn. eapply ca_wf_cwnd_untimed; [exact Hwf|apply tcp_ca_set_cwnd_untimed|].
  unfold is_u in Hn. destruct Hwf as (Hm&_). pose proof (tcp_ca_mss_range _ Hm). lia.
Qed.

(** Multiplicative decrease: 717/1024 of the window in segments, at least
    two segments. *)
Lemma recalc_ssthresh_ok p :
  ca_wf p ->
  let '(thr, p') := tcp_cubic_recalc_ssthresh p in
  thr = Z.min (Z.max (tcp_cubic_cwnd_packets p * 717 / 1024) 2 * tcp_ca_mss p) UINT32_MAX /\
  cubic_wf (cubic p') /\ p' = p <| cubic := cubic p' |>.
Proof.
  intros Hwf. destruct (cwnd_packets_range _ Hwf) as (Hp1&Hp2&_).
  destruct Hwf as (Hm&_&_&Hb). pose proof (tcp_ca_mss_range _ Hm) as Hmr.
  unfold tcp_cubic_recalc_ssthresh, CUBIC_BETA, CUBIC_BETA_SCALE.
  set (n := tcp_cubic_cwnd_packets p) in *. set (m := tcp_ca_mss p) in *.
  rewrite !(wrap_id 64 (n * _)) by (unfold is_u; lia).
  rewrite !(wrap_id 32 (n * _ / _)) by (unfold is_u; zlia).
  assert (0 <= n * 717 / 1024 <= n) by zlia.
  rewrite (wrap_id 64) by (unfold is_u; nia).
  split_and!; [destruct (clamp32 (Z.max (n * 717 / 1024) 2 * m)) as [->|]; [done|nia]| |done].
  unfold cubic_wf in *. rsimpl. case_if; rsimpl; split_and!; try tauto; unfold is_u; try zlia.
Qed.

Lemma ca_enter_ok p :
  ca_wf p ->
  let p' := ca_enter p in
  ca_wf p' /\ ca_recovery_seq p' = snd_nxt p /\ snd_cwnd p' = snd_cwnd p /\
  snd_mss p' = snd_mss p /\ snd_ssthresh p' =
    Z.min (Z.max (tcp_cubic_cwnd_packets p * 717 / 1024) 2 * tcp_ca_mss p) UINT32_MAX.
Proof.
  intros Hwf. cbn zeta. unfold ca_enter. cbn zeta.
  assert (Hwf' : ca_wf (p <| ca_prior_cwnd := snd_cwnd p |>)) by exact Hwf.
  pose proof (recalc_ssthresh_ok _ Hwf') as Hr.
  destruct (tcp_cubic_recalc_ssthresh _) as [thr p'] eqn:E. destruct Hr as (Ht&Hb&Hp).
  rewrite Hp. destruct Hwf as (Hm&Hc&_&_). unfold ca_wf. rsimpl.
  pose proof (tcp_ca_mss_range _ Hm) as Hmr. pose proof (cwnd_packets_range p) as Hcp.
  split_and!; try done; try apply Hc; rewrite Ht; change (tcp_ca_mss (p <| ca_prior_cwnd := snd_cwnd p |>))
    with (tcp_ca_mss p); unfold UINT32_MAX, is_u; try lia.
Qed.

(** *** Lemmas: the three entry points *)

Lemma ca_wf_ca_state c s :
  ca_wf (pcb c) -> ca_wf (pcb (c <|p ca_state := s |>)).
Proof. intros (?&?&?&?). refine (conj _ (conj _ (conj _ _))); done. Qed.

Lemma ca_wf_enter c : ca_wf (pcb c) -> ca_wf (pcb (c <| pcb ::= ca_enter |>)).
Proof. intros Hwf. rsplit. by apply (ca_enter_ok (pcb c)). Qed.

Lemma take_acked_ok c acked :
  ca_wf (pcb c) -> is_u32 acked ->
  let '(n, c') := tcp_cubic_take_acked_packets c acked in
  is_u32 n /\ n * tcp_ca_mss (pcb c) <= acked_bytes (cubic (pcb c)) + acked /\
  ca_wf (pcb c') /\ tcp_ca_mss (pcb c') = tcp_ca_mss (pcb c).
Proof.
  intros (Hm&Hc&Ht&Hb) Ha. unfold tcp_cubic_take_acked_packets.
  pose proof (tcp_ca_mss_range _ Hm) as Hmr.
  assert (Hab : is_u32 (acked_bytes (cubic (pcb c)))) by apply Hb.
  unfold is_u in Ha, Hab. rewrite (wrap_id 64) by (unfold is_u; lia).
  set (t := acked_bytes (cubic (pcb c)) + acked) in *.
  set (m := tcp_ca_mss (pcb c)) in *.
  assert (H1 := Z.mul_div_le t m ltac:(lia)). assert (0 <= t / m) by (apply Z.div_pos; lia).
  assert (H2 := Z.mod_pos_bound t m ltac:(lia)).
  destruct (clamp32 (t / m)) as [->|]; [|lia]. unfold UINT32_MAX.
  split; [unfold is_u; lia|]. split; [nia|]. split; [|done].
  unfold ca_wf, cubic_wf in *. rsimpl. split_and!; try tauto; try apply Hc.
  apply (wrap_range 32). lia.
Qed.

Lemma tcp_congestion_on_ack_wf c acked limited :
  ca_wf (pcb c) -> is_u32 acked ->
  ca_wf (pcb (snd (tcp_congestion_on_ack c acked limited))).
Proof.
  intros Hwf Ha. unfold tcp_congestion_on_ack.
  destruct (ca_state (pcb c)) eqn:Hca.
  { case_if; [|done]. pose proof (take_acked_ok c acked Hwf Ha) as Ht.
    destruct (tcp_cubic_take_acked_packets c acked) as [n c'].
    destruct Ht as (Hn&Hnm&Hwf'&Hmss). cbn [snd]. case_if; [done|].
    apply tcp_cubic_cong_avoid_wf; [done..|]. rewrite Hmss.
    destruct Hwf as (_&_&_&_&_&_&_&_&Hab&_). unfold is_u in *. lia. }
  all: case_if; cbn [snd]; [|try done].
  all: try (apply ca_set_cwnd_wf; [done|apply saturating_range]).
  all: assert (Hs : ca_wf (pcb (tcp_ca_set_cwnd c (snd_ssthresh (pcb c)))))
         by (apply ca_set_cwnd_wf; [done|apply Hwf]).
  all: apply ca_wf_cubic; [exact Hs|].
  all: destruct Hs as (_&_&_&Hb); unfold cubic_wf in *; rsimpl; split_and!; try tauto; done.
Qed.

Lemma tcp_congestion_on_dup_wf c n :
  ca_wf (pcb c) -> ca_wf (pcb (snd (tcp_congestion_on_duplicate_ack c n))).
Proof.
  intros Hwf. unfold tcp_congestion_on_duplicate_ack.
  case_if; [|case_if; [|done]]; cbn [snd].
  - apply ca_set_cwnd_wf; [|apply saturating_range].
    apply ca_wf_ca_state, ca_wf_enter, Hwf.
  - apply ca_set_cwnd_wf; [done|apply saturating_range].
Qed.

Lemma tcp_congestion_on_timeout_wf c :
  ca_wf (pcb c) -> ca_wf (pcb (tcp_congestion_on_timeout c)).
Proof.
  intros Hwf. unfold tcp_congestion_on_timeout.
  set (c1 := match ca_state (pcb c) with NET_TCP_CA_OPEN => _ | _ => _ end).
  assert (H1 : ca_wf (pcb c1)).
  { subst c1. destruct (ca_state (pcb c)); [|done..]. apply ca_wf_enter, Hwf. }
  clearbody c1. set (c2 := tcp_ca_set_cwnd _ _).
  assert (H2 : ca_wf (pcb c2)).
  { apply ca_set_cwnd_wf; [by apply ca_wf_ca_state|]. destruct H1 as (Hm&_).
    pose proof (tcp_ca_mss_range _ Hm). unfold is_u. rsimpl.
    change (tcp_ca_mss _) with (tcp_ca_mss (pcb c1)). lia. }
  apply ca_wf_cubic; done.
Qed.

Lemma tcp_congestion_init_wf p :
  is_u 31 (snd_mss p) -> ca_wf (tcp_congestion_init p).
Proof.
  intros Hm. pose proof (tcp_ca_mss_range _ Hm). unfold tcp_congestion_init, CUBIC_INITIAL_WINDOW.
  rewrite (wrap_id 64) by (unfold is_u; lia).
  destruct (clamp32 (10 * tcp_ca_mss p)) as [->|]; [|lia].
  unfold ca_wf, cubic_wf, UINT32_MAX. rsimpl.
  change (tcp_ca_mss _) with (tcp_ca_mss p). unfold is_u in *. cbn. lia.
Qed.

(** Events the input and timer paths report to the controller. *)
Inductive ca_event :=
  | CA_ack (acked : Z) (was_cwnd_limited : bool)
  | CA_duplicate_ack (count : Z)
  | CA_timeout.

Definition ca_step (c : conn) (e : ca_event) : conn :=
  match e with
  | CA_ack acked limited => snd (tcp_congestion_on_ack c acked limited)
  | CA_duplicate_ack n => snd (tcp_congestion_on_duplicate_ack c n)
  | CA_timeout => tcp_congestion_on_timeout c
  end.

Definition ca_event_ok (e : ca_event) : Prop :=
  match e with CA_ack acked _ => is_u32 acked | _ => True end.

Lemma cwnd_packets_clamp n m :
  1 <= m -> 1 <= n -> Z.max (clamp_cwnd (n * m) m / m) 1 <= n.
Proof.
  intros Hm Hn. apply Z.max_lub; [|done].
  apply Z.div_le_upper_bound; [lia|]. unfold clamp_cwnd.
  assert (m <= m * n) by nia. lia.
Qed.

(** Twice the window in segments plus the unspent ACK credits. *)
Definition ca_potential (p : tcp_pcb) : Z :=
  2 * tcp_cubic_cwnd_packets p + cwnd_cnt (cubic p).

Lemma ca_potential_set c b w :
  ca_potential (pcb (untimed (c <|p cubic := b |> <|p snd_cwnd := w |>))) =
  2 * Z.max (w / tcp_ca_mss (pcb c)) 1 + cwnd_cnt b.
Proof. done. Qed.

Lemma ca_potential_untimed c : ca_potential (pcb (untimed c)) = ca_potential (pcb c).
Proof. done. Qed.

Lemma tcp_cubic_avoid_potential c acked :
  ca_wf (pcb c) -> is_u32 acked ->
  ca_potential (pcb (tcp_cubic_avoid c acked)) <= ca_potential (pcb c) + acked.
Proof.
  intros Hwf Ha. destruct (tcp_cubic_avoid_ok c acked Hwf Ha) as (inc&b&Hi&_&_&Hc&He).
  destruct (cwnd_packets_range _ Hwf) as (Hp&_). destruct Hwf as (Hm&_).
  rewrite <- ca_potential_untimed, He, ca_potential_set. unfold ca_potential.
  pose proof (tcp_ca_mss_range _ Hm) as Hmr. destruct (Z.eqb_spec inc 0) as [->|].
  - unfold tcp_cubic_cwnd_packets in *. lia.
  - pose proof (cwnd_packets_clamp (tcp_cubic_cwnd_packets (pcb c) + inc)
      (tcp_ca_mss (pcb c)) ltac:(lia) ltac:(lia)). lia.
Qed.

Lemma ca_set_cwnd_fields c n :
  let c' := tcp_ca_set_cwnd c n in
  snd_cwnd (pcb c') = Z.max n (tcp_ca_mss (pcb c)) /\
  snd_ssthresh (pcb c') = snd_ssthresh (pcb c) /\ ca_state (pcb c') = ca_state (pcb c) /\
  ca_recovery_seq (pcb c') = ca_recovery_seq (pcb c) /\
  tcp_ca_mss (pcb c') = tcp_ca_mss (pcb c).
Proof.
  pose proof (tcp_ca_set_cwnd_untimed c n) as He. cbn zeta.
  set (c' := tcp_ca_set_cwnd c n) in *. clearbody c'.
  split_and!; [untimed_field He (fun c => snd_cwnd (pcb c))
    |untimed_field He (fun c => snd_ssthresh (pcb c))
    |untimed_field He (fun c => ca_state (pcb c))
    |untimed_field He (fun c => ca_recovery_seq (pcb c))
    |untimed_field He (fun c => tcp_ca_mss (pcb c))].
Qed.

Lemma dup_ack_enter c :
  ca_wf (pcb c) -> ca_state (pcb c) = NET_TCP_CA_OPEN ->
  exists c1, tcp_congestion_on_duplicate_ack c 3 = (true, c1) /\
    ca_state (pcb c1) = NET_TCP_CA_RECOVERY /\
    ca_recovery_seq (pcb c1) = snd_nxt (pcb c) /\
    snd_ssthresh (pcb c1) = Z.min (Z.max (tcp_cubic_cwnd_packets (pcb c) * 717 / 1024) 2
                                   * tcp_ca_mss (pcb c)) UINT32_MAX /\
    snd_cwnd (pcb c1) = Z.min (snd_ssthresh (pcb c1) + 3 * tcp_ca_mss (pcb c)) UINT32_MAX /\
    tcp_ca_mss (pcb c1) = tcp_ca_mss (pcb c).
Proof.
  intros Hwf Hopen. unfold tcp_congestion_on_duplicate_ack. rewrite Hopen.
  rewrite bool_decide_eq_true_2 by done. cbn [Z.eqb Pos.eqb andb].
  destruct (ca_enter_ok _ Hwf) as ((Hm&_)&Hrec&_&Hmss&Hthr).
  set (p1 := ca_enter (pcb c)) in *.
  set (c0 := c <| pcb ::= ca_enter |> <|p ca_state := NET_TCP_CA_RECOVERY |>).
  assert (Hc0 : pcb c0 = p1 <| ca_state := NET_TCP_CA_RECOVERY |>) by done.
  assert (Hmss0 : tcp_ca_mss (pcb c0) = tcp_ca_mss (pcb c))
    by (rewrite Hc0; unfold tcp_ca_mss; rsimpl; by rewrite Hmss).
  pose proof (tcp_ca_mss_range _ Hm) as Hmr.
  assert (Hmr' : 1 <= tcp_ca_mss (pcb c) < 2 ^ 31)
    by (apply tcp_ca_mss_range; apply Hwf).
  eexists. split; [reflexivity|].
  destruct (ca_set_cwnd_fields c0 (tcp_ca_saturating_add (snd_ssthresh (pcb c0))
    (3 * tcp_ca_mss (pcb c0)))) as (Hcw&Hth'&Hst'&Hrec'&Hm').
  rewrite Hcw, Hth', Hst', Hrec', Hm', Hmss0, Hc0. rsimpl.
  destruct (cwnd_packets_range _ Hwf) as (Hp&_).
  rewrite Hrec, Hthr. unfold UINT32_MAX in *.
  rewrite saturating_exact by (unfold UINT32_MAX; lia). unfold UINT32_MAX.
  split_and!; try done. lia.
Qed.

(** *** Properties *)

(** [tcp_cubic_root] is the integer cube root.  For every [uint64_t] the
    binary search ends within 23 rounds and returns the [r] with
    [r^3 <= value < (r+1)^3]. *)
Theorem tcp_cubic_root_correct value :
  is_u64 value ->
  tcp_cubic_root_loop ROOT_FUEL value 0 2642245 = Some (tcp_cubic_root value) /\
  tcp_cubic_root value ^ 3 <= value < (tcp_cubic_root value + 1) ^ 3.
Proof.
  intros Hv. destruct (tcp_cubic_root_ok value Hv) as [Hr Hc]. unfold is_u in Hv. split.
  - destruct (tcp_cubic_root_loop_ok 22 value 0 2642245) as (r&He&_); try lia.
    unfold tcp_cubic_root, ROOT_FUEL. by rewrite He.
  - assert (H3 : forall x, x ^ 3 = x * x * x) by (intros; ring). rewrite !H3. lia.
Qed.

Lemma tcp_cubic_root_correct_witness :
  tcp_cubic_root 7499999999 = 1957 /\
  1957 ^ 3 <= 7499999999 < (1957 + 1) ^ 3.
Proof.
  split; [vm_compute; reflexivity|].
  apply (tcp_cubic_root_correct 7499999999). unfold is_u. lia.
Defined.

(** the congestion window is always at least one segment and never
    overflows.  From the initial state of [tcp_congestion_init], whatever
    sequence of ACKs, duplicate ACKs and timeouts is reported, [snd_cwnd]
    stays in [MSS, 2^32), [snd_ssthresh] and every CUBIC counter stays a
    [uint32_t], and the divisor [cnt] used for window growth is at least 2. *)
Theorem congestion_window_invariant c events :
  is_u 31 (snd_mss (pcb c)) -> Forall ca_event_ok events ->
  let c' := foldl ca_step (c <| pcb ::= tcp_congestion_init |>) events in
  tcp_ca_mss (pcb c') <= snd_cwnd (pcb c') < 2 ^ 32 /\
  is_u32 (snd_ssthresh (pcb c')) /\ cubic_wf (cubic (pcb c')) /\
  (forall acked, is_u32 acked ->
     2 <= cnt (tcp_cubic_update (cubic (pcb c')) (now (ev c'))
                 (tcp_cubic_cwnd_packets (pcb c')) acked)).
Proof.
  intros Hm Hev c'.
  assert (Hwf : ca_wf (pcb c')).
  { subst c'. assert (H0 : ca_wf (pcb (c <| pcb ::= tcp_congestion_init |>)))
      by (rsplit; by apply tcp_congestion_init_wf).
    revert H0. generalize (c <| pcb ::= tcp_congestion_init |>). clear c Hm.
    induction Hev as [|e events He _ IH]; intros c Hwf; [done|]. apply IH.
    destruct e; cbn in He |- *.
    - by apply tcp_congestion_on_ack_wf.
    - by apply tcp_congestion_on_dup_wf.
    - by apply tcp_congestion_on_timeout_wf. }
  clearbody c'. destruct (cwnd_packets_range _ Hwf) as (Hp&_).
  destruct Hwf as (?&?&?&Hb). split_and!; try done; try lia.
  intros acked Ha. apply (tcp_cubic_update_ok _ (now (ev c')) _ _ Hb Hp Ha).
Qed.

Definition ca_conn (mss t : Z) : conn :=
  mk_conn (pcb_zero <| snd_mss := mss |>) socket_zero (env_zero <| now := t |>).

Lemma congestion_window_invariant_witness :
  let c' := foldl ca_step ((ca_conn 1448 5000) <| pcb ::= tcp_congestion_init |>)
              [CA_ack 28960 true; CA_duplicate_ack 3; CA_duplicate_ack 4; CA_timeout] in
  snd_cwnd (pcb c') = 1448 /\
  tcp_ca_mss (pcb c') <= snd_cwnd (pcb c') < 2 ^ 32.
Proof.
  split; [vm_compute; reflexivity|].
  apply (congestion_window_invariant (ca_conn 1448 5000)
    [CA_ack 28960 true; CA_duplicate_ack 3; CA_duplicate_ack 4; CA_timeout]).
  - unfold is_u. cbn. lia.
  - repeat constructor; unfold is_u; lia.
Defined.

(** window growth is paid for by ACKs.  Over any run of ACKs in
    congestion avoidance, at any times, the window grows by at most one
    segment per two acknowledged segments (counting the credits left over
    from before the run). *)
Theorem congestion_avoidance_growth c acks :
  ca_wf (pcb c) -> Forall (fun '(t, acked) => is_u32 acked) acks ->
  let c' := foldl (fun c '(t, acked) => tcp_cubic_avoid (c <|e now := t |>) acked) c acks in
  2 * tcp_cubic_cwnd_packets (pcb c') + cwnd_cnt (cubic (pcb c')) <=
  2 * tcp_cubic_cwnd_packets (pcb c) + cwnd_cnt (cubic (pcb c))
  + foldr (fun '(t, acked) s => acked + s) 0 acks.
Proof.
  intros Hwf Ha. cbn zeta. fold (ca_potential (pcb c)).
  match goal with |- 2 * tcp_cubic_cwnd_packets ?p + _ <= _ => fold (ca_potential p) end.
  revert c Hwf. induction Ha as [|[t acked] acks Hk _ IH]; intros c Hwf; [cbn; lia|].
  cbn [foldl foldr].
  assert (Hwf' : ca_wf (pcb (c <|e now := t |>))) by exact Hwf.
  pose proof (tcp_cubic_avoid_potential _ acked Hwf' Hk) as Hp.
  specialize (IH _ (tcp_cubic_avoid_wf _ acked Hwf' Hk)).
  change (ca_potential (pcb (c <|e now := t |>))) with (ca_potential (pcb c)) in Hp. lia.
Qed.

Lemma congestion_avoidance_growth_witness :
  let c := (ca_conn 1000 5) <| pcb ::= tcp_congestion_init |> in
  let acks := [(10, 10); (40, 12); (90, 11)] in
  let c' := foldl (fun c '(t, acked) => tcp_cubic_avoid (c <|e now := t |>) acked) c acks in
  tcp_cubic_cwnd_packets (pcb c') = 12 /\
  2 * tcp_cubic_cwnd_packets (pcb c') + cwnd_cnt (cubic (pcb c')) <=
  2 * tcp_cubic_cwnd_packets (pcb c) + cwnd_cnt (cubic (pcb c))
  + foldr (fun '(t, acked) s => acked + s) 0 acks.
Proof.
  intros c acks c'. split; [vm_compute; reflexivity|].
  apply (congestion_avoidance_growth c acks).
  - apply tcp_congestion_init_wf. unfold is_u. cbn. lia.
  - repeat constructor; unfold is_u; lia.
Defined.

(** fast recovery.  On the third duplicate ACK in the open state the
    controller asks for a retransmission, remembers [snd_nxt] as the recovery
    point, sets the threshold to 717/1024 of the window (in segments, at
    least two) and the window to the threshold plus three segments.  Until
    the recovery point is acknowledged every partial ACK asks for another
    retransmission; the ACK that covers it deflates the window to the
    threshold and reopens. *)
Theorem fast_recovery_cycle c una acked limited :
  ca_wf (pcb c) -> ca_state (pcb c) = NET_TCP_CA_OPEN ->
  let '(retransmit, c1) := tcp_congestion_on_duplicate_ack c 3 in
  let m := tcp_ca_mss (pcb c) in
  retransmit = true /\ ca_state (pcb c1) = NET_TCP_CA_RECOVERY /\
  ca_recovery_seq (pcb c1) = snd_nxt (pcb c) /\
  snd_ssthresh (pcb c1) =
    Z.min (Z.max (tcp_cubic_cwnd_packets (pcb c) * 717 / 1024) 2 * m) UINT32_MAX /\
  snd_cwnd (pcb c1) = Z.min (snd_ssthresh (pcb c1) + 3 * m) UINT32_MAX /\
  let '(again, c2) := tcp_congestion_on_ack (c1 <|p snd_una := una |>) acked limited in
  again = SEQ_LT una (snd_nxt (pcb c)) /\
  (again = true -> ca_state (pcb c2) = NET_TCP_CA_RECOVERY) /\
  (again = false -> ca_state (pcb c2) = NET_TCP_CA_OPEN /\
                    snd_cwnd (pcb c2) = Z.max (snd_ssthresh (pcb c1)) m).
Proof.
  intros Hwf Hopen.
  destruct (dup_ack_enter c Hwf Hopen) as (c1&->&Hst&Hrec&Hthr&Hcw&Hmss). cbn zeta.
  rewrite Hst, Hrec, Hcw, Hthr. do 5 (split; [done|]).
  unfold tcp_congestion_on_ack. rsimpl. rewrite Hst, Hrec, SEQ_LT_GEQ.
  destruct (SEQ_LT una (snd_nxt (pcb c))); cbn [negb]; (split; [done|]).
  - split; [|done]. intros _.
    match goal with |- ca_state (pcb (tcp_ca_set_cwnd ?a ?n)) = _ =>
      destruct (ca_set_cwnd_fields a n) as (_&_&->&_) end. exact Hst.
  - split; [done|]. intros _. split; [done|].
    match goal with |- context [tcp_ca_set_cwnd ?a ?n] =>
      destruct (ca_set_cwnd_fields a n) as (Hc&_) end.
    etrans; [exact Hc|]. rewrite <- Hthr, <- Hmss. done.
Qed.

Lemma fast_recovery_cycle_witness :
  let c := (ca_conn 1000 5) <| pcb ::= tcp_congestion_init |> <|p snd_nxt := 10000 |> in
  let '(retransmit, c1) := tcp_congestion_on_duplicate_ack c 3 in
  snd_ssthresh (pcb c1) = 7000 /\ retransmit = true /\
  ca_recovery_seq (pcb c1) = snd_nxt (pcb c).
Proof.
  intros c.
  assert (Hwf : ca_wf (pcb c)) by (vm_compute; repeat split; congruence).
  pose proof (fast_recovery_cycle c 4000 1000 true Hwf eq_refl) as H. revert H.
  destruct (tcp_congestion_on_duplicate_ack c 3) as [retransmit c1].
  intros (Hr&_&Hq&Ht&_). split; [|exact (conj Hr Hq)].
  rewrite Ht. vm_compute. reflexivity.
Defined.

(** A burst the bound [cnt >= 2] does not prevent per ACK: six credits saved
    up while [cnt] was 7 are spent at the rate [cnt = 2] after an idle minute,
    so acknowledging a single segment opens the window by three segments. *)
Example cubic_credit_burst :
  let c0 := (ca_conn 1000 1000) <| pcb ::= tcp_congestion_init |> in
  let c1 := ca_step (ca_step c0 (CA_duplicate_ack 3)) (CA_ack 1000 true) in
  let c2 := foldl ca_step c1 [CA_ack 6000 true] in
  let c3 := ca_step (c2 <|e now := 61000 |>) (CA_ack 1000 true) in
  tcp_cubic_cwnd_packets (pcb c2) = 7 /\ cwnd_cnt (cubic (pcb c2)) = 6 /\
  cnt (cubic (pcb c2)) = 7 /\
  tcp_cubic_cwnd_packets (pcb c3) = 10 /\ cnt (cubic (pcb c3)) = 2.
Proof. vm_compute. repeat split; reflexivity. Qed.
