(* ===== verification/TcpOptions.v ===== *)
(** TCP header options (src/main/tcp.c: [tcp_predict_options_len],
    [make_tcp_options], [parse_tcp_options]): MSS, window scale and
    timestamps.

    Option bytes are written into and read from explicit buffers; the parser
    returns [None] when it would read outside the options area or run out of
    fuel, and is proved never to do so. *)

From stdpp Require Import prelude list.
From Stdlib Require Import ZArith Lia.
From S2P Require Import Prelude TcpDefs TcpSeq TcpTimer TcpWindow TcpCongestion.

(** *** Definitions: building *)

Definition tcp_predict_options_len (p : tcp_pcb) (flags : Z) : Z :=
  let is_syn := has flags TCP_FLAG_SYN in
  (if is_syn then 8 else 0) + (if peer_ts_ok p then 12 else 0).

(** [opt_ptr[pos++] = b] on the pair of the buffer and [pos]. *)
Definition put (st : list Z * nat) (b : Z) : list Z * nat :=
  let '(buf, pos) := st in (<[pos := b]> buf, S pos).

Definition puts (st : list Z * nat) (bs : list Z) : list Z * nat := foldl put st bs.

(** [while (cond pos) opt_ptr[pos++] = 1]; the three loops of the code pad to
    a multiple of 4 or to 8, so eight rounds are enough. *)
Fixpoint pad_nop (fuel : nat) (cond : nat -> bool) (st : list Z * nat) : list Z * nat :=
  match fuel with
  | O => st
  | S f => if cond (snd st) then pad_nop f cond (put st 1) else st
  end.

(** [make_tcp_options]: the bytes pushed in front of the payload and the
    control block after it ([rcv_wnd_scale], [wnd_scale_sent]). *)
Definition make_tcp_options (p : tcp_pcb) (flags now_ms : Z) : list Z * tcp_pcb :=
  let is_syn := has flags TCP_FLAG_SYN in
  let opt_len := tcp_predict_options_len p flags in
  if opt_len =? 0 then ([], p)
  else
    let st := (replicate (Z.to_nat opt_len) 0, O) in
    let '(st, p) :=
      if is_syn then
        let st := puts st [2; 4] in
        let st := puts st (be16_bytes (u16 (rcv_mss p))) in
        if tcp_should_send_window_scale p flags then
          (puts st [1; 3; 3; TCP_RCV_WND_SCALE_DEFAULT],
           p <| rcv_wnd_scale := TCP_RCV_WND_SCALE_DEFAULT |> <| wnd_scale_sent := true |>)
        else (pad_nop 8 (fun pos => (pos <? 8)%nat) st, p)
      else (st, p) in
    let st :=
      if peer_ts_ok p then
        let st := pad_nop 8 (fun pos => negb (pos mod 4 =? 0)%nat) st in
        let st := puts st [8; 10] in
        let st := puts st (be32_bytes (u32 now_ms)) in
        puts st (be32_bytes (u32 (ts_recent p)))
      else st in
    let st := pad_nop 8 (fun pos => negb ((20 + pos) mod 4 =? 0)%nat) st in
    (fst st, p).

(** [(uint8_t)(((sizeof(tcp_hdr) + opt_len) / 4) << 4)]. *)
Definition make_doff (opt_len : Z) : Z :=
  u8 (Z.shiftl ((TCP_HDR_LEN + opt_len) / 4) 4).

(** *** Definitions: parsing *)

Definition be16 (b0 b1 : Z) : Z := 256 * b0 + b1.
Definition be32 (b0 b1 b2 b3 : Z) : Z := 16777216 * b0 + 65536 * b1 + 256 * b2 + b3.

Record parse_ctx := mk_parse_ctx {
  pc_opt : list Z;        (** bytes after the fixed header *)
  pc_len : Z;             (** [options_len] *)
  pc_flags : Z;           (** [hdr->flags] *)
  pc_handshake : bool;    (** [is_handshake] *)
  pc_now : Z
}.

(** [opt[i]], defined only inside the options area. *)
Definition opt_at (x : parse_ctx) (i : Z) : option Z :=
  if (0 <=? i) && (i <? pc_len x) then pc_opt x !! Z.to_nat i else None.

(** One option with [kind] and [len] at offset [i]: [Some (inl p)] continues,
    [Some (inr p)] is the PAWS rejection ([return -1]). *)
Definition parse_option (x : parse_ctx) (p : tcp_pcb) (i kind len : Z)
    : option (tcp_pcb + tcp_pcb) :=
  if (kind =? 2) && (len =? 4) && pc_handshake x then
    match opt_at x (i + 2), opt_at x (i + 3) with
    | Some b0, Some b1 =>
        let mss := be16 b0 b1 in
        let link_mss := rcv_mss p in
        if mss <? 64 then Some (inl p)
        else Some (inl (p <| peer_mss := mss |> <| snd_mss := Z.min mss link_mss |>
                          <| peer_mss_ok := true |>))
    | _, _ => None
    end
  else if (kind =? 3) && (len =? 3) && pc_handshake x then
    match opt_at x (i + 2) with
    | Some ws =>
        let ws := if 14 <? ws then 14 else ws in
        Some (inl (p <| snd_wnd_scale := ws |> <| peer_wnd_scale_ok := true |>))
    | None => None
    end
  else if (kind =? 8) && (len =? 10) then
    match opt_at x (i + 2), opt_at x (i + 3), opt_at x (i + 4), opt_at x (i + 5),
          opt_at x (i + 6), opt_at x (i + 7), opt_at x (i + 8), opt_at x (i + 9) with
    | Some v0, Some v1, Some v2, Some v3, Some e0, Some e1, Some e2, Some e3 =>
        let tsval := be32 v0 v1 v2 v3 in
        let tsecr := be32 e0 e1 e2 e3 in
        if peer_ts_ok p && (tsval <? ts_recent p) then Some (inr p)
        else
          let p := if has (pc_flags x) TCP_FLAG_SYN then p <| peer_ts_ok := true |> else p in
          Some (inl (p <| ts_recent := tsval |> <| ts_recent_age_ms := u32 (pc_now x) |>
                       <| ts_last_tsecr := tsecr |>))
    | _, _, _, _, _, _, _, _ => None
    end
  else Some (inl p).

(** The loop of [parse_tcp_options] from offset [i]. *)
Fixpoint parse_loop (fuel : nat) (x : parse_ctx) (p : tcp_pcb) (i : Z)
    : option (tcp_pcb + tcp_pcb) :=
  match fuel with
  | O => None
  | S f =>
      if i <? pc_len x then
        match opt_at x i with
        | None => None
        | Some kind =>
            if kind =? 0 then Some (inl p)
            else if kind =? 1 then parse_loop f x p (i + 1)
            else if pc_len x <=? i + 1 then Some (inl p)
            else
              match opt_at x (i + 1) with
              | None => None
              | Some len =>
                  if (len <? 2) || (pc_len x <? i + len) then Some (inl p)
                  else
                    match parse_option x p i kind len with
                    | Some (inl p') => parse_loop f x p' (i + len)
                    | r => r
                    end
              end
        end
      else Some (inl p)
  end.

(** [parse_tcp_options(pcb, hdr)] on the header fields [doff_res_flags] and
    [flags] and the bytes that follow: the returned code and control block. *)
Definition parse_tcp_options (p : tcp_pcb) (doff_res_flags flags : Z) (opt : list Z)
    (now_ms : Z) : option (Z * tcp_pcb) :=
  let hdr_len := Z.land (Z.shiftr doff_res_flags 4) 0x0F * 4 in
  let options_len := hdr_len - TCP_HDR_LEN in
  let is_handshake := has flags TCP_FLAG_SYN &&
    (st_eqb (state p) TCP_STATE_SYN_SENT || st_eqb (state p) TCP_STATE_SYN_RECEIVED) in
  let old_mss := snd_mss p in
  let x := mk_parse_ctx opt options_len flags is_handshake now_ms in
  match parse_loop (S (Z.to_nat options_len)) x p 0 with
  | None => None
  | Some (inr p) => Some (-1, p)
  | Some (inl p) =>
      Some (0, if is_handshake && negb (snd_mss p =? old_mss)
               then tcp_congestion_mss_changed p else p)
  end.

(** *** Lemmas: building *)

Definition mss_option (p : tcp_pcb) : list Z := [2; 4] ++ be16_bytes (u16 (rcv_mss p)).
Definition ts_option (p : tcp_pcb) (now_ms : Z) : list Z :=
  [8; 10] ++ be32_bytes (u32 now_ms) ++ be32_bytes (u32 (ts_recent p)) ++ [1; 1].

(** The bytes written, laid out in full. *)
Lemma make_tcp_options_bytes p flags now_ms :
  fst (make_tcp_options p flags now_ms) =
  (if has flags TCP_FLAG_SYN
   then mss_option p ++ (if tcp_should_send_window_scale p flags
                         then [1; 3; 3; 6] else [1; 1; 1; 1])
   else []) ++
  (if peer_ts_ok p then ts_option p now_ms else []).
Proof.
  unfold make_tcp_options, tcp_predict_options_len, mss_option, ts_option.
  destruct (has flags TCP_FLAG_SYN) eqn:Hs, (peer_ts_ok p) eqn:Ht;
    cbn [Z.add Z.eqb]; try reflexivity;
    destruct (tcp_should_send_window_scale p flags); cbn [fst]; rsimpl; rewrite ?Ht; reflexivity.
Qed.

Lemma make_tcp_options_length p flags now_ms :
  Z.of_nat (length (fst (make_tcp_options p flags now_ms))) = tcp_predict_options_len p flags.
Proof.
  rewrite make_tcp_options_bytes. unfold tcp_predict_options_len.
  destruct (has flags TCP_FLAG_SYN), (peer_ts_ok p), (tcp_should_send_window_scale p flags);
    reflexivity.
Qed.

Lemma make_tcp_options_pcb p flags now_ms :
  snd (make_tcp_options p flags now_ms) =
  if tcp_should_send_window_scale p flags
  then p <| rcv_wnd_scale := TCP_RCV_WND_SCALE_DEFAULT |> <| wnd_scale_sent := true |>
  else p.
Proof.
  unfold make_tcp_options, tcp_predict_options_len.
  destruct (has flags TCP_FLAG_SYN) eqn:Hs.
  - destruct (peer_ts_ok p) eqn:Ht; cbn [Z.add Z.eqb];
      by destruct (tcp_should_send_window_scale p flags).
  - assert (Hn : tcp_should_send_window_scale p flags = false)
      by (unfold tcp_should_send_window_scale; by rewrite Hs). rewrite Hn.
    by destruct (peer_ts_ok p).
Qed.

(** *** Lemmas: parsing *)

Lemma opt_at_Some x i :
  pc_len x <= Z.of_nat (length (pc_opt x)) -> 0 <= i < pc_len x ->
  exists b, opt_at x i = Some b /\ pc_opt x !! Z.to_nat i = Some b.
Proof.
  intros Hl Hi. unfold opt_at.
  replace ((0 <=? i) && (i <? pc_len x)) with true by lia.
  destruct (lookup_lt_is_Some_2 (pc_opt x) (Z.to_nat i)) as [b Hb]; [lia|]. eauto.
Qed.

(** The values the peer may negotiate. *)
Definition negotiated_ok (p : tcp_pcb) : Prop :=
  0 <= snd_wnd_scale p <= 14 /\ 64 <= peer_mss p <= 65535 /\
  snd_mss p <= peer_mss p.

Lemma parse_option_ok x p i kind len :
  pc_len x <= Z.of_nat (length (pc_opt x)) -> is_bytes (pc_opt x) ->
  0 <= i -> i + len <= pc_len x -> negotiated_ok p ->
  exists r, parse_option x p i kind len = Some r /\
    match r with inl q | inr q => negotiated_ok q end.
Proof.
  intros Hl Hb Hi Hle Hn.
  assert (Hat : forall j, 0 <= j < len -> exists b, opt_at x (i + j) = Some b /\ is_byte b).
  { intros j Hj. destruct (opt_at_Some x (i + j) Hl ltac:(lia)) as (b&H1&H2).
    exists b. split; [done|]. by eapply Forall_lookup_1 in H2. }
  unfold parse_option, is_byte, negotiated_ok in *.
  case_if; bool_prop; subst.
  { destruct (Hat 2 ltac:(lia)) as (b0&->&?). destruct (Hat 3 ltac:(lia)) as (b1&->&?).
    unfold be16. case_if; bool_prop; eexists; (split; [done|]); rsimpl; [done|lia]. }
  case_if; bool_prop; subst.
  { destruct (Hat 2 ltac:(lia)) as (b0&->&?). eexists. split; [done|]. rsimpl.
    case_if; bool_prop; lia. }
  case_if; bool_prop; subst; [|eexists; split; [done|]; done].
  destruct (Hat 2 ltac:(lia)) as (?&->&_). destruct (Hat 3 ltac:(lia)) as (?&->&_).
  destruct (Hat 4 ltac:(lia)) as (?&->&_). destruct (Hat 5 ltac:(lia)) as (?&->&_).
  destruct (Hat 6 ltac:(lia)) as (?&->&_). destruct (Hat 7 ltac:(lia)) as (?&->&_).
  destruct (Hat 8 ltac:(lia)) as (?&->&_). destruct (Hat 9 ltac:(lia)) as (?&->&_).
  case_if; eexists; (split; [done|]); [done|]. case_if; rsimpl; done.
Qed.

Lemma parse_loop_ok fuel x : forall p i,
  pc_len x <= Z.of_nat (length (pc_opt x)) -> is_bytes (pc_opt x) ->
  0 <= i -> pc_len x - i < Z.of_nat fuel -> (1 <= fuel)%nat -> negotiated_ok p ->
  exists r, parse_loop fuel x p i = Some r /\
    match r with inl q | inr q => negotiated_ok q end.
Proof.
  induction fuel as [|fuel IH]; intros p i Hl Hb Hi Hf Hf1 Hn; cbn [parse_loop]; [lia|].
  destruct (Z.ltb_spec i (pc_len x)); [|by exists (inl p)].
  destruct (opt_at_Some x i Hl ltac:(lia)) as (kind&->&_).
  case_if; [by exists (inl p)|]. case_if; [apply IH; try done; lia|].
  destruct (Z.leb_spec (pc_len x) (i + 1)); [by exists (inl p)|].
  destruct (opt_at_Some x (i + 1) Hl ltac:(lia)) as (len&->&_).
  case_if; [by exists (inl p)|]. bool_prop.
  destruct (parse_option_ok x p i kind len Hl Hb Hi ltac:(lia) Hn) as ([q|q]&->&Hq);
    [|by exists (inr q)].
  apply IH; try done; lia.
Qed.

Lemma be16_be16_bytes x : is_u16 x -> be16 ((x / 256) mod 256) (x mod 256) = x.
Proof. unfold is_u, be16. intros. zlia. Qed.

Lemma be32_be32_bytes x :
  is_u32 x ->
  be32 ((x / 16777216) mod 256) ((x / 65536) mod 256) ((x / 256) mod 256) (x mod 256) = x.
Proof. unfold is_u, be32. intros. zlia. Qed.

(** The three options [make_tcp_options] emits, parsed at the offset where they
    were written. *)
Section Emitted.
Context (x : parse_ctx) (pre post : list Z) (i : Z).
Hypothesis Hi : i = Z.of_nat (length pre).

Lemma opt_at_emitted opt j b :
  pc_opt x = pre ++ opt ++ post -> i + Z.of_nat (length opt) <= pc_len x ->
  opt !! j = Some b -> opt_at x (i + Z.of_nat j) = Some b.
Proof.
  intros He Hl Hb. assert (Hj := lookup_lt_Some _ _ _ Hb). unfold opt_at.
  replace ((0 <=? i + Z.of_nat j) && (i + Z.of_nat j <? pc_len x)) with true by lia.
  rewrite He, lookup_app_r, lookup_app_l by lia. rewrite <- Hb. f_equal. lia.
Qed.

Lemma parse_emitted_mss fuel p m :
  is_u16 m -> 64 <= m -> pc_handshake x = true ->
  pc_opt x = pre ++ ([2; 4] ++ be16_bytes m) ++ post -> i + 4 <= pc_len x ->
  parse_loop (S fuel) x p i =
  parse_loop fuel x (p <| peer_mss := m |> <| snd_mss := Z.min m (rcv_mss p) |>
                       <| peer_mss_ok := true |>) (i + 4).
Proof.
  intros Hm Hm64 Hh He Hl.
  pose proof (fun j b => opt_at_emitted _ j b He ltac:(cbn; lia)) as Hat.
  assert (H0 : opt_at x i = Some 2) by (rewrite <- (Z.add_0_r i); exact (Hat 0%nat 2 eq_refl)). assert (H1 : opt_at x (i + 1) = Some 4) by exact (Hat 1%nat _ eq_refl).
  assert (H2 : opt_at x (i + 2) = Some ((m / 256) mod 256)) by exact (Hat 2%nat _ eq_refl). assert (H3 : opt_at x (i + 3) = Some (m mod 256)) by exact (Hat 3%nat _ eq_refl).
  cbn [parse_loop]. rewrite (proj2 (Z.ltb_lt i (pc_len x))), H0, H1 by lia.
  cbn [Z.eqb Pos.eqb]. rewrite (proj2 (Z.leb_gt (pc_len x) (i + 1))) by lia.
  cbn [Z.ltb Z.compare Pos.compare Pos.compare_cont orb].
  rewrite (proj2 (Z.ltb_ge (pc_len x) (i + 4))) by lia.
  unfold parse_option. rewrite Hh, H2, H3. cbn [Z.eqb Pos.eqb andb].
  rewrite be16_be16_bytes by done. by rewrite (proj2 (Z.ltb_ge m 64)) by lia.
Qed.

Lemma parse_emitted_wscale fuel p :
  pc_handshake x = true -> pc_opt x = pre ++ [1; 3; 3; 6] ++ post -> i + 4 <= pc_len x ->
  parse_loop (S (S fuel)) x p i =
  parse_loop fuel x (p <| snd_wnd_scale := 6 |> <| peer_wnd_scale_ok := true |>) (i + 4).
Proof.
  intros Hh He Hl.
  pose proof (fun j b => opt_at_emitted _ j b He ltac:(cbn; lia)) as Hat.
  assert (H0 : opt_at x i = Some 1) by (rewrite <- (Z.add_0_r i); exact (Hat 0%nat 1 eq_refl)). assert (H1 : opt_at x (i + 1) = Some 3) by exact (Hat 1%nat _ eq_refl).
  assert (H2 : opt_at x (i + 2) = Some 3) by exact (Hat 2%nat _ eq_refl). assert (H3 : opt_at x (i + 3) = Some 6) by exact (Hat 3%nat _ eq_refl).
  cbn [parse_loop]. rewrite (proj2 (Z.ltb_lt i (pc_len x))), H0 by lia. cbn [Z.eqb Pos.eqb].
  rewrite (proj2 (Z.ltb_lt (i + 1) (pc_len x))), H1 by lia. cbn [Z.eqb Pos.eqb].
  rewrite (proj2 (Z.leb_gt (pc_len x) (i + 1 + 1))) by lia.
  replace (i + 1 + 1) with (i + 2) by lia. rewrite H2.
  cbn [Z.ltb Z.compare Pos.compare Pos.compare_cont orb].
  rewrite (proj2 (Z.ltb_ge (pc_len x) (i + 1 + 3))) by lia.
  unfold parse_option. replace (i + 1 + 2) with (i + 3) by lia. rewrite Hh, H3.
  cbn [Z.eqb Pos.eqb andb Z.ltb Z.compare Pos.compare Pos.compare_cont].
  by replace (i + 1 + 3) with (i + 4) by lia.
Qed.
Lemma parse_emitted_nop fuel p :
  pc_opt x = pre ++ [1] ++ post -> i + 1 <= pc_len x ->
  parse_loop (S fuel) x p i = parse_loop fuel x p (i + 1).
Proof.
  intros He Hl. cbn [parse_loop]. rewrite (proj2 (Z.ltb_lt i (pc_len x))) by lia.
  assert (H0 : opt_at x i = Some 1)
    by (rewrite <- (Z.add_0_r i); exact (opt_at_emitted _ 0 1 He ltac:(cbn; lia) eq_refl)).
  by rewrite H0.
Qed.

Lemma parse_emitted_ts fuel p v e :
  is_u32 v -> is_u32 e -> has (pc_flags x) TCP_FLAG_SYN = true ->
  peer_ts_ok p && (v <? ts_recent p) = false ->
  pc_opt x = pre ++ ([8; 10] ++ be32_bytes v ++ be32_bytes e) ++ post ->
  i + 10 <= pc_len x ->
  parse_loop (S fuel) x p i =
  parse_loop fuel x (p <| peer_ts_ok := true |> <| ts_recent := v |>
                       <| ts_recent_age_ms := u32 (pc_now x) |> <| ts_last_tsecr := e |>) (i + 10).
Proof.
  intros Hv Hve Hs Hp He Hl.
  pose proof (fun j b => opt_at_emitted _ j b He ltac:(cbn; lia)) as Hat.
  assert (H0 : opt_at x i = Some 8) by (rewrite <- (Z.add_0_r i); exact (Hat 0%nat 8 eq_refl)).
  assert (H1 : opt_at x (i + 1) = Some 10) by exact (Hat 1%nat _ eq_refl).
  cbn [parse_loop]. rewrite (proj2 (Z.ltb_lt i (pc_len x))), H0, H1 by lia.
  cbn [Z.eqb Pos.eqb]. rewrite (proj2 (Z.leb_gt (pc_len x) (i + 1))) by lia.
  cbn [Z.ltb Z.compare Pos.compare Pos.compare_cont orb].
  rewrite (proj2 (Z.ltb_ge (pc_len x) (i + 10))) by lia.
  unfold parse_option. cbn [Z.eqb Pos.eqb andb].
  rewrite (Hat 2%nat _ eq_refl : opt_at x (i + 2) = Some _), (Hat 3%nat _ eq_refl : opt_at x (i + 3) = Some _),
    (Hat 4%nat _ eq_refl : opt_at x (i + 4) = Some _), (Hat 5%nat _ eq_refl : opt_at x (i + 5) = Some _),
    (Hat 6%nat _ eq_refl : opt_at x (i + 6) = Some _), (Hat 7%nat _ eq_refl : opt_at x (i + 7) = Some _),
    (Hat 8%nat _ eq_refl : opt_at x (i + 8) = Some _), (Hat 9%nat _ eq_refl : opt_at x (i + 9) = Some _).
  rewrite !be32_be32_bytes by done. by rewrite Hp, Hs.
Qed.
End Emitted.

(** What the parser makes of a complete handshake option block. *)
Definition emitted_pcb (rx : tcp_pcb) (m : Z) (ws : bool) (ts : option (Z * Z)) (now_ms : Z)
    : tcp_pcb :=
  let q := rx <| peer_mss := m |> <| snd_mss := Z.min m (rcv_mss rx) |>
              <| peer_mss_ok := true |> in
  let q := if ws then q <| snd_wnd_scale := 6 |> <| peer_wnd_scale_ok := true |> else q in
  match ts with
  | Some (v, e) => q <| peer_ts_ok := true |> <| ts_recent := v |>
                     <| ts_recent_age_ms := u32 now_ms |> <| ts_last_tsecr := e |>
  | None => q
  end.

Lemma parse_emitted x rx m (ws : bool) ts rest fuel :
  is_u16 m -> 64 <= m -> pc_handshake x = true -> has (pc_flags x) TCP_FLAG_SYN = true ->
  (forall v e, ts = Some (v, e) -> is_u32 v /\ is_u32 e /\
     peer_ts_ok rx && (v <? ts_recent rx) = false) ->
  pc_opt x = ([2; 4] ++ be16_bytes m) ++ (if ws then [1; 3; 3; 6] else [1; 1; 1; 1]) ++
    match ts with
    | Some (v, e) => ([8; 10] ++ be32_bytes v ++ be32_bytes e) ++ [1; 1]
    | None => [] end ++ rest ->
  pc_len x = match ts with Some _ => 20 | None => 8 end ->
  parse_loop (9 + fuel) x rx 0 = Some (inl (emitted_pcb rx m ws ts (pc_now x))).
Proof.
  intros Hm Hm64 Hh Hs Hts He Hl.
  assert (Hl8 : 8 <= pc_len x) by (rewrite Hl; destruct ts; lia).
  change (9 + fuel)%nat with (S (8 + fuel)).
  rewrite (parse_emitted_mss x [] _ 0 eq_refl (8 + fuel) rx m Hm Hm64 Hh He) by lia.
  set (q := rx <| peer_mss := m |> <| snd_mss := Z.min m (rcv_mss rx) |> <| peer_mss_ok := true |>).
  set (q' := if ws then q <| snd_wnd_scale := 6 |> <| peer_wnd_scale_ok := true |> else q).
  assert (Hw : exists f, parse_loop (8 + fuel) x q 4 = parse_loop (4 + f) x q' 8).
  { destruct ws.
    - exists (2 + fuel)%nat.
      apply (parse_emitted_wscale x ([2; 4] ++ be16_bytes m) _ 4 eq_refl (6 + fuel) q Hh He). lia.
    - exists fuel. cbn [Nat.add].
      rewrite (parse_emitted_nop x (take 4 (pc_opt x)) (drop 5 (pc_opt x)) 4),
        (parse_emitted_nop x (take 5 (pc_opt x)) (drop 6 (pc_opt x)) (4 + 1)),
        (parse_emitted_nop x (take 6 (pc_opt x)) (drop 7 (pc_opt x)) (4 + 1 + 1)),
        (parse_emitted_nop x (take 7 (pc_opt x)) (drop 8 (pc_opt x)) (4 + 1 + 1 + 1));
        try lia; try (rewrite He; reflexivity). done. }
  destruct Hw as [f Hw]. change (0 + 4) with 4. rewrite Hw.
  destruct ts as [[v e]|].
  - destruct (Hts v e eq_refl) as (Hv&Hve&Hp).
    change (4 + f)%nat with (S (3 + f)).
    rewrite (parse_emitted_ts x (take 8 (pc_opt x)) (drop 18 (pc_opt x)) 8
      ltac:(rewrite He; by destruct ws) (3 + f) q' v e Hv Hve Hs);
      [|by destruct ws|rewrite He; by destruct ws|lia].
    change (8 + 10) with 18. cbn [Nat.add].
    rewrite (parse_emitted_nop x (take 18 (pc_opt x)) (drop 19 (pc_opt x)) 18),
      (parse_emitted_nop x (take 19 (pc_opt x)) (drop 20 (pc_opt x)) (18 + 1));
      try lia; try (rewrite He; by destruct ws).
    cbn [parse_loop]. by rewrite Hl.
  - cbn [Nat.add parse_loop]. by rewrite Hl.
Qed.

(** *** Properties *)

(** the option parser is total and memory safe on arbitrary input.
    Whatever bytes follow the header and whatever the header-length nibble,
    provided the header fits in the received bytes, the loop terminates, never
    reads outside the options area, and leaves the negotiated values inside
    the protocol bounds: window shift at most 14, MSS at least 64 and the
    sending MSS no larger than the peer's. *)
Theorem parse_tcp_options_safe p doff flags opt now_ms :
  is_bytes opt -> Z.land (Z.shiftr doff 4) 0x0F * 4 <= 20 + Z.of_nat (length opt) ->
  negotiated_ok p ->
  exists ret q, parse_tcp_options p doff flags opt now_ms = Some (ret, q) /\
    (ret = 0 \/ ret = -1) /\ negotiated_ok q.
Proof.
  intros Hb Hl Hn. unfold parse_tcp_options, TCP_HDR_LEN.
  set (x := mk_parse_ctx _ _ _ _ _). set (n := Z.land _ _ * 4 - 20) in *.
  assert (Hx : pc_len x = n) by done.
  destruct (parse_loop_ok (S (Z.to_nat n)) x p 0) as ([q|q]&->&Hq); rewrite ?Hx; try done;
    try (change (pc_opt x) with opt); try lia.
  - eexists _, _. split; [done|]. split; [by left|]. case_if; [|done].
    unfold tcp_congestion_mss_changed. by destruct (state q).
  - eexists _, _. split; [done|]. split; [by right|done].
Qed.

Lemma parse_tcp_options_safe_witness :
  exists ret q,
    parse_tcp_options (pcb_zero <| state := TCP_STATE_SYN_SENT |> <| peer_mss := 536 |>
        <| snd_mss := 536 |> <| rcv_mss := 1448 |>)
      0x80 TCP_FLAG_SYN [2; 4; 5; 180; 3; 3; 200; 8; 10; 0; 0; 99] 77 = Some (ret, q) /\
    (ret = 0 \/ ret = -1) /\ negotiated_ok q.
Proof.
  apply (parse_tcp_options_safe (pcb_zero <| state := TCP_STATE_SYN_SENT |>
    <| peer_mss := 536 |> <| snd_mss := 536 |> <| rcv_mss := 1448 |>)).
  - solve_bytes.
  - vm_compute. congruence.
  - unfold negotiated_ok. cbn. lia.
Defined.

(** option round trip.  The options a handshake segment is built with are
    read back by the peer's parser: it learns the sender's MSS and uses the
    smaller of the two link MSS values, learns the window shift exactly when
    the sender announced one (and then the one the sender will use), and
    learns the sender's clock and echo when timestamps are in use.  The bytes
    after the options do not matter. *)
Theorem options_roundtrip tx rx flags rest now_tx now_rx :
  has flags TCP_FLAG_SYN = true ->
  state rx = TCP_STATE_SYN_SENT \/ state rx = TCP_STATE_SYN_RECEIVED ->
  64 <= rcv_mss tx <= 65535 -> is_u32 (ts_recent tx) ->
  (peer_ts_ok rx = true -> ts_recent rx <= u32 now_tx) ->
  let '(bytes, tx') := make_tcp_options tx flags now_tx in
  exists rx', parse_tcp_options rx (make_doff (Z.of_nat (length bytes))) flags
                (bytes ++ rest) now_rx = Some (0, rx') /\
    peer_mss rx' = rcv_mss tx /\ snd_mss rx' = Z.min (rcv_mss tx) (rcv_mss rx) /\
    (tcp_should_send_window_scale tx flags = true ->
       peer_wnd_scale_ok rx' = true /\ wnd_scale_sent tx' = true /\
       snd_wnd_scale rx' = rcv_wnd_scale tx') /\
    (tcp_should_send_window_scale tx flags = false ->
       peer_wnd_scale_ok rx' = peer_wnd_scale_ok rx) /\
    (peer_ts_ok tx = true ->
       peer_ts_ok rx' = true /\ ts_recent rx' = u32 now_tx /\
       ts_last_tsecr rx' = ts_recent tx).
Proof.
  intros Hs Hst Hm Hts Hpaws.
  pose proof (make_tcp_options_bytes tx flags now_tx) as Hb.
  pose proof (make_tcp_options_pcb tx flags now_tx) as Hp.
  destruct (make_tcp_options tx flags now_tx) as [bytes tx']. cbn [fst snd] in *.
  rewrite Hs in Hb. unfold mss_option, ts_option in Hb.
  rewrite (wrap_id 16 (rcv_mss tx)), (wrap_id 32 (ts_recent tx)) in Hb by (done || unfold is_u; lia).
  set (ws := tcp_should_send_window_scale tx flags) in *.
  set (ts := if peer_ts_ok tx then Some (u32 now_tx, ts_recent tx) else None).
  assert (Hlen : Z.of_nat (length bytes) = match ts with Some _ => 20 | None => 8 end)
    by (subst bytes ts; by destruct ws, (peer_ts_ok tx)).
  assert (Hd : Z.land (Z.shiftr (make_doff (Z.of_nat (length bytes))) 4) 15 * 4 - TCP_HDR_LEN
               = match ts with Some _ => 20 | None => 8 end)
    by (rewrite Hlen; by destruct ts).
  exists (let q := emitted_pcb rx (rcv_mss tx) ws ts now_rx in
          if negb (snd_mss q =? snd_mss rx) then tcp_congestion_mss_changed q else q).
  split.
  - unfold parse_tcp_options. rewrite Hs, Hd.
    replace (st_eqb _ _ || st_eqb _ _) with true
      by (unfold st_eqb; destruct Hst as [-> | ->]; reflexivity). cbn [andb].
    set (x := mk_parse_ctx _ _ _ _ _).
    assert (Hf : exists f, S (Z.to_nat (match ts with Some _ => 20 | None => 8 end)) = (9 + f)%nat)
      by (destruct ts; [by exists 12%nat|by exists O]).
    destruct Hf as [f ->]. change now_rx with (pc_now x).
    rewrite (parse_emitted x rx (rcv_mss tx) ws ts rest f); try done; try (unfold is_u; lia).
    + intros v e Hve. subst ts. destruct (peer_ts_ok tx); [|done]. injection Hve as <- <-.
      split; [auto with netfast|]. split; [done|]. destruct (peer_ts_ok rx); [|done].
      cbn [andb]. apply Z.ltb_ge. auto.
    + subst x bytes ts. cbn [pc_opt]. rewrite <- !app_assoc. by destruct ws, (peer_ts_ok tx).
  - cbn zeta. set (q := emitted_pcb rx (rcv_mss tx) ws ts now_rx).
    set (q2 := if negb (snd_mss q =? snd_mss rx) then _ else q).
    assert (Hq : forall (A : Type) (f : tcp_pcb -> A),
      (forall p, f (tcp_congestion_init p) = f p) -> f q2 = f q).
    { intros A f Hf. subst q2. case_if; [|done]. unfold tcp_congestion_mss_changed.
      destruct (state q); auto. }
    rewrite !(Hq _ peer_mss), !(Hq _ snd_mss), !(Hq _ peer_wnd_scale_ok), !(Hq _ snd_wnd_scale),
      !(Hq _ peer_ts_ok), !(Hq _ ts_recent), !(Hq _ ts_last_tsecr) by done.
    clear Hq q2 Hb Hlen Hd. subst q ts tx'. unfold emitted_pcb.
    destruct ws, (peer_ts_ok tx); rsimpl; split_and!; done.
Qed.

Lemma options_roundtrip_witness :
  let tx := pcb_zero <| rcv_mss := 1448 |> in
  let rx := pcb_zero <| rcv_mss := 1380 |> <| state := TCP_STATE_SYN_RECEIVED |> in
  let '(bytes, tx') := make_tcp_options tx TCP_FLAG_SYN 5000 in
  bytes = [2; 4; 5; 168; 1; 3; 3; 6] /\
  exists rx', parse_tcp_options rx (make_doff (Z.of_nat (length bytes))) TCP_FLAG_SYN
                (bytes ++ [104; 105]) 6000 = Some (0, rx') /\
    peer_mss rx' = rcv_mss tx /\ snd_mss rx' = Z.min (rcv_mss tx) (rcv_mss rx).
Proof.
  intros tx rx.
  assert (H := options_roundtrip tx rx TCP_FLAG_SYN [104; 105] 5000 6000 eq_refl
    (or_intror eq_refl) ltac:(cbn; lia) ltac:(unfold is_u; cbn; lia) ltac:(done)).
  revert H. destruct (make_tcp_options tx TCP_FLAG_SYN 5000) as [bytes tx'] eqn:E.
  intros (rx'&Hp&Hm&Hs&_). split; [by injection E as <- _|]. eauto.
Defined.

(** The timestamp test is a plain comparison, not one modulo 2^32: once the
    peer's millisecond clock wraps, a segment sent 15 ms after the last one
    seen is rejected as an old duplicate. *)
Example paws_rejects_after_wrap :
  let p := pcb_zero <| state := TCP_STATE_ESTABLISHED |> <| peer_ts_ok := true |>
             <| ts_recent := 4294967290 |> in
  option_map fst (parse_tcp_options p 0x80 TCP_FLAG_ACK
    ([8; 10] ++ be32_bytes (u32 (4294967290 + 15)) ++ be32_bytes 0 ++ [1; 1]) 0) = Some (-1).
Proof. reflexivity. Qed.
