(* ===== verification/TcpOutput.v ===== *)
(** The TCP send path (src/main/tcp.c): segment transmission, the retransmit
    queue, the new-data loop, retransmission, probes and FIN. *)

From stdpp Require Import prelude list.
From Stdlib Require Import ZArith Lia.
From S2P Require Import Prelude TcpDefs TcpSeq TcpMetrics TcpTimer TcpWindow TcpCongestion.
From S2P Require Import TcpOptions.

(** *** Definitions: the environment *)

(** [ipv4_output]/[ipv6_output]: the packet goes to IP, which answers with a
    code. *)
Definition ip_output (c : conn) (k : packet) : Z * conn :=
  let c := c <|e wire := k :: wire (ev c) |> in
  match outs (ev c) with
  | [] => (0, c)
  | r :: l => (r, c <|e outs := l |>)
  end.

(** Dereference of a possibly null pointer. *)
Definition deref {A} (o : option A) (c : conn) : conn :=
  match o with Some _ => c | None => c <|e fault := true |> end.

(** [set_socket_route] (src/main/socket.c): keep a valid route, else look one
    up. *)
Definition set_socket_route (c : conn) : Z * conn :=
  let '((valid, found), c) :=
    match routes (ev c) with
    | [] => ((true, None), c)
    | x :: l => (x, c <|e routes := l |>)
    end in
  match route (sock c) with
  | Some r =>
      if valid then (0, c)
      else (match found with Some _ => 0 | None => -1 end, c <|s route := found |>)
  | None => (match found with Some _ => 0 | None => -1 end, c <|s route := found |>)
  end.

Definition MAX_IP_HDR_WITH_OPT_LEN : Z := 60.
Definition MAX_IP6_HDR_WITH_EXT_LEN : Z := 64.
Definition IPV4_HDR_LEN : Z := 20.
Definition IPV6_HDR_LEN : Z := 40.

Definition is_v6 (s : Socket) : bool := family s =? 10.

(** [set_tcp_socket_route]. *)
Definition set_tcp_socket_route (c : conn) : Z * conn :=
  let '(r, c) := set_socket_route c in
  if r <? 0 then (-1, c)
  else
    match route (sock c) with
    | None => (0, c <|e fault := true |>)
    | Some rt =>
        if negb (is_v6 (sock c)) && negb (r_unicast rt)
        then (-1, c <|s route := None |>)
        else
          let c :=
            match metrics (pcb c) with
            | Some m => if m_ifindex m =? r_ifindex rt then c else c <|p metrics := None |>
            | None => c
            end in
          let c :=
            match metrics (pcb c) with
            | Some _ => c
            | None =>
                let '(ok, c) := alloc c in
                let c := c <|p metrics := tcp_metrics_get ok (r_ifindex rt) |> in
                c <|p retransmit_timeout := tcp_metrics_rto (metrics (pcb c)) |>
            end in
          let ip_hdr_len := if is_v6 (sock c) then IPV6_HDR_LEN else IPV4_HDR_LEN in
          let headers := TCP_HDR_LEN + ip_hdr_len in
          let route_mss := u32 (r_mtu rt - headers) in
          let reserve := MAX_TCP_HDR_OPT_LEN +
            (if is_v6 (sock c) then MAX_IP6_HDR_WITH_EXT_LEN else MAX_IP_HDR_WITH_OPT_LEN)
            + r_l2_len rt in
          let route_mss := Z.min route_mss (u32 (slot_max (ev c) - reserve)) in
          let old_mss := snd_mss (pcb c) in
          let c := c <|p rcv_mss := route_mss |> in
          let c := c <|p snd_mss := Z.min (peer_mss (pcb c)) route_mss |> in
          (0, if negb (snd_mss (pcb c) =? old_mss)
              then c <| pcb ::= tcp_congestion_mss_changed |> else c)
    end.

(** *** Definitions: control segments *)

(** Build the header over payload [data] and hand the segment to IP: the
    common part of [tcp_send_flag] and of [make_tcp_hdr] plus output. *)
Definition emit (c : conn) (seq ack flags : Z) (data : list Z) : Z * conn :=
  let '(opts, p) := make_tcp_options (pcb c) flags (get_current_time_ms c) in
  let c := c <| pcb := p |> in
  ip_output c (mk_packet (u32 seq) (u32 ack) flags (tcp_encode_window (pcb c) flags) opts data).

Definition tcp_send_flag (c : conn) (seq ack flag : Z) : Z * conn :=
  let c := deref (route (sock c)) c in
  let '(ok, c) := alloc c in
  if negb ok then (- ENOMEM, c)
  else
    let skb := mk_tskb (u32 seq) flag [] in
    let '(ready, c) :=
      if has flag TCP_FLAG_SYN then
        let c1 := c <|p retransmit_queue := retransmit_queue (pcb c) ++ [skb] |> in
        let '(cloned, c1) := alloc c1 in
        if negb cloned then (false, c <| ev := ev c1 |>)
        else
          let c1 := c1 <|p snd_nxt := u32 (snd_nxt (pcb c1) + 1) |>
                       <|p snd_end := u32 (snd_end (pcb c1) + 1) |> in
          (true, update_timer c1 retransmit_deadline
                   (get_current_time_ms c1 + retransmit_timeout (pcb c1)) false)
      else (true, c) in
    if negb ready then (- ENOMEM, c)
    else
      let '(ret, c) := emit c seq ack flag [] in
      if (0 <=? ret) && has flag TCP_FLAG_ACK then
        let c := c <|p ack_pending_segments := 0 |> in
        (ret, update_timer c ack_deadline TCP_TIMER_STOP true)
      else (ret, c).

(** *** Definitions: data segments *)

(** [flag & ~F]. *)
Definition clear_flag (flag f : Z) : Z := Z.land flag (255 - f).

(** [tcp_retransmit_enqueue]. *)
Definition tcp_retransmit_enqueue (c : conn) (skb : tskb) : conn :=
  let len := skb_data_len skb in
  let third_mss := snd_mss (pcb c) / 3 in
  if tcp_skb_seq_len skb =? 0 then c
  else
    let append := c <|p retransmit_queue := retransmit_queue (pcb c) ++ [skb] |> in
    match last (retransmit_queue (pcb c)) with
    | Some l =>
        if (t_flag skb =? TCP_FLAG_ACK) && (t_flag l =? TCP_FLAG_ACK)
           && (len <=? third_mss) && (skb_data_len l + len <=? snd_mss (pcb c)) then
          let '(ok, c) := alloc c in
          if ok then
            c <|p retransmit_queue :=
                  removelast (retransmit_queue (pcb c)) ++
                  [l <| t_data := t_data l ++ t_data skb |>] |>
          else c <|p retransmit_queue := retransmit_queue (pcb c) ++ [skb] |>
        else append
    | None => append
    end.

(** [tcp_xmit_segment]. *)
Definition tcp_xmit_segment (c : conn) (skb : tskb) (seq_budget : Z) (push : bool)
    : Z * conn :=
  let original_data_len := skb_data_len skb in
  let original_flags := t_flag skb in
  let syn_seq_len := if has original_flags TCP_FLAG_SYN then 1 else 0 in
  let seq_budget := Z.min seq_budget (tcp_skb_seq_len skb) in
  let '(ok, c) := alloc c in
  if negb ok then (- ENOMEM, c)
  else
    let payload_budget := if syn_seq_len <? seq_budget then seq_budget - syn_seq_len else 0 in
    let send_data_len := Z.min original_data_len payload_budget in
    let send_fin := has original_flags TCP_FLAG_FIN
                    && (syn_seq_len + original_data_len <? seq_budget) in
    let data := if send_data_len <? original_data_len
                then take (Z.to_nat send_data_len) (t_data skb) else t_data skb in
    let flag := if send_fin then original_flags else clear_flag original_flags TCP_FLAG_FIN in
    let flag := if push && negb (send_data_len =? 0) then Z.lor flag TCP_FLAG_PSH else flag in
    let '(r, c) := set_tcp_socket_route c in
    if r <? 0 then
      (- EHOSTUNREACH, notify_event (c <|s error := EHOSTUNREACH |>) notify_err)
    else
      let '(ret, c) := emit c (t_seq skb) (rcv_nxt (pcb c)) flag data in
      if ret <? 0 then (ret, c)
      else if has flag TCP_FLAG_ACK then
        let c := c <|p ack_pending_segments := 0 |> in
        (ret, update_timer c ack_deadline TCP_TIMER_STOP false)
      else (ret, c).

Definition tcp_commit_fin_send (c : conn) : conn :=
  match state (pcb c) with
  | TCP_STATE_SYN_RECEIVED | TCP_STATE_ESTABLISHED => c <|p state := TCP_STATE_FIN_WAIT_1 |>
  | TCP_STATE_CLOSE_WAIT => c <|p state := TCP_STATE_LAST_ACK |>
  | _ => c
  end.

(** Retry soon: the Nagle timer in 10 ms. *)
Definition nagle_retry (c : conn) : conn :=
  update_timer c nagle_deadline (get_current_time_ms c + TCP_NAGLE_INTERVAL_MS_DEFAULT) false.

(** The split of the head of [send_queue] before transmission: [None] when the
    tail cannot be allocated. *)
Definition split_unsent (c : conn) (skb : tskb) (rest : list tskb)
    (send_data_len send_seq_len : Z) (send_fin : bool) : option tskb * conn :=
  if send_seq_len <? tcp_skb_seq_len skb then
    let c := if send_data_len <? skb_data_len skb then c else deref (route (sock c)) c in
    let '(ok, c) := alloc c in
    if negb ok then (None, c)
    else
      let head := if send_data_len <? skb_data_len skb
                  then skb <| t_data := take (Z.to_nat send_data_len) (t_data skb) |>
                  else skb in
      let tail_data := if send_data_len <? skb_data_len skb
                       then drop (Z.to_nat send_data_len) (t_data skb) else [] in
      let head := if send_fin then head
                  else head <| t_flag := clear_flag (t_flag head) TCP_FLAG_FIN |> in
      let tail := mk_tskb (u32 (t_seq head + send_seq_len)) (t_flag skb) tail_data in
      (Some head, c <|s send_queue := head :: tail :: rest |>)
  else (Some skb, c).

(** [tcp_xmit_new_skb] on the head of [send_queue]. *)
Definition tcp_xmit_new_skb (c : conn) (seq_budget : Z) (push : bool) : Z * conn :=
  match send_queue (sock c) with
  | [] => (0, c <|e fault := true |>)
  | skb :: rest =>
      let original_flags := t_flag skb in
      let original_data_len := skb_data_len skb in
      let seq_budget := Z.min seq_budget (tcp_skb_seq_len skb) in
      let send_data_len := Z.min original_data_len seq_budget in
      let send_fin := has original_flags TCP_FLAG_FIN && (original_data_len <? seq_budget) in
      let send_seq_len := u32 (send_data_len + (if send_fin then 1 else 0)) in
      match split_unsent c skb rest send_data_len send_seq_len send_fin with
      | (None, c) => (- ENOMEM, nagle_retry c)
      | (Some skb, c) =>
          let '(ret, c) := tcp_xmit_segment c skb send_seq_len push in
          if ret <? 0 then (ret, nagle_retry c)
          else
            let c := c <|p snd_nxt := u32 (snd_nxt (pcb c) + send_seq_len) |> in
            let c := update_timer c retransmit_deadline
                       (get_current_time_ms c + retransmit_timeout (pcb c)) false in
            let c := if send_fin then tcp_commit_fin_send c else c in
            let c := if rtt_meas_time (pcb c) =? 0
                     then c <|p rtt_meas_time := get_current_time_ms c |>
                            <|p rtt_meas_seq := t_seq skb |>
                     else c in
            let c := c <|s send_queue := tail (send_queue (sock c)) |> in
            (ret, tcp_retransmit_enqueue c skb)
      end
  end.

(** The loop of [tcp_write_xmit]; [burst] is what is left of
    [TCP_OUTPUT_BURST_MAX] segments. *)
Fixpoint tcp_write_xmit_loop (burst : nat) (c : conn) (flush_partial : bool) (ret : Z)
    : Z * conn :=
  match burst with
  | O => (ret, c)
  | S burst' =>
      match send_queue (sock c) with
      | [] => (ret, c)
      | skb :: _ =>
          let win_min := Z.min (snd_wnd (pcb c)) (snd_cwnd (pcb c)) in
          let window_end := u32 (snd_una (pcb c) + win_min) in
          if (win_min =? 0) || SEQ_GEQ (t_seq skb) window_end then (ret, tcp_arm_persist c)
          else if cork (pcb c) && negb flush_partial && negb (has (t_flag skb) TCP_FLAG_FIN)
                  && (Z.of_nat (length (send_queue (sock c))) =? 1)
                  && (skb_data_len skb <? tcp_data_mss (pcb c)) then
            (ret, update_timer c nagle_deadline
                    (get_current_time_ms c + TCP_CORK_TIMEOUT_MS_DEFAULT) false)
          else
            let seq_len := tcp_skb_seq_len skb in
            let seq_budget := Z.min seq_len (u32 (window_end - t_seq skb)) in
            let push := (seq_budget =? seq_len) && negb (skb_data_len skb =? 0)
                        && (Z.of_nat (length (send_queue (sock c))) =? 1) in
            let '(ret, c) := tcp_xmit_new_skb c seq_budget push in
            if ret <? 0 then (ret, c)
            else if (burst' =? 0)%nat then
              (ret, if nonempty (send_queue (sock c))
                    then update_timer c nagle_deadline (get_current_time_ms c) false else c)
            else tcp_write_xmit_loop burst' c flush_partial ret
      end
  end.

(** [tcp_write_xmit]: at most 64 segments per call. *)
Definition tcp_write_xmit (c : conn) (flush_partial : bool) : Z * conn :=
  tcp_write_xmit_loop (Z.to_nat TCP_OUTPUT_BURST_MAX) c flush_partial 0.

(** [tcp_retransmit_skb]. *)
Definition tcp_retransmit_skb (c : conn) (skb : tskb) (probe : bool) : Z * conn :=
  let seq_budget := tcp_skb_seq_len skb in
  let go budget := tcp_xmit_segment (c <|p rtt_meas_time := 0 |>) skb budget false in
  if probe then go (Z.min seq_budget 1)
  else if negb (has (t_flag skb) TCP_FLAG_SYN) then
    let win_min := Z.min (snd_wnd (pcb c)) (snd_cwnd (pcb c)) in
    let window_end := u32 (snd_una (pcb c) + win_min) in
    if (win_min =? 0) || SEQ_GEQ (t_seq skb) window_end then (0, c)
    else go (Z.min seq_budget (u32 (window_end - t_seq skb)))
  else go seq_budget.

(** [tcp_send_probe]. *)
Definition tcp_send_probe (c : conn) : Z * conn :=
  match retransmit_queue (pcb c) with
  | skb :: _ => tcp_retransmit_skb c skb true
  | [] =>
      match send_queue (sock c) with
      | skb :: _ => tcp_xmit_new_skb c (Z.min (tcp_skb_seq_len skb) 1) false
      | [] => (0, c <|e fault := true |>)
      end
  end.

(** [tcp_retransmit_now]: the head of the retransmit queue, dereferenced
    without a test. *)
Definition tcp_retransmit_now (c : conn) : conn :=
  match retransmit_queue (pcb c) with
  | [] => c <|e fault := true |>
  | skb :: _ =>
      let '(_, c) := tcp_retransmit_skb c skb false in
      update_timer c retransmit_deadline
        (get_current_time_ms c + retransmit_timeout (pcb c)) true
  end.

(** [tcp_send_fin]. *)
Definition tcp_send_fin (c : conn) : conn :=
  let '(ready, c) :=
    match last (send_queue (sock c)) with
    | Some _ => (true, c)
    | None =>
        let c := deref (route (sock c)) c in
        let '(ok, c) := alloc c in
        (ok, if ok then c <|s send_queue := [mk_tskb (snd_end (pcb c)) TCP_FLAG_ACK []] |>
             else c)
    end in
  if negb ready then c
  else
    let q := send_queue (sock c) in
    let c :=
      match last q with
      | Some l => c <|s send_queue :=
                        removelast q ++ [l <| t_flag := Z.lor (t_flag l) TCP_FLAG_FIN |>] |>
      | None => c
      end in
    let c := c <|p snd_end := u32 (snd_end (pcb c) + 1) |> in
    update_timer c nagle_deadline (get_current_time_ms c) false.

(** [tcp_update_retransmit_queue], the loop: drop what [ack] covers, trim the
    segment it cuts.  Returns the new queue, the bytes released, and whether
    anything was acknowledged. *)
Fixpoint ack_queue (q : list tskb) (ack : Z) (acked : bool) : list tskb * Z * bool :=
  match q with
  | [] => ([], 0, acked)
  | skb :: rest =>
      if SEQ_GT ack (t_seq skb) then
        if SEQ_GEQ ack (u32 (t_seq skb + tcp_skb_seq_len skb)) then
          let '(q', released, _) := ack_queue rest ack true in
          (q', skb_data_len skb + released, true)
        else
          let consumed := u32 (ack - t_seq skb) in
          let '(flag, consumed) :=
            if has (t_flag skb) TCP_FLAG_SYN && (0 <? consumed)
            then (clear_flag (t_flag skb) TCP_FLAG_SYN, consumed - 1)
            else (t_flag skb, consumed) in
          let data := if 0 <? consumed then drop (Z.to_nat consumed) (t_data skb)
                      else t_data skb in
          (mk_tskb ack flag data :: rest, consumed, true)
      else (q, 0, acked)
  end.

(** [tcp_update_retransmit_queue]. *)
Definition tcp_update_retransmit_queue (c : conn) : conn :=
  let '(q, released, acked) := ack_queue (retransmit_queue (pcb c)) (snd_una (pcb c)) false in
  let c := c <|p retransmit_queue := q |>
             <|s send_buffer_len := u32 (send_buffer_len (sock c) - released) |> in
  let c :=
    if acked then
      let c := c <|p retries_out := 0 |>
                 <|p retransmit_timeout := tcp_metrics_rto (metrics (pcb c)) |> in
      let c := notify_event c notify_data_write in
      if sendable c (Z.min (snd_wnd (pcb c)) (snd_cwnd (pcb c)))
      then update_timer c nagle_deadline (get_current_time_ms c) false else c
    else c in
  match retransmit_queue (pcb c) with
  | [] => (update_timer c retransmit_deadline TCP_TIMER_STOP true) <|p last_ack_repeat := 0 |>
  | _ => if acked then update_timer c retransmit_deadline
                         (get_current_time_ms c + retransmit_timeout (pcb c)) true
         else c
  end.
