(* ===== verification/TcpSendInv.v ===== *)
(** Correctness of the TCP send path (definitions in TcpOutput.v).

    The invariant [send_inv]: the retransmit queue is a gap-free chain of
    non-empty segments covering [snd_una, snd_nxt), the send queue continues it
    up to [snd_end], and the socket's byte count is the number of payload bytes
    on both.  Positions are unwrapped integers; the 32-bit fields hold their
    residues. *)

From stdpp Require Import prelude list.
From Stdlib Require Import ZArith Lia.
From S2P Require Import Prelude TcpDefs TcpSeq TcpMetrics TcpTimer TcpWindow TcpCongestion.
From S2P Require Import TcpOptions TcpOutput.

(** *** The data a connection carries *)

(** What timers, windows, congestion control, options and output leave alone. *)
Record cview := mk_cview {
  v_una : Z; v_nxt : Z; v_end : Z;
  v_rtx : list tskb; v_snd : list tskb; v_sblen : Z; v_smax : Z;
  v_rnxt : Z; v_unord : list tskb; v_rcvq : list tskb; v_rblen : Z; v_rmax : Z
}.

Definition view (c : conn) : cview :=
  mk_cview (snd_una (pcb c)) (snd_nxt (pcb c)) (snd_end (pcb c))
    (retransmit_queue (pcb c)) (send_queue (sock c)) (send_buffer_len (sock c))
    (send_buffer_len_max (sock c))
    (rcv_nxt (pcb c)) (unordered_skb_list (pcb c)) (recv_queue (sock c))
    (recv_buffer_len (sock c)) (recv_buffer_len_max (sock c)).

Lemma view_set_rtx c c' q :
  view c' = view c -> view (c' <|p retransmit_queue := q |>) = view (c <|p retransmit_queue := q |>).
Proof. intros [=]. unfold view. rsimpl. congruence. Qed.

Lemma view_set_sndq c c' q :
  view c' = view c -> view (c' <|s send_queue := q |>) = view (c <|s send_queue := q |>).
Proof. intros [=]. unfold view. rsimpl. congruence. Qed.

Lemma view_set_nxt c c' n :
  view c' = view c -> view (c' <|p snd_nxt := n |>) = view (c <|p snd_nxt := n |>).
Proof. intros [=]. unfold view. rsimpl. congruence. Qed.

Lemma view_untimed c c' : untimed c = untimed c' -> view c = view c'.
Proof. intros H. exact (f_equal view H). Qed.

Lemma view_update_timer c which d ov : view (update_timer c which d ov) = view c.
Proof. apply view_untimed, untimed_update_timer. Qed.

Lemma view_arm_persist c : view (tcp_arm_persist c) = view c.
Proof. apply view_untimed, untimed_arm_persist. Qed.

Lemma view_alloc c : view (snd (alloc c)) = view c.
Proof. unfold alloc. by destruct (allocs (ev c)). Qed.

(** What a notification may change: the readiness bits, the notification task
    and the list of coming allocations. *)
Lemma notify_event_effect c e :
  exists tk l, notify_event c e =
    c <|s notified_events := Z.lor (notified_events (sock c)) e |>
      <|s pending_task := tk |> <|e allocs := l |>.
Proof.
  unfold notify_event. set (c1 := c <|s notified_events := _ |>).
  assert (H0 : exists tk l, c1 = c1 <|s pending_task := tk |> <|e allocs := l |>).
  { exists (pending_task (sock c1)), (allocs (ev c1)).
    destruct c1 as [p s e0]. by destruct s, e0. }
  repeat (case_if; [exact H0|]). destruct (pending_task (sock c1)) eqn:Et.
  - repeat (case_if; [exact H0|]). exists (Some (mk_task true (now (ev c)))), (allocs (ev c)).
    destruct c as [p s e0]. by destruct s, e0.
  - unfold alloc. destruct (allocs (ev c1)) as [|[] l] eqn:El.
    + exists (Some (mk_task true (now (ev c)))), []. destruct c as [p s e0]. destruct e0. cbn in El. by subst.
    + by exists (Some (mk_task true (now (ev c)))), l.
    + exists None, l. destruct c as [p s e0]. destruct s. cbn in Et. by subst.
Qed.

Lemma view_notify c e : view (notify_event c e) = view c.
Proof. by destruct (notify_event_effect c e) as (tk&l&->). Qed.

Lemma view_ip_output c k : view (snd (ip_output c k)) = view c.
Proof. unfold ip_output. by destruct (outs (ev (c <|e wire := _ |>))). Qed.

Lemma view_deref {A} (o : option A) c : view (deref o c) = view c.
Proof. by destruct o. Qed.

Lemma view_set_socket_route c : view (snd (set_socket_route c)) = view c.
Proof.
  unfold set_socket_route. destruct (routes (ev c)) as [|[[] ?] ?]; rsimpl;
    by destruct (route (sock c)).
Qed.

Lemma view_mss_changed c : view (c <| pcb ::= tcp_congestion_mss_changed |>) = view c.
Proof. unfold tcp_congestion_mss_changed, view. rsimpl. by destruct (state (pcb c)). Qed.

Lemma view_set_tcp_socket_route c : view (snd (set_tcp_socket_route c)) = view c.
Proof.
  unfold set_tcp_socket_route. pose proof (view_set_socket_route c) as H.
  destruct (set_socket_route c) as [r c1]. cbn [snd] in H. case_if; [done|].
  destruct (route (sock c1)) as [rt|]; [|done].
  case_if; [done|].
  set (c2 := match metrics (pcb c1) with Some m => _ | None => _ end).
  assert (H2 : view c2 = view c1)
    by (subst c2; destruct (metrics (pcb c1)); [by case_if|done]). clearbody c2.
  set (c3 := match metrics (pcb c2) with Some _ => _ | None => _ end).
  assert (H3 : view c3 = view c2).
  { subst c3. destruct (metrics (pcb c2)); [done|]. pose proof (view_alloc c2) as Ha.
    destruct (alloc c2) as [ok c2']. exact Ha. }
  clearbody c3. cbn [snd].
  match goal with |- view (if _ then ?x <| pcb ::= _ |> else _) = _ =>
    assert (Hx : view x = view c3) by done; case_if; [rewrite view_mss_changed|] end;
  rewrite Hx; congruence.
Qed.

Lemma view_make_options c flags now_ms :
  view (c <| pcb := snd (make_tcp_options (pcb c) flags now_ms) |>) = view c.
Proof. rewrite make_tcp_options_pcb. by case_if. Qed.

Lemma view_emit c seq ack flags data : view (snd (emit c seq ack flags data)) = view c.
Proof.
  unfold emit. pose proof (view_make_options c flags (get_current_time_ms c)) as H.
  destruct (make_tcp_options _ _ _) as [opts p]. cbn [snd] in H.
  by rewrite view_ip_output.
Qed.

Lemma view_cwnd_change c n : view (tcp_snd_cwnd_change c n) = view c.
Proof. etrans; [apply view_untimed, untimed_cwnd_change|done]. Qed.

Lemma view_win_change c n : view (tcp_snd_win_change c n) = view c.
Proof.
  unfold tcp_snd_win_change. case_if; [done|]. rewrite view_arm_persist.
  etrans; [apply view_untimed, untimed_send_window_update|].
  repeat case_if; try done.
  match goal with |- view (?x <|p snd_wnd := _ |>) = _ =>
    change (view (x <|p snd_wnd := n |>)) with (view x) end.
  by rewrite view_update_timer.
Qed.

Create Rewrite HintDb view.
#[export] Hint Rewrite view_update_timer view_arm_persist view_notify view_cwnd_change
  view_win_change @view_deref : view.

Lemma view_xmit_segment c skb budget push :
  view (snd (tcp_xmit_segment c skb budget push)) = view c.
Proof.
  unfold tcp_xmit_segment. pose proof (view_alloc c) as Ha.
  destruct (alloc c) as [ok c1]. cbn [snd] in Ha. case_if; [done|].
  pose proof (view_set_tcp_socket_route c1) as Hr.
  destruct (set_tcp_socket_route c1) as [r c2]. cbn [snd] in Hr. case_if.
  { cbn [snd]. rewrite view_notify. change (view (_ <|s error := _ |>)) with (view c2). congruence. }
  match goal with |- context [emit c2 ?a ?b ?f ?d] =>
    pose proof (view_emit c2 a b f d) as He; destruct (emit c2 a b f d) as [ret c3] end.
  cbn [snd] in He. case_if; [cbn [snd]; congruence|].
  case_if; cbn [snd]; [|congruence]. rewrite view_update_timer.
  change (view (_ <|p ack_pending_segments := _ |>)) with (view c3). congruence.
Qed.

Lemma view_retransmit_skb c skb probe : view (snd (tcp_retransmit_skb c skb probe)) = view c.
Proof.
  unfold tcp_retransmit_skb.
  repeat case_if; try done; rewrite view_xmit_segment; done.
Qed.

Lemma view_retransmit_now c : view (tcp_retransmit_now c) = view c.
Proof.
  unfold tcp_retransmit_now. destruct (retransmit_queue (pcb c)) as [|skb q]; [done|].
  pose proof (view_retransmit_skb c skb false) as H.
  destruct (tcp_retransmit_skb c skb false) as [r c1]. by rewrite view_update_timer.
Qed.

Lemma view_commit_fin c : view (tcp_commit_fin_send c) = view c.
Proof. unfold tcp_commit_fin_send. by destruct (state (pcb c)). Qed.

Lemma view_nagle_retry c : view (nagle_retry c) = view c.
Proof. apply view_update_timer. Qed.

(** *** Chains of segments *)

(** Sequence numbers a segment occupies. *)
Definition seglen (k : tskb) : Z :=
  skb_data_len k + (if has (t_flag k) TCP_FLAG_SYN then 1 else 0)
  + (if has (t_flag k) TCP_FLAG_FIN then 1 else 0).

(** [q] covers the positions [s .. e) without gap. *)
Fixpoint chain (s : Z) (q : list tskb) (e : Z) : Prop :=
  match q with
  | [] => s = e
  | k :: q' => t_seq k = u32 s /\ chain (s + seglen k) q' e
  end.

(** Payload bytes of a queue, in order. *)
Definition qbytes (q : list tskb) : list Z := concat (t_data <$> q).

Definition qlen (q : list tskb) : Z := Z.of_nat (length (qbytes q)).

Lemma skb_data_len_nonneg k : 0 <= skb_data_len k.
Proof. unfold skb_data_len. lia. Qed.

Lemma seglen_nonneg k : 0 <= seglen k.
Proof. unfold seglen. pose proof (skb_data_len_nonneg k). repeat case_if; lia. Qed.

#[export] Hint Resolve skb_data_len_nonneg seglen_nonneg : netfast.

Lemma chain_app s q1 q2 e :
  chain s (q1 ++ q2) e <-> exists m, chain s q1 m /\ chain m q2 e.
Proof.
  revert s. induction q1 as [|k q1 IH]; intros s; cbn [chain app].
  - split; [eauto|]. intros (m&->&H). done.
  - rewrite IH. split; [intros (?&m&?&?)|intros (m&(?&?)&?)]; eauto.
Qed.

Lemma chain_le s q e : chain s q e -> s <= e.
Proof.
  revert s. induction q as [|k q IH]; intros s; cbn [chain]; [lia|].
  intros (_&H). specialize (IH _ H). pose proof (seglen_nonneg k). lia.
Qed.

Lemma chain_snoc s q k e :
  chain s (q ++ [k]) e <-> exists m, chain s q m /\ t_seq k = u32 m /\ e = m + seglen k.
Proof.
  rewrite chain_app. cbn [chain]. split; intros (m&?&?&?); eauto.
Qed.

Lemma qbytes_app q1 q2 : qbytes (q1 ++ q2) = qbytes q1 ++ qbytes q2.
Proof. unfold qbytes. by rewrite fmap_app, concat_app. Qed.

Lemma qbytes_cons k q : qbytes (k :: q) = t_data k ++ qbytes q.
Proof. done. Qed.

Lemma qlen_app q1 q2 : qlen (q1 ++ q2) = qlen q1 + qlen q2.
Proof. unfold qlen. rewrite qbytes_app, length_app. lia. Qed.

Lemma qlen_cons k q : qlen (k :: q) = skb_data_len k + qlen q.
Proof. unfold qlen, skb_data_len. rewrite qbytes_cons, length_app. lia. Qed.

Lemma qlen_nonneg q : 0 <= qlen q.
Proof. unfold qlen. lia. Qed.

(** The 32-bit sequence length of a segment that fits the window. *)
Lemma tcp_skb_seq_len_eq k : seglen k < 2 ^ 32 -> tcp_skb_seq_len k = seglen k.
Proof.
  intros H. unfold tcp_skb_seq_len. fold (seglen k). apply wrap_id.
  pose proof (seglen_nonneg k). unfold is_u. lia.
Qed.

(** *** Flag algebra *)

Lemma has_testbit flag b : 0 <= b -> has flag (2 ^ b) = Z.testbit flag b.
Proof.
  intros. unfold has. rewrite land_pow2_eqb by done. apply negb_involutive.
Qed.

Lemma has_FIN flag : has flag TCP_FLAG_FIN = Z.testbit flag 0.
Proof. apply (has_testbit flag 0). lia. Qed.
Lemma has_SYN flag : has flag TCP_FLAG_SYN = Z.testbit flag 1.
Proof. apply (has_testbit flag 1). lia. Qed.
Lemma has_ACK flag : has flag TCP_FLAG_ACK = Z.testbit flag 4.
Proof. apply (has_testbit flag 4). lia. Qed.

Lemma clear_fin_bit flag n : 0 <= n < 8 ->
  Z.testbit (clear_flag flag TCP_FLAG_FIN) n = Z.testbit flag n && negb (n =? 0).
Proof.
  intros Hn. unfold clear_flag. rewrite Z.land_spec. f_equal.
  change (255 - TCP_FLAG_FIN) with 254.
  assert (n = 0 \/ n = 1 \/ n = 2 \/ n = 3 \/ n = 4 \/ n = 5 \/ n = 6 \/ n = 7) as Hc by lia.
  destruct Hc as [->|[->|[->|[->|[->|[->|[->| ->]]]]]]]; reflexivity.
Qed.

Lemma clear_syn_bit flag n : 0 <= n < 8 ->
  Z.testbit (clear_flag flag TCP_FLAG_SYN) n = Z.testbit flag n && negb (n =? 1).
Proof.
  intros Hn. unfold clear_flag. rewrite Z.land_spec. f_equal.
  change (255 - TCP_FLAG_SYN) with 253.
  assert (n = 0 \/ n = 1 \/ n = 2 \/ n = 3 \/ n = 4 \/ n = 5 \/ n = 6 \/ n = 7) as Hc by lia.
  destruct Hc as [->|[->|[->|[->|[->|[->|[->| ->]]]]]]]; reflexivity.
Qed.

Lemma has_clear_fin flag :
  has (clear_flag flag TCP_FLAG_FIN) TCP_FLAG_FIN = false /\
  has (clear_flag flag TCP_FLAG_FIN) TCP_FLAG_SYN = has flag TCP_FLAG_SYN /\
  has (clear_flag flag TCP_FLAG_FIN) TCP_FLAG_ACK = has flag TCP_FLAG_ACK.
Proof.
  rewrite !has_FIN, !has_SYN, !has_ACK, !clear_fin_bit by lia. cbn.
  by rewrite andb_false_r, !andb_true_r.
Qed.

Lemma has_clear_syn flag :
  has (clear_flag flag TCP_FLAG_SYN) TCP_FLAG_SYN = false /\
  has (clear_flag flag TCP_FLAG_SYN) TCP_FLAG_FIN = has flag TCP_FLAG_FIN.
Proof.
  rewrite !has_FIN, !has_SYN, !clear_syn_bit by lia. cbn.
  by rewrite andb_false_r, andb_true_r.
Qed.

Lemma has_or_psh flag :
  has (Z.lor flag TCP_FLAG_PSH) TCP_FLAG_FIN = has flag TCP_FLAG_FIN /\
  has (Z.lor flag TCP_FLAG_PSH) TCP_FLAG_SYN = has flag TCP_FLAG_SYN.
Proof.
  rewrite !has_FIN, !has_SYN, !Z.lor_spec. cbn. by rewrite !orb_false_r.
Qed.

Lemma has_or_fin flag :
  has (Z.lor flag TCP_FLAG_FIN) TCP_FLAG_FIN = true /\
  has (Z.lor flag TCP_FLAG_FIN) TCP_FLAG_SYN = has flag TCP_FLAG_SYN.
Proof.
  rewrite !has_FIN, !has_SYN, !Z.lor_spec. cbn. by rewrite orb_true_r, orb_false_r.
Qed.

(** *** The invariant *)

(** At most 2^30 sequence numbers are in the two queues: the send buffer
    limit (at most [INT_MAX / 2] bytes) plus SYN and FIN. *)
Record send_inv (una nxt ende : Z) (c : conn) : Prop := mk_send_inv {
  si_una : snd_una (pcb c) = u32 una;
  si_nxt : snd_nxt (pcb c) = u32 nxt;
  si_end : snd_end (pcb c) = u32 ende;
  si_rtx : chain una (retransmit_queue (pcb c)) nxt;
  si_snd : chain nxt (send_queue (sock c)) ende;
  si_pos : Forall (fun k => 0 < seglen k) (retransmit_queue (pcb c));
  si_nosyn : Forall (fun k => has (t_flag k) TCP_FLAG_SYN = false) (send_queue (sock c));
  si_fin : Forall (fun k => has (t_flag k) TCP_FLAG_FIN = false)
                  (removelast (send_queue (sock c)));
  si_room : ende - una < 2 ^ 31;
  si_len : send_buffer_len (sock c) =
           qlen (retransmit_queue (pcb c)) + qlen (send_queue (sock c))
}.

(** Everything the peer has not acknowledged, in stream order. *)
Definition pending_bytes (c : conn) : list Z :=
  qbytes (retransmit_queue (pcb c)) ++ qbytes (send_queue (sock c)).

Lemma send_inv_view una nxt ende c c' :
  view c' = view c -> send_inv una nxt ende c -> send_inv una nxt ende c'.
Proof.
  intros Hv [? ? ? ? ? ? ? ? ? ?].
  injection Hv as H1 H2 H3 H4 H5 H6 _ _ _ _ _ _.
  constructor; rewrite ?H1, ?H2, ?H3, ?H4, ?H5, ?H6; done.
Qed.

Lemma pending_view c c' : view c' = view c -> pending_bytes c' = pending_bytes c.
Proof.
  intros Hv. injection Hv as _ _ _ H4 H5 _ _ _ _ _ _ _. unfold pending_bytes. by rewrite H4, H5.
Qed.

Lemma send_inv_order una nxt ende c :
  send_inv una nxt ende c -> una <= nxt <= ende.
Proof. intros [? ? ? H1 H2 ? ? ? ? ?]. apply chain_le in H1, H2. lia. Qed.

Lemma chain_qlen s q e : chain s q e -> qlen q <= e - s.
Proof.
  revert s. induction q as [|k q IH]; intros s; cbn [chain].
  - intros ->. change (qlen []) with 0. lia.
  - intros (_&H). specialize (IH _ H). rewrite qlen_cons. unfold seglen in IH.
    repeat case_if; lia.
Qed.

Lemma chain_seglen s k q e : chain s (k :: q) e -> seglen k <= e - s.
Proof. cbn [chain]. intros (_&H). apply chain_le in H. lia. Qed.

(** *** Acknowledgement *)

(** The segment the ACK cuts. *)
Lemma ack_partial k una a :
  t_seq k = u32 una -> una < a < una + seglen k -> seglen k < 2 ^ 31 ->
  let '(flag, consumed) :=
    if has (t_flag k) TCP_FLAG_SYN && (0 <? u32 (u32 a - t_seq k))
    then (clear_flag (t_flag k) TCP_FLAG_SYN, u32 (u32 a - t_seq k) - 1)
    else (t_flag k, u32 (u32 a - t_seq k)) in
  let data := if 0 <? consumed then drop (Z.to_nat consumed) (t_data k) else t_data k in
  0 <= consumed <= skb_data_len k /\ data = drop (Z.to_nat consumed) (t_data k) /\
  seglen (mk_tskb (u32 a) flag data) = una + seglen k - a.
Proof.
  intros Hs Ha Hl. rewrite Hs. autorewrite with wrap.
  rewrite (wrap_id 32 (a - una)) by (unfold is_u; lia).
  rewrite (proj2 (Z.ltb_lt 0 (a - una))) by lia. rewrite andb_true_r.
  set (r := if has (t_flag k) TCP_FLAG_SYN then _ else _).
  assert (Hr : exists flag consumed, r = (flag, consumed) /\
    has flag TCP_FLAG_SYN = false /\ has flag TCP_FLAG_FIN = has (t_flag k) TCP_FLAG_FIN /\
    consumed = a - una - (if has (t_flag k) TCP_FLAG_SYN then 1 else 0)).
  { subst r. destruct (has (t_flag k) TCP_FLAG_SYN) eqn:E; eexists _, _; split_and!;
      try reflexivity; try done; try apply has_clear_syn; lia. }
  destruct Hr as (flag&consumed&->&Hsy&Hfi&->).
  set (consumed := a - una - _).
  unfold seglen in *. cbn [t_flag t_data]. rewrite Hsy, Hfi.
  assert (Hc : 0 <= consumed <= skb_data_len k)
    by (subst consumed; repeat case_if; lia).
  split; [done|].
  assert (Hd : (if 0 <? consumed then drop (Z.to_nat consumed) (t_data k) else t_data k)
               = drop (Z.to_nat consumed) (t_data k)).
  { case_if; [done|]. bool_prop. by replace consumed with 0 by lia. }
  split; [done|]. rewrite Hd. unfold skb_data_len in *. cbn [t_data].
  rewrite length_drop. subst consumed. repeat case_if; lia.
Qed.

Lemma ack_queue_ok a nxt : forall q una acc,
  chain una q nxt -> Forall (fun k => 0 < seglen k) q -> una <= a <= nxt ->
  nxt - una < 2 ^ 31 ->
  let '(q', released, acked) := ack_queue q (u32 a) acc in
  chain a q' nxt /\ Forall (fun k => 0 < seglen k) q' /\
  0 <= released <= qlen q /\ qbytes q' = drop (Z.to_nat released) (qbytes q) /\
  acked = acc || (una <? a).
Proof.
  induction q as [|k q IH]; intros una acc Hc Hp Ha Hn.
  { cbn in Hc. assert (a = una) as -> by lia. cbn. rewrite Z.ltb_irrefl, orb_false_r.
    split_and!; done. }
  cbn [ack_queue]. pose proof (chain_seglen _ _ _ _ Hc) as Hk.
  destruct Hc as [Hs Hc]. apply Forall_cons in Hp as [Hk0 Hp].
  rewrite Hs, SEQ_GT_u32 by lia. destruct (Z.ltb_spec una a) as [Hlt|Hge].
  - rewrite tcp_skb_seq_len_eq, wrap_add_l, SEQ_GEQ_u32 by lia.
    destruct (Z.leb_spec (una + seglen k) a) as [Hfull|Hpart].
    + specialize (IH (una + seglen k) true Hc Hp ltac:(lia) ltac:(lia)).
      destruct (ack_queue q (u32 a) true) as [[q' rel] ?]. destruct IH as (?&?&?&Hb&_).
      rewrite qlen_cons, qbytes_cons. pose proof (skb_data_len_nonneg k).
      split_and!; try done; try lia; try (by rewrite orb_true_r).
      rewrite drop_app_ge by (unfold skb_data_len in *; lia). rewrite Hb. f_equal.
      unfold skb_data_len in *. lia.
    + pose proof (ack_partial k una a Hs ltac:(lia) ltac:(lia)) as Hpa.
      rewrite Hs in Hpa. destruct (if has (t_flag k) TCP_FLAG_SYN && _ then _ else _)
        as [flag consumed]. cbn zeta in Hpa. destruct Hpa as (Hcons&Hd&Hsl).
      pose proof (qlen_nonneg q). rewrite qlen_cons.
      split_and!; try lia; try done; try (by rewrite orb_true_r).
      * cbn [chain]. split; [done|]. rewrite Hsl. by replace (a + (una + seglen k - a)) with (una + seglen k) by lia.
      * apply Forall_cons. split; [rewrite Hsl; lia|done].
      * rewrite !qbytes_cons, Hd. cbn [t_data]. rewrite drop_app_le; [done|].
        unfold skb_data_len in *. lia.
  - assert (a = una) as -> by lia. rewrite orb_false_r. pose proof (qlen_nonneg (k :: q)).
    split_and!; try done; try lia. by apply Forall_cons.
Qed.

(** The queue update is the only change [tcp_update_retransmit_queue] makes to
    the data. *)
Lemma view_update_rtx c :
  let '(q, released, _) := ack_queue (retransmit_queue (pcb c)) (snd_una (pcb c)) false in
  view (tcp_update_retransmit_queue c) =
  view (c <|p retransmit_queue := q |>
          <|s send_buffer_len := u32 (send_buffer_len (sock c) - released) |>).
Proof.
  unfold tcp_update_retransmit_queue.
  destruct (ack_queue _ _ _) as [[q released] acked].
  set (c1 := c <|p retransmit_queue := q |> <|s send_buffer_len := _ |>).
  set (c2 := if acked then _ else c1).
  assert (H2 : view c2 = view c1).
  { subst c2. destruct acked; [|done]. case_if; autorewrite with view; done. }
  clearbody c2. destruct (retransmit_queue (pcb c2)).
  - etrans; [|exact H2]. apply (view_update_timer c2).
  - case_if; [rewrite view_update_timer|]; done.
Qed.

Lemma update_rtx_ok una nxt ende a c :
  send_inv una nxt ende c -> una <= a <= nxt ->
  let c' := tcp_update_retransmit_queue (c <|p snd_una := u32 a |>) in
  send_inv a nxt ende c' /\
  exists released, 0 <= released <= qlen (retransmit_queue (pcb c)) /\
    qbytes (retransmit_queue (pcb c')) =
      drop (Z.to_nat released) (qbytes (retransmit_queue (pcb c))) /\
    pending_bytes c' = drop (Z.to_nat released) (pending_bytes c) /\
    send_buffer_len (sock c') = send_buffer_len (sock c) - released.
Proof.
  intros Hi Ha c'. pose proof (send_inv_order _ _ _ _ Hi) as Ho.
  pose proof (view_update_rtx (c <|p snd_una := u32 a |>)) as Hv. rsimpl in Hv.
  destruct Hi as [H1 H2 H3 H4 H5 H6 H7 H8 H9 H10].
  pose proof (ack_queue_ok a nxt _ una false H4 H6 Ha ltac:(lia)) as Hq.
  destruct (ack_queue _ _ _) as [[q released] acked].
  destruct Hq as (Hc&Hp&Hr&Hb&_). fold c' in Hv. clearbody c'.
  injection Hv as V1 V2 V3 V4 V5 V6 _ _ _ _ _ _.
  assert (Hql : qlen q = qlen (retransmit_queue (pcb c)) - released).
  { unfold qlen in *. rewrite Hb, length_drop. lia. }
  pose proof (qlen_nonneg (send_queue (sock c))). pose proof (chain_qlen _ _ _ H4).
  pose proof (chain_qlen _ _ _ H5).
  rewrite (wrap_id 32) in V6 by (unfold is_u; lia).
  split.
  - constructor; rewrite ?V1, ?V2, ?V3, ?V4, ?V5, ?V6; try done; lia.
  - exists released. rewrite V4, V6. split_and!; try done; try lia.
    unfold pending_bytes. rewrite V4, V5, Hb. rewrite drop_app_le; [done|].
    unfold qlen in *. lia.
Qed.

(** *** Transmission *)

(** What the peer's window, the environment and the wire look like. *)
Definition wview (c : conn) : Z * bool * list packet :=
  (snd_wnd (pcb c), fault (ev c), wire (ev c)).

Lemma wview_untimed c c' : untimed c = untimed c' -> wview c = wview c'.
Proof. intros H. exact (f_equal wview H). Qed.

Lemma wview_update_timer c which d ov : wview (update_timer c which d ov) = wview c.
Proof. apply wview_untimed, untimed_update_timer. Qed.

Lemma wview_arm_persist c : wview (tcp_arm_persist c) = wview c.
Proof. apply wview_untimed, untimed_arm_persist. Qed.

Lemma wview_notify c e : wview (notify_event c e) = wview c.
Proof. by destruct (notify_event_effect c e) as (tk&l&->). Qed.

Lemma wview_alloc c : wview (snd (alloc c)) = wview c.
Proof. unfold alloc. by destruct (allocs (ev c)). Qed.

(** Route selection dereferences no null route and sends nothing. *)
Lemma set_socket_route_ok c :
  let '(r, c') := set_socket_route c in
  wview c' = wview c /\ (0 <= r -> is_Some (route (sock c'))).
Proof.
  unfold set_socket_route.
  destruct (routes (ev c)) as [|[[] [x|]] ?]; rsimpl;
    destruct (route (sock c)) eqn:E; rsimpl; rewrite ?E; split; done || lia || eauto.
Qed.

Lemma wview_mss_changed c : wview (c <| pcb ::= tcp_congestion_mss_changed |>) = wview c.
Proof. unfold tcp_congestion_mss_changed, wview. rsimpl. by destruct (state (pcb c)). Qed.

Lemma wview_set_tcp_socket_route c : wview (snd (set_tcp_socket_route c)) = wview c.
Proof.
  unfold set_tcp_socket_route. pose proof (set_socket_route_ok c) as H.
  destruct (set_socket_route c) as [r c1]. destruct H as [H Hr]. case_if; [done|].
  bool_prop. destruct (Hr ltac:(lia)) as [rt ->].
  case_if; [done|].
  set (c2 := match metrics (pcb c1) with Some m => _ | None => _ end).
  assert (H2 : wview c2 = wview c1)
    by (subst c2; destruct (metrics (pcb c1)); [by case_if|done]). clearbody c2.
  set (c3 := match metrics (pcb c2) with Some _ => _ | None => _ end).
  assert (H3 : wview c3 = wview c2).
  { subst c3. destruct (metrics (pcb c2)); [done|]. pose proof (wview_alloc c2) as Ha.
    destruct (alloc c2) as [ok c2']. exact Ha. }
  clearbody c3. cbn [snd].
  match goal with |- wview (if _ then ?x <| pcb ::= _ |> else _) = _ =>
    assert (Hx : wview x = wview c3) by done; case_if; [rewrite wview_mss_changed|] end;
  congruence.
Qed.

(** One packet goes to IP, with the given sequence number, flags and data. *)
Lemma emit_wire c seq ack flags data :
  let '(_, c') := emit c seq ack flags data in
  exists k, wview c' = (snd_wnd (pcb c), fault (ev c), k :: wire (ev c)) /\
    k_seq k = u32 seq /\ k_flags k = flags /\ k_data k = data.
Proof.
  unfold emit. pose proof (make_tcp_options_pcb (pcb c) flags (get_current_time_ms c)) as H.
  destruct (make_tcp_options _ _ _) as [opts p]. cbn [snd] in H.
  unfold ip_output. rsimpl.
  assert (Hw : snd_wnd p = snd_wnd (pcb c)) by (rewrite H; by case_if).
  destruct (outs (ev c)); eexists; unfold wview; rsimpl; rewrite Hw; split_and!; done.
Qed.

(** A non-SYN segment of [tcp_xmit_segment]: at most one packet, with the first
    [budget] bytes, and FIN only when the budget reaches it. *)
Lemma xmit_segment_wire c skb budget push :
  has (t_flag skb) TCP_FLAG_SYN = false -> 0 <= budget <= seglen skb -> seglen skb < 2 ^ 32 ->
  let '(ret, c') := tcp_xmit_segment c skb budget push in
  exists ks, wview c' = (snd_wnd (pcb c), fault (ev c), ks ++ wire (ev c)) /\
    Forall (fun k => k_seq k = u32 (t_seq skb) /\
                     k_data k = take (Z.to_nat budget) (t_data skb) /\
                     (has (k_flags k) TCP_FLAG_FIN = true -> skb_data_len skb < budget)) ks /\
    (0 <= ret -> length ks = 1%nat).
Proof.
  intros Hsyn Hb Hl. unfold tcp_xmit_segment. rewrite Hsyn, tcp_skb_seq_len_eq by lia.
  rewrite (Z.min_l budget) by lia. rewrite !Z.add_0_l, Z.sub_0_r.
  pose proof (wview_alloc c) as Ha. destruct (alloc c) as [ok c1]. cbn [snd] in Ha.
  case_if; [exists []; split_and!; [done|done|intros; exfalso; unfold ENOMEM in *; lia]|].
  replace (if 0 <? budget then budget else 0) with budget by (case_if; bool_prop; lia).
  match goal with |- context [Z.lor (?f) TCP_FLAG_PSH] => set (flag := f) end.
  match goal with |- context [emit _ _ _ (if ?b then _ else _) ?d] =>
    set (data := d); set (pb := b) end.
  assert (Hd : data = take (Z.to_nat budget) (t_data skb)).
  { subst data. unfold skb_data_len in *. case_if; bool_prop.
    - by rewrite Z.min_r by lia.
    - rewrite take_ge; [done|lia]. }
  assert (Hf : has (if pb then Z.lor flag TCP_FLAG_PSH else flag) TCP_FLAG_FIN = true ->
               skb_data_len skb < budget).
  { intros Hx. replace (has _ _) with (has flag TCP_FLAG_FIN) in Hx
      by (destruct pb; [by rewrite (proj1 (has_or_psh flag))|done]).
    subst flag. case_if; [bool_prop; lia|]. by rewrite (proj1 (has_clear_fin _)) in Hx. }
  clearbody data pb flag. pose proof (wview_set_tcp_socket_route c1) as Hr.
  destruct (set_tcp_socket_route c1) as [r c2]. cbn [snd] in Hr. rewrite Ha in Hr.
  case_if; [exists []; split_and!;
            [rewrite wview_notify; exact Hr|done|intros; exfalso; unfold EHOSTUNREACH in *; lia]|].
  pose proof (emit_wire c2 (t_seq skb) (rcv_nxt (pcb c2))
                (if pb then Z.lor flag TCP_FLAG_PSH else flag) data) as He.
  destruct (emit _ _ _ _ _) as [ret c3]. destruct He as (k&He&Hk1&Hk2&Hk3).
  injection Hr as R1 R2 R3. rewrite R1, R2, R3 in He.
  assert (Hk : forall c4, wview c4 = wview c3 -> exists ks,
    wview c4 = (snd_wnd (pcb c), fault (ev c), ks ++ wire (ev c)) /\
    Forall (fun k => k_seq k = u32 (t_seq skb) /\
                     k_data k = take (Z.to_nat budget) (t_data skb) /\
                     (has (k_flags k) TCP_FLAG_FIN = true -> skb_data_len skb < budget)) ks /\
    (0 <= ret -> length ks = 1%nat)).
  { intros c4 H4. exists [k]. rewrite H4, He. split_and!; [done| |done].
    apply Forall_singleton. rewrite Hk2, Hk3. done. }
  repeat case_if; apply Hk; rewrite ?wview_update_timer; done.
Qed.

Lemma last_snoc_inv {A} (q : list A) l : last q = Some l -> q = removelast q ++ [l].
Proof.
  intros H. destruct q as [|a q _] using rev_ind; [done|].
  rewrite last_snoc in H. injection H as ->. by rewrite removelast_last.
Qed.

(** The transmitted segment extends the retransmit queue, coalesced or not. *)
Lemma retransmit_enqueue_ok una nxt c skb :
  chain una (retransmit_queue (pcb c)) nxt ->
  Forall (fun k => 0 < seglen k) (retransmit_queue (pcb c)) ->
  t_seq skb = u32 nxt -> seglen skb < 2 ^ 32 ->
  exists q, view (tcp_retransmit_enqueue c skb) = view (c <|p retransmit_queue := q |>) /\
    wview (tcp_retransmit_enqueue c skb) = wview c /\
    chain una q (nxt + seglen skb) /\ Forall (fun k => 0 < seglen k) q /\
    qbytes q = qbytes (retransmit_queue (pcb c)) ++ t_data skb.
Proof.
  intros Hc Hp Hs Hl. unfold tcp_retransmit_enqueue. rewrite tcp_skb_seq_len_eq by done.
  set (rtx := retransmit_queue (pcb c)) in *.
  destruct (Z.eqb_spec (seglen skb) 0) as [H0|H0].
  { exists rtx. rewrite H0, Z.add_0_r. split_and!; try done. unfold seglen, skb_data_len in H0.
    destruct (t_data skb); cbn in H0; [by rewrite app_nil_r|repeat case_if; lia]. }
  assert (Happ : chain una (rtx ++ [skb]) (nxt + seglen skb) /\
    Forall (fun k => 0 < seglen k) (rtx ++ [skb]) /\
    qbytes (rtx ++ [skb]) = qbytes rtx ++ t_data skb).
  { pose proof (seglen_nonneg skb). split_and!.
    - apply chain_snoc. eauto.
    - apply Forall_app. split; [done|]. apply Forall_singleton. lia.
    - rewrite qbytes_app, qbytes_cons. by rewrite app_nil_r. }
  destruct (last rtx) as [l|] eqn:El; [|by exists (rtx ++ [skb])].
  case_if; [|by exists (rtx ++ [skb])].
  pose proof (view_alloc c) as Ha. pose proof (wview_alloc c) as Hw.
  destruct (alloc c) as [ok c1]. cbn [snd] in Ha, Hw.
  assert (Hr : retransmit_queue (pcb c1) = rtx) by exact (f_equal v_rtx Ha). rewrite Hr.
  destruct ok; [|exists (rtx ++ [skb]); split_and!; try apply Happ;
                 [by apply view_set_rtx|exact Hw]].
  exists (removelast rtx ++ [l <| t_data := t_data l ++ t_data skb |>]).
  apply last_snoc_inv in El. clearbody rtx. bool_prop.
  assert (Hlen : seglen (l <| t_data := t_data l ++ t_data skb |>) = seglen l + seglen skb).
  { unfold seglen, skb_data_len. rsimpl. destruct_and?.
    repeat match goal with H : t_flag _ = _ |- _ => rewrite H end.
    change (has TCP_FLAG_ACK TCP_FLAG_SYN) with false.
    change (has TCP_FLAG_ACK TCP_FLAG_FIN) with false. rewrite length_app. lia. }
  rewrite El in Hc, Hp. apply chain_snoc in Hc as (m&Hm&Hlm&->).
  apply Forall_app in Hp as [Hp1 Hp2]. apply Forall_cons in Hp2 as [Hp2 _].
  pose proof (seglen_nonneg skb).
  split_and!; [by apply view_set_rtx|exact Hw| | |].
  - apply chain_snoc. exists m. rewrite Hlen. split_and!; [done|done|lia].
  - apply Forall_app. split; [done|]. apply Forall_singleton. rewrite Hlen. lia.
  - rewrite El at 2. rewrite !qbytes_app, !qbytes_cons. rsimpl. by rewrite <- !app_assoc, app_nil_r.
Qed.

(** The bytes [k] carries are those of the stream [bytes] that starts at
    position [s], and it does not reach past [e]; a FIN sits just below [ende]. *)
Definition in_stream (s e ende : Z) (bytes : list Z) (k : packet) : Prop :=
  exists off, 0 <= off /\ k_seq k = u32 (s + off) /\
    k_data k = take (length (k_data k)) (drop (Z.to_nat off) bytes) /\
    let n := Z.of_nat (length (k_data k)) in
    s + off + n <= e /\
    (has (k_flags k) TCP_FLAG_FIN = true -> s + off + n + 1 = ende /\ ende <= e).

Lemma in_stream_shift s m e ende bytes k :
  0 <= m -> in_stream (s + m) e ende (drop (Z.to_nat m) bytes) k ->
  in_stream s e ende bytes k.
Proof.
  intros Hm (off&H1&H2&H3&H4&H5). exists (m + off). cbn zeta in *. split_and!; [lia| | | |].
  - rewrite H2. f_equal. lia.
  - rewrite H3 at 1. rewrite drop_drop. f_equal. f_equal. lia.
  - lia.
  - intros H. destruct (H5 H). lia.
Qed.

Lemma in_stream_mono s e e' ende bytes k :
  e <= e' -> in_stream s e ende bytes k -> in_stream s e' ende bytes k.
Proof.
  intros He (off&H1&H2&H3&H4&H5). exists off. cbn zeta in *. split_and!; try done; [lia|].
  intros H. destruct (H5 H). lia.
Qed.

Lemma route_alloc c : route (sock (snd (alloc c))) = route (sock c).
Proof. unfold alloc. by destruct (allocs (ev c)). Qed.

Lemma route_untimed c c' : untimed c = untimed c' -> route (sock c) = route (sock c').
Proof. intros H. untimed_field H (fun c => route (sock c)). Qed.

Lemma route_update_timer c which d ov : route (sock (update_timer c which d ov)) = route (sock c).
Proof. apply route_untimed, untimed_update_timer. Qed.

(** Route selection that succeeds leaves a route. *)
Lemma set_tcp_socket_route_some c :
  0 <= fst (set_tcp_socket_route c) -> is_Some (route (sock (snd (set_tcp_socket_route c)))).
Proof.
  unfold set_tcp_socket_route. pose proof (set_socket_route_ok c) as H.
  destruct (set_socket_route c) as [r c1]. destruct H as [_ Hr].
  case_if; [cbn; lia|]. bool_prop. destruct (Hr ltac:(lia)) as [rt Hrt]. rewrite Hrt.
  case_if; [cbn; lia|]. intros _.
  set (c2 := match metrics (pcb c1) with Some m => _ | None => _ end).
  assert (H2 : route (sock c2) = route (sock c1))
    by (subst c2; destruct (metrics (pcb c1)); [by case_if|done]). clearbody c2.
  set (c3 := match metrics (pcb c2) with Some _ => _ | None => _ end).
  assert (H3 : route (sock c3) = route (sock c2)).
  { subst c3. destruct (metrics (pcb c2)); [done|]. pose proof (route_alloc c2) as Ha.
    destruct (alloc c2) as [ok c2']. exact Ha. }
  clearbody c3. cbn [snd]. exists rt. rewrite <- Hrt, <- H2, <- H3. by case_if.
Qed.

Lemma route_emit c seq ack flags data :
  route (sock (snd (emit c seq ack flags data))) = route (sock c).
Proof.
  unfold emit, ip_output. destruct (make_tcp_options _ _ _) as [opts p]. cbn zeta. by case_match.
Qed.

Lemma xmit_segment_route c skb budget push :
  0 <= fst (tcp_xmit_segment c skb budget push) ->
  is_Some (route (sock (snd (tcp_xmit_segment c skb budget push)))).
Proof.
  unfold tcp_xmit_segment. destruct (alloc c) as [ok c1].
  case_if; [cbn; unfold ENOMEM; lia|].
  pose proof (set_tcp_socket_route_some c1) as Hr.
  destruct (set_tcp_socket_route c1) as [r c2]. cbn [fst snd] in Hr.
  case_if; [cbn; unfold EHOSTUNREACH; lia|]. bool_prop. specialize (Hr ltac:(lia)).
  match goal with |- context [emit c2 ?a ?b ?f ?d] =>
    pose proof (route_emit c2 a b f d) as He; destruct (emit c2 a b f d) as [ret c3] end.
  cbn [snd] in He. rewrite <- He in Hr. intros _.
  case_if; [done|]. case_if; [|done]. cbn [snd]. by rewrite route_update_timer.
Qed.

Lemma route_commit_fin c : route (sock (tcp_commit_fin_send c)) = route (sock c).
Proof. unfold tcp_commit_fin_send. by destruct (state (pcb c)). Qed.

Lemma route_enqueue c skb : route (sock (tcp_retransmit_enqueue c skb)) = route (sock c).
Proof.
  unfold tcp_retransmit_enqueue. case_if; [done|]. destruct (last _); [|done].
  case_if; [|done]. pose proof (route_alloc c) as Ha. by destruct (alloc c) as [[] c1].
Qed.

(** The split leaves the same chain and bytes, with a head of exactly the
    sequence length to send. *)
Lemma split_unsent_ok nxt ende c skb rest budget :
  is_Some (route (sock c)) -> send_queue (sock c) = skb :: rest -> chain nxt (skb :: rest) ende ->
  Forall (fun k => has (t_flag k) TCP_FLAG_SYN = false) (skb :: rest) ->
  Forall (fun k => has (t_flag k) TCP_FLAG_FIN = false) (removelast (skb :: rest)) ->
  0 <= budget <= seglen skb -> ende - nxt < 2 ^ 31 ->
  let n := Z.min (skb_data_len skb) budget in
  let fin := has (t_flag skb) TCP_FLAG_FIN && (skb_data_len skb <? budget) in
  u32 (n + (if fin then 1 else 0)) = budget /\
  let '(o, c') := split_unsent c skb rest n budget fin in
  wview c' = wview c /\ route (sock c') = route (sock c) /\
  match o with
  | None => view c' = view c
  | Some hd => exists rest', view c' = view (c <|s send_queue := hd :: rest' |>) /\
      seglen hd = budget /\ chain nxt (hd :: rest') ende /\
      Forall (fun k => has (t_flag k) TCP_FLAG_SYN = false) (hd :: rest') /\
      Forall (fun k => has (t_flag k) TCP_FLAG_FIN = false) (removelast (hd :: rest')) /\
      qbytes (hd :: rest') = qbytes (skb :: rest)
  end.
Proof.
  intros Hro Hq Hc Hsyn Hfin Hb Hr. cbn zeta.
  pose proof (chain_seglen _ _ _ _ Hc) as Hk.
  pose proof (proj1 (proj1 (Forall_cons _ _ _) Hsyn)) as Hs0. cbn beta in Hs0.
  assert (Hsl : seglen skb = skb_data_len skb + if has (t_flag skb) TCP_FLAG_FIN then 1 else 0)
    by (unfold seglen; rewrite Hs0; lia).
  assert (Hn : Z.min (skb_data_len skb) budget
     + (if has (t_flag skb) TCP_FLAG_FIN && (skb_data_len skb <? budget) then 1 else 0) = budget).
  { destruct (has (t_flag skb) TCP_FLAG_FIN); cbn [andb]; [case_if; bool_prop|]; lia. }
  rewrite Hn. split; [apply wrap_id; unfold is_u; lia|].
  unfold split_unsent. rewrite tcp_skb_seq_len_eq by lia.
  destruct (Z.ltb_spec budget (seglen skb)) as [Hlt|Hge].
  2: { split_and!; [done|done|]. exists rest. split_and!; try done; [|lia].
       unfold view. rsimpl. by rewrite Hq. }
  replace (if _ <? skb_data_len skb then c else deref (route (sock c)) c) with c
    by (destruct Hro as [? ->]; by case_if).
  pose proof (view_alloc c) as Ha. pose proof (wview_alloc c) as Hw.
  pose proof (route_alloc c) as Hra.
  destruct (alloc c) as [ok c1]. cbn [snd] in Ha, Hw, Hra.
  destruct ok; cbn [negb]; [|done]. split_and!; [done|done|].
  assert (Hbl : budget <= skb_data_len skb) by (revert Hsl; case_if; lia).
  replace (has (t_flag skb) TCP_FLAG_FIN && (skb_data_len skb <? budget)) with false
    by (symmetry; apply andb_false_iff; right; apply Z.ltb_ge; lia).
  rewrite Z.min_r by done.
  set (flag := clear_flag (t_flag skb) TCP_FLAG_FIN).
  match goal with |- context [?h <| t_flag := clear_flag (t_flag ?h) _ |>] =>
    replace (h <| t_flag := clear_flag (t_flag h) TCP_FLAG_FIN |>)
      with (mk_tskb (t_seq skb) flag (take (Z.to_nat budget) (t_data skb))) end.
  2: { unfold skb_data_len. case_if; [done|]. bool_prop. rewrite take_ge by lia. done. }
  replace (if budget <? skb_data_len skb then drop (Z.to_nat budget) (t_data skb) else [])
    with (drop (Z.to_nat budget) (t_data skb)).
  2: { case_if; [done|]. bool_prop. unfold skb_data_len in *. by rewrite drop_ge by lia. }
  cbn [t_seq]. eexists. split; [by apply view_set_sndq|].
  destruct (has_clear_fin (t_flag skb)) as (Hf1&Hf2&_). fold flag in Hf1, Hf2.
  assert (Hhl : seglen (mk_tskb (t_seq skb) flag (take (Z.to_nat budget) (t_data skb))) = budget).
  { unfold seglen, skb_data_len in *. cbn [t_flag t_data]. rewrite Hf1, Hf2, Hs0, length_take. lia. }
  destruct Hc as [Hc1 Hc2]. apply Forall_cons in Hsyn as [_ Hsyn].
  split_and!; [done| | | |].
  - cbn [chain]. split; [done|]. cbn [chain t_seq] in *. rewrite Hhl. split.
    + rewrite Hc1. by rewrite wrap_add_l.
    + replace (nxt + budget + _) with (nxt + seglen skb); [done|].
      unfold seglen, skb_data_len in *. cbn [t_flag t_data]. rewrite Hs0, length_drop. lia.
  - repeat (apply Forall_cons; split; [cbn [t_flag]; congruence|]). done.
  - change (removelast (?a :: ?b :: ?l)) with (a :: removelast (b :: l)).
    apply Forall_cons. split; [done|].
    destruct rest as [|r0 rest]; [done|].
    change (removelast (?a :: ?b :: ?l)) with (a :: removelast (b :: l)).
    change (removelast (?a :: ?b :: ?l)) with (a :: removelast (b :: l)) in Hfin.
    apply Forall_cons in Hfin as [? Hfin]. by apply Forall_cons.
  - rewrite !qbytes_cons. cbn [t_data]. by rewrite app_assoc, take_drop.
Qed.

Lemma wview_commit_fin c : wview (tcp_commit_fin_send c) = wview c.
Proof. unfold tcp_commit_fin_send. by destruct (state (pcb c)). Qed.

(** After a successful transmission: the head moves to the retransmit queue. *)
Lemma xmit_commit_ok una nxt ende c hd rest (send_fin : bool) :
  send_inv una nxt ende c -> send_queue (sock c) = hd :: rest ->
  let c1 := c <|p snd_nxt := u32 (snd_nxt (pcb c) + seglen hd) |> in
  let c1 := update_timer c1 retransmit_deadline
              (get_current_time_ms c1 + retransmit_timeout (pcb c1)) false in
  let c1 := if send_fin then tcp_commit_fin_send c1 else c1 in
  let c1 := if rtt_meas_time (pcb c1) =? 0
            then c1 <|p rtt_meas_time := get_current_time_ms c1 |> <|p rtt_meas_seq := t_seq hd |>
            else c1 in
  let c1 := c1 <|s send_queue := tail (send_queue (sock c1)) |> in
  let c' := tcp_retransmit_enqueue c1 hd in
  send_inv una (nxt + seglen hd) ende c' /\ pending_bytes c' = pending_bytes c /\
  wview c' = wview c /\ send_queue (sock c') = rest.
Proof.
  intros Hi Hq. pose proof (send_inv_order _ _ _ _ Hi) as Ho.
  destruct Hi as [H1 H2 H3 H4 H5 H6 H7 H8 H9 H10].
  rewrite Hq in H5, H7, H8. pose proof (chain_seglen _ _ _ _ H5) as Hk.
  set (c0 := c <|p snd_nxt := _ |>). cbn zeta.
  match goal with |- context [tail (send_queue (sock ?x))] => set (c1 := x) end.
  assert (V1 : view c1 = view c0 /\ wview c1 = wview c).
  { subst c1. match goal with |- context [if send_fin then tcp_commit_fin_send ?x else ?x] =>
      set (c2 := x) end.
    assert (Hx : forall x : conn, view x = view c0 /\ wview x = wview c ->
      view (if rtt_meas_time (pcb x) =? 0 then x <|p rtt_meas_time := get_current_time_ms x |>
              <|p rtt_meas_seq := t_seq hd |> else x) = view c0 /\
      wview (if rtt_meas_time (pcb x) =? 0 then x <|p rtt_meas_time := get_current_time_ms x |>
              <|p rtt_meas_seq := t_seq hd |> else x) = wview c) by (intros x ?; by case_if).
    apply Hx. destruct send_fin; rewrite ?view_commit_fin, ?wview_commit_fin;
      split; first [apply view_update_timer | etrans; [apply wview_update_timer|done]]. }
  destruct V1 as [V1 W1]. clearbody c1.
  assert (Hq1 : send_queue (sock c1) = hd :: rest) by (rewrite <- Hq; exact (f_equal v_snd V1)).
  rewrite Hq1. cbn [tail].
  set (c2 := c1 <|s send_queue := rest |>).
  assert (V2 : view c2 = view (c0 <|s send_queue := rest |>)) by by apply view_set_sndq.
  assert (Hr2 : retransmit_queue (pcb c2) = retransmit_queue (pcb c)) by exact (f_equal v_rtx V2).
  destruct H5 as [Hc1 Hc2].
  destruct (retransmit_enqueue_ok una nxt c2 hd) as (q&E1&E2&E3&E4&E5);
    rewrite ?Hr2; try done; [lia|].
  rewrite (view_set_rtx _ _ q V2) in E1. rewrite Hr2 in E5.
  assert (Hlen : qlen q = qlen (retransmit_queue (pcb c)) + skb_data_len hd)
    by (unfold qlen, skb_data_len; rewrite E5, length_app; lia).
  injection E1 as F1 F2 F3 F4 F5 F6 _ _ _ _ _ _.
  split_and!.
  - constructor; rewrite ?F1, ?F2, ?F3, ?F4, ?F5, ?F6; try done.
    + rewrite H2. by rewrite wrap_add_l.
    + by apply Forall_cons in H7 as [_ ?].
    + destruct rest; [done|]. by apply Forall_cons in H8 as [_ ?].
    + rewrite H10, Hq, qlen_cons, Hlen. lia.
  - unfold pending_bytes. rewrite F4, F5, E5, Hq, qbytes_cons. by rewrite app_assoc.
  - rewrite E2. exact W1.
  - exact F5.
Qed.

(** One step of the sender: what [tcp_xmit_new_skb] and the loop around it do to
    the stream. [e] bounds the positions sent. *)
Definition sends (una nxt ende e : Z) (c c' : conn) : Prop :=
  exists sent ks, 0 <= sent /\ (nxt + sent <= e \/ sent = 0) /\
    send_inv una (nxt + sent) ende c' /\ pending_bytes c' = pending_bytes c /\
    wview c' = (snd_wnd (pcb c), fault (ev c), ks ++ wire (ev c)) /\
    Forall (in_stream nxt e ende (qbytes (send_queue (sock c)))) ks /\
    qbytes (send_queue (sock c')) = drop (Z.to_nat sent) (qbytes (send_queue (sock c))).

Lemma sends_nothing una nxt ende e c c' :
  send_inv una nxt ende c -> view c' = view c -> wview c' = wview c ->
  sends una nxt ende e c c'.
Proof.
  intros Hi Hv Hw. exists 0, []. rewrite Z.add_0_r.
  split_and!; [lia|by right|by eapply send_inv_view|by apply pending_view|done|done|].
  by injection Hv as _ _ _ _ -> _ _ _ _ _ _ _.
Qed.

Lemma sends_after una nxt ende e c c1 c2 :
  view c2 = view c1 -> wview c2 = wview c1 -> sends una nxt ende e c c1 ->
  sends una nxt ende e c c2.
Proof.
  intros Hv Hw (sent&ks&H1&H2&H3&H4&H5&H6&H7). exists sent, ks.
  split_and!; try done.
  - by eapply send_inv_view.
  - rewrite <- H4. by apply pending_view.
  - congruence.
  - injection Hv as _ _ _ _ -> _ _ _ _ _ _ _. done.
Qed.

(** Only the last unsent segment carries FIN. *)
Lemma head_fin hd rest nxt ende :
  chain nxt (hd :: rest) ende ->
  Forall (fun k => has (t_flag k) TCP_FLAG_SYN = false) (hd :: rest) ->
  Forall (fun k => has (t_flag k) TCP_FLAG_FIN = false) (removelast (hd :: rest)) ->
  seglen hd = skb_data_len hd \/
  seglen hd = skb_data_len hd + 1 /\ rest = [] /\ ende = nxt + seglen hd.
Proof.
  intros [_ Hc] Hs Hf. apply Forall_cons in Hs as [Hs _].
  unfold seglen in *. rewrite Hs in *. destruct (has (t_flag hd) TCP_FLAG_FIN) eqn:E; [|lia].
  destruct rest; cbn [chain] in Hc; [right; split_and!; [lia|done|lia]|].
  apply Forall_cons in Hf as [Hf _]. congruence.
Qed.

Lemma head_in_stream hd rest nxt ende e k :
  chain nxt (hd :: rest) ende ->
  Forall (fun k => has (t_flag k) TCP_FLAG_SYN = false) (hd :: rest) ->
  Forall (fun k => has (t_flag k) TCP_FLAG_FIN = false) (removelast (hd :: rest)) ->
  nxt + seglen hd <= e ->
  k_seq k = u32 (t_seq hd) -> k_data k = take (Z.to_nat (seglen hd)) (t_data hd) ->
  (has (k_flags k) TCP_FLAG_FIN = true -> skb_data_len hd < seglen hd) ->
  in_stream nxt e ende (qbytes (hd :: rest)) k.
Proof.
  intros Hc Hs Hf He Hk1 Hk2 Hk3. pose proof (head_fin _ _ _ _ Hc Hs Hf) as Hh.
  destruct Hc as [Hc _]. unfold skb_data_len in *.
  rewrite take_ge in Hk2 by lia. exists 0. cbn zeta. rewrite Hk2, !Z.add_0_r.
  split_and!; try lia.
  - rewrite Hk1, Hc. by rewrite wrap_wrap by lia.
  - rewrite qbytes_cons, drop_0, take_app_le by lia. by rewrite take_ge by lia.
  - intros H. specialize (Hk3 H). lia.
Qed.

Lemma head_drop hd rest nxt ende :
  chain nxt (hd :: rest) ende ->
  Forall (fun k => has (t_flag k) TCP_FLAG_SYN = false) (hd :: rest) ->
  Forall (fun k => has (t_flag k) TCP_FLAG_FIN = false) (removelast (hd :: rest)) ->
  qbytes rest = drop (Z.to_nat (seglen hd)) (qbytes (hd :: rest)).
Proof.
  intros Hc Hs Hf. rewrite qbytes_cons.
  destruct (head_fin _ _ _ _ Hc Hs Hf) as [Hh|(Hh&->&_)]; rewrite Hh; unfold skb_data_len.
  - by rewrite Nat2Z.id, drop_app_length.
  - symmetry. apply drop_ge. rewrite length_app. cbn. lia.
Qed.

Lemma xmit_new_ok una nxt ende c skb rest budget push :
  send_inv una nxt ende c -> is_Some (route (sock c)) ->
  send_queue (sock c) = skb :: rest -> 0 <= budget ->
  let '(ret, c') := tcp_xmit_new_skb c budget push in
  sends una nxt ende (nxt + budget) c c' /\
  (0 <= ret -> is_Some (route (sock c'))).
Proof.
  intros Hi Hro Hq Hb0. pose proof (send_inv_order _ _ _ _ Hi) as Ho.
  destruct Hi as [H1 H2 H3 H4 H5 H6 H7 H8 H9 H10] eqn:EHi. clear EHi.
  unfold tcp_xmit_new_skb. rewrite Hq. rewrite Hq in H5, H7, H8.
  pose proof (chain_seglen _ _ _ _ H5) as Hk. pose proof (seglen_nonneg skb).
  rewrite tcp_skb_seq_len_eq by lia.
  set (b := Z.min budget (seglen skb)). cbn zeta.
  destruct (split_unsent_ok nxt ende c skb rest b Hro Hq H5 H7 H8 ltac:(lia) ltac:(lia)) as [Hn Hs].
  cbn zeta in Hs. rewrite Hn.
  set (fin := has (t_flag skb) TCP_FLAG_FIN && (skb_data_len skb <? b)) in *.
  destruct (split_unsent _ _ _ _ _ _) as [[hd|] c1]; destruct Hs as (Hw1&_&Hs).
  2: { split; [|unfold ENOMEM; lia]. apply sends_nothing; [done| |].
       - by rewrite view_nagle_retry.
       - unfold nagle_retry. by rewrite wview_update_timer. }
  destruct Hs as (rest'&Hv1&Hl&Hch&Hsy&Hfi&Hby).
  assert (Hi1 : send_inv una nxt ende (c <|s send_queue := hd :: rest' |>)).
  { constructor; rsimpl; try done. rewrite H10, Hq. f_equal. unfold qlen. by rewrite Hby. }
  apply (send_inv_view _ _ _ _ c1) in Hi1; [|done].
  assert (Hq1 : send_queue (sock c1) = hd :: rest') by exact (f_equal v_snd Hv1).
  assert (Hp1 : pending_bytes c1 = pending_bytes c).
  { unfold pending_bytes. rewrite Hq1, Hq, Hby. f_equal. f_equal. exact (f_equal v_rtx Hv1). }
  pose proof (proj1 (proj1 (Forall_cons _ _ _) Hsy)) as Hs0. cbn beta in Hs0.
  pose proof (xmit_segment_wire c1 hd b push Hs0 ltac:(lia) ltac:(lia)) as Hx.
  pose proof (view_xmit_segment c1 hd b push) as Hv2.
  pose proof (xmit_segment_route c1 hd b push) as Hro2.
  destruct (tcp_xmit_segment c1 hd b push) as [ret c2]. cbn [fst snd] in Hv2, Hro2.
  destruct Hx as (ks&Hw2&Hks&Hret). injection Hw1 as W1 W2 W3. rewrite W1, W2, W3 in Hw2.
  assert (Hi2 : send_inv una nxt ende c2) by by eapply send_inv_view.
  assert (Hq2 : send_queue (sock c2) = hd :: rest') by (rewrite <- Hq1; exact (f_equal v_snd Hv2)).
  assert (Hst : Forall (in_stream nxt (nxt + budget) ende (qbytes (send_queue (sock c)))) ks).
  { eapply Forall_impl; [exact Hks|]. intros k (?&?&?). rewrite Hq, <- Hby.
    apply head_in_stream; rewrite ?Hl; done || lia. }
  case_if; bool_prop.
  { split; [|lia]. apply (sends_after _ _ _ _ _ c2); [apply view_nagle_retry| |].
    - unfold nagle_retry. by rewrite wview_update_timer.
    - exists 0, ks. rewrite Hq in Hst. rewrite Z.add_0_r, Hq2, Hq, Hby.
      split_and!; try done; try lia. rewrite <- Hp1. by apply pending_view. }
  pose proof (xmit_commit_ok una nxt ende c2 hd rest' fin Hi2 Hq2) as Hcm.
  rewrite Hl in Hcm. cbn zeta in Hcm. destruct Hcm as (C1&C2&C3&C4).
  split.
  - exists b, ks. split_and!; [lia|lia|done| |congruence|done|].
    + rewrite C2, <- Hp1. by apply pending_view.
    + rewrite C4, Hq, <- Hby, <- Hl. by eapply head_drop.
  - intros Hret'. specialize (Hro2 Hret'). clear - Hro2. rewrite route_enqueue.
    match goal with |- is_Some (route (sock (_ <|s send_queue := _ |>))) => idtac end.
    case_if; rsimpl; (case_if; [rewrite route_commit_fin|]); by rewrite route_update_timer.
Qed.

Lemma sends_trans una nxt ende e sent c c1 c2 :
  0 <= sent -> (nxt + sent <= e \/ sent = 0) ->
  pending_bytes c1 = pending_bytes c ->
  qbytes (send_queue (sock c1)) = drop (Z.to_nat sent) (qbytes (send_queue (sock c))) ->
  (exists ks, wview c1 = (snd_wnd (pcb c), fault (ev c), ks ++ wire (ev c)) /\
     Forall (in_stream nxt e ende (qbytes (send_queue (sock c)))) ks) ->
  sends una (nxt + sent) ende e c1 c2 -> sends una nxt ende e c c2.
Proof.
  intros H0 He Hp Hq (ks&Hw&Hk) (sent2&ks2&G1&G2&G3&G4&G5&G6&G7).
  exists (sent + sent2), (ks2 ++ ks). injection Hw as W1 W2 W3.
  rewrite W1, W2, W3, app_assoc in G5. rewrite Z.add_assoc.
  split_and!; [lia|lia|done|congruence|done| |].
  - apply Forall_app. split; [|done]. eapply Forall_impl; [exact G6|]. intros k Hs.
    apply (in_stream_shift _ sent); [done|]. by rewrite <- Hq.
  - rewrite G7, Hq, drop_drop. f_equal. lia.
Qed.

Lemma sends_mono una nxt ende e e' c c' :
  e <= e' -> sends una nxt ende e c c' -> sends una nxt ende e' c c'.
Proof.
  intros He (sent&ks&H1&H2&H3&H4&H5&H6&H7). exists sent, ks. split_and!; try done; [lia|].
  eapply Forall_impl; [exact H6|]. intros k. by apply in_stream_mono.
Qed.

(** The congestion window stays non-negative along the send path. *)
Definition cwnd_ok (c : conn) : Prop := 0 <= snd_cwnd (pcb c).

Lemma cwnd_ok_untimed c c' : untimed c' = untimed c -> cwnd_ok c -> cwnd_ok c'.
Proof.
  unfold cwnd_ok. intros H.
  assert (E : snd_cwnd (pcb c') = snd_cwnd (pcb c)) by untimed_field H (fun c => snd_cwnd (pcb c)).
  by rewrite E.
Qed.

Lemma cwnd_ok_update_timer c which d ov : cwnd_ok c -> cwnd_ok (update_timer c which d ov).
Proof. apply cwnd_ok_untimed, untimed_update_timer. Qed.

Lemma cwnd_ok_alloc c : cwnd_ok c -> cwnd_ok (snd (alloc c)).
Proof. unfold alloc. by destruct (allocs (ev c)). Qed.

Lemma cwnd_ok_notify c e : cwnd_ok c -> cwnd_ok (notify_event c e).
Proof. by destruct (notify_event_effect c e) as (tk&l&->). Qed.

Lemma cwnd_ok_mss_changed c : cwnd_ok c -> cwnd_ok (c <| pcb ::= tcp_congestion_mss_changed |>).
Proof.
  unfold cwnd_ok, tcp_congestion_mss_changed, tcp_congestion_init. rsimpl.
  pose proof (wrap_range 32 (u64 (CUBIC_INITIAL_WINDOW * tcp_ca_mss (pcb c))) ltac:(lia)).
  intros. destruct (state (pcb c)); rsimpl; try done; case_if; unfold is_u, UINT32_MAX in *; lia.
Qed.

Lemma cwnd_ok_set_route c : cwnd_ok c -> cwnd_ok (snd (set_tcp_socket_route c)).
Proof.
  intros Hc. unfold set_tcp_socket_route.
  assert (H : cwnd_ok (snd (set_socket_route c))).
  { unfold set_socket_route. destruct (routes (ev c)) as [|[[] ?] ?]; rsimpl;
      by destruct (route (sock c)). }
  destruct (set_socket_route c) as [r c1]. cbn [snd] in H. case_if; [done|].
  destruct (route (sock c1)) as [rt|]; [|done]. case_if; [done|].
  set (c2 := match metrics (pcb c1) with Some m => _ | None => _ end).
  assert (H2 : cwnd_ok c2) by (subst c2; destruct (metrics (pcb c1)); [by case_if|done]).
  clearbody c2. set (c3 := match metrics (pcb c2) with Some _ => _ | None => _ end).
  assert (H3 : cwnd_ok c3).
  { subst c3. destruct (metrics (pcb c2)); [done|]. pose proof (cwnd_ok_alloc c2 H2) as Ha.
    by destruct (alloc c2) as [ok c2']. }
  clearbody c3. cbn [snd]. case_if; [apply cwnd_ok_mss_changed|]; exact H3.
Qed.

Lemma cwnd_ok_emit c seq ack flags data :
  cwnd_ok c -> cwnd_ok (snd (emit c seq ack flags data)).
Proof.
  intros Hc. unfold emit.
  pose proof (make_tcp_options_pcb (pcb c) flags (get_current_time_ms c)) as H.
  destruct (make_tcp_options _ _ _) as [opts p]. cbn [snd] in H.
  unfold ip_output, cwnd_ok in *.
  assert (Hp : snd_cwnd p = snd_cwnd (pcb c)) by (rewrite H; by case_if).
  rewrite <- Hp in Hc. clear H Hp. cbn zeta. case_match; exact Hc.
Qed.

Lemma cwnd_ok_xmit_segment c skb budget push :
  cwnd_ok c -> cwnd_ok (snd (tcp_xmit_segment c skb budget push)).
Proof.
  intros Hc. unfold tcp_xmit_segment. pose proof (cwnd_ok_alloc c Hc) as Ha.
  destruct (alloc c) as [ok c1]. cbn [snd] in Ha. case_if; [done|].
  pose proof (cwnd_ok_set_route c1 Ha) as Hr.
  destruct (set_tcp_socket_route c1) as [r c2]. cbn [snd] in Hr.
  case_if; [by apply cwnd_ok_notify|].
  match goal with |- context [emit c2 ?a ?b ?f ?d] =>
    pose proof (cwnd_ok_emit c2 a b f d Hr) as He;
    destruct (emit c2 a b f d) as [ret c3] end.
  cbn [snd] in He. repeat case_if; try done; by apply cwnd_ok_update_timer.
Qed.

Lemma cwnd_ok_commit_fin c : cwnd_ok c -> cwnd_ok (tcp_commit_fin_send c).
Proof. unfold tcp_commit_fin_send. by destruct (state (pcb c)). Qed.

Lemma cwnd_ok_enqueue c skb : cwnd_ok c -> cwnd_ok (tcp_retransmit_enqueue c skb).
Proof.
  intros Hc. unfold tcp_retransmit_enqueue. case_if; [done|].
  destruct (last _); [|done]. case_if; [|done].
  pose proof (cwnd_ok_alloc c Hc) as Ha. by destruct (alloc c) as [[] c1].
Qed.

Lemma cwnd_ok_xmit_new c budget push :
  cwnd_ok c -> cwnd_ok (snd (tcp_xmit_new_skb c budget push)).
Proof.
  intros Hc. unfold tcp_xmit_new_skb. destruct (send_queue (sock c)) as [|skb rest]; [done|].
  match goal with |- context [split_unsent c skb rest ?a ?b ?d] =>
    assert (Hs : cwnd_ok (snd (split_unsent c skb rest a b d)));
    [|destruct (split_unsent c skb rest a b d) as [[hd|] c1]] end.
  { unfold split_unsent. case_if; [|done]. cbn zeta.
    match goal with |- context [alloc ?x] =>
      assert (Hx : cwnd_ok x) by (case_if; [done|]; by destruct (route (sock c)));
      pose proof (cwnd_ok_alloc x Hx) as Ha; by destruct (alloc x) as [[] c1] end. }
  2: by apply cwnd_ok_update_timer.
  match goal with |- context [tcp_xmit_segment c1 hd ?b push] =>
    pose proof (cwnd_ok_xmit_segment c1 hd b push Hs) as Hx;
    destruct (tcp_xmit_segment c1 hd b push) as [ret c2] end.
  cbn [snd] in Hx. case_if; [by apply cwnd_ok_update_timer|].
  cbn [snd].
  match goal with |- cwnd_ok (tcp_retransmit_enqueue ?x hd) => assert (Hy : cwnd_ok x) end.
  { match goal with |- cwnd_ok ((if _ then ?x <|p rtt_meas_time := _ |> <|p rtt_meas_seq := _ |> else _)
        <|s send_queue := _ |>) => assert (Hz : cwnd_ok x) end; [|by case_if].
    match goal with |- cwnd_ok (if _ then tcp_commit_fin_send ?x else _) =>
      assert (Hz : cwnd_ok x) by (by apply cwnd_ok_update_timer); case_if; [|done] end.
    by apply cwnd_ok_commit_fin. }
  by apply cwnd_ok_enqueue.
Qed.

(** The loop of [tcp_write_xmit] stays inside the peer's window. *)
Lemma write_xmit_loop_ok una ende wnd : forall burst nxt c fp ret,
  send_inv una nxt ende c -> is_Some (route (sock c)) -> cwnd_ok c ->
  snd_wnd (pcb c) = wnd -> 0 <= wnd < 2 ^ 31 ->
  sends una nxt ende (una + wnd) c (snd (tcp_write_xmit_loop burst c fp ret)).
Proof.
  induction burst as [|burst IH]; intros nxt c fp ret Hi Hro Hcw Hw Hwb; cbn [tcp_write_xmit_loop].
  { by apply sends_nothing. }
  destruct (send_queue (sock c)) as [|skb rest] eqn:Hq; [by apply sends_nothing|].
  pose proof (send_inv_order _ _ _ _ Hi) as Ho.
  pose proof (si_snd _ _ _ _ Hi) as Hc. pose proof (si_una _ _ _ _ Hi) as Hu.
  pose proof (si_room _ _ _ _ Hi) as Hr. rewrite Hq in Hc.
  pose proof (chain_seglen _ _ _ _ Hc) as Hk. pose proof (seglen_nonneg skb).
  destruct Hc as [Hs _]. unfold cwnd_ok in Hcw.
  set (lim := Z.min (snd_wnd (pcb c)) (snd_cwnd (pcb c))).
  rewrite Hu, Hs, wrap_add_l, SEQ_GEQ_u32 by lia.
  case_if; [apply sends_nothing; [done|apply view_arm_persist|apply wview_arm_persist]|].
  case_if; [apply sends_nothing; [done|apply view_update_timer|apply wview_update_timer]|].
  rewrite tcp_skb_seq_len_eq by lia. rewrite wrap_sub_l, wrap_sub_r.
  bool_prop. rewrite (wrap_id 32) by (unfold is_u; lia).
  set (budget := Z.min (seglen skb) (una + lim - nxt)).
  match goal with |- context [tcp_xmit_new_skb c budget ?p] =>
    pose proof (xmit_new_ok una nxt ende c skb rest budget p Hi Hro Hq ltac:(lia)) as Hx;
    pose proof (cwnd_ok_xmit_new c budget p Hcw) as Hcw1;
    destruct (tcp_xmit_new_skb c budget p) as [ret' c1] end.
  destruct Hx as [Hx Hro1]. cbn [snd] in Hcw1.
  apply (sends_mono _ _ _ _ (una + wnd)) in Hx; [|lia].
  case_if; [exact Hx|]. bool_prop. specialize (Hro1 ltac:(lia)). case_if.
  { cbn [snd]. case_if; [|done].
    eapply sends_after; [apply view_update_timer|apply wview_update_timer|done]. }
  destruct Hx as (sent&ks&G1&G2&G3&G4&G5&G6&G7).
  apply (sends_trans _ _ _ _ sent _ c1); eauto.
  apply IH; try done. by injection G5 as -> _ _.
Qed.

(** *** Closing the stream *)

Lemma removelast_snoc {A} (l : list A) x : removelast (l ++ [x]) = l.
Proof. apply removelast_last. Qed.

(** FIN on the last unsent segment. *)
Lemma fin_on_last una nxt ende c q l :
  send_inv una nxt ende c -> send_queue (sock c) = q ++ [l] ->
  has (t_flag l) TCP_FLAG_FIN = false -> ende + 1 - una < 2 ^ 31 ->
  let c' := c <|s send_queue := q ++ [l <| t_flag := Z.lor (t_flag l) TCP_FLAG_FIN |>] |>
              <|p snd_end := u32 (snd_end (pcb c) + 1) |> in
  send_inv una nxt (ende + 1) c' /\ pending_bytes c' = pending_bytes c.
Proof.
  intros [H1 H2 H3 H4 H5 H6 H7 H8 H9 H10] Hq Hl Hr. cbn zeta. rewrite Hq in *.
  destruct (has_or_fin (t_flag l)) as [Hf Hs].
  apply chain_snoc in H5 as (m&Hm&Hlm&->).
  apply Forall_app in H7 as [H7 H7l]. rewrite removelast_snoc in H8.
  assert (Hqb : qbytes (q ++ [l <| t_flag := Z.lor (t_flag l) TCP_FLAG_FIN |>]) = qbytes (q ++ [l]))
    by (rewrite !qbytes_app; done).
  split.
  - constructor; rsimpl; try done.
    + by rewrite H3, wrap_add_l.
    + apply chain_snoc. exists m. split_and!; [done|done|]. unfold seglen, skb_data_len. rsimpl.
      rewrite Hf, Hs, Hl. lia.
    + apply Forall_app. split; [done|]. apply Forall_cons. split; [|done]. rsimpl.
      rewrite Hs. by apply Forall_cons in H7l as [? _].
    + by rewrite removelast_snoc.
    + rewrite H10. f_equal. unfold qlen. by rewrite Hqb.
  - unfold pending_bytes. rsimpl. by rewrite Hqb, Hq.
Qed.

Lemma send_fin_ok una nxt ende c :
  send_inv una nxt ende c -> ende + 1 - una < 2 ^ 31 ->
  (forall l, last (send_queue (sock c)) = Some l -> has (t_flag l) TCP_FLAG_FIN = false) ->
  let c' := tcp_send_fin c in
  pending_bytes c' = pending_bytes c /\
  (send_inv una nxt (ende + 1) c' \/
   send_queue (sock c) = [] /\ fst (alloc (deref (route (sock c)) c)) = false /\
   send_inv una nxt ende c').
Proof.
  intros Hi Hr Hf. cbn zeta. unfold tcp_send_fin.
  destruct (last (send_queue (sock c))) as [l|] eqn:El; cbn [negb].
  - specialize (Hf _ eq_refl). rewrite El. pose proof (last_snoc_inv _ _ El) as Hq.
    destruct (fin_on_last una nxt ende c _ l Hi Hq Hf Hr) as [G1 G2].
    split; [|left; eapply send_inv_view; [apply view_update_timer|exact G1]].
    rewrite <- G2. apply pending_view, view_update_timer.
  - assert (Hq : send_queue (sock c) = []) by (by apply last_None in El).
    set (c0 := deref (route (sock c)) c).
    assert (V0 : view (snd (alloc c0)) = view c) by (rewrite view_alloc; apply view_deref).
    destruct (alloc c0) as [ok c1]. cbn [fst snd] in *. destruct ok; cbn [negb].
    2: { split; [by apply pending_view|]. right. split_and!; [done|done|].
         by eapply send_inv_view. }
    assert (Hi1 : send_inv una nxt ende c1) by by eapply send_inv_view.
    rewrite <- (pending_view _ _ V0).
    set (l := mk_tskb (snd_end (pcb c1)) TCP_FLAG_ACK []).
    assert (Hq1 : send_queue (sock c1) = []) by (rewrite <- Hq; exact (f_equal v_snd V0)).
    assert (Hi2 : send_inv una nxt ende (c1 <|s send_queue := [l] |>)).
    { pose proof (send_inv_order _ _ _ _ Hi1). destruct Hi1 as [? ? H3 ? H5 ? ? ? ? H10].
      rewrite Hq1 in *. cbn in H5. subst ende. constructor; rsimpl; try done.
      - split; [done|]. cbn. change (seglen l) with 0. lia.
      - by apply Forall_singleton. }
    destruct (fin_on_last una nxt ende _ [] l Hi2 eq_refl eq_refl Hr) as [G1 G2].
    split; [|left; eapply send_inv_view; [apply view_update_timer|exact G1]].
    etrans; [apply pending_view, view_update_timer|]. etrans; [exact G2|].
    unfold pending_bytes. rsimpl. rewrite Hq1. done.
Qed.

(** *** Properties *)

(** C22: the sender respects the peer's window and never garbles the stream.
    Whatever the outcome of allocations, route lookups and IP output, one call
    of [tcp_write_xmit] keeps the send invariant with [snd_nxt] advanced by the
    sequence numbers moved to the retransmit queue; unacknowledged bytes are
    neither lost nor reordered; every data packet given to IP carries, at its
    sequence number, exactly the stream's bytes and ends inside
    [snd_una + snd_wnd]; FIN goes out only at the end of the stream; no null
    pointer is dereferenced. *)
Theorem write_xmit_sends_stream (una nxt ende : Z) (c : conn) (flush_partial : bool) :
  send_inv una nxt ende c -> is_Some (route (sock c)) ->
  0 <= snd_cwnd (pcb c) -> 0 <= snd_wnd (pcb c) < 2 ^ 31 ->
  let c' := snd (tcp_write_xmit c flush_partial) in
  exists sent packets, 0 <= sent /\ (nxt + sent <= una + snd_wnd (pcb c) \/ sent = 0) /\
    send_inv una (nxt + sent) ende c' /\ pending_bytes c' = pending_bytes c /\
    wire (ev c') = packets ++ wire (ev c) /\ fault (ev c') = fault (ev c) /\
    Forall (in_stream nxt (una + snd_wnd (pcb c)) ende (qbytes (send_queue (sock c)))) packets.
Proof.
  intros Hi Hro Hc Hw. unfold tcp_write_xmit.
  pose proof (write_xmit_loop_ok una ende _ (Z.to_nat TCP_OUTPUT_BURST_MAX) nxt c flush_partial 0
                Hi Hro Hc eq_refl Hw) as H.
  destruct (tcp_write_xmit_loop _ _ _ _) as [ret c']. cbn [snd] in *.
  destruct H as (sent&ks&H1&H2&H3&H4&H5&H6&H7).
  exists sent, ks. injection H5 as _ E1 E2. split_and!; done.
Qed.

(** A sender at position 1000 with a FIN-terminated queue of two segments. *)
Definition sender : conn :=
  mk_conn
    (pcb_zero <| state := TCP_STATE_ESTABLISHED |> <| snd_una := 1000 |> <| snd_nxt := 1000 |>
       <| snd_end := 1006 |> <| snd_wnd := 4 |> <| snd_cwnd := 5000 |> <| peer_mss := 3 |>
       <| snd_mss := 3 |>)
    (socket_zero <| route := Some (mk_route 1 1500 14 true) |> <| send_buffer_len := 5 |>
       <| send_queue := [mk_tskb 1000 TCP_FLAG_ACK [1; 2; 3];
                         mk_tskb 1003 (TCP_FLAG_ACK + TCP_FLAG_FIN) [4; 5]] |>)
    env_zero.

Lemma sender_inv : send_inv 1000 1000 1006 sender.
Proof.
  constructor; try (vm_compute; done); repeat (apply Forall_cons; split; [reflexivity|]);
    apply Forall_nil_2.
Qed.

Lemma write_xmit_sends_stream_witness :
  let c' := snd (tcp_write_xmit sender false) in
  exists sent packets, 0 <= sent /\
    (1000 + sent <= 1000 + snd_wnd (pcb sender) \/ sent = 0) /\
    send_inv 1000 (1000 + sent) 1006 c' /\ pending_bytes c' = pending_bytes sender /\
    wire (ev c') = packets ++ wire (ev sender) /\ fault (ev c') = fault (ev sender) /\
    Forall (in_stream 1000 (1000 + snd_wnd (pcb sender)) 1006
              (qbytes (send_queue (sock sender)))) packets.
Proof.
  apply (write_xmit_sends_stream 1000 1000 1006 sender false);
    [exact sender_inv | by eexists | vm_compute; done | vm_compute; done].
Defined.

(** The four bytes the window allows leave in two packets. *)
Example sender_packets :
  map k_data (wire (ev (snd (tcp_write_xmit sender false)))) = [[4]; [1; 2; 3]].
Proof. vm_compute. reflexivity. Qed.

(** C25: an acknowledgement releases exactly what it covers.  When [snd_una]
    moves to a position [a] between the old one and [snd_nxt], the retransmit
    queue again covers [a .. snd_nxt) without gap, its bytes are the old ones
    without a prefix, the send queue is untouched, and the socket's count of
    buffered bytes drops by the released bytes. *)
Theorem ack_releases_prefix (una nxt ende a : Z) (c : conn) :
  send_inv una nxt ende c -> una <= a <= nxt ->
  let c' := tcp_update_retransmit_queue (c <|p snd_una := u32 a |>) in
  send_inv a nxt ende c' /\
  exists released, 0 <= released <= qlen (retransmit_queue (pcb c)) /\
    qbytes (retransmit_queue (pcb c')) =
      drop (Z.to_nat released) (qbytes (retransmit_queue (pcb c))) /\
    pending_bytes c' = drop (Z.to_nat released) (pending_bytes c) /\
    send_buffer_len (sock c') = send_buffer_len (sock c) - released.
Proof. apply update_rtx_ok. Qed.

(** The sender above after its four bytes left. *)
Definition sender_in_flight : conn :=
  sender <|p snd_nxt := 1004 |>
         <|p retransmit_queue := [mk_tskb 1000 TCP_FLAG_ACK [1; 2; 3];
                                  mk_tskb 1003 TCP_FLAG_ACK [4]] |>
         <|s send_queue := [mk_tskb 1004 (TCP_FLAG_ACK + TCP_FLAG_FIN) [5]] |>.

Lemma ack_releases_prefix_witness :
  let c' := tcp_update_retransmit_queue (sender_in_flight <|p snd_una := u32 1002 |>) in
  send_inv 1002 1004 1006 c' /\
  exists released, 0 <= released <= qlen (retransmit_queue (pcb sender_in_flight)) /\
    qbytes (retransmit_queue (pcb c')) =
      drop (Z.to_nat released) (qbytes (retransmit_queue (pcb sender_in_flight))) /\
    pending_bytes c' = drop (Z.to_nat released) (pending_bytes sender_in_flight) /\
    send_buffer_len (sock c') = send_buffer_len (sock sender_in_flight) - released.
Proof.
  apply (ack_releases_prefix 1000 1004 1006 1002 sender_in_flight); [|lia].
  constructor; try (vm_compute; done); repeat (apply Forall_cons; split; [reflexivity|]);
    apply Forall_nil_2.
Defined.

(** closing puts FIN right after the last byte.  [tcp_send_fin] sets FIN on
    the last unsent segment, or on a new empty one, so that the stream ends one
    sequence number later and no byte moves; if the empty segment cannot be
    allocated nothing changes. *)
Theorem send_fin_ends_stream (una nxt ende : Z) (c : conn) :
  send_inv una nxt ende c -> ende + 1 - una < 2 ^ 31 ->
  (forall l, last (send_queue (sock c)) = Some l -> has (t_flag l) TCP_FLAG_FIN = false) ->
  let c' := tcp_send_fin c in
  pending_bytes c' = pending_bytes c /\
  (send_inv una nxt (ende + 1) c' \/
   send_queue (sock c) = [] /\ fst (alloc (deref (route (sock c)) c)) = false /\
   send_inv una nxt ende c').
Proof. apply send_fin_ok. Qed.

Definition sender_open : conn :=
  sender <|p snd_end := 1003 |> <|s send_queue := [mk_tskb 1000 TCP_FLAG_ACK [1; 2; 3]] |>
         <|s send_buffer_len := 3 |>.

Lemma send_fin_ends_stream_witness :
  let c' := tcp_send_fin sender_open in
  pending_bytes c' = pending_bytes sender_open /\
  (send_inv 1000 1000 (1003 + 1) c' \/
   send_queue (sock sender_open) = [] /\
   fst (alloc (deref (route (sock sender_open)) sender_open)) = false /\
   send_inv 1000 1000 1003 c').
Proof.
  apply (send_fin_ends_stream 1000 1000 1003 sender_open).
  - constructor; try (vm_compute; done); repeat (apply Forall_cons; split; [reflexivity|]);
      apply Forall_nil_2.
  - lia.
  - intros l [= <-]. reflexivity.
Defined.

(** A control segment on a socket without route dereferences it. *)
Lemma send_flag_faults c seq ack flag :
  route (sock c) = None -> fault (ev (snd (tcp_send_flag c seq ack flag))) = true.
Proof.
  intros Hr. unfold tcp_send_flag. rewrite Hr. cbn [deref].
  set (c0 := c <|e fault := true |>).
  assert (Hw : forall x, snd (fst (wview x)) = fault (ev x)) by done.
  pose proof (wview_alloc c0) as Ha. destruct (alloc c0) as [ok c1]. cbn [snd] in Ha.
  assert (F1 : fault (ev c1) = true) by (rewrite <- (Hw c1), Ha; done).
  case_if; [done|].
  set (r := if has flag TCP_FLAG_SYN then _ else _).
  assert (F2 : fault (ev (snd r)) = true).
  { subst r. case_if; [|done].
    match goal with |- context [alloc ?x] =>
      pose proof (wview_alloc x) as Hb; destruct (alloc x) as [cl c2] end.
    cbn [snd] in Hb.
    assert (F : fault (ev c2) = true) by (rewrite <- (Hw c2), Hb; exact F1).
    case_if; [exact F|]. cbn [snd]. rewrite <- (Hw (update_timer _ _ _ _)), wview_update_timer.
    exact F. }
  destruct r as [ready c2]. cbn [snd] in F2. case_if; [done|].
  pose proof (emit_wire c2 seq ack flag []) as He.
  destruct (emit c2 seq ack flag []) as [ret c3]. destruct He as (k&He&_).
  assert (F3 : fault (ev c3) = true) by (rewrite <- (Hw c3), He; exact F2).
  case_if; [|done]. cbn [snd]. rewrite <- (Hw (update_timer _ _ _ _)), wview_update_timer.
  exact F3.
Qed.

(** losing the route crashes the connection's next control segment.  When a
    data segment finds its route gone and no other one, [tcp_xmit_segment]
    reports EHOSTUNREACH and leaves the socket without route, and the connection
    stays open; the next control segment of that connection (a delayed ACK, a
    keepalive probe, a RST) reads the null route. *)
Theorem route_loss_then_control_faults (c : conn) (skb : tskb) (budget : Z) (push : bool)
    (rest : list (bool * option route_info)) (seq ack flag : Z) :
  fst (alloc c) = true -> routes (ev c) = (false, None) :: rest ->
  let '(ret, c') := tcp_xmit_segment c skb budget push in
  ret = - EHOSTUNREACH /\ state (pcb c') = state (pcb c) /\
  fault (ev (snd (tcp_send_flag c' seq ack flag))) = true.
Proof.
  intros Hok Hr. unfold tcp_xmit_segment.
  assert (H1 : routes (ev (snd (alloc c))) = (false, None) :: rest /\
               pcb (snd (alloc c)) = pcb c)
    by (unfold alloc; by destruct (allocs (ev c))).
  destruct (alloc c) as [ok c1]. cbn [fst snd] in *. subst ok. destruct H1 as [H1 H1'].
  cbn [negb]. unfold set_tcp_socket_route, set_socket_route. rewrite H1. rsimpl.
  set (c2 := c1 <|e routes := rest |>).
  destruct (route (sock c1)); cbn [Z.ltb Z.compare];
    (split_and!; [done| |apply send_flag_faults]);
    destruct (notify_event_effect (c2 <|s route := None |> <|s error := EHOSTUNREACH |>) notify_err)
      as (tk&l&->); subst c2; rsimpl; rewrite ?H1'; done.
Qed.

Lemma route_loss_then_control_faults_witness :
  let '(ret, c') := tcp_xmit_segment (sender <|e routes := [(false, None)] |>)
                      (mk_tskb 1000 TCP_FLAG_ACK [1; 2; 3]) 3 false in
  ret = - EHOSTUNREACH /\
  state (pcb c') = state (pcb (sender <|e routes := [(false, None)] |>)) /\
  fault (ev (snd (tcp_send_flag c' 1000 77 TCP_FLAG_ACK))) = true.
Proof.
  apply (route_loss_then_control_faults (sender <|e routes := [(false, None)] |>)
           (mk_tskb 1000 TCP_FLAG_ACK [1; 2; 3]) 3 false []); reflexivity.
Defined.
