(* ===== verification/TcpRecv.v ===== *)
(** Reassembly of the received stream and its delivery to the reader
    (src/main/tcp.c: [tcp_seq_cmp], [tcp_recv_data]; src/lib/list.c:
    [add_list_node_compare]).

    The theorems are stated against the stream the peer sends, a function from
    positions to bytes: whatever the order, duplication and overlap of the
    segments, what is appended to the receive queue is the next stretch of that
    stream. *)

From stdpp Require Import prelude list.
From Stdlib Require Import ZArith Lia.
From S2P Require Import Prelude LinkedList TcpDefs TcpSeq TcpTimer TcpWindow TcpOutput TcpSendInv.

(** *** Definitions *)

(** [tcp_seq_cmp]. *)
Definition tcp_seq_cmp (a b : tskb) : Z :=
  if SEQ_LT (t_seq a) (t_seq b) then -1
  else if SEQ_GT (t_seq a) (t_seq b) then 1 else 0.

(** [skb_consume(skb, n, false)] and [skb_truncate(skb, n)] on the payload. *)
Definition consume (skb : tskb) (n : Z) : tskb :=
  skb <| t_data := drop (Z.to_nat (Z.min n (skb_data_len skb))) (t_data skb) |>.

Definition truncate (skb : tskb) (n : Z) : tskb :=
  if skb_data_len skb <=? n then skb else skb <| t_data := take (Z.to_nat n) (t_data skb) |>.

(** [SOCKET_USEABLE_RECV_BUFF_SIZE]. *)
Definition useable_recv_buff_size (s : Socket) : Z :=
  if recv_buffer_len s <? recv_buffer_len_max s
  then recv_buffer_len_max s - recv_buffer_len s else 0.

(** The loop of [tcp_recv_data] that moves in-order segments to the receive
    queue; [l] is what is left of [unordered_skb_list]. *)
Fixpoint drain (l : list tskb) (c : conn) : conn :=
  match l with
  | [] => c <|p unordered_skb_list := [] |>
  | it :: rest =>
      let it_seq := t_seq it in
      let it_data_len := skb_data_len it in
      if SEQ_GT it_seq (rcv_nxt (pcb c)) then c <|p unordered_skb_list := l |>
      else
        let overlap := u32 (rcv_nxt (pcb c) - it_seq) in
        let behind := SEQ_LT it_seq (rcv_nxt (pcb c)) in
        if behind && (it_data_len <=? overlap) then drain rest c
        else
          let it := if behind
                    then (consume it overlap) <| t_seq := rcv_nxt (pcb c) |> else it in
          let it_data_len := skb_data_len it in
          drain rest
            (c <|s recv_queue := recv_queue (sock c) ++ [it] |>
               <|s recv_buffer_len := u32 (recv_buffer_len (sock c) + it_data_len) |>
               <|p rcv_nxt := u32 (rcv_nxt (pcb c) + it_data_len) |>)
  end.

(** The two trims of [tcp_recv_data]: [None] when nothing of the segment is
    left.  The stored sequence number is not advanced with the prefix. *)
Definition trim_to_window (p : tcp_pcb) (skb : tskb) : option tskb :=
  let seq := t_seq skb in
  let data_len := skb_data_len skb in
  let front :=
    if SEQ_LT seq (rcv_nxt p) then
      let overlap := u32 (rcv_nxt p - seq) in
      if data_len <=? overlap then None else Some (consume skb overlap, rcv_nxt p)
    else Some (skb, seq) in
  match front with
  | None => None
  | Some (skb, seq) =>
      let data_len := skb_data_len skb in
      let edge := u32 (rcv_nxt p + rcv_wnd p) in
      if SEQ_GT (u32 (seq + data_len)) edge then
        let overlap := u32 (u32 (seq + data_len) - edge) in
        if data_len <=? overlap then None
        else Some (truncate skb (u32 (skb_data_len skb - overlap)))
      else Some skb
  end.

(** [tcp_recv_data]. *)
Definition tcp_recv_data (c : conn) (skb : tskb) : bool * conn :=
  if skb_data_len skb =? 0 then (false, c)
  else
    match trim_to_window (pcb c) skb with
    | None => (false, c)
    | Some skb =>
        match insert_sorted tcp_seq_cmp (unordered_skb_list (pcb c)) skb with
        | None => (false, c)
        | Some l =>
            let c := drain l (c <|p unordered_skb_list := l |>) in
            let c := notify_event c notify_data_read in
            (true, c <|p rcv_wnd := Z.min (useable_recv_buff_size (sock c))
                                          (recv_buffer_len_max (sock c)) |>)
        end
    end.

(** *** The stream *)

Section stream.
Context (str : Z -> Z).

(** The [n] bytes of the stream from position [p]. *)
Definition slice (p n : Z) : list Z :=
  map (fun i => str (p + Z.of_nat i)) (seq 0 (Z.to_nat n)).

Lemma length_slice p n : 0 <= n -> Z.of_nat (length (slice p n)) = n.
Proof. intros. unfold slice. rewrite length_map, length_seq. lia. Qed.

Lemma slice_app p n m : 0 <= n -> 0 <= m -> slice p n ++ slice (p + n) m = slice p (n + m).
Proof.
  intros. unfold slice. rewrite Z2Nat.inj_add by lia. rewrite seq_app, map_app. f_equal.
  rewrite Nat.add_0_l, <- (Nat.add_0_r (Z.to_nat n)) at 1. rewrite <- fmap_add_seq.
  change (fmap ?f) with (map f). rewrite map_map.
  apply map_ext. intros. f_equal. lia.
Qed.

Lemma drop_slice p n k : 0 <= k <= n -> drop (Z.to_nat k) (slice p n) = slice (p + k) (n - k).
Proof.
  intros. replace n with (k + (n - k)) at 1 by lia. rewrite <- slice_app by lia.
  rewrite drop_app_ge by (pose proof (length_slice p k); lia).
  replace (Z.to_nat k - length (slice p k))%nat with 0%nat; [done|].
  pose proof (length_slice p k). lia.
Qed.

Lemma take_slice p n k : 0 <= k <= n -> take (Z.to_nat k) (slice p n) = slice p k.
Proof.
  intros. replace n with (k + (n - k)) by lia. rewrite <- slice_app by lia.
  pose proof (length_slice p k). rewrite take_app_le by lia. apply take_ge. lia.
Qed.

(** Segment [k] carries the stream at [p]. *)
Definition carries (p : Z) (k : tskb) : Prop :=
  t_seq k = u32 p /\ t_data k = slice p (skb_data_len k).

(** The reorder list: non-empty stretches of the stream at strictly increasing
    positions above [lo], none reaching past [hi]. *)
Fixpoint ooo (lo hi : Z) (l : list tskb) : Prop :=
  match l with
  | [] => True
  | k :: l' => exists p, lo < p /\ p + skb_data_len k <= hi /\ 0 < skb_data_len k /\
                         carries p k /\ ooo p hi l'
  end.

Lemma ooo_weaken lo lo' hi l : lo' <= lo -> ooo lo hi l -> ooo lo' hi l.
Proof.
  intros H. destruct l as [|k l]; [done|]. intros (p&?&?). exists p. split; [lia|done].
Qed.

Lemma carries_consume p r k :
  carries p k -> p <= r < p + skb_data_len k ->
  t_data (consume k (r - p)) = slice r (p + skb_data_len k - r) /\
  skb_data_len (consume k (r - p)) = p + skb_data_len k - r.
Proof.
  intros [_ Hd] Hr. assert (E : t_data (consume k (r - p)) = slice r (p + skb_data_len k - r)).
  { unfold consume. rsimpl. rewrite Z.min_l by lia. rewrite Hd, drop_slice by lia.
    f_equal; lia. }
  split; [done|]. unfold skb_data_len at 1. rewrite E. apply length_slice. lia.
Qed.

Lemma carries_truncate p n k :
  carries p k -> 0 <= n <= skb_data_len k ->
  carries p (truncate k n) /\ skb_data_len (truncate k n) = n.
Proof.
  intros [Hs Hd] Hn. unfold truncate. case_if; bool_prop.
  { assert (n = skb_data_len k) as -> by lia. split; [done|lia]. }
  assert (E : take (Z.to_nat n) (t_data k) = slice p n) by (rewrite Hd; apply take_slice; lia).
  assert (L : skb_data_len (k <| t_data := take (Z.to_nat n) (t_data k) |>) = n)
    by (unfold skb_data_len; rsimpl; rewrite E; apply length_slice; lia).
  split; [|done]. split; [done|]. rewrite L. rsimpl. done.
Qed.

(** Sorted insertion keeps the list sorted; it fails exactly when the position
    is taken. *)
Lemma insert_ooo lo hi p k : forall l,
  ooo lo hi l -> lo < p -> p + skb_data_len k <= hi -> 0 < skb_data_len k ->
  carries p k -> hi - lo < 2 ^ 31 ->
  match insert_sorted tcp_seq_cmp l k with
  | None => exists k', k' ∈ l /\ t_seq k' = t_seq k
  | Some l' => ooo lo hi l'
  end.
Proof.
  intros l. revert lo. induction l as [|k0 l IH]; intros lo Hl Hlo Hhi Hk Hc Hb.
  { exists p. split_and!; done. }
  cbn [insert_sorted]. destruct Hl as (p0&H1&H2&H3&H4&H5).
  unfold tcp_seq_cmp. destruct Hc as [Hs Hd]. destruct H4 as [Hs0 Hd0].
  rewrite Hs, Hs0, SEQ_LT_u32, SEQ_GT_u32 by lia.
  destruct (Z.ltb_spec p0 p); cbn [Z.ltb Z.compare].
  - specialize (IH p0 H5 ltac:(lia) Hhi Hk (conj Hs Hd) ltac:(lia)).
    destruct (insert_sorted _ _ _).
    + exists p0. split_and!; done.
    + destruct IH as (k'&?&E). exists k'. split; [by right|congruence].
  - destruct (Z.ltb_spec p p0); cbn [Z.ltb Z.compare].
    + exists p. split_and!; try done. exists p0. split_and!; done || lia.
    + exists k0. split; [left|]. rewrite Hs0. f_equal. lia.
Qed.

(** What the receive path leaves alone. *)
Definition rframe (c : conn) : Z * Z * bool * list packet :=
  (rcv_wnd (pcb c), recv_buffer_len_max (sock c), fault (ev c), wire (ev c)).

(** The in-order loop delivers the stream from [r] on and stops at a gap. *)
Lemma drain_ok hi : forall l lo r c,
  ooo lo hi l -> lo <= r -> r <= hi -> hi - lo < 2 ^ 31 ->
  rcv_nxt (pcb c) = u32 r ->
  0 <= recv_buffer_len (sock c) -> recv_buffer_len (sock c) + (hi - r) < 2 ^ 32 ->
  exists n, 0 <= n /\ r + n <= hi /\
    rcv_nxt (pcb (drain l c)) = u32 (r + n) /\
    qbytes (recv_queue (sock (drain l c))) = qbytes (recv_queue (sock c)) ++ slice r n /\
    recv_buffer_len (sock (drain l c)) = recv_buffer_len (sock c) + n /\
    ooo (r + n) hi (unordered_skb_list (pcb (drain l c))) /\
    rframe (drain l c) = rframe c /\
    (forall k l', l = k :: l' -> t_seq k = u32 r -> skb_data_len k <= n).
Proof.
  induction l as [|k l IH]; intros lo r c Hl Hlo Hhi Hb Hn Hb0 Hb1.
  { exists 0. cbn [drain]. rewrite Z.add_0_r. rsimpl. split_and!; done || lia || idtac.
    by rewrite app_nil_r. }
  destruct Hl as (p&H1&H2&H3&[Hs Hd]&H5). cbn [drain].
  rewrite Hn, Hs, SEQ_GT_u32, SEQ_LT_u32 by lia. rewrite wrap_sub_l, wrap_sub_r.
  destruct (Z.ltb_spec r p) as [Hgt|Hle].
  { exists 0. rewrite Z.add_0_r. rsimpl. split_and!; try done; try lia.
    - by rewrite app_nil_r.
    - exists p. done.
    - intros ? ? [= <- <-] E. rewrite Hs in E. apply u32_inj_near in E; lia. }
  rewrite (wrap_id 32 (r - p)) by (unfold is_u; lia).
  case_if; bool_prop.
  { (* entirely duplicate *)
    destruct (IH p r c H5 Hle Hhi ltac:(lia) Hn Hb0 Hb1) as (n&?&?&?&?&?&?&?&_).
    exists n. split_and!; try done.
    intros ? ? [= <- <-] E. rewrite Hs in E. apply u32_inj_near in E; lia. }
  set (it := if p <? r then _ else _).
  assert (Hit : t_data it = slice r (p + skb_data_len k - r) /\
                skb_data_len it = p + skb_data_len k - r).
  { subst it. destruct (Z.ltb_spec p r).
    - apply carries_consume; [done|lia].
    - assert (p = r) as -> by lia. replace (r + skb_data_len k - r) with (skb_data_len k) by lia.
      done. }
  destruct Hit as [Hid Hil]. clearbody it. set (m := p + skb_data_len k - r) in *.
  assert (Hm : 0 < m <= hi - r) by lia. rewrite Hil, wrap_add_l.
  rewrite (wrap_id 32 (recv_buffer_len _ + m)) by (unfold is_u; lia).
  match goal with |- context [drain l ?x] => set (c1 := x) end.
  destruct (IH p (r + m) c1 H5 ltac:(lia) ltac:(lia) ltac:(lia)) as (n&G1&G2&G3&G4&G5&G6&G7&_);
    [done|subst c1; rsimpl; lia..|].
  exists (m + n). rewrite Z.add_assoc in *. split_and!; try done; try lia.
  - rewrite G4. subst c1. rsimpl. rewrite qbytes_app, qbytes_cons, Hid, <- slice_app by lia.
    rewrite <- !app_assoc. done.
  - rewrite G5. subst c1. rsimpl. lia.
  - intros ? ? [= <- <-] E. rewrite Hs in E. apply u32_inj_near in E; lia.
Qed.

(** *** The receive invariant *)

(** [r] is the position of the next byte expected. *)
Record recv_inv (r : Z) (c : conn) : Prop := mk_recv_inv {
  ri_nxt : rcv_nxt (pcb c) = u32 r;
  ri_max : recv_buffer_len_max (sock c) < 2 ^ 30;
  ri_len : recv_buffer_len (sock c) = qlen (recv_queue (sock c));
  ri_wnd : rcv_wnd (pcb c) = recv_buffer_len_max (sock c) - recv_buffer_len (sock c);
  ri_room : 0 <= rcv_wnd (pcb c);
  ri_ooo : ooo r (r + rcv_wnd (pcb c)) (unordered_skb_list (pcb c))
}.

(** A segment at or above [r] is cut to the window. *)
Lemma trim_to_window_ok r p c k :
  recv_inv r c -> carries p k -> r <= p < r + 2 ^ 30 -> 0 < skb_data_len k < 2 ^ 30 ->
  if rcv_wnd (pcb c) <=? p - r then trim_to_window (pcb c) k = None
  else exists k', trim_to_window (pcb c) k = Some k' /\ carries p k' /\
         skb_data_len k' = Z.min (skb_data_len k) (r + rcv_wnd (pcb c) - p).
Proof.
  intros [Hn Hmax Hlen Hw Hr0 Ho] [Hs Hd] Hp Hk. unfold trim_to_window.
  pose proof (qlen_nonneg (recv_queue (sock c))).
  rewrite Hn, Hs, SEQ_LT_u32 by lia. rewrite (proj2 (Z.ltb_ge p r)) by lia.
  rewrite !wrap_add_l, SEQ_GT_u32 by lia. rewrite wrap_sub_l, wrap_sub_r.
  destruct (Z.ltb_spec (r + rcv_wnd (pcb c)) (p + skb_data_len k)).
  - rewrite (wrap_id 32 (_ - _)) by (unfold is_u; lia).
    destruct (Z.leb_spec (rcv_wnd (pcb c)) (p - r)).
    + by rewrite (proj2 (Z.leb_le _ _)) by lia.
    + rewrite (proj2 (Z.leb_gt _ _)) by lia. rewrite (wrap_id 32) by (unfold is_u; lia).
      eexists. split; [done|].
      destruct (carries_truncate p
        (skb_data_len k - (p + skb_data_len k - (r + rcv_wnd (pcb c)))) k (conj Hs Hd)
        ltac:(lia)) as [Hc Hl].
      split; [done|]. rewrite Hl. lia.
  - rewrite (proj2 (Z.leb_gt _ _)) by lia. exists k. split_and!; done || lia.
Qed.

(** An in-order segment goes to the front. *)
Lemma insert_front hi p k l :
  ooo p hi l -> t_seq k = u32 p -> hi - p < 2 ^ 31 ->
  insert_sorted tcp_seq_cmp l k = Some (k :: l).
Proof.
  intros Hl Hs Hb. destruct l as [|k0 l]; [done|]. destruct Hl as (p0&?&?&?&[Hs0 _]&_).
  cbn [insert_sorted]. unfold tcp_seq_cmp.
  rewrite Hs, Hs0, SEQ_LT_u32, SEQ_GT_u32 by lia.
  rewrite (proj2 (Z.ltb_ge p0 p)), (proj2 (Z.ltb_lt p p0)) by lia. done.
Qed.

(** Delivery of a segment at or above [r]. *)
Lemma recv_data_ok r p c k :
  recv_inv r c -> carries p k -> r <= p < r + 2 ^ 30 -> 0 < skb_data_len k < 2 ^ 30 ->
  let '(b, c') := tcp_recv_data c k in
  exists n, 0 <= n <= rcv_wnd (pcb c) /\ recv_inv (r + n) c' /\
    qbytes (recv_queue (sock c')) = qbytes (recv_queue (sock c)) ++ slice r n /\
    (p = r -> Z.min (skb_data_len k) (rcv_wnd (pcb c)) <= n).
Proof.
  intros Hi Hc Hp Hk. pose proof (trim_to_window_ok r p c k Hi Hc Hp Hk) as Ht.
  assert (Hnone : recv_inv (r + 0) c /\
    qbytes (recv_queue (sock c)) = qbytes (recv_queue (sock c)) ++ slice r 0)
    by (rewrite Z.add_0_r, app_nil_r; done).
  unfold tcp_recv_data. rewrite (proj2 (Z.eqb_neq _ _)) by lia.
  destruct (Z.leb_spec (rcv_wnd (pcb c)) (p - r)) as [Hout|Hin].
  { rewrite Ht. exists 0. destruct Hi. split_and!; try apply Hnone; lia. }
  destruct Ht as (k'&->&Hc'&Hl').
  destruct Hi as [Hn Hmax Hlen Hw Hr0 Ho]. pose proof (qlen_nonneg (recv_queue (sock c))).
  set (hi := r + rcv_wnd (pcb c)) in *.
  pose proof (insert_ooo (r - 1) hi p k' (unordered_skb_list (pcb c))
    (ooo_weaken r (r - 1) hi _ ltac:(lia) Ho) ltac:(lia) ltac:(lia) ltac:(lia) Hc' ltac:(lia)) as Hins.
  assert (Hfront : p = r -> insert_sorted tcp_seq_cmp (unordered_skb_list (pcb c)) k' =
                   Some (k' :: unordered_skb_list (pcb c)))
    by (intros ->; apply (insert_front hi r); [done|apply Hc'|lia]).
  destruct (insert_sorted _ _ _) as [l|].
  2: { exists 0. split_and!; try apply Hnone; try lia. intros E. by specialize (Hfront E). }
  set (c1 := c <|p unordered_skb_list := l |>).
  destruct (drain_ok hi l (r - 1) r c1 Hins ltac:(lia) ltac:(lia) ltac:(lia) Hn)
    as (n&G1&G2&G3&G4&G5&G6&G7&G8); [subst c1; rsimpl; lia..|].
  generalize dependent (drain l c1). intros c2 G3 G4 G5 G6 G7.
  destruct (notify_event_effect c2 notify_data_read) as (tk&al&->). subst c1. rsimpl in *.
  unfold rframe in G7. rsimpl in G7. injection G7 as G7 G7' _ _.
  assert (Huse : Z.min (useable_recv_buff_size (sock c2)) (recv_buffer_len_max (sock c2)) =
                 rcv_wnd (pcb c) - n)
    by (unfold useable_recv_buff_size; rewrite G7'; case_if; bool_prop; lia).
  exists n. split_and!; [lia|lia| |done|].
  - unfold useable_recv_buff_size in Huse |- *.
    constructor; rsimpl; rewrite ?Huse; try done; try lia.
    + unfold qlen in *. rewrite G4, length_app. pose proof (length_slice r n). lia.
    + by replace (r + n + (rcv_wnd (pcb c) - n)) with hi by lia.
  - intros E. specialize (Hfront E). injection Hfront as ->.
    specialize (G8 _ _ eq_refl). rewrite E in Hc'. specialize (G8 (proj1 Hc')). lia.
Qed.

(** A segment already delivered changes nothing. *)
Lemma recv_data_duplicate r p c k :
  recv_inv r c -> carries p k -> p + skb_data_len k <= r -> r - p < 2 ^ 31 ->
  tcp_recv_data c k = (false, c).
Proof.
  intros Hi [Hs Hd] Hp Hb. pose proof (skb_data_len_nonneg k).
  unfold tcp_recv_data, trim_to_window. case_if; [done|]. bool_prop.
  rewrite (ri_nxt _ _ Hi), Hs, SEQ_LT_u32 by lia. rewrite (proj2 (Z.ltb_lt p r)) by lia.
  rewrite wrap_sub_l, wrap_sub_r, (wrap_id 32) by (unfold is_u; lia).
  by rewrite (proj2 (Z.leb_le _ _)) by lia.
Qed.

(** Delivery of a segment that starts below [r] and ends above it, the reorder
    list being empty: the overlap is cut twice. *)
Lemma recv_data_overlap r p c k :
  recv_inv r c -> unordered_skb_list (pcb c) = [] -> carries p k ->
  p < r < p + skb_data_len k -> skb_data_len k < 2 ^ 30 ->
  p + skb_data_len k <= r + rcv_wnd (pcb c) ->
  let n := Z.max 0 (skb_data_len k - 2 * (r - p)) in
  let '(b, c') := tcp_recv_data c k in
  b = true /\ rcv_nxt (pcb c') = u32 (r + n) /\
  qbytes (recv_queue (sock c')) = qbytes (recv_queue (sock c)) ++ slice (r + (r - p)) n.
Proof.
  intros [Hn Hmax Hlen Hw Hr0 _] Hu Hc Hp Hk He. cbn zeta.
  pose proof (qlen_nonneg (recv_queue (sock c))).
  destruct (carries_consume p r k Hc ltac:(lia)) as [Hd Hl]. destruct Hc as [Hs _].
  unfold tcp_recv_data, trim_to_window. rewrite (proj2 (Z.eqb_neq _ _)) by lia.
  rewrite Hn, Hs, SEQ_LT_u32 by lia. rewrite (proj2 (Z.ltb_lt p r)) by lia.
  rewrite wrap_sub_l, wrap_sub_r, (wrap_id 32 (r - p)) by (unfold is_u; lia).
  rewrite (proj2 (Z.leb_gt _ _)) by lia. rewrite !wrap_add_l, SEQ_GT_u32 by lia.
  rewrite (proj2 (Z.ltb_ge _ _)) by lia. rewrite Hu. cbn [insert_sorted].
  set (k1 := consume k (r - p)) in *. assert (Hs1 : t_seq k1 = u32 p) by exact Hs.
  clearbody k1. cbn [drain]. rsimpl. rewrite Hn, Hs1, SEQ_GT_u32, SEQ_LT_u32 by lia.
  rewrite (proj2 (Z.ltb_ge r p)), (proj2 (Z.ltb_lt p r)) by lia.
  rewrite wrap_sub_l, wrap_sub_r, (wrap_id 32 (r - p)) by (unfold is_u; lia). cbn [andb].
  destruct (Z.leb_spec (skb_data_len k1) (r - p)).
  - match goal with |- context [notify_event ?x _] =>
      destruct (notify_event_effect x notify_data_read) as (tk&al&->) end. rsimpl.
    replace (Z.max 0 _) with 0 by lia. split_and!; [done|by rewrite Z.add_0_r|].
    by rewrite app_nil_r.
  - assert (Hc1 : carries r (k1 <| t_seq := u32 r |>)).
    { split; [done|]. rsimpl. rewrite Hd. f_equal. rsimpl. unfold skb_data_len in *. rsimpl. lia. }
    destruct (carries_consume r (r + (r - p)) _ Hc1) as [Hd2 Hl2];
      [unfold skb_data_len in *; rsimpl; lia|].
    match goal with |- context [notify_event ?x _] =>
      destruct (notify_event_effect x notify_data_read) as (tk&al&->) end. rsimpl.
    replace (r + (r - p) - r) with (r - p) in * by lia.
    assert (Hx : skb_data_len ((consume k1 (r - p)) <| t_seq := u32 r |>) =
                 Z.max 0 (skb_data_len k - 2 * (r - p))).
    { transitivity (skb_data_len (consume (k1 <| t_seq := u32 r |>) (r - p))); [done|].
      rewrite Hl2. change (skb_data_len (k1 <| t_seq := u32 r |>)) with (skb_data_len k1). lia. }
    rewrite Hx, wrap_add_l. split_and!; [done|done|].
    rewrite qbytes_app, qbytes_cons. rsimpl. rewrite app_nil_r. f_equal.
    transitivity (t_data (consume (k1 <| t_seq := u32 r |>) (r - p))); [done|].
    rewrite Hd2. f_equal. change (skb_data_len (k1 <| t_seq := u32 r |>)) with (skb_data_len k1). lia.
Qed.

End stream.

(** *** Properties *)


(** A connection that expects byte 100 with a 1000-byte buffer. *)
Definition receiver : conn :=
  mk_conn (pcb_zero <| rcv_nxt := 100 |> <| rcv_wnd := 1000 |>)
    (socket_zero <| recv_buffer_len_max := 1000 |>) env_zero.

Lemma receiver_inv : recv_inv (fun i => i) 100 receiver.
Proof. constructor; vm_compute; done. Qed.

(** The segment of the stream [fun i => i] at [p], [n] bytes. *)
Definition segment (p n : Z) : tskb := mk_tskb (u32 p) TCP_FLAG_ACK (slice (fun i => i) p n).

Lemma segment_carries p n : 0 <= n -> carries (fun i => i) p (segment p n).
Proof.
  intros. split; [done|]. assert (E : skb_data_len (segment p n) = n) by (by apply length_slice).
  by rewrite E.
Qed.


(** C27: a retransmission that straddles the expected byte is delivered wrong.  A
    segment of stream position [p] that starts below [r] and ends above it, with
    nothing in the reorder list, loses its overlap [r - p] twice, because the
    trim removes the bytes without advancing the segment's stored sequence
    number and the in-order loop trims again: the receive queue gets the bytes
    at positions [r + (r - p)] onwards where those at [r] were due, and [rcv_nxt]
    counts them as the bytes at [r]. *)
Theorem overlap_cut_twice (str : Z -> Z) (r p : Z) (c : conn) (k : tskb) :
  recv_inv str r c -> unordered_skb_list (pcb c) = [] -> carries str p k ->
  p < r < p + skb_data_len k -> skb_data_len k < 2 ^ 30 ->
  p + skb_data_len k <= r + rcv_wnd (pcb c) ->
  let n := Z.max 0 (skb_data_len k - 2 * (r - p)) in
  let '(accepted, c') := tcp_recv_data c k in
  accepted = true /\ rcv_nxt (pcb c') = u32 (r + n) /\
  qbytes (recv_queue (sock c')) =
    qbytes (recv_queue (sock c)) ++ slice str (r + (r - p)) n.
Proof. apply recv_data_overlap. Qed.

(** Bytes 90..119 arrive where byte 100 is due: 110..119 are delivered as
    100..109. *)
Lemma overlap_cut_twice_witness :
  let n := Z.max 0 (skb_data_len (segment 90 30) - 2 * (100 - 90)) in
  let '(accepted, c') := tcp_recv_data receiver (segment 90 30) in
  accepted = true /\ rcv_nxt (pcb c') = u32 (100 + n) /\
  qbytes (recv_queue (sock c')) =
    qbytes (recv_queue (sock receiver)) ++ slice (fun i => i) (100 + (100 - 90)) n.
Proof.
  apply (overlap_cut_twice (fun i => i) 100 90 receiver (segment 90 30)).
  - exact receiver_inv.
  - reflexivity.
  - apply segment_carries. lia.
  - vm_compute. done.
  - vm_compute. done.
  - vm_compute. done.
Defined.

Example overlap_delivers_110_to_119 :
  qbytes (recv_queue (sock (snd (tcp_recv_data receiver (segment 90 30))))) =
    [110; 111; 112; 113; 114; 115; 116; 117; 118; 119]
  /\ rcv_nxt (pcb (snd (tcp_recv_data receiver (segment 90 30)))) = 110.
Proof. vm_compute. done. Qed.
