(* ===== verification/TcpInput.v ===== *)
(** Segment arrival on one connection (src/main/tcp.c: [tcp_input] and
    [tcp_process_syn_sent]), as the sequence of checks and steps of the source,
    each acting on one control block and its socket.  A step tells its caller how
    to go on ([verdict]); destroying the socket and moving it between the
    listener's queues concern other objects and are done by TcpWorld.v, which
    composes the steps. *)

From stdpp Require Import prelude list.
From Stdlib Require Import ZArith Lia.
From S2P Require Import Prelude TcpDefs TcpSeq TcpMetrics TcpTimer TcpWindow TcpCongestion.
From S2P Require Import TcpOptions TcpOutput TcpSendInv TcpRecv.

(** *** Definitions *)

(** A received segment: header fields in host order (ports and addresses as
    they are in memory), option area, payload. *)
Record seg := mk_seg {
  i_saddr : list Z; i_daddr : list Z; i_sport : Z; i_dport : Z;
  i_seq : Z; i_ack : Z; i_doff : Z; i_flags : Z; i_window : Z;
  i_opts : list Z; i_data : list Z
}.

Definition data_len (s : seg) : Z := Z.of_nat (length (i_data s)).

(** Sequence numbers the segment occupies. *)
Definition seg_len (s : seg) : Z :=
  data_len s + (if has (i_flags s) TCP_FLAG_SYN then 1 else 0)
  + (if has (i_flags s) TCP_FLAG_FIN then 1 else 0).

(** How [tcp_input] goes on after a step. *)
Inductive verdict :=
  | Continue            (* next step *)
  | Return              (* return 0 *)
  | Destroy             (* destroy_tcp_socket, then return 0 *)
  | Promote.            (* the connection is established: tell the listener, next step *)

Definition timer_now (c : conn) (which : timer_id) (override : bool) : conn :=
  update_timer c which (get_current_time_ms c) override.

(** [tcp_complete_linger]: complete the close requests that wait on the
    socket. *)
Definition REQ_CLOSE : Z := 12.
Definition REQ_WAITING_CLOSE : Z := 16.

Definition waits_close (r : req) : bool :=
  (q_type r =? REQ_CLOSE) && (q_status r =? REQ_WAITING_CLOSE).

Definition tcp_complete_linger (c : conn) : conn :=
  let done := filter (fun r => waits_close r = true) (pending (sock c)) in
  c <|s pending := filter (fun r => waits_close r = false) (pending (sock c)) |>
    <|e completed := rev (map (fun r => (q_id r, 0)) done) ++ completed (ev c) |>.

(** [parse_tcp_options(pcb, hdr) < 0]; reading outside the header is a fault. *)
Definition options_rejected (c : conn) (s : seg) : bool * conn :=
  match parse_tcp_options (pcb c) (i_doff s) (i_flags s) (i_opts s) (get_current_time_ms c) with
  | None => (false, c <|e fault := true |>)
  | Some (ret, p) => (ret <? 0, c <| pcb := p |>)
  end.

(** First step: the acceptability test. *)
Definition seg_acceptable (p : tcp_pcb) (s : seg) : bool :=
  let seq := i_seq s in
  let edge := u32 (rcv_nxt p + rcv_wnd p) in
  if seg_len s =? 0 then
    if rcv_wnd p =? 0 then rcv_nxt p =? seq
    else SEQ_LEQ (rcv_nxt p) seq && SEQ_LT seq edge
  else if negb (rcv_wnd p =? 0) then
    let last := u32 (seq + seg_len s - 1) in
    (SEQ_LEQ (rcv_nxt p) seq && SEQ_LT seq edge)
    || (SEQ_LEQ (rcv_nxt p) last && SEQ_LT last edge)
  else false.

(** A FIN retransmitted in TIME_WAIT. *)
Definition timewait_fin (p : tcp_pcb) (s : seg) : bool :=
  st_eqb (state p) TCP_STATE_TIME_WAIT
  && (Z.land (i_flags s) (Z.lor TCP_FLAG_ACK TCP_FLAG_FIN) =? Z.lor TCP_FLAG_ACK TCP_FLAG_FIN)
  && negb (has (i_flags s) (Z.lor TCP_FLAG_RST TCP_FLAG_SYN))
  && (u32 (i_seq s + data_len s + 1) =? rcv_nxt p).

Definition input_check_seq (c : conn) (s : seg) : verdict * conn :=
  let seg_allow := seg_acceptable (pcb c) s || timewait_fin (pcb c) s in
  if negb seg_allow && negb (has (i_flags s) TCP_FLAG_RST)
  then (Return, timer_now c ack_deadline false)
  else (Continue, c).

(** Second step: RST. *)
Definition input_check_rst (c : conn) (s : seg) : verdict * conn :=
  if has (i_flags s) TCP_FLAG_RST then
    if negb (i_seq s =? rcv_nxt (pcb c)) then (Return, timer_now c ack_deadline false)
    else
      match state (pcb c) with
      | TCP_STATE_SYN_RECEIVED =>
          match parent_sock (pcb c) with
          | Some _ => (Destroy, c)
          | None => (Destroy, c <|s error := ECONNREFUSED |>)
          end
      | TCP_STATE_ESTABLISHED | TCP_STATE_FIN_WAIT_1 | TCP_STATE_FIN_WAIT_2
      | TCP_STATE_CLOSE_WAIT => (Destroy, c <|s error := ECONNRESET |>)
      | TCP_STATE_CLOSING | TCP_STATE_LAST_ACK | TCP_STATE_TIME_WAIT => (Destroy, c)
      | _ => (Return, c)
      end
  else (Continue, c).

(** Fourth step: SYN. *)
Definition input_check_syn (c : conn) (s : seg) : verdict * conn :=
  if has (i_flags s) TCP_FLAG_SYN then
    let challenge := (Return, timer_now c ack_deadline false) in
    match state (pcb c) with
    | TCP_STATE_SYN_RECEIVED =>
        match parent_sock (pcb c) with Some _ => (Destroy, c) | None => challenge end
    | TCP_STATE_ESTABLISHED | TCP_STATE_FIN_WAIT_1 | TCP_STATE_FIN_WAIT_2
    | TCP_STATE_CLOSE_WAIT | TCP_STATE_CLOSING | TCP_STATE_LAST_ACK
    | TCP_STATE_TIME_WAIT => challenge
    | _ => (Return, c)
    end
  else (Continue, c).

(** Fifth step, the ACK field: its range (RFC 5961). *)
Definition input_check_ack (c : conn) (s : seg) : verdict * conn :=
  if negb (has (i_flags s) TCP_FLAG_ACK) then (Return, c)
  else if SEQ_LT (i_ack s) (u32 (snd_una (pcb c) - snd_wnd (pcb c)))
          || SEQ_GT (i_ack s) (snd_nxt (pcb c))
  then (Return, timer_now c ack_deadline false)
  else (Continue, c).

(** Take the peer's window from the segment. *)
Definition update_snd_wnd (c : conn) (s : seg) : conn :=
  let c := tcp_snd_win_change c (tcp_decode_window (pcb c) (i_window s) (i_flags s)) in
  c <|p snd_wl1 := i_seq s |> <|p snd_wl2 := i_ack s |>.

(** The window update is not older than the last one used. *)
Definition window_is_fresh (p : tcp_pcb) (s : seg) : bool :=
  SEQ_LT (snd_wl1 p) (i_seq s) || ((snd_wl1 p =? i_seq s) && SEQ_LEQ (snd_wl2 p) (i_ack s)).

Definition restart_keepalive (c : conn) : conn :=
  if opt_keepalive (sock c) then
    update_timer (c <|p keepalive_repeat_count := 0 |>) keepalive_deadline
      (get_current_time_ms c + keepalive_timeout (pcb c)) true
  else c.

(** ACK in SYN_RECEIVED. *)
Definition ack_syn_received (c : conn) (s : seg) : verdict * conn :=
  let ack := i_ack s in
  if SEQ_LT (snd_una (pcb c)) ack && SEQ_LEQ ack (snd_nxt (pcb c)) then
    let c := c <|p state := TCP_STATE_ESTABLISHED |> <|p snd_una := ack |>
               <|p last_ack := ack |> <|p last_ack_repeat := 0 |> in
    let c := tcp_update_retransmit_queue c in
    let c := update_snd_wnd c s in
    (Promote, restart_keepalive c)
  else if SEQ_LEQ ack (snd_una (pcb c)) then
    let '(_, c) := tcp_send_flag c ack 0 TCP_FLAG_RST in (Return, c)
  else (Continue, c).

(** RTT sample of a new acknowledgement: from the echoed timestamp, else from
    the measured segment. *)
Definition rtt_sample (c : conn) : Z * conn :=
  let now_ms := get_current_time_ms c in
  if peer_ts_ok (pcb c) && negb (ts_last_tsecr (pcb c) =? 0) then
    (if ts_last_tsecr (pcb c) <? now_ms then u32 (now_ms - ts_last_tsecr (pcb c)) else 0,
     c <|p ts_last_tsecr := 0 |>)
  else if negb (rtt_meas_time (pcb c) =? 0)
          && SEQ_LEQ (rtt_meas_seq (pcb c)) (snd_una (pcb c)) then
    (u32 (now_ms - rtt_meas_time (pcb c)), c)
  else (0, c).

Definition measure_rtt (c : conn) : conn :=
  let '(sample, c) := rtt_sample c in
  let c :=
    if negb (sample =? 0) && bool_decide (is_Some (metrics (pcb c))) then
      let '(rto, m) := tcp_metrics_sample (metrics (pcb c)) sample in
      c <|p metrics := m |> <|p retransmit_timeout := rto |>
    else c in
  c <|p rtt_meas_time := 0 |>.

(** ACK of new data in the synchronised states: release what it covers, measure
    the round trip, take the window. *)
Definition ack_accept (c : conn) (s : seg) : conn :=
  let c := tcp_update_retransmit_queue (c <|p snd_una := i_ack s |>) in
  let c := measure_rtt (c <|p last_ack := i_ack s |> <|p last_ack_repeat := 0 |>) in
  if window_is_fresh (pcb c) s then update_snd_wnd c s else c.

(** Then congestion control, which may ask for a retransmission. *)
Definition ack_new_data (c : conn) (s : seg) : conn :=
  let prior_una := snd_una (pcb c) in
  let prior_flight := u32 (snd_nxt (pcb c) - prior_una) in
  let acked_bytes := u32 (i_ack s - prior_una) in
  let was_cwnd_limited := snd_cwnd (pcb c) <=? u64 (prior_flight + snd_mss (pcb c)) in
  let '(again, c) := tcp_congestion_on_ack (ack_accept c s) acked_bytes was_cwnd_limited in
  if again then tcp_retransmit_now c else c.

(** ACK that acknowledges nothing new: window update or duplicate. *)
Definition ack_duplicate (c : conn) (s : seg) : conn :=
  let new_wnd := tcp_decode_window (pcb c) (i_window s) (i_flags s) in
  let fresh := window_is_fresh (pcb c) s in
  let window_changed := fresh && negb (snd_wnd (pcb c) =? new_wnd) in
  let c := if fresh
           then (tcp_snd_win_change c new_wnd) <|p snd_wl1 := i_seq s |> <|p snd_wl2 := i_ack s |>
           else c in
  if negb window_changed && (i_ack s =? last_ack (pcb c)) && (seg_len s =? 0)
     && SEQ_GT (snd_nxt (pcb c)) (snd_una (pcb c)) then
    let c := c <|p last_ack_repeat := u32 (last_ack_repeat (pcb c) + 1) |> in
    let '(again, c) := tcp_congestion_on_duplicate_ack c (last_ack_repeat (pcb c)) in
    if again then tcp_retransmit_now c else c
  else if negb (i_ack s =? last_ack (pcb c)) then
    c <|p last_ack := i_ack s |> <|p last_ack_repeat := 0 |>
  else c.

(** Our FIN is acknowledged: FIN_WAIT_1, CLOSING, LAST_ACK move on. *)
Definition ack_closes (c : conn) : verdict * conn :=
  let all_acked := snd_una (pcb c) =? snd_end (pcb c) in
  let now_ms := get_current_time_ms c in
  match state (pcb c) with
  | TCP_STATE_FIN_WAIT_1 =>
      if all_acked then
        let c := tcp_complete_linger (c <|p state := TCP_STATE_FIN_WAIT_2 |>) in
        (Continue,
         match fd_entry (sock c) with
         | Some _ => c
         | None => update_timer c finwait2_deadline (now_ms + finwait2_timeout (pcb c)) true
         end)
      else (Continue, c)
  | TCP_STATE_CLOSING =>
      if all_acked then
        let c := tcp_complete_linger (c <|p state := TCP_STATE_TIME_WAIT |>) in
        (Continue, update_timer c timewait_deadline (now_ms + timewait_timeout (pcb c)) true)
      else (Continue, c)
  | TCP_STATE_LAST_ACK =>
      if all_acked then (Destroy, tcp_complete_linger c) else (Continue, c)
  | _ => (Continue, c)
  end.

(** The switch on the state of the ACK step. *)
Definition input_ack (c : conn) (s : seg) : verdict * conn :=
  match state (pcb c) with
  | TCP_STATE_SYN_RECEIVED => ack_syn_received c s
  | TCP_STATE_ESTABLISHED | TCP_STATE_FIN_WAIT_1 | TCP_STATE_FIN_WAIT_2
  | TCP_STATE_CLOSE_WAIT | TCP_STATE_CLOSING | TCP_STATE_LAST_ACK =>
      if SEQ_LT (snd_una (pcb c)) (i_ack s) then ack_closes (ack_new_data c s)
      else (Continue, ack_duplicate c s)
  | _ => (Continue, c)
  end.

(** Seventh step: segment text. *)
Definition input_text (c : conn) (s : seg) : conn :=
  match state (pcb c) with
  | TCP_STATE_ESTABLISHED | TCP_STATE_FIN_WAIT_1 | TCP_STATE_FIN_WAIT_2 =>
      if 0 <? data_len s then
        let '(accepted, c) := tcp_recv_data c (mk_tskb (i_seq s) (i_flags s) (i_data s)) in
        if accepted then
          let c := c <|p ack_pending_segments := u8 (ack_pending_segments (pcb c) + 1) |> in
          if 3 <=? ack_pending_segments (pcb c) then timer_now c ack_deadline true
          else update_timer c ack_deadline (get_current_time_ms c + ack_timeout (pcb c)) false
        else c
      else c
  | _ => c
  end.

Definition start_timewait (c : conn) (override : bool) : conn :=
  update_timer c timewait_deadline (get_current_time_ms c + timewait_timeout (pcb c)) override.

(** The state change of a FIN in sequence. *)
Definition fin_transition (c : conn) : conn :=
  match state (pcb c) with
  | TCP_STATE_SYN_RECEIVED | TCP_STATE_ESTABLISHED => c <|p state := TCP_STATE_CLOSE_WAIT |>
  | TCP_STATE_FIN_WAIT_1 =>
      if snd_una (pcb c) =? snd_end (pcb c) then
        start_timewait (tcp_complete_linger (c <|p state := TCP_STATE_TIME_WAIT |>)) false
      else c <|p state := TCP_STATE_CLOSING |>
  | TCP_STATE_FIN_WAIT_2 =>
      start_timewait
        (update_timer (c <|p state := TCP_STATE_TIME_WAIT |>) finwait2_deadline
           TCP_TIMER_STOP true) false
  | TCP_STATE_TIME_WAIT => start_timewait c true
  | _ => c
  end.

(** Eighth step: FIN. *)
Definition input_fin (c : conn) (s : seg) : verdict * conn :=
  let fin := has (i_flags s) TCP_FLAG_FIN in
  match state (pcb c) with
  | TCP_STATE_CLOSED | TCP_STATE_SYN_SENT => (Return, c)
  | _ =>
      if fin && st_eqb (state (pcb c)) TCP_STATE_TIME_WAIT
         && (u32 (i_seq s + data_len s + 1) =? rcv_nxt (pcb c)) then
        (Return, start_timewait (timer_now c ack_deadline true) true)
      else if fin && (u32 (i_seq s + data_len s) =? rcv_nxt (pcb c)) then
        let c := c <|p rcv_nxt := u32 (rcv_nxt (pcb c) + 1) |> <|p recv_fin := true |> in
        let c := notify_event c notify_recv_fin in
        let c := update_timer (c <|p keepalive_repeat_count := 0 |>) keepalive_deadline
                   TCP_TIMER_STOP true in
        let c := timer_now c ack_deadline false in
        (Continue, fin_transition c)
      else (Continue, c)
  end.

(** The end of [tcp_input]: a live connection restarts its keepalive. *)
Definition input_keepalive (c : conn) : conn :=
  if opt_keepalive (sock c) && st_eqb (state (pcb c)) TCP_STATE_ESTABLISHED then
    update_timer (c <|p keepalive_repeat_count := 0 |>) keepalive_deadline
      (get_current_time_ms c + keepalive_timeout (pcb c)) true
  else c.

(** [tcp_input] on a closed control block. *)
Definition input_closed (c : conn) (s : seg) : Z * conn :=
  if has (i_flags s) TCP_FLAG_RST then (0, c)
  else if negb (has (i_flags s) TCP_FLAG_ACK)
  then tcp_send_flag c 0 (u32 (i_seq s + seg_len s)) (Z.lor TCP_FLAG_RST TCP_FLAG_ACK)
  else tcp_send_flag c (i_ack s) 0 TCP_FLAG_RST.

(** [tcp_process_syn_sent]: the ACK check before the RST test. *)
Definition syn_sent_check_ack (c : conn) (s : seg) : verdict * conn :=
  if has (i_flags s) TCP_FLAG_ACK
     && (SEQ_LEQ (i_ack s) (snd_una (pcb c)) || SEQ_GT (i_ack s) (snd_nxt (pcb c))) then
    (Return,
     if negb (has (i_flags s) TCP_FLAG_RST)
     then snd (tcp_send_flag c (i_ack s) 0 TCP_FLAG_RST) else c)
  else (Continue, c).

(** [tcp_process_syn_sent]: the part after the RST test, which runs also when the
    segment carried RST. *)
Definition syn_sent_rest (c : conn) (s : seg) : conn :=
  let '(rejected, c) := options_rejected c s in
  if rejected then c
  else if has (i_flags s) TCP_FLAG_SYN then
    let c := c <|p rcv_nxt := u32 (i_seq s + 1) |> in
    let c :=
      if has (i_flags s) TCP_FLAG_ACK then
        let c := c <|p snd_una := i_ack s |> <|p last_ack := i_ack s |>
                   <|p last_ack_repeat := 0 |> <|p state := TCP_STATE_ESTABLISHED |> in
        let c := tcp_update_retransmit_queue c in
        let c := restart_keepalive c in
        let c := notify_event c notify_data_write in
        timer_now c ack_deadline false
      else
        let c := c <|p state := TCP_STATE_SYN_RECEIVED |> in
        let c :=
          match retransmit_queue (pcb c) with
          | syn_skb :: q =>
              c <|p retransmit_queue :=
                    (syn_skb <| t_flag := Z.lor (t_flag syn_skb) TCP_FLAG_ACK |>) :: q |>
          | [] => c <|e fault := true |>
          end in
        timer_now c retransmit_deadline true in
    update_snd_wnd c s
  else c.
