(* ===== verification/TcpFrame.v ===== *)
(** Frame rules for the TCP handlers.

    An observation [f] of a connection that does not depend on the fields output
    and timers write ([OutputFrame f]) is unchanged by every output function; one
    that moreover does not depend on the windows and the congestion state
    ([WindowFrame f]) is unchanged by window updates and congestion control.  The
    stream data ([view]) and the connection's place in the world ([ctl]: state,
    parent, queues of children, socket flags, tuple) are such observations. *)

From stdpp Require Import prelude list.
From Stdlib Require Import ZArith Lia.
From S2P Require Import Prelude TcpDefs TcpSeq TcpMetrics TcpTimer TcpWindow TcpCongestion.
From S2P Require Import TcpOptions TcpOutput TcpSendInv TcpRecv TcpInput.

Class OutputFrame {A} (f : conn -> A) := {
  of_timer c which d ov : f (update_timer c which d ov) = f c;
  of_allocs c l : f (c <|e allocs := l |>) = f c;
  of_outs c l : f (c <|e outs := l |>) = f c;
  of_routes c l : f (c <|e routes := l |>) = f c;
  of_wire c l : f (c <|e wire := l |>) = f c;
  of_route c r : f (c <|s route := r |>) = f c;
  of_error c e : f (c <|s error := e |>) = f c;
  of_notified c e : f (c <|s notified_events := e |>) = f c;
  of_ptask c t : f (c <|s pending_task := t |>) = f c;
  of_metrics c m : f (c <|p metrics := m |>) = f c;
  of_rto c t : f (c <|p retransmit_timeout := t |>) = f c;
  of_rcv_mss c n : f (c <|p rcv_mss := n |>) = f c;
  of_snd_mss c n : f (c <|p snd_mss := n |>) = f c;
  of_mss_changed c : f (c <| pcb ::= tcp_congestion_mss_changed |>) = f c;
  of_options c flags now_ms :
    f (c <| pcb := snd (make_tcp_options (pcb c) flags now_ms) |>) = f c;
  of_ack_pending c n : f (c <|p ack_pending_segments := n |>) = f c;
  of_rtt_time c n : f (c <|p rtt_meas_time := n |>) = f c
}.

(** [f] does not see the fault flag. *)
Class FaultFrame {A} (f : conn -> A) := of_fault c b : f (c <|e fault := b |>) = f c.

Section output.
Context {A : Type} (f : conn -> A) `{!OutputFrame f}.

Lemma f_alloc c : f (snd (alloc c)) = f c.
Proof. unfold alloc. destruct (allocs (ev c)); [done|]. apply of_allocs. Qed.

Lemma f_notify c e : f (notify_event c e) = f c.
Proof.
  destruct (notify_event_effect c e) as (tk&l&->).
  by rewrite of_allocs, of_ptask, of_notified.
Qed.

Lemma f_deref `{!FaultFrame f} {B} (o : option B) c : f (deref o c) = f c.
Proof. destruct o; [done|]. apply of_fault. Qed.

Lemma f_emit c seq ack flags data : f (snd (emit c seq ack flags data)) = f c.
Proof.
  unfold emit. pose proof (of_options c flags (get_current_time_ms c)) as H.
  destruct (make_tcp_options _ _ _) as [opts p]. cbn [snd] in H.
  unfold ip_output. cbn zeta. case_match; cbn [snd]; by rewrite ?of_outs, of_wire.
Qed.

Lemma f_set_socket_route c : f (snd (set_socket_route c)) = f c.
Proof.
  unfold set_socket_route. destruct (routes (ev c)) as [|[[] ?] ?]; rsimpl;
    destruct (route (sock c)); cbn [snd]; by rewrite ?of_route, ?of_routes.
Qed.

Lemma f_set_tcp_socket_route c : f (snd (set_tcp_socket_route c)) = f c.
Proof.
  unfold set_tcp_socket_route. pose proof (f_set_socket_route c) as H.
  pose proof (set_socket_route_ok c) as Ho.
  destruct (set_socket_route c) as [r c1]. cbn [snd] in H. case_if; [done|]. bool_prop.
  destruct Ho as [_ Ho]. destruct (Ho ltac:(lia)) as [rt ->].
  case_if; cbn [snd]; [by rewrite of_route|].
  set (c2 := match metrics (pcb c1) with Some m => _ | None => _ end).
  assert (H2 : f c2 = f c1).
  { subst c2. destruct (metrics (pcb c1)); [|done]. case_if; [done|]. apply of_metrics. }
  clearbody c2. set (c3 := match metrics (pcb c2) with Some _ => _ | None => _ end).
  assert (H3 : f c3 = f c2).
  { subst c3. destruct (metrics (pcb c2)); [done|]. pose proof (f_alloc c2) as Ha.
    destruct (alloc c2) as [ok c2']. cbn [snd] in Ha. by rewrite of_rto, of_metrics. }
  clearbody c3. case_if; rewrite ?of_mss_changed, of_snd_mss, of_rcv_mss; congruence.
Qed.

Lemma f_xmit_segment c skb budget push : f (snd (tcp_xmit_segment c skb budget push)) = f c.
Proof.
  unfold tcp_xmit_segment. pose proof (f_alloc c) as Ha.
  destruct (alloc c) as [ok c1]. cbn [snd] in Ha. case_if; [done|].
  pose proof (f_set_tcp_socket_route c1) as Hr.
  destruct (set_tcp_socket_route c1) as [r c2]. cbn [snd] in Hr.
  case_if; cbn [snd]; [rewrite f_notify, of_error; congruence|].
  match goal with |- context [emit c2 ?a ?b ?g ?d] =>
    pose proof (f_emit c2 a b g d) as He; destruct (emit c2 a b g d) as [ret c3] end.
  cbn [snd] in He. case_if; cbn [snd]; [congruence|].
  case_if; cbn [snd]; rewrite ?of_timer, ?of_ack_pending; congruence.
Qed.

Lemma f_retransmit_skb c skb probe : f (snd (tcp_retransmit_skb c skb probe)) = f c.
Proof.
  unfold tcp_retransmit_skb.
  repeat case_if; try done; rewrite f_xmit_segment; apply of_rtt_time.
Qed.

Lemma f_retransmit_now_some c :
  retransmit_queue (pcb c) <> [] -> f (tcp_retransmit_now c) = f c.
Proof.
  unfold tcp_retransmit_now. destruct (retransmit_queue (pcb c)) as [|skb q]; [done|]. intros _.
  pose proof (f_retransmit_skb c skb false) as H.
  destruct (tcp_retransmit_skb c skb false) as [r c1]. by rewrite of_timer.
Qed.

Lemma f_retransmit_now `{!FaultFrame f} c : f (tcp_retransmit_now c) = f c.
Proof.
  destruct (retransmit_queue (pcb c)) as [|k q] eqn:E.
  - unfold tcp_retransmit_now. rewrite E. apply of_fault.
  - apply f_retransmit_now_some. by rewrite E.
Qed.

Lemma f_nagle_retry c : f (nagle_retry c) = f c.
Proof. apply of_timer. Qed.

End output.

Class WindowFrame {A} (f : conn -> A) := {
  wf_output :: OutputFrame f;
  wf_cwnd c n : f (c <|p snd_cwnd := n |>) = f c;
  wf_wnd c n : f (c <|p snd_wnd := n |>) = f c;
  wf_wl1 c n : f (c <|p snd_wl1 := n |>) = f c;
  wf_wl2 c n : f (c <|p snd_wl2 := n |>) = f c;
  wf_backoff c n : f (c <|p persist_backoff := n |>) = f c;
  wf_retries c n : f (c <|p retries_out := n |>) = f c;
  wf_cubic c b : f (c <|p cubic := b |>) = f c;
  wf_ca_state c b : f (c <|p ca_state := b |>) = f c;
  wf_enter c : f (c <| pcb ::= ca_enter |>) = f c;
  wf_tsecr c n : f (c <|p ts_last_tsecr := n |>) = f c;
  wf_keepalive c n : f (c <|p keepalive_repeat_count := n |>) = f c
}.

Section window.
Context {A : Type} (f : conn -> A) `{!WindowFrame f}.

Lemma f_arm_persist c : f (tcp_arm_persist c) = f c.
Proof. unfold tcp_arm_persist. case_if; [apply of_timer|done]. Qed.

Lemma f_send_window_update c a b : f (tcp_send_window_update c a b) = f c.
Proof. unfold tcp_send_window_update. repeat case_if; rewrite ?of_timer; done. Qed.

Lemma f_win_change c n : f (tcp_snd_win_change c n) = f c.
Proof.
  unfold tcp_snd_win_change. case_if; [done|].
  rewrite f_arm_persist, f_send_window_update, wf_wnd.
  repeat case_if; rewrite ?of_timer, ?wf_retries, ?wf_backoff; done.
Qed.

Lemma f_cwnd_change c n : f (tcp_snd_cwnd_change c n) = f c.
Proof.
  unfold tcp_snd_cwnd_change. case_if; [done|]. by rewrite f_send_window_update, wf_cwnd.
Qed.

Lemma f_ca_set_cwnd c n : f (tcp_ca_set_cwnd c n) = f c.
Proof. apply f_cwnd_change. Qed.

Lemma f_cubic_avoid c n : f (tcp_cubic_avoid c n) = f c.
Proof.
  unfold tcp_cubic_avoid. set (b := tcp_cubic_update _ _ _ _). clearbody b.
  case_if; unfold tcp_cubic_set_cwnd_packets; rewrite ?f_ca_set_cwnd; apply wf_cubic.
Qed.

Lemma f_cong_avoid c n : f (tcp_cubic_cong_avoid c n) = f c.
Proof.
  unfold tcp_cubic_cong_avoid. case_if; [|apply f_cubic_avoid].
  assert (H : f (snd (tcp_cubic_slow_start c n)) = f c)
    by (unfold tcp_cubic_slow_start; case_if; [done|]; apply f_ca_set_cwnd).
  destruct (tcp_cubic_slow_start c n) as [acked c1]. cbn [snd] in H.
  case_if; [done|]. by rewrite f_cubic_avoid.
Qed.

Lemma f_on_ack c n b : f (snd (tcp_congestion_on_ack c n b)) = f c.
Proof.
  unfold tcp_congestion_on_ack.
  assert (Ht : f (snd (tcp_cubic_take_acked_packets c n)) = f c) by apply wf_cubic.
  destruct (ca_state (pcb c)).
  - case_if; [|done]. destruct (tcp_cubic_take_acked_packets c n) as [acked c1]. cbn [snd] in *.
    case_if; [done|]. by rewrite f_cong_avoid.
  - case_if; cbn [snd]; [by rewrite wf_cubic, wf_ca_state, f_ca_set_cwnd|].
    repeat case_match; rewrite ?f_ca_set_cwnd; done.
  - case_if; cbn [snd]; [by rewrite wf_cubic, wf_ca_state, f_ca_set_cwnd|].
    repeat case_match; rewrite ?f_ca_set_cwnd; done.
Qed.

Lemma f_on_duplicate_ack c n : f (snd (tcp_congestion_on_duplicate_ack c n)) = f c.
Proof.
  unfold tcp_congestion_on_duplicate_ack.
  repeat case_if; cbn [snd]; rewrite ?f_ca_set_cwnd, ?wf_ca_state, ?wf_enter; done.
Qed.

Lemma f_on_timeout c : f (tcp_congestion_on_timeout c) = f c.
Proof.
  unfold tcp_congestion_on_timeout. rewrite wf_cubic, f_ca_set_cwnd, wf_ca_state.
  destruct (ca_state (pcb c)); rewrite ?wf_enter; done.
Qed.

Lemma f_restart_keepalive c : f (restart_keepalive c) = f c.
Proof. unfold restart_keepalive. case_if; [|done]. by rewrite of_timer, wf_keepalive. Qed.

Lemma f_update_snd_wnd c s : f (update_snd_wnd c s) = f c.
Proof. unfold update_snd_wnd. by rewrite wf_wl2, wf_wl1, f_win_change. Qed.

Lemma f_measure_rtt c : f (measure_rtt c) = f c.
Proof.
  unfold measure_rtt.
  assert (Hs : f (snd (rtt_sample c)) = f c)
    by (unfold rtt_sample; repeat case_if; cbn [snd]; rewrite ?wf_tsecr; done).
  destruct (rtt_sample c) as [sample c1]. cbn [snd] in Hs. rewrite of_rtt_time.
  case_if; [|done]. destruct (tcp_metrics_sample _ _) as [rto m].
  by rewrite of_rto, of_metrics.
Qed.

End window.

(** [f] moreover does not see the retransmit queue. *)
Class QueueFrame {A} (f : conn -> A) := {
  qf_window :: WindowFrame f;
  qf_rtx c q : f (c <|p retransmit_queue := q |>) = f c;
  qf_sblen c n : f (c <|s send_buffer_len := n |>) = f c;
  qf_repeat c n : f (c <|p last_ack_repeat := n |>) = f c
}.

Lemma f_update_rtx {A} (f : conn -> A) `{!QueueFrame f} c :
  f (tcp_update_retransmit_queue c) = f c.
Proof.
  unfold tcp_update_retransmit_queue. destruct (ack_queue _ _ _) as [[q released] acked].
  set (c1 := c <|p retransmit_queue := q |> <|s send_buffer_len := _ |>).
  assert (H1 : f c1 = f c) by (subst c1; by rewrite qf_sblen, qf_rtx). clearbody c1.
  set (c2 := if acked then _ else c1).
  assert (H2 : f c2 = f c).
  { subst c2. destruct acked; [|done].
    case_if; rewrite ?of_timer, f_notify, of_rto, wf_retries by apply _; done. }
  clearbody c2. destruct (retransmit_queue (pcb c2)).
  - by rewrite qf_repeat, of_timer.
  - case_if; [rewrite of_timer|]; done.
Qed.

(** *** Instances *)

#[export] Instance view_output_frame : OutputFrame view.
Proof.
  split; intros; try done.
  - apply view_update_timer.
  - apply view_mss_changed.
  - apply view_make_options.
Qed.

#[export] Instance view_fault_frame : FaultFrame view.
Proof. done. Qed.

#[export] Instance view_window_frame : WindowFrame view.
Proof. split; intros; try done. apply _. Qed.

(** Where a connection stands: protocol state, listener relations, socket
    flags. *)
Record ctl_view := mk_ctl {
  x_state : tcp_state; x_parent : option Z;
  x_syn : list Z; x_syn_num : Z; x_acc : list Z; x_acc_num : Z; x_backlog : Z;
  x_fd : option Z; x_hash : bool; x_bound : bool; x_connected : bool;
  x_closed_send : bool; x_closed_recv : bool; x_recv_fin : bool;
  x_family : Z; x_sip : list Z; x_sport : Z; x_dip : list Z; x_dport : Z; x_reuseport : bool
}.

Definition ctl (c : conn) : ctl_view :=
  mk_ctl (state (pcb c)) (parent_sock (pcb c)) (syn_list (pcb c)) (syn_list_num (pcb c))
    (accept_list (pcb c)) (accept_list_num (pcb c)) (backlog (pcb c)) (fd_entry (sock c))
    (is_hash (sock c)) (is_bound (sock c)) (is_connected (sock c))
    (close_send (sock c)) (close_recv (sock c)) (recv_fin (pcb c))
    (family (sock c)) (sip (sock c)) (sport (sock c)) (dip (sock c)) (dport (sock c))
    (opt_reuseport (sock c)).

Lemma ctl_untimed c c' : untimed c = untimed c' -> ctl c = ctl c'.
Proof. intros H. exact (f_equal ctl H). Qed.

#[export] Instance ctl_output_frame : OutputFrame ctl.
Proof.
  split; intros; try done.
  - apply ctl_untimed, untimed_update_timer.
  - unfold tcp_congestion_mss_changed, tcp_congestion_init, ctl. rsimpl.
    destruct (state (pcb c)) eqn:E; rsimpl; rewrite ?E; done.
  - rewrite make_tcp_options_pcb. by case_if.
Qed.

#[export] Instance ctl_fault_frame : FaultFrame ctl.
Proof. done. Qed.

#[export] Instance ctl_window_frame : WindowFrame ctl.
Proof. split; intros; try done. apply _. Qed.

(** The fault flag itself, and the clock. *)
Definition fview (c : conn) : bool * Z := (fault (ev c), now (ev c)).

#[export] Instance fview_output_frame : OutputFrame fview.
Proof. split; intros; done. Qed.

#[export] Instance fview_window_frame : WindowFrame fview.
Proof. split; intros; try done; apply _. Qed.

#[export] Instance ctl_queue_frame : QueueFrame ctl.
Proof. split; intros; try done; apply _. Qed.

#[export] Instance fview_queue_frame : QueueFrame fview.
Proof. split; intros; try done; apply _. Qed.

Lemma ctl_drain l c : ctl (drain l c) = ctl c.
Proof.
  revert c. induction l as [|k l IH]; intros c; cbn [drain]; [done|].
  case_if; [done|]. case_if; [apply IH|]. by rewrite IH.
Qed.

Lemma ctl_recv_data c k : ctl (snd (tcp_recv_data c k)) = ctl c.
Proof.
  unfold tcp_recv_data. case_if; [done|]. destruct (trim_to_window _ _); [|done].
  destruct (LinkedList.insert_sorted _ _ _); [|done]. cbn [snd].
  match goal with |- ctl ((notify_event ?x ?e) <|p rcv_wnd := _ |>) = _ =>
    transitivity (ctl (notify_event x e)); [done|] end.
  by rewrite f_notify, ctl_drain by apply _.
Qed.
