(* ===== verification/TcpStates.v ===== *)
(** Correctness of segment arrival on one connection (definitions in
    TcpInput.v): the acceptability test of RFC 9293, acknowledgement processing,
    FIN processing, and the protocol state machine. *)

From stdpp Require Import prelude list.
From Stdlib Require Import ZArith Lia.
From S2P Require Import Prelude TcpDefs TcpSeq TcpMetrics TcpTimer TcpWindow TcpCongestion.
From S2P Require Import TcpOptions TcpOutput TcpSendInv TcpRecv TcpInput TcpFrame.

(** *** Acceptability *)

(** RFC 9293, section 3.10.7.4, on stream positions: [r] expected, [w] window,
    [q] first position and [n] length of the segment. *)
Definition rfc_acceptable (r w q n : Z) : bool :=
  if n =? 0 then if w =? 0 then q =? r else (r <=? q) && (q <? r + w)
  else if w =? 0 then false
  else ((r <=? q) && (q <? r + w)) || ((r <=? q + n - 1) && (q + n - 1 <? r + w)).

Lemma seg_len_nonneg s : 0 <= seg_len s.
Proof. unfold seg_len, data_len. repeat case_if; lia. Qed.

(** the acceptability test is that of RFC 9293, also across wrap-around of
    the sequence space: for a segment within 2^31 of the expected position and a
    window the protocol can announce, [tcp_input] accepts it exactly when the RFC
    table does. *)
Theorem acceptability_is_rfc9293 (r q : Z) (p : tcp_pcb) (s : seg) :
  rcv_nxt p = u32 r -> i_seq s = u32 q -> 0 <= rcv_wnd p < 2 ^ 30 ->
  - 2 ^ 30 < q - r < 2 ^ 30 -> seg_len s < 2 ^ 29 ->
  seg_acceptable p s = rfc_acceptable r (rcv_wnd p) q (seg_len s).
Proof.
  intros Hr Hq Hw Hd Hn. pose proof (seg_len_nonneg s).
  unfold seg_acceptable, rfc_acceptable. rewrite Hr, Hq.
  rewrite wrap_add_l. replace (u32 (u32 q + seg_len s - 1)) with (u32 (q + seg_len s - 1))
    by (rewrite <- !Z.add_sub_assoc; by rewrite wrap_add_l).
  rewrite !SEQ_LEQ_u32, !SEQ_LT_u32 by lia.
  destruct (seg_len s =? 0).
  - case_if; [|done]. destruct (Z.eqb_spec q r) as [->|Hne]; [by rewrite Z.eqb_refl|].
    apply Z.eqb_neq. intros E. apply u32_inj_near in E; lia.
  - by destruct (rcv_wnd p =? 0).
Qed.

Definition acceptability_case : seg := mk_seg [] [] 0 0 (2 ^ 32 - 10) 0 80 TCP_FLAG_ACK 0 [] (replicate 20 0).

Lemma acceptability_is_rfc9293_witness :
  seg_acceptable (pcb_zero <| rcv_nxt := 5 |> <| rcv_wnd := 100 |>) acceptability_case =
  rfc_acceptable (2 ^ 32 + 5) (rcv_wnd (pcb_zero <| rcv_nxt := 5 |> <| rcv_wnd := 100 |>))
    (2 ^ 32 - 10) (seg_len acceptability_case).
Proof.
  apply (acceptability_is_rfc9293 (2 ^ 32 + 5) (2 ^ 32 - 10)); vm_compute; done.
Defined.

(** *** Acknowledgement *)

(** The recovery point of congestion control lies at or below [snd_nxt]. *)
Definition recovery_ok (nxt : Z) (p : tcp_pcb) : Prop :=
  ca_state p = NET_TCP_CA_OPEN \/
  exists rec, ca_recovery_seq p = u32 rec /\ nxt - 2 ^ 31 < rec <= nxt.

(** State after an acknowledgement of [everything] or of less. *)
Definition state_after_ack (st : tcp_state) (everything : bool) : tcp_state :=
  match st with
  | TCP_STATE_FIN_WAIT_1 => if everything then TCP_STATE_FIN_WAIT_2 else st
  | TCP_STATE_CLOSING => if everything then TCP_STATE_TIME_WAIT else st
  | _ => st
  end.

Lemma on_ack_again c n b :
  fst (tcp_congestion_on_ack c n b) = true ->
  ca_state (pcb c) <> NET_TCP_CA_OPEN /\
  SEQ_GEQ (snd_una (pcb c)) (ca_recovery_seq (pcb c)) = false.
Proof.
  unfold tcp_congestion_on_ack. destruct (ca_state (pcb c)).
  - case_if; [|done]. destruct (tcp_cubic_take_acked_packets c n). by case_if.
  - case_if; [done|]. done.
  - case_if; [done|]. done.
Qed.

(** The recovery state survives everything before congestion control. *)
Definition rec_view (c : conn) := (ca_state (pcb c), ca_recovery_seq (pcb c)).

Lemma rec_untimed c c' : untimed c = untimed c' -> rec_view c = rec_view c'.
Proof. intros H. exact (f_equal rec_view H). Qed.

Lemma rec_timer c which d ov : rec_view (update_timer c which d ov) = rec_view c.
Proof. apply rec_untimed, untimed_update_timer. Qed.

Lemma rec_notify c e : rec_view (notify_event c e) = rec_view c.
Proof. by destruct (notify_event_effect c e) as (tk&l&->). Qed.

Lemma rec_update_rtx c : rec_view (tcp_update_retransmit_queue c) = rec_view c.
Proof.
  unfold tcp_update_retransmit_queue. destruct (ack_queue _ _ _) as [[q released] acked].
  set (c1 := c <|p retransmit_queue := q |> <|s send_buffer_len := _ |>).
  set (c2 := if acked then _ else c1).
  assert (H2 : rec_view c2 = rec_view c).
  { subst c2. destruct acked; [|done]. case_if; rewrite ?rec_timer, rec_notify; done. }
  clearbody c2. destruct (retransmit_queue (pcb c2)).
  - etrans; [|exact H2]. apply (rec_timer c2).
  - case_if; [rewrite rec_timer|]; done.
Qed.

Lemma rec_measure_rtt c : rec_view (measure_rtt c) = rec_view c.
Proof.
  unfold measure_rtt. assert (Hs : rec_view (snd (rtt_sample c)) = rec_view c)
    by (unfold rtt_sample; repeat case_if; done).
  destruct (rtt_sample c) as [sample c1]. cbn [snd] in Hs.
  case_if; [destruct (tcp_metrics_sample _ _)|]; exact Hs.
Qed.

Lemma rec_win_change c n : rec_view (tcp_snd_win_change c n) = rec_view c.
Proof.
  unfold tcp_snd_win_change. case_if; [done|].
  etrans; [apply rec_untimed, untimed_arm_persist|].
  etrans; [apply rec_untimed, untimed_send_window_update|].
  match goal with |- rec_view (?x <|p snd_wnd := _ |>) = _ => transitivity (rec_view x); [done|] end.
  repeat case_if; rewrite ?rec_timer; done.
Qed.

(** What [ack_new_data] does before congestion control. *)
Lemma ack_accept_ok una nxt ende a c s :
  send_inv una nxt ende c -> i_ack s = u32 a -> una <= a <= nxt ->
  let c3 := ack_accept c s in
  send_inv a nxt ende c3 /\ ctl c3 = ctl c /\ rec_view c3 = rec_view c /\
  fview c3 = fview c /\
  exists released, 0 <= released <= qlen (retransmit_queue (pcb c)) /\
    pending_bytes c3 = drop (Z.to_nat released) (pending_bytes c).
Proof.
  intros Hi Ha Hb. cbn zeta. unfold ack_accept. rewrite Ha.
  destruct (update_rtx_ok una nxt ende a c Hi Hb) as (H1&rel&H2&_&H3&_).
  pose proof (f_update_rtx ctl (c <|p snd_una := u32 a |>)) as Hc.
  pose proof (rec_update_rtx (c <|p snd_una := u32 a |>)) as Hr.
  pose proof (f_update_rtx fview (c <|p snd_una := u32 a |>)) as Hf.
  set (c1 := tcp_update_retransmit_queue _) in *. clearbody c1.
  set (c1' := c1 <|p last_ack := u32 a |> <|p last_ack_repeat := 0 |>).
  set (c2 := measure_rtt c1').
  assert (V2 : view c2 = view c1) by (subst c2; by rewrite f_measure_rtt by apply _).
  assert (C2 : ctl c2 = ctl c1) by (subst c2; by rewrite f_measure_rtt by apply _).
  assert (F2 : fview c2 = fview c1) by (subst c2; by rewrite f_measure_rtt by apply _).
  assert (R2 : rec_view c2 = rec_view c1) by (subst c2; by rewrite rec_measure_rtt).
  clearbody c2.
  assert (H4 : view (if window_is_fresh (pcb c2) s then update_snd_wnd c2 s else c2) = view c1 /\
               ctl (if window_is_fresh (pcb c2) s then update_snd_wnd c2 s else c2) = ctl c1 /\
               rec_view (if window_is_fresh (pcb c2) s then update_snd_wnd c2 s else c2) = rec_view c1 /\
               fview (if window_is_fresh (pcb c2) s then update_snd_wnd c2 s else c2) = fview c1).
  { case_if; [|done]. split_and!.
    - by rewrite (f_update_snd_wnd view).
    - by rewrite (f_update_snd_wnd ctl).
    - etrans; [|exact R2]. apply rec_win_change.
    - by rewrite (f_update_snd_wnd fview). }
  destruct H4 as (V3&C3&R3&F3). split_and!.
  - by eapply send_inv_view.
  - by rewrite C3.
  - by rewrite R3.
  - by rewrite F3.
  - exists rel. split; [done|]. by rewrite (pending_view _ _ V3).
Qed.

(** Congestion control after an acknowledgement: a retransmission it asks for
    finds a segment. *)
Lemma congestion_after_ack a nxt ende n b c :
  send_inv a nxt ende c -> recovery_ok nxt (pcb c) ->
  let c' := let '(again, c1) := tcp_congestion_on_ack c n b in
            if again then tcp_retransmit_now c1 else c1 in
  view c' = view c /\ ctl c' = ctl c /\ fview c' = fview c.
Proof.
  intros Hi Hrec. cbn zeta. pose proof (on_ack_again c n b) as Hag.
  pose proof (f_on_ack view c n b) as HV. pose proof (f_on_ack ctl c n b) as HC.
  pose proof (f_on_ack fview c n b) as HF.
  destruct (tcp_congestion_on_ack c n b) as [again c4]. cbn [fst snd] in *.
  destruct again; [|done]. destruct (Hag eq_refl) as [Hno Hge].
  destruct Hrec as [|(rec&Er&Hrn)]; [done|].
  assert (Hne : retransmit_queue (pcb c4) <> []).
  { intros E. pose proof (si_rtx _ _ _ _ Hi) as Hch.
    assert (E' : retransmit_queue (pcb c) = []) by (rewrite <- E; symmetry; exact (f_equal v_rtx HV)).
    rewrite E' in Hch. cbn in Hch. pose proof (si_room _ _ _ _ Hi).
    rewrite (si_una _ _ _ _ Hi), Er, SEQ_GEQ_u32 in Hge by lia. lia. }
  split_and!.
  - by rewrite view_retransmit_now.
  - by rewrite (f_retransmit_now ctl).
  - by rewrite (f_retransmit_now_some fview).
Qed.

(** ACK of new data: the send invariant moves to [a], nothing else of the
    connection changes, and no null pointer is read. *)
Lemma ack_new_data_ok una nxt ende a c s :
  send_inv una nxt ende c -> recovery_ok nxt (pcb c) -> i_ack s = u32 a -> una < a <= nxt ->
  let c' := ack_new_data c s in
  send_inv a nxt ende c' /\ ctl c' = ctl c /\ fview c' = fview c /\
  exists released, 0 <= released <= qlen (retransmit_queue (pcb c)) /\
    pending_bytes c' = drop (Z.to_nat released) (pending_bytes c).
Proof.
  intros Hi Hrec Ha Hb. cbn zeta. unfold ack_new_data. cbn zeta.
  destruct (ack_accept_ok una nxt ende a c s Hi Ha ltac:(lia)) as (H1&H2&H3&H4&rel&H5&H6).
  assert (Hrec3 : recovery_ok nxt (pcb (ack_accept c s))).
  { unfold recovery_ok, rec_view in *. injection H3 as -> ->. done. }
  revert H1 H2 H3 H4 H6 Hrec3. generalize (ack_accept c s). intros c3 H1 H2 H3 H4 H6 Hrec3.
  match goal with |- context [tcp_congestion_on_ack c3 ?n ?b] =>
    generalize n b; intros n' b' end.
  destruct (congestion_after_ack a nxt ende n' b' c3 H1 Hrec3) as (V&C&F).
  match type of V with view ?x = _ => set (c5 := x) in *; clearbody c5 end.
  split_and!.
  - by eapply send_inv_view.
  - by rewrite C.
  - by rewrite F.
  - exists rel. split; [done|]. by rewrite (pending_view _ _ V).
Qed.

(** A duplicate ACK changes no data; fast retransmit finds a segment because it
    is only tried with data in flight. *)
Lemma ack_duplicate_ok una nxt ende c s :
  send_inv una nxt ende c ->
  let c' := ack_duplicate c s in
  view c' = view c /\ ctl c' = ctl c /\ fview c' = fview c.
Proof.
  intros Hi. cbn zeta. unfold ack_duplicate. cbn zeta.
  set (c1 := if window_is_fresh (pcb c) s then _ else c).
  assert (H1 : view c1 = view c /\ ctl c1 = ctl c /\ fview c1 = fview c).
  { subst c1. case_if; [|done]. split_and!.
    - by rewrite (wf_wl2 (f := view)), (wf_wl1 (f := view)), (f_win_change view).
    - by rewrite (wf_wl2 (f := ctl)), (wf_wl1 (f := ctl)), (f_win_change ctl).
    - by rewrite (wf_wl2 (f := fview)), (wf_wl1 (f := fview)), (f_win_change fview). }
  assert (Hi1 : send_inv una nxt ende c1) by (eapply send_inv_view; [apply H1|done]).
  clearbody c1. destruct H1 as (V1&C1&F1). rewrite <- V1, <- C1, <- F1. clear V1 C1 F1 Hi.
  case_if; [|case_if; done]. bool_prop. destruct_and?.
  set (c2 := c1 <|p last_ack_repeat := _ |>).
  assert (V2 : view c2 = view c1 /\ ctl c2 = ctl c1 /\ fview c2 = fview c1) by done.
  assert (Hne : retransmit_queue (pcb c2) <> []).
  { intros E. pose proof (si_rtx _ _ _ _ Hi1) as Hch.
    change (retransmit_queue (pcb c2)) with (retransmit_queue (pcb c1)) in E.
    rewrite E in Hch. cbn in Hch. subst nxt.
    rewrite (si_una _ _ _ _ Hi1), (si_nxt _ _ _ _ Hi1), SEQ_GT_u32 in * by lia.
    match goal with H : (una <? una) = true |- _ => rewrite Z.ltb_irrefl in H; done end. }
  clearbody c2. destruct V2 as (V2&C2&F2). rewrite <- V2, <- C2, <- F2.
  generalize (last_ack_repeat (pcb c2)). intros n.
  pose proof (f_on_duplicate_ack view c2 n) as HV. pose proof (f_on_duplicate_ack ctl c2 n) as HC.
  pose proof (f_on_duplicate_ack fview c2 n) as HF.
  destruct (tcp_congestion_on_duplicate_ack c2 n) as [again c3]. cbn [snd] in *.
  assert (Hne3 : retransmit_queue (pcb c3) <> []).
  { intros E. apply Hne. rewrite <- E. symmetry. exact (f_equal v_rtx HV). }
  destruct again; [|done]. split_and!.
  - by rewrite view_retransmit_now.
  - by rewrite (f_retransmit_now ctl).
  - by rewrite (f_retransmit_now_some fview).
Qed.

(** The states in which an acknowledgement is processed as in ESTABLISHED. *)
Definition processes_ack (st : tcp_state) : bool :=
  match st with
  | TCP_STATE_ESTABLISHED | TCP_STATE_FIN_WAIT_1 | TCP_STATE_FIN_WAIT_2
  | TCP_STATE_CLOSE_WAIT | TCP_STATE_CLOSING | TCP_STATE_LAST_ACK => true
  | _ => false
  end.

Lemma linger_frame c :
  view (tcp_complete_linger c) = view c /\ ctl (tcp_complete_linger c) = ctl c /\
  fview (tcp_complete_linger c) = fview c.
Proof. done. Qed.

(** The side conditions of a transition that only arms a timer on [c1]. *)
Ltac close_frame c1 :=
  split_and!;
  first [ done
        | by right
        | (split; [done|]; by intros [? ?])
        | by rewrite view_update_timer
        | by rewrite (of_timer (f := fview))
        | exact (f_equal x_parent (of_timer (f := ctl) c1 _ _ _))
        | (transitivity (x_state (ctl c1)); [|done];
           exact (f_equal x_state (of_timer (f := ctl) c1 _ _ _))) ].

Lemma ack_closes_ok a nxt ende c :
  send_inv a nxt ende c ->
  let '(v, c') := ack_closes c in
  view c' = view c /\ fview c' = fview c /\
  state (pcb c') = state_after_ack (state (pcb c)) (a =? ende) /\
  parent_sock (pcb c') = parent_sock (pcb c) /\
  (v = Destroy <-> state (pcb c) = TCP_STATE_LAST_ACK /\ a = ende) /\
  (v = Destroy \/ v = Continue).
Proof.
  intros Hi. unfold ack_closes.
  pose proof (send_inv_order _ _ _ _ Hi). pose proof (si_room _ _ _ _ Hi).
  assert (Hall : (snd_una (pcb c) =? snd_end (pcb c)) = (a =? ende)).
  { rewrite (si_una _ _ _ _ Hi), (si_end _ _ _ _ Hi).
    destruct (Z.eqb_spec a ende) as [->|Hne]; [apply Z.eqb_refl|].
    apply Z.eqb_neq. intros E. apply u32_inj_near in E; lia. }
  rewrite Hall. clear Hall.
  destruct (state (pcb c)) eqn:Est; cbn [state_after_ack];
    try (split_and!; try done; [|by right]; split; [done|]; by intros [? ?]);
    (destruct (Z.eqb_spec a ende) as [->|Hne];
     [|split_and!; try done; [|by right]; split; [done|]; by intros [? ?]]).
  - set (c1 := tcp_complete_linger _). assert (Hc1 : view c1 = view c /\ fview c1 = fview c) by done.
    destruct Hc1 as [V1 F1].
    destruct (fd_entry (sock c1)); close_frame c1.
  - set (c1 := tcp_complete_linger _). assert (Hc1 : view c1 = view c /\ fview c1 = fview c) by done.
    destruct Hc1 as [V1 F1]. close_frame c1.
  - split_and!; try done; by left.
Qed.


(** Two segments in flight and our FIN sent: FIN_WAIT_1. *)
Definition closing_sender : conn :=
  sender <|p state := TCP_STATE_FIN_WAIT_1 |> <|p snd_nxt := 1006 |>
         <|p retransmit_queue := send_queue (sock sender) |> <|s send_queue := [] |>.

Lemma closing_sender_inv : send_inv 1000 1006 1006 closing_sender.
Proof.
  constructor; try (vm_compute; done); repeat (apply Forall_cons; split; [reflexivity|]);
    apply Forall_nil_2.
Qed.

Definition ack_of (a : Z) : seg := mk_seg [] [] 0 0 0 a 80 TCP_FLAG_ACK 100 [] [].

