(* ===== verification/BindTable.v ===== *)
(** Local address reservations (src/main/socket.c: [bind_table]).

    A reservation takes two counters: one per port, split into wildcard and
    specific binds, and one per address key, in a hash table whose slots are
    never removed.  Run without interference, the two counters implement a set
    of live reservations with the expected conflict rule.  The code is lock-free:
    the second part models its atomic steps and shows that two threads can
    reserve the same exclusive address. *)

From stdpp Require Import prelude list gmap.
From Stdlib Require Import ZArith Lia.
From S2P Require Import Prelude.

(** *** Definitions *)

Definition AF_INET : Z := 2.
Definition AF_INET6 : Z := 10.
Definition BIND_BUCKET_COUNT : Z := 16384.
Definition BIND_SPECIFIC_ONE : Z := 1.
Definition BIND_ANY_ONE : Z := 2 ^ 32.

(** [addr_key]: address bytes (4 or 16), port in network order, scope. *)
Record addr_key := mk_key {
  ak_addr : list Z; ak_port : Z; ak_family : Z; ak_scope : Z
}.

#[export] Instance addr_key_eq_dec : EqDecision addr_key.
Proof. solve_decision. Defined.

(** [bind_slot]. *)
Record bind_slot := mk_slot { b_key : addr_key; b_count : Z }.

#[export] Instance bind_slot_eq_dec : EqDecision bind_slot.
Proof. solve_decision. Defined.

(** [bind_table]: bucket lists, newest first, and the packed port counters;
    a missing entry is an empty bucket or 0. *)
Record bind_table := mk_table {
  buckets : gmap Z (list bind_slot);
  ports : gmap Z Z
}.

Definition bind_table_create : bind_table := mk_table ∅ ∅.

Definition bucket_of (t : bind_table) (b : Z) : list bind_slot := default [] (buckets t !! b).
Definition port_of (t : bind_table) (p : Z) : Z := default 0 (ports t !! p).

(** [bind_hash_add]: FNV-1a. *)
Definition bind_hash_add (hash : Z) (data : list Z) : Z :=
  foldl (fun h b => u32 (Z.lxor h b * 16777619)) hash data.

Definition bind_key_hash (key : addr_key) : Z :=
  let hash := bind_hash_add 2166136261 (le16_bytes (ak_family key)) in
  let hash := bind_hash_add hash (le16_bytes (ak_port key)) in
  if ak_family key =? AF_INET6
  then bind_hash_add (bind_hash_add hash (ak_addr key)) (le32_bytes (ak_scope key))
  else bind_hash_add hash (take 4 (ak_addr key)).

Definition bind_key_equal (a b : addr_key) : bool :=
  if negb (ak_family a =? ak_family b) || negb (ak_port a =? ak_port b) then false
  else if ak_family a =? AF_INET6
       then (ak_scope a =? ak_scope b) && bool_decide (ak_addr a = ak_addr b)
       else bool_decide (take 4 (ak_addr a) = take 4 (ak_addr b)).

Definition bind_key_is_any (key : addr_key) : bool :=
  if ak_family key =? AF_INET6 then bool_decide (ak_addr key = replicate 16 0)
  else bool_decide (take 4 (ak_addr key) = replicate 4 0).

Definition bind_bucket (key : addr_key) : Z := bind_key_hash key mod BIND_BUCKET_COUNT.

(** [bind_find]: the first slot of the key. *)
Definition bind_find (t : bind_table) (key : addr_key) : option bind_slot :=
  head (filter (fun s => bind_key_equal (b_key s) key = true) (bucket_of t (bind_bucket key))).

(** Change of the first slot of [key] in a bucket. *)
Fixpoint slot_update (l : list bind_slot) (key : addr_key) (f : Z -> Z) : list bind_slot :=
  match l with
  | [] => []
  | s :: l' => if bind_key_equal (b_key s) key then mk_slot (b_key s) (f (b_count s)) :: l'
               else s :: slot_update l' key f
  end.

Definition set_count (t : bind_table) (key : addr_key) (f : Z -> Z) : bind_table :=
  mk_table (<[bind_bucket key := slot_update (bucket_of t (bind_bucket key)) key f]> (buckets t))
    (ports t).

Definition port_index (key : addr_key) : Z := htons (ak_port key).
Definition port_unit (key : addr_key) : Z :=
  if bind_key_is_any key then BIND_ANY_ONE else BIND_SPECIFIC_ONE.

Definition set_port (t : bind_table) (p v : Z) : bind_table :=
  mk_table (buckets t) (<[p := v]> (ports t)).

(** [bind_port_reserve]. *)
Definition bind_port_reserve (t : bind_table) (key : addr_key) (reuse : bool)
    : option bind_table :=
  let any := bind_key_is_any key in
  let old := port_of t (port_index key) in
  if negb reuse && (if any then negb (old =? 0) else negb (u32 (Z.shiftr old 32) =? 0)) then None
  else Some (set_port t (port_index key) (u64 (old + port_unit key))).

(** [bind_port_release]; [None]: the assertion fails. *)
Definition bind_port_release (t : bind_table) (key : addr_key) : option bind_table :=
  let old := port_of t (port_index key) in
  let part := if bind_key_is_any key then Z.shiftr old 32 else u32 old in
  if part =? 0 then None
  else Some (set_port t (port_index key) (u64 (old - port_unit key))).

(** [bind_reserve] without interference: success is [true]; a released port
    that fails its assertion is [None]. *)
Definition bind_reserve (t : bind_table) (key : addr_key) (reuse mem : bool)
    : option (bool * bind_table) :=
  match bind_port_reserve t key reuse with
  | None => Some (false, t)
  | Some t =>
      match bind_find t key with
      | Some slot =>
          if negb (b_count slot =? 0) && negb reuse then
            match bind_port_release t key with Some t => Some (false, t) | None => None end
          else Some (true, set_count t key (fun n => u32 (n + 1)))
      | None =>
          if negb mem then
            match bind_port_release t key with Some t => Some (false, t) | None => None end
          else
            Some (true, mk_table (<[bind_bucket key :=
                                      mk_slot key 1 :: bucket_of t (bind_bucket key)]> (buckets t))
                          (ports t))
      end
  end.

(** [bind_release]; [None]: an assertion fails. *)
Definition bind_release (t : bind_table) (key : addr_key) : option bind_table :=
  match bind_find t key with
  | None => None
  | Some slot =>
      if b_count slot =? 0 then None
      else bind_port_release (set_count t key (fun n => u32 (n - 1))) key
  end.

(** [bind_exist]. *)
Definition bind_exist (t : bind_table) (key : addr_key) : bool :=
  match bind_find t key with Some slot => negb (b_count slot =? 0) | None => false end.

(** *** Keys *)

Lemma bind_key_equal_spec a b :
  bind_key_equal a b = true <->
  ak_family a = ak_family b /\ ak_port a = ak_port b /\
  (if ak_family a =? AF_INET6 then ak_scope a = ak_scope b /\ ak_addr a = ak_addr b
   else take 4 (ak_addr a) = take 4 (ak_addr b)).
Proof.
  unfold bind_key_equal. destruct (Z.eqb_spec (ak_family a) (ak_family b)) as [->|]; cbn;
    [|intuition congruence].
  destruct (Z.eqb_spec (ak_port a) (ak_port b)) as [->|]; cbn; [|intuition congruence].
  case_if; [|by rewrite bool_decide_eq_true; intuition congruence].
  rewrite andb_true_iff, bool_decide_eq_true, Z.eqb_eq. intuition congruence.
Qed.

Lemma bind_key_equal_refl a : bind_key_equal a a = true.
Proof. apply bind_key_equal_spec. by case_if. Qed.

Lemma bind_key_equal_sym a b : bind_key_equal a b = bind_key_equal b a.
Proof.
  apply eq_bool_prop_intro. rewrite !Is_true_true, !bind_key_equal_spec.
  destruct (Z.eq_dec (ak_family a) (ak_family b)) as [E|]; [rewrite E|intuition congruence].
  case_if; intuition congruence.
Qed.

(** Equal keys are indistinguishable for the rest of the code. *)
Lemma bind_key_equal_same a b :
  bind_key_equal a b = true ->
  bind_bucket a = bind_bucket b /\ bind_key_is_any a = bind_key_is_any b /\
  port_index a = port_index b /\ (forall k, bind_key_equal k a = bind_key_equal k b).
Proof.
  intros H. pose proof H as H'. apply bind_key_equal_spec in H as (Hf&Hp&Ha).
  unfold bind_bucket, bind_key_hash, bind_key_is_any, port_index. rewrite <- Hf, <- Hp.
  split_and!.
  - case_if; [destruct Ha as [<- <-]|rewrite <- Ha]; done.
  - case_if; [destruct Ha as [_ <-]|rewrite <- Ha]; done.
  - done.
  - intros k. apply eq_bool_prop_intro. rewrite !Is_true_true, !bind_key_equal_spec, <- Hf, <- Hp.
    destruct (Z.eq_dec (ak_family k) (ak_family a)) as [E|]; [rewrite E|intuition congruence].
    case_if; [destruct Ha as [<- <-]|rewrite <- Ha]; done.
Qed.

Lemma slot_update_find l key key' f :
  head (filter (fun s => bind_key_equal (b_key s) key' = true) (slot_update l key f)) =
  if bind_key_equal key key'
  then (fun s => mk_slot (b_key s) (f (b_count s))) <$>
         head (filter (fun s => bind_key_equal (b_key s) key = true) l)
  else head (filter (fun s => bind_key_equal (b_key s) key' = true) l).
Proof.
  induction l as [|s l IH]; cbn [slot_update]; [by case_if|].
  destruct (bind_key_equal key key') eqn:E.
  - destruct (bind_key_equal_same _ _ E) as (_&_&_&Hk).
    destruct (bind_key_equal (b_key s) key) eqn:Es.
    + rewrite !filter_cons_True by (cbn; congruence). done.
    + rewrite filter_cons_False by (rewrite <- Hk; congruence).
      rewrite filter_cons_False by congruence. apply IH.
  - destruct (bind_key_equal (b_key s) key) eqn:Es.
    + assert (Es' : bind_key_equal (b_key s) key' = false).
      { rewrite bind_key_equal_sym in Es. destruct (bind_key_equal_same _ _ Es) as (_&_&_&Hk).
        rewrite bind_key_equal_sym, <- Hk, bind_key_equal_sym. done. }
      rewrite !filter_cons_False by (cbn; congruence). done.
    + destruct (bind_key_equal (b_key s) key') eqn:Es'.
      * rewrite !filter_cons_True by done. done.
      * rewrite !filter_cons_False by congruence. apply IH.
Qed.

(** *** The specification: a list of live reservations *)

Definition key_count (live : list addr_key) (key : addr_key) : Z :=
  Z.of_nat (length (filter (fun k => bind_key_equal k key = true) live)).

(** Live binds of port index [p], wildcard or specific. *)
Definition port_count (live : list addr_key) (p : Z) (any : bool) : Z :=
  Z.of_nat (length (filter (fun k => port_index k = p /\ bind_key_is_any k = any) live)).

(** What an exclusive bind of [key] collides with. *)
Definition conflict (live : list addr_key) (key : addr_key) : bool :=
  let p := port_index key in
  if bind_key_is_any key
  then negb ((port_count live p true =? 0) && (port_count live p false =? 0))
  else negb ((port_count live p true =? 0) && (key_count live key =? 0)).

Record bind_refines (t : bind_table) (live : list addr_key) : Prop := {
  br_slots key : (match bind_find t key with Some s => b_count s | None => 0 end)
                 = key_count live key;
  br_ports p : port_of t p = port_count live p true * 2 ^ 32 + port_count live p false;
  br_few : Z.of_nat (length live) < 2 ^ 32
}.

Lemma key_count_bounds live key : 0 <= key_count live key <= Z.of_nat (length live).
Proof. unfold key_count. pose proof (length_filter (fun k => bind_key_equal k key = true) live). lia. Qed.

Lemma port_count_bounds live p any : 0 <= port_count live p any <= Z.of_nat (length live).
Proof.
  unfold port_count.
  pose proof (length_filter (fun k => port_index k = p /\ bind_key_is_any k = any) live). lia.
Qed.

Lemma key_count_cons live k key :
  key_count (k :: live) key = key_count live key + (if bind_key_equal k key then 1 else 0).
Proof.
  unfold key_count. destruct (bind_key_equal k key) eqn:E.
  - rewrite filter_cons_True by done. cbn [length]. lia.
  - rewrite filter_cons_False by congruence. lia.
Qed.

Lemma port_count_cons live k p any :
  port_count (k :: live) p any = port_count live p any +
    (if (port_index k =? p) && Bool.eqb (bind_key_is_any k) any then 1 else 0).
Proof.
  unfold port_count.
  destruct (decide (port_index k = p /\ bind_key_is_any k = any)) as [[<- <-]|H].
  - rewrite filter_cons_True by (split; reflexivity). rewrite Z.eqb_refl, Bool.eqb_reflx. cbn [length andb]. lia.
  - rewrite filter_cons_False by done. destruct (_ && _) eqn:E; [|lia]. exfalso. apply H.
    apply andb_true_iff in E as [E1 E2]. split; [lia|]. by apply Bool.eqb_prop.
Qed.

Lemma port_of_set t p v q : port_of (set_port t p v) q = if p =? q then v else port_of t q.
Proof.
  unfold port_of, set_port. cbn [ports]. destruct (Z.eqb_spec p q) as [->|].
  - by rewrite lookup_insert_eq.
  - by rewrite lookup_insert_ne.
Qed.

Lemma find_set_port t p v key : bind_find (set_port t p v) key = bind_find t key.
Proof. done. Qed.

Lemma find_set_count t key key' f :
  bind_find (set_count t key f) key' =
  if bind_key_equal key key'
  then (fun s => mk_slot (b_key s) (f (b_count s))) <$> bind_find t key
  else bind_find t key'.
Proof.
  unfold bind_find, set_count, bucket_of. cbn [buckets].
  destruct (Z.eq_dec (bind_bucket key) (bind_bucket key')) as [E|E].
  - rewrite <- E, lookup_insert_eq. change (default [] (Some ?x)) with x.
    apply slot_update_find.
  - rewrite lookup_insert_ne by done.
    destruct (bind_key_equal key key') eqn:Ek; [|done].
    by destruct (bind_key_equal_same _ _ Ek) as [? _].
Qed.

Lemma port_split a s : 0 <= a < 2 ^ 32 -> 0 <= s < 2 ^ 32 ->
  Z.shiftr (a * 2 ^ 32 + s) 32 = a /\ u32 (a * 2 ^ 32 + s) = s.
Proof.
  intros. rewrite Z.shiftr_div_pow2 by lia. unfold wrap.
  split; Z.to_euclidean_division_equations; lia.
Qed.

(** The port word after one more bind of [key]. *)
Lemma port_add live key p :
  port_count live p true * 2 ^ 32 + port_count live p false
  + (if port_index key =? p then port_unit key else 0) =
  port_count (key :: live) p true * 2 ^ 32 + port_count (key :: live) p false.
Proof.
  rewrite !port_count_cons. unfold port_unit, BIND_ANY_ONE, BIND_SPECIFIC_ONE.
  destruct (port_index key =? p), (bind_key_is_any key); cbn [andb Bool.eqb]; lia.
Qed.

(** An exclusive bind is refused at the port. *)
Definition port_conflict (live : list addr_key) (key : addr_key) : bool :=
  let p := port_index key in
  negb (port_count live p true =? 0) ||
  bind_key_is_any key && negb (port_count live p false =? 0).

Lemma port_reserve_ok t live key reuse :
  bind_refines t live ->
  bind_port_reserve t key reuse =
  if negb reuse && port_conflict live key then None
  else Some (set_port t (port_index key)
               (u64 (port_of t (port_index key) + port_unit key))).
Proof.
  intros [_ Hp Hf]. unfold bind_port_reserve, port_conflict. rewrite (Hp (port_index key)).
  pose proof (port_count_bounds live (port_index key) true).
  pose proof (port_count_bounds live (port_index key) false).
  destruct (port_split (port_count live (port_index key) true)
              (port_count live (port_index key) false)) as [E1 _]; [lia..|].
  rewrite E1, (wrap_id 32) by (unfold is_u; lia).
  set (a := port_count live (port_index key) true) in *.
  set (s := port_count live (port_index key) false) in *.
  assert (Ez : (a * 2 ^ 32 + s =? 0) = (a =? 0) && (s =? 0)).
  { destruct (Z.eqb_spec a 0), (Z.eqb_spec s 0), (Z.eqb_spec (a * 2 ^ 32 + s) 0); cbn; lia || done. }
  rewrite Ez. destruct (bind_key_is_any key), (a =? 0), (s =? 0); done.
Qed.

Lemma port_set_ok t live key p :
  bind_refines t live -> Z.of_nat (length live) + 1 < 2 ^ 32 ->
  port_of (set_port t (port_index key) (u64 (port_of t (port_index key) + port_unit key))) p =
  port_count (key :: live) p true * 2 ^ 32 + port_count (key :: live) p false.
Proof.
  intros [_ Hp _] Hf. rewrite port_of_set, <- port_add, Hp, !Hp.
  pose proof (port_count_bounds live p true). pose proof (port_count_bounds live p false).
  destruct (Z.eqb_spec (port_index key) p) as [->|]; [|lia].
  apply wrap_id. unfold is_u, port_unit, BIND_ANY_ONE, BIND_SPECIFIC_ONE. case_if; lia.
Qed.

(** Releasing the port of a live bind restores the word. *)
Lemma port_release_ok t live key :
  (forall p, port_of t p = port_count (key :: live) p true * 2 ^ 32 + port_count (key :: live) p false) ->
  Z.of_nat (length live) + 1 < 2 ^ 32 ->
  exists t', bind_port_release t key = Some t' /\ buckets t' = buckets t /\
    forall p, port_of t' p = port_count live p true * 2 ^ 32 + port_count live p false.
Proof.
  intros Hp Hf. unfold bind_port_release. rewrite (Hp (port_index key)).
  pose proof (port_count_bounds live (port_index key) true).
  pose proof (port_count_bounds live (port_index key) false).
  rewrite !port_count_cons, Z.eqb_refl.
  set (a := port_count live (port_index key) true) in *.
  set (s := port_count live (port_index key) false) in *. unfold port_unit.
  assert (Hset : forall v, v = a * 2 ^ 32 + s ->
    exists t', Some (set_port t (port_index key) (u64 v)) = Some t' /\ buckets t' = buckets t /\
      forall p, port_of t' p = port_count live p true * 2 ^ 32 + port_count live p false).
  { intros v ->. eexists. split_and!; [done|done|]. intros p. rewrite port_of_set, Hp, !port_count_cons.
    destruct (Z.eqb_spec (port_index key) p) as [<-|]; cbn [andb]; [|lia].
    apply wrap_id. unfold is_u. lia. }
  destruct (bind_key_is_any key); cbn [andb Bool.eqb].
  - rewrite (proj1 (port_split (a + 1) (s + 0) ltac:(lia) ltac:(lia))).
    rewrite (proj2 (Z.eqb_neq _ _)) by lia. apply Hset. unfold BIND_ANY_ONE. lia.
  - rewrite (proj2 (port_split (a + 0) (s + 1) ltac:(lia) ltac:(lia))).
    rewrite (proj2 (Z.eqb_neq _ _)) by lia. apply Hset. unfold BIND_SPECIFIC_ONE. lia.
Qed.

Lemma key_count_equal live a b :
  bind_key_equal a b = true -> key_count live a = key_count live b.
Proof.
  intros E. destruct (bind_key_equal_same _ _ E) as (_&_&_&Hk).
  induction live as [|k live IH]; [done|]. by rewrite !key_count_cons, IH, Hk.
Qed.

(** Counting one more reservation on the slot of [key]. *)
Lemma slots_count_up t live key s :
  (forall k, (match bind_find t k with Some s => b_count s | None => 0 end) = key_count live k) ->
  bind_find t key = Some s -> Z.of_nat (length live) + 1 < 2 ^ 32 ->
  forall k, (match bind_find (set_count t key (fun n => u32 (n + 1))) k with
             | Some s => b_count s | None => 0 end) = key_count (key :: live) k.
Proof.
  intros Hs Hk Hf k. rewrite find_set_count, key_count_cons.
  destruct (bind_key_equal key k) eqn:E; [|rewrite Hs; lia].
  rewrite Hk. cbn. pose proof (Hs key) as Hc. rewrite Hk in Hc.
  pose proof (key_count_bounds live key). rewrite Hc, (key_count_equal _ _ _ E) in *.
  apply wrap_id. unfold is_u. lia.
Qed.

Lemma slots_insert t live key :
  (forall k, (match bind_find t k with Some s => b_count s | None => 0 end) = key_count live k) ->
  bind_find t key = None ->
  forall k, (match bind_find (mk_table (<[bind_bucket key :=
                 mk_slot key 1 :: bucket_of t (bind_bucket key)]> (buckets t)) (ports t)) k with
             | Some s => b_count s | None => 0 end) = key_count (key :: live) k.
Proof.
  intros Hs Hk k. pose proof (Hs key) as H0. rewrite Hk in H0. rewrite key_count_cons.
  unfold bind_find, bucket_of. cbn [buckets].
  destruct (bind_key_equal key k) eqn:E.
  - destruct (bind_key_equal_same _ _ E) as (Eb&_). rewrite <- Eb, lookup_insert_eq.
    change (default [] (Some ?x)) with x. rewrite filter_cons_True by done. cbn.
    rewrite <- (key_count_equal _ _ _ E). lia.
  - specialize (Hs k). unfold bind_find, bucket_of in Hs.
    destruct (Z.eq_dec (bind_bucket key) (bind_bucket k)) as [Eb|Eb].
    + rewrite <- Eb, lookup_insert_eq. change (default [] (Some ?x)) with x.
      rewrite filter_cons_False by (cbn; congruence). rewrite Eb, Hs. lia.
    + rewrite lookup_insert_ne by done. rewrite Hs. lia.
Qed.

(** A reservation undone at the port leaves the table as it was. *)
Lemma reserve_undo t live key :
  bind_refines t live -> Z.of_nat (length live) + 1 < 2 ^ 32 ->
  exists t', bind_port_release
    (set_port t (port_index key) (u64 (port_of t (port_index key) + port_unit key))) key = Some t' /\
    bind_refines t' live.
Proof.
  intros Hr Hf.
  destruct (port_release_ok (set_port t (port_index key)
    (u64 (port_of t (port_index key) + port_unit key))) live key) as (t'&H1&H2&H3); [|done|].
  { intros p. by apply port_set_ok. }
  exists t'. split; [done|]. destruct Hr as [Hs _ Hl]. split; [|done|done].
  intros k. rewrite <- Hs. unfold bind_find, bucket_of. by rewrite H2.
Qed.

(** A collision is one at the port or one of the same key. *)
Lemma conflict_split live key :
  conflict live key = port_conflict live key || negb (key_count live key =? 0).
Proof.
  unfold conflict, port_conflict. pose proof (key_count_bounds live key) as Hk.
  assert (Hkp : bind_key_is_any key = true ->
                key_count live key <= port_count live (port_index key) true).
  { intros Ha. unfold key_count, port_count. clear - Ha.
    induction live as [|k live IH]; [done|]. rewrite !filter_cons.
    repeat case_decide; cbn [length]; try lia. exfalso.
    match goal with H : bind_key_equal k key = true |- _ =>
      destruct (bind_key_equal_same _ _ H) as (_&E1&E2&_) end. intuition congruence. }
  destruct (bind_key_is_any key), (Z.eqb_spec (port_count live (port_index key) true) 0),
    (Z.eqb_spec (port_count live (port_index key) false) 0),
    (Z.eqb_spec (key_count live key) 0); cbn; try done; specialize (Hkp eq_refl); lia.
Qed.

Lemma bind_reserve_ok (t : bind_table) (live : list addr_key) (key : addr_key)
    (reuse mem : bool) :
  bind_refines t live -> Z.of_nat (length live) + 1 < 2 ^ 32 ->
  exists ok t', bind_reserve t key reuse mem = Some (ok, t') /\
    (mem = true -> ok = reuse || negb (conflict live key)) /\
    (ok = true -> reuse || negb (conflict live key) = true) /\
    bind_refines t' (if ok then key :: live else live).
Proof.
  intros Hr Hf. unfold bind_reserve. rewrite (port_reserve_ok t live) by done.
  rewrite conflict_split.
  destruct (negb reuse && port_conflict live key) eqn:Epc.
  { apply andb_true_iff in Epc as [Er Epc]. apply negb_true_iff in Er. subst reuse.
    exists false, t. rewrite Epc. split_and!; done. }
  destruct (reserve_undo t live key Hr Hf) as (tu&Hu&Hru).
  pose proof (fun p => port_set_ok t live key p Hr Hf) as Hp.
  set (t1 := set_port t (port_index key) _) in *.
  assert (Hs1 : forall k, (match bind_find t1 k with Some s => b_count s | None => 0 end) =
                          key_count live k) by (intros k; apply (br_slots _ _ Hr)).
  assert (Hl : Z.of_nat (length (key :: live)) < 2 ^ 32) by (cbn [length]; lia).
  pose proof (Hs1 key) as Hc.
  destruct (bind_find t1 key) as [slot|] eqn:Ef.
  - rewrite Hc. destruct (negb (key_count live key =? 0) && negb reuse) eqn:Ec.
    + apply andb_true_iff in Ec as [Ec Er]. apply negb_true_iff in Er. subst reuse.
      rewrite Hu, Ec, orb_true_r. exists false, tu. split_and!; done.
    + exists true, (set_count t1 key (fun n => u32 (n + 1))).
      assert (Hok : reuse || negb (port_conflict live key || negb (key_count live key =? 0)) = true)
        by (destruct reuse, (port_conflict live key), (key_count live key =? 0); done).
      split_and!; [done|done|done|]. split; [|exact Hp|done].
      by eapply slots_count_up.
  - destruct mem; cbn [negb].
    + eexists true, _. rewrite <- Hc. cbn [Z.eqb negb]. rewrite orb_false_r.
      assert (Hok : reuse || negb (port_conflict live key) = true)
        by (destruct reuse, (port_conflict live key); done).
      split_and!; [done|done|done|]. split; [|exact Hp|done]. by apply slots_insert.
    + rewrite Hu. exists false, tu. split_and!; done.
Qed.

Lemma bind_release_ok (t : bind_table) (live : list addr_key) (key : addr_key) :
  bind_refines t (key :: live) ->
  exists t', bind_release t key = Some t' /\ bind_refines t' live.
Proof.
  intros [Hs Hp Hf]. cbn [length] in Hf. unfold bind_release.
  pose proof (Hs key) as Hc. rewrite key_count_cons, bind_key_equal_refl in Hc.
  pose proof (key_count_bounds live key).
  destruct (bind_find t key) as [slot|] eqn:Ef; [|lia].
  rewrite (proj2 (Z.eqb_neq _ _)) by lia.
  destruct (port_release_ok (set_count t key (fun n => u32 (n - 1))) live key Hp ltac:(lia))
    as (t'&H1&H2&H3).
  exists t'. split; [done|]. split; [|done|lia]. intros k.
  assert (E : bind_find t' k = bind_find (set_count t key (fun n => u32 (n - 1))) k)
    by (unfold bind_find, bucket_of; by rewrite H2).
  rewrite E, find_set_count. specialize (Hs k). rewrite key_count_cons in Hs.
  destruct (bind_key_equal key k) eqn:Ek; [|rewrite Hs; lia].
  rewrite Ef. cbn. rewrite Hc, (key_count_equal _ _ _ Ek).
  replace (key_count live k + 1 - 1) with (key_count live k) by lia.
  apply wrap_id. rewrite (key_count_equal _ _ _ Ek) in *. unfold is_u. lia.
Qed.

(** Reservations are a multiset. *)
Lemma bind_refines_perm (t : bind_table) (l l' : list addr_key) :
  Permutation l l' -> bind_refines t l -> bind_refines t l'.
Proof.
  intros Hp [H1 H2 H3]. split.
  - intros key. rewrite H1. unfold key_count. by rewrite Hp.
  - intros p. rewrite H2. unfold port_count. by rewrite Hp.
  - by rewrite <- Hp.
Qed.

(** without interference the bind table implements exclusive and shared
    reservations.  Against the list of live reservations, [bind_reserve] (with
    memory) succeeds exactly when the caller allows reuse or nothing collides:
    an exclusive wildcard bind collides with any bind of the port, an exclusive
    specific bind with a wildcard bind of the port and with the same address; a
    success adds the reservation, a failure (also of memory) changes nothing, and
    no assertion fails. *)
Theorem bind_reserve_refines (t : bind_table) (live : list addr_key) (key : addr_key)
    (reuse mem : bool) :
  bind_refines t live -> Z.of_nat (length live) + 1 < 2 ^ 32 ->
  exists ok t', bind_reserve t key reuse mem = Some (ok, t') /\
    (mem = true -> ok = reuse || negb (conflict live key)) /\
    (ok = true -> reuse || negb (conflict live key) = true) /\
    bind_refines t' (if ok then key :: live else live).
Proof. apply bind_reserve_ok. Qed.

(** One exclusive bind of 10.0.0.1:80 next to one of another address. *)
Definition key_of (a : list Z) : addr_key := mk_key a (htons 80) AF_INET 0.
Definition one_bind : bind_table :=
  match bind_reserve bind_table_create (key_of [10; 0; 0; 2]) false true with
  | Some (_, t) => t
  | None => bind_table_create
  end.

Lemma bind_table_create_refines : bind_refines bind_table_create [].
Proof. split; intros; done. Qed.

Lemma bind_reserve_refines_witness :
  exists ok t', bind_reserve bind_table_create (key_of [10; 0; 0; 1]) false true = Some (ok, t') /\
    (true = true -> ok = false || negb (conflict [] (key_of [10; 0; 0; 1]))) /\
    (ok = true -> false || negb (conflict [] (key_of [10; 0; 0; 1])) = true) /\
    bind_refines t' (if ok then key_of [10; 0; 0; 1] :: [] else []).
Proof.
  apply (bind_reserve_refines bind_table_create [] (key_of [10; 0; 0; 1]) false true).
  - exact bind_table_create_refines.
  - cbn. lia.
Defined.

(** releasing a live reservation never fails an assertion and removes exactly
    that reservation. *)
Theorem bind_release_refines (t : bind_table) (live : list addr_key) (key : addr_key) :
  bind_refines t (key :: live) ->
  exists t', bind_release t key = Some t' /\ bind_refines t' live.
Proof. apply bind_release_ok. Qed.

Lemma bind_release_refines_witness :
  exists t', bind_release one_bind (key_of [10; 0; 0; 2]) = Some t' /\ bind_refines t' [].
Proof.
  apply (bind_release_refines one_bind [] (key_of [10; 0; 0; 2])).
  destruct (bind_reserve_ok bind_table_create [] (key_of [10; 0; 0; 2]) false true
              bind_table_create_refines ltac:(cbn; lia)) as (ok&t'&E&H1&_&H3).
  unfold one_bind. rewrite E. specialize (H1 eq_refl). vm_compute in H1. subst ok. exact H3.
Defined.

(** *** Interleavings *)

(** Where a thread stands in [bind_reserve]: before the port word; at the top of
    the loop; at the counter of a slot found (its position from the end of the
    bucket, which new slots do not change); with no slot found; with the bucket
    head loaded (identified by the bucket's length, since slots are only pushed);
    about to give the port back; returned. *)
Inductive pc :=
  | P_port | P_find | P_count (pos : nat) | P_alloc | P_cas (len : nat) | P_undo
  | P_done (ok : bool).

Record thread := mk_thread { th_key : addr_key; th_reuse : bool; th_pc : pc }.

(** Position from the end of the first slot of [key]. *)
Fixpoint find_pos (l : list bind_slot) (key : addr_key) : option nat :=
  match l with
  | [] => None
  | s :: l' => if bind_key_equal (b_key s) key then Some (length l') else find_pos l' key
  end.

Fixpoint update_pos (l : list bind_slot) (pos : nat) (f : Z -> Z) : list bind_slot :=
  match l with
  | [] => []
  | s :: l' => if (length l' =? pos)%nat then mk_slot (b_key s) (f (b_count s)) :: l'
               else s :: update_pos l' pos f
  end.

Fixpoint count_at (l : list bind_slot) (pos : nat) : Z :=
  match l with
  | [] => 0
  | s :: l' => if (length l' =? pos)%nat then b_count s else count_at l' pos
  end.

(** One atomic access of a thread; [None]: an assertion fails. *)
Definition thread_step (t : bind_table) (th : thread) : option (bind_table * pc) :=
  let key := th_key th in
  let b := bind_bucket key in
  let set_bucket l := mk_table (<[b := l]> (buckets t)) (ports t) in
  match th_pc th with
  | P_port =>
      match bind_port_reserve t key (th_reuse th) with
      | None => Some (t, P_done false)
      | Some t => Some (t, P_find)
      end
  | P_find =>
      match find_pos (bucket_of t b) key with
      | Some pos => Some (t, P_count pos)
      | None => Some (t, P_alloc)
      end
  | P_count pos =>
      if negb (count_at (bucket_of t b) pos =? 0) && negb (th_reuse th) then Some (t, P_undo)
      else Some (set_bucket (update_pos (bucket_of t b) pos (fun n => u32 (n + 1))), P_done true)
  | P_alloc => Some (t, P_cas (length (bucket_of t b)))
  | P_cas len =>
      if (length (bucket_of t b) =? len)%nat
      then Some (set_bucket (mk_slot key 1 :: bucket_of t b), P_done true)
      else Some (t, P_find)
  | P_undo =>
      match bind_port_release t key with Some t => Some (t, P_done false) | None => None end
  | P_done ok => Some (t, P_done ok)
  end.

(** A schedule names the thread that makes each access. *)
Fixpoint run (sched : list nat) (t : bind_table) (ths : list thread)
    : option (bind_table * list thread) :=
  match sched with
  | [] => Some (t, ths)
  | i :: sched' =>
      match ths !! i with
      | None => run sched' t ths
      | Some th =>
          match thread_step t th with
          | None => None
          | Some (t', p) => run sched' t' (<[i := mk_thread (th_key th) (th_reuse th) p]> ths)
          end
      end
  end.

Lemma run_step i sched t ths th t' p :
  ths !! i = Some th -> thread_step t th = Some (t', p) ->
  run (i :: sched) t ths = run sched t' (<[i := mk_thread (th_key th) (th_reuse th) p]> ths).
Proof. intros H1 H2. cbn [run]. by rewrite H1, H2. Qed.

(** two threads can reserve the same exclusive address.  [bind_reserve] looks
    the key up before it loads the bucket head it will compare-and-swap, so a slot
    pushed in between goes unnoticed: for any specific address there is a schedule
    of two exclusive binds of it, from an empty table, in which both succeed. *)
Theorem bind_reserve_race (key : addr_key) :
  bind_key_is_any key = false ->
  exists sched t ths,
    run sched bind_table_create
      [mk_thread key false P_port; mk_thread key false P_port] = Some (t, ths) /\
    ths = [mk_thread key false (P_done true); mk_thread key false (P_done true)] /\
    length (filter (fun s => bind_key_equal (b_key s) key = true)
              (bucket_of t (bind_bucket key))) = 2%nat.
Proof.
  intros Ha. exists [0; 0; 1; 1; 1; 1; 0; 0]%nat.
  assert (Hr : forall t, u32 (Z.shiftr (port_of t (port_index key)) 32) = 0 ->
    bind_port_reserve t key false =
    Some (set_port t (port_index key) (u64 (port_of t (port_index key) + 1)))).
  { intros t E. unfold bind_port_reserve, port_unit. rewrite Ha, E. done. }
  set (t1 := set_port bind_table_create (port_index key) 1).
  set (t2 := set_port t1 (port_index key) 2).
  assert (R1 : bind_port_reserve bind_table_create key false = Some t1) by (rewrite Hr; done).
  assert (P1 : port_of t1 (port_index key) = 1)
    by (unfold t1; rewrite port_of_set, Z.eqb_refl; done).
  assert (R2 : bind_port_reserve t1 key false = Some t2) by (rewrite Hr; rewrite P1; done).
  set (t3 := mk_table (<[bind_bucket key := [mk_slot key 1]]> (buckets t2)) (ports t2)).
  assert (B3 : bucket_of t3 (bind_bucket key) = [mk_slot key 1])
    by (unfold bucket_of, t3; cbn [buckets]; by rewrite lookup_insert_eq).
  set (t4 := mk_table (<[bind_bucket key := [mk_slot key 1; mk_slot key 1]]> (buckets t3)) (ports t3)).
  assert (B0 : forall t, t = t1 \/ t = t2 -> bucket_of t (bind_bucket key) = [])
    by (by intros t [->| ->]).
  exists t4. eexists. split_and!; [|reflexivity|].
  - erewrite run_step; [|reflexivity|unfold thread_step; cbn; by rewrite R1].
    erewrite run_step; [|reflexivity|unfold thread_step; cbn; rewrite B0 by auto; done].
    erewrite run_step; [|reflexivity|unfold thread_step; cbn; by rewrite R2].
    erewrite run_step; [|reflexivity|unfold thread_step; cbn; rewrite B0 by auto; done].
    erewrite run_step; [|reflexivity|unfold thread_step; cbn; rewrite B0 by auto; done].
    erewrite run_step; [|reflexivity|unfold thread_step; cbn; rewrite B0 by auto; done].
    match goal with |- run ?l ?x ?ths = _ => transitivity (run l t3 ths); [reflexivity|] end.
    erewrite run_step; [|reflexivity|unfold thread_step; cbn; rewrite B3; done].
    erewrite run_step; [|reflexivity|unfold thread_step; cbn; rewrite B3; done].
    done.
  - unfold bucket_of, t4. cbn [buckets]. rewrite lookup_insert_eq.
    change (default [] (Some ?x)) with x.
    by rewrite !filter_cons_True by apply bind_key_equal_refl.
Qed.

Lemma bind_reserve_race_witness :
  exists sched t ths,
    run sched bind_table_create
      [mk_thread (key_of [10; 0; 0; 1]) false P_port; mk_thread (key_of [10; 0; 0; 1]) false P_port]
      = Some (t, ths) /\
    ths = [mk_thread (key_of [10; 0; 0; 1]) false (P_done true);
           mk_thread (key_of [10; 0; 0; 1]) false (P_done true)] /\
    length (filter (fun s => bind_key_equal (b_key s) (key_of [10; 0; 0; 1]) = true)
              (bucket_of t (bind_bucket (key_of [10; 0; 0; 1])))) = 2%nat.
Proof. apply (bind_reserve_race (key_of [10; 0; 0; 1])). reflexivity. Defined.

(** The thread has its unit in the port word. *)
Definition holds_port (th : thread) : bool :=
  match th_pc th with P_port | P_done false => false | _ => true end.

Definition holders (ths : list thread) : list addr_key :=
  th_key <$> filter (fun th => holds_port th = true) ths.

Lemma port_count_app l1 l2 p any :
  port_count (l1 ++ l2) p any = port_count l1 p any + port_count l2 p any.
Proof. unfold port_count. rewrite filter_app, length_app. lia. Qed.

(** The port words account exactly for the threads that hold one. *)
Definition ports_ok (t : bind_table) (ths : list thread) : Prop :=
  forall p, port_of t p =
    port_count (holders ths) p true * 2 ^ 32 + port_count (holders ths) p false.

Lemma holders_split ths i th th' :
  ths !! i = Some th ->
  exists l1 l2, holders ths = l1 ++ (if holds_port th then [th_key th] else []) ++ l2 /\
    holders (<[i := th']> ths) = l1 ++ (if holds_port th' then [th_key th'] else []) ++ l2.
Proof.
  intros Hi. exists (holders (take i ths)), (holders (drop (S i) ths)).
  assert (Hone : forall x l, holders (x :: l) = (if holds_port x then [th_key x] else []) ++ holders l).
  { intros x l. unfold holders. rewrite filter_cons. case_decide as E; [by rewrite E|].
    apply not_true_is_false in E. by rewrite E. }
  assert (Happ : forall l l', holders (l ++ l') = holders l ++ holders l')
    by (intros; unfold holders; by rewrite filter_app, fmap_app).
  split.
  - rewrite <- (take_drop_middle ths i th Hi) at 1. by rewrite Happ, Hone.
  - rewrite insert_take_drop by (by eapply lookup_lt_Some). by rewrite Happ, Hone.
Qed.

Lemma length_holders ths : (length (holders ths) <= length ths)%nat.
Proof. unfold holders. rewrite length_fmap. apply length_filter. Qed.

(** A step that keeps the port words and the thread's unit. *)
Lemma ports_ok_same t t' ths i th p :
  ports_ok t ths -> ths !! i = Some th -> ports t' = ports t ->
  holds_port (mk_thread (th_key th) (th_reuse th) p) = holds_port th ->
  ports_ok t' (<[i := mk_thread (th_key th) (th_reuse th) p]> ths).
Proof.
  intros Hp Hi Ht Hh q.
  destruct (holders_split ths i th (mk_thread (th_key th) (th_reuse th) p) Hi) as (l1&l2&E1&E2).
  rewrite Hh in E2. cbn [th_key] in E2. rewrite E2, <- E1, <- Hp. unfold port_of. by rewrite Ht.
Qed.

Lemma thread_step_ports t ths i th :
  ports_ok t ths -> ths !! i = Some th -> Z.of_nat (length ths) < 2 ^ 32 ->
  exists t' p, thread_step t th = Some (t', p) /\
    ports_ok t' (<[i := mk_thread (th_key th) (th_reuse th) p]> ths).
Proof.
  intros Hp Hi Hl. unfold thread_step.
  pose proof (fun t' p => ports_ok_same t t' ths i th p Hp Hi) as Hsame.
  unfold holds_port in Hsame. cbn [th_pc] in Hsame.
  destruct (th_pc th) eqn:Epc.
  - destruct (bind_port_reserve t (th_key th) (th_reuse th)) as [t'|] eqn:Er.
    2: { eexists _, _. split; [done|]. by apply Hsame. }
    eexists _, _. split; [done|]. intros q.
    destruct (holders_split ths i th (mk_thread (th_key th) (th_reuse th) P_find) Hi) as (l1&l2&E1&E2).
    unfold holds_port in E1, E2. rewrite Epc in E1. cbn [th_pc th_key app] in E1, E2.
    pose proof (length_holders (<[i := mk_thread (th_key th) (th_reuse th) P_find]> ths)) as Hn.
    rewrite length_insert in Hn. rewrite E2 in *.
    unfold bind_port_reserve in Er. case_if; [done|]. injection Er as <-.
    rewrite port_of_set, !Hp, E1.
    pose proof (port_add (l1 ++ l2) (th_key th) q) as Ha.
    pose proof (port_count_bounds (l1 ++ th_key th :: l2) q true).
    pose proof (port_count_bounds (l1 ++ th_key th :: l2) q false).
    rewrite !port_count_app, !port_count_cons, !port_count_app in *.
    destruct (Z.eqb_spec (port_index (th_key th)) q) as [->|]; [|lia].
    rewrite (wrap_id 64); [lia|]. unfold is_u. lia.
  - destruct (find_pos _ _); eexists _, _; (split; [done|]); by apply Hsame.
  - case_if; eexists _, _; (split; [done|]); by apply Hsame.
  - eexists _, _; (split; [done|]); by apply Hsame.
  - case_if; eexists _, _; (split; [done|]); by apply Hsame.
  - destruct (holders_split ths i th (mk_thread (th_key th) (th_reuse th) (P_done false)) Hi)
      as (l1&l2&E1&E2).
    unfold holds_port in E1, E2. rewrite Epc in E1. cbn [th_pc th_key app] in E1, E2.
    pose proof (length_holders ths) as Hn. rewrite E1, length_app in Hn. cbn [length] in Hn.
    destruct (port_release_ok t (l1 ++ l2) (th_key th)) as (t'&H1&_&H3).
    { intros q. rewrite (Hp q), E1, !port_count_app, !port_count_cons, !port_count_app. lia. }
    { rewrite length_app. lia. }
    rewrite H1. eexists _, _. split; [done|]. intros q. rewrite E2. apply H3.
  - eexists _, _; (split; [done|]). by apply Hsame.
Qed.

(** the port words are right under any interleaving.  Threads start
    [bind_reserve] on an empty table and access it in any order, one atomic access
    at a time: no assertion ever fails, and at every moment the word of each port
    counts exactly the wildcard and the specific binds of the threads between
    taking and giving back their unit. *)
Theorem bind_ports_interleaved (binds : list (addr_key * bool)) (sched : list nat) :
  Z.of_nat (length binds) < 2 ^ 32 ->
  exists t ths,
    run sched bind_table_create ((fun b => mk_thread (fst b) (snd b) P_port) <$> binds)
      = Some (t, ths) /\
    length ths = length binds /\ ports_ok t ths.
Proof.
  intros Hl. set (ths0 := _ <$> binds).
  assert (Hlen : length ths0 = length binds) by apply length_fmap.
  assert (Hp : ports_ok bind_table_create ths0).
  { intros p. assert (E : holders ths0 = []).
    { unfold holders, ths0. clear. induction binds as [|b l IH]; [done|]. exact IH. }
    by rewrite E. }
  rewrite <- Hlen in Hl |- *. clear Hlen. clearbody ths0. revert ths0 Hl Hp.
  generalize bind_table_create. induction sched as [|i sched IH]; intros t ths Hl Hp; cbn [run].
  { by exists t, ths. }
  destruct (ths !! i) as [th|] eqn:Hi; [|by apply IH].
  destruct (thread_step_ports t ths i th Hp Hi Hl) as (t'&p&->&Hp').
  rewrite <- (length_insert ths i (mk_thread (th_key th) (th_reuse th) p)) in Hl |- *.
  by apply IH.
Qed.

Lemma bind_ports_interleaved_witness :
  exists t ths,
    run [0; 1; 0; 1; 1; 1; 0; 0]%nat bind_table_create
      ((fun b => mk_thread (fst b) (snd b) P_port) <$>
       [(key_of [10; 0; 0; 1], false); (key_of [0; 0; 0; 0], false)]) = Some (t, ths) /\
    length ths = length [(key_of [10; 0; 0; 1], false); (key_of [0; 0; 0; 0], false)] /\
    ports_ok t ths.
Proof.
  apply (bind_ports_interleaved [(key_of [10; 0; 0; 1], false); (key_of [0; 0; 0; 0], false)]
           [0; 1; 0; 1; 1; 1; 0; 0]%nat). cbn. lia.
Defined.
