(* ===== verification/TcpApi.v ===== *)
(** The socket calls of one TCP connection (src/main/tcp.c: [tcp_write],
    [tcp_read], [tcp_shutdown], [tcp_setsockopt], [tcp_getsockopt], [tcp_poll],
    [tcp_getsockname], [tcp_getpeername]; src/main/stack.c: [wait],
    [wait_until]).

    A call that has to wait leaves its request on the socket's pending list and
    answers [REQ_PENDING]; it is run again from the start when an event or its
    timeout arrives. *)

From stdpp Require Import prelude list.
From Stdlib Require Import ZArith Lia.
From S2P Require Import Prelude TcpDefs TcpSeq TcpMetrics TcpTimer TcpWindow TcpCongestion.
From S2P Require Import TcpOptions TcpOutput TcpSendInv TcpRecv TcpInput TcpFrame BindTable.

(** *** Waiting requests *)

Definition REQ_PENDING : Z := - 2 ^ 31.
Definition REQ_WAITING_READ : Z := 1.
Definition REQ_WAITING_WRITE : Z := 2.
Definition REQ_WAITING_CONNECT : Z := 4.
Definition REQ_WAITING_ACCEPT : Z := 8.
Definition O_NONBLOCK : Z := 0x800.

(** Put a request on the pending list, or update it there. *)
Definition attach (l : list req) (r : req) : list req :=
  if bool_decide (q_id r ∈ q_id <$> l)
  then map (fun x => if q_id x =? q_id r then r else x) l
  else r :: l.

(** [req_notify]: take the request off the list and record its result. *)
Definition req_notify (c : conn) (r : req) (ret : Z) : conn :=
  c <|s pending := filter (fun x => q_id x <> q_id r) (pending (sock c)) |>
    <|e completed := (q_id r, ret) :: completed (ev c) |>.

Definition wait (c : conn) (r : req) (status : Z) : conn :=
  c <|s pending := attach (pending (sock c)) (r <| q_status := status |>) |>.

(** [wait_until]; the request's worker runs, so the timer task can be
    registered. *)
Definition wait_until (c : conn) (r : req) (status expire : Z) : conn :=
  let r := r <| q_status := status |> in
  let '(ok, c) := match q_timeout r with Some _ => (true, c) | None => alloc c end in
  if negb ok then req_notify c r (- ENOMEM)
  else c <|s pending := attach (pending (sock c)) (r <| q_timeout := Some expire |>) |>.

(** The wait of a call with an optional timeout. *)
Definition wait_for (c : conn) (r : req) (status : Z) (timed : bool) (timeout_ms : Z) : conn :=
  if timed then wait_until c r status (get_current_time_ms c + timeout_ms) else wait c r status.

(** The request waited in [status] and its time is over. *)
Definition expired (c : conn) (r : req) (status : Z) : bool :=
  (q_status r =? status) &&
  match q_timeout r with Some t => t <=? get_current_time_ms c | None => false end.

(** *** [tcp_write] *)

(** The loop over the bytes of [buf] from [send_len] to [len]; [None]: out of
    fuel. *)
Fixpoint write_loop (fuel : nat) (c : conn) (buf : list Z) (send_len len seg_limit : Z)
    : option (Z * conn) :=
  if len <=? send_len then Some (send_len, c)
  else
    match fuel with
    | O => None
    | S f =>
        let chunk := Z.min (len - send_len) seg_limit in
        let full := match last (send_queue (sock c)) with
                    | None => true
                    | Some skb => seg_limit <? u32 (skb_data_len skb + chunk)
                    end in
        let '(ok, c) :=
          if full then
            let '(ok, c) := alloc (deref (route (sock c)) c) in
            (ok, if ok then c <|s send_queue := send_queue (sock c)
                                ++ [mk_tskb (snd_end (pcb c)) TCP_FLAG_ACK []] |> else c)
          else (true, c) in
        if negb ok then Some (send_len, c)
        else
          let '(appended, c) := alloc c in
          match last (send_queue (sock c)) with
          | Some skb =>
              if negb appended then Some (send_len, c)
              else
                let bytes := take (Z.to_nat chunk) (drop (Z.to_nat send_len) buf) in
                let c := c <|s send_queue := removelast (send_queue (sock c))
                                 ++ [skb <| t_data := t_data skb ++ bytes |>] |>
                           <|p snd_end := u32 (snd_end (pcb c) + chunk) |>
                           <|s send_buffer_len := u32 (send_buffer_len (sock c) + chunk) |> in
                write_loop f c buf (send_len + chunk) len seg_limit
          | None => None
          end
    end.

(** What [tcp_write] does with new data: send, or wait for more. *)
Definition write_push (c : conn) (seg_limit : Z) : conn :=
  match send_queue (sock c) with
  | first_skb :: rest =>
      if (seg_limit <=? skb_data_len first_skb) || nonempty rest then snd (tcp_write_xmit c false)
      else update_timer c nagle_deadline
             (get_current_time_ms c
              + (if cork (pcb c) then TCP_CORK_TIMEOUT_MS_DEFAULT else nagle_interval (pcb c)))
             false
  | [] => c <|e fault := true |>
  end.

(** The states a write may be made in; otherwise its error. *)
Definition write_state (st : tcp_state) : Z :=
  match st with
  | TCP_STATE_ESTABLISHED | TCP_STATE_CLOSE_WAIT | TCP_STATE_SYN_SENT
  | TCP_STATE_SYN_RECEIVED => 0
  | TCP_STATE_FIN_WAIT_1 | TCP_STATE_FIN_WAIT_2 | TCP_STATE_CLOSING | TCP_STATE_LAST_ACK
  | TCP_STATE_TIME_WAIT => - EPIPE
  | TCP_STATE_LISTEN | TCP_STATE_CLOSED => - ENOTCONN
  end.

(** [tcp_write] after its checks. *)
Definition write_body (c : conn) (buf : list Z) (len : Z) : option (Z * conn) :=
  let '(r, c) := set_tcp_socket_route c in
  if r <? 0 then Some (- EHOSTUNREACH, c)
  else
    let space := u32 (send_buffer_len_max (sock c) - send_buffer_len (sock c)) in
    let len := if space <? len then space else len in
    let seg_limit := tcp_data_mss (pcb c) in
    match write_loop (Z.to_nat len) c buf 0 len seg_limit with
    | None => None
    | Some (send_len, c) =>
        if send_len =? 0 then Some (- ENOMEM, c) else Some (send_len, write_push c seg_limit)
    end.

Definition tcp_write (c : conn) (r : req) (buf : option (list Z)) (len : Z) : option (Z * conn) :=
  if negb (error (sock c) =? 0) then Some (- error (sock c), c <|s error := 0 |>)
  else if len =? 0 then Some (0, c)
  else if close_send (sock c) then Some (- EPIPE, c)
  else
    match buf with
    | None => Some (- EFAULT, c)
    | Some buf =>
        if negb (is_connected (sock c)) || negb (is_bound (sock c)) then Some (- ENOTCONN, c)
        else if negb (write_state (state (pcb c)) =? 0) then Some (write_state (state (pcb c)), c)
        else if send_buffer_len_max (sock c) <=? send_buffer_len (sock c) then
          if has (file_flags (sock c)) O_NONBLOCK then Some (- EAGAIN, c)
          else if expired c r REQ_WAITING_WRITE then Some (- EAGAIN, c)
          else Some (REQ_PENDING, wait_for c r REQ_WAITING_WRITE (opt_send_timeout (sock c))
                                    (send_timeout_ms (sock c)))
        else write_body c buf len
    end.

(** *** [tcp_read] *)

(** The copy loop: the bytes copied into [room] and the queue left. *)
Fixpoint read_loop (q : list tskb) (room : Z) : list Z * list tskb :=
  match q with
  | [] => ([], [])
  | skb :: q' =>
      if room <=? 0 then ([], q)
      else
        let avail := skb_data_len skb in
        if avail =? 0 then read_loop q' room
        else
          let n := if avail <=? room then avail else room in
          let bytes := take (Z.to_nat n) (t_data skb) in
          if n <? avail then (bytes, consume skb n :: q')
          else let '(more, rest) := read_loop q' (room - n) in (bytes ++ more, rest)
  end.

(** The window after the reader has made room, advertised when it grew. *)
Definition open_window (c : conn) : conn :=
  let old_wnd := rcv_wnd (pcb c) in
  let c := c <|p rcv_wnd := Z.min (useable_recv_buff_size (sock c))
                                  (recv_buffer_len_max (sock c)) |> in
  if old_wnd <? rcv_wnd (pcb c) then timer_now c ack_deadline false else c.

(** The states in which reading is an error. *)
Definition read_refused (c : conn) : bool :=
  match state (pcb c) with
  | TCP_STATE_CLOSED => negb (recv_fin (pcb c) && nonempty (recv_queue (sock c)))
  | TCP_STATE_LISTEN => true
  | _ => false
  end.

(** [tcp_read]: result, bytes written to the buffer, state. *)
Definition tcp_read (c : conn) (r : req) (len : Z) : Z * list Z * conn :=
  if negb (error (sock c) =? 0) then (- error (sock c), [], c <|s error := 0 |>)
  else if close_recv (sock c) then (0, [], c)
  else if negb (nonempty (recv_queue (sock c))) && recv_fin (pcb c) then (0, [], c)
  else if read_refused c then (- ENOTCONN, [], c)
  else if negb (nonempty (recv_queue (sock c))) then
    if has (file_flags (sock c)) O_NONBLOCK then (- EAGAIN, [], c)
    else if expired c r REQ_WAITING_READ then (- EAGAIN, [], c)
    else (REQ_PENDING, [], wait_for c r REQ_WAITING_READ (opt_recv_timeout (sock c))
                             (recv_timeout_ms (sock c)))
  else
    let '(bytes, rest) := read_loop (recv_queue (sock c)) len in
    let copied := Z.of_nat (length bytes) in
    let c := c <|s recv_queue := rest |>
               <|s recv_buffer_len := u32 (recv_buffer_len (sock c) - copied) |> in
    (copied, bytes, open_window c).

(** *** The other calls *)

Definition SHUT_RD : Z := 0.
Definition SHUT_WR : Z := 1.
Definition SHUT_RDWR : Z := 2.

Definition tcp_shutdown (c : conn) (how : Z) : Z * conn :=
  if negb (how =? SHUT_RD) && negb (how =? SHUT_WR) && negb (how =? SHUT_RDWR) then (- EINVAL, c)
  else if negb (is_connected (sock c))
          || negb (st_eqb (state (pcb c)) TCP_STATE_ESTABLISHED
                   || st_eqb (state (pcb c)) TCP_STATE_CLOSE_WAIT
                   || st_eqb (state (pcb c)) TCP_STATE_FIN_WAIT_1
                   || st_eqb (state (pcb c)) TCP_STATE_FIN_WAIT_2) then (- ENOTCONN, c)
  else
    let c := if ((how =? SHUT_RD) || (how =? SHUT_RDWR)) && negb (close_recv (sock c))
             then notify_event (c <|s close_recv := true |>) notify_data_read else c in
    let c := if ((how =? SHUT_WR) || (how =? SHUT_RDWR)) && negb (close_send (sock c))
             then tcp_send_fin (c <|s close_send := true |>) else c in
    (0, c).

Definition TCP_NODELAY : Z := 1.
Definition TCP_CORK : Z := 3.

(** The position of a state in the enumeration. *)
Definition state_number (st : tcp_state) : Z :=
  match st with
  | TCP_STATE_CLOSED => 0 | TCP_STATE_LISTEN => 1 | TCP_STATE_SYN_SENT => 2
  | TCP_STATE_SYN_RECEIVED => 3 | TCP_STATE_ESTABLISHED => 4 | TCP_STATE_FIN_WAIT_1 => 5
  | TCP_STATE_FIN_WAIT_2 => 6 | TCP_STATE_CLOSE_WAIT => 7 | TCP_STATE_CLOSING => 8
  | TCP_STATE_LAST_ACK => 9 | TCP_STATE_TIME_WAIT => 10
  end.

(** [tcp_setsockopt] after [socket_setsockopt] has set SO_RCVBUF. *)
Definition rcvbuf_changed (c : conn) : conn :=
  let old_wnd := rcv_wnd (pcb c) in
  let c := c <|p rcv_wnd := Z.min (useable_recv_buff_size (sock c))
                                  (recv_buffer_len_max (sock c)) |> in
  if negb (old_wnd =? rcv_wnd (pcb c)) && owner (sock c)
     && (state_number TCP_STATE_SYN_RECEIVED <=? state_number (state (pcb c)))
     && negb (st_eqb (state (pcb c)) TCP_STATE_TIME_WAIT)
  then timer_now c ack_deadline true else c.

(** ... SO_KEEPALIVE. *)
Definition keepalive_changed (c : conn) : conn :=
  let c := c <|p keepalive_repeat_count := 0 |> in
  let deadline := if opt_keepalive (sock c) && st_eqb (state (pcb c)) TCP_STATE_ESTABLISHED
                  then get_current_time_ms c + keepalive_timeout (pcb c) else TCP_TIMER_STOP in
  update_timer c keepalive_deadline deadline true.

(** [tcp_setsockopt] at level IPPROTO_TCP; [value] is the int the caller gave. *)
Definition tcp_level_setsockopt (c : conn) (optname value optlen : Z) : Z * conn :=
  if negb (optname =? TCP_NODELAY) && negb (optname =? TCP_CORK) then (- ENOPROTOOPT, c)
  else if optlen <? 4 then (- EINVAL, c)
  else
    let enabled := negb (value =? 0) in
    if optname =? TCP_NODELAY
    then (0, c <|p nagle_interval := if enabled then 0 else TCP_NAGLE_INTERVAL_MS_DEFAULT |>)
    else (0, c <|p cork := enabled |>).

(** [tcp_getsockopt] at level IPPROTO_TCP: result and value. *)
Definition tcp_level_getsockopt (c : conn) (optname optlen : Z) : Z * Z :=
  if negb (optname =? TCP_NODELAY) && negb (optname =? TCP_CORK) then (- ENOPROTOOPT, 0)
  else if optlen <? 4 then (- EINVAL, 0)
  else (0, if optname =? TCP_NODELAY then (if nagle_interval (pcb c) =? 0 then 1 else 0)
           else if cork (pcb c) then 1 else 0).

Definition EPOLLIN : Z := 0x001.
Definition EPOLLOUT : Z := 0x004.
Definition EPOLLERR : Z := 0x008.
Definition EPOLLHUP : Z := 0x010.
Definition EPOLLRDHUP : Z := 0x2000.

(** [SOCKET_USEABLE_SEND_BUFF_SIZE]. *)
Definition useable_send_buff_size (s : Socket) : Z :=
  if send_buffer_len s <? send_buffer_len_max s
  then send_buffer_len_max s - send_buffer_len s else 0.

Definition bits (b : bool) (mask : Z) : Z := if b then mask else 0.

(** The part of [tcp_poll] that depends on the state. *)
Definition poll_state (c : conn) : Z :=
  let readable := bits (0 <? recv_buffer_len (sock c)) EPOLLIN in
  match state (pcb c) with
  | TCP_STATE_LISTEN => bits (0 <? accept_list_num (pcb c)) EPOLLIN
  | TCP_STATE_ESTABLISHED | TCP_STATE_CLOSE_WAIT =>
      Z.lor readable
        (bits (negb (close_send (sock c)) && (0 <? useable_send_buff_size (sock c))) EPOLLOUT)
  | TCP_STATE_FIN_WAIT_1 | TCP_STATE_FIN_WAIT_2 | TCP_STATE_CLOSING | TCP_STATE_LAST_ACK => readable
  | TCP_STATE_SYN_SENT | TCP_STATE_SYN_RECEIVED => 0
  | TCP_STATE_TIME_WAIT | TCP_STATE_CLOSED => Z.lor readable EPOLLHUP
  end.

Definition tcp_poll (c : conn) : Z :=
  let mask := Z.lor (bits (negb (error (sock c) =? 0)) EPOLLERR) (poll_state c) in
  let mask := Z.lor mask (bits (close_recv (sock c)) EPOLLIN) in
  let mask := Z.lor mask (bits (recv_fin (pcb c)) (Z.lor EPOLLIN EPOLLRDHUP)) in
  Z.lor mask (bits (close_send (sock c) && (close_recv (sock c) || recv_fin (pcb c))) EPOLLHUP).

(** A [sockaddr_in] or [sockaddr_in6] in memory; the port is as it is stored. *)
Definition sockaddr_bytes (fam : Z) (addr : list Z) (port scope : Z) : list Z :=
  if fam =? AF_INET6
  then le16_bytes AF_INET6 ++ le16_bytes port ++ replicate 4 0 ++ addr ++ le32_bytes scope
  else le16_bytes AF_INET ++ le16_bytes port ++ addr ++ replicate 8 0.

Definition sockaddr_len (fam : Z) : Z := if fam =? AF_INET6 then 28 else 16.

(** The bounded copy of an address to the caller: the bytes written and the new
    [*addrlen]. *)
Definition copy_sockaddr (fam : Z) (out : list Z) (addrlen : Z) : list Z * Z :=
  let required := sockaddr_len fam in
  let capacity := if addrlen <? required then addrlen else required in
  (take (Z.to_nat capacity) out, required).

(** [tcp_getsockname] and [tcp_getpeername]; [addrlen] is [None] when one of the
    two pointers is null. *)
Definition tcp_getsockname (c : conn) (addrlen : option Z) : Z * list Z * Z :=
  match addrlen with
  | None => (- EFAULT, [], 0)
  | Some n =>
      let s := sock c in
      let '(bytes, len) :=
        copy_sockaddr (family s) (sockaddr_bytes (family s) (sip s) (sport s) (sip_scope s)) n in
      (0, bytes, len)
  end.

Definition tcp_getpeername (c : conn) (addrlen : option Z) : Z * list Z * Z :=
  match addrlen with
  | None => (- EFAULT, [], 0)
  | Some n =>
      let s := sock c in
      if negb (is_connected s) then (- ENOTCONN, [], n)
      else
        let '(bytes, len) :=
          copy_sockaddr (family s) (sockaddr_bytes (family s) (dip s) (dport s) (dip_scope s)) n in
        (0, bytes, len)
  end.

(** *** Lemmas on writing *)

(** What the append loop did: [n] bytes of [buf] from [from] on were put behind
    the stream. *)
Record appended (una nxt ende : Z) (buf : list Z) (from : Z) (c : conn) (n : Z) (c' : conn) : Prop := {
  ap_n : 0 <= n;
  ap_inv : send_inv una nxt (ende + n) c';
  ap_rtx : retransmit_queue (pcb c') = retransmit_queue (pcb c);
  ap_bytes : qbytes (send_queue (sock c')) =
    qbytes (send_queue (sock c)) ++ take (Z.to_nat n) (drop (Z.to_nat from) buf);
  ap_nofin : Forall (fun k => has (t_flag k) TCP_FLAG_FIN = false) (send_queue (sock c'));
  ap_ctl : ctl c' = ctl c;
  ap_wnd : wview c' = wview c;
  ap_route : route (sock c') = route (sock c);
  ap_cwnd : snd_cwnd (pcb c') = snd_cwnd (pcb c);
  ap_max : send_buffer_len_max (sock c') = send_buffer_len_max (sock c)
}.

Lemma appended_nothing una nxt ende buf from c c' :
  send_inv una nxt ende c' -> retransmit_queue (pcb c') = retransmit_queue (pcb c) ->
  qbytes (send_queue (sock c')) = qbytes (send_queue (sock c)) ->
  Forall (fun k => has (t_flag k) TCP_FLAG_FIN = false) (send_queue (sock c')) ->
  ctl c' = ctl c -> wview c' = wview c -> route (sock c') = route (sock c) ->
  snd_cwnd (pcb c') = snd_cwnd (pcb c) ->
  send_buffer_len_max (sock c') = send_buffer_len_max (sock c) ->
  appended una nxt ende buf from c 0 c'.
Proof.
  intros. split; try done; rewrite ?Z.add_0_r; try done.
  by rewrite take_0, app_nil_r.
Qed.

Lemma appended_trans una nxt ende buf from c n c1 m c' :
  0 <= from ->
  appended una nxt ende buf from c n c1 -> appended una nxt (ende + n) buf (from + n) c1 m c' ->
  appended una nxt ende buf from c (n + m) c'.
Proof.
  intros Hf [] []. split; try congruence; try lia.
  - by rewrite Z.add_assoc.
  - rewrite ap_bytes1, ap_bytes0, <- app_assoc. f_equal.
    rewrite !Z2Nat.inj_add, <- drop_drop, take_take_drop by lia. done.
Qed.

(** A new empty segment at the end of the queue. *)
Lemma push_empty_ok una nxt ende c :
  send_inv una nxt ende c ->
  Forall (fun k => has (t_flag k) TCP_FLAG_FIN = false) (send_queue (sock c)) ->
  let c' := c <|s send_queue := send_queue (sock c)
                   ++ [mk_tskb (snd_end (pcb c)) TCP_FLAG_ACK []] |> in
  send_inv una nxt ende c' /\
  Forall (fun k => has (t_flag k) TCP_FLAG_FIN = false) (send_queue (sock c')).
Proof.
  intros Hi Hf. destruct Hi as [H1 H2 H3 H4 H5 H6 H7 H8 H9 H10]. rsimpl. split.
  - split; rsimpl; try done.
    + apply chain_snoc. exists ende. split_and!; [done|done|].
      change (ende = ende + 0). lia.
    + apply Forall_app. split; [done|]. by apply Forall_singleton.
    + by rewrite removelast_last.
    + rewrite qlen_app. change (qlen [_]) with 0. lia.
  - apply Forall_app. split; [done|]. by apply Forall_singleton.
Qed.

Lemma wrap_len n : 0 <= n < 2 ^ 32 -> u32 n = n.
Proof. intros. by apply wrap_id. Qed.

(** Bytes behind the last segment. *)
Lemma append_bytes_ok una nxt ende c q k bytes :
  let n := Z.of_nat (length bytes) in
  send_inv una nxt ende c -> send_queue (sock c) = q ++ [k] ->
  Forall (fun k => has (t_flag k) TCP_FLAG_FIN = false) (send_queue (sock c)) ->
  ende + n - una < 2 ^ 31 ->
  let c' := c <|s send_queue := q ++ [k <| t_data := t_data k ++ bytes |>] |>
              <|p snd_end := u32 (snd_end (pcb c) + n) |>
              <|s send_buffer_len := u32 (send_buffer_len (sock c) + n) |> in
  send_inv una nxt (ende + n) c' /\
  Forall (fun k => has (t_flag k) TCP_FLAG_FIN = false) (send_queue (sock c')).
Proof.
  intros n Hi Hq Hf Hr. destruct Hi as [H1 H2 H3 H4 H5 H6 H7 H8 H9 H10]. rewrite Hq in *.
  apply Forall_app in Hf as [Hf1 Hf2]. apply Forall_cons in Hf2 as [Hf2 _].
  apply Forall_app in H7 as [H7a H7b]. apply Forall_cons in H7b as [H7b _].
  apply chain_snoc in H5 as (m&H5a&H5b&H5c).
  pose proof (chain_qlen _ _ _ H4). pose proof (chain_qlen _ _ _ H5a).
  assert (Hs : seglen k = skb_data_len k) by (unfold seglen; rewrite H7b, Hf2; lia).
  assert (Hk : skb_data_len (k <| t_data := t_data k ++ bytes |>) = skb_data_len k + n)
    by (unfold skb_data_len; rsimpl; rewrite length_app; lia).
  assert (Hs' : seglen (k <| t_data := t_data k ++ bytes |>) = skb_data_len k + n)
    by (unfold seglen; rewrite Hk; rsimpl; rewrite H7b, Hf2; lia).
  pose proof (skb_data_len_nonneg k). pose proof (qlen_nonneg (retransmit_queue (pcb c))).
  pose proof (qlen_nonneg q).
  assert (Hql : qlen (q ++ [k]) = qlen q + skb_data_len k)
    by (rewrite qlen_app, qlen_cons; change (qlen []) with 0; lia).
  cbn zeta. rsimpl. split.
  - split; rsimpl; try done.
    + rewrite H3. apply wrap_add_l.
    + apply chain_snoc. exists m. split_and!; [done|done|]. lia.
    + apply Forall_app. split; [done|]. by apply Forall_singleton.
    + by rewrite removelast_last.
    + rewrite H10, Hql, qlen_app, qlen_cons, Hk. change (qlen []) with 0.
      rewrite wrap_len by lia. lia.
  - apply Forall_app. split; [done|]. by apply Forall_singleton.
Qed.

(** One round of the loop puts [chunk] bytes behind the stream, or gives up. *)
Lemma write_round una nxt ende buf from chunk c k q :
  send_inv una nxt ende c -> send_queue (sock c) = q ++ [k] ->
  Forall (fun k => has (t_flag k) TCP_FLAG_FIN = false) (send_queue (sock c)) ->
  0 <= from -> 0 <= chunk -> from + chunk <= Z.of_nat (length buf) ->
  ende + chunk - una < 2 ^ 31 ->
  appended una nxt ende buf from c chunk
    (c <|s send_queue := removelast (send_queue (sock c))
             ++ [k <| t_data := t_data k ++ take (Z.to_nat chunk) (drop (Z.to_nat from) buf) |>] |>
       <|p snd_end := u32 (snd_end (pcb c) + chunk) |>
       <|s send_buffer_len := u32 (send_buffer_len (sock c) + chunk) |>).
Proof.
  intros Hi Hq Hf Hfr Hc Hl Hr. set (bytes := take _ _).
  assert (Hb : Z.of_nat (length bytes) = chunk).
  { subst bytes. rewrite length_take, length_drop. lia. }
  destruct (append_bytes_ok una nxt ende c q k bytes Hi Hq Hf ltac:(lia)) as [G1 G2].
  rewrite Hb in G1, G2. rewrite Hq, removelast_last. split; try done; rsimpl.
  rewrite Hq, !qbytes_app, <- app_assoc. f_equal. cbn. by rewrite !app_nil_r.
Qed.

Lemma alloc_effect c : exists l, snd (alloc c) = c <|e allocs := l |>.
Proof.
  exists (match allocs (ev c) with [] => [] | _ :: l => l end).
  unfold alloc. destruct (allocs (ev c)) eqn:E; [|done].
  destruct c as [p s []]. cbn in E. by subst.
Qed.

(** Getting room for the round: the last segment, or a new one. *)
Lemma write_room una nxt ende buf from c seg_limit chunk :
  send_inv una nxt ende c -> is_Some (route (sock c)) ->
  Forall (fun k => has (t_flag k) TCP_FLAG_FIN = false) (send_queue (sock c)) ->
  let '(ok, c') :=
    if match last (send_queue (sock c)) with
       | None => true
       | Some skb => seg_limit <? u32 (skb_data_len skb + chunk)
       end
    then let '(ok, c) := alloc (deref (route (sock c)) c) in
         (ok, if ok then c <|s send_queue := send_queue (sock c)
                             ++ [mk_tskb (snd_end (pcb c)) TCP_FLAG_ACK []] |> else c)
    else (true, c) in
  appended una nxt ende buf from c 0 c' /\
  (ok = true -> exists q k, send_queue (sock c') = q ++ [k]).
Proof.
  intros Hi [rt Hrt] Hf.
  assert (Hsame : appended una nxt ende buf from c 0 c) by (by apply appended_nothing).
  match goal with |- context [if ?b then _ else _] => destruct b eqn:Efull end.
  - rewrite Hrt. cbn [deref].
    destruct (alloc_effect c) as [l Ha].
    destruct (alloc c) as [ok c1]. cbn [snd] in Ha. subst.
    destruct ok.
    + split; [|intros _; eauto].
      destruct (push_empty_ok una nxt ende c Hi Hf) as [G1 G2].
      apply appended_nothing; try done; [destruct G1; by split|].
      rsimpl. by rewrite qbytes_app, app_nil_r.
    + split; [|done]. apply appended_nothing; try done. destruct Hi. by split.
  - split; [done|]. intros _. destruct (last (send_queue (sock c))) as [k|] eqn:El; [|done].
    eexists _, k. by apply last_snoc_inv.
Qed.

Lemma write_loop_ok una nxt buf len seg_limit fuel ende c from :
  send_inv una nxt ende c -> is_Some (route (sock c)) ->
  Forall (fun k => has (t_flag k) TCP_FLAG_FIN = false) (send_queue (sock c)) ->
  0 < seg_limit -> 0 <= from <= len -> len <= Z.of_nat (length buf) ->
  ende + (len - from) - una < 2 ^ 31 -> len - from <= Z.of_nat fuel ->
  exists n c', write_loop fuel c buf from len seg_limit = Some (from + n, c') /\
    n <= len - from /\ appended una nxt ende buf from c n c'.
Proof.
  revert ende c from. induction fuel as [|fuel IH]; intros ende c from Hi Hr Hf Hs Hfr Hl Hroom Hfu;
    cbn [write_loop].
  { rewrite (proj2 (Z.leb_le len from)) by lia. exists 0, c. rewrite Z.add_0_r.
    split_and!; [done|lia|by apply appended_nothing]. }
  destruct (Z.leb_spec len from).
  { exists 0, c. rewrite Z.add_0_r. split_and!; [done|lia|by apply appended_nothing]. }
  set (chunk := Z.min _ _). assert (Hc : 0 < chunk <= len - from) by lia.
  pose proof (write_room una nxt ende buf from c seg_limit chunk Hi Hr Hf) as Hro.
  match type of Hro with context [if ?b then ?x else ?y] =>
    destruct (if b then x else y) as [ok c1] end.
  destruct Hro as [Hap Hok]. clearbody chunk.
  destruct ok; cbn [negb].
  2: { exists 0, c1. rewrite Z.add_0_r. split_and!; [done|lia|done]. }
  destruct (Hok eq_refl) as (q&k&Hq). clear Hok.
  destruct (alloc_effect c1) as [l Ha].
  destruct (alloc c1) as [done_ c2]. cbn [snd] in Ha. subst.
  assert (Hap2 : appended una nxt ende buf from c 0 (c1 <|e allocs := l |>) /\
                 send_queue (sock (c1 <|e allocs := l |>)) = q ++ [k]).
  { split; [|done]. destruct Hap as [? [] ? ? ? ? ? ? ?]. by split. }
  revert Hap2. generalize (c1 <|e allocs := l |>). clear Hap Hq c1. intros c2 Hap2. destruct Hap2 as [Hap Hq]. rewrite Hq, last_snoc. destruct done_; cbn [negb].
  2: { exists 0, c2. rewrite Z.add_0_r. split_and!; [done|lia|done]. }
  destruct Hap as [_ Hi2 Hrtx Hby Hnf Hct Hwv Hrt Hcw Hmx]. rewrite Z.add_0_r in Hi2.
  pose proof (write_round una nxt ende buf from chunk c2 k q Hi2 Hq Hnf
                ltac:(lia) ltac:(lia) ltac:(lia) ltac:(lia)) as Hro.
  rewrite Hq in Hro. revert Hro.
  match goal with |- appended _ _ _ _ _ _ _ ?x -> _ => generalize x; intros c3 end. intros Hro.
  destruct (IH (ende + chunk) c3 (from + chunk)) as (n&c'&E&Hn&Hap'); try lia; try apply Hro.
  { rewrite (ap_route _ _ _ _ _ _ _ _ Hro), Hrt. done. }
  exists (chunk + n), c'. rewrite E, Z.add_assoc. split_and!; [done|lia|].
  apply appended_trans with c3; [lia| |done].
  assert (H0 : appended una nxt ende buf from c 0 c2)
    by (split; try done; by rewrite Z.add_0_r).
  rewrite <- (Z.add_0_l chunk). eapply appended_trans; [lia|exact H0|]. by rewrite !Z.add_0_r.
Qed.

(** Sending what was appended, or arming the timer that will. *)
Lemma write_push_ok una nxt ende c seg_limit :
  send_inv una nxt ende c -> is_Some (route (sock c)) -> send_queue (sock c) <> [] ->
  0 <= snd_cwnd (pcb c) -> 0 <= snd_wnd (pcb c) < 2 ^ 31 ->
  sends una nxt ende (una + snd_wnd (pcb c)) c (write_push c seg_limit).
Proof.
  intros Hi Hr Hq Hc Hw. unfold write_push. destruct (send_queue (sock c)) as [|k q] eqn:E; [done|].
  case_if.
  - unfold tcp_write_xmit.
    pose proof (write_xmit_loop_ok una ende _ (Z.to_nat TCP_OUTPUT_BURST_MAX) nxt c false 0
                  Hi Hr Hc eq_refl Hw) as H.
    by destruct (tcp_write_xmit_loop _ _ _ _).
  - apply sends_nothing; [done|apply view_update_timer|apply wview_update_timer].
Qed.

(** The outcome of a write of [len] bytes of [buf] at the end of the stream: an
    error that leaves the stream alone, or [ret] bytes accepted. *)
Definition write_outcome (una nxt ende : Z) (c : conn) (buf : list Z) (ret : Z) (c' : conn) : Prop :=
  fault (ev c') = fault (ev c) /\
  (((ret = - EHOSTUNREACH \/ ret = - ENOMEM) /\
    send_inv una nxt ende c' /\ pending_bytes c' = pending_bytes c /\ wire (ev c') = wire (ev c)) \/
   (0 < ret <= Z.min (Z.of_nat (length buf)) (send_buffer_len_max (sock c) - send_buffer_len (sock c)) /\
    exists sent packets, 0 <= sent /\ send_inv una (nxt + sent) (ende + ret) c' /\
      pending_bytes c' = pending_bytes c ++ take (Z.to_nat ret) buf /\
      wire (ev c') = packets ++ wire (ev c) /\
      Forall (in_stream nxt (una + snd_wnd (pcb c)) (ende + ret)
                (qbytes (send_queue (sock c)) ++ take (Z.to_nat ret) buf)) packets)).

Lemma qbytes_nil_cons q : qbytes q <> [] -> q <> [].
Proof. by intros H ->. Qed.

(** After the route is chosen. *)
Lemma write_bytes_ok una nxt ende c buf len seg_limit :
  send_inv una nxt ende c -> is_Some (route (sock c)) ->
  Forall (fun k => has (t_flag k) TCP_FLAG_FIN = false) (send_queue (sock c)) ->
  0 <= snd_cwnd (pcb c) -> 0 <= snd_wnd (pcb c) < 2 ^ 31 -> 0 < seg_limit ->
  0 < len <= Z.min (Z.of_nat (length buf)) (send_buffer_len_max (sock c) - send_buffer_len (sock c)) ->
  ende + len - una < 2 ^ 31 ->
  exists ret c',
    match write_loop (Z.to_nat len) c buf 0 len seg_limit with
    | None => None
    | Some (send_len, c) =>
        if send_len =? 0 then Some (- ENOMEM, c) else Some (send_len, write_push c seg_limit)
    end = Some (ret, c') /\ write_outcome una nxt ende c buf ret c'.
Proof.
  intros Hi Hr Hf Hcw Hw Hs Hl Hroom.
  destruct (write_loop_ok una nxt buf len seg_limit (Z.to_nat len) ende c 0)
    as (n&c1&->&Hn&Hap); try done; try lia.
  destruct Hap as [Hn0 Hi1 Hrtx Hby Hnf Hct Hwv Hrt Hcw1 Hmx].
  rewrite Z.add_0_l. change (drop (Z.to_nat 0) buf) with buf in Hby.
  injection Hwv as Hw1 Hfa1 Hwi1.
  destruct (Z.eqb_spec n 0) as [->|Hnz].
  - eexists _, _. split; [done|]. split; [done|]. left. rewrite Z.add_0_r in Hi1.
    split_and!; try done; [by right|]. unfold pending_bytes. by rewrite Hrtx, Hby, take_0, app_nil_r.
  - eexists _, _. split; [done|].
    assert (Hne : send_queue (sock c1) <> []).
    { apply qbytes_nil_cons. rewrite Hby. intros [_ E]%app_eq_nil.
      apply (f_equal length) in E. rewrite length_take in E. cbn in E. lia. }
    destruct (write_push_ok una nxt (ende + n) c1 seg_limit Hi1)
      as (sent&ks&S1&_&S3&S4&S5&S6&_); try done; try lia.
    { by rewrite Hrt. }
    unfold wview in S5. injection S5 as _ S5a S5b. split; [by rewrite S5a|]. right.
    split; [lia|]. exists sent, ks. rewrite Hw1, Hby in S6. split_and!; try done.
    + rewrite S4. unfold pending_bytes. by rewrite Hrtx, Hby, app_assoc.
    + by rewrite S5b, Hwi1.
Qed.

Lemma write_body_ok una nxt ende c buf :
  send_inv una nxt ende c ->
  Forall (fun k => has (t_flag k) TCP_FLAG_FIN = false) (send_queue (sock c)) ->
  0 <= snd_cwnd (pcb c) -> 0 <= snd_wnd (pcb c) < 2 ^ 31 ->
  0 < tcp_data_mss (pcb (snd (set_tcp_socket_route c))) ->
  buf <> [] -> 0 <= send_buffer_len (sock c) < send_buffer_len_max (sock c) ->
  ende - una + send_buffer_len_max (sock c) < 2 ^ 31 ->
  exists ret c', write_body c buf (Z.of_nat (length buf)) = Some (ret, c') /\
    write_outcome una nxt ende c buf ret c'.
Proof.
  intros Hi Hf Hcw Hw Hs Hb Hsp Hroom. unfold write_body.
  pose proof (view_set_tcp_socket_route c) as V. pose proof (wview_set_tcp_socket_route c) as W.
  pose proof (set_tcp_socket_route_some c) as R. pose proof (cwnd_ok_set_route c Hcw) as Hcw'.
  pose proof (send_inv_order _ _ _ _ Hi).
  destruct (set_tcp_socket_route c) as [r c1]. cbn [fst snd] in *.
  assert (Hi1 : send_inv una nxt ende c1) by (by eapply send_inv_view).
  injection W as Wa Wb Wc.
  destruct (Z.ltb_spec r 0).
  { eexists _, _. split; [done|]. split; [done|]. left.
    split_and!; [by left|done|by apply pending_view|done]. }
  assert (Vq : send_queue (sock c1) = send_queue (sock c)) by exact (f_equal v_snd V).
  assert (Vl : send_buffer_len (sock c1) = send_buffer_len (sock c)) by exact (f_equal v_sblen V).
  assert (Vm : send_buffer_len_max (sock c1) = send_buffer_len_max (sock c))
    by exact (f_equal v_smax V).
  assert (Hn : 0 < Z.of_nat (length buf)) by (destruct buf; [done|cbn; lia]).
  rewrite wrap_len by lia. set (len := if _ <? _ then _ else _).
  assert (Hlen : 0 < len <= Z.min (Z.of_nat (length buf))
                    (send_buffer_len_max (sock c1) - send_buffer_len (sock c1)))
    by (subst len; case_if; bool_prop; lia).
  clearbody len.
  destruct (write_bytes_ok una nxt ende c1 buf len (tcp_data_mss (pcb c1)))
    as (ret&c'&E&Hf'&Ho); try done; try lia.
  { by apply R. }
  { by rewrite Vq. }
  exists ret, c'. split; [exact E|]. split; [by rewrite Hf', Wb|].
  rewrite Wa, Wc, (pending_view _ _ V), Vq, Vl, Vm in Ho. done.
Qed.

(** *** Lemmas on reading *)

Lemma read_loop_ok q room :
  0 <= room ->
  let '(bytes, rest) := read_loop q room in
  bytes = take (Z.to_nat room) (qbytes q) /\ qbytes rest = drop (Z.to_nat room) (qbytes q).
Proof.
  revert room. induction q as [|k q IH]; intros room Hr; cbn [read_loop].
  { change (qbytes []) with (@nil Z). by rewrite take_nil, drop_nil. }
  destruct (Z.leb_spec room 0).
  { replace (Z.to_nat room) with 0%nat by lia. by rewrite take_0, drop_0. }
  rewrite qbytes_cons. destruct (Z.eqb_spec (skb_data_len k) 0) as [E|E].
  { assert (t_data k = []) as -> by (apply length_zero_iff_nil; unfold skb_data_len in E; lia).
    by apply IH. }
  pose proof (skb_data_len_nonneg k). unfold skb_data_len in *.
  destruct (Z.leb_spec (Z.of_nat (length (t_data k))) room).
  - rewrite Z.ltb_irrefl. specialize (IH (room - Z.of_nat (length (t_data k))) ltac:(lia)).
    destruct (read_loop q _) as [more rest]. destruct IH as [-> ->].
    rewrite Nat2Z.id, firstn_all, take_app_ge, drop_app_ge by lia.
    replace (Z.to_nat (room - Z.of_nat (length (t_data k))))
      with (Z.to_nat room - length (t_data k))%nat by lia. done.
  - destruct (Z.ltb_spec room (Z.of_nat (length (t_data k)))); [|lia].
    rewrite take_app_le, drop_app_le by lia. split; [done|].
    rewrite qbytes_cons. unfold consume, skb_data_len. rsimpl. by rewrite Z.min_l by lia.
Qed.

Lemma ooo_widen str lo hi hi' l : hi <= hi' -> ooo str lo hi l -> ooo str lo hi' l.
Proof.
  intros H. revert lo. induction l as [|k l IH]; intros lo; cbn [ooo]; [done|].
  intros (p&?&?&?&?&?). exists p. split_and!; [lia..|done|by apply IH].
Qed.

(** The receive window after [n] bytes were taken from the queue. *)
Lemma open_window_ok str r c q n :
  recv_inv str r c -> 0 <= n -> qlen q + n = qlen (recv_queue (sock c)) ->
  let c' := open_window (c <|s recv_queue := q |>
                           <|s recv_buffer_len := u32 (recv_buffer_len (sock c) - n) |>) in
  recv_inv str r c' /\ recv_queue (sock c') = q /\ rcv_wnd (pcb c') = rcv_wnd (pcb c) + n /\
  (0 < n -> 0 < now (ev c) -> 0 <= get_deadline (pcb c) ack_deadline ->
   0 < get_deadline (pcb c') ack_deadline <= now (ev c)).
Proof.
  intros [H1 H2 H3 H4 H5 H6] Hn Hq. cbn zeta. unfold open_window.
  pose proof (qlen_nonneg q). rewrite H3. rewrite wrap_len by lia.
  set (c1 := c <|s recv_queue := q |> <|s recv_buffer_len := _ |>).
  assert (Hw : Z.min (useable_recv_buff_size (sock c1)) (recv_buffer_len_max (sock c1)) =
               rcv_wnd (pcb c) + n).
  { unfold useable_recv_buff_size. subst c1. rsimpl. destruct (Z.ltb_spec
      (qlen (recv_queue (sock c)) - n) (recv_buffer_len_max (sock c))); lia. }
  rewrite Hw. set (c2 := c1 <|p rcv_wnd := _ |>).
  assert (Hi2 : recv_inv str r c2).
  { split; subst c2 c1; rsimpl; try done; try lia. eapply ooo_widen; [|done]. lia. }
  change (rcv_wnd (pcb c2)) with (rcv_wnd (pcb c) + n).
  change (rcv_wnd (pcb c1)) with (rcv_wnd (pcb c)).
  destruct (Z.ltb_spec (rcv_wnd (pcb c)) (rcv_wnd (pcb c) + n)).
  2: { assert (n = 0) as -> by lia. by split_and!. }
  unfold timer_now. split_and!.
  - pose proof (view_update_timer c2 ack_deadline (get_current_time_ms c2) false) as V.
    assert (W : rcv_wnd (pcb (update_timer c2 ack_deadline (get_current_time_ms c2) false)) =
                rcv_wnd (pcb c2)) by (untimed_field (untimed_update_timer c2 ack_deadline
                  (get_current_time_ms c2) false) (fun c => rcv_wnd (pcb c))).
    destruct Hi2 as [G1 G2 G3 G4 G5 G6].
    pose proof (f_equal v_rnxt V) as V1. pose proof (f_equal v_unord V) as V2.
    pose proof (f_equal v_rcvq V) as V3. pose proof (f_equal v_rblen V) as V4.
    pose proof (f_equal v_rmax V) as V5. cbn [v_rnxt v_unord v_rcvq v_rblen v_rmax view] in *.
    split; rewrite ?W, ?V1, ?V2, ?V3, ?V4, ?V5; done.
  - exact (f_equal v_rcvq (view_update_timer c2 ack_deadline (get_current_time_ms c2) false)).
  - untimed_field (untimed_update_timer c2 ack_deadline (get_current_time_ms c2) false)
      (fun c => rcv_wnd (pcb c)).
  - intros _ Hnow Hdl. unfold update_timer. rsimpl. rewrite tcp_update_timer_deadlines.
    rewrite decide_True by done. unfold updated_deadline.
    change (get_deadline (pcb c2) ack_deadline) with (get_deadline (pcb c) ack_deadline).
    change (get_current_time_ms c2) with (now (ev c)). unfold TCP_TIMER_STOP.
    destruct (Z.eqb_spec (get_deadline (pcb c) ack_deadline) 0); cbn [orb]; [lia|].
    destruct (Z.ltb_spec (now (ev c)) (get_deadline (pcb c) ack_deadline)); cbn [orb]; lia.
Qed.

(** *** Lemmas on polling *)

(** Whether the state reports data or a connection to accept. *)
Definition poll_readable (c : conn) : bool :=
  match state (pcb c) with
  | TCP_STATE_LISTEN => 0 <? accept_list_num (pcb c)
  | TCP_STATE_SYN_SENT | TCP_STATE_SYN_RECEIVED => false
  | _ => 0 <? recv_buffer_len (sock c)
  end.

Lemma poll_in c :
  has (tcp_poll c) EPOLLIN = poll_readable c || close_recv (sock c) || recv_fin (pcb c).
Proof.
  unfold tcp_poll, poll_state, poll_readable.
  generalize (negb (error (sock c) =? 0)) (0 <? recv_buffer_len (sock c))
    (0 <? accept_list_num (pcb c)) (negb (close_send (sock c)) && (0 <? useable_send_buff_size (sock c)))
    (close_send (sock c) && (close_recv (sock c) || recv_fin (pcb c))).
  generalize (close_recv (sock c)) (recv_fin (pcb c)).
  destruct (state (pcb c)); intros [] [] [] [] [] [] []; reflexivity.
Qed.

Lemma poll_out c :
  has (tcp_poll c) EPOLLOUT =
  (st_eqb (state (pcb c)) TCP_STATE_ESTABLISHED || st_eqb (state (pcb c)) TCP_STATE_CLOSE_WAIT)
  && negb (close_send (sock c)) && (0 <? useable_send_buff_size (sock c)).
Proof.
  unfold tcp_poll, poll_state.
  generalize (negb (error (sock c) =? 0)) (0 <? recv_buffer_len (sock c))
    (0 <? accept_list_num (pcb c)) (0 <? useable_send_buff_size (sock c)).
  generalize (close_recv (sock c)) (recv_fin (pcb c)) (close_send (sock c)).
  destruct (state (pcb c)); intros [] [] [] [] [] [] []; reflexivity.
Qed.

Lemma queue_nonempty c :
  recv_buffer_len (sock c) = qlen (recv_queue (sock c)) ->
  Forall (fun k => 0 < skb_data_len k) (recv_queue (sock c)) ->
  (0 <? recv_buffer_len (sock c)) = nonempty (recv_queue (sock c)).
Proof.
  intros -> H. destruct (recv_queue (sock c)) as [|k q]; [done|]. apply Forall_cons in H as [H _].
  rewrite qlen_cons. pose proof (qlen_nonneg q). apply Z.ltb_lt. lia.
Qed.

(** When a read waits or answers EAGAIN. *)
Lemma read_blocks c r len :
  fst (fst (tcp_read c r len)) = REQ_PENDING -> 0 <= error (sock c) < 2 ^ 31 ->
  close_recv (sock c) = false /\ nonempty (recv_queue (sock c)) = false /\ recv_fin (pcb c) = false.
Proof.
  unfold tcp_read. intros H He. destruct (Z.eqb_spec (error (sock c)) 0); cbn [negb] in H.
  2: { cbn [fst] in H. unfold REQ_PENDING in H. lia. }
  destruct (close_recv (sock c)); [by vm_compute in H|].
  destruct (nonempty (recv_queue (sock c))); cbn [negb andb] in H.
  - case_if; [by vm_compute in H|]. destruct (read_loop _ _) as [bytes rest]. cbn [fst] in H.
    unfold REQ_PENDING in H. lia.
  - destruct (recv_fin (pcb c)); [by vm_compute in H|]. done.
Qed.

Lemma read_ready c r len :
  0 <= fst (fst (tcp_read c r len)) -> error (sock c) = 0 ->
  close_recv (sock c) = true \/ nonempty (recv_queue (sock c)) = true \/ recv_fin (pcb c) = true.
Proof.
  unfold tcp_read. intros H He. rewrite He in H. cbn [negb Z.eqb] in H.
  destruct (close_recv (sock c)); [by left|]. destruct (nonempty (recv_queue (sock c))); [by right; left|].
  destruct (recv_fin (pcb c)); [by right; right|]. cbn [negb andb] in H.
  repeat (case_if; [vm_compute in H; done|]). vm_compute in H. done.
Qed.

(** *** Properties *)

(** writing.  On a connection that may send and has buffer space, [tcp_write]
    always returns; it accepts a non-empty prefix of the caller's bytes that fits
    the send buffer, puts it behind the stream and sends what the window allows,
    every packet carrying the stream's bytes at its sequence number; or it
    reports an unreachable peer or lack of memory and leaves the stream as it
    was.  No null pointer is read. *)
Theorem tcp_write_appends (una nxt ende : Z) (c : conn) (r : req) (buf : list Z) :
  send_inv una nxt ende c ->
  Forall (fun k => has (t_flag k) TCP_FLAG_FIN = false) (send_queue (sock c)) ->
  0 <= snd_cwnd (pcb c) -> 0 <= snd_wnd (pcb c) < 2 ^ 31 ->
  0 < tcp_data_mss (pcb (snd (set_tcp_socket_route c))) ->
  buf <> [] -> 0 <= send_buffer_len (sock c) < send_buffer_len_max (sock c) ->
  ende - una + send_buffer_len_max (sock c) < 2 ^ 31 ->
  error (sock c) = 0 -> close_send (sock c) = false ->
  is_connected (sock c) = true -> is_bound (sock c) = true -> write_state (state (pcb c)) = 0 ->
  exists ret c', tcp_write c r (Some buf) (Z.of_nat (length buf)) = Some (ret, c') /\
    write_outcome una nxt ende c buf ret c'.
Proof.
  intros Hi Hf Hcw Hw Hs Hb Hsp Hroom He Hcl Hco Hbo Hst. unfold tcp_write.
  rewrite He, Hcl, Hco, Hbo, Hst. cbn [negb orb Z.eqb].
  rewrite (proj2 (Z.eqb_neq _ 0)) by (destruct buf; [done|cbn; lia]).
  rewrite (proj2 (Z.leb_gt _ _)) by lia. by apply write_body_ok.
Qed.

(** An established connection with an empty 64-byte send buffer, a window of 100
    bytes, and a route. *)
Definition writer : conn :=
  mk_conn
    (pcb_zero <| state := TCP_STATE_ESTABLISHED |> <| snd_una := 1000 |> <| snd_nxt := 1000 |>
       <| snd_end := 1000 |> <| snd_wnd := 100 |> <| snd_cwnd := 5000 |> <| peer_mss := 536 |>
       <| snd_mss := 536 |>)
    (socket_zero <| family := AF_INET |> <| is_connected := true |> <| is_bound := true |>
       <| send_buffer_len_max := 64 |> <| owner := true |>
       <| route := Some (mk_route 1 1500 14 true) |>)
    env_zero.

Lemma tcp_write_appends_witness :
  exists ret c', tcp_write writer (mk_req 1 0 0 None) (Some [7; 8; 9]) 3 = Some (ret, c') /\
    write_outcome 1000 1000 1000 writer [7; 8; 9] ret c'.
Proof.
  apply (tcp_write_appends 1000 1000 1000 writer (mk_req 1 0 0 None) [7; 8; 9]);
    try (vm_compute; repeat split; congruence).
  - constructor; try (vm_compute; done); apply Forall_nil_2.
  - apply Forall_nil_2.
Defined.

(** reading.  When the receive queue holds the peer's stream from position
    [a] up to [rcv_nxt], a read of [want] bytes returns exactly the next bytes of
    the stream, as many as are there and asked for; the queue then holds the
    stream from there on, the window grows by the number of bytes read, and an
    ACK that advertises it is due. *)
Theorem tcp_read_delivers (str : Z -> Z) (a r : Z) (c : conn) (rq : req) (want : Z) :
  recv_inv str r c -> qbytes (recv_queue (sock c)) = slice str a (r - a) -> a <= r ->
  recv_queue (sock c) <> [] -> error (sock c) = 0 -> close_recv (sock c) = false ->
  read_refused c = false -> 0 <= want ->
  let '(ret, bytes, c') := tcp_read c rq want in
  ret = Z.min want (r - a) /\ bytes = slice str a ret /\
  recv_inv str r c' /\ qbytes (recv_queue (sock c')) = slice str (a + ret) (r - a - ret) /\
  rcv_wnd (pcb c') = rcv_wnd (pcb c) + ret /\
  (0 < ret -> 0 < now (ev c) -> 0 <= get_deadline (pcb c) ack_deadline ->
   0 < get_deadline (pcb c') ack_deadline <= now (ev c)).
Proof.
  intros Hi Hq Ha Hne He Hcl Href Hw. unfold tcp_read. rewrite He, Hcl, Href. cbn [negb Z.eqb].
  destruct (recv_queue (sock c)) as [|k q] eqn:Eq; [done|]. rewrite <- Eq in *.
  replace (nonempty (recv_queue (sock c))) with true by (by rewrite Eq). cbn [negb andb].
  pose proof (read_loop_ok (recv_queue (sock c)) want Hw) as Hl.
  destruct (read_loop _ want) as [bytes rest]. destruct Hl as [-> Hrest].
  pose proof (length_slice str a (r - a) ltac:(lia)) as Hlen. rewrite Hq in *.
  assert (Hn : Z.of_nat (length (take (Z.to_nat want) (slice str a (r - a)))) = Z.min want (r - a))
    by (rewrite length_take; lia).
  rewrite Hn. set (n := Z.min want (r - a)) in *.
  assert (Hby : take (Z.to_nat want) (slice str a (r - a)) = slice str a n).
  { destruct (Z.le_ge_cases want (r - a)).
    - rewrite take_slice by lia. f_equal. lia.
    - rewrite take_ge by lia. f_equal. lia. }
  assert (Hrs : qbytes rest = slice str (a + n) (r - a - n)).
  { rewrite Hrest. destruct (Z.le_ge_cases want (r - a)).
    - rewrite drop_slice by lia. f_equal; lia.
    - rewrite drop_ge by lia. replace (r - a - n) with 0 by lia. done. }
  assert (Hql : qlen rest + n = qlen (recv_queue (sock c))).
  { unfold qlen. rewrite Hrs, Hq, !length_slice by lia. lia. }
  destruct (open_window_ok str r c rest n Hi ltac:(lia) Hql) as (G1&G2&G3&G4).
  split_and!; try done. by rewrite G2.
Qed.

(** The receiver of TcpRecv.v after bytes 100..129 have arrived. *)
Definition reader : conn :=
  (snd (tcp_recv_data receiver (segment 100 30))) <|p state := TCP_STATE_ESTABLISHED |>
    <|e now := 5000 |>.

Lemma tcp_read_delivers_witness :
  let '(ret, bytes, c') := tcp_read reader (mk_req 1 0 0 None) 12 in
  ret = 12 /\ bytes = slice (fun i => i) 100 12 /\
  qbytes (recv_queue (sock c')) = slice (fun i => i) 112 18.
Proof.
  pose proof (tcp_read_delivers (fun i => i) 100 130 reader (mk_req 1 0 0 None) 12) as H.
  destruct (tcp_read reader (mk_req 1 0 0 None) 12) as [[ret bytes] c'].
  destruct H as (H1&H2&_&H3&_); try (vm_compute; congruence).
  - constructor; vm_compute; done.
  - vm_compute in H1. subst ret. done.
Defined.

(** readiness reported by [tcp_poll] is truthful.  On a connection, EPOLLIN
    means a read does not wait: it returns bytes, end of stream or an error;
    EPOLLOUT means a write goes ahead without waiting for buffer space.
    Conversely, after the handshake, a read that would return bytes or end of
    stream is reported. *)
Theorem poll_agrees_with_io (c : conn) (r : req) (len : Z) (buf : list Z) :
  recv_buffer_len (sock c) = qlen (recv_queue (sock c)) ->
  Forall (fun k => 0 < skb_data_len k) (recv_queue (sock c)) ->
  state (pcb c) <> TCP_STATE_LISTEN -> 0 <= error (sock c) < 2 ^ 31 ->
  (has (tcp_poll c) EPOLLIN = true -> fst (fst (tcp_read c r len)) <> REQ_PENDING) /\
  (has (tcp_poll c) EPOLLOUT = true -> error (sock c) = 0 -> len <> 0 ->
     is_connected (sock c) = true -> is_bound (sock c) = true ->
     tcp_write c r (Some buf) len = write_body c buf len) /\
  (state (pcb c) <> TCP_STATE_SYN_SENT -> state (pcb c) <> TCP_STATE_SYN_RECEIVED ->
   error (sock c) = 0 -> 0 <= fst (fst (tcp_read c r len)) -> has (tcp_poll c) EPOLLIN = true).
Proof.
  intros Hl Hf Hst He. pose proof (queue_nonempty c Hl Hf) as Hn. split_and!.
  - rewrite poll_in. unfold poll_readable. rewrite Hn. intros Hp Hr.
    apply read_blocks in Hr as (E1&E2&E3); [|done]. rewrite E1, E2, E3 in Hp.
    by destruct (state (pcb c)).
  - rewrite poll_out. intros Hp E0 Hlen Hc Hb. apply andb_true_iff in Hp as [Hp Hu].
    apply andb_true_iff in Hp as [Hp Hcs]. apply negb_true_iff in Hcs.
    unfold tcp_write. rewrite E0, Hcs, Hc, Hb, (proj2 (Z.eqb_neq len 0)) by done. cbn [negb orb Z.eqb].
    assert (Hw : write_state (state (pcb c)) = 0) by (by destruct (state (pcb c))).
    rewrite Hw. cbn [negb Z.eqb]. unfold useable_send_buff_size in Hu.
    destruct (Z.ltb_spec (send_buffer_len (sock c)) (send_buffer_len_max (sock c))); [|done].
    by rewrite (proj2 (Z.leb_gt _ _)) by lia.
  - intros N1 N2 E0 Hr. rewrite poll_in. unfold poll_readable. rewrite Hn.
    destruct (read_ready c r len Hr E0) as [->|[->| ->]];
      destruct (state (pcb c)); rewrite ?orb_true_r; done.
Qed.

Lemma poll_agrees_with_io_witness :
  has (tcp_poll reader) EPOLLIN = true /\
  fst (fst (tcp_read reader (mk_req 1 0 0 None) 5)) <> REQ_PENDING.
Proof.
  assert (E : has (tcp_poll reader) EPOLLIN = true) by (vm_compute; reflexivity).
  split; [exact E|].
  apply (poll_agrees_with_io reader (mk_req 1 0 0 None) 5 []).
  - vm_compute. reflexivity.
  - apply Forall_cons. split; [vm_compute; reflexivity|apply Forall_nil_2].
  - vm_compute. congruence.
  - vm_compute. split; congruence.
  - exact E.
Defined.
