(* ===== verification/HashTable.v ===== *)
(** The intrusive hash table (src/lib/hash.c, src/lib/hash.h): buckets of nodes
    that carry their hash value, a power-of-two number of buckets, keys compared
    by value after the hash matches.

    [KeyTable] states what clients rely on, a partial map from keys to objects;
    the table implements it for any hash function. *)

From stdpp Require Import prelude list gmap.
From Stdlib Require Import ZArith Lia.
From S2P Require Import Prelude.

(** *** Definitions *)

Definition MIN_HASH_SIZE : Z := 256.
Definition UINT32_MAX : Z := 2 ^ 32 - 1.

(** [hash_node]: the object it is embedded in, its key bytes, its hash. *)
Record hash_node := mk_node { n_obj : Z; n_key : list Z; n_hash : Z }.

#[export] Instance hash_node_eq_dec : EqDecision hash_node.
Proof. solve_decision. Defined.

(** [hash]: a missing bucket is empty. *)
Record hash := mk_hash {
  h_buckets : gmap Z (list hash_node); h_size : Z; h_mask : Z; h_key_len : Z
}.

(** [round_hash_size]; [None]: out of fuel. *)
Fixpoint round_loop (fuel : nat) (size requested : Z) : option Z :=
  match fuel with
  | O => None
  | S f => if (size <? requested) && (size <=? UINT32_MAX / 2)
           then round_loop f (u32 (Z.shiftl size 1)) requested else Some size
  end.

Definition round_hash_size (requested : Z) : option Z :=
  match round_loop 32 MIN_HASH_SIZE requested with
  | None => None
  | Some size => Some (if requested <=? size then size else 0)
  end.

(** [hash_create]: [inr tt] is a null result. *)
Definition hash_create (requested key_len : Z) (mem : bool) : option (hash + unit) :=
  match round_hash_size requested with
  | None => None
  | Some size =>
      Some (if (size =? 0) || negb mem then inr tt
            else inl (mk_hash ∅ size (size - 1) key_len))
  end.

(** [general_hash_algorithm]: FNV-1a. *)
Definition general_hash_algorithm (data : list Z) : Z :=
  foldl (fun v b => u32 (Z.lxor v b * 16777619)) 2166136261 data.

Definition hash_bucket_index (h : hash) (value : Z) : Z := Z.land value (h_mask h).

Definition bucket (h : hash) (index : Z) : list hash_node := default [] (h_buckets h !! index).

Definition set_bucket (h : hash) (index : Z) (l : list hash_node) : hash :=
  mk_hash (<[index := l]> (h_buckets h)) (h_size h) (h_mask h) (h_key_len h).

(** [hash_find_node_locked]. *)
Fixpoint find_node (l : list hash_node) (key : list Z) (value : Z) : option hash_node :=
  match l with
  | [] => None
  | n :: l' => if (n_hash n =? value) && bool_decide (n_key n = key) then Some n
               else find_node l' key value
  end.

Definition hash_find_node_locked (h : hash) (index : Z) (key : list Z) (value : Z)
    : option hash_node := find_node (bucket h index) key value.

(** [hash_link_node_locked]: push at the front. *)
Definition hash_link_node_locked (h : hash) (index : Z) (obj : Z) (key : list Z) (value : Z)
    : hash := set_bucket h index (mk_node obj key value :: bucket h index).

(** [hash_unlink_node_locked]: take the node out of its bucket. *)
Definition hash_unlink_node_locked (h : hash) (index : Z) (n : hash_node) : hash :=
  set_bucket h index (filter (fun m => m <> n) (bucket h index)).

Definition hash_find_node (h : hash) (key : list Z) : option hash_node :=
  let value := general_hash_algorithm key in
  hash_find_node_locked h (hash_bucket_index h value) key value.

Definition hash_add_node (h : hash) (obj : Z) (key : list Z) : bool * hash :=
  let value := general_hash_algorithm key in
  let index := hash_bucket_index h value in
  match hash_find_node_locked h index key value with
  | Some _ => (false, h)
  | None => (true, hash_link_node_locked h index obj key value)
  end.

Definition hash_del_node (h : hash) (n : hash_node) : hash :=
  hash_unlink_node_locked h (hash_bucket_index h (n_hash n)) n.

Definition hash_del_key (h : hash) (key : list Z) : option hash_node * hash :=
  let value := general_hash_algorithm key in
  let index := hash_bucket_index h value in
  match hash_find_node_locked h index key value with
  | Some n => (Some n, hash_unlink_node_locked h index n)
  | None => (None, h)
  end.

(** [hash_is_empty]: the loop over all buckets. *)
Fixpoint empty_loop (n : nat) (h : hash) (i : Z) : bool :=
  match n with
  | O => true
  | S n' => match bucket h i with [] => empty_loop n' h (i + 1) | _ => false end
  end.

Definition hash_is_empty (h : hash) : bool := empty_loop (Z.to_nat (h_size h)) h 0.

(** *** The interface *)

(** A partial map from keys to objects, with its observation [kt_find]. *)
Class KeyTable (T : Type) := {
  kt_ok : T -> Prop;
  kt_find : T -> list Z -> option Z;
  kt_add : T -> list Z -> Z -> T;
  kt_del : T -> list Z -> T;
  kt_add_ok t k o : kt_ok t -> kt_find t k = None -> kt_ok (kt_add t k o);
  kt_del_ok t k : kt_ok t -> kt_ok (kt_del t k);
  kt_find_add t k o k' : kt_ok t -> kt_find t k = None ->
    kt_find (kt_add t k o) k' = if bool_decide (k = k') then Some o else kt_find t k';
  kt_find_del t k k' : kt_ok t ->
    kt_find (kt_del t k) k' = if bool_decide (k = k') then None else kt_find t k'
}.

(** *** The table implements the interface *)

Section table.
Context (alg : list Z -> Z).

(** Nodes sit in the bucket of their hash, and a bucket has no key twice. *)
Record hash_ok (h : hash) : Prop := {
  ho_node i n : n ∈ bucket h i -> n_hash n = alg (n_key n) /\ hash_bucket_index h (n_hash n) = i;
  ho_nodup i : NoDup (n_key <$> bucket h i)
}.

Definition table_find (h : hash) (key : list Z) : option Z :=
  n_obj <$> hash_find_node_locked h (hash_bucket_index h (alg key)) key (alg key).

Definition table_add (h : hash) (key : list Z) (obj : Z) : hash :=
  hash_link_node_locked h (hash_bucket_index h (alg key)) obj key (alg key).

Definition table_del (h : hash) (key : list Z) : hash :=
  let index := hash_bucket_index h (alg key) in
  match hash_find_node_locked h index key (alg key) with
  | Some n => hash_unlink_node_locked h index n
  | None => h
  end.

Lemma find_node_some l key value n :
  find_node l key value = Some n -> n ∈ l /\ n_key n = key /\ n_hash n = value.
Proof.
  induction l as [|m l IH]; cbn [find_node]; [done|].
  destruct (_ && _) eqn:E; bool_prop.
  - intros [= ->]. split_and!; [left|by eapply bool_decide_eq_true|done].
  - intros H. destruct (IH H) as (?&?&?). split_and!; [by right|done|done].
Qed.

Lemma find_node_none l key value :
  find_node l key value = None ->
  forall n, n ∈ l -> n_key n = key -> n_hash n <> value.
Proof.
  induction l as [|m l IH]; cbn [find_node]; [by intros _ n ?%not_elem_of_nil|].
  destruct (_ && _) eqn:E; [done|]. intros H n [->|Hn]%elem_of_cons Hk Hv; [|by eapply IH].
  rewrite Hv, Z.eqb_refl, bool_decide_eq_true_2 in E by done. done.
Qed.

Lemma bucket_set h i l j : bucket (set_bucket h i l) j = if i =? j then l else bucket h j.
Proof.
  unfold bucket, set_bucket. cbn [h_buckets]. destruct (Z.eqb_spec i j) as [->|].
  - by rewrite lookup_insert_eq.
  - by rewrite lookup_insert_ne.
Qed.

Lemma index_set h i l v : hash_bucket_index (set_bucket h i l) v = hash_bucket_index h v.
Proof. done. Qed.

(** The node of a key, wherever it is. *)
Lemma find_spec h key n :
  hash_ok h ->
  hash_find_node_locked h (hash_bucket_index h (alg key)) key (alg key) = Some n <->
  n ∈ bucket h (hash_bucket_index h (alg key)) /\ n_key n = key.
Proof.
  intros [Hn Hd]. unfold hash_find_node_locked. split.
  - intros H%find_node_some. tauto.
  - intros [Hin Hk]. destruct (find_node _ _ _) as [m|] eqn:E.
    + apply find_node_some in E as (Hm&Hkm&_). f_equal.
      specialize (Hd (hash_bucket_index h (alg key))).
      apply list_elem_of_lookup in Hin as [i Hi]. apply list_elem_of_lookup in Hm as [j Hj].
      assert (i = j) as ->; [|congruence].
      apply (NoDup_lookup _ _ _ key Hd); rewrite list_lookup_fmap.
      * rewrite Hi. cbn. by rewrite Hk.
      * rewrite Hj. cbn. by rewrite Hkm.
    + exfalso. eapply find_node_none in E; [|done|done]. apply E.
      destruct (Hn _ _ Hin) as [-> _]. by rewrite Hk.
Qed.

Lemma find_none_spec h key :
  hash_ok h ->
  hash_find_node_locked h (hash_bucket_index h (alg key)) key (alg key) = None <->
  forall n, n ∈ bucket h (hash_bucket_index h (alg key)) -> n_key n <> key.
Proof.
  intros Hok. split.
  - intros E n Hn Hk. rewrite (proj2 (find_spec h key n Hok)) in E by done. done.
  - intros H. destruct (hash_find_node_locked _ _ _ _) as [n|] eqn:E; [|done].
    apply find_spec in E as [? ?]; [|done]. exfalso. by eapply H.
Qed.

Lemma nodup_fmap_filter (P : hash_node -> Prop) `{!forall n, Decision (P n)} l :
  NoDup (n_key <$> l) -> NoDup (n_key <$> filter P l).
Proof.
  induction l as [|n l IH]; [done|]. rewrite fmap_cons. intros [Hn Hl]%NoDup_cons.
  rewrite filter_cons. case_decide; [|by apply IH]. rewrite fmap_cons. apply NoDup_cons.
  split; [|by apply IH]. intros (m&E&[_ Hm]%list_elem_of_filter)%list_elem_of_fmap. apply Hn.
  apply list_elem_of_fmap. eauto.
Qed.

Lemma table_add_ok h key obj : hash_ok h -> table_find h key = None -> hash_ok (table_add h key obj).
Proof.
  intros Hok Hf. unfold table_find in Hf. apply fmap_None in Hf.
  pose proof (proj1 (find_none_spec h key Hok) Hf) as Hno. destruct Hok as [Hn Hd].
  unfold table_add, hash_link_node_locked. split; intros i.
  - intros n. rewrite bucket_set, index_set. destruct (Z.eqb_spec (hash_bucket_index h (alg key)) i) as [<-|].
    + intros [->|H]%elem_of_cons; [done|]. by apply Hn.
    + apply Hn.
  - rewrite bucket_set. destruct (Z.eqb_spec (hash_bucket_index h (alg key)) i) as [<-|]; [|apply Hd].
    rewrite fmap_cons. apply NoDup_cons. split; [|apply Hd].
    intros (n&Hk&Hin)%list_elem_of_fmap. by eapply Hno.
Qed.

Lemma table_find_add h key obj key' :
  hash_ok h -> table_find h key = None ->
  table_find (table_add h key obj) key' =
  if bool_decide (key = key') then Some obj else table_find h key'.
Proof.
  intros Hok Hf. unfold table_find, table_add, hash_link_node_locked, hash_find_node_locked.
  rewrite bucket_set, index_set. case_bool_decide as E.
  - subst key'. rewrite Z.eqb_refl. cbn [find_node n_hash n_key].
    by rewrite Z.eqb_refl, bool_decide_eq_true_2.
  - destruct (Z.eqb_spec (hash_bucket_index h (alg key)) (hash_bucket_index h (alg key'))) as [Ei|]; [|done].
    cbn [find_node n_hash n_key]. rewrite (bool_decide_eq_false_2 (key = key')) by done.
    rewrite andb_false_r. by rewrite Ei.
Qed.

Lemma table_del_ok h key : hash_ok h -> hash_ok (table_del h key).
Proof.
  intros Hok. unfold table_del. destruct (hash_find_node_locked _ _ _ _) as [n|]; [|done].
  destruct Hok as [Hn Hd]. unfold hash_unlink_node_locked. split; intros i.
  - intros m. rewrite bucket_set, index_set. case_if; [|apply Hn].
    bool_prop. subst. intros [_ H]%list_elem_of_filter. by apply Hn.
  - rewrite bucket_set. case_if; [|apply Hd].
    apply nodup_fmap_filter, Hd.
Qed.

(** Membership after the removal of the node of [key]. *)
Lemma elem_of_unlink h key n i m :
  hash_ok h -> n ∈ bucket h (hash_bucket_index h (alg key)) -> n_key n = key ->
  m ∈ bucket (hash_unlink_node_locked h (hash_bucket_index h (alg key)) n) i <->
  m ∈ bucket h i /\ n_key m <> key \/
  m ∈ bucket h i /\ i <> hash_bucket_index h (alg key).
Proof.
  intros Hok Hn Hk. unfold hash_unlink_node_locked. rewrite bucket_set.
  destruct (Z.eqb_spec (hash_bucket_index h (alg key)) i) as [<-|]; [|intuition].
  rewrite list_elem_of_filter. split.
  - intros [Hne Hm]. left. split; [done|]. intros Hk'.
    assert (Some m = Some n) as [= ->]; [|done].
    rewrite <- (proj2 (find_spec h key m Hok)), <- (proj2 (find_spec h key n Hok)) by done. done.
  - intros [[Hm Hne]|[? ?]]; [|done]. split; [|done]. congruence.
Qed.

Lemma table_find_del h key key' :
  hash_ok h ->
  table_find (table_del h key) key' = if bool_decide (key = key') then None else table_find h key'.
Proof.
  intros Hok. pose proof (table_del_ok h key Hok) as Hok'. revert Hok'. unfold table_del, table_find.
  destruct (hash_find_node_locked _ _ _ _) as [n|] eqn:En; intros Hok'.
  2: { case_bool_decide; [subst; by rewrite En|done]. }
  apply find_spec in En as [Hn Hk]; [|done].
  set (h' := hash_unlink_node_locked _ _ n) in *.
  pose proof (fun i m => elem_of_unlink h key n i m Hok Hn Hk) as Hel. fold h' in Hel.
  change (hash_bucket_index h' (alg key')) with (hash_bucket_index h (alg key')).
  case_bool_decide as E.
  - subst key'. apply fmap_None. apply (find_none_spec h' key Hok').
    intros m Hm%Hel Hkm. destruct Hm as [[? ?]|[? ?]]; done.
  - f_equal. apply option_eq. intros m.
    change (hash_bucket_index h (alg key')) with (hash_bucket_index h' (alg key')) at 1.
    rewrite (find_spec h' key' m Hok'), (find_spec h key' m Hok), Hel.
    change (hash_bucket_index h' (alg key')) with (hash_bucket_index h (alg key')).
    split; [tauto|]. intros [? Hkm]. split; [left; split; congruence|done].
Qed.

Definition hash_key_table : KeyTable hash := {|
  kt_ok := hash_ok; kt_find := table_find; kt_add := table_add; kt_del := table_del;
  kt_add_ok := table_add_ok; kt_del_ok := table_del_ok;
  kt_find_add := table_find_add; kt_find_del := table_find_del
|}.

End table.

(** *** Properties *)

Lemma round_loop_ok requested : forall fuel k,
  8 <= k <= 31 -> 31 - k < Z.of_nat fuel ->
  exists j, k <= j <= 31 /\ round_loop fuel (2 ^ k) requested = Some (2 ^ j) /\
    (requested <= 2 ^ j \/ j = 31) /\ (j = k \/ 2 ^ (j - 1) < requested).
Proof.
  induction fuel as [|f IH]; intros k Hk Hf; [lia|]. cbn [round_loop].
  destruct (Z.ltb_spec (2 ^ k) requested) as [Hlt|Hge]; cbn [andb].
  2: { exists k. split_and!; [lia|lia|done|by left|by left]. }
  assert (Hcase : (2 ^ k <=? UINT32_MAX / 2) = (k <? 31)).
  { unfold UINT32_MAX. change ((2 ^ 32 - 1) / 2) with (2 ^ 31 - 1).
    destruct (Z.ltb_spec k 31).
    - apply Z.leb_le. pose proof (Z.pow_lt_mono_r 2 k 31). lia.
    - assert (k = 31) as -> by lia. done. }
  rewrite Hcase. destruct (Z.ltb_spec k 31).
  - replace (u32 (Z.shiftl (2 ^ k) 1)) with (2 ^ (k + 1)).
    2: { rewrite Z.shiftl_mul_pow2 by lia. rewrite <- Z.pow_add_r by lia. symmetry. apply wrap_id.
         unfold is_u. split; [lia|]. apply Z.pow_lt_mono_r; lia. }
    destruct (IH (k + 1) ltac:(lia) ltac:(lia)) as (j&H1&H2&H3&H4).
    exists j. split_and!; [lia|lia|done|done|]. right.
    destruct H4 as [->|]; [|done]. by replace (k + 1 - 1) with k by lia.
  - exists k. split_and!; [lia|lia|done|right; lia|by left].
Qed.

(** the table size is the least power of two from 256 up that covers the
    request, and the loop that finds it ends for every request; requests above
    2^31 get 0, which [hash_create] refuses. *)
Theorem round_hash_size_correct (requested : Z) :
  0 <= requested < 2 ^ 32 ->
  exists size, round_hash_size requested = Some size /\
    if requested <=? 2 ^ 31
    then exists j, 8 <= j <= 31 /\ size = 2 ^ j /\ requested <= size /\
                   (j = 8 \/ 2 ^ (j - 1) < requested)
    else size = 0.
Proof.
  intros Hr. unfold round_hash_size, MIN_HASH_SIZE.
  destruct (round_loop_ok requested 32 8 ltac:(lia) ltac:(lia)) as (j&H1&H2&H3&H4).
  change 256 with (2 ^ 8). rewrite H2. eexists. split; [done|].
  destruct (Z.leb_spec requested (2 ^ 31)).
  - assert (Hle : requested <= 2 ^ j) by (destruct H3 as [| ->]; lia).
    rewrite (proj2 (Z.leb_le _ _)) by done. exists j. split_and!; done || lia.
  - assert (j = 31) as -> by (pose proof (Z.pow_le_mono_r 2 j 31); lia).
    by rewrite (proj2 (Z.leb_gt _ _)) by lia.
Qed.

Lemma round_hash_size_correct_witness :
  exists size, round_hash_size 300 = Some size /\
    if 300 <=? 2 ^ 31
    then exists j, 8 <= j <= 31 /\ size = 2 ^ j /\ 300 <= size /\ (j = 8 \/ 2 ^ (j - 1) < 300)
    else size = 0.
Proof. apply (round_hash_size_correct 300). lia. Defined.

(** Operations on a table, and what they mean on a finite map. *)
Inductive op := Add (obj : Z) (key : list Z) | Del (key : list Z) | Find (key : list Z).

Definition run_op (h : hash) (o : op) : option Z * hash :=
  match o with
  | Add obj key => let '(b, h) := hash_add_node h obj key in ((if b then Some 1 else Some 0), h)
  | Del key => let '(n, h) := hash_del_key h key in (n_obj <$> n, h)
  | Find key => (n_obj <$> hash_find_node h key, h)
  end.

Definition spec_op (m : gmap (list Z) Z) (o : op) : option Z * gmap (list Z) Z :=
  match o with
  | Add obj key => match m !! key with
                   | Some _ => (Some 0, m)
                   | None => (Some 1, <[key := obj]> m)
                   end
  | Del key => (m !! key, delete key m)
  | Find key => (m !! key, m)
  end.

Fixpoint run_ops (h : hash) (os : list op) : list (option Z) :=
  match os with
  | [] => []
  | o :: os' => let '(r, h) := run_op h o in r :: run_ops h os'
  end.

Fixpoint spec_ops (m : gmap (list Z) Z) (os : list op) : list (option Z) :=
  match os with
  | [] => []
  | o :: os' => let '(r, m) := spec_op m o in r :: spec_ops m os'
  end.

Definition table_refines (h : hash) (m : gmap (list Z) Z) : Prop :=
  hash_ok general_hash_algorithm h /\
  forall key, table_find general_hash_algorithm h key = m !! key.

Lemma run_op_refines h m o :
  table_refines h m ->
  fst (run_op h o) = fst (spec_op m o) /\ table_refines (snd (run_op h o)) (snd (spec_op m o)).
Proof.
  intros [Hok Hf]. destruct o as [obj key|key|key]; cbn [run_op spec_op].
  - unfold hash_add_node. pose proof (Hf key) as Hk. unfold table_find in Hk.
    destruct (hash_find_node_locked _ _ _ _) as [n|] eqn:E; cbn in Hk; rewrite <- Hk; [done|].
    cbn [fst snd]. split; [done|]. symmetry in Hk.
    assert (Hn : table_find general_hash_algorithm h key = None) by (by rewrite Hf).
    split; [by apply (table_add_ok general_hash_algorithm h key obj)|]. intros key'.
    etrans; [by apply (table_find_add general_hash_algorithm h key obj)|].
    case_bool_decide; [subst; by rewrite lookup_insert_eq|by rewrite lookup_insert_ne, Hf].
  - unfold hash_del_key. pose proof (Hf key) as Hk. unfold table_find in Hk.
    pose proof (table_del_ok general_hash_algorithm h key Hok) as Hok'.
    pose proof (fun k => table_find_del general_hash_algorithm h key k Hok) as Hf'.
    unfold table_del in Hok', Hf'.
    destruct (hash_find_node_locked _ _ _ _) as [n|] eqn:E; cbn [fst snd]; rewrite <- Hk;
      (split; [done|]); (split; [done|]); intros key'; rewrite Hf';
      (case_bool_decide; [subst; by rewrite lookup_delete_eq|by rewrite lookup_delete_ne, Hf]).
  - split; [|done]. apply (Hf key).
Qed.

(** the hash table is a finite map.  Any sequence of insertions, lookups and
    removals on a new table answers exactly as on a finite map from keys to
    objects, whatever collisions of hash values and buckets occur. *)
Theorem hash_table_is_map (requested key_len : Z) (h : hash) (os : list op) :
  hash_create requested key_len true = Some (inl h) -> run_ops h os = spec_ops ∅ os.
Proof.
  intros Hc. assert (Hr : table_refines h ∅).
  { unfold hash_create in Hc. destruct (round_hash_size requested); [|done].
    injection Hc as Hc. case_if; [done|]. injection Hc as <-.
    split; [split|]; intros; cbn in *; try done.
    - by apply not_elem_of_nil in H.
    - apply NoDup_nil_2. }
  clear Hc. revert h Hr. generalize (∅ : gmap (list Z) Z). induction os as [|o os IH]; [done|].
  intros m h Hr. cbn [run_ops spec_ops]. pose proof (run_op_refines h m o Hr) as [H1 H2].
  destruct (run_op h o) as [r h'], (spec_op m o) as [r' m']. cbn [fst snd] in *.
  f_equal; [done|]. by apply IH.
Qed.

Lemma hash_table_is_map_witness :
  run_ops (mk_hash ∅ 256 255 2) [Add 7 [1; 2]; Add 8 [1; 2]; Find [1; 2]; Del [1; 2]; Find [1; 2]] =
  spec_ops ∅ [Add 7 [1; 2]; Add 8 [1; 2]; Find [1; 2]; Del [1; 2]; Find [1; 2]].
Proof. apply (hash_table_is_map 100 2). reflexivity. Defined.
