(* ===== verification/TupleTable.v ===== *)
(** Demultiplexing: the connection tuple table (src/main/socket.c:
    [install_tuple], [uninstall_tuple], [search_socket_by_tuple],
    [socket_select]) and the lookup order of [tcp_lookup_socket]
    (src/main/tcp.c).

    The table is a key table of entries, and an entry a group of sockets bound to
    the same tuple.  The theorems are proved against the interface [KeyTable] and
    hold for the hash table of HashTable.v with [tuple_hash_value]. *)

From stdpp Require Import prelude list gmap.
From Stdlib Require Import ZArith Lia.
From S2P Require Import Prelude HashTable.

(** *** Definitions *)

Definition rotl32 (x : Z) (n : Z) : Z := Z.lor (u32 (Z.shiftl x n)) (Z.shiftr x (32 - n)).

(** [tuple_hash_value] (MurmurHash3), over the words of the key. *)
Fixpoint tuple_hash_words (hash : Z) (bytes : list Z) : Z :=
  match bytes with
  | b0 :: b1 :: b2 :: b3 :: rest =>
      let word := b0 + 256 * b1 + 65536 * b2 + 16777216 * b3 in
      let word := u32 (word * 0xcc9e2d51) in
      let word := rotl32 word 15 in
      let word := u32 (word * 0x1b873593) in
      let hash := Z.lxor hash word in
      let hash := rotl32 hash 13 in
      tuple_hash_words (u32 (hash * 5 + 0xe6546b64)) rest
  | _ => hash
  end.

Definition tuple_hash_value (key : list Z) : Z :=
  let key_len := Z.of_nat (length key) in
  let hash := tuple_hash_words (Z.lxor 0x9747b28c key_len) key in
  let hash := Z.lxor hash key_len in
  let hash := Z.lxor hash (Z.shiftr hash 16) in
  let hash := u32 (hash * 0x85ebca6b) in
  let hash := Z.lxor hash (Z.shiftr hash 13) in
  let hash := u32 (hash * 0xc2b2ae35) in
  Z.lxor hash (Z.shiftr hash 16).

(** [tuple_key_from_socket]: source and destination address, source and
    destination port as they are in memory. *)
Definition tuple_key (saddr daddr : list Z) (sport dport : Z) : list Z :=
  saddr ++ daddr ++ le16_bytes sport ++ le16_bytes dport.

(** What the table reads of a socket: its tuple, whether it has a peer, its
    SO_REUSEPORT option. *)
Record tsock := mk_tsock {
  ts_saddr : list Z; ts_daddr : list Z; ts_sport : Z; ts_dport : Z; ts_reuseport : bool
}.

Definition ts_key (s : tsock) : list Z := tuple_key (ts_saddr s) (ts_daddr s) (ts_sport s) (ts_dport s).
Definition ts_has_peer (s : tsock) : bool := existsb (fun b => negb (b =? 0)) (ts_daddr s).

(** The peer address part of a key, of either family. *)
Definition key_peer (key : list Z) : list Z :=
  let n := ((length key - 4) / 2)%nat in take n (drop n key).
Definition key_has_peer (key : list Z) : bool := existsb (fun b => negb (b =? 0)) (key_peer key).

Section tuple.
Context {T : Type} `{KT : !KeyTable T}.

(** The table, its entries ([tuple_entry]: key and sockets, first one first),
    and for every socket in it ([flag.is_hash]) its entry. *)
Record tuples := mk_tuples {
  t_table : T;
  t_entries : gmap Z (list Z * list Z);
  t_where : gmap Z Z;
  t_next : Z
}.

(** [uninstall_tuple]: success and the new table. *)
Definition uninstall_tuple (t : tuples) (sid : Z) : bool * tuples :=
  match t_where t !! sid with
  | None => (true, t)
  | Some e =>
      match t_entries t !! e with
      | None | Some (_, []) => (false, t)
      | Some (key, head :: rest) =>
          if negb (bool_decide (sid ∈ head :: rest)) then (false, t)
          else if bool_decide (head = sid) && bool_decide (rest = []) then
            (true, mk_tuples (kt_del (t_table t) key) (delete e (t_entries t))
                     (delete sid (t_where t)) (t_next t))
          else
            (true, mk_tuples (t_table t)
                     (<[e := (key, filter (fun x => x <> sid) (head :: rest))]> (t_entries t))
                     (delete sid (t_where t)) (t_next t))
      end
  end.

(** The loop over the members of a group: [None] when one of them does not share
    the port, else whether [sid] is among those before the end. *)
Fixpoint scan_members (socks : gmap Z tsock) (l : list Z) (sid : Z) : option bool :=
  match l with
  | [] => Some false
  | m :: l' =>
      match socks !! m with
      | None => None
      | Some s => if negb (ts_reuseport s) then None
                  else if m =? sid then Some true else scan_members socks l' sid
      end
  end.

(** [install_tuple]; [mem]: the entry can be allocated. *)
Definition install_tuple (t : tuples) (socks : gmap Z tsock) (sid : Z) (mem : bool)
    : bool * tuples :=
  match socks !! sid with
  | None => (false, t)
  | Some s =>
      let '(cleared, t) := match t_where t !! sid with
                           | Some _ => uninstall_tuple t sid
                           | None => (true, t)
                           end in
      if negb cleared then (false, t)
      else
        let key := ts_key s in
        match kt_find (t_table t) key with
        | Some e =>
            if ts_has_peer s then (false, t)
            else if negb (ts_reuseport s) then (false, t)
            else
              match t_entries t !! e with
              | None | Some (_, []) => (false, t)
              | Some (_, head :: rest) =>
                  match scan_members socks (head :: rest) sid with
                  | None => (false, t)
                  | Some true => (true, mk_tuples (t_table t) (t_entries t)
                                          (<[sid := e]> (t_where t)) (t_next t))
                  | Some false =>
                      (true, mk_tuples (t_table t)
                               (<[e := (key, head :: sid :: rest)]> (t_entries t))
                               (<[sid := e]> (t_where t)) (t_next t))
                  end
              end
        | None =>
            if negb mem then (false, t)
            else (true, mk_tuples (kt_add (t_table t) key (t_next t))
                          (<[t_next t := (key, [sid])]> (t_entries t))
                          (<[sid := t_next t]> (t_where t)) (t_next t + 1))
        end
  end.

(** [search_socket_by_tuple]: the first socket of the group. *)
Definition search_socket_by_tuple (t : tuples) (saddr : list Z) (sport : Z)
    (daddr : list Z) (dport : Z) : option Z :=
  match kt_find (t_table t) (tuple_key saddr daddr sport dport) with
  | Some e => match t_entries t !! e with Some (_, l) => head l | None => None end
  | None => None
  end.

(** [socket_select]: a member of the group by hash. *)
Definition socket_select (t : tuples) (first : Z) (hash : Z) : Z :=
  let group := match t_where t !! first with
               | Some e => match t_entries t !! e with Some (_, l) => l | None => [first] end
               | None => [first]
               end in
  let sock_num := Z.of_nat (length group) in
  if sock_num <=? 1 then first
  else nth (Z.to_nat (hash mod sock_num)) group first.

(** [tcp_lookup_socket]: the connection, else for a SYN the listener on the
    address, else the listener on any address. *)
Definition tcp_lookup_socket (t : tuples) (any : list Z) (src_ip : list Z) (src_port : Z)
    (dst_ip : list Z) (dst_port : Z) (is_syn : bool) : option Z :=
  match search_socket_by_tuple t dst_ip dst_port src_ip src_port with
  | Some s => Some s
  | None =>
      if negb is_syn then None
      else
        match search_socket_by_tuple t dst_ip dst_port any 0 with
        | Some s => Some s
        | None => search_socket_by_tuple t any dst_port any 0
        end
  end.

(** *** The invariant and the abstract view *)

(** Abstractly the table says which tuple every installed socket has. *)
Definition tuple_of (t : tuples) (sid : Z) : option (list Z) :=
  match t_where t !! sid with
  | Some e => fst <$> t_entries t !! e
  | None => None
  end.

(** Entries and table agree; groups are non-empty, without repetition, and are
    where their members say; a tuple with a peer has one socket. *)
Record tuples_ok (t : tuples) : Prop := {
  to_table : kt_ok (t_table t);
  to_find key e : kt_find (t_table t) key = Some e -> exists l, t_entries t !! e = Some (key, l);
  to_entry e key l : t_entries t !! e = Some (key, l) ->
    kt_find (t_table t) key = Some e /\ l <> [] /\ NoDup l /\ e < t_next t /\
    forall sid, sid ∈ l -> t_where t !! sid = Some e;
  to_where sid e : t_where t !! sid = Some e ->
    exists key l, t_entries t !! e = Some (key, l) /\ sid ∈ l;
  to_peer e key l : t_entries t !! e = Some (key, l) -> key_has_peer key = true ->
    exists x, l = [x]
}.

(** A table without sockets. *)
Lemma tuples_ok_empty table next :
  kt_ok table -> (forall key, kt_find table key = None) ->
  tuples_ok (mk_tuples table ∅ ∅ next).
Proof.
  intros Hok Hf. split; cbn; try done.
  - intros key e. by rewrite Hf.
Qed.

(** Taking a socket out of a group that has others. *)
Lemma shrink_ok t sid e key l :
  tuples_ok t -> t_entries t !! e = Some (key, l) -> sid ∈ l ->
  filter (fun x => x <> sid) l <> [] ->
  tuples_ok (mk_tuples (t_table t) (<[e := (key, filter (fun x => x <> sid) l)]> (t_entries t))
               (delete sid (t_where t)) (t_next t)).
Proof.
  intros [H1 H2 H3 H4 H5] He Hs Hne. destruct (H3 _ _ _ He) as (F1&F2&F3&F4&F5).
  split; cbn [t_table t_entries t_where t_next]; [done| | | |].
  - intros key' e' Hf. destruct (decide (e' = e)) as [->|].
    + destruct (H2 _ _ Hf) as [l' E]. assert (key' = key) as -> by congruence.
      eexists. by rewrite lookup_insert_eq.
    + rewrite lookup_insert_ne by done. by apply H2.
  - intros e' key' l' Hl. destruct (decide (e' = e)) as [->|].
    + rewrite lookup_insert_eq in Hl. injection Hl as <- <-. split_and!; try done.
      * by apply NoDup_filter.
      * intros x [Hx Hin]%list_elem_of_filter. rewrite lookup_delete_ne by done. by apply F5.
    + rewrite lookup_insert_ne in Hl by done. destruct (H3 _ _ _ Hl) as (G1&G2&G3&G4&G5).
      split_and!; try done. intros x Hx. rewrite lookup_delete_ne; [by apply G5|].
      intros <-. specialize (F5 _ Hs). specialize (G5 _ Hx). congruence.
  - intros x e' Hx. apply lookup_delete_Some in Hx as [Hne' Hx].
    destruct (H4 _ _ Hx) as (key'&l'&Hl&Hin). destruct (decide (e' = e)) as [->|].
    + rewrite lookup_insert_eq. eexists _, _. split; [done|]. apply list_elem_of_filter.
      split; [done|]. congruence.
    + rewrite lookup_insert_ne by done. eauto.
  - intros e' key' l' Hl Hpk. destruct (decide (e' = e)) as [->|].
    + rewrite lookup_insert_eq in Hl. injection Hl as <- <-.
      destruct (H5 _ _ _ He Hpk) as [x ->]. exists x. rewrite filter_cons in *.
      by case_decide.
    + rewrite lookup_insert_ne in Hl by done. eauto.
Qed.

(** Taking out the only socket of an entry. *)
Lemma remove_ok t sid e key :
  tuples_ok t -> t_entries t !! e = Some (key, [sid]) ->
  tuples_ok (mk_tuples (kt_del (t_table t) key) (delete e (t_entries t))
               (delete sid (t_where t)) (t_next t)).
Proof.
  intros [H1 H2 H3 H4 H5] He. destruct (H3 _ _ _ He) as (F1&F2&F3&F4&F5).
  split; cbn [t_table t_entries t_where t_next].
  - by apply kt_del_ok.
  - intros key' e'. rewrite kt_find_del by done. case_bool_decide as E; [done|]. intros Hf.
    destruct (H2 _ _ Hf) as [l' Hl']. exists l'. rewrite lookup_delete_ne; [done|]. congruence.
  - intros e' key' l' [Hne Hl]%lookup_delete_Some. destruct (H3 _ _ _ Hl) as (G1&G2&G3&G4&G5).
    split_and!; try done.
    + rewrite kt_find_del by done. case_bool_decide; [congruence|done].
    + intros x Hx. rewrite lookup_delete_ne; [by apply G5|]. intros <-.
      specialize (F5 sid ltac:(set_solver)). specialize (G5 _ Hx). congruence.
  - intros x e' [Hne Hx]%lookup_delete_Some. destruct (H4 _ _ Hx) as (key'&l'&Hl&Hin).
    exists key', l'. rewrite lookup_delete_ne; [done|]. intros <-.
    rewrite He in Hl. injection Hl as <- <-. set_solver.
  - intros e' key' l' [_ Hl]%lookup_delete_Some. eauto.
Qed.

Lemma tuple_of_entry t sid e key l :
  tuples_ok t -> t_entries t !! e = Some (key, l) -> sid ∈ l -> tuple_of t sid = Some key.
Proof.
  intros Hok He Hin. destruct (to_entry _ Hok _ _ _ He) as (_&_&_&_&F).
  unfold tuple_of. by rewrite (F _ Hin), He.
Qed.

Lemma tuple_of_inv t sid key :
  tuples_ok t -> tuple_of t sid = Some key ->
  exists e l, t_where t !! sid = Some e /\ t_entries t !! e = Some (key, l) /\ sid ∈ l /\
    kt_find (t_table t) key = Some e.
Proof.
  intros Hok. unfold tuple_of. destruct (t_where t !! sid) as [e|] eqn:Hw; [|done].
  destruct (to_where _ Hok _ _ Hw) as (key'&l&He&Hin). rewrite He. intros [= ->].
  exists e, l. split_and!; try done. by apply (to_entry _ Hok _ _ _ He).
Qed.

Lemma filter_others_nonempty (sid head : Z) (rest : list Z) :
  NoDup (head :: rest) -> bool_decide (head = sid) && bool_decide (rest = []) = false ->
  filter (fun x => x <> sid) (head :: rest) <> [].
Proof.
  intros [Hnh Hnd]%NoDup_cons E.
  apply andb_false_iff in E as [E|E]; apply bool_decide_eq_false in E.
  - by rewrite filter_cons_True.
  - destruct rest as [|r rest]; [done|]. intros Hf.
    assert (Hr : forall x, x ∈ head :: r :: rest -> x = sid).
    { intros x Hx. destruct (decide (x = sid)); [done|].
      assert (x ∈ filter (fun x => x <> sid) (head :: r :: rest)) by (by apply list_elem_of_filter).
      rewrite Hf in *. set_solver. }
    apply Hnh. rewrite (Hr head), (Hr r) by set_solver. set_solver.
Qed.

Lemma uninstall_ok t sid :
  tuples_ok t ->
  let '(b, t') := uninstall_tuple t sid in
  b = true /\ tuples_ok t' /\
  forall sid', tuple_of t' sid' = if bool_decide (sid' = sid) then None else tuple_of t sid'.
Proof.
  intros Hok. unfold uninstall_tuple. destruct (t_where t !! sid) as [e|] eqn:Hw.
  2: { split_and!; try done. intros sid'. case_bool_decide; [subst|done].
       unfold tuple_of. by rewrite Hw. }
  destruct (to_where _ Hok _ _ Hw) as (key&l&He&Hin). rewrite He.
  destruct l as [|head rest]; [set_solver|].
  rewrite bool_decide_eq_true_2 by done. cbn [negb].
  destruct (to_entry _ Hok _ _ _ He) as (_&_&Hnd&_).
  destruct (bool_decide (head = sid) && bool_decide (rest = [])) eqn:E.
  - apply andb_true_iff in E as [E1 E2]. apply bool_decide_eq_true in E1, E2. subst.
    split_and!; [done|by apply remove_ok|]. intros sid'. unfold tuple_of. cbn [t_where t_entries].
    case_bool_decide as Hd; [rewrite Hd; by rewrite lookup_delete_eq|]. rewrite lookup_delete_ne by done.
    destruct (t_where t !! sid') as [e'|] eqn:Hw'; [|done]. rewrite lookup_delete_ne; [done|].
    intros <-. destruct (to_where _ Hok _ _ Hw') as (k'&l'&He'&Hin'). set_solver.
  - split_and!; [done|apply shrink_ok; try done; by apply filter_others_nonempty|].
    clear E. intros sid'. unfold tuple_of. cbn [t_where t_entries].
    case_bool_decide as Hd; [rewrite Hd; by rewrite lookup_delete_eq|]. rewrite lookup_delete_ne by done.
    destruct (t_where t !! sid') as [e'|] eqn:Hw'; [|done].
    destruct (decide (e' = e)) as [->|]; [|by rewrite lookup_insert_ne].
    by rewrite lookup_insert_eq, He.
Qed.

(** A new socket joins an existing group behind its first member. *)
Lemma join_ok t sid e key head rest :
  tuples_ok t -> key_has_peer key = false ->
  t_entries t !! e = Some (key, head :: rest) -> t_where t !! sid = None ->
  tuples_ok (mk_tuples (t_table t) (<[e := (key, head :: sid :: rest)]> (t_entries t))
               (<[sid := e]> (t_where t)) (t_next t)).
Proof.
  intros [H1 H2 H3 H4 H5] Hpk He Hw. destruct (H3 _ _ _ He) as (F1&F2&F3&F4&F5).
  assert (Hni : sid ∉ head :: rest) by (intros Hi; specialize (F5 _ Hi); congruence).
  split; cbn [t_table t_entries t_where t_next]; [done| | | |].
  - intros key' e' Hf. destruct (decide (e' = e)) as [->|].
    + destruct (H2 _ _ Hf) as [l' E]. assert (key' = key) as -> by congruence.
      eexists. by rewrite lookup_insert_eq.
    + rewrite lookup_insert_ne by done. by apply H2.
  - intros e' key' l' Hl. destruct (decide (e' = e)) as [->|].
    + rewrite lookup_insert_eq in Hl. injection Hl as <- <-. split_and!; try done.
      * apply NoDup_cons in F3 as [? ?]. apply NoDup_cons. split; [set_solver|].
        apply NoDup_cons. set_solver.
      * intros x Hx. destruct (decide (x = sid)) as [->|]; [by rewrite lookup_insert_eq|].
        rewrite lookup_insert_ne by done. apply F5. set_solver.
    + rewrite lookup_insert_ne in Hl by done. destruct (H3 _ _ _ Hl) as (G1&G2&G3&G4&G5).
      split_and!; try done. intros x Hx. rewrite lookup_insert_ne; [by apply G5|].
      intros <-. specialize (G5 _ Hx). congruence.
  - intros x e' Hx. destruct (decide (x = sid)) as [->|].
    + rewrite lookup_insert_eq in Hx. injection Hx as <-. eexists _, _.
      rewrite lookup_insert_eq. split; [done|]. set_solver.
    + rewrite lookup_insert_ne in Hx by done. destruct (H4 _ _ Hx) as (key'&l'&Hl&Hin).
      destruct (decide (e' = e)) as [->|].
      * rewrite lookup_insert_eq. eexists _, _. split; [done|]. assert (l' = head :: rest) by congruence.
        set_solver.
      * rewrite lookup_insert_ne by done. eauto.
  - intros e' key' l' Hl Hpk'. destruct (decide (e' = e)) as [->|].
    + rewrite lookup_insert_eq in Hl. injection Hl as <- <-. congruence.
    + rewrite lookup_insert_ne in Hl by done. eauto.
Qed.

(** A new entry. *)
Lemma new_entry_ok t sid key :
  tuples_ok t -> kt_find (t_table t) key = None -> t_where t !! sid = None ->
  tuples_ok (mk_tuples (kt_add (t_table t) key (t_next t))
               (<[t_next t := (key, [sid])]> (t_entries t))
               (<[sid := t_next t]> (t_where t)) (t_next t + 1)).
Proof.
  intros [H1 H2 H3 H4 H5] Hf Hw.
  assert (Hfresh : t_entries t !! t_next t = None).
  { destruct (t_entries t !! t_next t) as [[k l]|] eqn:E; [|done].
    destruct (H3 _ _ _ E) as (_&_&_&?&_). lia. }
  split; cbn [t_table t_entries t_where t_next].
  - by apply kt_add_ok.
  - intros key' e'. rewrite kt_find_add by done. case_bool_decide as E.
    + intros [= <-]. subst. eexists. by rewrite lookup_insert_eq.
    + intros Hf'. destruct (H2 _ _ Hf') as [l Hl]. exists l. rewrite lookup_insert_ne; [done|]. congruence.
  - intros e' key' l' Hl. destruct (decide (e' = t_next t)) as [->|].
    + rewrite lookup_insert_eq in Hl. injection Hl as <- <-.
      rewrite kt_find_add by done. rewrite bool_decide_eq_true_2 by done.
      split_and!; [done|done|by apply NoDup_singleton|lia|]. intros x ->%list_elem_of_singleton.
      by rewrite lookup_insert_eq.
    + rewrite lookup_insert_ne in Hl by done. destruct (H3 _ _ _ Hl) as (G1&G2&G3&G4&G5).
      rewrite kt_find_add by done. case_bool_decide; [congruence|].
      split_and!; try done; [lia|]. intros x Hx. rewrite lookup_insert_ne; [by apply G5|].
      intros <-. specialize (G5 _ Hx). congruence.
  - intros x e' Hx. destruct (decide (x = sid)) as [->|].
    + rewrite lookup_insert_eq in Hx. injection Hx as <-. eexists _, _.
      rewrite lookup_insert_eq. split; [done|]. set_solver.
    + rewrite lookup_insert_ne in Hx by done. destruct (H4 _ _ Hx) as (key'&l'&Hl&Hin).
      exists key', l'. rewrite lookup_insert_ne; [done|]. congruence.
  - intros e' key' l' Hl Hpk. destruct (decide (e' = t_next t)) as [->|].
    + rewrite lookup_insert_eq in Hl. injection Hl as <- <-. eauto.
    + rewrite lookup_insert_ne in Hl by done. eauto.
Qed.

Lemma scan_true socks l sid : scan_members socks l sid = Some true -> sid ∈ l.
Proof.
  induction l as [|m l IH]; cbn [scan_members]; [done|].
  destruct (socks !! m); [|done]. case_if; [done|]. destruct (Z.eqb_spec m sid) as [->|].
  - intros _. left.
  - intros H. right. by apply IH.
Qed.

(** The peer part of a socket's key. *)
Lemma ts_key_peer s :
  length (ts_saddr s) = length (ts_daddr s) -> key_has_peer (ts_key s) = ts_has_peer s.
Proof.
  intros Hl. unfold key_has_peer, key_peer, ts_key, tuple_key, ts_has_peer.
  rewrite !length_app. cbn [le16_bytes length].
  replace ((length (ts_saddr s) + (length (ts_daddr s) + (2 + 2)) - 4) / 2)%nat
    with (length (ts_saddr s)).
  2: { rewrite Hl. replace (length (ts_daddr s) + (length (ts_daddr s) + (2 + 2)) - 4)%nat
         with (length (ts_daddr s) * 2)%nat by lia. by rewrite Nat.div_mul. }
  rewrite drop_app_length, Hl, take_app_length. done.
Qed.

Lemma scan_false socks l sid :
  sid ∉ l ->
  scan_members socks l sid = Some false <->
  forall m, m ∈ l -> exists s, socks !! m = Some s /\ ts_reuseport s = true.
Proof.
  induction l as [|m l IH]; intros Hni; cbn [scan_members].
  { split; [set_solver|done]. }
  assert (E : (m =? sid) = false) by (apply Z.eqb_neq; set_solver). rewrite E.
  destruct (socks !! m) as [s|] eqn:Hm.
  - destruct (ts_reuseport s) eqn:Hr; cbn [negb].
    + rewrite IH by set_solver. split; intros H x.
      * intros [->|Hx]%elem_of_cons; [eauto|by apply H].
      * intros Hx. apply H. by right.
    + split; [done|]. intros H. destruct (H m) as (s'&?&?); [left|congruence].
  - split; [done|]. intros H. destruct (H m) as (s'&?&?); [left|congruence].
Qed.

(** What [install_tuple] decides: a tuple nobody else has is taken when memory
    allows; else only a tuple without a peer is shared, and only when all of its
    sockets have SO_REUSEPORT. *)
Definition may_install (t : tuples) (socks : gmap Z tsock) (sid : Z) (s : tsock) (mem : bool) : Prop :=
  ((forall sid', sid' <> sid -> tuple_of t sid' <> Some (ts_key s)) /\ mem = true) \/
  ((exists sid', sid' <> sid /\ tuple_of t sid' = Some (ts_key s)) /\
   ts_has_peer s = false /\ ts_reuseport s = true /\
   forall sid', sid' <> sid -> tuple_of t sid' = Some (ts_key s) ->
     exists s', socks !! sid' = Some s' /\ ts_reuseport s' = true).

(** Installing a socket that is not in the table. *)
Lemma install_fresh t socks sid s mem :
  tuples_ok t -> socks !! sid = Some s -> length (ts_saddr s) = length (ts_daddr s) ->
  t_where t !! sid = None ->
  let '(b, t') := install_tuple t socks sid mem in
  tuples_ok t' /\ (b = true <-> may_install t socks sid s mem) /\
  forall sid', tuple_of t' sid' = if bool_decide (sid' = sid)
    then (if b then Some (ts_key s) else None) else tuple_of t sid'.
Proof.
  intros Hok Hs Hlen Hw. unfold install_tuple. rewrite Hs, Hw. cbn [negb].
  assert (Hsame : forall sid', tuple_of t sid' = if bool_decide (sid' = sid) then None else tuple_of t sid').
  { intros sid'. case_bool_decide; [subst|done]. unfold tuple_of. by rewrite Hw. }
  destruct (kt_find (t_table t) (ts_key s)) as [e|] eqn:Hf.
  - destruct (to_find _ Hok _ _ Hf) as [l He]. rewrite He.
    destruct (to_entry _ Hok _ _ _ He) as (_&Hl&_&_&F).
    assert (Hni : sid ∉ l) by (intros Hi; specialize (F _ Hi); congruence).
    assert (Hm : forall m, m ∈ l <-> m <> sid /\ tuple_of t m = Some (ts_key s)).
    { intros m. split.
      - intros Hin. split; [congruence|]. by eapply tuple_of_entry.
      - intros [_ (e'&l'&_&He'&Hin&Hf')%tuple_of_inv]; [|done]. congruence. }
    destruct l as [|head rest]; [done|].
    assert (Hh : head <> sid /\ tuple_of t head = Some (ts_key s)) by (apply Hm; left).
    destruct (ts_has_peer s) eqn:Hp.
    { split_and!; [done| |done]. split; [done|].
      intros [[H _]|(_&?&_)]; [|congruence]. by destruct (H head); [apply Hh|apply Hh]. }
    destruct (ts_reuseport s) eqn:Hr; cbn [negb].
    2: { split_and!; [done| |done]. split; [done|].
         intros [[H _]|(_&_&?&_)]; [|congruence]. by destruct (H head); [apply Hh|apply Hh]. }
    pose proof (scan_false socks _ _ Hni) as Hsf.
    destruct (scan_members socks (head :: rest) sid) as [[]|] eqn:Hsc.
    + by apply scan_true in Hsc.
    + split_and!.
      * apply join_ok; try done. by rewrite ts_key_peer.
      * split; [intros _|done]. right. split_and!; [by exists head|done|done|].
        intros m H1 H2. apply Hsf; [done|]. by apply Hm.
      * intros sid'. unfold tuple_of. cbn [t_where t_entries]. case_bool_decide.
        -- subst. by rewrite !lookup_insert_eq.
        -- rewrite lookup_insert_ne by done. destruct (t_where t !! sid') as [e'|]; [|done].
           destruct (decide (e' = e)) as [->|]; [by rewrite lookup_insert_eq, He|].
           by rewrite lookup_insert_ne.
    + split_and!; [done| |done]. split; [done|]. intros [[H _]|(_&_&_&H)].
      * by destruct (H head); [apply Hh|apply Hh].
      * discriminate (proj2 Hsf ltac:(intros m [H1 H2]%Hm; by apply H)).
  - assert (Hnone : forall m, tuple_of t m <> Some (ts_key s)).
    { intros m (e'&l'&_&_&_&Hf')%tuple_of_inv; [congruence|done]. }
    destruct mem; cbn [negb].
    2: { split_and!; [done| |done]. split; [done|]. intros [[_ ?]|((m&_&Hm)&_)]; [done|].
         by destruct (Hnone m). }
    split_and!; [by apply new_entry_ok|split; [|done]; intros _; left; eauto|].
    intros sid'. unfold tuple_of. cbn [t_where t_entries]. case_bool_decide.
    + subst. by rewrite !lookup_insert_eq.
    + rewrite lookup_insert_ne by done. destruct (t_where t !! sid') as [e'|] eqn:Hw'; [|done].
      rewrite lookup_insert_ne; [done|]. intros <-.
      destruct (to_where _ Hok _ _ Hw') as (k&l&He&_).
      destruct (to_entry _ Hok _ _ _ He) as (_&_&_&?&_). lia.
Qed.

Lemma may_install_uninstalled t t1 socks sid s mem :
  (forall sid', tuple_of t1 sid' = if bool_decide (sid' = sid) then None else tuple_of t sid') ->
  may_install t1 socks sid s mem <-> may_install t socks sid s mem.
Proof.
  intros H. assert (E : forall sid', sid' <> sid -> tuple_of t1 sid' = tuple_of t sid').
  { intros sid' Hne. rewrite H. by rewrite bool_decide_eq_false_2. }
  unfold may_install. clear H. split; intros [[H1 H2]|((m&Hm&Hm')&H1&H2&H3)].
  - left. split; [|done]. intros sid' Hne. rewrite <- E by done. eauto.
  - right. split_and!; try done; [exists m; by rewrite <- E|].
    intros sid' Hne. rewrite <- E by done. eauto.
  - left. split; [|done]. intros sid' Hne. rewrite E by done. eauto.
  - right. split_and!; try done; [exists m; by rewrite E|].
    intros sid' Hne. rewrite E by done. eauto.
Qed.

(** A socket that is in the table is taken out before it is put in. *)
Lemma install_after_uninstall t socks sid s mem :
  tuples_ok t -> socks !! sid = Some s ->
  exists t1, install_tuple t socks sid mem = install_tuple t1 socks sid mem /\
    tuples_ok t1 /\ t_where t1 !! sid = None /\
    forall sid', tuple_of t1 sid' = if bool_decide (sid' = sid) then None else tuple_of t sid'.
Proof.
  intros Hok Hs. destruct (t_where t !! sid) as [e|] eqn:Hw.
  - pose proof (uninstall_ok t sid Hok) as Hu.
    destruct (uninstall_tuple t sid) as [b t1] eqn:Hun. destruct Hu as (->&Hok1&Ht1).
    assert (Hw1 : t_where t1 !! sid = None).
    { specialize (Ht1 sid). rewrite bool_decide_eq_true_2 in Ht1 by done. unfold tuple_of in Ht1.
      destruct (t_where t1 !! sid) as [e1|] eqn:Hw1; [|done].
      destruct (to_where _ Hok1 _ _ Hw1) as (k&l&He&_). by rewrite He in Ht1. }
    exists t1. split_and!; try done. unfold install_tuple. by rewrite Hs, Hw, Hun, Hw1.
  - exists t. split_and!; try done. intros sid'. case_bool_decide; [subst|done].
    unfold tuple_of. by rewrite Hw.
Qed.

(** *** Lookup *)

Lemma search_spec t saddr sport daddr dport :
  tuples_ok t ->
  match search_socket_by_tuple t saddr sport daddr dport with
  | Some sid => tuple_of t sid = Some (tuple_key saddr daddr sport dport)
  | None => forall sid, tuple_of t sid <> Some (tuple_key saddr daddr sport dport)
  end.
Proof.
  intros Hok. unfold search_socket_by_tuple.
  destruct (kt_find (t_table t) _) as [e|] eqn:Hf.
  - destruct (to_find _ Hok _ _ Hf) as [l He]. rewrite He.
    destruct (to_entry _ Hok _ _ _ He) as (_&Hl&_). destruct l as [|x l]; [done|]. cbn [head].
    eapply tuple_of_entry; [done..|left].
  - intros sid (e&l&_&_&_&Hf')%tuple_of_inv; [congruence|done].
Qed.

(** A tuple with a peer belongs to one socket. *)
Lemma tuple_of_inj t sid1 sid2 key :
  tuples_ok t -> key_has_peer key = true ->
  tuple_of t sid1 = Some key -> tuple_of t sid2 = Some key -> sid1 = sid2.
Proof.
  intros Hok Hp (e1&l1&_&He1&Hi1&Hf1)%tuple_of_inv (e2&l2&_&He2&Hi2&Hf2)%tuple_of_inv; try done.
  assert (e1 = e2) as <- by congruence. assert (l1 = l2) as <- by congruence.
  destruct (to_peer _ Hok _ _ _ He1 Hp) as [x ->]. set_solver.
Qed.

Lemma socket_select_spec t first key hash :
  tuples_ok t -> tuple_of t first = Some key -> 0 <= hash ->
  tuple_of t (socket_select t first hash) = Some key.
Proof.
  intros Hok Ht Hh. destruct (tuple_of_inv _ _ _ Hok Ht) as (e&l&Hw&He&Hin&Hf).
  unfold socket_select. rewrite Hw, He. case_if; [done|]. bool_prop.
  pose proof (Z.mod_pos_bound hash (Z.of_nat (length l)) ltac:(lia)).
  eapply tuple_of_entry; [done..|]. apply list_elem_of_In, nth_In. lia.
Qed.

End tuple.

#[local] Instance tuple_hash_table : KeyTable hash := hash_key_table tuple_hash_value.

(** A new table, and one with two listeners that share port 80 of any address and
    a connection of a third socket. *)
Lemma new_table_ok size key_len : tuples_ok (mk_tuples (mk_hash ∅ size (size - 1) key_len) ∅ ∅ 0).
Proof.
  apply tuples_ok_empty; [|done]. split; intros i.
  - intros n H. by apply not_elem_of_nil in H.
  - apply NoDup_nil_2.
Qed.

Definition ip_any : list Z := [0; 0; 0; 0].
Definition ip_host : list Z := [192; 168; 0; 2].
Definition ip_peer : list Z := [192; 168; 0; 9].
Definition example_socks : gmap Z tsock :=
  {[ 1 := mk_tsock ip_any ip_any 80 0 true; 2 := mk_tsock ip_any ip_any 80 0 true;
     3 := mk_tsock ip_host ip_peer 80 5000 false; 4 := mk_tsock ip_host ip_peer 80 5000 true ]}.
Definition new_table : tuples := mk_tuples (mk_hash ∅ 256 255 12) ∅ ∅ 0.
Definition example_table : tuples :=
  foldl (fun t sid => snd (install_tuple t example_socks sid true)) new_table [1; 2; 3].

Lemma example_table_ok : tuples_ok example_table.
Proof.
  assert (H : forall t sid s, tuples_ok t -> example_socks !! sid = Some s ->
    length (ts_saddr s) = length (ts_daddr s) -> t_where t !! sid = None ->
    tuples_ok (snd (install_tuple t example_socks sid true))).
  { intros t sid s Hok Hs Hl Hw. pose proof (install_fresh t example_socks sid s true Hok Hs Hl Hw) as H.
    destruct (install_tuple t example_socks sid true). apply H. }
  unfold example_table. cbn [foldl].
  eapply H; [eapply H; [eapply H; [apply (new_table_ok 256)|..]|..]|..]; by vm_compute.
Qed.

(** *** Properties *)

(** [install_tuple] implements its specification.  A tuple no other socket
    has is taken whenever the entry can be allocated; a tuple that is in use is
    shared only if it has no peer and every socket of it, the new one included,
    has SO_REUSEPORT; otherwise the call fails and the socket is left in no tuple,
    also when it was in one before.  All other sockets keep their tuples. *)
Theorem install_tuple_refines {T} `{KT : !KeyTable T} (t : tuples) (socks : gmap Z tsock)
    (sid : Z) (s : tsock) (mem : bool) :
  tuples_ok t -> socks !! sid = Some s -> length (ts_saddr s) = length (ts_daddr s) ->
  let '(b, t') := install_tuple t socks sid mem in
  tuples_ok t' /\ (b = true <-> may_install t socks sid s mem) /\
  forall sid', tuple_of t' sid' =
    if bool_decide (sid' = sid) then (if b then Some (ts_key s) else None) else tuple_of t sid'.
Proof.
  intros Hok Hs Hlen.
  destruct (install_after_uninstall t socks sid s mem Hok Hs) as (t1&->&Hok1&Hw1&Ht1).
  pose proof (install_fresh t1 socks sid s mem Hok1 Hs Hlen Hw1) as H.
  destruct (install_tuple t1 socks sid mem) as [b t']. destruct H as (H1&H2&H3).
  split_and!; [done|by rewrite <- (may_install_uninstalled t t1)|].
  intros sid'. rewrite H3, Ht1. by repeat case_bool_decide.
Qed.

(** A second socket with the connection's tuple is refused. *)
Lemma install_tuple_refines_witness :
  fst (install_tuple example_table example_socks 4 true) = false /\
  ~ may_install example_table example_socks 4 (mk_tsock ip_host ip_peer 80 5000 true) true.
Proof.
  pose proof (install_tuple_refines example_table example_socks 4
    (mk_tsock ip_host ip_peer 80 5000 true) true example_table_ok eq_refl eq_refl) as H.
  assert (E : fst (install_tuple example_table example_socks 4 true) = false) by (vm_compute; reflexivity).
  split; [exact E|]. destruct (install_tuple _ _ _ _) as [b t']. cbn [fst] in E. subst b.
  intros Hm. destruct H as (_&H&_). apply H in Hm. discriminate Hm.
Defined.

(** [uninstall_tuple] always succeeds on a consistent table, takes the socket
    out of its group (the group and its table entry vanish with the last socket),
    and every other socket keeps its tuple. *)
Theorem uninstall_tuple_refines {T} `{KT : !KeyTable T} (t : tuples) (sid : Z) :
  tuples_ok t ->
  let '(b, t') := uninstall_tuple t sid in
  b = true /\ tuples_ok t' /\
  forall sid', tuple_of t' sid' = if bool_decide (sid' = sid) then None else tuple_of t sid'.
Proof. apply uninstall_ok. Qed.

Lemma uninstall_tuple_refines_witness :
  tuple_of (snd (uninstall_tuple example_table 1)) 1 = None /\
  tuple_of (snd (uninstall_tuple example_table 1)) 2 = Some (tuple_key ip_any ip_any 80 0).
Proof.
  pose proof (uninstall_tuple_refines example_table 1 example_table_ok) as H.
  destruct (uninstall_tuple example_table 1) as [b t']. destruct H as (_&_&H). cbn [snd].
  split; rewrite H; vm_compute; reflexivity.
Defined.

(** Demultiplexing delivers to the right socket.  A segment of a connection
    goes to the one socket with that connection's tuple, whatever its flags; a
    SYN of no connection goes to a listener on the address it was sent to, and
    only without one to a listener on any address, the choice within a group
    staying in the group; a segment nobody has the tuple of is not delivered. *)
Theorem tcp_lookup_socket_correct {T} `{KT : !KeyTable T} (t : tuples)
    (any src dst : list Z) (sport dport : Z) (syn : bool) (hash : Z) :
  tuples_ok t -> 0 <= hash -> length src = length dst ->
  existsb (fun b => negb (b =? 0)) src = true ->
  let conn := tuple_key dst src dport sport in
  let exact := tuple_key dst any dport 0 in
  let wild := tuple_key any any dport 0 in
  match tcp_lookup_socket t any src sport dst dport syn with
  | Some sid =>
      (tuple_of t sid = Some conn /\ forall sid', tuple_of t sid' = Some conn -> sid' = sid) \/
      (syn = true /\ (forall sid', tuple_of t sid' <> Some conn) /\
       tuple_of t (socket_select t sid hash) = tuple_of t sid /\
       (tuple_of t sid = Some exact \/
        ((forall sid', tuple_of t sid' <> Some exact) /\ tuple_of t sid = Some wild)))
  | None =>
      (forall sid', tuple_of t sid' <> Some conn) /\
      (syn = true -> forall sid', tuple_of t sid' <> Some exact /\ tuple_of t sid' <> Some wild)
  end.
Proof.
  intros Hok Hh Hlen Hp conn exact wild. unfold tcp_lookup_socket.
  pose proof (search_spec t dst dport src sport Hok) as H1. fold conn in H1.
  destruct (search_socket_by_tuple t dst dport src sport) as [sid|].
  { left. split; [done|]. intros sid' H'. eapply tuple_of_inj; [done| |done..].
    apply (eq_trans (ts_key_peer (mk_tsock dst src dport sport false) (eq_sym Hlen))). done. }
  destruct syn; cbn [negb]; [|done].
  pose proof (search_spec t dst dport any 0 Hok) as H2. fold exact in H2.
  destruct (search_socket_by_tuple t dst dport any 0) as [sid|].
  { right. rewrite (socket_select_spec _ _ _ _ Hok H2 Hh), H2. split_and!; try done. by left. }
  pose proof (search_spec t any dport any 0 Hok) as H3. fold wild in H3.
  destruct (search_socket_by_tuple t any dport any 0) as [sid|].
  { right. rewrite (socket_select_spec _ _ _ _ Hok H3 Hh), H3. split_and!; try done. by right. }
  split; [done|]. intros _ sid'. split; [apply H2|apply H3].
Qed.

Lemma tcp_lookup_socket_correct_witness :
  tcp_lookup_socket example_table ip_any ip_peer 5000 ip_host 80 false = Some 3 /\
  forall sid', tuple_of example_table sid' = Some (tuple_key ip_host ip_peer 80 5000) -> sid' = 3.
Proof.
  pose proof (tcp_lookup_socket_correct example_table ip_any ip_peer ip_host 5000 80 false 0
    example_table_ok ltac:(lia) eq_refl eq_refl) as H.
  assert (E : tcp_lookup_socket example_table ip_any ip_peer 5000 ip_host 80 false = Some 3)
    by (vm_compute; reflexivity).
  split; [exact E|]. rewrite E in H. destruct H as [[_ H]|[H _]]; [exact H|discriminate H].
Defined.
