(* ===== verification/TcpWorld.v ===== *)
(** All TCP sockets together (src/main/tcp.c, src/main/socket.c): creation and
    destruction of sockets, listeners and their queues of new connections,
    segment input, timers, and the socket calls that touch more than one socket
    or the address tables.

    The state is a map from socket identifiers to control block and socket: an
    identifier stands for a pointer, an absent one for freed memory.  Every
    operation is an [option]: [None] is a use of freed memory or a failed
    assertion.  The address tables are those of BindTable.v and TupleTable.v,
    one of each for IPv4 and for IPv6. *)

From stdpp Require Import prelude list gmap.
From Stdlib Require Import ZArith Lia.
From S2P Require Import Prelude TcpDefs TcpSeq TcpMetrics TcpTimer TcpWindow TcpCongestion.
From S2P Require Import TcpOptions TcpOutput TcpRecv TcpInput BindTable TcpApi HashTable TupleTable.

Section world.
Context {T : Type} `{KT : !KeyTable T}.

(** [w_reserved] is [sock->bind_reservation]; the functions on families take
    whether it is IPv6. *)
Record world := mk_world {
  w_conns : gmap Z (tcp_pcb * Socket);
  w_env : env;
  w_tuples : bool -> tuples (T := T);
  w_binds : bool -> bind_table;
  w_reserved : gmap Z addr_key;
  w_next : Z
}.

Definition is_v6 (s : Socket) : bool := family s =? AF_INET6.
Definition addr_len (v6 : bool) : nat := if v6 then 16%nat else 4%nat.

Definition get (w : world) (sid : Z) : option conn :=
  match w_conns w !! sid with
  | Some (p, s) => Some (mk_conn p s (w_env w))
  | None => None
  end.

Definition put (w : world) (sid : Z) (c : conn) : world :=
  mk_world (<[sid := (pcb c, sock c)]> (w_conns w)) (ev c) (w_tuples w) (w_binds w)
    (w_reserved w) (w_next w).

Definition set_env (w : world) (e : env) : world :=
  mk_world (w_conns w) e (w_tuples w) (w_binds w) (w_reserved w) (w_next w).

(** A handler of one connection. *)
Definition on (w : world) (sid : Z) (f : conn -> conn) : option world :=
  match get w sid with Some c => Some (put w sid (f c)) | None => None end.

Definition on_ret {A} (w : world) (sid : Z) (f : conn -> A * conn) : option (A * world) :=
  match get w sid with
  | Some c => let '(r, c) := f c in Some (r, put w sid c)
  | None => None
  end.

(** An allocation outside any connection. *)
Definition w_alloc (w : world) : bool * world :=
  let '(ok, c) := alloc (mk_conn pcb_zero socket_zero (w_env w)) in (ok, set_env w (ev c)).

(** *** The address tables *)

Definition upd {A} (f : bool -> A) (v : bool) (x : A) : bool -> A :=
  fun v' => if Bool.eqb v' v then x else f v'.

Definition tsock_of (x : tcp_pcb * Socket) : tsock :=
  mk_tsock (sip x.2) (dip x.2) (sport x.2) (dport x.2) (opt_reuseport x.2).

(** [sock->flag.is_hash] says whether the socket is in the tuple table. *)
Definition set_tuples (w : world) (sid : Z) (p : tcp_pcb) (s : Socket) (t : tuples (T := T)) : world :=
  mk_world (<[sid := (p, s <| is_hash := bool_decide (is_Some (t_where t !! sid)) |>)]> (w_conns w))
    (w_env w) (upd (w_tuples w) (is_v6 s) t) (w_binds w) (w_reserved w) (w_next w).

Definition w_install (w : world) (sid : Z) : option (bool * world) :=
  let '(mem, w) := w_alloc w in
  match w_conns w !! sid with
  | None => None
  | Some (p, s) =>
      let '(ok, t) := install_tuple (w_tuples w (is_v6 s)) (tsock_of <$> w_conns w) sid mem in
      Some (ok, set_tuples w sid p s t)
  end.

Definition w_uninstall (w : world) (sid : Z) : option world :=
  match w_conns w !! sid with
  | None => None
  | Some (p, s) =>
      let '(_, t) := uninstall_tuple (w_tuples w (is_v6 s)) sid in Some (set_tuples w sid p s t)
  end.

(** [socket_set_bind_reservation]. *)
Definition socket_set_bind_reservation (s : Socket) (key : addr_key) : Socket :=
  s <| sip := ak_addr key |> <| sport := ak_port key |>
    <| sip_scope := if ak_family key =? AF_INET6 then ak_scope key else 0 |> <| is_bound := true |>.

Definition set_binds (w : world) (sid : Z) (x : tcp_pcb * Socket) (v6 : bool) (t : bind_table)
    (r : gmap Z addr_key) : world :=
  mk_world (<[sid := x]> (w_conns w)) (w_env w) (w_tuples w) (upd (w_binds w) v6 t) r (w_next w).

(** [bind_reserve] in the socket's table, recorded on success. *)
Definition w_reserve (w : world) (sid : Z) (key : addr_key) (reuse : bool) : option (bool * world) :=
  let '(mem, w) := w_alloc w in
  match w_conns w !! sid with
  | None => None
  | Some (p, s) =>
      match bind_reserve (w_binds w (is_v6 s)) key reuse mem with
      | None => None
      | Some (true, t) =>
          Some (true, set_binds w sid (p, socket_set_bind_reservation s key) (is_v6 s) t
                        (<[sid := key]> (w_reserved w)))
      | Some (false, t) => Some (false, set_binds w sid (p, s) (is_v6 s) t (w_reserved w))
      end
  end.

Definition bind_saddr (w : world) (sid : Z) (key : addr_key) : option (bool * world) :=
  match w_reserved w !! sid with
  | Some _ => Some (false, w)
  | None =>
      match w_conns w !! sid with
      | None => None
      | Some (_, s) => w_reserve w sid key (opt_reuseaddr s || opt_reuseport s)
      end
  end.

Definition unbind_saddr (w : world) (sid : Z) : option world :=
  match w_reserved w !! sid with
  | None => Some w
  | Some key =>
      match w_conns w !! sid with
      | None => None
      | Some (p, s) =>
          match bind_release (w_binds w (is_v6 s)) key with
          | None => None
          | Some t =>
              let s' := s <| is_bound := false |> <| sip := replicate (addr_len (is_v6 s)) 0 |>
                          <| sip_scope := 0 |> <| sport := 0 |> in
              Some (set_binds w sid (p, s') (is_v6 s) t (delete sid (w_reserved w)))
          end
      end
  end.

(** *** Destruction *)

(** [destroy_socket]: free the socket and its queues. *)
Definition destroy_socket (w : world) (sid : Z) : option world :=
  match w_conns w !! sid with
  | None => None
  | Some (_, s) =>
      match (if is_hash s then w_uninstall w sid else Some w) with
      | None => None
      | Some w =>
          match (if is_bound s then unbind_saddr w sid else Some w) with
          | None => None
          | Some w => Some (mk_world (delete sid (w_conns w)) (w_env w) (w_tuples w) (w_binds w)
                              (w_reserved w) (w_next w))
          end
      end
  end.

(** [remove_list_node] of a child on the listener's two lists. *)
Definition unlink_syn (child : Z) (p : tcp_pcb) : tcp_pcb :=
  p <| syn_list := filter (fun x => x <> child) (syn_list p) |>.
Definition unlink_accept (child : Z) (p : tcp_pcb) : tcp_pcb :=
  p <| accept_list := filter (fun x => x <> child) (accept_list p) |>.

(** One of the two loops of [clear_associated_socket] over the children of a
    listener. *)
Fixpoint destroy_children (destroy : world -> Z -> option world)
    (unlink : Z -> tcp_pcb -> tcp_pcb) (w : world) (sid : Z) (children : list Z) : option world :=
  match children with
  | [] => Some w
  | child :: rest =>
      match on w sid (fun c => c <| pcb ::= unlink child |>) with
      | None => None
      | Some w =>
          match destroy w child with
          | None => None
          | Some w => destroy_children destroy unlink w sid rest
          end
      end
  end.

(** A child leaves its listener. *)
Definition leave_parent (w : world) (sid parent : Z) : option world :=
  match on w parent (fun c =>
          if bool_decide (sid ∈ syn_list (pcb c)) then
            c <| pcb ::= unlink_syn sid |> <|p syn_list_num := u32 (syn_list_num (pcb c) - 1) |>
          else if bool_decide (sid ∈ accept_list (pcb c)) then
            c <| pcb ::= unlink_accept sid |>
              <|p accept_list_num := u32 (accept_list_num (pcb c) - 1) |>
          else c) with
  | None => None
  | Some w => on w sid (fun c => c <|p parent_sock := None |>)
  end.

Definition clear_associated_socket (destroy : world -> Z -> option world) (w : world) (sid : Z)
    : option world :=
  match get w sid with
  | None => None
  | Some c =>
      match parent_sock (pcb c) with
      | Some parent => leave_parent w sid parent
      | None =>
          match destroy_children destroy unlink_syn w sid (syn_list (pcb c)) with
          | None => None
          | Some w =>
              match on w sid (fun c => c <|p syn_list_num := 0 |>) with
              | None => None
              | Some w =>
                  match destroy_children destroy unlink_accept w sid (accept_list (pcb c)) with
                  | None => None
                  | Some w => on w sid (fun c => c <|p accept_list_num := 0 |>)
                  end
              end
          end
      end
  end.

(** [tcp_destroy_pcb]; the control block goes with the socket in
    [destroy_socket]. *)
Definition tcp_destroy_pcb (destroy : world -> Z -> option world) (w : world) (sid : Z) : option world :=
  match on w sid (fun c => c <|p timer_task := mk_task false 0 |> <|p metrics := None |>) with
  | None => None
  | Some w =>
      match clear_associated_socket destroy w sid with
      | None => None
      | Some w => on w sid (fun c => c <|p unordered_skb_list := [] |> <|p retransmit_queue := [] |>)
      end
  end.

Fixpoint destroy_tcp_socket (fuel : nat) (w : world) (sid : Z) : option world :=
  match fuel with
  | O => None
  | S f =>
      match get w sid with
      | None => None
      | Some c =>
          let c := c <|p state := TCP_STATE_CLOSED |> in
          match fd_entry (sock c) with
          | Some _ => Some (put w sid (notify_event c notify_err))
          | None =>
              match tcp_destroy_pcb (destroy_tcp_socket f) (put w sid (tcp_complete_linger c)) sid with
              | None => None
              | Some w => destroy_socket w sid
              end
          end
      end
  end.

(** A listener and its children: two levels. *)
Definition destroy (w : world) (sid : Z) : option world := destroy_tcp_socket 2 w sid.

(** *** Creation *)

Definition SOCKET_DEFAULT_RECV_SIZE : Z := 4096 * 64.
Definition SOCKET_DEFAULT_SEND_SIZE : Z := 4096 * 64.

(** [tcp_pcb_init]: the control block and its timer task are allocated. *)
Definition tcp_pcb_init (c : conn) : bool * conn :=
  let '(ok, c) := alloc c in
  if negb ok then (false, c)
  else
    let '(ok, c) := alloc c in
    if negb ok then (false, c)
    else
      let mss := if is_v6 (sock c) then 1220 else 536 in
      let iss := get_current_time_ms c mod 65535 in
      let p := pcb_zero
        <| keepalive_timeout := TCP_KEEPALIVE_TIMEOUT_MS_DEFAULT |>
        <| keepalive_retry_timeout := TCP_KEEPALIVE_RETRY_TIMEOUT_MS_DEFAULT |>
        <| keepalive_interval := TCP_KEEPALIVE_INTERVAL_MS_DEFAULT |>
        <| keepalive_repeat_max := TCP_KEEPALIVE_REPEAT_MAX_DEFAULT |>
        <| persist_backoff := TCP_PERSIST_BACKOFF_MS_DEFAULT |>
        <| retries_max := TCP_RETRIES2_DEFAULT |>
        <| timewait_timeout := TCP_TIMEWAIT_TIMEOUT_MS_DEFAULT |>
        <| finwait2_timeout := TCP_FINWAIT2_TIMEOUT_MS_DEFAULT |>
        <| ack_timeout := TCP_DELACK_TIMEOUT_MS_DEFAULT |>
        <| nagle_interval := TCP_NAGLE_INTERVAL_MS_DEFAULT |>
        <| connect_timeout := TCP_CONNECT_TIMEOUT_MS_DEFAULT |>
        <| peer_mss := mss |> <| snd_mss := mss |> <| rcv_mss := mss |>
        <| rcv_wnd := recv_buffer_len_max (sock c) |>
        <| snd_wnd := recv_buffer_len_max (sock c) |> in
      let p := tcp_congestion_init p in
      (true, c <| pcb := p <| snd_una := iss |> <| snd_nxt := iss |> <| snd_end := iss |>
                          <| last_ack := iss |> <| retransmit_timeout := tcp_metrics_default_rto |> |>).

(** A zeroed socket of a family with the default buffer sizes. *)
Definition socket_init (fam : Z) : Socket :=
  let n := addr_len (fam =? AF_INET6) in
  socket_zero <| family := fam |> <| sip := replicate n 0 |> <| dip := replicate n 0 |>
    <| recv_buffer_len_max := SOCKET_DEFAULT_RECV_SIZE |>
    <| send_buffer_len_max := SOCKET_DEFAULT_SEND_SIZE |>.

(** [create_socket] of a supported family and type: the new socket's
    identifier, if memory allows. *)
Definition create_socket (w : world) (fam : Z) : option Z * world :=
  let '(ok, w) := w_alloc w in
  if negb ok then (None, w)
  else
    let '(ok, c) := tcp_pcb_init (mk_conn pcb_zero (socket_init fam) (w_env w)) in
    if negb ok then (None, set_env w (ev c))
    else
      let sid := w_next w in
      (Some sid, mk_world (<[sid := (pcb c, sock c)]> (w_conns w)) (ev c) (w_tuples w) (w_binds w)
                   (w_reserved w) (sid + 1)).

(** [set_socket_worker]: the timer task moves to the worker's thread unless its
    [parent_thread] is that thread ([here]); a task that has fired keeps its
    thread, so it is then not registered again. *)
Definition set_socket_worker (here : bool) (c : conn) : conn :=
  let c := c <|s owner := true |> in
  if here then c else c <|p timer_task := mk_task true (timeout (timer_task (pcb c))) |>.

(** *** Passive open *)

(** The connection that is being opened with the segment's tuple. *)
Definition same_tuple (s : Socket) (sg : seg) : bool :=
  bool_decide (sip s = i_daddr sg) && (sport s =? i_dport sg)
  && bool_decide (dip s = i_saddr sg) && (dport s =? i_sport sg).

Fixpoint syn_pending (w : world) (children : list Z) (sg : seg) : option bool :=
  match children with
  | [] => Some false
  | child :: rest =>
      match w_conns w !! child with
      | None => None
      | Some (_, s) => if same_tuple s sg then Some true else syn_pending w rest sg
      end
  end.

(** What a child inherits. *)
Definition inherit (lp : tcp_pcb) (ls : Socket) (c : conn) : conn :=
  c <|s opt_reuseaddr := opt_reuseaddr ls |> <|s opt_keepalive := opt_keepalive ls |>
    <|s opt_send_timeout := opt_send_timeout ls |> <|s opt_recv_timeout := opt_recv_timeout ls |>
    <|s opt_linger := opt_linger ls |> <|s opt_reuseport := true |>
    <|s send_timeout_ms := send_timeout_ms ls |> <|s recv_timeout_ms := recv_timeout_ms ls |>
    <|s linger_seconds := linger_seconds ls |> <|s send_buffer_len_max := send_buffer_len_max ls |>
    <|s recv_buffer_len_max := recv_buffer_len_max ls |> <|p rcv_wnd := recv_buffer_len_max ls |>
    <|p cork := cork lp |> <|p nagle_interval := nagle_interval lp |>
    <|p keepalive_timeout := keepalive_timeout lp |>
    <|p keepalive_interval := keepalive_interval lp |>
    <|p keepalive_retry_timeout := keepalive_retry_timeout lp |>
    <|p keepalive_repeat_max := keepalive_repeat_max lp |>.

(** [destroy_tcp_socket(new_sock); return -1]. *)
Definition drop_child (w : world) (child : Z) : option (Z * world) :=
  match destroy w child with Some w => Some (-1, w) | None => None end.

(** The child answers SYN with SYN and ACK. *)
Definition answer_syn (c : conn) (sg : seg) : Z * conn :=
  let '(rejected, c) := options_rejected c sg in
  if rejected then (0, c)
  else
    let c := c <|p rcv_nxt := u32 (i_seq sg + 1) |> in
    let c := tcp_snd_win_change c (tcp_decode_window (pcb c) (i_window sg) (i_flags sg)) in
    tcp_send_flag c (snd_una (pcb c)) (rcv_nxt (pcb c)) (Z.lor TCP_FLAG_SYN TCP_FLAG_ACK).

(** The child joins its listener's queue of connections being opened. *)
Definition add_child (w : world) (sid child : Z) : option world :=
  match on w child (fun c => c <|p state := TCP_STATE_SYN_RECEIVED |> <|p parent_sock := Some sid |>) with
  | None => None
  | Some w =>
      match on w sid (fun c => c <|p syn_list := child :: syn_list (pcb c) |>
                                 <|p syn_list_num := u32 (syn_list_num (pcb c) + 1) |>) with
      | None => None
      | Some w => on w child (set_socket_worker false)
      end
  end.

(** The part of [tcp_process_listen] after the new socket is created. *)
Definition open_child (w : world) (sid child : Z) (sg : seg) : option (Z * world) :=
  match get w sid with
  | None => None
  | Some l =>
      match on w child (inherit (pcb l) (sock l)) with
      | None => None
      | Some w =>
          match bind_saddr w child (mk_key (i_daddr sg) (i_dport sg) (family (sock l)) 0) with
          | None => None
          | Some (false, w) => drop_child w child
          | Some (true, w) =>
              match on_ret w child (fun c =>
                      set_tcp_socket_route (c <|s dip := i_saddr sg |> <|s dport := i_sport sg |>
                                              <|s is_connected := true |>)) with
              | None => None
              | Some (r, w) =>
                  if r <? 0 then drop_child w child
                  else
                    match w_install w child with
                    | None => None
                    | Some (false, w) => drop_child w child
                    | Some (true, w) =>
                        match add_child w sid child with
                        | None => None
                        | Some w => on_ret w child (fun c => answer_syn c sg)
                        end
                    end
              end
          end
      end
  end.

Definition tcp_process_listen (w : world) (sid : Z) (sg : seg) : option (Z * world) :=
  match get w sid with
  | None => None
  | Some l =>
      if has (i_flags sg) TCP_FLAG_RST then Some (0, w)
      else if has (i_flags sg) TCP_FLAG_ACK then
        match on_ret w sid (fun c => tcp_send_flag c (i_ack sg) 0 TCP_FLAG_RST) with
        | Some (_, w) => Some (0, w)
        | None => None
        end
      else if negb (has (i_flags sg) TCP_FLAG_SYN) then Some (0, w)
      else
        match syn_pending w (syn_list (pcb l)) sg with
        | None => None
        | Some true => Some (0, w)
        | Some false =>
            if (0 <? backlog (pcb l))
               && (backlog (pcb l) <=? u32 (syn_list_num (pcb l) + accept_list_num (pcb l)))
            then Some (0, w)
            else
              match create_socket w (family (sock l)) with
              | (None, w) => Some (-1, w)
              | (Some child, w) => open_child w sid child sg
              end
        end
  end.

(** *** Segment input *)

(** The steps of [tcp_input] up to the ACK field. *)
Definition then_step (r : verdict * conn) (f : conn -> verdict * conn) : verdict * conn :=
  match r with (Continue, c) => f c | _ => r end.

Definition input_front (c : conn) (sg : seg) : verdict * conn :=
  let '(rejected, c) := options_rejected c sg in
  if rejected then (Return, c)
  else
    then_step (input_check_seq c sg) (fun c =>
    then_step (input_check_rst c sg) (fun c =>
    then_step (input_check_syn c sg) (fun c =>
    then_step (input_check_ack c sg) (fun c => input_ack c sg)))).

(** The steps after it. *)
Definition input_back (c : conn) (sg : seg) : conn :=
  match input_fin (input_text c sg) sg with
  | (Continue, c) => input_keepalive c
  | (_, c) => c
  end.

(** A connection that was being opened is established: a listener moves it to
    the queue of connections to accept, else the caller of connect is told. *)
Definition promote (w : world) (sid : Z) : option world :=
  match get w sid with
  | None => None
  | Some c =>
      match parent_sock (pcb c) with
      | Some parent =>
          on w parent (fun l =>
            let l := l <| pcb ::= unlink_syn sid |>
                       <|p syn_list_num := u32 (syn_list_num (pcb l) - 1) |>
                       <|p accept_list := sid :: accept_list (pcb l) |>
                       <|p accept_list_num := u32 (accept_list_num (pcb l) + 1) |> in
            notify_event l notify_new_connection)
      | None => on w sid (fun c => notify_event c notify_data_write)
      end
  end.

(** [tcp_process_syn_sent].  After a RST it goes on with the rest. *)
Definition tcp_process_syn_sent (w : world) (sid : Z) (sg : seg) : option world :=
  match on_ret w sid (fun c => syn_sent_check_ack c sg) with
  | None => None
  | Some (Return, w) => Some w
  | Some (_, w) =>
      match (if has (i_flags sg) TCP_FLAG_RST then
               match on w sid (fun c => c <|s error := ECONNREFUSED |>) with
               | Some w => destroy w sid
               | None => None
               end
             else Some w) with
      | None => None
      | Some w => on w sid (fun c => syn_sent_rest c sg)
      end
  end.

Definition returning {A} (r : Z) (w : option A) : option (Z * A) :=
  match w with Some w => Some (r, w) | None => None end.

Definition tcp_input (w : world) (sid : Z) (sg : seg) : option (Z * world) :=
  match get w sid with
  | None => None
  | Some c =>
      match state (pcb c) with
      | TCP_STATE_CLOSED => on_ret w sid (fun c => input_closed c sg)
      | TCP_STATE_LISTEN => tcp_process_listen w sid sg
      | TCP_STATE_SYN_SENT => returning 0 (tcp_process_syn_sent w sid sg)
      | _ =>
          match on_ret w sid (fun c => input_front c sg) with
          | None => None
          | Some (Return, w) => Some (0, w)
          | Some (Destroy, w) => returning 0 (destroy w sid)
          | Some (Promote, w) =>
              match promote w sid with
              | None => None
              | Some w => returning 0 (on w sid (fun c => input_back c sg))
              end
          | Some (Continue, w) => returning 0 (on w sid (fun c => input_back c sg))
          end
      end
  end.

(** [tcp_reply_rst] and the part of [tcp_recv] that answers a segment nobody has
    a socket for; the temporary socket has a route and no control block. *)
Definition reply_rst (e : env) (sg : seg) : Z * env :=
  if has (i_flags sg) TCP_FLAG_RST then (0, e)
  else
    let '(found, e) := match routes e with
                       | [] => (None, e)
                       | (_, found) :: l => (found, e <| routes := l |>)
                       end in
    match found with
    | None => (- EHOSTUNREACH, e)
    | Some _ =>
        let c := mk_conn pcb_zero socket_zero e in
        let '(ok, c) := alloc c in
        if negb ok then (- ENOMEM, ev c)
        else
          let k := if negb (has (i_flags sg) TCP_FLAG_ACK)
                   then mk_packet 0 (u32 (i_seq sg + seg_len sg)) (Z.lor TCP_FLAG_RST TCP_FLAG_ACK) 0 [] []
                   else mk_packet (i_ack sg) 0 TCP_FLAG_RST 0 [] [] in
          let '(r, c) := ip_output c k in (r, ev c)
    end.

Definition le_word (bytes : list Z) : Z :=
  match bytes with [a; b; c; d] => a + 256 * b + 65536 * c + 16777216 * d | _ => 0 end.

(** The hash a group member is selected with. *)
Definition select_hash (v6 : bool) (sg : seg) : Z :=
  if v6 then foldl (fun h b => u32 (h * 33 + b)) (i_sport sg) (i_saddr sg)
  else Z.lxor (i_sport sg) (le_word (i_saddr sg)).

(** [tcp_recv] after the header checks, on the worker of the socket. *)
Definition tcp_recv (w : world) (v6 : bool) (sg : seg) : option (Z * world) :=
  let syn := has (i_flags sg) TCP_FLAG_SYN && negb (has (i_flags sg) TCP_FLAG_ACK) in
  let t := w_tuples w v6 in
  match tcp_lookup_socket t (replicate (addr_len v6) 0) (i_saddr sg) (i_sport sg)
          (i_daddr sg) (i_dport sg) syn with
  | None => let '(r, e) := reply_rst (w_env w) sg in Some (r, set_env w e)
  | Some sid => tcp_input w (socket_select t sid (select_hash v6 sg)) sg
  end.

(** *** Timers *)

Definition due (c : conn) (which : timer_id) : bool * conn :=
  let '(d, p) := tcp_deadline_due (pcb c) (get_current_time_ms c) which in (d, c <| pcb := p |>).

(** What a timer callback ends in: the connection, possibly to be destroyed. *)
Definition timer_retransmit (c : conn) : bool * conn :=
  match retransmit_queue (pcb c) with
  | [] => (false, c)
  | skb :: _ =>
      match state (pcb c) with
      | TCP_STATE_SYN_SENT | TCP_STATE_SYN_RECEIVED =>
          let n := connect_retry_times (pcb c) in
          let c := c <|p connect_retry_times := u32 (n + 1) |> in
          if TCP_CONNECT_RETRY_MAX <=? n then (true, c <|s error := ETIMEDOUT |>)
          else
            let c := c <|p connect_timeout := u32 (connect_timeout (pcb c) * 2) |> in
            let c := update_timer c retransmit_deadline
                       (get_current_time_ms c + connect_timeout (pcb c)) true in
            (false, snd (tcp_retransmit_skb c skb false))
      | _ =>
          let n := retries_out (pcb c) in
          let c := c <|p retries_out := u32 (n + 1) |> in
          if retries_max (pcb c) <=? n then (true, c <|s error := ETIMEDOUT |>)
          else
            let c := tcp_congestion_on_timeout c in
            let c := c <|p retransmit_timeout := tcp_metrics_backoff (retransmit_timeout (pcb c)) |> in
            let c := update_timer c retransmit_deadline
                       (get_current_time_ms c + retransmit_timeout (pcb c)) false in
            (false, snd (tcp_retransmit_skb c skb false))
      end
  end.

Definition timer_persist (c : conn) : bool * conn :=
  if (snd_wnd (pcb c) =? 0)
     && (nonempty (retransmit_queue (pcb c)) || nonempty (send_queue (sock c))) then
    let n := retries_out (pcb c) in
    let c := c <|p retries_out := u32 (n + 1) |> in
    if retries_max (pcb c) <=? n then (true, c <|s error := ETIMEDOUT |>)
    else
      let c := c <|p persist_backoff :=
                      Z.min (u32 (persist_backoff (pcb c) * 2)) TCP_PERSIST_BACKOFF_MS_MAX |> in
      let c := update_timer c persist_deadline
                 (get_current_time_ms c + persist_backoff (pcb c)) true in
      (false, snd (tcp_send_probe c))
  else (false, c).

Definition timer_keepalive (c : conn) : bool * conn :=
  if negb (opt_keepalive (sock c)) || negb (st_eqb (state (pcb c)) TCP_STATE_ESTABLISHED)
  then (false, c <|p keepalive_repeat_count := 0 |>)
  else
    let n := keepalive_repeat_count (pcb c) in
    let c := c <|p keepalive_repeat_count := u32 (n + 1) |> in
    if keepalive_repeat_max (pcb c) <=? n then (true, c <|s error := ETIMEDOUT |>)
    else
      let c := update_timer c keepalive_deadline
                 (get_current_time_ms c + keepalive_retry_timeout (pcb c)) false in
      (false, snd (tcp_send_flag c (u32 (snd_una (pcb c) - 1)) (rcv_nxt (pcb c)) TCP_FLAG_ACK)).

(** Whether [tcp_timer_cb] destroys the socket, and the connection before that:
    one deadline is served, in this order. *)
Definition timer_body (c : conn) : bool * conn :=
  let '(d, c) := due c nagle_deadline in
  if d then (false, if nonempty (send_queue (sock c)) then snd (tcp_write_xmit c true) else c)
  else
  let '(d, c) := due c retransmit_deadline in
  if d then timer_retransmit c
  else
  let '(d, c) := due c ack_deadline in
  if d then (false, snd (tcp_send_flag c (snd_nxt (pcb c)) (rcv_nxt (pcb c)) TCP_FLAG_ACK))
  else
  let '(d, c) := due c persist_deadline in
  if d then timer_persist c
  else
  let '(d, c) := due c timewait_deadline in
  if d then (true, c)
  else
  let '(d, c) := due c finwait2_deadline in
  if d then (st_eqb (state (pcb c)) TCP_STATE_FIN_WAIT_2, c)
  else
  let '(d, c) := due c keepalive_deadline in
  if d then timer_keepalive c else (false, c).

(** [tcp_timer_cb]; [fire_timer_task] has marked the task as not registered. *)
Definition tcp_timer_cb (w : world) (sid : Z) : option world :=
  match on_ret w sid (fun c =>
          timer_body (c <|p timer_task := mk_task false (timeout (timer_task (pcb c))) |>)) with
  | None => None
  | Some (true, w) => destroy w sid
  | Some (false, w) => Some w
  end.

(** *** Socket calls *)

(** [socket_detach_with_fd_entry]: the waiting requests fail. *)
Definition EBADF : Z := 9.
Definition socket_detach (c : conn) : conn :=
  match fd_entry (sock c) with
  | None => c
  | Some _ =>
      c <|s fd_entry := None |> <|s pending := [] |>
        <|e completed := rev (map (fun r => (q_id r, - EBADF)) (pending (sock c)))
                         ++ completed (ev c) |>
  end.

Definition tcp_listen (w : world) (sid : Z) (log : Z) : option (Z * world) :=
  match get w sid with
  | None => None
  | Some c =>
      if negb (is_bound (sock c)) then Some (- EINVAL, w)
      else if negb (st_eqb (state (pcb c)) TCP_STATE_CLOSED) then Some (- EINVAL, w)
      else
        match w_install w sid with
        | None => None
        | Some (false, w) => Some (- EADDRINUSE, w)
        | Some (true, w) =>
            returning 0 (on w sid (fun c => c <|p state := TCP_STATE_LISTEN |>
                                              <|p backlog := Z.max log 1 |>))
        end
  end.

(** [tcp_accept]: result, address bytes for the caller, new [*addrlen].  [addr]:
    no address wanted ([None]); wanted, with the capacity given or its pointer
    null.  [fd]: the descriptor the table of descriptors gives.  [here]: the
    child's timer task is on the thread of the worker its tuple selects. *)
Definition tcp_accept (w : world) (sid : Z) (r : req) (addr : option (option Z)) (fd : option Z)
    (here : bool) : option (Z * list Z * option Z * world) :=
  match get w sid with
  | None => None
  | Some c =>
      if negb (st_eqb (state (pcb c)) TCP_STATE_LISTEN) then Some (- EINVAL, [], None, w)
      else if accept_list_num (pcb c) =? 0 then
        if has (file_flags (sock c)) O_NONBLOCK then Some (- EAGAIN, [], None, w)
        else if expired c r REQ_WAITING_ACCEPT then Some (- EAGAIN, [], None, w)
        else Some (REQ_PENDING, [], None,
                   put w sid (wait_for c r REQ_WAITING_ACCEPT (opt_recv_timeout (sock c))
                                (recv_timeout_ms (sock c))))
      else
        match accept_list (pcb c) with
        | [] => None
        | child :: rest =>
            match w_conns w !! child with
            | None => None
            | Some (_, cs) =>
                match addr with
                | Some None => Some (- EFAULT, [], None, w)
                | _ =>
                    let '(bytes, len) :=
                      match addr with
                      | Some (Some n) =>
                          let fam := family (sock c) in
                          let '(b, l) := copy_sockaddr fam
                            (sockaddr_bytes fam (dip cs) (dport cs) (dip_scope cs)) n in
                          (b, Some l)
                      | _ => ([], None)
                      end in
                    match fd with
                    | None => Some (- EMFILE, bytes, len, w)
                    | Some n =>
                        match on w child (fun c => set_socket_worker here
                                (c <|s fd_entry := Some n |> <|p parent_sock := None |>)) with
                        | None => None
                        | Some w =>
                            match on w sid (fun c => c <| pcb ::= unlink_accept child |>
                                    <|p accept_list_num := u32 (accept_list_num (pcb c) - 1) |>) with
                            | None => None
                            | Some w => Some (n, bytes, len, w)
                            end
                        end
                    end
                end
            end
        end
  end.

(** The states in which close waits for the data to be acknowledged. *)
Definition lingers (st : tcp_state) : bool :=
  match st with
  | TCP_STATE_ESTABLISHED | TCP_STATE_CLOSE_WAIT | TCP_STATE_FIN_WAIT_1 | TCP_STATE_CLOSING
  | TCP_STATE_LAST_ACK => true
  | _ => false
  end.

(** [tcp_release] on a connection that lives on: send FIN, or shorten the
    patience with a peer that does not answer. *)
Definition release_orphan (c : conn) : conn :=
  match state (pcb c) with
  | TCP_STATE_ESTABLISHED | TCP_STATE_CLOSE_WAIT =>
      if negb (close_send (sock c)) then tcp_send_fin (c <|s close_send := true |>) else c
  | TCP_STATE_FIN_WAIT_1 | TCP_STATE_CLOSING | TCP_STATE_LAST_ACK =>
      c <|p retries_max := TCP_ORPHAN_RETRIES_DEFAULT |>
  | TCP_STATE_FIN_WAIT_2 =>
      let c := c <|p retries_max := TCP_ORPHAN_RETRIES_DEFAULT |> in
      update_timer c finwait2_deadline (get_current_time_ms c + finwait2_timeout (pcb c)) true
  | _ => c
  end.

Definition linger_wait (c : conn) (r : option req) : Z * conn :=
  match r with
  | Some r =>
      if opt_linger (sock c) && (0 <? linger_seconds (sock c)) && lingers (state (pcb c))
      then (REQ_PENDING, wait_until c r REQ_WAITING_CLOSE
                           (get_current_time_ms c + u32 (linger_seconds (sock c)) * 1000))
      else (0, c)
  | None => (0, c)
  end.

(** [tcp_release] after the owner has let go of the socket. *)
Definition tcp_release (w : world) (sid : Z) (r : option req) : option (Z * world) :=
  match get w sid with
  | None => None
  | Some c =>
      let st := state (pcb c) in
      let waiting := match r with Some r => q_status r =? REQ_WAITING_CLOSE | None => false end in
      if waiting then
        Some (match r with
              | Some r => if expired c r REQ_WAITING_CLOSE then 0 else REQ_PENDING
              | None => 0
              end, w)
      else if opt_linger (sock c) && (linger_seconds (sock c) =? 0)
              && negb (st_eqb st TCP_STATE_CLOSED) && negb (st_eqb st TCP_STATE_LISTEN)
              && negb (st_eqb st TCP_STATE_TIME_WAIT) then
        match on w sid (fun c =>
                let c := match route (sock c) with
                         | Some _ => snd (tcp_send_flag c (snd_nxt (pcb c)) (rcv_nxt (pcb c))
                                            (Z.lor TCP_FLAG_RST TCP_FLAG_ACK))
                         | None => c
                         end in
                c <|p state := TCP_STATE_CLOSED |>) with
        | None => None
        | Some w => returning 0 (destroy w sid)
        end
      else
        match st with
        | TCP_STATE_CLOSED | TCP_STATE_SYN_SENT | TCP_STATE_SYN_RECEIVED | TCP_STATE_LISTEN =>
            match on w sid (fun c => c <|p state := TCP_STATE_CLOSED |>) with
            | None => None
            | Some w => returning 0 (destroy w sid)
            end
        | _ => on_ret w sid (fun c => linger_wait (release_orphan c) r)
        end
  end.

(** [_close] on a TCP socket: detach from the descriptor, then release. *)
Definition tcp_close (w : world) (sid : Z) (r : option req) : option (Z * world) :=
  let again := match r with Some r => q_status r =? REQ_WAITING_CLOSE | None => false end in
  match (if again then Some w else on w sid socket_detach) with
  | None => None
  | Some w => tcp_release w sid r
  end.

(** [tcp_icmp_process]; [quoted]: the sequence number the message quotes. *)
Definition tcp_icmp_process (w : world) (sid : Z) (quoted : option Z) (err : Z) : option world :=
  match get w sid with
  | None => None
  | Some c =>
      if negb (is_bound (sock c)) || negb (is_connected (sock c)) then Some w
      else if match quoted with
              | Some seq => negb (SEQ_LEQ (snd_una (pcb c)) seq && SEQ_LT seq (snd_nxt (pcb c)))
              | None => false
              end then Some w
      else
        let w := put w sid (c <|s error := err |>) in
        match state (pcb c) with
        | TCP_STATE_SYN_SENT | TCP_STATE_SYN_RECEIVED | TCP_STATE_CLOSING | TCP_STATE_LAST_ACK
        | TCP_STATE_TIME_WAIT => destroy w sid
        | TCP_STATE_ESTABLISHED | TCP_STATE_CLOSE_WAIT | TCP_STATE_FIN_WAIT_1
        | TCP_STATE_FIN_WAIT_2 => on w sid (fun c => notify_event c notify_err)
        | _ => Some w
        end
  end.

(** *** Binding and active open *)

(** The address argument of bind and connect: its length, family, address, port
    (as stored) and scope. *)
Record sockaddr := mk_sockaddr {
  sa_len : Z; sa_family : Z; sa_addr : list Z; sa_port : Z; sa_scope : Z
}.

(** What these calls ask of the interface table and of receive-side scaling:
    whether an address is local ([search_addr_exist]), the source address for a
    destination on a route's interface ([if_search_best_saddr_by_daddr]) and for
    a destination and scope ([search_best_saddr_by_daddr]), and whether a tuple
    belongs to the current worker ([select_worker_by_tuple]). *)
Context (addr_exists : list Z -> Z -> bool)
        (if_best_saddr : route_info -> list Z -> option (list Z))
        (best_saddr : list Z -> Z -> option (list Z))
        (mine : list Z -> list Z -> Z -> Z -> bool).

Definition EPHEMERAL_PORT_FIRST : Z := 1024.
Definition EPHEMERAL_PORT_COUNT : Z := 65536 - EPHEMERAL_PORT_FIRST.

(** The search of [socket_auto_bind] for a free port, from round [i] on. *)
Fixpoint try_ports (n : nat) (w : world) (sid : Z) (key : addr_key) (reuse : bool)
    (peer : option (list Z * Z)) (first i : Z) : option (bool * world) :=
  match n with
  | O => Some (false, w)
  | S n' =>
      let key := mk_key (ak_addr key)
                   (htons (EPHEMERAL_PORT_FIRST + (first + i) mod EPHEMERAL_PORT_COUNT))
                   (ak_family key) (ak_scope key) in
      let next w := try_ports n' w sid key reuse peer first (i + 1) in
      if match peer with
         | Some (dest_ip, dest_port) => negb (mine (ak_addr key) dest_ip (ak_port key) dest_port)
         | None => false
         end then next w
      else
        match w_reserve w sid key reuse with
        | None => None
        | Some (true, w) => Some (true, w)
        | Some (false, w) => next w
        end
  end.

Definition search_port (w : world) (sid : Z) (key : addr_key) (reuse : bool)
    (peer : option (list Z * Z)) : option (Z * world) :=
  match try_ports (Z.to_nat EPHEMERAL_PORT_COUNT) w sid key reuse peer
          (now (w_env w) mod EPHEMERAL_PORT_COUNT) 0 with
  | None => None
  | Some (true, w) => Some (0, w)
  | Some (false, w) => Some (- EADDRINUSE, w)
  end.

(** [socket_auto_bind] with a local address and no port. *)
Definition auto_bind_local (w : world) (sid : Z) (key : addr_key) : option (Z * world) :=
  match w_conns w !! sid with
  | None => None
  | Some (_, s) =>
      if bool_decide (is_Some (w_reserved w !! sid)) || negb (ak_port key =? 0)
         || negb (ak_family key =? family s)
      then Some (- EINVAL, w) else search_port w sid key false None
  end.

(** [socket_auto_bind] for a destination. *)
Definition auto_bind_peer (w : world) (sid : Z) (dest_ip : list Z) (dest_port scope : Z)
    : option (Z * world) :=
  if bool_decide (is_Some (w_reserved w !! sid)) then Some (- EINVAL, w)
  else
    match on_ret w sid set_socket_route with
    | None => None
    | Some (r, w) =>
        if r <? 0 then Some (- EHOSTUNREACH, w)
        else
          match w_conns w !! sid with
          | None => None
          | Some (_, s) =>
          match route s with
          | None => None
          | Some rt =>
          match if_best_saddr rt dest_ip with
          | None => Some (- EADDRNOTAVAIL, w)
          | Some saddr =>
              match search_port w sid (mk_key saddr 0 (family s) scope)
                      (opt_reuseaddr s || opt_reuseport s) (Some (dest_ip, dest_port)) with
              | Some (0, w) =>
                  returning 0 (on w sid (fun c =>
                    if is_v6 (sock c) then
                      c <|s sip_scope := if negb (scope =? 0) then scope else r_ifindex rt |>
                    else c))
              | x => x
              end
          end
          end
          end
    end.

Definition is_any (addr : list Z) : bool := forallb (fun b => b =? 0) addr.

Definition is_linklocal (addr : list Z) : bool :=
  match addr with a :: b :: _ => (a =? 0xfe) && (Z.land b 0xc0 =? 0x80) | _ => false end.

Definition socket_bind_local (w : world) (sid : Z) (addr : option sockaddr) : option (Z * world) :=
  match w_conns w !! sid, addr with
  | None, _ => None
  | Some _, None => Some (- EFAULT, w)
  | Some (_, s), Some a =>
      let v6 := is_v6 s in
      let scope := if v6 then sa_scope a else 0 in
      if is_bound s then Some (- EINVAL, w)
      else if sa_len a <? (if v6 then 28 else 16) then Some (- EINVAL, w)
      else if negb (sa_family a =? family s) then Some (- EAFNOSUPPORT, w)
      else if v6 && is_linklocal (sa_addr a) && (scope =? 0) then Some (- EINVAL, w)
      else if negb (is_any (sa_addr a)) && negb (addr_exists (sa_addr a) scope)
      then Some (- EADDRNOTAVAIL, w)
      else
        let key := mk_key (sa_addr a) (sa_port a) (family s) scope in
        if sa_port a =? 0 then auto_bind_local w sid key
        else
          match bind_saddr w sid key with
          | None => None
          | Some (true, w) => Some (0, w)
          | Some (false, w) => Some (- EADDRINUSE, w)
          end
  end.

Definition tcp_bind (w : world) (sid : Z) (addr : option sockaddr) : option (Z * world) :=
  match get w sid with
  | None => None
  | Some c => if negb (st_eqb (state (pcb c)) TCP_STATE_CLOSED) then Some (- EINVAL, w)
              else socket_bind_local w sid addr
  end.

(** [tcp_abort_connect]. *)
Definition tcp_abort_connect (w : world) (sid : Z) : option world :=
  match w_conns w !! sid with
  | None => None
  | Some (_, s) =>
      match (if is_hash s then w_uninstall w sid else Some w) with
      | None => None
      | Some w =>
          on w sid (fun c =>
            c <|p retransmit_queue := [] |> <|p snd_nxt := snd_una (pcb c) |>
              <|p snd_end := snd_una (pcb c) |>
              <|s dip := replicate (addr_len (is_v6 (sock c))) 0 |> <|s dip_scope := 0 |>
              <|s dport := 0 |> <|s is_connected := false |>)
      end
  end.

(** The end of [tcp_connect]: an error closes the attempt. *)
Definition connect_exit (w : world) (sid : Z) (ret : Z) : option (Z * world) :=
  if (ret <? 0) && negb (ret =? REQ_PENDING) then
    match on w sid (fun c => c <|p state := TCP_STATE_CLOSED |>) with
    | None => None
    | Some w => returning ret (tcp_abort_connect w sid)
    end
  else Some (ret, w).

(** Label [retry] of [tcp_connect]. *)
Definition connect_retry (w : world) (sid : Z) (r : req) : option (Z * world) :=
  match get w sid with
  | None => None
  | Some c =>
      if negb (error (sock c) =? 0) then
        match on w sid (fun c => c <|s error := 0 |>) with
        | None => None
        | Some w => connect_exit w sid (- error (sock c))
        end
      else
        let is_expired := match q_timeout r with Some t => t <=? get_current_time_ms c
                                               | None => false end in
        connect_exit w sid
          match state (pcb c) with
          | TCP_STATE_ESTABLISHED | TCP_STATE_CLOSE_WAIT => 0
          | TCP_STATE_SYN_SENT | TCP_STATE_SYN_RECEIVED =>
              if is_expired then - ETIMEDOUT else REQ_PENDING
          | _ => - ECONNREFUSED
          end
  end.

(** The source address of [tcp_connect]: bind automatically, or replace the
    wildcard address the socket is bound to. *)
Definition connect_bind (w : world) (sid : Z) (a : sockaddr) : option (Z * world) :=
  match w_conns w !! sid with
  | None => None
  | Some (_, s) =>
      if negb (is_bound s) then
        match auto_bind_peer w sid (sa_addr a) (sa_port a) (if is_v6 s then sa_scope a else 0) with
        | None => None
        | Some (r, w) => Some (if r <? 0 then - EADDRNOTAVAIL else 0, w)
        end
      else if is_any (sip s) then
        match best_saddr (sa_addr a) (if is_v6 s then sa_scope a else 0) with
        | None => Some (- EADDRNOTAVAIL, w)
        | Some saddr =>
            let port := sport s in
            let old_key := mk_key (replicate (addr_len (is_v6 s)) 0) port (family s) (sip_scope s) in
            match unbind_saddr w sid with
            | None => None
            | Some w =>
                match bind_saddr w sid (mk_key saddr port (family s) 0) with
                | None => None
                | Some (true, w) => Some (0, w)
                | Some (false, w) =>
                    match bind_saddr w sid old_key with
                    | None => None
                    | Some (_, w) => Some (- EADDRNOTAVAIL, w)
                    end
                end
            end
        end
      else Some (0, w)
  end.

(** SYN goes out and the caller waits. *)
Definition connect_start (w : world) (sid : Z) (r : req) : option (Z * world) :=
  match w_install w sid with
  | None => None
  | Some (false, w) => connect_exit w sid (- EADDRINUSE)
  | Some (true, w) =>
      match on_ret w sid (fun c =>
              let c := c <|p state := TCP_STATE_SYN_SENT |> in
              tcp_send_flag c (snd_nxt (pcb c)) 0 TCP_FLAG_SYN) with
      | None => None
      | Some (ret, w) =>
          if ret <? 0 then
            match on w sid (fun c => c <|p state := TCP_STATE_CLOSED |>) with
            | None => None
            | Some w => connect_exit w sid (if ret =? - ENOMEM then - ENOMEM else - ENETUNREACH)
            end
          else
            match on w sid (fun c => c <|s is_connected := true |>) with
            | None => None
            | Some w =>
            match get w sid with
            | None => None
            | Some c =>
            if negb (st_eqb (state (pcb c)) TCP_STATE_SYN_SENT) then connect_retry w sid r
            else on_ret w sid (fun c =>
              if has (file_flags (sock c)) O_NONBLOCK then (- EINPROGRESS, c)
              else (REQ_PENDING, wait_for c r REQ_WAITING_CONNECT (opt_send_timeout (sock c))
                                   (send_timeout_ms (sock c))))
            end
            end
      end
  end.

(** [tcp_connect]. A tuple of another worker moves the socket and its request
    there; that worker runs the call again from the start. *)
Definition tcp_connect (w : world) (sid : Z) (r : req) (addr : option sockaddr) : option (Z * world) :=
  match get w sid with
  | None => None
  | Some c =>
      let st := state (pcb c) in
      let v6 := is_v6 (sock c) in
      if q_status r =? REQ_WAITING_CONNECT then connect_retry w sid r
      else
        match addr with
        | None => Some (- EFAULT, w)
        | Some a =>
            if sa_len a <? (if v6 then 28 else 16) then Some (- EINVAL, w)
            else if negb (sa_family a =? family (sock c)) then Some (- EAFNOSUPPORT, w)
            else if st_eqb st TCP_STATE_SYN_SENT || st_eqb st TCP_STATE_SYN_RECEIVED
            then Some (- EALREADY, w)
            else if is_connected (sock c) then Some (- EISCONN, w)
            else if negb (st_eqb st TCP_STATE_CLOSED) then Some (- EINVAL, w)
            else
              match on_ret w sid set_tcp_socket_route with
              | None => None
              | Some (ret, w) =>
                  if ret <? 0 then connect_exit w sid (- EHOSTUNREACH)
                  else
                    match connect_bind w sid a with
                    | None => None
                    | Some (ret, w) =>
                        if ret <? 0 then connect_exit w sid ret
                        else
                          match on w sid (fun c =>
                                  c <|s dip := sa_addr a |> <|s dport := sa_port a |>
                                    <|s dip_scope := if v6 then sa_scope a else dip_scope (sock c) |>) with
                          | None => None
                          | Some w =>
                              match w_conns w !! sid with
                              | None => None
                              | Some (_, s) =>
                                  if negb (mine (sip s) (dip s) (sport s) (sa_port a))
                                  then returning REQ_PENDING (on w sid (set_socket_worker false))
                                  else connect_start w sid r
                              end
                          end
                    end
              end
        end
  end.

(** *** The other entry points *)

(** [_socket] for a TCP socket: the descriptor or an error.  [fd]: what the
    table of descriptors gives. *)
Definition tcp_socket (w : world) (fam : Z) (fd : option Z) : option (Z * world) :=
  if negb ((fam =? AF_INET) || (fam =? AF_INET6)) then Some (- EAFNOSUPPORT, w)
  else
    match create_socket w fam with
    | (None, w) => Some (- ENOMEM, w)
    | (Some sid, w) =>
        match fd with
        | None =>
            match tcp_release w sid None with
            | Some (_, w) => Some (- EMFILE, w)
            | None => None
            end
        | Some n => returning n (on w sid (fun c => set_socket_worker false (c <|s fd_entry := Some n |>)))
        end
    end.

(** [icmp_deliver_error] for a quoted TCP segment. *)
Definition icmp_deliver_error (w : world) (v6 : bool) (src_ip : list Z) (src_port : Z)
    (dst_ip : list Z) (dst_port : Z) (quoted : option Z) (err : Z) : option world :=
  match search_socket_by_tuple (w_tuples w v6) src_ip src_port dst_ip dst_port with
  | None => Some w
  | Some sid => tcp_icmp_process w sid quoted err
  end.

(** *** Everything that can happen *)

Inductive event :=
  | ESocket (fam : Z) (fd : option Z)
  | EBind (sid : Z) (addr : option sockaddr)
  | EConnect (sid : Z) (r : req) (addr : option sockaddr)
  | EListen (sid : Z) (log : Z)
  | EAccept (sid : Z) (r : req) (addr : option (option Z)) (fd : option Z) (here : bool)
  | EWrite (sid : Z) (r : req) (buf : option (list Z)) (len : Z)
  | ERead (sid : Z) (r : req) (len : Z)
  | EShutdown (sid : Z) (how : Z)
  | EClose (sid : Z) (r : option req)
  | ESegment (v6 : bool) (sg : seg)
  | ETimer (sid : Z)
  | EIcmp (v6 : bool) (src_ip : list Z) (src_port : Z) (dst_ip : list Z) (dst_port : Z)
          (quoted : option Z) (err : Z)
  | EEnv (e : env).       (* time passes, memory and routes change *)

Definition drop_ret {A} (r : option (A * world)) : option world :=
  match r with Some (_, w) => Some w | None => None end.

Definition world_step (w : world) (ev : event) : option world :=
  match ev with
  | ESocket fam fd => drop_ret (tcp_socket w fam fd)
  | EBind sid addr => drop_ret (tcp_bind w sid addr)
  | EConnect sid r addr => drop_ret (tcp_connect w sid r addr)
  | EListen sid log => drop_ret (tcp_listen w sid log)
  | EAccept sid r addr fd here => drop_ret (tcp_accept w sid r addr fd here)
  | EWrite sid r buf len =>
      match get w sid with
      | None => None
      | Some c => match tcp_write c r buf len with
                  | Some (_, c) => Some (put w sid c)
                  | None => None
                  end
      end
  | ERead sid r len => on w sid (fun c => snd (tcp_read c r len))
  | EShutdown sid how => on w sid (fun c => snd (tcp_shutdown c how))
  | EClose sid r => drop_ret (tcp_close w sid r)
  | ESegment v6 sg => drop_ret (tcp_recv w v6 sg)
  | ETimer sid => tcp_timer_cb w sid
  | EIcmp v6 src_ip src_port dst_ip dst_port quoted err =>
      icmp_deliver_error w v6 src_ip src_port dst_ip dst_port quoted err
  | EEnv e => Some (set_env w e)
  end.
End world.
