(* ===== verification/TcpPlace.v ===== *)
(** Where a connection stands among the others, and what the handlers of one
    connection may do to it.

    A [spot] is what the other objects of the stack know of a connection: its
    listener or its own queues of new connections, its addresses and flags, the
    protocol state, and the data that waits to be sent.  Every handler of one
    connection leaves all of it alone except the state, which it moves along the
    edges of the protocol's state diagram ([tcp_edge]), and the send queue. *)

From stdpp Require Import prelude list.
From Stdlib Require Import ZArith Lia.
From S2P Require Import Prelude TcpDefs TcpSeq TcpMetrics TcpTimer TcpWindow TcpCongestion.
From S2P Require Import TcpOptions TcpOutput TcpSendInv TcpRecv TcpInput TcpFrame TcpApi TcpWorld.

Record spot := mk_spot {
  p_parent : option Z; p_syn : list Z; p_syn_num : Z; p_acc : list Z; p_acc_num : Z;
  p_backlog : Z; p_fd : option Z; p_hash : bool; p_bound : bool;
  p_family : Z; p_sip : list Z; p_sport : Z; p_dip : list Z; p_dport : Z; p_reuseport : bool;
  p_state : tcp_state; p_queue : list tskb
}.

Definition spot_at (p : tcp_pcb) (s : Socket) : spot :=
  mk_spot (parent_sock p) (syn_list p) (syn_list_num p) (accept_list p) (accept_list_num p)
    (backlog p) (fd_entry s) (is_hash s) (is_bound s)
    (family s) (sip s) (sport s) (dip s) (dport s) (opt_reuseport s) (state p) (send_queue s).

Definition spot_of (c : conn) : spot := spot_at (pcb c) (sock c).

(** The same spot in another state and with another queue. *)
Definition moved_to (x : spot) (st : tcp_state) (q : list tskb) : spot :=
  mk_spot (p_parent x) (p_syn x) (p_syn_num x) (p_acc x) (p_acc_num x) (p_backlog x) (p_fd x)
    (p_hash x) (p_bound x) (p_family x) (p_sip x) (p_sport x) (p_dip x) (p_dport x)
    (p_reuseport x) st q.

(** The state diagram of RFC 9293: what a segment, a sent FIN and a call do.
    Every state may fall back to CLOSED. *)
Inductive input_edge : tcp_state -> tcp_state -> Prop :=
  | ie_established : input_edge TCP_STATE_SYN_RECEIVED TCP_STATE_ESTABLISHED
  | ie_fin_acked : input_edge TCP_STATE_FIN_WAIT_1 TCP_STATE_FIN_WAIT_2
  | ie_closing_acked : input_edge TCP_STATE_CLOSING TCP_STATE_TIME_WAIT
  | ie_peer_fin : input_edge TCP_STATE_ESTABLISHED TCP_STATE_CLOSE_WAIT
  | ie_both : input_edge TCP_STATE_FIN_WAIT_1 TCP_STATE_CLOSING
  | ie_both_acked : input_edge TCP_STATE_FIN_WAIT_1 TCP_STATE_TIME_WAIT
  | ie_fin2 : input_edge TCP_STATE_FIN_WAIT_2 TCP_STATE_TIME_WAIT.

Inductive fin_edge : tcp_state -> tcp_state -> Prop :=
  | fe_opening : fin_edge TCP_STATE_SYN_RECEIVED TCP_STATE_FIN_WAIT_1
  | fe_active : fin_edge TCP_STATE_ESTABLISHED TCP_STATE_FIN_WAIT_1
  | fe_passive : fin_edge TCP_STATE_CLOSE_WAIT TCP_STATE_LAST_ACK.

(** What a handler did: only state, along [E], and queue may have changed ... *)
Definition moves (E : relation tcp_state) (c c' : conn) : Prop :=
  exists st q, spot_of c' = moved_to (spot_of c) st q /\ rtc E (state (pcb c)) st /\
               (send_queue (sock c) = [] -> q = [] /\ st = state (pcb c)).

(** ... or not even the queue. *)
Definition steps (E : relation tcp_state) (c c' : conn) : Prop :=
  exists st, spot_of c' = moved_to (spot_of c) st (send_queue (sock c)) /\
             rtc E (state (pcb c)) st.

(** *** Frames *)

Lemma spot_untimed c c' : untimed c = untimed c' -> spot_of c = spot_of c'.
Proof. intros H. exact (f_equal spot_of H). Qed.

#[export] Instance spot_output_frame : OutputFrame spot_of.
Proof.
  split; intros; try done.
  - apply spot_untimed, untimed_update_timer.
  - unfold tcp_congestion_mss_changed, tcp_congestion_init, spot_of, spot_at. rsimpl.
    destruct (state (pcb c)) eqn:E; rsimpl; rewrite ?E; done.
  - rewrite make_tcp_options_pcb. by case_if.
Qed.

#[export] Instance spot_fault_frame : FaultFrame spot_of.
Proof. done. Qed.

#[export] Instance spot_window_frame : WindowFrame spot_of.
Proof. split; intros; try done. apply _. Qed.

#[export] Instance spot_queue_frame : QueueFrame spot_of.
Proof. split; intros; try done; apply _. Qed.

Lemma spot_state c c' : spot_of c' = spot_of c -> state (pcb c') = state (pcb c).
Proof. intros H. exact (f_equal p_state H). Qed.
Lemma spot_send_queue c c' : spot_of c' = spot_of c -> send_queue (sock c') = send_queue (sock c).
Proof. intros H. exact (f_equal p_queue H). Qed.
Lemma spot_parent c c' : spot_of c' = spot_of c -> parent_sock (pcb c') = parent_sock (pcb c).
Proof. intros H. exact (f_equal p_parent H). Qed.

Lemma steps_same E c c' : spot_of c' = spot_of c -> steps E c c'.
Proof. intros H. exists (state (pcb c)). split; [|apply rtc_refl]. rewrite H. done. Qed.

Lemma steps_trans E c1 c2 c3 : steps E c1 c2 -> steps E c2 c3 -> steps E c1 c3.
Proof.
  intros (s1&H1&R1) (s2&H2&R2). exists s2.
  rewrite (f_equal p_state H1 : state (pcb c2) = s1) in R2. split; [|by etrans].
  rewrite H2, H1. by rewrite (f_equal p_queue H1 : send_queue (sock c2) = _).
Qed.

Lemma steps_after E c1 c2 c3 : spot_of c2 = spot_of c1 -> steps E c2 c3 -> steps E c1 c3.
Proof. intros H. apply steps_trans. by apply steps_same. Qed.

Lemma steps_one (E : relation tcp_state) c c' st :
  spot_of c' = moved_to (spot_of c) st (send_queue (sock c)) -> E (state (pcb c)) st -> steps E c c'.
Proof. intros H He. exists st. split; [done|]. by apply rtc_once. Qed.

Lemma moves_same E c c' : spot_of c' = spot_of c -> moves E c c'.
Proof.
  intros H. exists (state (pcb c)), (send_queue (sock c)). rewrite H. by split_and!; [|apply rtc_refl|].
Qed.

Lemma moves_trans E c1 c2 c3 : moves E c1 c2 -> moves E c2 c3 -> moves E c1 c3.
Proof.
  intros (s1&q1&H1&R1&I1) (s2&q2&H2&R2&I2). exists s2, q2.
  rewrite (f_equal p_state H1 : state (pcb c2) = s1) in *.
  rewrite (f_equal p_queue H1 : send_queue (sock c2) = q1) in *.
  split_and!; [by rewrite H2, H1|by etrans|]. intros Hq.
  destruct (I1 Hq) as [-> ->]. by apply I2.
Qed.

Lemma moves_after E c1 c2 c3 : spot_of c2 = spot_of c1 -> moves E c2 c3 -> moves E c1 c3.
Proof. intros H. apply moves_trans. by apply moves_same. Qed.

Lemma moves_before E c1 c2 c3 : moves E c1 c2 -> spot_of c3 = spot_of c2 -> moves E c1 c3.
Proof. intros H1 H2. eapply moves_trans; [done|]. by apply moves_same. Qed.

(** A handler that begins with data to send. *)
Lemma moves_busy (E : relation tcp_state) c c' st q :
  spot_of c' = moved_to (spot_of c) st q -> rtc E (state (pcb c)) st ->
  send_queue (sock c) <> [] -> moves E c c'.
Proof. intros H1 H2 H3. exists st, q. by split_and!. Qed.

(** *** Output *)

Lemma spot_send_flag c seq ack flag : spot_of (snd (tcp_send_flag c seq ack flag)) = spot_of c.
Proof.
  unfold tcp_send_flag. pose proof (f_deref spot_of (route (sock c)) c) as H0.
  revert H0. generalize (deref (route (sock c)) c). intros c0 H0.
  pose proof (f_alloc spot_of c0) as H1. destruct (alloc c0) as [ok c1]. cbn [snd] in H1.
  rewrite H0 in H1. clear H0. case_if; [done|].
  match goal with |- context [let '(_, _) := ?r in _] =>
    assert (H2 : spot_of (snd r) = spot_of c) end.
  { case_if; [|done].
    match goal with |- context [alloc ?x] =>
      pose proof (f_alloc spot_of x) as H2; destruct (alloc x) as [ok' c2] end.
    cbn [snd] in H2. case_if; cbn [snd]; [done|]. rewrite of_timer.
    etransitivity; [exact H2|exact H1]. }
  match goal with |- context [let '(_, _) := ?r in _] => destruct r as [ready c2] end.
  cbn [snd] in H2. case_if; [done|].
  pose proof (f_emit spot_of c2 seq ack flag []) as H3.
  destruct (emit c2 seq ack flag []) as [ret c3]. cbn [snd] in H3.
  case_if; cbn [snd]; rewrite ?of_timer, ?of_ack_pending; congruence.
Qed.

Lemma spot_retransmit_enqueue c skb : spot_of (tcp_retransmit_enqueue c skb) = spot_of c.
Proof.
  unfold tcp_retransmit_enqueue. case_if; [done|]. destruct (last _); [|done]. case_if; [|done].
  pose proof (f_alloc spot_of c) as H. destruct (alloc c) as [[] c1]; cbn [snd] in H;
    by rewrite qf_rtx.
Qed.

Lemma moved_to_moved x st q st' q' : moved_to (moved_to x st q) st' q' = moved_to x st' q'.
Proof. done. Qed.

Lemma spot_set_queue c q :
  spot_of (c <|s send_queue := q |>) = moved_to (spot_of c) (state (pcb c)) q.
Proof. done. Qed.

Lemma spot_set_state c st :
  spot_of (c <|p state := st |>) = moved_to (spot_of c) st (send_queue (sock c)).
Proof. done. Qed.

Lemma spot_moved_same c : moved_to (spot_of c) (state (pcb c)) (send_queue (sock c)) = spot_of c.
Proof. done. Qed.

(** Being moved only in queue. *)
Lemma moved_queue c c' q :
  spot_of c' = spot_of c ->
  spot_of (c' <|s send_queue := q |>) = moved_to (spot_of c) (state (pcb c)) q.
Proof. intros H. rewrite spot_set_queue, H. by rewrite (spot_state _ _ H). Qed.

Lemma split_unsent_spot c skb rest n m fin :
  exists q, spot_of (snd (split_unsent c skb rest n m fin)) = moved_to (spot_of c) (state (pcb c)) q.
Proof.
  unfold split_unsent. case_if; [|by exists (send_queue (sock c))].
  set (c0 := if n <? skb_data_len skb then c else _).
  assert (H0 : spot_of c0 = spot_of c) by (subst c0; case_if; [done|]; apply (f_deref spot_of)).
  clearbody c0. pose proof (f_alloc spot_of c0) as H1. destruct (alloc c0) as [ok c1].
  cbn [snd] in H1. rewrite H0 in H1. case_if; cbn [snd].
  - exists (send_queue (sock c)). by rewrite H1.
  - eexists. apply moved_queue, H1.
Qed.

Lemma commit_fin_spot c :
  exists st, spot_of (tcp_commit_fin_send c) = moved_to (spot_of c) st (send_queue (sock c)) /\
             rtc fin_edge (state (pcb c)) st.
Proof.
  unfold tcp_commit_fin_send.
  destruct (state (pcb c)) eqn:E;
    try (eexists; split; [apply spot_set_state|apply rtc_once; constructor]);
    exists (state (pcb c)); rewrite E; (split; [by rewrite <- E|apply rtc_refl]).
Qed.

Lemma xmit_new_skb_moves c budget push : moves fin_edge c (snd (tcp_xmit_new_skb c budget push)).
Proof.
  unfold tcp_xmit_new_skb. destruct (send_queue (sock c)) as [|skb rest] eqn:Eq.
  { by apply moves_same. }
  set (n := Z.min _ _). set (fin := _ && _). set (m := u32 _). clearbody n fin m.
  destruct (split_unsent_spot c skb rest n m fin) as [q Hq].
  destruct (split_unsent c skb rest n m fin) as [[skb'|] c1]; cbn [snd] in Hq.
  2: { eapply moves_busy; [|apply rtc_refl|by rewrite Eq]. cbn [snd].
       rewrite (f_nagle_retry spot_of). exact Hq. }
  pose proof (f_xmit_segment spot_of c1 skb' m push) as Hx.
  destruct (tcp_xmit_segment c1 skb' m push) as [ret c2]. cbn [snd] in Hx. rewrite Hq in Hx.
  clear Hq. case_if; cbn [snd].
  { eapply moves_busy; [|apply rtc_refl|by rewrite Eq]. rewrite (f_nagle_retry spot_of). exact Hx. }
  set (c3 := update_timer _ _ _ _).
  assert (H3 : spot_of c3 = spot_of c2) by (subst c3; by rewrite of_timer).
  clearbody c3. rewrite Hx in H3. clear Hx.
  set (c4 := if fin then _ else c3).
  assert (H4 : exists st q', spot_of c4 = moved_to (spot_of c) st q' /\ rtc fin_edge (state (pcb c)) st).
  { subst c4. destruct fin; [|exists (state (pcb c)), q; split; [done|apply rtc_refl]].
    destruct (commit_fin_spot c3) as (st&H4&R). exists st, (send_queue (sock c3)).
    rewrite (f_equal p_state H3 : state (pcb c3) = _) in R. rewrite H4, H3. done. }
  clearbody c4. destruct H4 as (st&q'&H4&R).
  match goal with |- moves _ _ (tcp_retransmit_enqueue (?x <|s send_queue := ?t |>) _) =>
    assert (H5 : spot_of x = spot_of c4) by (case_if; done); generalize t; revert H5; generalize x end.
  intros c5 H5 t. eapply (moves_busy _ _ _ st t); [|done|by rewrite Eq].
  rewrite spot_retransmit_enqueue, spot_set_queue, (spot_state _ _ H5), H5, H4.
  by rewrite (f_equal p_state H4 : state (pcb c4) = st).
Qed.

Lemma write_xmit_loop_moves burst c flush ret :
  moves fin_edge c (snd (tcp_write_xmit_loop burst c flush ret)).
Proof.
  revert c ret. induction burst as [|burst IH]; intros c ret; cbn [tcp_write_xmit_loop];
    [by apply moves_same|].
  destruct (send_queue (sock c)) as [|skb l] eqn:Eq; [by apply moves_same|]. cbn zeta.
  case_if; [apply moves_same; apply (f_arm_persist spot_of)|].
  case_if; [apply moves_same; apply of_timer|].
  match goal with |- context [tcp_xmit_new_skb c ?b ?p] =>
    pose proof (xmit_new_skb_moves c b p) as H; destruct (tcp_xmit_new_skb c b p) as [r c1] end.
  cbn [snd] in H. case_if; [done|]. case_if.
  - eapply moves_before; [exact H|]. cbn [snd]. case_if; [apply of_timer|done].
  - eapply moves_trans; [exact H|apply IH].
Qed.

Lemma write_xmit_moves c flush : moves fin_edge c (snd (tcp_write_xmit c flush)).
Proof. apply write_xmit_loop_moves. Qed.

Lemma send_probe_moves c : moves fin_edge c (snd (tcp_send_probe c)).
Proof.
  unfold tcp_send_probe. destruct (retransmit_queue (pcb c)).
  - destruct (send_queue (sock c)); [by apply moves_same|apply xmit_new_skb_moves].
  - apply moves_same, (f_retransmit_skb spot_of).
Qed.

(** The handlers that may put something into an empty queue. *)
Definition shifts (E : relation tcp_state) (c c' : conn) : Prop :=
  exists st q, spot_of c' = moved_to (spot_of c) st q /\ rtc E (state (pcb c)) st.

Lemma moves_shifts E c c' : moves E c c' -> shifts E c c'.
Proof. intros (st&q&?&?&_). by exists st, q. Qed.

Lemma steps_shifts E c c' : steps E c c' -> shifts E c c'.
Proof. intros (st&?&?). by exists st, (send_queue (sock c)). Qed.

Lemma shifts_same E c c' : spot_of c' = spot_of c -> shifts E c c'.
Proof. intros H. by apply moves_shifts, moves_same. Qed.

Lemma shifts_trans E c1 c2 c3 : shifts E c1 c2 -> shifts E c2 c3 -> shifts E c1 c3.
Proof.
  intros (s1&q1&H1&R1) (s2&q2&H2&R2). exists s2, q2.
  rewrite (f_equal p_state H1 : state (pcb c2) = s1) in *. split; [by rewrite H2, H1|by etrans].
Qed.

Lemma shifts_before E c1 c2 c3 : shifts E c1 c2 -> spot_of c3 = spot_of c2 -> shifts E c1 c3.
Proof. intros H1 H2. eapply shifts_trans; [done|by apply shifts_same]. Qed.

Lemma shifts_queue E c c' q : spot_of c' = spot_of c -> shifts E c (c' <|s send_queue := q |>).
Proof. intros H. exists (state (pcb c)), q. split; [by apply moved_queue|apply rtc_refl]. Qed.

Lemma send_fin_shifts E c : shifts E c (tcp_send_fin c).
Proof.
  unfold tcp_send_fin.
  match goal with |- context [let '(_, _) := ?r in _] => assert (H : shifts E c (snd r)) end.
  { destruct (last _); [by apply shifts_same|].
    pose proof (f_deref spot_of (route (sock c)) c) as H0. revert H0.
    generalize (deref (route (sock c)) c). intros c0 H0.
    pose proof (f_alloc spot_of c0) as H1. destruct (alloc c0) as [ok c1]. cbn [snd] in *.
    rewrite H0 in H1. destruct ok; [by apply shifts_queue|by apply shifts_same]. }
  match goal with |- context [let '(_, _) := ?r in _] => destruct r as [ready c1] end.
  cbn [snd] in H. case_if; [done|]. cbn zeta.
  eapply shifts_before; [|apply of_timer]. eapply shifts_trans; [exact H|].
  destruct (last _) as [l|]; [|by apply shifts_same].
  match goal with |- shifts _ _ (?x <|p snd_end := _ |>) => apply (shifts_before _ _ x); [|done] end.
  by apply shifts_queue.
Qed.

(** *** Options *)

(** Two control blocks at the same spot. *)
Definition pcb_spot (p : tcp_pcb) :=
  (parent_sock p, (syn_list p, syn_list_num p), (accept_list p, accept_list_num p), backlog p, state p).

Lemma spot_pcb c p : pcb_spot p = pcb_spot (pcb c) -> spot_of (c <| pcb := p |>) = spot_of c.
Proof. intros [=]. unfold spot_of, spot_at. rsimpl. congruence. Qed.

Lemma pcb_spot_option x p i kind len r :
  parse_option x p i kind len = Some r ->
  pcb_spot (match r with inl q | inr q => q end) = pcb_spot p.
Proof.
  unfold parse_option. intros H.
  repeat case_match; simplify_eq; try done.
Qed.

Lemma pcb_spot_loop fuel x p i r :
  parse_loop fuel x p i = Some r -> pcb_spot (match r with inl q | inr q => q end) = pcb_spot p.
Proof.
  revert p i. induction fuel as [|fuel IH]; intros p i; cbn [parse_loop]; [done|].
  intros H. repeat case_match; simplify_eq; try done.
  all: repeat match goal with
    | Ho : parse_option _ _ _ _ _ = _ |- _ => apply pcb_spot_option in Ho; rewrite <- Ho; clear Ho
    end.
  all: first [done|by eapply IH].
Qed.

Lemma spot_options_rejected c s : spot_of (snd (options_rejected c s)) = spot_of c.
Proof.
  unfold options_rejected, parse_tcp_options.
  destruct (parse_loop _ _ _ _) as [[p|p]|] eqn:E; [| |done];
    apply pcb_spot_loop in E; cbn [snd].
  - case_if; [|by apply spot_pcb].
    change (c <| pcb := tcp_congestion_mss_changed p |>)
      with ((c <| pcb := p |>) <| pcb ::= tcp_congestion_mss_changed |>).
    rewrite of_mss_changed. by apply spot_pcb.
  - by apply spot_pcb.
Qed.

(** *** Segment input *)

Lemma spot_drain l c : spot_of (drain l c) = spot_of c.
Proof.
  revert c. induction l as [|k l IH]; intros c; cbn [drain]; [done|].
  case_if; [done|]. case_if; [apply IH|]. by rewrite IH.
Qed.

Lemma spot_recv_data c k : spot_of (snd (tcp_recv_data c k)) = spot_of c.
Proof.
  unfold tcp_recv_data. case_if; [done|]. destruct (trim_to_window _ _); [|done].
  destruct (LinkedList.insert_sorted _ _ _); [|done]. cbn [snd].
  match goal with |- spot_of ((notify_event ?x ?e) <|p rcv_wnd := _ |>) = _ =>
    transitivity (spot_of (notify_event x e)); [done|] end.
  by rewrite f_notify, spot_drain by apply _.
Qed.

Lemma spot_timer_now c which ov : spot_of (timer_now c which ov) = spot_of c.
Proof. apply of_timer. Qed.

Lemma spot_check_seq c s : spot_of (snd (input_check_seq c s)) = spot_of c.
Proof. unfold input_check_seq. case_if; [apply spot_timer_now|done]. Qed.

Lemma spot_check_rst c s : spot_of (snd (input_check_rst c s)) = spot_of c.
Proof.
  unfold input_check_rst. case_if; [|done]. case_if; [apply spot_timer_now|].
  destruct (state (pcb c)); try done. by destruct (parent_sock (pcb c)).
Qed.

Lemma spot_check_syn c s : spot_of (snd (input_check_syn c s)) = spot_of c.
Proof.
  unfold input_check_syn. case_if; [|done].
  destruct (state (pcb c)); try done; try apply spot_timer_now.
  destruct (parent_sock (pcb c)); [done|apply spot_timer_now].
Qed.

Lemma spot_check_ack c s : spot_of (snd (input_check_ack c s)) = spot_of c.
Proof. unfold input_check_ack. case_if; [done|]. case_if; [apply spot_timer_now|done]. Qed.

Lemma spot_ack_accept c s : spot_of (ack_accept c s) = spot_of c.
Proof.
  unfold ack_accept. set (c1 := tcp_update_retransmit_queue _).
  assert (H1 : spot_of c1 = spot_of c) by (subst c1; by rewrite (f_update_rtx spot_of)).
  clearbody c1. set (c2 := measure_rtt _).
  assert (H2 : spot_of c2 = spot_of c) by (subst c2; by rewrite (f_measure_rtt spot_of)).
  clearbody c2. case_if; [|done]. by rewrite (f_update_snd_wnd spot_of).
Qed.

Lemma spot_ack_new_data c s : spot_of (ack_new_data c s) = spot_of c.
Proof.
  unfold ack_new_data. set (n := u32 _). set (b := _ <=? _). clearbody n b.
  pose proof (f_on_ack spot_of (ack_accept c s) n b) as H. rewrite spot_ack_accept in H.
  destruct (tcp_congestion_on_ack (ack_accept c s) n b) as [again c1]. cbn [snd] in H.
  destruct again; [|done]. by rewrite (f_retransmit_now spot_of).
Qed.

Lemma spot_ack_duplicate c s : spot_of (ack_duplicate c s) = spot_of c.
Proof.
  unfold ack_duplicate. set (c1 := if window_is_fresh (pcb c) s then _ else c).
  assert (H1 : spot_of c1 = spot_of c).
  { subst c1. case_if; [|done]. by rewrite (wf_wl2 (f := spot_of)), (wf_wl1 (f := spot_of)), (f_win_change spot_of). }
  clearbody c1. case_if; [|by case_if].
  set (c2 := c1 <|p last_ack_repeat := _ |>).
  assert (H2 : spot_of c2 = spot_of c) by (by subst c2; rewrite qf_repeat). clearbody c2.
  match goal with |- context [tcp_congestion_on_duplicate_ack c2 ?n] =>
    pose proof (f_on_duplicate_ack spot_of c2 n) as H;
    destruct (tcp_congestion_on_duplicate_ack c2 n) as [again c3] end.
  cbn [snd] in H. rewrite H2 in H. destruct again; [|done]. by rewrite (f_retransmit_now spot_of).
Qed.

Lemma ack_closes_steps c : steps input_edge c (snd (ack_closes c)).
Proof.
  unfold ack_closes. destruct (state (pcb c)) eqn:E; try (by apply steps_same);
    (case_if; [|by apply steps_same]); cbn [snd].
  - eapply (steps_one _ _ _ TCP_STATE_FIN_WAIT_2); [|rewrite E; constructor].
    destruct (fd_entry _); [done|]. by rewrite of_timer.
  - eapply (steps_one _ _ _ TCP_STATE_TIME_WAIT); [|rewrite E; constructor]. by rewrite of_timer.
  - by apply steps_same.
Qed.

Lemma spot_restart_keepalive c : spot_of (restart_keepalive c) = spot_of c.
Proof. apply (f_restart_keepalive spot_of). Qed.

Lemma SEQ_not_LT a b : SEQ_LT a b = false -> SEQ_LEQ b a = true.
Proof.
  unfold SEQ_LT, SEQ_LEQ. intros H. pose proof (s32_congr (a - b)). pose proof (s32_range (a - b)).
  rewrite (s32_unique (b - a) (- s32 (a - b))) by zlia. lia.
Qed.

(** The acknowledgement of our SYN. *)
Lemma ack_syn_received_spot c s :
  SEQ_GT (i_ack s) (snd_nxt (pcb c)) = false ->
  let '(v, c') := ack_syn_received c s in
  match v with
  | Promote => spot_of c' = moved_to (spot_of c) TCP_STATE_ESTABLISHED (send_queue (sock c))
  | Return => spot_of c' = spot_of c
  | _ => False
  end.
Proof.
  intros Hgt. unfold ack_syn_received. cbn zeta. case_if.
  - rewrite spot_restart_keepalive, (f_update_snd_wnd spot_of), (f_update_rtx spot_of). done.
  - assert (Hle : SEQ_LEQ (i_ack s) (snd_una (pcb c)) = true).
    { apply SEQ_not_LT. apply andb_false_iff in Heqb as [?|Hle]; [done|].
      unfold SEQ_GT, SEQ_LEQ in *. lia. }
    rewrite Hle. pose proof (spot_send_flag c (i_ack s) 0 TCP_FLAG_RST) as H.
    by destruct (tcp_send_flag c (i_ack s) 0 TCP_FLAG_RST).
Qed.

Lemma input_ack_spot c s :
  SEQ_GT (i_ack s) (snd_nxt (pcb c)) = false ->
  let '(v, c') := input_ack c s in
  match v with
  | Promote => state (pcb c) = TCP_STATE_SYN_RECEIVED /\
      spot_of c' = moved_to (spot_of c) TCP_STATE_ESTABLISHED (send_queue (sock c))
  | Return | Destroy => spot_of c' = spot_of c
  | Continue => state (pcb c) <> TCP_STATE_SYN_RECEIVED /\ steps input_edge c c'
  end.
Proof.
  intros Hgt. unfold input_ack.
  assert (Hdata : forall st, state (pcb c) = st -> st <> TCP_STATE_SYN_RECEIVED ->
    let '(v, c') := if SEQ_LT (snd_una (pcb c)) (i_ack s) then ack_closes (ack_new_data c s)
                    else (Continue, ack_duplicate c s) in
    match v with
    | Promote => st = TCP_STATE_SYN_RECEIVED /\
        spot_of c' = moved_to (spot_of c) TCP_STATE_ESTABLISHED (send_queue (sock c))
    | Return | Destroy => spot_of c' = spot_of c
    | Continue => st <> TCP_STATE_SYN_RECEIVED /\ steps input_edge c c'
    end).
  { intros st Est Hne. case_if; [|split; [done|]; apply steps_same, spot_ack_duplicate].
    pose proof (spot_ack_new_data c s) as Hn. revert Hn. generalize (ack_new_data c s). intros c1 Hn.
    pose proof (ack_closes_steps c1) as Hs. destruct (ack_closes c1) as [v c2] eqn:E.
    cbn [snd] in Hs. revert E. unfold ack_closes.
    destruct (state (pcb c1)); repeat case_if; intros [= <- <-];
      first [by split; [done|]; apply (steps_after _ _ c1) | exact Hn]. }
  destruct (state (pcb c)) eqn:Est; try (by split; [done|apply steps_same]);
    try (by apply Hdata).
  pose proof (ack_syn_received_spot c s Hgt) as H.
  destruct (ack_syn_received c s) as [[] c1]; done.
Qed.

(** The steps of [tcp_input] up to the ACK field. *)
Lemma input_front_spot c s :
  let '(v, c') := input_front c s in
  match v with
  | Promote => state (pcb c) = TCP_STATE_SYN_RECEIVED /\
      spot_of c' = moved_to (spot_of c) TCP_STATE_ESTABLISHED (send_queue (sock c))
  | Return | Destroy => spot_of c' = spot_of c
  | Continue => state (pcb c) <> TCP_STATE_SYN_RECEIVED /\ steps input_edge c c'
  end.
Proof.
  unfold input_front. pose proof (spot_options_rejected c s) as H1.
  destruct (options_rejected c s) as [rej c1]. cbn [snd] in H1. destruct rej; [done|].
  pose proof (spot_check_seq c1 s) as H2. unfold then_step at 1.
  destruct (input_check_seq c1 s) as [v2 c2] eqn:E2. cbn [snd] in H2. rewrite H1 in H2.
  destruct v2; try exact H2; [|revert E2; unfold input_check_seq; by case_if].
  pose proof (spot_check_rst c2 s) as H3. unfold then_step at 1.
  destruct (input_check_rst c2 s) as [v3 c3] eqn:E3. cbn [snd] in H3. rewrite H2 in H3.
  destruct v3; try exact H3;
    [|revert E3; unfold input_check_rst; repeat case_match; by intros [=]].
  pose proof (spot_check_syn c3 s) as H4. unfold then_step at 1.
  destruct (input_check_syn c3 s) as [v4 c4] eqn:E4. cbn [snd] in H4. rewrite H3 in H4.
  destruct v4; try exact H4;
    [|revert E4; unfold input_check_syn; repeat case_match; by intros [=]].
  unfold then_step. unfold input_check_ack. case_if; [done|].
  case_if; [by rewrite spot_timer_now|]. apply orb_false_iff in Heqb0 as [_ Hgt].
  pose proof (input_ack_spot c4 s Hgt) as H5. destruct (input_ack c4 s) as [v5 c5].
  rewrite (spot_state _ _ H4), (spot_send_queue _ _ H4), H4 in H5.
  destruct v5; try done. destruct H5 as [? H5]. split; [done|]. by apply (steps_after _ _ c4).
Qed.

Lemma spot_input_text c s : spot_of (input_text c s) = spot_of c.
Proof.
  unfold input_text. destruct (state (pcb c)); try done;
    (case_if; [|done]; match goal with |- context [tcp_recv_data c ?k] =>
       pose proof (spot_recv_data c k) as H; destruct (tcp_recv_data c k) as [[] c1] end;
     cbn [snd] in H; [|done]; case_if; rewrite ?spot_timer_now, ?of_timer, ?of_ack_pending; done).
Qed.

Lemma spot_start_timewait c ov : spot_of (start_timewait c ov) = spot_of c.
Proof. apply of_timer. Qed.

Lemma spot_complete_linger c : spot_of (tcp_complete_linger c) = spot_of c.
Proof. done. Qed.

Lemma fin_transition_steps c :
  state (pcb c) <> TCP_STATE_SYN_RECEIVED -> steps input_edge c (fin_transition c).
Proof.
  intros Hne. unfold fin_transition.
  destruct (state (pcb c)) eqn:E; try done; try (by apply steps_same).
  - eapply (steps_one _ _ _ TCP_STATE_CLOSE_WAIT); [done|rewrite E; constructor].
  - case_if.
    + eapply (steps_one _ _ _ TCP_STATE_TIME_WAIT); [|rewrite E; constructor].
      by rewrite spot_start_timewait, spot_complete_linger.
    + eapply (steps_one _ _ _ TCP_STATE_CLOSING); [done|rewrite E; constructor].
  - eapply (steps_one _ _ _ TCP_STATE_TIME_WAIT); [|rewrite E; constructor].
    by rewrite spot_start_timewait, of_timer.
  - apply steps_same, spot_start_timewait.
Qed.

Lemma input_fin_steps c s :
  state (pcb c) <> TCP_STATE_SYN_RECEIVED -> steps input_edge c (snd (input_fin c s)).
Proof.
  intros Hne. unfold input_fin.
  assert (H : steps input_edge c (snd (
    if has (i_flags s) TCP_FLAG_FIN && st_eqb (state (pcb c)) TCP_STATE_TIME_WAIT
       && (u32 (i_seq s + data_len s + 1) =? rcv_nxt (pcb c))
    then (Return, start_timewait (timer_now c ack_deadline true) true)
    else if has (i_flags s) TCP_FLAG_FIN && (u32 (i_seq s + data_len s) =? rcv_nxt (pcb c)) then
      let c := c <|p rcv_nxt := u32 (rcv_nxt (pcb c) + 1) |> <|p recv_fin := true |> in
      let c := notify_event c notify_recv_fin in
      let c := update_timer (c <|p keepalive_repeat_count := 0 |>) keepalive_deadline
                 TCP_TIMER_STOP true in
      let c := timer_now c ack_deadline false in
      (Continue, fin_transition c)
    else (Continue, c)))).
  { case_if; [apply steps_same; cbn [snd]; by rewrite spot_start_timewait, spot_timer_now|].
    case_if; [|by apply steps_same]. cbn zeta.
    set (c1 := timer_now _ _ _).
    assert (H1 : spot_of c1 = spot_of c)
      by (subst c1; by rewrite spot_timer_now, of_timer, (wf_keepalive (f := spot_of)), (f_notify spot_of)).
    clearbody c1. apply (steps_after _ _ c1); [done|]. apply fin_transition_steps.
    by rewrite (spot_state _ _ H1). }
  destruct (state (pcb c)); first [exact H|by apply steps_same].
Qed.

Lemma spot_input_keepalive c : spot_of (input_keepalive c) = spot_of c.
Proof. unfold input_keepalive. case_if; [|done]. by rewrite of_timer, (wf_keepalive (f := spot_of)). Qed.

Lemma input_back_steps c s :
  state (pcb c) <> TCP_STATE_SYN_RECEIVED -> steps input_edge c (input_back c s).
Proof.
  intros Hne. unfold input_back. pose proof (spot_input_text c s) as H1. revert H1.
  generalize (input_text c s). intros c1 H1. apply (steps_after _ _ c1); [done|].
  pose proof (input_fin_steps c1 s ltac:(by rewrite (spot_state _ _ H1))) as H2.
  destruct (input_fin c1 s) as [v c2]. cbn [snd] in H2.
  destruct v; try done. eapply steps_trans; [done|]. apply steps_same, spot_input_keepalive.
Qed.

Lemma spot_input_closed c s : spot_of (snd (input_closed c s)) = spot_of c.
Proof. unfold input_closed. case_if; [done|]. case_if; apply spot_send_flag. Qed.

Lemma spot_syn_sent_check_ack c s : spot_of (snd (syn_sent_check_ack c s)) = spot_of c.
Proof. unfold syn_sent_check_ack. case_if; [|done]. cbn [snd]. case_if; [apply spot_send_flag|done]. Qed.

(** The answer to our SYN. *)
Lemma syn_sent_rest_spot c s :
  spot_of (syn_sent_rest c s) = spot_of c \/
  exists st, spot_of (syn_sent_rest c s) = moved_to (spot_of c) st (send_queue (sock c)) /\
    (st = TCP_STATE_ESTABLISHED \/ st = TCP_STATE_SYN_RECEIVED).
Proof.
  unfold syn_sent_rest. pose proof (spot_options_rejected c s) as H.
  destruct (options_rejected c s) as [rej c1]. cbn [snd] in H. destruct rej; [by left|].
  case_if; [|by left]. right. cbn zeta. rewrite (f_update_snd_wnd spot_of).
  case_if.
  - exists TCP_STATE_ESTABLISHED. split; [|by left].
    rewrite spot_timer_now, (f_notify spot_of), spot_restart_keepalive, (f_update_rtx spot_of).
    rewrite spot_set_state. rewrite <- (spot_send_queue _ _ H), <- H. done.
  - exists TCP_STATE_SYN_RECEIVED. split; [|by right]. rewrite spot_timer_now.
    rewrite <- (spot_send_queue _ _ H), <- H. by destruct (retransmit_queue _).
Qed.

(** *** Timers *)

Lemma pcb_spot_due p now_ms which : pcb_spot (snd (tcp_deadline_due p now_ms which)) = pcb_spot p.
Proof.
  unfold tcp_deadline_due. case_if; [done|]. case_if; [|done]. cbn [snd].
  unfold tcp_reset_timer. case_if; by destruct which.
Qed.

Lemma spot_due c which : spot_of (snd (due c which)) = spot_of c.
Proof.
  unfold due. pose proof (pcb_spot_due (pcb c) (get_current_time_ms c) which) as H.
  destruct (tcp_deadline_due _ _ _) as [d p]. cbn [snd] in *. by apply spot_pcb.
Qed.

Lemma spot_timer_retransmit c : spot_of (snd (timer_retransmit c)) = spot_of c.
Proof.
  unfold timer_retransmit. destruct (retransmit_queue (pcb c)) as [|skb q]; [done|].
  destruct (state (pcb c)) eqn:E; cbn zeta; case_if; cbn [snd]; try done;
    rewrite (f_retransmit_skb spot_of), of_timer;
    rewrite ?(of_rto (f := spot_of)), ?(f_on_timeout spot_of), ?(wf_retries (f := spot_of)); done.
Qed.

Lemma timer_persist_moves c : moves fin_edge c (snd (timer_persist c)).
Proof.
  unfold timer_persist. case_if; [|by apply moves_same]. cbn zeta. case_if; [by apply moves_same|].
  cbn [snd]. set (c1 := update_timer _ _ _ _).
  assert (H1 : spot_of c1 = spot_of c) by (subst c1; by rewrite of_timer).
  clearbody c1. apply (moves_after _ _ c1); [done|]. apply send_probe_moves.
Qed.

Lemma spot_timer_keepalive c : spot_of (snd (timer_keepalive c)) = spot_of c.
Proof.
  unfold timer_keepalive. case_if; [done|]. cbn zeta. case_if; [done|]. cbn [snd].
  rewrite spot_send_flag, of_timer. done.
Qed.

Lemma timer_body_moves c : moves fin_edge c (snd (timer_body c)).
Proof.
  unfold timer_body.
  pose proof (spot_due c nagle_deadline) as H1. destruct (due c nagle_deadline) as [d1 c1].
  cbn [snd] in H1. destruct d1; cbn [snd].
  { case_if; [|by apply moves_same]. apply (moves_after _ _ c1); [done|apply write_xmit_moves]. }
  pose proof (spot_due c1 retransmit_deadline) as H2. destruct (due c1 retransmit_deadline) as [d2 c2].
  cbn [snd] in H2. rewrite H1 in H2. destruct d2.
  { apply moves_same. by rewrite spot_timer_retransmit. }
  pose proof (spot_due c2 ack_deadline) as H3. destruct (due c2 ack_deadline) as [d3 c3].
  cbn [snd] in H3. rewrite H2 in H3. destruct d3; cbn [snd].
  { apply moves_same. by rewrite spot_send_flag. }
  pose proof (spot_due c3 persist_deadline) as H4. destruct (due c3 persist_deadline) as [d4 c4].
  cbn [snd] in H4. rewrite H3 in H4. destruct d4.
  { apply (moves_after _ _ c4); [done|apply timer_persist_moves]. }
  pose proof (spot_due c4 timewait_deadline) as H5. destruct (due c4 timewait_deadline) as [d5 c5].
  cbn [snd] in H5. rewrite H4 in H5. destruct d5; [by apply moves_same|].
  pose proof (spot_due c5 finwait2_deadline) as H6. destruct (due c5 finwait2_deadline) as [d6 c6].
  cbn [snd] in H6. rewrite H5 in H6. destruct d6; [by apply moves_same|].
  pose proof (spot_due c6 keepalive_deadline) as H7. destruct (due c6 keepalive_deadline) as [d7 c7].
  cbn [snd] in H7. rewrite H6 in H7. destruct d7; [|by apply moves_same].
  apply moves_same. by rewrite spot_timer_keepalive.
Qed.

(** *** Socket calls *)

Lemma spot_wait_until c r st t : spot_of (wait_until c r st t) = spot_of c.
Proof.
  unfold wait_until. destruct (q_timeout _); cbn [negb]; [done|].
  pose proof (f_alloc spot_of c) as H. destruct (alloc c) as [ok c1]. cbn [snd] in H.
  by destruct ok.
Qed.

Lemma spot_wait_for c r st b t : spot_of (wait_for c r st b t) = spot_of c.
Proof. unfold wait_for. case_if; [apply spot_wait_until|done]. Qed.

Lemma write_loop_shifts E fuel c buf n len lim r c' :
  write_loop fuel c buf n len lim = Some (r, c') -> shifts E c c'.
Proof.
  revert c n. induction fuel as [|fuel IH]; intros c n; cbn [write_loop];
    (case_if; [intros [= <- <-]; by apply shifts_same|]); [done|]. cbn zeta.
  match goal with |- context [let '(_, _) := ?r in _] => assert (H : shifts E c (snd r)) end.
  { case_if; [|by apply shifts_same].
    pose proof (f_alloc spot_of (deref (route (sock c)) c)) as H0.
    rewrite (f_deref spot_of) in H0. destruct (alloc _) as [ok c1]. cbn [snd] in *.
    destruct ok; [by apply shifts_queue|by apply shifts_same]. }
  match goal with |- context [let '(_, _) := ?r in _] => destruct r as [ok c1] end.
  cbn [snd] in H. case_if; [by intros [= <- <-]|].
  pose proof (f_alloc spot_of c1) as H1. destruct (alloc c1) as [ok2 c2]. cbn [snd] in H1.
  assert (H2 : shifts E c c2) by (eapply shifts_before; done).
  destruct (last (send_queue (sock c2))); [|done]. case_if; [by intros [= <- <-]|].
  intros Hr%IH. eapply shifts_trans; [exact H2|]. eapply shifts_trans; [|exact Hr].
  match goal with |- shifts _ _ (?x <|p snd_end := _ |> <|s send_buffer_len := _ |>) =>
    apply (shifts_before _ _ x); [|done] end.
  by apply shifts_queue.
Qed.

Lemma write_push_shifts c lim : shifts fin_edge c (write_push c lim).
Proof.
  unfold write_push. destruct (send_queue (sock c)); [by apply shifts_same|].
  case_if; [apply moves_shifts, write_xmit_moves|]. apply shifts_same, of_timer.
Qed.

Lemma tcp_write_shifts c r buf len n c' :
  tcp_write c r buf len = Some (n, c') -> shifts fin_edge c c'.
Proof.
  unfold tcp_write. case_if; [intros [= <- <-]; by apply shifts_same|].
  case_if; [intros [= <- <-]; by apply shifts_same|].
  case_if; [intros [= <- <-]; by apply shifts_same|].
  destruct buf as [buf|]; [|intros [= <- <-]; by apply shifts_same].
  case_if; [intros [= <- <-]; by apply shifts_same|].
  case_if; [intros [= <- <-]; by apply shifts_same|].
  case_if.
  { case_if; [intros [= <- <-]; by apply shifts_same|].
    case_if; intros [= <- <-]; apply shifts_same; [done|apply spot_wait_for]. }
  unfold write_body. pose proof (f_set_tcp_socket_route spot_of c) as H.
  destruct (set_tcp_socket_route c) as [rr c1]. cbn [snd] in H.
  case_if; [intros [= <- <-]; by apply shifts_same|]. cbn zeta.
  match goal with |- match ?w with _ => _ end = _ -> _ => destruct w as [[m c2]|] eqn:Ew end; [|done].
  apply (write_loop_shifts fin_edge) in Ew.
  assert (H2 : shifts fin_edge c c2) by (eapply shifts_trans; [by apply shifts_same|exact Ew]).
  case_if; intros [= <- <-]; [done|]. eapply shifts_trans; [done|apply write_push_shifts].
Qed.

Lemma spot_open_window c : spot_of (open_window c) = spot_of c.
Proof. unfold open_window. cbn zeta. case_if; [by rewrite spot_timer_now|done]. Qed.

Lemma spot_read c r len : spot_of (snd (tcp_read c r len)) = spot_of c.
Proof.
  unfold tcp_read. repeat (case_if; [done|]). case_if.
  { repeat (case_if; [done|]). apply spot_wait_for. }
  destruct (read_loop _ _) as [bytes rest]. cbn [snd]. by rewrite spot_open_window.
Qed.

Lemma shutdown_shifts E c how : shifts E c (snd (tcp_shutdown c how)).
Proof.
  unfold tcp_shutdown. case_if; [by apply shifts_same|]. case_if; [by apply shifts_same|].
  cbn [snd]. set (c1 := if (_ || _) && negb (close_recv _) then notify_event _ _ else c).
  assert (H1 : spot_of c1 = spot_of c) by (subst c1; case_if; [by rewrite (f_notify spot_of)|done]).
  clearbody c1. case_if; [|by apply shifts_same].
  eapply shifts_trans; [apply shifts_same, H1|].
  eapply (shifts_trans _ _ (c1 <|s close_send := true |>)); [by apply shifts_same|apply send_fin_shifts].
Qed.

Lemma spot_rcvbuf_changed c : spot_of (rcvbuf_changed c) = spot_of c.
Proof. unfold rcvbuf_changed. cbn zeta. case_if; [by rewrite spot_timer_now|done]. Qed.

Lemma spot_keepalive_changed c : spot_of (keepalive_changed c) = spot_of c.
Proof. unfold keepalive_changed. cbn zeta. by rewrite of_timer. Qed.

Lemma spot_level_setsockopt c name v n : spot_of (snd (tcp_level_setsockopt c name v n)) = spot_of c.
Proof. unfold tcp_level_setsockopt. repeat case_if; done. Qed.

Lemma release_orphan_shifts E c : shifts E c (release_orphan c).
Proof.
  unfold release_orphan.
  assert (Hf : shifts E c (if negb (close_send (sock c))
                           then tcp_send_fin (c <|s close_send := true |>) else c)).
  { case_if; [|by apply shifts_same].
    eapply (shifts_trans _ _ (c <|s close_send := true |>)); [by apply shifts_same|apply send_fin_shifts]. }
  destruct (state (pcb c)); try exact Hf; try (by apply shifts_same).
  apply shifts_same. cbn zeta. by rewrite of_timer.
Qed.

Lemma spot_linger_wait c (r : option req) : spot_of (snd (linger_wait c r)) = spot_of c.
Proof. unfold linger_wait. destruct r; [|done]. case_if; [apply spot_wait_until|done]. Qed.

Lemma spot_answer_syn c s : spot_of (snd (answer_syn c s)) = spot_of c.
Proof.
  unfold answer_syn. pose proof (spot_options_rejected c s) as H.
  destruct (options_rejected c s) as [rej c1]. cbn [snd] in H. destruct rej; [done|]. cbn zeta.
  rewrite spot_send_flag, (f_win_change spot_of). done.
Qed.
