(* ===== verification/TcpTables.v ===== *)
(** The address tables of all sockets (TcpWorld.v) stay in step with the sockets.

    [tables]: the tuple tables know exactly the live sockets with [is_hash], under
    their own addresses unless they are closed; the bind tables hold exactly the
    reservations of the live bound sockets; socket identifiers are fresh.  The
    operations on tables are total on live sockets and keep it. *)

From stdpp Require Import prelude list gmap.
From Stdlib Require Import ZArith Lia.
From S2P Require Import Prelude TcpDefs TcpWindow TcpOutput TcpSendInv TcpFrame BindTable TcpApi HashTable TupleTable.
From S2P Require Import TcpWorld TcpPlace.

(** An operation succeeds, with a result in [Q]. *)
Definition gives {A} (o : option A) (Q : A -> Prop) : Prop := exists a, o = Some a /\ Q a.

Lemma gives_ret {A} (a : A) (Q : A -> Prop) : Q a -> gives (Some a) Q.
Proof. intros H. by exists a. Qed.

Lemma gives_mono {A} (o : option A) (Q Q' : A -> Prop) :
  gives o Q -> (forall a, Q a -> Q' a) -> gives o Q'.
Proof. intros (a&->&H) HQ. exists a. eauto. Qed.

Definition spot_v6 (x : spot) : bool := p_family x =? AF_INET6.
Definition spot_key (x : spot) : list Z := tuple_key (p_sip x) (p_dip x) (p_sport x) (p_dport x).

(** The reservations in the bind table of a family. *)
Definition keys_of (R : gmap Z addr_key) (v : bool) : list addr_key :=
  filter (fun k => (ak_family k =? AF_INET6) = v) ((map_to_list R).*2).

Section tables.
Context {T : Type} `{KT : !KeyTable T}.
#[local] Abbreviation world := (world (T := T)).
Implicit Types w : world.

Definition cmap (w : world) : gmap Z spot := (fun x => spot_at x.1 x.2) <$> w_conns w.

Record tables (m : gmap Z spot) (tt : bool -> tuples (T := T)) (bt : bool -> bind_table)
    (R : gmap Z addr_key) (n : Z) : Prop := {
  tb_next sid x : m !! sid = Some x -> sid < n;
  tb_tuples v : tuples_ok (tt v);
  tb_where v sid k : tuple_of (tt v) sid = Some k ->
    exists x, m !! sid = Some x /\ p_hash x = true /\ spot_v6 x = v;
  tb_hash sid x : m !! sid = Some x -> p_hash x = true ->
    exists k, tuple_of (tt (spot_v6 x)) sid = Some k /\
      (p_state x <> TCP_STATE_CLOSED -> k = spot_key x);
  tb_len sid x : m !! sid = Some x ->
    length (p_sip x) = addr_len (spot_v6 x) /\ length (p_dip x) = addr_len (spot_v6 x);
  tb_bound sid x : m !! sid = Some x -> p_bound x = true <-> is_Some (R !! sid);
  tb_reserved sid k : R !! sid = Some k ->
    exists x, m !! sid = Some x /\ (ak_family k =? AF_INET6) = spot_v6 x;
  tb_binds v : bind_refines (bt v) (keys_of R v)
}.

Definition tables_of (w : world) : Prop :=
  tables (cmap w) (w_tuples w) (w_binds w) (w_reserved w) (w_next w).

Lemma cmap_lookup w sid p s : w_conns w !! sid = Some (p, s) -> cmap w !! sid = Some (spot_at p s).
Proof. intros H. unfold cmap. by rewrite lookup_fmap, H. Qed.

Lemma cmap_inv w sid x :
  cmap w !! sid = Some x -> exists p s, w_conns w !! sid = Some (p, s) /\ x = spot_at p s.
Proof.
  unfold cmap. rewrite lookup_fmap. destruct (w_conns w !! sid) as [[p s]|]; [|done].
  intros [= <-]. by exists p, s.
Qed.

Lemma cmap_put w sid c : cmap (put w sid c) = <[sid := spot_of c]> (cmap w).
Proof. unfold cmap, put. cbn [w_conns]. by rewrite fmap_insert. Qed.

Lemma cmap_conns w w' sid p s :
  w_conns w' = <[sid := (p, s)]> (w_conns w) -> cmap w' = <[sid := spot_at p s]> (cmap w).
Proof. intros H. unfold cmap. by rewrite H, fmap_insert. Qed.

Lemma get_lookup w sid p s : w_conns w !! sid = Some (p, s) -> get w sid = Some (mk_conn p s (w_env w)).
Proof. intros H. unfold get. by rewrite H. Qed.

Lemma get_cmap w sid x :
  cmap w !! sid = Some x -> exists c, get w sid = Some c /\ spot_of c = x /\
    w_conns w !! sid = Some (pcb c, sock c) /\ ev c = w_env w.
Proof.
  intros (p&s&H&->)%cmap_inv. exists (mk_conn p s (w_env w)). split_and!; try done.
  by apply get_lookup.
Qed.

Lemma cmap_get w sid c : get w sid = Some c ->
  cmap w !! sid = Some (spot_of c) /\ w_conns w !! sid = Some (pcb c, sock c).
Proof.
  unfold get. destruct (w_conns w !! sid) as [[p s]|] eqn:E; [|done]. intros [= <-].
  split; [|done]. by apply cmap_lookup.
Qed.

(** *** Changing one socket *)

Lemma tables_insert m tt bt R n sid x x' :
  tables m tt bt R n -> m !! sid = Some x ->
  p_family x' = p_family x -> p_hash x' = p_hash x -> p_bound x' = p_bound x ->
  length (p_sip x') = addr_len (spot_v6 x) -> length (p_dip x') = addr_len (spot_v6 x) ->
  (p_hash x = true -> p_state x' <> TCP_STATE_CLOSED ->
     tuple_of (tt (spot_v6 x)) sid = Some (spot_key x')) ->
  tables (<[sid := x']> m) tt bt R n.
Proof.
  intros Ht Hx Hf Hh Hb Hl1 Hl2 Hk.
  assert (Ev : spot_v6 x' = spot_v6 x) by (unfold spot_v6; by rewrite Hf).
  split.
  - intros k y. destruct (decide (k = sid)) as [->|]; [intros _; by eapply tb_next|].
    rewrite lookup_insert_ne by done. by eapply tb_next.
  - apply (tb_tuples _ _ _ _ _ Ht).
  - intros v k key (y&Hy&H1&H2)%(tb_where _ _ _ _ _ Ht). destruct (decide (k = sid)) as [->|].
    + exists x'. rewrite lookup_insert_eq. assert (y = x) as -> by congruence. split_and!; congruence.
    + exists y. by rewrite lookup_insert_ne.
  - intros k y. destruct (decide (k = sid)) as [->|].
    + rewrite lookup_insert_eq. intros [= <-] H. rewrite Hh in H. rewrite Ev.
      destruct (tb_hash _ _ _ _ _ Ht _ _ Hx H) as (key&H1&H2). exists key. split; [done|].
      intros Hs. specialize (Hk H Hs). congruence.
    + rewrite lookup_insert_ne by done. by eapply tb_hash.
  - intros k y. destruct (decide (k = sid)) as [->|].
    + rewrite lookup_insert_eq. intros [= <-]. by rewrite Ev.
    + rewrite lookup_insert_ne by done. by eapply tb_len.
  - intros k y. destruct (decide (k = sid)) as [->|].
    + rewrite lookup_insert_eq. intros [= <-]. rewrite Hb. by eapply tb_bound.
    + rewrite lookup_insert_ne by done. by eapply tb_bound.
  - intros k key (y&Hy&H1)%(tb_reserved _ _ _ _ _ Ht). destruct (decide (k = sid)) as [->|].
    + exists x'. rewrite lookup_insert_eq. assert (y = x) as -> by congruence. by rewrite Ev.
    + exists y. by rewrite lookup_insert_ne.
  - apply (tb_binds _ _ _ _ _ Ht).
Qed.

(** A handler that keeps addresses and flags, and does not reopen. *)
Definition same_address (x x' : spot) : Prop :=
  p_family x' = p_family x /\ p_hash x' = p_hash x /\ p_bound x' = p_bound x /\
  p_sip x' = p_sip x /\ p_sport x' = p_sport x /\ p_dip x' = p_dip x /\ p_dport x' = p_dport x /\
  (p_state x = TCP_STATE_CLOSED -> p_state x' = TCP_STATE_CLOSED).

Lemma tables_put w sid c x :
  tables_of w -> cmap w !! sid = Some x -> same_address x (spot_of c) -> tables_of (put w sid c).
Proof.
  intros Ht Hx (E1&E2&E3&E4&E5&E6&E7&Hst). unfold tables_of. rewrite cmap_put.
  destruct (tb_len _ _ _ _ _ Ht _ _ Hx) as [L1 L2]. cbn [w_tuples w_binds w_reserved w_next put].
  eapply tables_insert; try done; try congruence.
  intros Hh Hn. destruct (tb_hash _ _ _ _ _ Ht _ _ Hx Hh) as (k&->&Hk). f_equal.
  unfold spot_key. rewrite E4, E5, E6, E7. apply Hk. tauto.
Qed.

Lemma on_ok w sid p s f :
  tables_of w -> w_conns w !! sid = Some (p, s) ->
  same_address (spot_at p s) (spot_of (f (mk_conn p s (w_env w)))) ->
  gives (on w sid f) (fun w' => tables_of w' /\ w' = put w sid (f (mk_conn p s (w_env w)))).
Proof.
  intros Ht Hs Ha. unfold on. rewrite (get_lookup _ _ _ _ Hs). apply gives_ret. split; [|done].
  eapply tables_put; [done|by apply cmap_lookup|done].
Qed.

(** *** The tuple tables *)

Lemma w_alloc_eq w : exists ok e, w_alloc w = (ok, set_env w e).
Proof.
  unfold w_alloc. destruct (alloc _) as [ok c]. by exists ok, (ev c).
Qed.

Lemma where_tuple t sid : tuples_ok t -> is_Some (t_where t !! sid) <-> is_Some (tuple_of t sid).
Proof.
  intros Hok. unfold tuple_of. destruct (t_where t !! sid) as [e|] eqn:E; [|done].
  destruct (to_where _ Hok _ _ E) as (k&l&He&_). rewrite He. cbn. split; eauto.
Qed.

(** A socket enters or leaves the tuple table: [b] says which. *)
Lemma tables_tuple m tt bt R n sid x x' t' (b : bool) :
  tables m tt bt R n -> m !! sid = Some x -> tuples_ok t' ->
  x' = mk_spot (p_parent x) (p_syn x) (p_syn_num x) (p_acc x) (p_acc_num x) (p_backlog x) (p_fd x)
         b (p_bound x) (p_family x) (p_sip x) (p_sport x) (p_dip x) (p_dport x) (p_reuseport x)
         (p_state x) (p_queue x) ->
  (forall k, tuple_of t' k = if bool_decide (k = sid) then (if b then Some (spot_key x) else None)
                             else tuple_of (tt (spot_v6 x)) k) ->
  tables (<[sid := x']> m) (upd tt (spot_v6 x) t') bt R n.
Proof.
  intros Ht Hx Hok Ex' Hof. assert (Ev : spot_v6 x' = spot_v6 x) by (by subst).
  assert (Hup : upd tt (spot_v6 x) t' (spot_v6 x) = t') by (unfold upd; by rewrite Bool.eqb_reflx).
  assert (Hother : forall v k, k <> sid -> tuple_of (upd tt (spot_v6 x) t' v) k = tuple_of (tt v) k).
  { intros v k Hk. unfold upd. destruct (Bool.eqb v (spot_v6 x)) eqn:E; [|done].
    apply Bool.eqb_prop in E as ->. rewrite Hof. by rewrite bool_decide_eq_false_2. }
  split.
  - intros k y. destruct (decide (k = sid)) as [->|]; [intros _; by eapply tb_next|].
    rewrite lookup_insert_ne by done. by eapply tb_next.
  - intros v. unfold upd. destruct (Bool.eqb _ _); [done|]. apply (tb_tuples _ _ _ _ _ Ht).
  - intros v k key H. destruct (decide (k = sid)) as [->|Hk].
    + exists x'. rewrite lookup_insert_eq. unfold upd in H. destruct (Bool.eqb v _) eqn:E.
      * apply Bool.eqb_prop in E as ->. rewrite Hof, bool_decide_eq_true_2 in H by done.
        destruct b; [|done]. by subst.
      * destruct (tb_where _ _ _ _ _ Ht _ _ _ H) as (y&Hy&_&H1).
        assert (y = x) as -> by congruence. by rewrite H1, Bool.eqb_reflx in E.
    + rewrite Hother in H by done. rewrite lookup_insert_ne by done. by eapply tb_where.
  - intros k y. destruct (decide (k = sid)) as [->|Hk].
    + rewrite lookup_insert_eq. intros [= <-] H. rewrite Ev, Hup, Hof, bool_decide_eq_true_2 by done.
      subst x'. cbn in H. subst b. by exists (spot_key x).
    + rewrite lookup_insert_ne, Hother by done. by eapply tb_hash.
  - intros k y. destruct (decide (k = sid)) as [->|].
    + rewrite lookup_insert_eq. intros [= <-]. subst x'. by apply (tb_len _ _ _ _ _ Ht _ _ Hx).
    + rewrite lookup_insert_ne by done. by eapply tb_len.
  - intros k y. destruct (decide (k = sid)) as [->|].
    + rewrite lookup_insert_eq. intros [= <-]. subst x'. by apply (tb_bound _ _ _ _ _ Ht _ _ Hx).
    + rewrite lookup_insert_ne by done. by eapply tb_bound.
  - intros k key (y&Hy&H1)%(tb_reserved _ _ _ _ _ Ht). destruct (decide (k = sid)) as [->|].
    + exists x'. rewrite lookup_insert_eq. assert (y = x) as -> by congruence. by rewrite Ev.
    + exists y. by rewrite lookup_insert_ne.
  - apply (tb_binds _ _ _ _ _ Ht).
Qed.

(** What an operation on the tuple table leaves alone. *)
Definition tuple_frame (w w' : world) (sid : Z) (p : tcp_pcb) (s : Socket) (b : bool) : Prop :=
  tables_of w' /\ w_conns w' = <[sid := (p, s <| is_hash := b |>)]> (w_conns w) /\
  w_reserved w' = w_reserved w /\ w_next w' = w_next w /\
  (b = true -> tuple_of (w_tuples w' (is_v6 s)) sid = Some (spot_key (spot_at p s))).

Lemma set_tuples_ok w sid p s t' (b : bool) :
  tables_of w -> w_conns w !! sid = Some (p, s) -> tuples_ok t' ->
  (forall k, tuple_of t' k = if bool_decide (k = sid) then (if b then Some (spot_key (spot_at p s)) else None)
                             else tuple_of (w_tuples w (is_v6 s)) k) ->
  tuple_frame w (set_tuples w sid p s t') sid p s b.
Proof.
  intros Ht Hs Hok Hof.
  assert (Hb : bool_decide (is_Some (t_where t' !! sid)) = b).
  { specialize (Hof sid). rewrite bool_decide_eq_true_2 in Hof by done.
    pose proof (where_tuple t' sid Hok) as Hw. rewrite Hof in Hw.
    destruct b; [apply bool_decide_eq_true_2, Hw; eauto|apply bool_decide_eq_false_2].
    intros H%Hw. by destruct H. }
  unfold tuple_frame, set_tuples. rewrite Hb. cbn. split_and!; try done; cycle 1.
  { intros ->. unfold upd. rewrite Bool.eqb_reflx, Hof. by rewrite bool_decide_eq_true_2. }
  unfold tables_of. cbn [w_tuples w_binds w_reserved w_next].
  rewrite (cmap_conns w _ sid p (s <| is_hash := b |>)) by done.
  eapply (tables_tuple _ _ _ _ _ sid (spot_at p s)); try done. by apply cmap_lookup.
Qed.

Lemma w_uninstall_ok w sid p s :
  tables_of w -> w_conns w !! sid = Some (p, s) ->
  gives (w_uninstall w sid) (fun w' => tuple_frame w w' sid p s false).
Proof.
  intros Ht Hs. unfold w_uninstall. rewrite Hs.
  pose proof (uninstall_ok (w_tuples w (is_v6 s)) sid (tb_tuples _ _ _ _ _ Ht _)) as H.
  destruct (uninstall_tuple _ _) as [b t']. destruct H as (_&Hok&Hof).
  apply gives_ret. by apply set_tuples_ok.
Qed.

Lemma w_install_ok w sid p s :
  tables_of w -> w_conns w !! sid = Some (p, s) ->
  gives (w_install w sid) (fun '(b, w') => tuple_frame w w' sid p s b).
Proof.
  intros Ht Hs. unfold w_install. destruct (w_alloc_eq w) as (ok&e&->).
  cbn [w_conns set_env w_tuples]. rewrite Hs.
  pose proof (tb_tuples _ _ _ _ _ Ht (is_v6 s)) as Hok.
  destruct (tb_len _ _ _ _ _ Ht _ _ (cmap_lookup _ _ _ _ Hs)) as [L1 L2].
  assert (Hts : (tsock_of <$> w_conns w) !! sid = Some (tsock_of (p, s)))
    by (by rewrite lookup_fmap, Hs).
  destruct (install_after_uninstall (w_tuples w (is_v6 s)) _ sid _ ok Hok Hts) as (t1&->&Hok1&Hw&Hof1).
  pose proof (install_fresh t1 _ sid _ ok Hok1 Hts ltac:(cbn in *; congruence) Hw) as H.
  destruct (install_tuple t1 _ sid ok) as [b t']. destruct H as (Hok'&_&Hof').
  apply gives_ret. eapply (set_tuples_ok (set_env w e)); try done.
  intros k. rewrite Hof'. case_bool_decide; [done|]. rewrite Hof1. by rewrite bool_decide_eq_false_2.
Qed.

(** *** The bind tables *)

Lemma keys_of_insert R sid k v :
  R !! sid = None ->
  Permutation (keys_of (<[sid := k]> R) v)
    (if Bool.eqb (ak_family k =? AF_INET6) v then k :: keys_of R v else keys_of R v).
Proof.
  intros H. unfold keys_of. rewrite map_to_list_insert by done. rewrite fmap_cons.
  destruct (Bool.eqb _ v) eqn:E.
  - apply Bool.eqb_prop in E. by rewrite filter_cons_True.
  - rewrite filter_cons_False; [done|]. cbn. intros E'. by rewrite E', Bool.eqb_reflx in E.
Qed.

Lemma keys_of_delete R sid k v :
  R !! sid = Some k ->
  Permutation (keys_of R v)
    (if Bool.eqb (ak_family k =? AF_INET6) v then k :: keys_of (delete sid R) v
     else keys_of (delete sid R) v).
Proof.
  intros H. rewrite <- keys_of_insert by apply lookup_delete_eq. by rewrite insert_delete_id.
Qed.

Lemma keys_of_length R v : (length (keys_of R v) <= size R)%nat.
Proof.
  unfold keys_of. rewrite length_filter, length_fmap. by rewrite length_map_to_list.
Qed.

(** A socket's reservation changes with its local address; the socket is closed
    or not in the tuple table. *)
Lemma tables_bind m tt bt R n sid x x' t' R' :
  tables m tt bt R n -> m !! sid = Some x ->
  p_family x' = p_family x -> p_hash x' = p_hash x -> p_state x' = p_state x -> p_dip x' = p_dip x ->
  length (p_sip x') = addr_len (spot_v6 x) ->
  (p_state x = TCP_STATE_CLOSED \/ p_hash x = false) ->
  (p_bound x' = true <-> is_Some (R' !! sid)) ->
  (forall k, R' !! sid = Some k -> (ak_family k =? AF_INET6) = spot_v6 x) ->
  (forall k, k <> sid -> R' !! k = R !! k) ->
  bind_refines t' (keys_of R' (spot_v6 x)) ->
  (forall v, v <> spot_v6 x -> Permutation (keys_of R v) (keys_of R' v)) ->
  tables (<[sid := x']> m) tt (upd bt (spot_v6 x) t') R' n.
Proof.
  intros Ht Hx Hf Hh Hst Hd Hl Hor Hb HR HR' Hrf Hperm.
  assert (Ev : spot_v6 x' = spot_v6 x) by (unfold spot_v6; by rewrite Hf).
  destruct (tb_len _ _ _ _ _ Ht _ _ Hx) as [_ L2].
  split.
  - intros k y. destruct (decide (k = sid)) as [->|]; [intros _; by eapply tb_next|].
    rewrite lookup_insert_ne by done. by eapply tb_next.
  - apply (tb_tuples _ _ _ _ _ Ht).
  - intros v k key (y&Hy&H1&H2)%(tb_where _ _ _ _ _ Ht). destruct (decide (k = sid)) as [->|].
    + exists x'. rewrite lookup_insert_eq. assert (y = x) as -> by congruence. split_and!; congruence.
    + exists y. by rewrite lookup_insert_ne.
  - intros k y. destruct (decide (k = sid)) as [->|].
    + rewrite lookup_insert_eq. intros [= <-] H. rewrite Hh in H. rewrite Ev, Hst.
      destruct (tb_hash _ _ _ _ _ Ht _ _ Hx H) as (key&H1&H2). exists key. split; [done|].
      intros Hs. by destruct Hor as [?|?]; [|congruence].
    + rewrite lookup_insert_ne by done. by eapply tb_hash.
  - intros k y. destruct (decide (k = sid)) as [->|].
    + rewrite lookup_insert_eq. intros [= <-]. by rewrite Ev, Hd.
    + rewrite lookup_insert_ne by done. by eapply tb_len.
  - intros k y. destruct (decide (k = sid)) as [->|].
    + rewrite lookup_insert_eq. by intros [= <-].
    + rewrite lookup_insert_ne, HR' by done. by eapply tb_bound.
  - intros k key H. destruct (decide (k = sid)) as [->|].
    + exists x'. rewrite lookup_insert_eq, Ev. split; [done|]. by apply HR.
    + rewrite lookup_insert_ne by done. rewrite HR' in H by done. by eapply tb_reserved.
  - intros v. unfold upd. destruct (Bool.eqb v _) eqn:E.
    + apply Bool.eqb_prop in E as ->. done.
    + eapply bind_refines_perm; [apply Hperm|apply (tb_binds _ _ _ _ _ Ht)].
      intros ->. by rewrite Bool.eqb_reflx in E.
Qed.

(** The bind tables have room for one more reservation. *)
Definition room (w : world) : Prop := Z.of_nat (size (w_reserved w)) + 1 < 2 ^ 32.

(** A reservation succeeded ([b]) or not. *)
Definition bind_frame (w w' : world) (sid : Z) (p : tcp_pcb) (s : Socket) (key : addr_key) (b : bool)
    : Prop :=
  tables_of w' /\
  w_conns w' = <[sid := (p, if b then socket_set_bind_reservation s key else s)]> (w_conns w) /\
  w_reserved w' = (if b then <[sid := key]> (w_reserved w) else w_reserved w) /\
  w_next w' = w_next w.

Lemma w_reserve_ok w sid p s key reuse :
  tables_of w -> room w -> w_conns w !! sid = Some (p, s) -> w_reserved w !! sid = None ->
  state p = TCP_STATE_CLOSED \/ is_hash s = false ->
  ak_family key = family s -> length (ak_addr key) = addr_len (is_v6 s) ->
  gives (w_reserve w sid key reuse) (fun '(b, w') => bind_frame w w' sid p s key b).
Proof.
  intros Ht Hroom Hs HR Hst Hf Hl. unfold w_reserve. destruct (w_alloc_eq w) as (mem&e&->).
  cbn [w_conns set_env w_binds w_reserved]. rewrite Hs.
  pose proof (keys_of_length (w_reserved w) (is_v6 s)). unfold room in Hroom.
  destruct (bind_reserve_ok (w_binds w (is_v6 s)) (keys_of (w_reserved w) (is_v6 s)) key reuse mem
              (tb_binds _ _ _ _ _ Ht _) ltac:(lia)) as (ok&t'&->&_&_&Hrf).
  assert (Hv : (ak_family key =? AF_INET6) = is_v6 s) by (by rewrite Hf).
  pose proof (cmap_lookup _ _ _ _ Hs) as Hx.
  destruct (tb_len _ _ _ _ _ Ht _ _ Hx) as [L1 L2].
  destruct ok; apply gives_ret; (split_and!; [|done..]); unfold tables_of, set_binds;
    cbn [w_tuples w_binds w_reserved w_next set_env]; erewrite cmap_conns by done;
    change (cmap (set_env w e)) with (cmap w);
    eapply (tables_bind _ _ _ _ _ sid (spot_at p s)); try done.
  - cbn. rewrite lookup_insert_eq. split; eauto.
  - intros k. rewrite lookup_insert_eq. by intros [= <-].
  - intros k Hk. by rewrite lookup_insert_ne.
  - eapply bind_refines_perm; [|exact Hrf]. rewrite keys_of_insert by done. rewrite Hv.
    change (spot_v6 (spot_at p s)) with (is_v6 s). by rewrite Bool.eqb_reflx.
  - intros v Hne. rewrite keys_of_insert by done. rewrite Hv.
    destruct (Bool.eqb _ v) eqn:E; [|done]. by apply Bool.eqb_prop in E.
  - apply (tb_bound _ _ _ _ _ Ht _ _ Hx).
  - intros k Hk. by rewrite HR in Hk.
Qed.

(** [unbind_saddr] of a socket with a reservation. *)
Definition unbound (s : Socket) : Socket :=
  s <| is_bound := false |> <| sip := replicate (addr_len (is_v6 s)) 0 |> <| sip_scope := 0 |>
    <| sport := 0 |>.

Lemma unbind_saddr_ok w sid p s :
  tables_of w -> w_conns w !! sid = Some (p, s) -> is_bound s = true ->
  state p = TCP_STATE_CLOSED \/ is_hash s = false ->
  gives (unbind_saddr w sid) (fun w' => tables_of w' /\
    w_conns w' = <[sid := (p, unbound s)]> (w_conns w) /\
    w_reserved w' = delete sid (w_reserved w) /\ w_next w' = w_next w).
Proof.
  intros Ht Hs Hb Hst. pose proof (cmap_lookup _ _ _ _ Hs) as Hx.
  destruct (proj1 (tb_bound _ _ _ _ _ Ht _ _ Hx) Hb) as [key HR].
  unfold unbind_saddr. rewrite HR, Hs.
  destruct (tb_reserved _ _ _ _ _ Ht _ _ HR) as (y&Hy&Hv). assert (y = spot_at p s) as -> by congruence.
  change (spot_v6 (spot_at p s)) with (is_v6 s) in Hv.
  pose proof (tb_binds _ _ _ _ _ Ht (is_v6 s)) as Hrf.
  eapply bind_refines_perm in Hrf; [|by apply (keys_of_delete _ sid key)].
  rewrite Hv, Bool.eqb_reflx in Hrf.
  destruct (bind_release_ok _ _ _ Hrf) as (t'&->&Hrf').
  apply gives_ret. split_and!; try done. unfold tables_of, set_binds.
  cbn [w_tuples w_binds w_reserved w_next]. erewrite cmap_conns by done.
  destruct (tb_len _ _ _ _ _ Ht _ _ Hx) as [L1 L2].
  eapply (tables_bind _ _ _ _ _ sid (spot_at p s)); try done.
  - cbn. apply length_replicate.
  - cbn. rewrite lookup_delete_eq. split; [done|by intros []].
  - intros k. by rewrite lookup_delete_eq.
  - intros k Hk. by rewrite lookup_delete_ne.
  - intros v Hne. rewrite (keys_of_delete _ sid key) by done. rewrite Hv.
    destruct (Bool.eqb _ v) eqn:E; [|done]. by apply Bool.eqb_prop in E.
Qed.

(** *** Creation and destruction *)

Lemma tables_delete m tt bt R n sid x :
  tables m tt bt R n -> m !! sid = Some x -> p_hash x = false -> p_bound x = false ->
  tables (delete sid m) tt bt R n.
Proof.
  intros Ht Hx Hh Hb. split.
  - intros k y [_ ?]%lookup_delete_Some. by eapply tb_next.
  - apply (tb_tuples _ _ _ _ _ Ht).
  - intros v k key (y&Hy&H1&H2)%(tb_where _ _ _ _ _ Ht). exists y.
    rewrite lookup_delete_ne by (intros ->; congruence). done.
  - intros k y [_ ?]%lookup_delete_Some. by eapply tb_hash.
  - intros k y [_ ?]%lookup_delete_Some. by eapply tb_len.
  - intros k y [_ ?]%lookup_delete_Some. by eapply tb_bound.
  - intros k key Hk. destruct (tb_reserved _ _ _ _ _ Ht _ _ Hk) as (y&Hy&H1). exists y.
    rewrite lookup_delete_ne; [done|]. intros ->.
    assert (y = x) as -> by congruence.
    destruct (tb_bound _ _ _ _ _ Ht _ _ Hx) as [_ H]. rewrite H in Hb; [done|eauto].
  - apply (tb_binds _ _ _ _ _ Ht).
Qed.

Lemma destroy_socket_ok w sid p s :
  tables_of w -> w_conns w !! sid = Some (p, s) ->
  gives (destroy_socket w sid) (fun w' => tables_of w' /\ w_conns w' = delete sid (w_conns w) /\
    w_reserved w' = delete sid (w_reserved w) /\ w_next w' = w_next w).
Proof.
  intros Ht Hs. unfold destroy_socket. rewrite Hs.
  assert (H1 : gives (if is_hash s then w_uninstall w sid else Some w)
                 (fun w1 => tuple_frame w w1 sid p s false)).
  { destruct (is_hash s) eqn:Eh; [by apply w_uninstall_ok|]. apply gives_ret.
    split_and!; try done. rewrite insert_id; [done|]. rewrite Hs. do 2 f_equal.
    destruct s; cbn in *; by subst. }
  destruct H1 as (w1&->&Ht1&Hc1&HR1&Hn1&_).
  assert (Hs1 : w_conns w1 !! sid = Some (p, s <| is_hash := false |>))
    by (by rewrite Hc1, lookup_insert_eq).
  assert (H2 : gives (if is_bound s then unbind_saddr w1 sid else Some w1)
    (fun w2 => tables_of w2 /\ (exists s2, w_conns w2 = <[sid := (p, s2)]> (w_conns w) /\
       is_hash s2 = false /\ is_bound s2 = false) /\
       w_reserved w2 = delete sid (w_reserved w) /\ w_next w2 = w_next w)).
  { destruct (is_bound s) eqn:Eb.
    - destruct (unbind_saddr_ok w1 sid _ _ Ht1 Hs1 Eb ltac:(by right)) as (w2&->&Ht2&Hc2&HR2&Hn2).
      apply gives_ret. split_and!; [done| |by rewrite HR2, HR1|congruence].
      exists (unbound (s <| is_hash := false |>)). by rewrite Hc2, Hc1, insert_insert_eq.
    - apply gives_ret. split_and!; [done| | |done].
      + by exists (s <| is_hash := false |>).
      + rewrite HR1, delete_id; [done|].
        pose proof (tb_bound _ _ _ _ _ Ht _ _ (cmap_lookup _ _ _ _ Hs)) as [_ Hbd]. cbn in Hbd.
        destruct (w_reserved w !! sid); [|done]. rewrite Hbd in Eb; eauto; done. }
  destruct H2 as (w2&->&Ht2&(s2&Hc2&Hh2&Hb2)&HR2&Hn2). apply gives_ret. cbn. split_and!; try done.
  - unfold tables_of, cmap. cbn [w_conns w_tuples w_binds w_reserved w_next]. rewrite fmap_delete.
    apply (tables_delete _ _ _ _ _ _ (spot_at p s2)); [exact Ht2| |exact Hh2|exact Hb2].
    apply (cmap_lookup _ _ p). by rewrite Hc2, lookup_insert_eq.
  - by rewrite Hc2, delete_insert_eq.
Qed.

Lemma cmap_delete w w' sid : w_conns w' = delete sid (w_conns w) -> cmap w' = delete sid (cmap w).
Proof. intros H. unfold cmap. by rewrite H, fmap_delete. Qed.

(** A new socket. *)
Definition fresh_spot (fam : Z) : spot :=
  let n := addr_len (fam =? AF_INET6) in
  mk_spot None [] 0 [] 0 0 None false false fam (replicate n 0) 0 (replicate n 0) 0 false
    TCP_STATE_CLOSED [].

Lemma tables_fresh m tt bt R n fam :
  tables m tt bt R n -> tables (<[n := fresh_spot fam]> m) tt bt R (n + 1).
Proof.
  intros Ht. assert (Hn : m !! n = None).
  { destruct (m !! n) eqn:E; [|done]. apply (tb_next _ _ _ _ _ Ht) in E. lia. }
  split.
  - intros k y. destruct (decide (k = n)) as [->|]; [lia|].
    rewrite lookup_insert_ne by done. intros H%(tb_next _ _ _ _ _ Ht). lia.
  - apply (tb_tuples _ _ _ _ _ Ht).
  - intros v k key (y&Hy&H1&H2)%(tb_where _ _ _ _ _ Ht). exists y.
    rewrite lookup_insert_ne by (intros ->; congruence). done.
  - intros k y [[<- <-]|[_ ?]]%lookup_insert_Some; [done|]. by eapply tb_hash.
  - intros k y [[<- <-]|[_ ?]]%lookup_insert_Some; [|by eapply tb_len].
    split; apply length_replicate.
  - intros k y [[<- <-]|[_ ?]]%lookup_insert_Some; [|by eapply tb_bound].
    split; [done|]. intros [key (z&Hz&_)%(tb_reserved _ _ _ _ _ Ht)]. congruence.
  - intros k key (y&Hy&H1)%(tb_reserved _ _ _ _ _ Ht). exists y.
    rewrite lookup_insert_ne by (intros ->; congruence). done.
  - apply (tb_binds _ _ _ _ _ Ht).
Qed.

Lemma tcp_pcb_init_spot c :
  let '(ok, c') := tcp_pcb_init c in
  ok = true -> sock c' = sock c /\ pcb_spot (pcb c') = pcb_spot pcb_zero.
Proof.
  unfold tcp_pcb_init.
  destruct (alloc_effect c) as [l1 E1]. destruct (alloc c) as [ok1 c1]. cbn [snd] in E1. subst c1.
  case_if; [done|].
  destruct (alloc_effect (c <|e allocs := l1 |>)) as [l2 E2].
  destruct (alloc _) as [ok2 c2]. cbn [snd] in E2. subst c2. by case_if.
Qed.

Lemma create_socket_ok w fam :
  tables_of w ->
  match create_socket w fam with
  | (None, w') => exists e, w' = set_env w e
  | (Some sid, w') => sid = w_next w /\ w_next w' = w_next w + 1 /\ tables_of w' /\
      w_reserved w' = w_reserved w /\
      exists p s, w_conns w' = <[sid := (p, s)]> (w_conns w) /\ spot_at p s = fresh_spot fam
  end.
Proof.
  intros Ht. unfold create_socket. destruct (w_alloc_eq w) as (ok&e&->).
  destruct ok; cbn [negb]; [|by exists e].
  match goal with |- context [tcp_pcb_init ?c] =>
    pose proof (tcp_pcb_init_spot c) as H; destruct (tcp_pcb_init c) as [ok c1] end.
  destruct ok; cbn [negb]; [|by exists (ev c1)]. destruct (H eq_refl) as [Hs Hp]. cbn in Hs.
  assert (Hsp : spot_at (pcb c1) (sock c1) = fresh_spot fam).
  { rewrite Hs. unfold pcb_spot in Hp. injection Hp as P1 P2 P3 P4 P5 P6 P7.
    unfold spot_at. by rewrite P1, P2, P3, P4, P5, P6, P7. }
  cbn [w_next set_env w_conns]. split_and!; try done; [|by exists (pcb c1), (sock c1)].
  unfold tables_of. cbn [w_tuples w_binds w_reserved w_next set_env].
  rewrite (cmap_conns w _ (w_next w) (pcb c1) (sock c1)) by done.
  rewrite Hsp. by apply tables_fresh.
Qed.

End tables.
