(* ===== verification/TcpLinks.v ===== *)
(** Listeners and their children (TcpWorld.v) stay linked consistently, and
    destroying a socket never touches freed memory.

    [links]: every connection on a listener's queues is live, points back to its
    listener, has no descriptor and is in the state its queue says; the counters
    are the lengths of the queues; a child is on exactly one queue of its
    listener. *)

From stdpp Require Import prelude list gmap relations.
From Stdlib Require Import ZArith Lia.
From S2P Require Import Prelude TcpDefs TcpWindow TcpOutput TcpSendInv TcpInput TcpFrame BindTable.
From S2P Require Import TcpApi HashTable TupleTable TcpWorld TcpPlace TcpTables.

Definition INT_MAX : Z := 2 ^ 31 - 1.

(** The states of a connection that waits to be accepted. *)
Definition acceptable (st : tcp_state) : Prop :=
  st = TCP_STATE_ESTABLISHED \/ st = TCP_STATE_CLOSE_WAIT.

Definition zlen {A} (l : list A) : Z := Z.of_nat (length l).

Lemma zlen_cons {A} (a : A) l : zlen (a :: l) = zlen l + 1.
Proof. unfold zlen. cbn [length]. lia. Qed.
Lemma zlen_app {A} (l1 l2 : list A) : zlen (l1 ++ l2) = zlen l1 + zlen l2.
Proof. unfold zlen. rewrite length_app. lia. Qed.
Lemma zlen_nonneg {A} (l : list A) : 0 <= zlen l.
Proof. unfold zlen. lia. Qed.

Record links (m : gmap Z spot) : Prop := {
  lk_nodup sid x : m !! sid = Some x -> NoDup (p_syn x ++ p_acc x);
  lk_nums sid x : m !! sid = Some x -> p_syn_num x = zlen (p_syn x) /\ p_acc_num x = zlen (p_acc x);
  lk_few sid x : m !! sid = Some x -> zlen (p_syn x ++ p_acc x) <= INT_MAX;
  lk_syn sid x ch : m !! sid = Some x -> ch ∈ p_syn x ->
    exists y, m !! ch = Some y /\ p_parent y = Some sid /\ p_state y = TCP_STATE_SYN_RECEIVED;
  lk_acc sid x ch : m !! sid = Some x -> ch ∈ p_acc x ->
    exists y, m !! ch = Some y /\ p_parent y = Some sid /\ acceptable (p_state y);
  lk_parent sid x l : m !! sid = Some x -> p_parent x = Some l ->
    exists y, m !! l = Some y /\ sid ∈ p_syn y ++ p_acc y;
  lk_child sid x : m !! sid = Some x -> is_Some (p_parent x) ->
    p_fd x = None /\ p_syn x = [] /\ p_acc x = [] /\ p_queue x = [];
  lk_syn_sent sid x : m !! sid = Some x -> p_state x = TCP_STATE_SYN_SENT -> is_Some (p_fd x);
  lk_listen sid x : m !! sid = Some x -> p_state x = TCP_STATE_LISTEN -> 1 <= p_backlog x <= INT_MAX
}.

(** *** What an event does to the sockets that live through it *)

(** Edges that need no call: segments, FINs sent, and falling back to CLOSED. *)
Inductive tcp_edge : tcp_state -> tcp_state -> Prop :=
  | te_input st st' : input_edge st st' -> tcp_edge st st'
  | te_fin st st' : fin_edge st st' -> tcp_edge st st'
  | te_close st : tcp_edge st TCP_STATE_CLOSED.

(** No identifier is reused, and states follow [R]. *)
Record evolves (R : relation tcp_state) (m : gmap Z spot) (n : Z) (m' : gmap Z spot) (n' : Z)
    : Prop := {
  ev_next : n <= n';
  ev_state sid x' : m' !! sid = Some x' ->
    n <= sid \/ exists x, m !! sid = Some x /\ R (p_state x) (p_state x')
}.

Lemma evolves_refl R m n : Reflexive R -> evolves R m n m n.
Proof. intros HR. split; [lia|]. intros sid x H. right. by exists x. Qed.

Lemma evolves_trans R1 R2 R m1 n1 m2 n2 m3 n3 :
  (forall a b c, R1 a b -> R2 b c -> R a c : Prop) ->
  evolves R1 m1 n1 m2 n2 -> evolves R2 m2 n2 m3 n3 -> evolves R m1 n1 m3 n3.
Proof.
  intros HR [N1 S1] [N2 S2]. split; [lia|]. intros sid x3 [?|(x2&H2&R2')]%S2; [left; lia|].
  destruct (S1 _ _ H2) as [?|(x1&H1&R1')]; [by left|]. right. exists x1. eauto.
Qed.

Lemma evolves_insert (R : relation tcp_state) m n sid x x' :
  Reflexive R -> m !! sid = Some x -> R (p_state x) (p_state x') ->
  evolves R m n (<[sid := x']> m) n.
Proof.
  intros HR Hx Hst. split; [lia|]. intros k y [[<- <-]|[_ Hy]]%lookup_insert_Some; right; eauto.
Qed.

Lemma evolves_subset (R : relation tcp_state) m n m' :
  Reflexive R -> (forall k x, m' !! k = Some x -> exists y, m !! k = Some y /\ p_state x = p_state y) ->
  evolves R m n m' n.
Proof.
  intros HR Hs. split; [lia|]. intros k x (y&Hy&E)%Hs. right. exists y. split; [done|]. by rewrite E.
Qed.

(** *** Changing one socket *)

(** What keeps a child's listener content. *)
Definition child_keeps (x x' : spot) : Prop :=
  p_fd x' = p_fd x /\ p_queue x' = [] /\
  (p_state x = TCP_STATE_SYN_RECEIVED -> p_state x' = TCP_STATE_SYN_RECEIVED) /\
  (acceptable (p_state x) -> acceptable (p_state x')).

Lemma links_insert m sid x x' :
  links m -> m !! sid = Some x ->
  p_parent x' = p_parent x -> p_syn x' = p_syn x -> p_syn_num x' = p_syn_num x ->
  p_acc x' = p_acc x -> p_acc_num x' = p_acc_num x ->
  (is_Some (p_parent x) -> child_keeps x x') ->
  (p_state x' = TCP_STATE_SYN_SENT -> is_Some (p_fd x')) ->
  (p_state x' = TCP_STATE_LISTEN -> 1 <= p_backlog x' <= INT_MAX) ->
  links (<[sid := x']> m).
Proof.
  intros Hm Hx E1 E2 E3 E4 E5 Hc Hss Hls.
  assert (Hlook : forall k y, <[sid := x']> m !! k = Some y ->
    exists y0, m !! k = Some y0 /\ p_parent y = p_parent y0 /\ p_syn y = p_syn y0 /\
      p_syn_num y = p_syn_num y0 /\ p_acc y = p_acc y0 /\ p_acc_num y = p_acc_num y0 /\
      (k <> sid -> y = y0)).
  { intros k y [[<- <-]|[Hne Hy]]%lookup_insert_Some; [by exists x|by exists y]. }
  assert (Hfwd : forall k y, m !! k = Some y -> is_Some (p_parent y) ->
    exists y', <[sid := x']> m !! k = Some y' /\ p_parent y' = p_parent y /\
      p_syn y' = p_syn y /\ p_acc y' = p_acc y /\
      (p_state y = TCP_STATE_SYN_RECEIVED -> p_state y' = TCP_STATE_SYN_RECEIVED) /\
      (acceptable (p_state y) -> acceptable (p_state y'))).
  { intros k y Hy Hp. destruct (decide (k = sid)) as [->|].
    - assert (y = x) as -> by congruence. exists x'. rewrite lookup_insert_eq.
      destruct (Hc Hp) as (_&_&?&?). by split_and!.
    - exists y. by rewrite lookup_insert_ne. }
  split; [intros k y Hk|intros k y Hk|intros k y Hk|intros k y ch Hk|intros k y ch Hk|intros k y l Hk
         |intros k y Hk|intros k y Hk|intros k y Hk];
    destruct (Hlook _ _ Hk) as (y0&H0&P1&P2&P3&P4&P5&Pe).
  - rewrite P2, P4. by eapply lk_nodup.
  - rewrite P2, P3, P4, P5. by eapply lk_nums.
  - rewrite P2, P4. by eapply lk_few.
  - intros Hin. rewrite P2 in Hin.
    destruct (lk_syn _ Hm _ _ _ H0 Hin) as (z&Hz&Hzp&Hzs).
    destruct (Hfwd _ _ Hz ltac:(by rewrite Hzp)) as (z'&?&?&_&_&?&_). exists z'. split_and!; auto; congruence.
  - intros Hin. rewrite P4 in Hin.
    destruct (lk_acc _ Hm _ _ _ H0 Hin) as (z&Hz&Hzp&Hzs).
    destruct (Hfwd _ _ Hz ltac:(by rewrite Hzp)) as (z'&?&?&_&_&_&?). exists z'. split_and!; auto; congruence.
  - intros Hp. rewrite P1 in Hp. destruct (lk_parent _ Hm _ _ _ H0 Hp) as (z&Hz&Hin).
    destruct (decide (l = sid)) as [->|].
    + exists x'. rewrite lookup_insert_eq, E2, E4. split; [done|]. by assert (z = x) as -> by congruence.
    + exists z. by rewrite lookup_insert_ne.
  - intros Hp. rewrite P1 in Hp. destruct (lk_child _ Hm _ _ H0 Hp) as (?&?&?&?).
    destruct (decide (k = sid)) as [->|Hne]; [|rewrite (Pe Hne); by split_and!].
    rewrite lookup_insert_eq in Hk. injection Hk as <-. assert (y0 = x) as -> by congruence.
    destruct (Hc Hp) as (?&?&_). split_and!; congruence.
  - destruct (decide (k = sid)) as [->|Hne].
    + rewrite lookup_insert_eq in Hk. by injection Hk as <-.
    + rewrite (Pe Hne). by eapply lk_syn_sent.
  - destruct (decide (k = sid)) as [->|Hne].
    + rewrite lookup_insert_eq in Hk. by injection Hk as <-.
    + rewrite (Pe Hne). by eapply lk_listen.
Qed.

(** *** Removing sockets *)

Abbreviation without sid l := (filter (fun k => k <> sid) l).

Lemma without_elem (sid k : Z) (l : list Z) : k ∈ without sid l <-> k <> sid /\ k ∈ l.
Proof. by rewrite list_elem_of_filter. Qed.

Lemma without_id (sid : Z) (l : list Z) : sid ∉ l -> without sid l = l.
Proof.
  induction l as [|k l IH]; [done|]. intros Hn. rewrite filter_cons_True by set_solver.
  by rewrite IH by set_solver.
Qed.

Lemma without_length (sid : Z) (l : list Z) :
  NoDup l -> sid ∈ l -> zlen (without sid l) = zlen l - 1.
Proof.
  unfold zlen. induction l as [|k l IH]; [by intros _ ?%not_elem_of_nil|].
  intros [Hk Hl]%NoDup_cons Hin. destruct (decide (k = sid)) as [->|Hne].
  - rewrite filter_cons_False by (by intros H; apply H). rewrite without_id by done. cbn. lia.
  - rewrite filter_cons_True by done. cbn. apply elem_of_cons in Hin as [?|Hin]; [done|].
    specialize (IH Hl Hin). lia.
Qed.

Lemma links_not_own m sid x l : links m -> m !! sid = Some x -> p_parent x = Some l -> l <> sid.
Proof.
  intros Hm Hx Hp ->. destruct (lk_parent _ Hm _ _ _ Hx Hp) as (z&Hz&Hin).
  destruct (lk_child _ Hm _ _ Hx ltac:(by rewrite Hp)) as (_&Hxs&Hxa&_).
  assert (z = x) as -> by congruence. rewrite Hxs, Hxa in Hin. by apply not_elem_of_nil in Hin.
Qed.

(** A child is on no queue but its listener's. *)
Lemma links_elsewhere m sid x k z :
  links m -> m !! sid = Some x -> m !! k = Some z -> sid ∈ p_syn z ++ p_acc z -> p_parent x = Some k.
Proof.
  intros Hm Hx Hz [Hi|Hi]%elem_of_app;
    [destruct (lk_syn _ Hm _ _ _ Hz Hi) as (u&Hu&Hu'&_)
    |destruct (lk_acc _ Hm _ _ _ Hz Hi) as (u&Hu&Hu'&_)]; congruence.
Qed.

(** A child leaves its listener and is gone. *)
Lemma links_drop_child m sid x l y y' :
  links m -> m !! sid = Some x -> p_parent x = Some l -> m !! l = Some y ->
  p_parent y' = p_parent y -> p_fd y' = p_fd y -> p_state y' = p_state y ->
  p_backlog y' = p_backlog y -> p_queue y' = p_queue y ->
  p_syn y' = without sid (p_syn y) -> p_acc y' = without sid (p_acc y) ->
  p_syn_num y' = zlen (p_syn y') -> p_acc_num y' = zlen (p_acc y') ->
  links (delete sid (<[l := y']> m)).
Proof.
  intros Hm Hx Hp Hy E1 E2 E3 E4 E5 S1 S2 N1 N2.
  pose proof (links_not_own _ _ _ _ Hm Hx Hp) as Hne.
  destruct (lk_child _ Hm _ _ Hx ltac:(by rewrite Hp)) as (_&Hxs&Hxa&_).
  assert (Hlook : forall k z, delete sid (<[l := y']> m) !! k = Some z -> k <> sid /\
    exists z0, m !! k = Some z0 /\ p_parent z = p_parent z0 /\ p_fd z = p_fd z0 /\
      p_state z = p_state z0 /\ p_backlog z = p_backlog z0 /\ p_queue z = p_queue z0 /\
      p_syn z = without sid (p_syn z0) /\ p_acc z = without sid (p_acc z0) /\
      p_syn_num z = zlen (p_syn z) /\ p_acc_num z = zlen (p_acc z)).
  { intros k z [Hk Hz]%lookup_delete_Some. split; [done|].
    apply lookup_insert_Some in Hz as [[<- <-]|[Hl Hz]]; [by exists y|]. exists z.
    assert (Hid : sid ∉ p_syn z ++ p_acc z).
    { intros Hin. apply Hl. pose proof (links_elsewhere _ _ _ _ _ Hm Hx Hz Hin). congruence. }
    rewrite elem_of_app in Hid. destruct (lk_nums _ Hm _ _ Hz).
    split_and!; try done; symmetry; apply without_id; tauto. }
  assert (Hfwd : forall k z, k <> sid -> m !! k = Some z ->
    exists z', delete sid (<[l := y']> m) !! k = Some z' /\ p_parent z' = p_parent z /\
      p_state z' = p_state z /\ forall j, j <> sid -> j ∈ p_syn z ++ p_acc z -> j ∈ p_syn z' ++ p_acc z').
  { intros k z Hk Hz. rewrite lookup_delete_ne by done. destruct (decide (k = l)) as [->|].
    - exists y'. rewrite lookup_insert_eq. assert (z = y) as -> by congruence. split_and!; try done.
      intros j Hj. rewrite S1, S2, !elem_of_app, !without_elem. tauto.
    - exists z. by rewrite lookup_insert_ne. }
  split; [intros k z Hk|intros k z Hk|intros k z Hk|intros k z ch Hk|intros k z ch Hk|intros k z j Hk
         |intros k z Hk|intros k z Hk|intros k z Hk];
    destruct (Hlook _ _ Hk) as (Hks&z0&H0&P1&P2&P3&P4&P5&P6&P7&P8&P9).
  - rewrite P6, P7, <- filter_app. apply NoDup_filter. by eapply lk_nodup.
  - done.
  - rewrite P6, P7, <- filter_app. etrans; [|by eapply lk_few].
    unfold zlen. apply inj_le, length_filter.
  - rewrite P6, without_elem. intros [Hc Hin].
    destruct (lk_syn _ Hm _ _ _ H0 Hin) as (u&Hu&U1&U2).
    destruct (Hfwd _ _ Hc Hu) as (u'&?&?&?&_). exists u'. split_and!; congruence.
  - rewrite P7, without_elem. intros [Hc Hin].
    destruct (lk_acc _ Hm _ _ _ H0 Hin) as (u&Hu&U1&U2).
    destruct (Hfwd _ _ Hc Hu) as (u'&?&?&Es&_). exists u'. rewrite Es. split_and!; congruence.
  - rewrite P1. intros Hj. destruct (lk_parent _ Hm _ _ _ H0 Hj) as (u&Hu&Hin).
    assert (Hjs : j <> sid).
    { intros ->. assert (u = x) as -> by congruence. rewrite Hxs, Hxa in Hin.
      by apply not_elem_of_nil in Hin. }
    destruct (Hfwd _ _ Hjs Hu) as (u'&?&_&_&?). exists u'. split; auto.
  - rewrite P1, P2, P5, P6, P7. intros Hpz. by destruct (lk_child _ Hm _ _ H0 Hpz) as (->&->&->&->).
  - rewrite P2, P3. by eapply lk_syn_sent.
  - rewrite P3, P4. by eapply lk_listen.
Qed.

(** A socket without listener goes with all its children. *)
Lemma links_drop_family m m' sid x :
  links m -> m !! sid = Some x -> p_parent x = None ->
  (forall k, m' !! k = if bool_decide (k = sid \/ k ∈ p_syn x ++ p_acc x) then None else m !! k) ->
  links m'.
Proof.
  intros Hm Hx Hp Hm'.
  assert (Hlook : forall k z, m' !! k = Some z -> m !! k = Some z /\ k <> sid /\ p_parent z <> Some sid).
  { intros k z. rewrite Hm'. case_bool_decide as Hn; [done|]. intros Hz. split_and!; [done|tauto|].
    intros Hps. destruct (lk_parent _ Hm _ _ _ Hz Hps) as (u&Hu&Hin).
    assert (u = x) as -> by congruence. tauto. }
  assert (Hchild : forall k z, m !! k = Some z -> k ∈ p_syn x ++ p_acc x -> p_parent z = Some sid).
  { intros k z Hz Hin. by eapply links_elsewhere. }
  assert (Hfwd : forall k z, m !! k = Some z -> k <> sid -> p_parent z <> Some sid -> m' !! k = Some z).
  { intros k z Hz Hk Hpz. rewrite Hm', bool_decide_eq_false_2; [done|]. intros [?|Hin]; [done|]. eauto. }
  split; [intros k z Hk|intros k z Hk|intros k z Hk|intros k z ch Hk|intros k z ch Hk|intros k z j Hk
         |intros k z Hk|intros k z Hk|intros k z Hk]; destruct (Hlook _ _ Hk) as (H0&Hks&Hps).
  - by eapply lk_nodup.
  - by eapply lk_nums.
  - by eapply lk_few.
  - intros Hin. destruct (lk_syn _ Hm _ _ _ H0 Hin) as (u&Hu&U1&U2). exists u. split_and!; try done.
    apply Hfwd; [done|congruence|congruence].
  - intros Hin. destruct (lk_acc _ Hm _ _ _ H0 Hin) as (u&Hu&U1&U2). exists u. split_and!; try done.
    apply Hfwd; [done|congruence|congruence].
  - intros Hj. destruct (lk_parent _ Hm _ _ _ H0 Hj) as (u&Hu&Hin). exists u. split; [|done].
    apply Hfwd; [done|congruence|]. intros Hpu.
    destruct (lk_child _ Hm _ _ Hu ltac:(by rewrite Hpu)) as (_&E1&E2&_).
    rewrite E1, E2 in Hin. by apply not_elem_of_nil in Hin.
  - by eapply lk_child.
  - by eapply lk_syn_sent.
  - by eapply lk_listen.
Qed.

(** *** Destruction *)

Ltac keeps_address := repeat case_if; unfold same_address; split_and!; done.

Section destroy.
Context {T : Type} `{KT : !KeyTable T}.
#[local] Abbreviation world := (world (T := T)).
Implicit Types w : world.

(** Sockets and reservations after a sequence of steps: [f] is applied to the
    sockets, and nothing else changes but the tables and the environment. *)
Record after (w w' : world) (cs : gmap Z (tcp_pcb * Socket)) : Prop := {
  af_tables : tables_of w';
  af_conns : w_conns w' = cs;
  af_next : w_next w' = w_next w
}.

Lemma on_after w sid p s f :
  tables_of w -> w_conns w !! sid = Some (p, s) ->
  (forall e, same_address (spot_at p s) (spot_of (f (mk_conn p s e)))) ->
  gives (on w sid f) (fun w' => after w w'
    (<[sid := (pcb (f (mk_conn p s (w_env w))), sock (f (mk_conn p s (w_env w))))]> (w_conns w))).
Proof.
  intros Ht Hs Hf. destruct (on_ok w sid p s f Ht Hs (Hf _)) as (w'&->&Ht'&->).
  apply gives_ret. by split.
Qed.

(** What the listener's control block becomes when a child leaves. *)
Definition left_by (sid : Z) (p : tcp_pcb) : tcp_pcb :=
  if bool_decide (sid ∈ syn_list p) then
    (unlink_syn sid p) <| syn_list_num := u32 (syn_list_num p - 1) |>
  else if bool_decide (sid ∈ accept_list p) then
    (unlink_accept sid p) <| accept_list_num := u32 (accept_list_num p - 1) |>
  else p.

(** [tcp_destroy_pcb] and [destroy_socket] of a child. *)
Lemma destroy_child d w sid l p s pl sl :
  tables_of w -> w_conns w !! sid = Some (p, s) -> parent_sock p = Some l -> l <> sid ->
  w_conns w !! l = Some (pl, sl) ->
  gives (match tcp_destroy_pcb d w sid with Some w => destroy_socket w sid | None => None end)
    (fun w' => after w w' (delete sid (<[l := (left_by sid pl, sl)]> (w_conns w)))).
Proof.
  intros Ht Hs Hp Hne Hl. unfold tcp_destroy_pcb.
  destruct (on_after w sid p s (fun c => c <|p timer_task := mk_task false 0 |> <|p metrics := None |>) Ht Hs
              ltac:(intros e; keeps_address)) as (w1&->&[Ht1 Hc1 Hn1]).
  unfold clear_associated_socket.
  rewrite (get_lookup w1 sid (p <| timer_task := mk_task false 0 |> <| metrics := None |>) s)
    by (by rewrite Hc1, lookup_insert_eq).
  cbn [pcb]. change (parent_sock (p <| timer_task := mk_task false 0 |> <| metrics := None |>))
    with (parent_sock p). rewrite Hp. unfold leave_parent.
  match goal with |- context [on w1 l ?f] =>
    destruct (on_after w1 l pl sl f Ht1 ltac:(by rewrite Hc1, lookup_insert_ne)) as (w2&->&[Ht2 Hc2 Hn2]) end.
  { intros e. cbn [pcb]. keeps_address. }
  match goal with |- context [on w2 sid ?f] =>
    destruct (on_after w2 sid (p <| timer_task := mk_task false 0 |> <| metrics := None |>) s f Ht2)
      as (w3&->&[Ht3 Hc3 Hn3]) end.
  { by rewrite Hc2, Hc1, lookup_insert_ne, lookup_insert_eq. }
  { intros e. keeps_address. }
  match goal with |- context [on w3 sid ?f] =>
    destruct (on_after w3 sid (p <| timer_task := mk_task false 0 |> <| metrics := None |>
                                 <| parent_sock := None |>) s f Ht3)
      as (w4&->&[Ht4 Hc4 Hn4]) end.
  { by rewrite Hc3, lookup_insert_eq. }
  { intros e. keeps_address. }
  destruct (destroy_socket_ok w4 sid _ _ Ht4 ltac:(by rewrite Hc4, lookup_insert_eq))
    as (w5&->&Ht5&Hc5&_&Hn5).
  apply gives_ret. split; [done| |congruence].
  rewrite Hc5, Hc4, Hc3, Hc2, Hc1, !delete_insert_eq.
  rewrite (insert_insert_ne _ l sid) by done. rewrite delete_insert_eq. f_equal. f_equal.
  unfold left_by. cbn [pcb sock]. repeat case_if; done.
Qed.

(** The descriptor is gone: the socket is really destroyed. *)
Lemma destroy_unheld f w sid p s :
  w_conns w !! sid = Some (p, s) -> fd_entry s = None ->
  destroy_tcp_socket (S f) w sid =
  match tcp_destroy_pcb (destroy_tcp_socket f)
          (put w sid (tcp_complete_linger ((mk_conn p s (w_env w)) <|p state := TCP_STATE_CLOSED |>))) sid
  with Some w => destroy_socket w sid | None => None end.
Proof.
  intros Hs Hfd. cbn [destroy_tcp_socket]. rewrite (get_lookup _ _ _ _ Hs). cbn zeta.
  change (fd_entry (sock ((mk_conn p s (w_env w)) <|p state := TCP_STATE_CLOSED |>))) with (fd_entry s).
  by rewrite Hfd.
Qed.

Lemma destroy_tcp_child f w sid l p s pl sl :
  tables_of w -> w_conns w !! sid = Some (p, s) -> parent_sock p = Some l -> l <> sid ->
  fd_entry s = None -> w_conns w !! l = Some (pl, sl) ->
  gives (destroy_tcp_socket (S f) w sid)
    (fun w' => after w w' (delete sid (<[l := (left_by sid pl, sl)]> (w_conns w)))).
Proof.
  intros Ht Hs Hp Hne Hfd Hl. rewrite (destroy_unheld _ _ _ p s) by done. set (c1 := tcp_complete_linger _).
  assert (Ht1 : tables_of (put w sid c1)).
  { eapply tables_put; [done|by apply cmap_lookup|]. keeps_address. }
  destruct (destroy_child (destroy_tcp_socket f) (put w sid c1) sid l (pcb c1) (sock c1) pl sl Ht1)
    as (w2&->&[Ht2 Hc2 Hn2]); try done.
  { cbn [w_conns put]. by rewrite lookup_insert_eq. }
  { cbn [w_conns put]. by rewrite lookup_insert_ne. }
  apply gives_ret. split; [done| |done].
  rewrite Hc2. cbn [w_conns put]. rewrite (insert_insert_ne _ l sid) by done. by rewrite delete_insert_eq.
Qed.

(** One loop over the children of a listener: they are gone, the listener and
    the other sockets remain. *)
Record childless (w w' : world) (sid : Z) (p : tcp_pcb) (s : Socket) (l : list Z) : Prop := {
  cl_tables : tables_of w';
  cl_next : w_next w' = w_next w;
  cl_self : exists p', w_conns w' !! sid = Some (p', s) /\ parent_sock p' = parent_sock p;
  cl_others k : k <> sid -> w_conns w' !! k = if bool_decide (k ∈ l) then None else w_conns w !! k
}.

Definition is_child (w : world) (sid ch : Z) : Prop :=
  exists pc sc, w_conns w !! ch = Some (pc, sc) /\ parent_sock pc = Some sid /\ fd_entry sc = None.

Lemma destroy_children_ok f unlink w sid p s l :
  (forall ch q s', same_address (spot_at q s') (spot_at (unlink ch q) s')) ->
  (forall ch q, parent_sock (unlink ch q) = parent_sock q) ->
  tables_of w -> w_conns w !! sid = Some (p, s) -> NoDup l -> sid ∉ l ->
  (forall ch, ch ∈ l -> is_child w sid ch) ->
  gives (destroy_children (destroy_tcp_socket (S f)) unlink w sid l)
    (fun w' => childless w w' sid p s l).
Proof.
  intros Hu1 Hu2. revert w p. induction l as [|ch l IH]; intros w p Ht Hs Hnd Hni Hch.
  { apply gives_ret. split; [done|done|by exists p|]. intros k Hk.
    by rewrite bool_decide_eq_false_2 by apply not_elem_of_nil. }
  cbn [destroy_children]. apply NoDup_cons in Hnd as [Hnc Hnd].
  assert (Hne : ch <> sid) by set_solver.
  destruct (on_after w sid p s (fun c => c <| pcb ::= unlink ch |>) Ht Hs ltac:(intros e; exact (Hu1 ch p s)))
    as (w1&->&[Ht1 Hc1 Hn1]). cbn in Hc1.
  destruct (Hch ch ltac:(left)) as (pc&sc&Hpc&Hpar&Hfd).
  destruct (destroy_tcp_child f w1 ch sid pc sc (unlink ch p) s Ht1) as (w2&->&[Ht2 Hc2 Hn2]); try done.
  { by rewrite Hc1, lookup_insert_ne. }
  { by rewrite Hc1, lookup_insert_eq. }
  assert (Hk2 : forall k, k <> sid -> k <> ch -> w_conns w2 !! k = w_conns w !! k).
  { intros k H1 H2. by rewrite Hc2, lookup_delete_ne, lookup_insert_ne, Hc1, lookup_insert_ne. }
  destruct (IH w2 (left_by ch (unlink ch p)) Ht2) as (w3&->&[Ht3 Hn3 (p3&Hs3&Hp3) Ho3]).
  { by rewrite Hc2, lookup_delete_ne, lookup_insert_eq. }
  { done. }
  { set_solver. }
  { intros k Hk. destruct (Hch k ltac:(by right)) as (pk&sk&Hk1&Hk2').
    exists pk, sk. rewrite Hk2; [done|set_solver..]. }
  apply gives_ret. split; [done|congruence| |].
  - exists p3. split; [done|]. rewrite Hp3. transitivity (parent_sock (unlink ch p)); [|apply Hu2].
    unfold left_by. by repeat case_if.
  - intros k Hk. rewrite Ho3 by done. destruct (decide (k = ch)) as [->|Hkc].
    + rewrite (bool_decide_eq_true_2 (ch ∈ ch :: l)) by left. case_bool_decide; [done|].
      by rewrite Hc2, lookup_delete_eq.
    + rewrite Hk2 by done. repeat case_bool_decide; try done; set_solver.
Qed.

(** The loops over both queues. *)
Lemma clear_family f w sid p s :
  tables_of w -> w_conns w !! sid = Some (p, s) -> parent_sock p = None ->
  NoDup (syn_list p ++ accept_list p) -> sid ∉ syn_list p ++ accept_list p ->
  (forall ch, ch ∈ syn_list p ++ accept_list p -> is_child w sid ch) ->
  gives (clear_associated_socket (destroy_tcp_socket (S f)) w sid)
    (fun w' => childless w w' sid p s (syn_list p ++ accept_list p)).
Proof.
  intros Ht Hs Hp (Hnd1&Hdis&Hnd2)%NoDup_app Hni Hch. rewrite elem_of_app in Hni.
  unfold clear_associated_socket. rewrite (get_lookup _ _ _ _ Hs). cbn [pcb]. rewrite Hp.
  destruct (destroy_children_ok f unlink_syn w sid p s (syn_list p)) as (w1&->&[Ht1 Hn1 (p1&Hs1&Hp1) Ho1]);
    try done; [tauto|intros ch Hin; apply Hch, elem_of_app; by left|].
  destruct (on_after w1 sid p1 s (fun c => c <|p syn_list_num := 0 |>) Ht1 Hs1
              ltac:(intros e; keeps_address)) as (w2&->&[Ht2 Hc2 Hn2]). cbn in Hc2.
  assert (Ho2 : forall k, k <> sid -> w_conns w2 !! k = w_conns w1 !! k)
    by (intros k Hk; by rewrite Hc2, lookup_insert_ne).
  destruct (destroy_children_ok f unlink_accept w2 sid (p1 <| syn_list_num := 0 |>) s (accept_list p))
    as (w3&->&[Ht3 Hn3 (p3&Hs3&Hp3) Ho3]); try done; [by rewrite Hc2, lookup_insert_eq|tauto| |].
  { intros ch Hin. destruct (Hch ch ltac:(apply elem_of_app; by right)) as (pc&sc&H1&H2).
    exists pc, sc. rewrite Ho2, Ho1 by (intros ->; tauto).
    rewrite bool_decide_eq_false_2; [done|]. intros Hin'. by apply (Hdis ch). }
  destruct (on_after w3 sid p3 s (fun c => c <|p accept_list_num := 0 |>) Ht3 Hs3
              ltac:(intros e; keeps_address)) as (w4&->&[Ht4 Hc4 Hn4]). cbn in Hc4.
  apply gives_ret. split; [done|congruence| |].
  - exists (p3 <| accept_list_num := 0 |>). rewrite Hc4, lookup_insert_eq. split; [done|].
    change (parent_sock p3 = parent_sock p). rewrite Hp3. exact Hp1.
  - intros k Hk. rewrite Hc4, lookup_insert_ne, Ho3, Ho2, Ho1 by done.
    repeat case_bool_decide; try done; rewrite ?elem_of_app in *; tauto.
Qed.

Lemma destroy_family f w sid p s :
  tables_of w -> w_conns w !! sid = Some (p, s) -> parent_sock p = None -> fd_entry s = None ->
  NoDup (syn_list p ++ accept_list p) -> sid ∉ syn_list p ++ accept_list p ->
  (forall ch, ch ∈ syn_list p ++ accept_list p -> is_child w sid ch) ->
  gives (destroy_tcp_socket (S (S f)) w sid) (fun w' => tables_of w' /\ w_next w' = w_next w /\
    forall k, w_conns w' !! k = if bool_decide (k = sid \/ k ∈ syn_list p ++ accept_list p) then None
                                else w_conns w !! k).
Proof.
  intros Ht Hs Hp Hfd Hnd Hni Hch. rewrite (destroy_unheld _ _ _ p s) by done.
  set (c1 := tcp_complete_linger _).
  assert (Ht1 : tables_of (put w sid c1)).
  { eapply tables_put; [done|by apply cmap_lookup|]. keeps_address. }
  assert (Hs1 : w_conns (put w sid c1) !! sid = Some (pcb c1, sock c1))
    by (cbn [w_conns put]; by rewrite lookup_insert_eq).
  unfold tcp_destroy_pcb.
  destruct (on_after (put w sid c1) sid (pcb c1) (sock c1)
              (fun c => c <|p timer_task := mk_task false 0 |> <|p metrics := None |>) Ht1 Hs1
              ltac:(intros e; keeps_address)) as (w2&->&[Ht2 Hc2 Hn2]).
  set (p2 := (pcb c1) <| timer_task := mk_task false 0 |> <| metrics := None |>).
  assert (Hs2 : w_conns w2 !! sid = Some (p2, sock c1)) by (by rewrite Hc2, lookup_insert_eq).
  assert (Ho2 : forall k, k <> sid -> w_conns w2 !! k = w_conns w !! k).
  { intros k Hk. rewrite Hc2, lookup_insert_ne by done. cbn [w_conns put]. by rewrite lookup_insert_ne. }
  destruct (clear_family f w2 sid p2 (sock c1) Ht2 Hs2 Hp Hnd Hni) as (w3&->&[Ht3 Hn3 (p3&Hs3&_) Ho3]).
  { intros ch Hin. destruct (Hch ch Hin) as (pc&sc&H1&H2). exists pc, sc.
    rewrite Ho2; [done|]. intros ->. done. }
  destruct (on_after w3 sid p3 (sock c1)
              (fun c => c <|p unordered_skb_list := [] |> <|p retransmit_queue := [] |>) Ht3 Hs3
              ltac:(intros e; keeps_address)) as (w4&->&[Ht4 Hc4 Hn4]).
  destruct (destroy_socket_ok w4 sid _ _ Ht4 ltac:(by rewrite Hc4, lookup_insert_eq))
    as (w5&->&Ht5&Hc5&_&Hn5).
  apply gives_ret. split_and!; [done|by rewrite Hn5, Hn4, Hn3, Hn2|]. intros k. rewrite Hc5.
  destruct (decide (k = sid)) as [->|Hk].
  - rewrite lookup_delete_eq, bool_decide_eq_true_2 by (by left). done.
  - rewrite lookup_delete_ne, Hc4, lookup_insert_ne, Ho3, Ho2 by done.
    change (syn_list p2) with (syn_list p). change (accept_list p2) with (accept_list p).
    repeat case_bool_decide; try done; tauto.
Qed.

(** *** The invariant *)

Record world_ok (w : world) : Prop := {
  wo_links : links (cmap w);
  wo_tables : tables_of w
}.

(** From [w] to [w'] states follow [R]. *)
Definition evolves_to (R : relation tcp_state) (w w' : world) : Prop :=
  evolves R (cmap w) (w_next w) (cmap w') (w_next w').

(** [destroy_tcp_socket]: a socket the user holds only becomes CLOSED; another is
    gone, from its listener's queue as well, with its own children. *)
Record destroyed (w w' : world) (sid : Z) (x : spot) : Prop := {
  de_ok : world_ok w';
  de_next : w_next w' = w_next w;
  de_held : is_Some (p_fd x) -> w_tuples w' = w_tuples w /\
    cmap w' = <[sid := moved_to x TCP_STATE_CLOSED (p_queue x)]> (cmap w);
  de_gone : p_fd x = None -> cmap w' !! sid = None;
  de_others k y : k <> sid -> cmap w' !! k = Some y ->
    exists y0, cmap w !! k = Some y0 /\ p_state y = p_state y0
}.

Lemma cmap_fmap w k : cmap w !! k = (fun x => spot_at x.1 x.2) <$> w_conns w !! k.
Proof. apply lookup_fmap. Qed.

Lemma links_closed m sid x :
  links m -> m !! sid = Some x -> is_Some (p_fd x) ->
  links (<[sid := moved_to x TCP_STATE_CLOSED (p_queue x)]> m).
Proof.
  intros Hm Hx [fd Hfd]. eapply links_insert; try done. intros Hp.
  destruct (lk_child _ Hm _ _ Hx Hp) as (?&_). congruence.
Qed.

Lemma destroy_held w sid p s :
  world_ok w -> w_conns w !! sid = Some (p, s) -> is_Some (fd_entry s) ->
  gives (destroy w sid) (fun w' => destroyed w w' sid (spot_at p s)).
Proof.
  intros [Hl Ht] Hs [fd Hfd]. pose proof (cmap_lookup _ _ _ _ Hs) as Hx.
  unfold destroy. cbn [destroy_tcp_socket]. rewrite (get_lookup _ _ _ _ Hs). cbn zeta.
  change (fd_entry (sock ((mk_conn p s (w_env w)) <|p state := TCP_STATE_CLOSED |>))) with (fd_entry s).
  rewrite Hfd. set (c1 := notify_event _ _).
  assert (E : spot_of c1 = moved_to (spot_at p s) TCP_STATE_CLOSED (send_queue s))
    by (subst c1; by rewrite (f_notify spot_of)).
  apply gives_ret. assert (Hcm : cmap (put w sid c1) =
    <[sid := moved_to (spot_at p s) TCP_STATE_CLOSED (send_queue s)]> (cmap w)) by (by rewrite cmap_put, E).
  split.
  - split.
    + rewrite Hcm. by apply links_closed.
    + eapply tables_put; [done|done|]. rewrite E. unfold same_address. by split_and!.
  - done.
  - done.
  - cbn. congruence.
  - intros k y Hk. rewrite Hcm, lookup_insert_ne by done. intros Hy. by exists y.
Qed.

Lemma u32_pred n : 1 <= n <= INT_MAX -> u32 (n - 1) = n - 1.
Proof. unfold INT_MAX. intros. apply wrap_id. unfold is_u. lia. Qed.

(** A listener's spot after a child has left. *)
Lemma left_by_spot m l sid x pl sl :
  links m -> m !! l = Some (spot_at pl sl) -> m !! sid = Some x -> p_parent x = Some l ->
  let y' := spot_at (left_by sid pl) sl in
  p_syn y' = without sid (syn_list pl) /\ p_acc y' = without sid (accept_list pl) /\
  p_syn_num y' = zlen (p_syn y') /\ p_acc_num y' = zlen (p_acc y').
Proof.
  intros Hm Hl Hx Hp. destruct (lk_nums _ Hm _ _ Hl) as [N1 N2]. cbn in N1, N2.
  pose proof (lk_nodup _ Hm _ _ Hl) as Hnd. cbn in Hnd. apply NoDup_app in Hnd as (D1&D2&D3).
  pose proof (lk_few _ Hm _ _ Hl) as Hfew. cbn in Hfew. unfold zlen in Hfew. rewrite length_app in Hfew.
  assert (Hlen : forall l : list Z, sid ∈ l -> 1 <= zlen l).
  { intros k Hk. destruct k; [by apply not_elem_of_nil in Hk|]. unfold zlen. cbn. lia. }
  unfold left_by. destruct (lk_parent _ Hm _ _ _ Hx Hp) as (y&Hy&Hin).
  assert (y = spot_at pl sl) as -> by congruence. cbn in Hin. apply elem_of_app in Hin.
  case_bool_decide as Hsyn; [|case_bool_decide as Hacc; [|tauto]]; cbn.
  - rewrite (without_id sid (accept_list pl)) by (by apply D2). rewrite N1.
    pose proof (Hlen _ Hsyn). rewrite u32_pred by (unfold zlen in *; lia).
    split_and!; try done. by rewrite without_length.
  - rewrite (without_id sid (syn_list pl)) by done. rewrite N2.
    pose proof (Hlen _ Hacc). rewrite u32_pred by (unfold zlen in *; lia).
    split_and!; try done. by rewrite without_length.
Qed.

Lemma destroy_linked w sid p s l :
  world_ok w -> w_conns w !! sid = Some (p, s) -> parent_sock p = Some l ->
  gives (destroy w sid) (fun w' => destroyed w w' sid (spot_at p s)).
Proof.
  intros [Hl Ht] Hs Hp. pose proof (cmap_lookup _ _ _ _ Hs) as Hx.
  destruct (lk_child _ Hl _ _ Hx ltac:(by cbn; rewrite Hp)) as (Hfd&_).
  pose proof (links_not_own _ _ _ _ Hl Hx Hp) as Hne.
  destruct (lk_parent _ Hl _ _ _ Hx Hp) as (y&Hy&_).
  destruct (cmap_inv _ _ _ Hy) as (pl&sl&Hpl&->).
  unfold destroy. destruct (destroy_tcp_child 1 w sid l p s pl sl Ht Hs Hp Hne Hfd Hpl) as (w'&->&[Ht' Hc' Hn']).
  assert (Hcm : cmap w' = delete sid (<[l := spot_at (left_by sid pl) sl]> (cmap w))).
  { unfold cmap. by rewrite Hc', fmap_delete, fmap_insert. }
  destruct (left_by_spot _ _ _ _ _ _ Hl Hy Hx Hp) as (S1&S2&N1&N2).
  apply gives_ret. split.
  - split; [|done]. rewrite Hcm.
    eapply (links_drop_child _ _ _ _ (spot_at pl sl)); try done; unfold left_by; by repeat case_if.
  - done.
  - rewrite Hfd. by intros [].
  - intros _. by rewrite Hcm, lookup_delete_eq.
  - intros k y Hk. rewrite Hcm, lookup_delete_ne by done.
    intros [[<- <-]|[_ H]]%lookup_insert_Some; [|by exists y].
    exists (spot_at pl sl). split; [done|]. unfold left_by. by repeat case_if.
Qed.

Lemma destroy_root w sid p s :
  world_ok w -> w_conns w !! sid = Some (p, s) -> parent_sock p = None -> fd_entry s = None ->
  gives (destroy w sid) (fun w' => destroyed w w' sid (spot_at p s)).
Proof.
  intros [Hl Ht] Hs Hp Hfd. pose proof (cmap_lookup _ _ _ _ Hs) as Hx.
  assert (Hch : forall ch, ch ∈ syn_list p ++ accept_list p -> is_child w sid ch).
  { intros ch Hin. assert (H : exists z, cmap w !! ch = Some z /\ p_parent z = Some sid).
    { apply elem_of_app in Hin as [Hin|Hin];
        [destruct (lk_syn _ Hl _ _ _ Hx Hin) as (z&?&?&_)|destruct (lk_acc _ Hl _ _ _ Hx Hin) as (z&?&?&_)];
        by exists z. }
    destruct H as (z&Hz&Hzp). destruct (lk_child _ Hl _ _ Hz ltac:(by rewrite Hzp)) as (Hzf&_).
    destruct (cmap_inv _ _ _ Hz) as (pc&sc&Hpc&->). by exists pc, sc. }
  unfold destroy. destruct (destroy_family 0 w sid p s Ht Hs Hp Hfd (lk_nodup _ Hl _ _ Hx)) as (w'&->&Ht'&Hn'&Ho').
  { intros (pc&sc&H1&H2&_)%Hch. congruence. }
  { exact Hch. }
  assert (Hcm : forall k, cmap w' !! k = if bool_decide (k = sid \/ k ∈ syn_list p ++ accept_list p)
                                         then None else cmap w !! k).
  { intros k. rewrite !cmap_fmap, Ho'. by case_bool_decide. }
  apply gives_ret. split.
  - split; [|done]. by eapply links_drop_family.
  - done.
  - cbn. rewrite Hfd. by intros [].
  - intros _. by rewrite Hcm, bool_decide_eq_true_2 by (by left).
  - intros k y Hk. rewrite Hcm. case_bool_decide; [done|]. intros Hy. by exists y.
Qed.

Lemma destroy_ok w sid x :
  world_ok w -> cmap w !! sid = Some x ->
  gives (destroy w sid) (fun w' => destroyed w w' sid x).
Proof.
  intros Hw (p&s&Hs&->)%cmap_inv. destruct (fd_entry s) eqn:Hfd.
  - apply destroy_held; [done..|]. by rewrite Hfd.
  - destruct (parent_sock p) eqn:Hp; [by eapply destroy_linked|by apply destroy_root].
Qed.

(** Destruction as an evolution of states. *)
Lemma destroyed_evolves w w' sid x :
  cmap w !! sid = Some x -> destroyed w w' sid x -> evolves_to (rtc tcp_edge) w w'.
Proof.
  intros Hx [Hok Hn Hh Hg Ho]. unfold evolves_to. rewrite Hn. split; [lia|]. intros k y Hy. right.
  destruct (decide (k = sid)) as [->|Hk].
  - exists x. split; [done|]. destruct (p_fd x) eqn:Hfd; [|by rewrite Hg in Hy].
    rewrite (proj2 (Hh ltac:(eauto))), lookup_insert_eq in Hy. injection Hy as <-. apply rtc_once, te_close.
  - destruct (Ho _ _ Hk Hy) as (y0&?&->). by exists y0.
Qed.
End destroy.
