(* ===== verification/TcpWorldSafe.v ===== *)
(** Every event keeps the world consistent (TcpWorld.v): no handler touches a
    freed socket or fails an assertion, the queues of new connections and the
    address tables stay exact, and protocol states move along the diagram. *)

From stdpp Require Import prelude list gmap relations.
From Stdlib Require Import ZArith Lia.
From S2P Require Import Prelude TcpDefs TcpSeq TcpTimer TcpWindow TcpOutput TcpSendInv TcpRecv TcpInput.
From S2P Require Import TcpFrame BindTable TcpApi HashTable TupleTable TcpWorld TcpPlace TcpTables TcpLinks.

(** *** Edges *)

Definition live_edge (st st' : tcp_state) : Prop := input_edge st st' \/ fin_edge st st'.

Lemma live_edges_ends st st' :
  rtc live_edge st st' ->
  (st = TCP_STATE_CLOSED -> st' = TCP_STATE_CLOSED) /\
  (st' = TCP_STATE_SYN_SENT -> st = TCP_STATE_SYN_SENT) /\
  (st' = TCP_STATE_LISTEN -> st = TCP_STATE_LISTEN).
Proof.
  induction 1 as [|a b c Hab _ (I1&I2&I3)]; [done|].
  destruct Hab as [Hab|Hab]; inversion Hab; subst; split_and!; try done; intros Hc;
    first [discriminate (I2 Hc)|discriminate (I3 Hc)].
Qed.

Lemma input_edges_acceptable st st' : rtc input_edge st st' -> acceptable st -> acceptable st'.
Proof.
  induction 1 as [|a b c Hab _ IH]; [done|]. intros [-> | ->]; inversion Hab; subst.
  apply IH. by right.
Qed.

Lemma live_tcp st st' : rtc live_edge st st' -> rtc tcp_edge st st'.
Proof. apply rtc_subrel. intros a b [?|?]; [by apply te_input|by apply te_fin]. Qed.

Lemma input_live st st' : rtc input_edge st st' -> rtc live_edge st st'.
Proof. apply rtc_subrel. by left. Qed.

Lemma fin_live st st' : rtc fin_edge st st' -> rtc live_edge st st'.
Proof. apply rtc_subrel. by right. Qed.

(** *** Moving a socket on, between and off a listener's queues *)

Lemma links_relink m sid x x' l y y' :
  links m -> m !! sid = Some x -> m !! l = Some y -> l <> sid ->
  (p_parent x = None \/ p_parent x = Some l) ->
  p_syn x = [] -> p_acc x = [] -> p_syn x' = [] -> p_acc x' = [] ->
  p_syn_num x' = 0 -> p_acc_num x' = 0 ->
  p_parent y = None -> p_parent y' = None -> p_fd y' = p_fd y -> p_state y' = p_state y ->
  p_backlog y' = p_backlog y ->
  (forall k, k <> sid -> (k ∈ p_syn y' <-> k ∈ p_syn y) /\ (k ∈ p_acc y' <-> k ∈ p_acc y)) ->
  NoDup (p_syn y' ++ p_acc y') -> p_syn_num y' = zlen (p_syn y') -> p_acc_num y' = zlen (p_acc y') ->
  zlen (p_syn y' ++ p_acc y') <= INT_MAX ->
  (p_parent x' = None /\ sid ∉ p_syn y' ++ p_acc y' \/
   p_parent x' = Some l /\ sid ∈ p_syn y' ++ p_acc y' /\ p_fd x' = None /\ p_queue x' = [] /\
   (sid ∈ p_syn y' -> p_state x' = TCP_STATE_SYN_RECEIVED) /\
   (sid ∈ p_acc y' -> acceptable (p_state x'))) ->
  p_state x' <> TCP_STATE_SYN_SENT -> p_state x' <> TCP_STATE_LISTEN ->
  links (<[l := y']> (<[sid := x']> m)).
Proof.
  intros Hm Hx Hy Hne Hpx Sx Ax Sx' Ax' Nx1 Nx2 Py Py' Fy Sy By Hk Hnd N1 N2 Hfew Hst Hs1 Hs2.
  assert (Hl' : <[l := y']> (<[sid := x']> m) !! l = Some y') by apply lookup_insert_eq.
  assert (Hs' : <[l := y']> (<[sid := x']> m) !! sid = Some x')
    by (rewrite lookup_insert_ne by done; apply lookup_insert_eq).
  assert (Ho' : forall k, k <> l -> k <> sid -> <[l := y']> (<[sid := x']> m) !! k = m !! k)
    by (intros; by rewrite !lookup_insert_ne by done).
  set (m' := <[l := y']> (<[sid := x']> m)) in *. clearbody m'.
  assert (Hcases : forall k z, m' !! k = Some z ->
    (k = l /\ z = y') \/ (k = sid /\ z = x') \/ (k <> l /\ k <> sid /\ m !! k = Some z)).
  { intros k z Hz. destruct (decide (k = l)) as [->|]; [left; split; congruence|].
    destruct (decide (k = sid)) as [->|]; [right; left; split; congruence|].
    right; right. by rewrite <- Ho'. }
  assert (Helse : forall k z, m !! k = Some z -> k <> l -> sid ∉ p_syn z ++ p_acc z).
  { intros k z Hz Hkl Hin. pose proof (links_elsewhere _ _ _ _ _ Hm Hx Hz Hin). destruct Hpx; congruence. }
  (* a child other than [sid] is where it was *)
  assert (Hchild : forall ch u, ch <> sid -> m !! ch = Some u -> is_Some (p_parent u) -> m' !! ch = Some u).
  { intros ch u Hc Hu Hp. rewrite Ho'; [done| |done]. intros ->.
    assert (u = y) as -> by congruence. rewrite Py in Hp. by destruct Hp. }
  split; intros k z; [..|intros Hz|intros Hz|intros Hz].
  - intros [[-> ->]|[[-> ->]|(_&_&Hz)]]%Hcases; [done|rewrite Sx', Ax'; apply NoDup_nil_2|by eapply lk_nodup].
  - intros [[-> ->]|[[-> ->]|(_&_&Hz)]]%Hcases; [done|by rewrite Sx', Ax', Nx1, Nx2|by eapply lk_nums].
  - intros [[-> ->]|[[-> ->]|(_&_&Hz)]]%Hcases; [done|rewrite Sx', Ax'; unfold INT_MAX, zlen; cbn; lia|by eapply lk_few].
  - intros ch [[-> ->]|[[-> ->]|(H1&H2&Hz)]]%Hcases Hin.
    + destruct (decide (ch = sid)) as [->|Hc].
      * exists x'. destruct Hst as [[_ Hn]|(?&_&_&_&Hst&_)]; [|by split_and!; auto].
        destruct Hn. apply elem_of_app. by left.
      * apply Hk in Hin; [|done]. destruct (lk_syn _ Hm _ _ _ Hy Hin) as (u&Hu&U1&U2).
        exists u. split_and!; try done. apply Hchild; [done..|]. by rewrite U1.
    + rewrite Sx' in Hin. by apply not_elem_of_nil in Hin.
    + assert (ch <> sid) by (intros ->; eapply Helse; [exact Hz|done|apply elem_of_app; by left]).
      destruct (lk_syn _ Hm _ _ _ Hz Hin) as (u&Hu&U1&U2). exists u. split_and!; try done.
      apply Hchild; [done..|]. by rewrite U1.
  - intros ch [[-> ->]|[[-> ->]|(H1&H2&Hz)]]%Hcases Hin.
    + destruct (decide (ch = sid)) as [->|Hc].
      * exists x'. destruct Hst as [[_ Hn]|(?&_&_&_&_&Hst)]; [|by split_and!; auto].
        destruct Hn. apply elem_of_app. by right.
      * apply Hk in Hin; [|done]. destruct (lk_acc _ Hm _ _ _ Hy Hin) as (u&Hu&U1&U2).
        exists u. split_and!; try done. apply Hchild; [done..|]. by rewrite U1.
    + rewrite Ax' in Hin. by apply not_elem_of_nil in Hin.
    + assert (ch <> sid) by (intros ->; eapply Helse; [exact Hz|done|apply elem_of_app; by right]).
      destruct (lk_acc _ Hm _ _ _ Hz Hin) as (u&Hu&U1&U2). exists u. split_and!; try done.
      apply Hchild; [done..|]. by rewrite U1.
  - intros j [[-> ->]|[[-> ->]|(H1&H2&Hz)]]%Hcases Hp.
    + congruence.
    + destruct Hst as [[? _]|(?&Hin&_)]; [congruence|]. exists y'. split; [congruence|done].
    + destruct (lk_parent _ Hm _ _ _ Hz Hp) as (u&Hu&Hin). destruct (decide (j = l)) as [->|].
      * exists y'. split; [done|]. assert (u = y) as -> by congruence.
        rewrite elem_of_app in *. destruct (Hk k H2) as [-> ->]. done.
      * exists u. split; [|done]. rewrite Ho'; [done..|]. intros ->.
        assert (u = x) as -> by congruence. rewrite Sx, Ax in Hin. by apply not_elem_of_nil in Hin.
  - destruct (Hcases _ _ Hz) as [[-> ->]|[[-> ->]|(_&_&Hz')]].
    + rewrite Py'. by intros [].
    + intros Hp. destruct Hst as [[E _]|(_&_&?&?&_)]; [rewrite E in Hp; by destruct Hp|done].
    + by eapply lk_child.
  - destruct (Hcases _ _ Hz) as [[-> ->]|[[-> ->]|(_&_&Hz')]]; [|done|by eapply lk_syn_sent].
    rewrite Sy, Fy. by eapply lk_syn_sent.
  - destruct (Hcases _ _ Hz) as [[-> ->]|[[-> ->]|(_&_&Hz')]]; [|done|by eapply lk_listen].
    rewrite Sy, By. by eapply lk_listen.
Qed.

Section safe.
Context {T : Type} `{KT : !KeyTable T}.
#[local] Abbreviation world := (world (T := T)).
Implicit Types w : world.

(** *** Handlers of one connection *)

Lemma world_ok_env w e : world_ok w -> world_ok (set_env w e).
Proof. intros [Hl Ht]. split; done. Qed.

Lemma evolves_to_refl w : evolves_to (rtc tcp_edge) w w.
Proof. apply evolves_refl, _. Qed.

Lemma evolves_to_trans w1 w2 w3 :
  evolves_to (rtc tcp_edge) w1 w2 -> evolves_to (rtc tcp_edge) w2 w3 -> evolves_to (rtc tcp_edge) w1 w3.
Proof. apply evolves_trans. intros a b c H1 H2. by etrans. Qed.

(** A socket moves within its spot. *)
Lemma put_ok w sid c x st q :
  world_ok w -> cmap w !! sid = Some x -> spot_of c = moved_to x st q ->
  rtc live_edge (p_state x) st ->
  (is_Some (p_parent x) -> child_keeps x (spot_of c)) ->
  world_ok (put w sid c) /\ evolves_to (rtc tcp_edge) w (put w sid c).
Proof.
  intros [Hl Ht] Hx E He Hc. destruct (live_edges_ends _ _ He) as (E1&E2&E3). split; [split|].
  - rewrite cmap_put. eapply links_insert; try done; rewrite E; try done; cbn.
    + intros Hs. eapply lk_syn_sent; eauto.
    + intros Hs. eapply lk_listen; eauto.
  - eapply tables_put; [done|done|]. rewrite E. unfold same_address. by split_and!.
  - unfold evolves_to. rewrite cmap_put. cbn [w_next put].
    apply (evolves_insert _ _ _ _ x); [apply _|done|]. rewrite E. by apply live_tcp.
Qed.

Definition safe_put (w : world) (sid : Z) (c : conn) : Prop :=
  world_ok (put w sid c) /\ evolves_to (rtc tcp_edge) w (put w sid c).

Lemma put_same w sid c c' :
  world_ok w -> get w sid = Some c -> spot_of c' = spot_of c -> safe_put w sid c'.
Proof.
  intros Hw [Hx _]%cmap_get E. eapply put_ok; [done|done|rewrite E; symmetry; apply spot_moved_same| |].
  - apply rtc_refl.
  - intros Hp. destruct (lk_child _ (wo_links _ Hw) _ _ Hx Hp) as (?&?&?&?). rewrite E. by split_and!.
Qed.

Lemma put_shifts w sid c c' :
  world_ok w -> get w sid = Some c -> parent_sock (pcb c) = None ->
  shifts live_edge c c' -> safe_put w sid c'.
Proof.
  intros Hw [Hx _]%cmap_get Hp (st&q&E&R). eapply put_ok; try done. cbn. rewrite Hp. by intros [].
Qed.

Lemma put_moves w sid c c' :
  world_ok w -> get w sid = Some c -> moves fin_edge c c' -> safe_put w sid c'.
Proof.
  intros Hw [Hx _]%cmap_get (st&q&E&R&Hi). eapply put_ok; try done; [by apply fin_live|].
  intros Hp. destruct (lk_child _ (wo_links _ Hw) _ _ Hx Hp) as (?&?&?&Hq).
  destruct (Hi Hq) as [-> ->]. rewrite E. by split_and!.
Qed.

Lemma put_steps w sid c c' :
  world_ok w -> get w sid = Some c -> state (pcb c) <> TCP_STATE_SYN_RECEIVED ->
  steps input_edge c c' -> safe_put w sid c'.
Proof.
  intros Hw [Hx _]%cmap_get Hns (st&E&R). eapply put_ok; try done; [by apply input_live|].
  intros Hp. destruct (lk_child _ (wo_links _ Hw) _ _ Hx Hp) as (?&?&?&Hq). rewrite E.
  split_and!; try done. cbn. by apply input_edges_acceptable.
Qed.

(** *** What a step guarantees *)

Definition safe (R : relation tcp_state) (w : world) (o : option world) : Prop :=
  gives o (fun w' => world_ok w' /\ evolves_to R w w').

Abbreviation calm := (rtc tcp_edge).

Lemma safe_ret w : world_ok w -> safe calm w (Some w).
Proof. intros Hw. apply gives_ret. split; [done|apply evolves_to_refl]. Qed.

Lemma safe_put_ret w sid c : safe_put w sid c -> safe calm w (Some (put w sid c)).
Proof. intros H. by apply gives_ret. Qed.

Lemma safe_trans w w1 o :
  evolves_to calm w w1 -> safe calm w1 o -> safe calm w o.
Proof.
  intros H1 (w2&->&Hok&H2). apply gives_ret. split; [done|]. by eapply evolves_to_trans.
Qed.

Lemma on_safe w sid c f : get w sid = Some c -> safe_put w sid (f c) -> safe calm w (on w sid f).
Proof. intros Hg H. unfold on. rewrite Hg. by apply safe_put_ret. Qed.

Lemma destroy_safe w sid c : world_ok w -> get w sid = Some c -> safe calm w (destroy w sid).
Proof.
  intros Hw [Hx _]%cmap_get. destruct (destroy_ok w sid _ Hw Hx) as (w'&->&Hd).
  apply gives_ret. split; [apply Hd|by eapply destroyed_evolves].
Qed.

Lemma get_put w sid c : get (put w sid c) sid = Some (mk_conn (pcb c) (sock c) (ev c)).
Proof. unfold get, put. cbn [w_conns w_env]. by rewrite lookup_insert_eq. Qed.

Lemma get_put_same w sid c : get (put w sid c) sid = Some c.
Proof. rewrite get_put. by destruct c. Qed.

Lemma get_put_ne w sid k c c' :
  sid <> k -> get w k = Some c' -> get (put w sid c) k = Some (mk_conn (pcb c') (sock c') (ev c)).
Proof.
  intros Hne. unfold get, put. cbn [w_conns w_env]. rewrite lookup_insert_ne by done.
  destruct (w_conns w !! k) as [[p s]|]; [|done]. by intros [= <-].
Qed.

(** *** Timers *)

Lemma timer_safe w sid c : world_ok w -> get w sid = Some c -> safe calm w (tcp_timer_cb w sid).
Proof.
  intros Hw Hg. unfold tcp_timer_cb, on_ret. rewrite Hg.
  set (c0 := c <|p timer_task := _ |>).
  pose proof (timer_body_moves c0) as Hm. destruct (timer_body c0) as [d c1]. cbn [snd] in Hm.
  assert (Hp : safe_put w sid c1).
  { eapply put_moves; [done|done|]. by apply (moves_after _ _ c0). }
  destruct d; [|by apply safe_put_ret].
  eapply safe_trans; [apply Hp|]. eapply destroy_safe; [apply Hp|apply get_put_same].
Qed.

(** *** Segment input *)

Lemma u32_succ n : 0 <= n < INT_MAX -> u32 (n + 1) = n + 1.
Proof. unfold INT_MAX. intros. apply wrap_id. unfold is_u. lia. Qed.

Lemma put_put_cmap w sid c l c' :
  cmap (put (put w sid c) l c') = <[l := spot_of c']> (<[sid := spot_of c]> (cmap w)).
Proof. by rewrite !cmap_put. Qed.

(** Two sockets change: the states of both are known. *)
Lemma evolves_two (R : relation tcp_state) w sid l x y c c' :
  Reflexive R -> cmap w !! sid = Some x -> cmap w !! l = Some y -> l <> sid ->
  R (p_state x) (state (pcb c)) -> R (p_state y) (state (pcb c')) ->
  evolves_to R w (put (put w sid c) l c').
Proof.
  intros HR Hx Hy Hne H1 H2. unfold evolves_to. rewrite put_put_cmap. split; [cbn; lia|].
  intros k z [[<- <-]|[Hk Hz]]%lookup_insert_Some; right; [by exists y|].
  apply lookup_insert_Some in Hz as [[<- <-]|[_ Hz]]; [by exists x|by exists z].
Qed.

(** The connection is established: with its listener's queues. *)
Lemma promote_safe w sid c c1 :
  world_ok w -> get w sid = Some c -> state (pcb c) = TCP_STATE_SYN_RECEIVED ->
  spot_of c1 = moved_to (spot_of c) TCP_STATE_ESTABLISHED (send_queue (sock c)) ->
  gives (promote (put w sid c1) sid) (fun w' => world_ok w' /\ evolves_to calm w w' /\
    exists c2, get w' sid = Some c2 /\ state (pcb c2) = TCP_STATE_ESTABLISHED).
Proof.
  intros Hw Hg Hst E. destruct (cmap_get _ _ _ Hg) as [Hx _].
  assert (Hedge : rtc live_edge TCP_STATE_SYN_RECEIVED TCP_STATE_ESTABLISHED)
    by (apply rtc_once; left; constructor).
  unfold promote. rewrite get_put_same.
  rewrite (f_equal p_parent E : parent_sock (pcb c1) = parent_sock (pcb c)).
  destruct (parent_sock (pcb c)) as [l|] eqn:Hp; cycle 1.
  { unfold on. rewrite get_put_same. apply gives_ret.
    assert (Hpp : put (put w sid c1) sid (notify_event c1 notify_data_write)
                  = put w sid (notify_event c1 notify_data_write)).
    { unfold put. cbn. by rewrite insert_insert_eq. }
    rewrite Hpp. set (c2 := notify_event c1 _).
    assert (E2 : spot_of c2 = spot_of c1) by apply (f_notify spot_of). clearbody c2.
    rewrite <- E2 in E. destruct (put_ok w sid c2 _ _ _ Hw Hx E) as [H1 H2].
    - cbn. by rewrite Hst.
    - cbn. rewrite Hp. by intros [].
    - split_and!; [done..|]. exists c2. split; [apply get_put_same|exact (f_equal p_state E)]. }
  destruct Hw as [Hl Ht]. pose proof (links_not_own _ _ _ _ Hl Hx Hp) as Hne.
  destruct (lk_parent _ Hl _ _ _ Hx Hp) as (y&Hy&Hin).
  destruct (get_cmap _ _ _ Hy) as (cl&Hgl&Ey&_&_).
  destruct (lk_child _ Hl _ _ Hx ltac:(by cbn; rewrite Hp)) as (Hfd&Hs0&Ha0&Hq0).
  assert (Hsyn : sid ∈ p_syn y).
  { apply elem_of_app in Hin as [?|Hin]; [done|].
    destruct (lk_acc _ Hl _ _ _ Hy Hin) as (z&Hz&_&Ha). assert (z = spot_of c) as -> by congruence.
    cbn in Ha. rewrite Hst in Ha. by destruct Ha. }
  pose proof (lk_nodup _ Hl _ _ Hy) as Hnd. destruct (lk_nums _ Hl _ _ Hy) as [N1 N2].
  pose proof (lk_few _ Hl _ _ Hy) as Hfew.
  assert (Hpy : p_parent y = None).
  { destruct (p_parent y) eqn:Epy; [|done].
    destruct (lk_child _ Hl _ _ Hy ltac:(by rewrite Epy)) as (_&Es&_). rewrite Es in Hsyn.
    by apply not_elem_of_nil in Hsyn. }
  unfold on. rewrite (get_put_ne w sid l c1 cl) by done. apply gives_ret.
  match goal with |- context [notify_event ?x ?e] => set (l1 := x) end.
  set (c2 := notify_event l1 _).
  assert (E2 : spot_of c2 = spot_of l1) by apply (f_notify spot_of). clearbody c2.
  assert (D : NoDup (p_syn y) /\ (forall k, k ∈ p_syn y -> k ∉ p_acc y) /\ NoDup (p_acc y)) by (by apply NoDup_app).
  destruct D as (D1&D2&D3). pose proof (without_length _ _ D1 Hsyn) as Hlen.
  unfold zlen in Hfew. rewrite length_app in Hfew.
  assert (Hpos : 1 <= zlen (p_syn y)) by (destruct (p_syn y); [by apply not_elem_of_nil in Hsyn|unfold zlen; cbn; lia]).
  assert (Z1 : p_syn (spot_of l1) = without sid (p_syn y)) by (by rewrite <- Ey).
  assert (Z2 : p_acc (spot_of l1) = sid :: p_acc y) by (by rewrite <- Ey).
  assert (Z3 : p_syn_num (spot_of l1) = zlen (p_syn (spot_of l1))).
  { rewrite Z1, Hlen, <- N1, <- Ey. cbn. apply u32_pred.
    change (syn_list_num (pcb cl)) with (p_syn_num (spot_of cl)). rewrite Ey, N1. unfold zlen in *. lia. }
  assert (Z4 : p_acc_num (spot_of l1) = zlen (p_acc (spot_of l1))).
  { rewrite Z2. unfold zlen. cbn [length]. rewrite Nat2Z.inj_succ. change (Z.of_nat (length (p_acc y))) with (zlen (p_acc y)).
    rewrite <- N2, <- Ey. cbn. unfold Z.succ. apply u32_succ.
    change (accept_list_num (pcb cl)) with (p_acc_num (spot_of cl)). rewrite Ey, N2. unfold zlen in *. lia. }
  split_and!; [split| |].
  - rewrite put_put_cmap, E2.
    eapply (links_relink _ _ (spot_of c) _ _ y); try done; rewrite ?E; try done.
    + by right.
    + change (p_syn_num (spot_of c) = 0). destruct (lk_nums _ Hl _ _ Hx) as [-> _]. by rewrite Hs0.
    + change (p_acc_num (spot_of c) = 0). destruct (lk_nums _ Hl _ _ Hx) as [_ ->]. by rewrite Ha0.
    + by rewrite <- Ey in Hpy.
    + by rewrite <- Ey.
    + by rewrite <- Ey.
    + by rewrite <- Ey.
    + intros k Hk. rewrite Z1, Z2, without_elem, elem_of_cons. tauto.
    + rewrite Z1, Z2. apply NoDup_app. split_and!.
      * by apply NoDup_filter.
      * intros k [Hk1 Hk2]%without_elem [?|?]%elem_of_cons; [done|]. by eapply D2.
      * apply NoDup_cons. split; [by apply D2|done].
    + rewrite Z1, Z2. unfold zlen in *. rewrite length_app. cbn [length]. lia.
    + right. rewrite Z1, Z2. cbn. rewrite Hp. split_and!; try done.
      * apply elem_of_app. right. left.
      * intros [??]%without_elem. done.
      * intros _. by left.
  - eapply tables_put; [eapply tables_put; [done|done|]| |].
    + rewrite E. unfold same_address. split_and!; try done. cbn. congruence.
    + rewrite cmap_put, lookup_insert_ne by done. exact Hy.
    + rewrite E2, <- Ey. unfold same_address. by split_and!.
  - apply (evolves_two _ _ _ _ _ _ _ _ _ Hx Hy Hne).
    + rewrite (f_equal p_state E : state (pcb c1) = _). cbn. rewrite Hst. by apply live_tcp.
    + rewrite (f_equal p_state E2 : state (pcb c2) = _), <- Ey. apply rtc_refl.
  - eexists. split; [apply get_put_ne; [done|apply get_put_same]|]. cbn. exact (f_equal p_state E).
Qed.

(** Segments in the synchronised states and in SYN_RECEIVED. *)
Definition input_conn (w : world) (sid : Z) (sg : seg) : option (Z * world) :=
  match on_ret w sid (fun c => input_front c sg) with
  | None => None
  | Some (Return, w) => Some (0, w)
  | Some (Destroy, w) => returning 0 (destroy w sid)
  | Some (Promote, w) =>
      match promote w sid with
      | None => None
      | Some w => returning 0 (on w sid (fun c => input_back c sg))
      end
  | Some (Continue, w) => returning 0 (on w sid (fun c => input_back c sg))
  end.

(** The result of a call is dropped. *)
Lemma safe_returning R w (r : Z) o : safe R w o -> safe R w (drop_ret (returning r o)).
Proof. intros (w'&->&H). apply gives_ret. exact H. Qed.

Lemma input_conn_safe w sid c sg :
  world_ok w -> get w sid = Some c -> safe calm w (drop_ret (input_conn w sid sg)).
Proof.
  intros Hw Hg. unfold input_conn, on_ret. rewrite Hg.
  pose proof (input_front_spot c sg) as H. destruct (input_front c sg) as [v c1]. destruct v.
  - destruct H as [Hns Hs]. pose proof (put_steps _ _ _ _ Hw Hg Hns Hs) as Hp.
    apply safe_returning. eapply safe_trans; [apply Hp|]. eapply on_safe; [apply get_put_same|].
    eapply put_steps; [apply Hp|apply get_put_same| |apply input_back_steps];
      destruct Hs as (st&E&R); rewrite (f_equal p_state E : state (pcb c1) = st);
      inversion R as [|? b ? Hab Hr]; subst; try done; clear -Hr Hab;
      (intros ->; assert (forall a, rtc input_edge a TCP_STATE_SYN_RECEIVED -> a = TCP_STATE_SYN_RECEIVED)
         as Hend by (intros a Ha; apply rtc_inv_r in Ha as [?|(z&_&Hz)]; [done|by inversion Hz]);
       apply Hend in Hr as ->; by inversion Hab).
  - apply safe_put_ret. by eapply put_same.
  - pose proof (put_same _ _ _ _ Hw Hg H) as Hp. apply safe_returning.
    eapply safe_trans; [apply Hp|]. eapply destroy_safe; [apply Hp|apply get_put_same].
  - destruct H as [Hst E]. destruct (promote_safe w sid c c1 Hw Hg Hst E) as (w2&->&Hw2&Hev&c2&Hg2&Hst2).
    apply safe_returning. eapply safe_trans; [exact Hev|]. eapply on_safe; [done|].
    eapply put_steps; [done..| |apply input_back_steps]; by rewrite Hst2.
Qed.

Lemma input_closed_safe w sid c sg :
  world_ok w -> get w sid = Some c ->
  safe calm w (drop_ret (on_ret w sid (fun c => input_closed c sg))).
Proof.
  intros Hw Hg. unfold on_ret. rewrite Hg. pose proof (spot_input_closed c sg) as H.
  destruct (input_closed c sg) as [r c1]. apply safe_put_ret. by eapply put_same.
Qed.

(** What a call may do besides: opening. *)
Inductive open_edge : tcp_state -> tcp_state -> Prop :=
  | oe_listen : open_edge TCP_STATE_CLOSED TCP_STATE_LISTEN
  | oe_connect : open_edge TCP_STATE_CLOSED TCP_STATE_SYN_SENT
  | oe_answered : open_edge TCP_STATE_SYN_SENT TCP_STATE_ESTABLISHED
  | oe_both : open_edge TCP_STATE_SYN_SENT TCP_STATE_SYN_RECEIVED.

Definition event_edge (st st' : tcp_state) : Prop := rtc tcp_edge st st' \/ open_edge st st'.

#[global] Instance event_edge_refl : Reflexive event_edge.
Proof. intros st. left. apply rtc_refl. Qed.

Lemma closed_edges st :
  event_edge TCP_STATE_CLOSED st ->
  st = TCP_STATE_CLOSED \/ st = TCP_STATE_LISTEN \/ st = TCP_STATE_SYN_SENT.
Proof.
  intros [H|H]; [|inversion H; tauto]. left. remember TCP_STATE_CLOSED as st0 eqn:E.
  induction H as [|a b c Hab _ IH]; [done|]. subst a.
  assert (b = TCP_STATE_CLOSED) as -> by (inversion Hab as [? ? He|? ? He|]; [inversion He..|done]).
  by apply IH.
Qed.

Lemma safe_calm w o : safe calm w o -> safe event_edge w o.
Proof.
  intros (w'&->&Hok&[Hn Hs]). apply gives_ret. split; [done|]. split; [done|].
  intros k x [?|(y&?&?)]%Hs; [by left|]. right. exists y. split; [done|]. by left.
Qed.

(** A socket changes its state, its tuple being its own. *)
Lemma put_open w sid c x st q :
  world_ok w -> cmap w !! sid = Some x -> spot_of c = moved_to x st q -> p_parent x = None ->
  (p_hash x = true -> tuple_of (w_tuples w (spot_v6 x)) sid = Some (spot_key x)) ->
  (st = TCP_STATE_SYN_SENT -> is_Some (p_fd x)) ->
  (st = TCP_STATE_LISTEN -> 1 <= p_backlog x <= INT_MAX) ->
  world_ok (put w sid c).
Proof.
  intros [Hl Ht] Hx E Hp Hk Hss Hls. split.
  - rewrite cmap_put. eapply links_insert; try done; rewrite E; try done. rewrite Hp. by intros [].
  - unfold tables_of. rewrite cmap_put, E. destruct (tb_len _ _ _ _ _ Ht _ _ Hx).
    cbn [w_tuples w_binds w_reserved w_next put]. eapply tables_insert; try done. intros Hh _. by apply Hk.
Qed.

Lemma evolves_one (R : relation tcp_state) w w' sid x x' :
  Reflexive R -> cmap w !! sid = Some x -> cmap w' = <[sid := x']> (cmap w) -> w_next w' = w_next w ->
  R (p_state x) (p_state x') -> evolves_to R w w'.
Proof. intros HR Hx E En He. unfold evolves_to. rewrite E, En. by eapply evolves_insert. Qed.

(** A socket that is not closed is in the table under its own tuple. *)
Lemma own_tuple w sid x :
  tables_of w -> cmap w !! sid = Some x -> p_state x <> TCP_STATE_CLOSED -> p_hash x = true ->
  tuple_of (w_tuples w (spot_v6 x)) sid = Some (spot_key x).
Proof.
  intros Ht Hx Hs Hh. destruct (tb_hash _ _ _ _ _ Ht _ _ Hx Hh) as (k&->&Hk). by rewrite Hk.
Qed.

Lemma put_put w sid c c' : put (put w sid c) sid c' = put w sid c'.
Proof. unfold put. cbn. by rewrite insert_insert_eq. Qed.

(** The answer to our SYN, in a world where the socket is as it was or closed. *)
Lemma syn_sent_rest_safe w w1 sid c sg st :
  world_ok w -> get w sid = Some c -> state (pcb c) = TCP_STATE_SYN_SENT ->
  world_ok w1 -> w_tuples w1 = w_tuples w -> w_next w1 = w_next w ->
  cmap w1 = <[sid := moved_to (spot_of c) st (send_queue (sock c))]> (cmap w) ->
  (st = TCP_STATE_SYN_SENT \/ st = TCP_STATE_CLOSED) ->
  safe event_edge w (on w1 sid (fun c => syn_sent_rest c sg)).
Proof.
  intros Hw Hg Hst Hw1 Htt Hn Hcm Hst1. destruct (cmap_get _ _ _ Hg) as [Hx _].
  destruct (lk_syn_sent _ (wo_links _ Hw) _ _ Hx Hst) as [fd Hfd].
  assert (Hp : p_parent (spot_of c) = None).
  { destruct (p_parent (spot_of c)) eqn:Ep; [|done].
    destruct (lk_child _ (wo_links _ Hw) _ _ Hx ltac:(by rewrite Ep)) as (?&_). congruence. }
  destruct (get_cmap w1 sid (moved_to (spot_of c) st (send_queue (sock c)))) as (c1&Hg1&E1&_&_);
    [by rewrite Hcm, lookup_insert_eq|].
  unfold on. rewrite Hg1. apply gives_ret.
  assert (H : exists st', spot_of (syn_sent_rest c1 sg) = moved_to (spot_of c) st' (send_queue (sock c)) /\
    event_edge TCP_STATE_SYN_SENT st').
  { destruct (syn_sent_rest_spot c1 sg) as [E|(st'&E&Hst')].
    - exists st. rewrite E, E1. split; [done|]. left.
      destruct Hst1 as [-> | ->]; [apply rtc_refl|apply rtc_once, te_close].
    - exists st'. rewrite E, E1. split; [by rewrite (f_equal p_queue E1 : send_queue (sock c1) = _)|].
      right. destruct Hst' as [-> | ->]; constructor. }
  destruct H as (st'&E&He). split.
  - eapply (put_open w1 sid _ (spot_of c1)); [done|rewrite E1, Hcm; apply lookup_insert_eq| | | | |].
    + rewrite E, E1. reflexivity.
    + by rewrite E1.
    + rewrite E1, Htt. intros Hh. apply (own_tuple w sid (spot_of c)); [apply Hw|done| |done].
      cbn. by rewrite Hst.
    + rewrite E1. intros _. exists fd. exact Hfd.
    + intros ->. destruct He as [He|He]; [|by inversion He].
      apply rtc_inv_r in He as [?|(z&_&Hz)]; [done|]. inversion Hz as [?? Hi|?? Hi|]; inversion Hi.
  - eapply (evolves_one _ w _ sid (spot_of c)); [apply _|done| |done|].
    + rewrite cmap_put, Hcm, insert_insert_eq. done.
    + rewrite E. cbn. by rewrite Hst.
Qed.

Lemma syn_sent_safe w sid c sg :
  world_ok w -> get w sid = Some c -> state (pcb c) = TCP_STATE_SYN_SENT ->
  safe event_edge w (tcp_process_syn_sent w sid sg).
Proof.
  intros Hw Hg Hst. destruct (cmap_get _ _ _ Hg) as [Hx _].
  unfold tcp_process_syn_sent, on_ret. rewrite Hg.
  pose proof (spot_syn_sent_check_ack c sg) as E1.
  destruct (syn_sent_check_ack c sg) as [v c1] eqn:Ev. cbn [snd] in E1.
  destruct (put_same _ _ _ _ Hw Hg E1) as [Hw1 Hev1].
  assert (Hcm1 : cmap (put w sid c1) = <[sid := moved_to (spot_of c) TCP_STATE_SYN_SENT (send_queue (sock c))]> (cmap w)).
  { rewrite cmap_put, E1, <- Hst. by rewrite spot_moved_same. }
  assert (Hcont : safe event_edge w
    match (if has (i_flags sg) TCP_FLAG_RST then
             match on (put w sid c1) sid (fun c => c <|s error := ECONNREFUSED |>) with
             | Some w => destroy w sid | None => None end
           else Some (put w sid c1)) with
    | None => None | Some w => on w sid (fun c => syn_sent_rest c sg) end).
  { case_if; [|by eapply syn_sent_rest_safe; eauto].
    unfold on at 1. rewrite get_put_same, put_put.
    set (c2 := c1 <|s error := ECONNREFUSED |>).
    assert (E2 : spot_of c2 = spot_of c) by (by rewrite <- E1). clearbody c2.
    destruct (put_same _ _ _ _ Hw Hg E2) as [Hw2 _].
    assert (Hx2 : cmap (put w sid c2) !! sid = Some (spot_of c)) by (by rewrite cmap_put, lookup_insert_eq, E2).
    destruct (destroy_ok _ sid _ Hw2 Hx2) as (w3&->&[Hok Hn Hh _ _]).
    destruct (Hh (lk_syn_sent _ (wo_links _ Hw) _ _ Hx Hst)) as [Htt Hcm].
    eapply (syn_sent_rest_safe w w3 sid c sg TCP_STATE_CLOSED); try done; [|by right].
    rewrite Hcm, cmap_put, insert_insert_eq. done. }
  destruct v; try exact Hcont. apply safe_calm, gives_ret. done.
Qed.

(** *** Passive open *)

(** Only opening and acceptable connections have a listener. *)
Lemma child_state m sid x l :
  links m -> m !! sid = Some x -> p_parent x = Some l ->
  p_state x = TCP_STATE_SYN_RECEIVED \/ acceptable (p_state x).
Proof.
  intros Hm Hx Hp. destruct (lk_parent _ Hm _ _ _ Hx Hp) as (y&Hy&[Hin|Hin]%elem_of_app).
  - left. destruct (lk_syn _ Hm _ _ _ Hy Hin) as (z&?&_&?). congruence.
  - right. destruct (lk_acc _ Hm _ _ _ Hy Hin) as (z&?&_&?). congruence.
Qed.

Lemma root_state m sid x st :
  links m -> m !! sid = Some x -> p_state x = st -> st <> TCP_STATE_SYN_RECEIVED -> ~ acceptable st ->
  p_parent x = None.
Proof.
  intros Hm Hx <- H1 H2. destruct (p_parent x) eqn:Hp; [|done].
  by destruct (child_state _ _ _ _ Hm Hx Hp).
Qed.

(** A socket nobody knows yet. *)
Record bare (x : spot) : Prop := {
  ba_parent : p_parent x = None; ba_syn : p_syn x = []; ba_syn_num : p_syn_num x = 0;
  ba_acc : p_acc x = []; ba_acc_num : p_acc_num x = 0; ba_fd : p_fd x = None;
  ba_state : p_state x = TCP_STATE_CLOSED; ba_queue : p_queue x = []
}.

Lemma links_bare m n x : links m -> m !! n = None -> bare x -> links (<[n := x]> m).
Proof.
  intros Hm Hn [B1 B2 B3 B4 B5 B6 B7 B8].
  assert (Hof : forall k y, m !! k = Some y -> <[n := x]> m !! k = Some y)
    by (intros k y Hk; rewrite lookup_insert_ne; [done|congruence]).
  split; intros k y; [..|intros Hy|intros Hy|intros Hy].
  - intros [[<- <-]|[_ Hk]]%lookup_insert_Some; [rewrite B2, B4; apply NoDup_nil_2|by eapply lk_nodup].
  - intros [[<- <-]|[_ Hk]]%lookup_insert_Some; [by rewrite B2, B3, B4, B5|by eapply lk_nums].
  - intros [[<- <-]|[_ Hk]]%lookup_insert_Some; [rewrite B2, B4; unfold INT_MAX, zlen; cbn; lia|by eapply lk_few].
  - intros ch [[<- <-]|[_ Hk]]%lookup_insert_Some Hin; [rewrite B2 in Hin; by apply not_elem_of_nil in Hin|].
    destruct (lk_syn _ Hm _ _ _ Hk Hin) as (z&Hz&?). exists z. split; [by apply Hof|done].
  - intros ch [[<- <-]|[_ Hk]]%lookup_insert_Some Hin; [rewrite B4 in Hin; by apply not_elem_of_nil in Hin|].
    destruct (lk_acc _ Hm _ _ _ Hk Hin) as (z&Hz&?). exists z. split; [by apply Hof|done].
  - intros l [[<- <-]|[_ Hk]]%lookup_insert_Some Hp; [congruence|].
    destruct (lk_parent _ Hm _ _ _ Hk Hp) as (z&Hz&?). exists z. split; [by apply Hof|done].
  - apply lookup_insert_Some in Hy as [[<- <-]|[_ Hk]]; [rewrite B1; by intros []|by eapply lk_child].
  - apply lookup_insert_Some in Hy as [[<- <-]|[_ Hk]]; [congruence|by eapply lk_syn_sent].
  - apply lookup_insert_Some in Hy as [[<- <-]|[_ Hk]]; [congruence|by eapply lk_listen].
Qed.

(** The new socket [w_next w] on its way: everything else is as in [w]. *)
Record opening (w w' : world) (p : tcp_pcb) (s : Socket) : Prop := {
  op_links : links (cmap w);
  op_tables : tables_of w';
  op_conns : w_conns w' = <[w_next w := (p, s)]> (w_conns w);
  op_next : w_next w' = w_next w + 1;
  op_new : cmap w !! w_next w = None;
  op_bare : bare (spot_at p s)
}.

Lemma opening_cmap w w' p s : opening w w' p s -> cmap w' = <[w_next w := spot_at p s]> (cmap w).
Proof. intros H. by apply cmap_conns, op_conns. Qed.

Lemma opening_self w w' p s : opening w w' p s -> w_conns w' !! w_next w = Some (p, s).
Proof. intros H. by rewrite (op_conns _ _ _ _ H), lookup_insert_eq. Qed.

Lemma opening_ok w w' p s : opening w w' p s -> world_ok w'.
Proof.
  intros H. split; [|by eapply op_tables]. rewrite (opening_cmap _ _ _ _ H).
  apply links_bare; [eapply op_links|eapply op_new|eapply op_bare]; exact H.
Qed.

Lemma opening_evolves w w' p s : opening w w' p s -> evolves_to calm w w'.
Proof.
  intros H. unfold evolves_to. rewrite (opening_cmap _ _ _ _ H), (op_next _ _ _ _ H). split; [lia|].
  intros k x [[<- <-]|[_ Hk]]%lookup_insert_Some; [left; lia|]. right. by exists x.
Qed.

(** The next step of opening. *)
Lemma opening_update w w' p s w'' p' s' :
  opening w w' p s -> tables_of w'' -> w_next w'' = w_next w' ->
  w_conns w'' = <[w_next w := (p', s')]> (w_conns w') -> bare (spot_at p' s') -> opening w w'' p' s'.
Proof.
  intros [O1 O2 O3 O4 O5 O6] Ht Hn Hc Hb. split; try done; [|congruence].
  by rewrite Hc, O3, insert_insert_eq.
Qed.

Lemma opening_drop w w' p s : opening w w' p s -> safe calm w (drop_ret (drop_child w' (w_next w))).
Proof.
  intros H. pose proof (opening_ok _ _ _ _ H) as Hw'.
  destruct (destroy_safe w' (w_next w) (mk_conn p s (w_env w')) Hw') as (w2&E&Hok&Hev).
  { apply get_lookup. by apply opening_self. }
  unfold drop_child. rewrite E. apply gives_ret. split; [done|].
  eapply evolves_to_trans; [by eapply opening_evolves|done].
Qed.

(** Creation begins it. *)
Lemma create_opening w fam :
  world_ok w ->
  match create_socket w fam with
  | (None, w') => exists e, w' = set_env w e
  | (Some sid, w') => sid = w_next w /\ w_reserved w' = w_reserved w /\
      exists p s, opening w w' p s /\ spot_at p s = fresh_spot fam
  end.
Proof.
  intros [Hl Ht]. pose proof (create_socket_ok w fam Ht) as H.
  destruct (create_socket w fam) as [[sid|] w']; [|done].
  destruct H as (->&Hn&Ht'&HR&p&s&Hc&E). split_and!; try done. exists p, s. split; [|done].
  split; try done.
  - destruct (cmap w !! w_next w) eqn:Ex; [|done]. apply (tb_next _ _ _ _ _ Ht) in Ex. lia.
  - by rewrite E.
Qed.

(** The finished child joins its listener. *)
Lemma add_child_safe w w' p s l cl :
  opening w w' p s -> get w l = Some cl -> state (pcb cl) = TCP_STATE_LISTEN ->
  zlen (syn_list (pcb cl) ++ accept_list (pcb cl)) < INT_MAX ->
  (is_hash s = true -> tuple_of (w_tuples w' (is_v6 s)) (w_next w) = Some (spot_key (spot_at p s))) ->
  gives (add_child w' l (w_next w)) (fun w2 => world_ok w2 /\ evolves_to calm w w2 /\
    is_Some (get w2 (w_next w))).
Proof.
  intros Ho Hgl Hst Hfew Hk. set (n := w_next w). pose proof (opening_ok _ _ _ _ Ho) as [Hl' Ht'].
  pose proof (opening_self _ _ _ _ Ho) as Hs. fold n in Hs, Hk.
  pose proof (op_bare _ _ _ _ Ho) as [B1 B2 B3 B4 B5 B6 B7 B8].
  destruct (cmap_get _ _ _ Hgl) as [Hy Hcl].
  pose proof (root_state _ _ _ _ (op_links _ _ _ _ Ho) Hy Hst ltac:(done) ltac:(by intros [])) as Hpy.
  assert (Hne : l <> n).
  { intros ->. pose proof (op_new _ _ _ _ Ho) as Hnew. fold n in Hnew. congruence. }
  assert (Hgl' : get w' l = Some (mk_conn (pcb cl) (sock cl) (w_env w'))).
  { apply get_lookup. by rewrite (op_conns _ _ _ _ Ho), lookup_insert_ne. }
  assert (Hx : cmap w' !! n = Some (spot_at p s)) by (by apply cmap_lookup).
  destruct (cmap_get _ _ _ Hgl') as [Hy' _]. cbn in Hy'.
  unfold add_child. unfold on at 1. rewrite (get_lookup _ _ _ _ Hs). set (c1 := (mk_conn p s (w_env w')) <|p state := _ |> <|p parent_sock := _ |>).
  unfold on at 1. rewrite (get_put_ne w' n l c1 _ (not_eq_sym Hne) Hgl').
  set (c2 := (mk_conn _ _ _) <|p syn_list := _ |> <|p syn_list_num := _ |>).
  destruct (lk_nums _ Hl' _ _ Hy') as [N1 N2]. cbn in N1, N2.
  pose proof (lk_nodup _ Hl' _ _ Hy') as Hnd. cbn in Hnd.
  assert (Hni : n ∉ syn_list (pcb cl) ++ accept_list (pcb cl)).
  { intros Hin. pose proof (links_elsewhere _ _ _ _ _ Hl' Hx Hy' Hin). congruence. }
  assert (Hok : world_ok (put (put w' n c1) l c2)).
  { split.
    - rewrite put_put_cmap. rewrite zlen_app in Hfew.
      pose proof (zlen_nonneg (syn_list (pcb cl))). pose proof (zlen_nonneg (accept_list (pcb cl))).
      eapply (links_relink _ _ (spot_at p s) _ _ (spot_of cl)); try done.
      + by left.
      + intros k Hkn. split; [|done]. cbn. rewrite elem_of_cons. tauto.
      + cbn. apply NoDup_cons. by split.
      + change (u32 (syn_list_num (pcb cl) + 1) = zlen (n :: syn_list (pcb cl))).
        rewrite N1, u32_succ, zlen_cons by lia. done.
      + change (zlen ((n :: syn_list (pcb cl)) ++ accept_list (pcb cl)) <= INT_MAX).
        rewrite zlen_app, zlen_cons. lia.
      + right. cbn. split_and!; try done; [left|].
        intros Hin. destruct Hni. apply elem_of_app. by right.
    - apply (tables_put _ _ _ (spot_of cl)); [| |unfold same_address; by split_and!].
      + unfold tables_of. rewrite cmap_put. cbn [w_tuples w_binds w_reserved w_next put].
        destruct (tb_len _ _ _ _ _ Ht' _ _ Hx). eapply tables_insert; try done.
        intros Hh _. by apply Hk.
      + rewrite cmap_put, lookup_insert_ne by done. exact Hy'. }
  unfold on. rewrite (get_put_ne _ _ n _ c1 Hne (get_put_same _ _ _)).
  set (c1' := mk_conn (pcb c1) (sock c1) (ev c2)).
  assert (Hg3 : get (put (put w' n c1) l c2) n = Some c1') by (apply get_put_ne; [done|apply get_put_same]).
  destruct (put_same _ n c1' (set_socket_worker false c1') Hok Hg3 ltac:(done)) as [Hok3 Hev3].
  apply gives_ret. split_and!; [done| |rewrite get_put_same; eauto].
  eapply evolves_to_trans; [|exact Hev3]. unfold evolves_to. rewrite put_put_cmap.
  cbn [w_next put]. rewrite (op_next _ _ _ _ Ho). split; [lia|].
  intros k z [[<- <-]|[Hk' Hz]]%lookup_insert_Some; [right; by exists (spot_of cl)|].
  apply lookup_insert_Some in Hz as [[<- <-]|[Hn' Hz]]; [left; unfold n; lia|].
  rewrite (opening_cmap _ _ _ _ Ho), lookup_insert_ne in Hz by done. right. by exists z.
Qed.

(** A handler of the new socket that leaves it bare. *)
Lemma opening_on w w' p s f :
  opening w w' p s ->
  let c := f (mk_conn p s (w_env w')) in
  bare (spot_of c) -> p_family (spot_of c) = family s -> p_hash (spot_of c) = is_hash s ->
  p_bound (spot_of c) = is_bound s -> length (p_sip (spot_of c)) = addr_len (is_v6 s) ->
  length (p_dip (spot_of c)) = addr_len (is_v6 s) ->
  opening w (put w' (w_next w) c) (pcb c) (sock c).
Proof.
  intros Ho c Hb E1 E2 E3 L1 L2. eapply opening_update; [exact Ho| |done|done|exact Hb].
  unfold tables_of. rewrite cmap_put. cbn [w_tuples w_binds w_reserved w_next put].
  eapply (tables_insert _ _ _ _ _ _ (spot_at p s)); try done.
  - by eapply op_tables.
  - apply cmap_lookup. by apply opening_self.
  - intros _ Hn. by destruct Hn; apply (ba_state _ Hb).
Qed.

Lemma opening_len w w' p s : opening w w' p s ->
  length (sip s) = addr_len (is_v6 s) /\ length (dip s) = addr_len (is_v6 s).
Proof.
  intros Ho. apply (tb_len _ _ _ _ _ (op_tables _ _ _ _ Ho) (w_next w) (spot_at p s)).
  apply cmap_lookup. by apply opening_self.
Qed.

Lemma opening_bound w w' p s : opening w w' p s -> is_bound s = false -> w_reserved w' !! w_next w = None.
Proof.
  intros Ho Hb. destruct (w_reserved w' !! w_next w) eqn:E; [|done].
  pose proof (tb_bound _ _ _ _ _ (op_tables _ _ _ _ Ho) (w_next w) (spot_at p s)
                (cmap_lookup _ _ _ _ (opening_self _ _ _ _ Ho))) as [_ H].
  cbn in H. rewrite H in Hb; eauto. done.
Qed.

(** What is left to do after the route: tuple, queue, answer. *)
Lemma finish_child_safe w w' p s l cl sg :
  opening w w' p s -> get w l = Some cl -> state (pcb cl) = TCP_STATE_LISTEN ->
  zlen (syn_list (pcb cl) ++ accept_list (pcb cl)) < INT_MAX ->
  safe calm w (drop_ret (match w_install w' (w_next w) with
    | None => None
    | Some (false, w2) => drop_child w2 (w_next w)
    | Some (true, w2) =>
        match add_child w2 l (w_next w) with
        | None => None
        | Some w3 => on_ret w3 (w_next w) (fun c => answer_syn c sg)
        end
    end)).
Proof.
  intros Ho Hgl Hst Hfew.
  destruct (w_install_ok w' _ p s (op_tables _ _ _ _ Ho) (opening_self _ _ _ _ Ho)) as ([b w2]&->&Ht2&Hc2&_&Hn2&Hk2).
  assert (Ho2 : opening w w2 p (s <| is_hash := b |>)).
  { eapply opening_update; [exact Ho|done|done|done|]. destruct (op_bare _ _ _ _ Ho). by split. }
  destruct b; [|by eapply opening_drop].
  destruct (add_child_safe w w2 p _ l cl Ho2 Hgl Hst Hfew ltac:(intros _; exact (Hk2 eq_refl)))
    as (w3&->&Hw3&Hev3&[c3 Hg3]).
  unfold on_ret. rewrite Hg3. pose proof (spot_answer_syn c3 sg) as E.
  destruct (answer_syn c3 sg) as [r c4]. cbn [snd] in E. cbn [drop_ret].
  destruct (put_same _ _ _ _ Hw3 Hg3 E) as [Hok Hev].
  apply gives_ret. split; [done|]. by eapply evolves_to_trans.
Qed.

(** ... and before it: the route. *)
Lemma route_child_safe w w2 p s2 l cl sg :
  opening w w2 p s2 -> is_v6 s2 = is_v6 (sock cl) ->
  get w l = Some cl -> state (pcb cl) = TCP_STATE_LISTEN ->
  zlen (syn_list (pcb cl) ++ accept_list (pcb cl)) < INT_MAX ->
  length (i_saddr sg) = addr_len (is_v6 (sock cl)) ->
  safe calm w (drop_ret (match on_ret w2 (w_next w) (fun c =>
      set_tcp_socket_route (c <|s dip := i_saddr sg |> <|s dport := i_sport sg |>
                              <|s is_connected := true |>)) with
    | None => None
    | Some (r, w) =>
        if r <? 0 then drop_child w (w_next w2 - 1)
        else
          match w_install w (w_next w2 - 1) with
          | None => None
          | Some (false, w) => drop_child w (w_next w2 - 1)
          | Some (true, w) =>
              match add_child w l (w_next w2 - 1) with
              | None => None
              | Some w => on_ret w (w_next w2 - 1) (fun c => answer_syn c sg)
              end
          end
    end)).
Proof.
  intros Ho2 Hv2 Hgl Hst Hfew Ls.
  replace (w_next w2 - 1) with (w_next w) by (rewrite (op_next _ _ _ _ Ho2); lia).
  destruct (opening_len _ _ _ _ Ho2) as [L3 L4].
  unfold on_ret at 1. rewrite (get_lookup _ _ _ _ (opening_self _ _ _ _ Ho2)).
  match goal with |- context [set_tcp_socket_route ?x] =>
    pose proof (f_set_tcp_socket_route spot_of x) as E; destruct (set_tcp_socket_route x) as [r c3] end.
  cbn [snd] in E.
  assert (Ho3 := opening_on w w2 p s2 (fun _ => c3) Ho2). cbv beta zeta in Ho3. rewrite !E in Ho3.
  specialize (Ho3 ltac:(destruct (op_bare _ _ _ _ Ho2); by split) eq_refl eq_refl eq_refl L3).
  specialize (Ho3 ltac:(cbn; by rewrite Hv2)).
  case_if; [by eapply opening_drop|]. by eapply finish_child_safe.
Qed.

Lemma bind_child w w1 p s key :
  opening w w1 p s -> room w1 -> is_bound s = false -> is_hash s = false ->
  ak_family key = family s -> length (ak_addr key) = addr_len (is_v6 s) ->
  gives (bind_saddr w1 (w_next w) key) (fun '(b, w2) =>
    opening w w2 p (if b then socket_set_bind_reservation s key else s)).
Proof.
  intros Ho Hroom Hb Hh Hf Hl. unfold bind_saddr.
  rewrite (opening_bound _ _ _ _ Ho Hb), (opening_self _ _ _ _ Ho).
  destruct (w_reserve_ok w1 (w_next w) p s key (opt_reuseaddr s || opt_reuseport s)
    (op_tables _ _ _ _ Ho) Hroom (opening_self _ _ _ _ Ho) (opening_bound _ _ _ _ Ho Hb)
    ltac:(by right) Hf Hl) as ([b w2]&->&Ht2&Hc2&_&Hn2).
  apply gives_ret. eapply opening_update; [exact Ho|done..|].
  destruct (op_bare _ _ _ _ Ho). destruct b; by split.
Qed.

Lemma open_child_safe w w0 p0 s0 l cl sg :
  opening w w0 p0 s0 -> spot_at p0 s0 = fresh_spot (family (sock cl)) -> room w0 ->
  get w l = Some cl -> state (pcb cl) = TCP_STATE_LISTEN ->
  zlen (syn_list (pcb cl) ++ accept_list (pcb cl)) < INT_MAX ->
  length (i_saddr sg) = addr_len (is_v6 (sock cl)) -> length (i_daddr sg) = addr_len (is_v6 (sock cl)) ->
  safe calm w (drop_ret (open_child w0 l (w_next w) sg)).
Proof.
  intros Ho E0 Hroom Hgl Hst Hfew Ls Ld. destruct (cmap_get _ _ _ Hgl) as [Hy Hcl].
  assert (Hne : l <> w_next w) by (intros ->; pose proof (op_new _ _ _ _ Ho); congruence).
  assert (Hfam : family s0 = family (sock cl)) by exact (f_equal p_family E0).
  assert (Hv : is_v6 s0 = is_v6 (sock cl)) by (unfold is_v6; by rewrite Hfam).
  unfold open_child. rewrite (get_lookup w0 l (pcb cl) (sock cl)) by (by rewrite (op_conns _ _ _ _ Ho), lookup_insert_ne).
  cbn [pcb sock]. unfold on at 1. rewrite (get_lookup _ _ _ _ (opening_self _ _ _ _ Ho)).
  destruct (opening_len _ _ _ _ Ho) as [L1 L2].
  assert (Ho1 := opening_on w w0 p0 s0 (inherit (pcb cl) (sock cl)) Ho).
  cbn zeta in Ho1. specialize (Ho1 ltac:(destruct (op_bare _ _ _ _ Ho); by split)
    eq_refl eq_refl eq_refl L1 L2).
  destruct (bind_child w _ _ _ (mk_key (i_daddr sg) (i_dport sg) (family (sock cl)) 0) Ho1 Hroom
    (f_equal p_bound E0) (f_equal p_hash E0) (eq_sym Hfam) ltac:(etrans; [exact Ld|by rewrite <- Hv]))
    as ([b w2]&->&Ho2).
  destruct b; [|by eapply opening_drop].
  pose proof (route_child_safe w w2 _ _ l cl sg Ho2 Hv Hgl Hst Hfew Ls) as H.
  by replace (w_next w2 - 1) with (w_next w) in H by (rewrite (op_next _ _ _ _ Ho2); lia).
Qed.

Lemma listen_safe w sid c sg :
  world_ok w -> room w -> get w sid = Some c -> state (pcb c) = TCP_STATE_LISTEN ->
  length (i_saddr sg) = addr_len (is_v6 (sock c)) -> length (i_daddr sg) = addr_len (is_v6 (sock c)) ->
  safe calm w (drop_ret (tcp_process_listen w sid sg)).
Proof.
  intros Hw Hroom Hg Hst Ls Ld. destruct (cmap_get _ _ _ Hg) as [Hx _].
  unfold tcp_process_listen. rewrite Hg. case_if; [by apply safe_ret|].
  case_if.
  { unfold on_ret. rewrite Hg. pose proof (spot_send_flag c (i_ack sg) 0 TCP_FLAG_RST) as E.
    destruct (tcp_send_flag c (i_ack sg) 0 TCP_FLAG_RST) as [r c1]. cbn [snd] in E.
    apply safe_put_ret. by eapply put_same. }
  case_if; [by apply safe_ret|].
  assert (Hpend : exists b, syn_pending w (syn_list (pcb c)) sg = Some b).
  { pose proof (fun ch => lk_syn _ (wo_links _ Hw) _ _ ch Hx) as Hch. cbn in Hch.
    induction (syn_list (pcb c)) as [|ch l IH]; [by exists false|]. cbn [syn_pending].
    destruct (Hch ch ltac:(left)) as (y&Hy&_). destruct (cmap_inv _ _ _ Hy) as (p&s&->&_).
    case_if; [by exists true|]. apply IH. intros ch' Hin. apply Hch. by right. }
  destruct Hpend as [[] ->]; [by apply safe_ret|].
  destruct (lk_listen _ (wo_links _ Hw) _ _ Hx Hst) as [Hb1 Hb2].
  destruct (lk_nums _ (wo_links _ Hw) _ _ Hx) as [N1 N2]. pose proof (lk_few _ (wo_links _ Hw) _ _ Hx) as Hfew.
  cbn in Hb1, Hb2, N1, N2, Hfew. rewrite N1, N2, <- zlen_app.
  pose proof (zlen_nonneg (syn_list (pcb c) ++ accept_list (pcb c))).
  rewrite (wrap_id 32) by (unfold is_u, INT_MAX in *; lia).
  case_if; [by apply safe_ret|]. bool_prop.
  pose proof (create_opening w (family (sock c)) Hw) as Hc.
  destruct (create_socket w (family (sock c))) as [[n|] w0].
  - destruct Hc as (->&HR&p&s&Ho&E). eapply open_child_safe; try done; [|lia].
    unfold room. by rewrite HR.
  - destruct Hc as [e ->]. apply gives_ret. split; [by apply world_ok_env|]. exact (evolves_to_refl w).
Qed.

Lemma input_safe w sid c sg :
  world_ok w -> room w -> get w sid = Some c ->
  length (i_saddr sg) = addr_len (is_v6 (sock c)) -> length (i_daddr sg) = addr_len (is_v6 (sock c)) ->
  safe event_edge w (drop_ret (tcp_input w sid sg)).
Proof.
  intros Hw Hroom Hg Ls Ld. unfold tcp_input. rewrite Hg.
  destruct (state (pcb c)) eqn:Hst; try (apply safe_calm; by eapply (input_conn_safe w sid c sg)).
  - apply safe_calm. by eapply input_closed_safe.
  - apply safe_calm. by eapply listen_safe.
  - apply safe_returning. by eapply syn_sent_safe.
Qed.

(** *** Finding the socket of a segment *)

(** A segment with addresses of its family. *)
Definition seg_ok (v6 : bool) (sg : seg) : Prop :=
  length (i_saddr sg) = addr_len v6 /\ length (i_daddr sg) = addr_len v6 /\
  is_bytes (i_saddr sg) /\ 0 <= i_sport sg.

Lemma select_hash_nonneg v6 sg : seg_ok v6 sg -> 0 <= select_hash v6 sg.
Proof.
  intros (_&_&Hb&Hp). unfold select_hash. destruct v6.
  - revert Hp. generalize (i_sport sg) as h. induction (i_saddr sg) as [|b l IH]; intros h Hh; [done|].
    cbn [foldl]. apply IH; [by apply Forall_cons in Hb as [_ ?]|]. by apply wrap_range.
  - apply Z.lxor_nonneg. split; [|done]. intros _. unfold le_word.
    repeat case_match; try done. subst. unfold is_byte in Hb. rewrite !Forall_cons in Hb.
    destruct Hb as (?&?&?&?&_). lia.
Qed.

Lemma lookup_found (t : tuples (T := T)) any sg syn sid :
  tuples_ok t ->
  tcp_lookup_socket t any (i_saddr sg) (i_sport sg) (i_daddr sg) (i_dport sg) syn = Some sid ->
  exists key, tuple_of t sid = Some key /\
    key ∈ [tuple_key (i_daddr sg) (i_saddr sg) (i_dport sg) (i_sport sg);
           tuple_key (i_daddr sg) any (i_dport sg) 0; tuple_key any any (i_dport sg) 0].
Proof.
  intros Hok. unfold tcp_lookup_socket.
  pose proof (search_spec t (i_daddr sg) (i_dport sg) (i_saddr sg) (i_sport sg) Hok) as H1.
  destruct (search_socket_by_tuple _ _ _ _ _) as [s|].
  { intros [= ->]. eexists. split; [exact H1|]. left. }
  case_if; [done|].
  pose proof (search_spec t (i_daddr sg) (i_dport sg) any 0 Hok) as H2.
  destruct (search_socket_by_tuple _ _ _ _ _) as [s|].
  { intros [= ->]. eexists. split; [exact H2|]. right. left. }
  intros H3. pose proof (search_spec t any (i_dport sg) any 0 Hok) as H4. rewrite H3 in H4.
  eexists. split; [exact H4|]. right. right. left.
Qed.

(** The tables lead to live sockets of the family only. *)
Lemma tuple_live w v sid key :
  tables_of w -> tuple_of (w_tuples w v) sid = Some key ->
  exists c, get w sid = Some c /\ is_v6 (sock c) = v.
Proof.
  intros Ht H. destruct (tb_where _ _ _ _ _ Ht _ _ _ H) as (x&Hx&_&Hv).
  destruct (get_cmap _ _ _ Hx) as (c&Hg&<-&_). by exists c.
Qed.

Lemma recv_safe w v6 sg :
  world_ok w -> room w -> seg_ok v6 sg -> safe event_edge w (drop_ret (tcp_recv w v6 sg)).
Proof.
  intros Hw Hroom Hseg. pose proof (wo_tables _ Hw) as Ht. unfold tcp_recv.
  destruct (tcp_lookup_socket _ _ _ _ _ _ _) as [first|] eqn:El.
  - destruct (lookup_found _ _ _ _ _ (tb_tuples _ _ _ _ _ Ht _) El) as (key&Hkey&_).
    pose proof (socket_select_spec _ _ _ _ (tb_tuples _ _ _ _ _ Ht _) Hkey (select_hash_nonneg _ _ Hseg)) as Hsel.
    destruct (tuple_live _ _ _ _ Ht Hsel) as (c&Hg&Hv). destruct Hseg as (L1&L2&_).
    eapply input_safe; try done; by rewrite Hv.
  - apply safe_calm. destruct (reply_rst (w_env w) sg) as [r e]. apply gives_ret.
    split; [by apply world_ok_env|exact (evolves_to_refl w)].
Qed.

Lemma icmp_safe w v6 src_ip src_port dst_ip dst_port quoted err :
  world_ok w ->
  safe calm w (icmp_deliver_error w v6 src_ip src_port dst_ip dst_port quoted err).
Proof.
  intros Hw. unfold icmp_deliver_error. pose proof (wo_tables _ Hw) as Ht.
  pose proof (search_spec (w_tuples w v6) src_ip src_port dst_ip dst_port (tb_tuples _ _ _ _ _ Ht _)) as H.
  destruct (search_socket_by_tuple _ _ _ _ _) as [sid|]; [|by apply safe_ret].
  destruct (tuple_live _ _ _ _ Ht H) as (c&Hg&_). unfold tcp_icmp_process. rewrite Hg.
  case_if; [by apply safe_ret|]. case_if; [by apply safe_ret|]. cbn zeta.
  set (c1 := c <|s error := err |>). destruct (put_same w sid c c1 Hw Hg ltac:(done)) as [Hw1 Hev1].
  assert (Hd : safe calm w (destroy (put w sid c1) sid)).
  { eapply safe_trans; [done|]. eapply destroy_safe; [done|apply get_put_same]. }
  assert (Hn : safe calm w (on (put w sid c1) sid (fun c => notify_event c notify_err))).
  { eapply safe_trans; [done|]. eapply on_safe; [apply get_put_same|].
    eapply put_same; [done|apply get_put_same|]. apply (f_notify spot_of). }
  destruct (state (pcb c)); first [exact Hd|exact Hn|by apply gives_ret].
Qed.

(** *** The socket calls *)

(** A socket with a descriptor has no listener. *)
Lemma held_root w sid c :
  world_ok w -> get w sid = Some c -> is_Some (fd_entry (sock c)) -> parent_sock (pcb c) = None.
Proof.
  intros Hw [Hx _]%cmap_get [fd Hfd]. destruct (parent_sock (pcb c)) eqn:Hp; [|done].
  destruct (lk_child _ (wo_links _ Hw) _ _ Hx ltac:(by cbn; rewrite Hp)) as (H&_). cbn in H. congruence.
Qed.

(** Flags and addresses of a socket change, links do not. *)
Lemma readdress_ok w w' sid p s s' :
  world_ok w -> w_conns w !! sid = Some (p, s) -> tables_of w' -> w_next w' = w_next w ->
  w_conns w' = <[sid := (p, s')]> (w_conns w) ->
  fd_entry s' = fd_entry s -> send_queue s' = send_queue s ->
  world_ok w' /\ evolves_to calm w w'.
Proof.
  intros [Hl Ht] Hs Ht' Hn Hc Hf Hq. pose proof (cmap_lookup _ _ _ _ Hs) as Hx.
  pose proof (cmap_conns _ _ _ _ _ Hc) as Hcm. split; [split; [|done]|].
  - rewrite Hcm. eapply links_insert; try done; cbn.
    + intros Hp. destruct (lk_child _ Hl _ _ Hx Hp) as (?&?&?&?). unfold child_keeps. cbn in *.
      rewrite Hf, Hq. by split_and!.
    + rewrite Hf. by apply (lk_syn_sent _ Hl _ _ Hx).
    + by apply (lk_listen _ Hl _ _ Hx).
  - by apply (evolves_one _ w _ _ _ _ _ Hx Hcm Hn).
Qed.

Lemma install_safe w sid c :
  world_ok w -> get w sid = Some c ->
  gives (w_install w sid) (fun '(b, w') => world_ok w' /\ evolves_to calm w w' /\
    get w' sid = Some (mk_conn (pcb c) ((sock c) <| is_hash := b |>) (w_env w')) /\
    (b = true -> tuple_of (w_tuples w' (is_v6 (sock c))) sid = Some (spot_key (spot_of c)))).
Proof.
  intros Hw Hg. destruct (cmap_get _ _ _ Hg) as [_ Hs].
  destruct (w_install_ok w sid _ _ (wo_tables _ Hw) Hs) as ([b w']&->&Ht&Hc&_&Hn&Hk).
  apply gives_ret. destruct (readdress_ok _ _ _ _ _ _ Hw Hs Ht Hn Hc eq_refl eq_refl) as [H1 H2].
  split_and!; try done. apply get_lookup. by rewrite Hc, lookup_insert_eq.
Qed.

Lemma safe_after (R : relation tcp_state) w w1 o :
  evolves_to calm w w1 -> (forall a b c, calm a b -> R b c -> R a c) -> safe R w1 o -> safe R w o.
Proof.
  intros H1 HR (w2&->&Hok&H2). apply gives_ret. split; [done|]. by eapply evolves_trans.
Qed.

Lemma tcp_listen_safe w sid c log :
  world_ok w -> get w sid = Some c -> is_Some (fd_entry (sock c)) -> log <= INT_MAX ->
  safe event_edge w (drop_ret (tcp_listen w sid log)).
Proof.
  intros Hw Hg Hfd Hlog. pose proof (held_root _ _ _ Hw Hg Hfd) as Hp.
  destruct (cmap_get _ _ _ Hg) as [Hx _]. unfold tcp_listen. rewrite Hg.
  case_if; [by apply safe_calm, safe_ret|]. case_if; [by apply safe_calm, safe_ret|].
  assert (Hst : state (pcb c) = TCP_STATE_CLOSED) by (by destruct (state (pcb c))).
  destruct (install_safe w sid c Hw Hg) as ([b w1]&->&Hw1&Hev1&Hg1&Hk1).
  destruct b; [|apply safe_calm, gives_ret; by split].
  apply safe_returning. unfold on. rewrite Hg1. set (c1 := mk_conn _ _ _) in *.
  set (c2 := c1 <|p state := TCP_STATE_LISTEN |> <|p backlog := _ |>).
  destruct (cmap_get _ _ _ Hg1) as [Hx1 _]. apply gives_ret. split; [split|].
  - rewrite cmap_put. eapply links_insert; [apply Hw1|exact Hx1|done..| | |]; cbn.
    + rewrite Hp. by intros [].
    + done.
    + intros _. unfold INT_MAX in *. lia.
  - unfold tables_of. rewrite cmap_put. cbn [w_tuples w_binds w_reserved w_next put].
    destruct (tb_len _ _ _ _ _ (wo_tables _ Hw1) _ _ Hx1).
    eapply tables_insert; [apply Hw1|exact Hx1|done..|]. intros _ _. exact (Hk1 eq_refl).
  - destruct Hev1 as [N1 S1]. unfold evolves_to. rewrite cmap_put. split; [done|].
    intros k z [[<- <-]|[_ Hz]]%lookup_insert_Some.
    + right. exists (spot_of c). split; [done|]. cbn. rewrite Hst. right. constructor.
    + destruct (S1 _ _ Hz) as [?|(z0&?&?)]; [by left|]. right. exists z0. split; [done|]. by left.
Qed.

(** A handler called with a descriptor. *)
Lemma call_safe w sid c c' :
  world_ok w -> get w sid = Some c -> is_Some (fd_entry (sock c)) -> shifts live_edge c c' ->
  safe event_edge w (Some (put w sid c')).
Proof.
  intros Hw Hg Hfd Hs. apply safe_calm, safe_put_ret. eapply put_shifts; try done. by eapply held_root.
Qed.

Lemma shifts_live c c' : shifts fin_edge c c' -> shifts live_edge c c'.
Proof. intros (st&q&E&R). exists st, q. split; [done|]. by apply fin_live. Qed.

(** [tcp_write] ends when a segment holds data. *)
Lemma write_loop_total fuel c buf n len lim :
  0 < lim -> len - n <= Z.of_nat fuel -> is_Some (write_loop fuel c buf n len lim).
Proof.
  intros Hl. revert c n. induction fuel as [|fuel IH]; intros c n Hf; cbn [write_loop];
    (case_if; [eauto|]); bool_prop; [lia|]. cbn zeta.
  match goal with |- context [let '(_, _) := ?r in _] =>
    assert (H : fst r = true -> last (send_queue (sock (snd r))) <> None) end.
  { destruct (last (send_queue (sock c))) eqn:El; [case_if|]; cbn [fst snd]; try congruence;
      destruct (alloc _) as [ok c1]; cbn [fst snd]; (intros ->; cbn; by rewrite last_snoc). }
  match goal with |- context [let '(_, _) := ?r in _] => destruct r as [ok c1] end. cbn [fst snd] in H.
  destruct ok; cbn [negb]; [|eauto]. specialize (H eq_refl).
  destruct (alloc_effect c1) as [l El]. destruct (alloc c1) as [ok2 c2]. cbn [snd] in El. subst c2.
  change (sock (c1 <|e allocs := l |>)) with (sock c1).
  destruct (last (send_queue (sock c1))); [|done]. case_if; [eauto|]. apply IH. lia.
Qed.

Lemma tcp_write_total c r buf len :
  0 < tcp_data_mss (pcb (snd (set_tcp_socket_route c))) -> is_Some (tcp_write c r buf len).
Proof.
  intros Hm. unfold tcp_write. repeat (case_if; [by eauto|]). destruct buf as [buf|]; [|eauto].
  repeat (case_if; [by eauto|]). case_if; [repeat case_if; eauto|].
  unfold write_body. destruct (set_tcp_socket_route c) as [rr c1]. cbn [snd] in Hm.
  case_if; [eauto|]. cbn zeta. set (n := if _ <? _ then _ else len).
  destruct (write_loop_total (Z.to_nat n) c1 buf 0 n _ Hm ltac:(lia)) as [[m c2] ->].
  case_if; eauto.
Qed.

(** The connection leaves the listener's queue and gets its descriptor. *)
Lemma accept_child_safe w sid ch rest c cc n here :
  world_ok w -> get w sid = Some c -> get w ch = Some cc -> ch <> sid ->
  accept_list (pcb c) = ch :: rest -> parent_sock (pcb c) = None -> parent_sock (pcb cc) = Some sid ->
  let c1 := set_socket_worker here (cc <|s fd_entry := Some n |> <|p parent_sock := None |>) in
  let w1 := put w ch c1 in
  let c0 := mk_conn (pcb c) (sock c) (ev c1) in
  let c2 := c0 <| pcb ::= unlink_accept ch |> <|p accept_list_num := u32 (accept_list_num (pcb c0) - 1) |> in
  world_ok (put w1 sid c2) /\ evolves_to calm w (put w1 sid c2).
Proof.
  intros Hw Hg Hgc Hne Ha Hp Hpc c1 w1 c0 c2. destruct (cmap_get _ _ _ Hg) as [Hx _].
  destruct (cmap_get _ _ _ Hgc) as [Hxc _]. pose proof (wo_links _ Hw) as Hl.
  assert (E1 : spot_of c1 = spot_of (cc <|s fd_entry := Some n |> <|p parent_sock := None |>))
    by (unfold c1, set_socket_worker; by destruct here).
  destruct (lk_child _ Hl _ _ Hxc ltac:(by cbn; rewrite Hpc)) as (_&Hs0&Ha0&Hq0).
  destruct (lk_nums _ Hl _ _ Hxc) as [M1 M2]. rewrite Hs0 in M1. rewrite Ha0 in M2.
  destruct (lk_nums _ Hl _ _ Hx) as [N1 N2]. pose proof (lk_few _ Hl _ _ Hx) as Hfew.
  pose proof (lk_nodup _ Hl _ _ Hx) as (D1&D2&D3)%NoDup_app. cbn in N1, N2, Hfew, D1, D2, D3.
  rewrite zlen_app in Hfew. pose proof (zlen_nonneg (syn_list (pcb c))).
  assert (Hin : ch ∈ accept_list (pcb c)) by (rewrite Ha; left).
  assert (Hlen : 1 <= zlen (accept_list (pcb c))) by (rewrite Ha, zlen_cons; pose proof (zlen_nonneg rest); lia).
  assert (Hns : ch ∉ syn_list (pcb c)) by (intros Hs; by apply (D2 ch)).
  destruct (lk_acc _ Hl _ _ _ Hx Hin) as (z&Hz&_&Hacc). assert (z = spot_of cc) as -> by congruence.
  split; [split|].
  - unfold w1. rewrite put_put_cmap.
    eapply (links_relink _ ch (spot_of cc) _ sid (spot_of c)); try done; rewrite ?E1; try done.
    + by right.
    + intros k Hk. split; [done|]. cbn. rewrite without_elem. tauto.
    + cbn. apply NoDup_app. split_and!; [done| |by apply NoDup_filter].
      intros k Hk [_ Hk']%without_elem. by apply (D2 k).
    + change (u32 (accept_list_num (pcb c) - 1) = zlen (without ch (accept_list (pcb c)))).
      rewrite N2, without_length, u32_pred by (done || lia). done.
    + change (zlen (syn_list (pcb c) ++ without ch (accept_list (pcb c))) <= INT_MAX).
      rewrite zlen_app, without_length by done. lia.
    + left. split; [done|]. cbn. rewrite elem_of_app, without_elem. tauto.
    + cbn in *. destruct Hacc; congruence.
    + cbn in *. destruct Hacc; congruence.
  - apply (tables_put _ _ _ (spot_of c)).
    + apply (tables_put _ _ _ (spot_of cc)); [apply Hw|done|]. rewrite E1. unfold same_address. by split_and!.
    + unfold w1. by rewrite cmap_put, lookup_insert_ne.
    + unfold same_address. by split_and!.
  - apply (evolves_two _ _ _ _ _ _ _ _ _ Hxc Hx (not_eq_sym Hne)).
    + change (state (pcb c1)) with (p_state (spot_of c1)). rewrite E1. apply rtc_refl.
    + apply rtc_refl.
Qed.

Lemma tcp_accept_safe w sid c r addr fd here :
  world_ok w -> get w sid = Some c -> is_Some (fd_entry (sock c)) ->
  safe calm w (drop_ret (tcp_accept w sid r addr fd here)).
Proof.
  intros Hw Hg Hfd. pose proof (held_root _ _ _ Hw Hg Hfd) as Hp.
  destruct (cmap_get _ _ _ Hg) as [Hx _]. unfold tcp_accept. rewrite Hg.
  case_if; [by apply safe_ret|].
  destruct (lk_nums _ (wo_links _ Hw) _ _ Hx) as [_ N2]. cbn in N2.
  case_if.
  { case_if; [by apply safe_ret|]. case_if; [by apply safe_ret|]. apply safe_put_ret.
    eapply put_same; [done..|]. apply spot_wait_for. }
  destruct (accept_list (pcb c)) as [|ch rest] eqn:Ha; [by rewrite N2 in Heqb0|].
  destruct (lk_acc _ (wo_links _ Hw) _ _ ch Hx ltac:(cbn; rewrite Ha; left)) as (y&Hy&Hpy&_).
  destruct (get_cmap _ _ _ Hy) as (cc&Hgc&<-&Hcc&_). rewrite Hcc.
  assert (Hne : ch <> sid) by (intros ->; rewrite Hg in Hgc; injection Hgc as <-; cbn in Hpy; congruence).
  assert (Hret : forall (a : Z * list Z * option Z), safe calm w (drop_ret (Some (a, w))))
    by (intros a; by apply safe_ret).
  assert (Hgo : forall (bytes : list Z) (len : option Z), safe calm w (drop_ret
    match fd with
    | None => Some (- EMFILE, bytes, len, w)
    | Some n =>
        match on w ch (fun c => set_socket_worker here
                (c <|s fd_entry := Some n |> <|p parent_sock := None |>)) with
        | None => None
        | Some w =>
            match on w sid (fun c => c <| pcb ::= unlink_accept ch |>
                    <|p accept_list_num := u32 (accept_list_num (pcb c) - 1) |>) with
            | None => None
            | Some w => Some (n, bytes, len, w)
            end
        end
    end)).
  { intros bytes len. destruct fd as [n|]; [|apply Hret]. unfold on at 1. rewrite Hgc. unfold on.
    rewrite (get_put_ne w ch sid _ c Hne Hg). apply gives_ret.
    by apply (accept_child_safe w sid ch rest c cc n here Hw Hg Hgc Hne Ha Hp Hpy). }
  destruct addr as [[len|]|]; [|apply Hret|apply Hgo].
  destruct (copy_sockaddr _ _ _) as [b l]. apply Hgo.
Qed.

(** The first connection of the queue is the one that is given. *)
Lemma accept_takes w sid p s r n here ch rest :
  world_ok w -> is_Some (fd_entry s) -> w_conns w !! sid = Some (p, s) ->
  state p = TCP_STATE_LISTEN -> accept_list p = ch :: rest ->
  exists w' p' s' pl sl,
    ch :: rest = ch :: rest /\ tcp_accept w sid r None (Some n) here = Some (n, [], None, w') /\
    w_conns w' !! ch = Some (p', s') /\ fd_entry s' = Some n /\ parent_sock p' = None /\
    acceptable (state p') /\
    w_conns w' !! sid = Some (pl, sl) /\ accept_list pl = rest /\ accept_list_num pl = zlen rest.
Proof.
  intros Hw Hfd Hc Hst Ha. pose proof (cmap_lookup _ _ _ _ Hc) as Hx. pose proof (wo_links _ Hw) as Hl.
  pose proof (get_lookup _ _ _ _ Hc) as Hg. pose proof (held_root _ _ _ Hw Hg Hfd) as Hp. cbn in Hp.
  destruct (lk_nums _ Hl _ _ Hx) as [_ N]. pose proof (lk_nodup _ Hl _ _ Hx) as (_&_&D)%NoDup_app.
  pose proof (lk_few _ Hl _ _ Hx) as Hfew. cbn in N, D, Hfew. rewrite Ha in N, D, Hfew.
  rewrite zlen_app, zlen_cons in Hfew. rewrite zlen_cons in N. apply NoDup_cons in D as [D _].
  pose proof (zlen_nonneg rest). pose proof (zlen_nonneg (syn_list p)).
  destruct (lk_acc _ Hl _ _ ch Hx ltac:(cbn; rewrite Ha; left)) as (y&Hy&Hpy&Hacc).
  destruct (cmap_inv _ _ _ Hy) as (pc&sc&Hcc&->). cbn in Hpy, Hacc.
  assert (Hne : ch <> sid) by (intros ->; rewrite Hc in Hcc; injection Hcc as <- <-; congruence).
  unfold tcp_accept. rewrite Hg. cbn [pcb sock]. rewrite Hst, N, Ha, Hcc.
  change (negb (st_eqb TCP_STATE_LISTEN TCP_STATE_LISTEN)) with false. cbv iota.
  rewrite (proj2 (Z.eqb_neq (zlen rest + 1) 0)) by lia. unfold on.
  rewrite (get_lookup _ _ _ _ Hcc). rewrite (get_put_ne _ _ _ _ _ Hne Hg).
  eexists _, _, _, _, _. split; [done|]. split; [reflexivity|].
  split; [unfold put; cbn; rewrite lookup_insert_ne, lookup_insert_eq by done; reflexivity|].
  split; [by destruct here|]. split; [by destruct here|]. split; [by destruct here|].
  split; [unfold put; cbn; rewrite lookup_insert_eq; reflexivity|]. cbn [pcb sock ev].
  split.
  - change (without ch (accept_list p) = rest). rewrite Ha.
    rewrite filter_cons, decide_False by tauto. by apply without_id.
  - change (u32 (accept_list_num p - 1) = zlen rest). rewrite N, u32_pred by lia. lia.
Qed.

(** *** Closing *)

Lemma close_destroy_safe w sid c c' :
  tables_of w -> get w sid = Some c ->
  links (<[sid := moved_to (spot_of c) TCP_STATE_CLOSED (send_queue (sock c))]> (cmap w)) ->
  spot_of c' = moved_to (spot_of c) TCP_STATE_CLOSED (send_queue (sock c)) ->
  safe calm w (destroy (put w sid c') sid).
Proof.
  intros Ht Hg Hl E. destruct (cmap_get _ _ _ Hg) as [Hx _].
  assert (Hw : world_ok (put w sid c')).
  { split; [by rewrite cmap_put, E|]. apply (tables_put _ _ _ (spot_of c)); [done..|].
    rewrite E. unfold same_address. by split_and!. }
  eapply safe_trans; [|eapply destroy_safe; [exact Hw|apply get_put_same]].
  apply (evolves_one _ _ _ sid (spot_of c) (spot_of c') _ Hx); [by rewrite cmap_put|done|].
  rewrite E. apply rtc_once, te_close.
Qed.

(** [tcp_release] of a socket that has just lost its descriptor. *)
Lemma release_safe w sid c r :
  tables_of w -> get w sid = Some c -> parent_sock (pcb c) = None ->
  links (<[sid := moved_to (spot_of c) TCP_STATE_CLOSED (send_queue (sock c))]> (cmap w)) ->
  (state (pcb c) <> TCP_STATE_SYN_SENT -> links (cmap w)) ->
  match r with Some r => q_status r =? REQ_WAITING_CLOSE | None => false end = false ->
  safe calm w (drop_ret (tcp_release w sid r)).
Proof.
  intros Ht Hg Hp Hlc Hl Hr. unfold tcp_release. rewrite Hg, Hr.
  case_if.
  { unfold on. rewrite Hg. apply safe_returning. eapply close_destroy_safe; try done.
    destruct (route (sock c)); [|done].
    match goal with |- context [tcp_send_flag ?c ?a ?b ?f] => pose proof (spot_send_flag c a b f) as E end.
    rewrite spot_set_state, E. by rewrite (spot_send_queue _ _ E). }
  assert (Hclose : safe calm w (drop_ret
    match on w sid (fun c => c <|p state := TCP_STATE_CLOSED |>) with
    | None => None | Some w => returning 0 (destroy w sid) end)).
  { unfold on. rewrite Hg. apply safe_returning. by eapply close_destroy_safe. }
  assert (Hlive : state (pcb c) <> TCP_STATE_SYN_SENT ->
    safe calm w (drop_ret (on_ret w sid (fun c => linger_wait (release_orphan c) r)))).
  { intros Hst. unfold on_ret. rewrite Hg.
    pose proof (release_orphan_shifts live_edge c) as Hs. pose proof (spot_linger_wait (release_orphan c) r) as E.
    destruct (linger_wait (release_orphan c) r) as [ret c1]. cbn [snd] in E. apply safe_put_ret.
    eapply put_shifts; [split; auto|done|done|]. by eapply shifts_before. }
  destruct (state (pcb c)); first [exact Hclose|by apply Hlive].
Qed.

Lemma detach_spot c :
  is_Some (fd_entry (sock c)) -> spot_of (socket_detach c) = spot_of (c <|s fd_entry := None |>).
Proof. intros [fd Hfd]. unfold socket_detach. by rewrite Hfd. Qed.

(** Closing with a descriptor; or waiting on after the socket was closed. *)
Lemma tcp_close_safe w sid c r :
  world_ok w -> get w sid = Some c ->
  (is_Some (fd_entry (sock c)) \/
   match r with Some r => q_status r =? REQ_WAITING_CLOSE | None => false end = true) ->
  safe calm w (drop_ret (tcp_close w sid r)).
Proof.
  intros Hw Hg Hor. destruct (cmap_get _ _ _ Hg) as [Hx _]. unfold tcp_close.
  destruct (match r with Some r => _ | None => _ end) eqn:Hr.
  { unfold tcp_release. rewrite Hg, Hr. by apply safe_ret. }
  destruct Hor as [Hfd|?]; [|done]. pose proof (held_root _ _ _ Hw Hg Hfd) as Hp.
  unfold on. rewrite Hg. pose proof (detach_spot c Hfd) as E. revert E.
  generalize (socket_detach c) as c1. intros c1 E.
  assert (Ht1 : tables_of (put w sid c1)).
  { apply (tables_put _ _ _ (spot_of c)); [apply Hw|done|]. rewrite E. unfold same_address. by split_and!. }
  assert (Hst : state (pcb c1) = state (pcb c)) by exact (f_equal p_state E).
  eapply (safe_trans _ (put w sid c1)).
  { apply (evolves_one _ _ _ sid (spot_of c) (spot_of c1) _ Hx); [by rewrite cmap_put|done|].
    rewrite E. apply rtc_refl. }
  eapply release_safe; [done|apply get_put_same| | | |done].
  - exact (eq_trans (f_equal p_parent E) Hp).
  - rewrite cmap_put, insert_insert_eq, E. eapply links_insert; [apply Hw|exact Hx|done..| | |done]; cbn.
    + rewrite Hp. by intros [].
    + done.
  - intros Hns. rewrite cmap_put, E. eapply links_insert; [apply Hw|exact Hx|done..| | |]; cbn.
    + rewrite Hp. by intros [].
    + congruence.
    + apply (lk_listen _ (wo_links _ Hw) _ _ Hx).
Qed.

Lemma tcp_socket_safe w fam fd : world_ok w -> safe calm w (drop_ret (tcp_socket w fam fd)).
Proof.
  intros Hw. unfold tcp_socket. case_if; [by apply safe_ret|].
  pose proof (create_opening w fam Hw) as H. destruct (create_socket w fam) as [[sid|] w1].
  2: { destruct H as [e ->]. apply gives_ret. split; [by apply world_ok_env|exact (evolves_to_refl w)]. }
  destruct H as (->&_&p&s&Ho&E). pose proof (opening_ok _ _ _ _ Ho) as Hw1.
  pose proof (opening_evolves _ _ _ _ Ho) as Hev1.
  pose proof (get_lookup _ _ _ _ (opening_self _ _ _ _ Ho)) as Hg1.
  pose proof (op_bare _ _ _ _ Ho) as [B1 B2 B3 B4 B5 B6 B7 B8].
  destruct (cmap_get _ _ _ Hg1) as [Hx1 _].
  eapply safe_trans; [exact Hev1|]. destruct fd as [n|].
  - apply safe_returning. unfold on. rewrite Hg1. apply gives_ret.
    set (c1 := mk_conn p s _) in *. set (c2 := set_socket_worker false _).
    split; [split|].
    + rewrite cmap_put. eapply links_insert; [apply Hw1|exact Hx1|done..| | |].
      * cbn. cbn in B1. rewrite B1. by intros [].
      * cbn. eauto.
      * cbn. cbn in B7. by rewrite B7.
    + apply (tables_put _ _ _ (spot_of c1)); [apply Hw1|done|]. unfold same_address. by split_and!.
    + apply (evolves_one _ _ _ _ _ (spot_of c2) _ Hx1); [by rewrite cmap_put|done|]. apply rtc_refl.
  - assert (Hr : safe calm w1 (drop_ret (tcp_release w1 (w_next w) None))).
    { eapply release_safe; [apply Hw1|done|exact B1| |intros _; apply Hw1|done].
      cbn. rewrite insert_id; [apply Hw1|]. rewrite Hx1. f_equal. cbn in *. unfold spot_of, spot_at, moved_to. cbn.
      by rewrite B7. }
    destruct Hr as (w2&Hr&H2). destruct (tcp_release w1 (w_next w) None) as [[z w3]|]; [|done].
    injection Hr as ->. by apply gives_ret.
Qed.

(** *** Binding and active open *)

(** Only socket [sid] has changed; it is at [x'] now. *)
Record touched (w w' : world) (sid : Z) (x' : spot) : Prop := {
  tc_ok : world_ok w';
  tc_cmap : cmap w' = <[sid := x']> (cmap w);
  tc_next : w_next w' = w_next w
}.

Lemma touched_self w w' sid x' : touched w w' sid x' -> cmap w' !! sid = Some x'.
Proof. intros H. by rewrite (tc_cmap _ _ _ _ H), lookup_insert_eq. Qed.

Lemma touched_refl w sid x : world_ok w -> cmap w !! sid = Some x -> touched w w sid x.
Proof. intros Hw Hx. split; [done| |done]. by rewrite insert_id. Qed.

Lemma touched_trans w1 w2 w3 sid x2 x3 :
  touched w1 w2 sid x2 -> touched w2 w3 sid x3 -> touched w1 w3 sid x3.
Proof.
  intros [A1 A2 A3] [B1 B2 B3]. split; [done| |congruence]. by rewrite B2, A2, insert_insert_eq.
Qed.

Lemma touched_evolves (R : relation tcp_state) w w' sid x x' :
  Reflexive R -> cmap w !! sid = Some x -> touched w w' sid x' -> R (p_state x) (p_state x') ->
  evolves_to R w w'.
Proof. intros HR Hx [A1 A2 A3] He. by apply (evolves_one _ _ _ _ _ _ _ Hx A2 A3). Qed.

(** A closed socket with a descriptor, not (or no longer) connected. *)
Definition idle (x : spot) : Prop :=
  p_state x = TCP_STATE_CLOSED /\ p_parent x = None /\ is_Some (p_fd x).

(** What a closed socket keeps while its addresses change. *)
Definition same_socket (x x' : spot) : Prop :=
  p_parent x' = p_parent x /\ p_syn x' = p_syn x /\ p_syn_num x' = p_syn_num x /\
  p_acc x' = p_acc x /\ p_acc_num x' = p_acc_num x /\ p_fd x' = p_fd x /\
  p_family x' = p_family x /\ p_state x' = p_state x /\ p_queue x' = p_queue x.

Lemma same_socket_refl x : same_socket x x.
Proof. by unfold same_socket; split_and!. Qed.

Lemma same_socket_trans x1 x2 x3 : same_socket x1 x2 -> same_socket x2 x3 -> same_socket x1 x3.
Proof. unfold same_socket. intros (?&?&?&?&?&?&?&?&?) (?&?&?&?&?&?&?&?&?). split_and!; congruence. Qed.

Lemma idle_same x x' : idle x -> same_socket x x' -> idle x'.
Proof. intros (H1&H2&H3) (E1&_&_&_&_&E2&_&E3&_). unfold idle. rewrite E1, E2, E3. done. Qed.

Lemma touched_idle w w' sid x x' :
  links (cmap w) -> cmap w !! sid = Some x -> idle x -> same_socket x x' ->
  tables_of w' -> cmap w' = <[sid := x']> (cmap w) -> w_next w' = w_next w -> touched w w' sid x'.
Proof.
  intros Hl Hx Hi (E1&E2&E3&E4&E5&E6&E7&E8&E9) Ht Hc Hn. split; [split; [|done]|done|done].
  destruct Hi as (I1&I2&I3). rewrite Hc. eapply links_insert; try done; rewrite ?E8, ?I1; try done.
  rewrite I2. by intros [].
Qed.

(** Handlers that keep the spot. *)
Lemma touched_put w sid c c' :
  world_ok w -> get w sid = Some c -> spot_of c' = spot_of c -> touched w (put w sid c') sid (spot_of c).
Proof.
  intros Hw Hg E. destruct (put_same _ _ _ _ Hw Hg E) as [H1 _]. split; [done| |done].
  by rewrite cmap_put, E.
Qed.

(** A reservation was made or not. *)
Lemma reserve_touched w w' sid c key b :
  world_ok w -> get w sid = Some c -> idle (spot_of c) ->
  bind_frame w w' sid (pcb c) (sock c) key b ->
  touched w w' sid (spot_at (pcb c) (if b then socket_set_bind_reservation (sock c) key else sock c)).
Proof.
  intros Hw Hg Hi (Ht&Hc&_&Hn). destruct (cmap_get _ _ _ Hg) as [Hx _].
  eapply touched_idle; [apply Hw|exact Hx|done| |done|by apply cmap_conns|done].
  destruct b; unfold same_socket; by split_and!.
Qed.

Context (addr_exists : list Z -> Z -> bool)
        (if_best_saddr : route_info -> list Z -> option (list Z))
        (best_saddr : list Z -> Z -> option (list Z))
        (mine : list Z -> list Z -> Z -> Z -> bool).

(** Source addresses are of the destination's family. *)
Hypothesis if_best_saddr_len : forall rt d a, if_best_saddr rt d = Some a -> length a = length d.
Hypothesis best_saddr_len : forall d scope a, best_saddr d scope = Some a -> length a = length d.

(** The outcome of binding: still idle, and bound or not. *)
Definition bound_result (w w' : world) (sid : Z) (x : spot) : Prop :=
  exists x', touched w w' sid x' /\ same_socket x x' /\
    (size (w_reserved w') <= size (w_reserved w) + 1)%nat.

Lemma bound_refl w sid c : world_ok w -> get w sid = Some c -> bound_result w w sid (spot_of c).
Proof.
  intros Hw [Hx _]%cmap_get. exists (spot_of c). split_and!; [by apply touched_refl|apply same_socket_refl|lia].
Qed.

Lemma reserve_bound w sid c key reuse :
  world_ok w -> room w -> get w sid = Some c -> idle (spot_of c) -> w_reserved w !! sid = None ->
  ak_family key = family (sock c) -> length (ak_addr key) = addr_len (is_v6 (sock c)) ->
  gives (w_reserve w sid key reuse) (fun '(b, w') => bound_result w w' sid (spot_of c) /\
    (b = false -> w_conns w' = w_conns w /\ w_reserved w' = w_reserved w)).
Proof.
  intros Hw Hroom Hg Hi HR Hf Hl. destruct (cmap_get _ _ _ Hg) as [_ Hs].
  destruct (w_reserve_ok w sid (pcb c) (sock c) key reuse (wo_tables _ Hw) Hroom Hs HR)
    as ([b w']&->&Hb); [left; apply Hi|done|done|].
  apply gives_ret. pose proof (reserve_touched _ _ _ _ _ _ Hw Hg Hi Hb) as Ht. destruct Hb as (_&Hc&HR'&_).
  split.
  - eexists. split_and!; [exact Ht|destruct b; unfold same_socket; by split_and!|].
    rewrite HR'. destruct b; [|lia]. rewrite map_size_insert_None by done. lia.
  - intros ->. split; [|done]. by rewrite Hc, insert_id.
Qed.

Lemma get_conns w w' sid c :
  w_conns w' = w_conns w -> get w sid = Some c -> exists e, get w' sid = Some (mk_conn (pcb c) (sock c) e).
Proof.
  intros E. unfold get. rewrite E. destruct (w_conns w !! sid) as [[p s]|]; [|done].
  intros [= <-]. by exists (w_env w').
Qed.

Lemma bound_after w w1 w2 sid x :
  w_conns w1 = w_conns w -> w_reserved w1 = w_reserved w -> w_next w1 = w_next w ->
  bound_result w1 w2 sid x -> bound_result w w2 sid x.
Proof.
  intros E1 E2 E3 (x'&[A B C]&Hs&Hz). exists x'. rewrite E2 in Hz. split_and!; [|done..].
  split; [done| |congruence]. rewrite B. unfold cmap. by rewrite E1.
Qed.

Lemma try_ports_ok n w sid c key reuse peer first i :
  world_ok w -> room w -> get w sid = Some c -> idle (spot_of c) -> w_reserved w !! sid = None ->
  ak_family key = family (sock c) -> length (ak_addr key) = addr_len (is_v6 (sock c)) ->
  gives (try_ports mine n w sid key reuse peer first i) (fun '(b, w') => bound_result w w' sid (spot_of c)).
Proof.
  revert w c key i. induction n as [|n IH]; intros w c key i Hw Hroom Hg Hi HR Hf Hl; cbn [try_ports].
  { apply gives_ret. by apply bound_refl. }
  cbn zeta. case_match; [by apply IH|].
  match goal with |- context [w_reserve w sid ?k reuse] =>
    destruct (reserve_bound w sid c k reuse Hw Hroom Hg Hi HR Hf Hl) as ([b w1]&->&Hb&Hkeep) end.
  destruct b; [by apply gives_ret|]. destruct (Hkeep eq_refl) as [Ec ER].
  destruct (get_conns _ w1 _ _ Ec Hg) as [e Hg1]. destruct Hb as (x'&Ht&_).
  pose proof (IH w1 (mk_conn (pcb c) (sock c) e)
    (mk_key (ak_addr key) (htons (EPHEMERAL_PORT_FIRST + (first + i) mod EPHEMERAL_PORT_COUNT))
       (ak_family key) (ak_scope key)) (i + 1) (tc_ok _ _ _ _ Ht)) as Hrec.
  destruct Hrec as ([b w2]&->&Hrec); try done.
  - unfold room. by rewrite ER.
  - by rewrite ER.
  - apply gives_ret. by apply (bound_after w w1 w2); [done..|apply Ht|].
Qed.

Lemma search_port_ok w sid c key reuse peer :
  world_ok w -> room w -> get w sid = Some c -> idle (spot_of c) -> w_reserved w !! sid = None ->
  ak_family key = family (sock c) -> length (ak_addr key) = addr_len (is_v6 (sock c)) ->
  gives (search_port mine w sid key reuse peer) (fun '(r, w') => bound_result w w' sid (spot_of c)).
Proof.
  intros. unfold search_port.
  destruct (try_ports_ok (Z.to_nat EPHEMERAL_PORT_COUNT) w sid c key reuse peer
    (now (w_env w) mod EPHEMERAL_PORT_COUNT) 0) as ([b w']&->&Hb); try done.
  destruct b; by apply gives_ret.
Qed.

(** A bound or unbound socket has a reservation or not. *)
Lemma unbound_free w sid c :
  world_ok w -> get w sid = Some c -> is_bound (sock c) = false -> w_reserved w !! sid = None.
Proof.
  intros Hw [Hx _]%cmap_get Hb. destruct (w_reserved w !! sid) eqn:E; [|done].
  destruct (tb_bound _ _ _ _ _ (wo_tables _ Hw) _ _ Hx) as [_ H]. cbn in H. rewrite H in Hb; eauto. done.
Qed.

Lemma bind_saddr_ok w sid c key :
  world_ok w -> room w -> get w sid = Some c -> idle (spot_of c) -> w_reserved w !! sid = None ->
  ak_family key = family (sock c) -> length (ak_addr key) = addr_len (is_v6 (sock c)) ->
  gives (bind_saddr w sid key) (fun '(b, w') => bound_result w w' sid (spot_of c) /\
    (b = false -> w_conns w' = w_conns w /\ w_reserved w' = w_reserved w)).
Proof.
  intros Hw Hroom Hg Hi HR Hf Hl. unfold bind_saddr. rewrite HR.
  destruct (cmap_get _ _ _ Hg) as [_ ->]. by apply reserve_bound.
Qed.

Lemma bound_safe w w' sid c :
  world_ok w -> get w sid = Some c -> bound_result w w' sid (spot_of c) ->
  world_ok w' /\ evolves_to calm w w'.
Proof.
  intros Hw [Hx _]%cmap_get (x'&Ht&(_&_&_&_&_&_&_&E&_)&_). split; [apply Ht|].
  eapply touched_evolves; [apply _|exact Hx|exact Ht|]. rewrite E. apply rtc_refl.
Qed.

Lemma tcp_bind_safe w sid c addr :
  world_ok w -> room w -> get w sid = Some c -> is_Some (fd_entry (sock c)) ->
  (forall a, addr = Some a -> length (sa_addr a) = addr_len (is_v6 (sock c))) ->
  safe calm w (drop_ret (tcp_bind addr_exists mine w sid addr)).
Proof.
  intros Hw Hroom Hg Hfd Hlen. unfold tcp_bind. rewrite Hg. case_if; [by apply safe_ret|].
  assert (Hst : state (pcb c) = TCP_STATE_CLOSED) by (by destruct (state (pcb c))).
  assert (Hi : idle (spot_of c)) by (split_and!; [done|by eapply held_root|done]).
  destruct (cmap_get _ _ _ Hg) as [_ Hs]. unfold socket_bind_local. rewrite Hs.
  destruct addr as [a|]; [|by apply safe_ret]. specialize (Hlen a eq_refl). cbn zeta.
  case_if; [by apply safe_ret|]. pose proof (unbound_free _ _ _ Hw Hg Heqb0) as HR.
  repeat (case_if; [by apply safe_ret|]).
  case_if.
  - unfold auto_bind_local. rewrite Hs. case_if; [by apply safe_ret|].
    match goal with |- context [search_port mine w sid ?k ?r ?q] =>
      destruct (search_port_ok w sid c k r q Hw Hroom Hg Hi HR eq_refl Hlen) as ([r' w']&->&Hb) end.
    apply gives_ret. by eapply bound_safe.
  - match goal with |- context [bind_saddr w sid ?k] =>
      destruct (bind_saddr_ok w sid c k Hw Hroom Hg Hi HR eq_refl Hlen) as ([b w']&->&Hb&_) end.
    destruct b; apply gives_ret; by eapply bound_safe.
Qed.

(** The outcome of the steps of connect before SYN. *)
Definition ready (w w' : world) (sid : Z) (x : spot) : Prop :=
  exists x', touched w w' sid x' /\ same_socket x x'.

Lemma ready_refl w sid c : world_ok w -> get w sid = Some c -> ready w w sid (spot_of c).
Proof. intros Hw [Hx _]%cmap_get. exists (spot_of c). split; [by apply touched_refl|apply same_socket_refl]. Qed.

Lemma bound_ready w w' sid x : bound_result w w' sid x -> ready w w' sid x.
Proof. intros (x'&?&?&_). by exists x'. Qed.

Lemma ready_trans w1 w2 w3 sid x1 :
  ready w1 w2 sid x1 -> (forall c2, get w2 sid = Some c2 -> same_socket x1 (spot_of c2) ->
    ready w2 w3 sid (spot_of c2)) -> ready w1 w3 sid x1.
Proof.
  intros (x2&Ht&Hs) H. destruct (get_cmap _ _ _ (touched_self _ _ _ _ Ht)) as (c2&Hg&<-&_).
  destruct (H c2 Hg Hs) as (x3&Ht3&Hs3). exists x3.
  split; [by eapply touched_trans|by eapply same_socket_trans].
Qed.

Lemma auto_bind_peer_ok w sid c dest port scope :
  world_ok w -> room w -> get w sid = Some c -> idle (spot_of c) -> is_bound (sock c) = false ->
  length dest = addr_len (is_v6 (sock c)) ->
  gives (auto_bind_peer if_best_saddr mine w sid dest port scope)
    (fun '(r, w') => ready w w' sid (spot_of c)).
Proof.
  intros Hw Hroom Hg Hi Hb Hl. pose proof (unbound_free _ _ _ Hw Hg Hb) as HR.
  unfold auto_bind_peer. rewrite HR, bool_decide_eq_false_2 by (by intros []).
  unfold on_ret at 1. rewrite Hg.
  pose proof (f_set_socket_route spot_of c) as E. pose proof (set_socket_route_ok c) as Hr.
  destruct (set_socket_route c) as [r c1]. cbn [snd] in E. destruct Hr as [_ Hr].
  pose proof (touched_put w sid c c1 Hw Hg E) as Ht1.
  assert (Hrd : ready w (put w sid c1) sid (spot_of c)) by (exists (spot_of c); split; [done|apply same_socket_refl]).
  case_if; [by apply gives_ret|]. bool_prop. destruct (Hr ltac:(lia)) as [rt Hrt].
  destruct (cmap_get _ _ _ (get_put_same w sid c1)) as [_ Hs1]. rewrite Hs1, Hrt.
  destruct (if_best_saddr rt dest) as [saddr|] eqn:Eb; [|by apply gives_ret].
  assert (Hi1 : idle (spot_of c1)) by (by rewrite E).
  match goal with |- context [search_port mine _ sid ?k ?ru ?q] =>
    destruct (search_port_ok (put w sid c1) sid c1 k ru q (tc_ok _ _ _ _ Ht1) Hroom (get_put_same _ _ _) Hi1 HR eq_refl)
      as ([r' w2]&->&Hb2) end.
  { cbn. rewrite (if_best_saddr_len _ _ _ Eb), Hl. unfold is_v6.
    by rewrite (f_equal p_family E : family (sock c1) = family (sock c)). }
  apply bound_ready in Hb2. rewrite E in Hb2.
  assert (Hrd2 : ready w w2 sid (spot_of c)).
  { destruct Hb2 as (x2&Ht2&Hs2). exists x2. split; [by eapply touched_trans|done]. }
  destruct r'; try (by apply gives_ret).
  destruct Hrd2 as (x2&Ht2&Hs2). destruct (get_cmap _ _ _ (touched_self _ _ _ _ Ht2)) as (c2&Hg2&E2&_).
  unfold on. rewrite Hg2. apply gives_ret. exists (spot_of c2). rewrite E2. split; [|done].
  eapply touched_trans; [exact Ht2|]. rewrite <- E2. apply touched_put; [apply Ht2|done|].
  by case_if.
Qed.

(** Replacing a wildcard address: release, reserve, and back on failure. *)
Lemma rebind_ok w sid c key old :
  world_ok w -> room w -> get w sid = Some c -> idle (spot_of c) -> is_bound (sock c) = true ->
  ak_family key = family (sock c) -> length (ak_addr key) = addr_len (is_v6 (sock c)) ->
  ak_family old = family (sock c) -> length (ak_addr old) = addr_len (is_v6 (sock c)) ->
  gives (match unbind_saddr w sid with
         | None => None
         | Some w =>
             match bind_saddr w sid key with
             | None => None
             | Some (true, w) => Some (0, w)
             | Some (false, w) =>
                 match bind_saddr w sid old with
                 | None => None
                 | Some (_, w) => Some (- EADDRNOTAVAIL, w)
                 end
             end
         end) (fun '(r, w') => ready w w' sid (spot_of c)).
Proof.
  intros Hw Hroom Hg Hi Hb F1 L1 F2 L2. destruct (cmap_get _ _ _ Hg) as [Hx Hs].
  destruct (unbind_saddr_ok w sid _ _ (wo_tables _ Hw) Hs Hb ltac:(left; apply Hi))
    as (w1&->&Ht1&Hc1&HR1&Hn1).
  set (c1 := mk_conn (pcb c) (unbound (sock c)) (w_env w1)).
  assert (Hss : same_socket (spot_of c) (spot_of c1)) by (unfold same_socket; by split_and!).
  assert (Htc1 : touched w w1 sid (spot_of c1)).
  { eapply touched_idle; [apply Hw|exact Hx|done|done|done|by apply cmap_conns|done]. }
  assert (Hg1 : get w1 sid = Some c1) by (apply get_lookup; by rewrite Hc1, lookup_insert_eq).
  assert (Hfree : w_reserved w1 !! sid = None) by (by rewrite HR1, lookup_delete_eq).
  assert (Hroom1 : room w1).
  { unfold room in *. rewrite HR1, map_size_delete.
    eapply Z.le_lt_trans; [|exact Hroom]. apply Z.add_le_mono_r, inj_le.
    case_match; [apply Nat.le_pred_l|done]. }
  pose proof (idle_same _ _ Hi Hss) as Hi1.
  destruct (bind_saddr_ok w1 sid c1 key (tc_ok _ _ _ _ Htc1) Hroom1 Hg1 Hi1 Hfree F1 L1)
    as ([b w2]&->&Hb2&Hkeep).
  assert (Hup : forall w2, ready w1 w2 sid (spot_of c1) -> ready w w2 sid (spot_of c)).
  { intros w2' (x2&Ht2&Hs2). exists x2. split; [by eapply touched_trans|by eapply same_socket_trans]. }
  destruct b; [apply gives_ret; by apply Hup, bound_ready|].
  destruct (Hkeep eq_refl) as [Ec2 ER2]. destruct Hb2 as (x2&Htc2&_&_).
  destruct (get_conns _ w2 _ _ Ec2 Hg1) as [e Hg2].
  destruct (bind_saddr_ok w2 sid _ old (tc_ok _ _ _ _ Htc2) ltac:(unfold room; by rewrite ER2) Hg2 Hi1
              ltac:(by rewrite ER2) F2 L2) as ([b w3]&->&Hb3&_).
  apply gives_ret, Hup, bound_ready. apply (bound_after w1 w2 w3); [done..|apply Htc2|done].
Qed.

Lemma connect_bind_ok w sid c a :
  world_ok w -> room w -> get w sid = Some c -> idle (spot_of c) ->
  length (sa_addr a) = addr_len (is_v6 (sock c)) ->
  gives (connect_bind if_best_saddr best_saddr mine w sid a) (fun '(r, w') => ready w w' sid (spot_of c)).
Proof.
  intros Hw Hroom Hg Hi Hl. destruct (cmap_get _ _ _ Hg) as [_ Hs].
  unfold connect_bind. rewrite Hs. case_if.
  - bool_prop.
    match goal with |- context [auto_bind_peer _ _ w sid ?d ?p ?sc] =>
      destruct (auto_bind_peer_ok w sid c d p sc Hw Hroom Hg Hi) as ([r w']&->&H); [done..|] end.
    by apply gives_ret.
  - bool_prop. case_if; [|apply gives_ret; by apply ready_refl].
    destruct (best_saddr _ _) as [saddr|] eqn:Eb; [|apply gives_ret; by apply ready_refl].
    apply rebind_ok; try done; cbn.
    + by rewrite (best_saddr_len _ _ _ Eb).
    + apply length_replicate.
Qed.

(** [tcp_abort_connect] of a closed socket, and the failing end of connect. *)
Lemma abort_ok w sid c :
  world_ok w -> get w sid = Some c -> idle (spot_of c) ->
  gives (tcp_abort_connect w sid) (fun w' => ready w w' sid (spot_of c)).
Proof.
  intros Hw Hg Hi. destruct (cmap_get _ _ _ Hg) as [Hx Hs]. unfold tcp_abort_connect. rewrite Hs.
  assert (H1 : gives (if is_hash (sock c) then w_uninstall w sid else Some w) (fun w1 =>
    exists s1, ready w w1 sid (spot_of c) /\ w_conns w1 !! sid = Some (pcb c, s1) /\
      same_socket (spot_of c) (spot_at (pcb c) s1) /\ family s1 = family (sock c))).
  { case_if.
    - destruct (w_uninstall_ok w sid _ _ (wo_tables _ Hw) Hs) as (w1&->&Ht1&Hc1&_&Hn1&_).
      apply gives_ret. exists ((sock c) <| is_hash := false |>).
      assert (Hss : same_socket (spot_of c) (spot_at (pcb c) ((sock c) <| is_hash := false |>)))
        by (unfold same_socket; by split_and!).
      split_and!; [|by rewrite Hc1, lookup_insert_eq|done|done].
      eexists. split; [|exact Hss].
      eapply touched_idle; [apply Hw|exact Hx|done|exact Hss|done|by apply cmap_conns|done].
    - apply gives_ret. exists (sock c). split_and!; [by apply ready_refl|done|apply same_socket_refl|done]. }
  destruct H1 as (w1&->&s1&Hr1&Hs1&Hss&Hf). pose proof (get_lookup _ _ _ _ Hs1) as Hg1.
  unfold on. rewrite Hg1. apply gives_ret.
  assert (Hw1 : world_ok w1) by (destruct Hr1 as (x&Ht&_); apply Ht).
  pose proof (idle_same _ _ Hi Hss) as Hi1. destruct (cmap_get _ _ _ Hg1) as [Hx1 _].
  eapply ready_trans; [exact Hr1|]. intros c2 Hg2 Hs2. assert (c2 = mk_conn (pcb c) s1 (w_env w1)) as -> by congruence.
  eexists. split; [|].
  - eapply touched_idle; [apply Hw1|exact Hx1|exact Hi1| | |apply cmap_put|done].
    + unfold same_socket. by split_and!.
    + destruct (tb_len _ _ _ _ _ (wo_tables _ Hw1) _ _ Hx1) as [L1 L2].
      unfold tables_of. rewrite cmap_put. cbn [w_tuples w_binds w_reserved w_next put].
      eapply tables_insert; [apply Hw1|exact Hx1|done..| |].
      * cbn. apply length_replicate.
      * intros _ Hn. destruct Hn. apply Hi1.
  - unfold same_socket. by split_and!.
Qed.

(** Only [sid] has changed, to a state in [P]. *)
Definition ends (P : tcp_state -> Prop) (w w' : world) (sid : Z) : Prop :=
  exists x', touched w w' sid x' /\ P (p_state x').

Lemma ends_after P w w1 w2 sid x1 : touched w w1 sid x1 -> ends P w1 w2 sid -> ends P w w2 sid.
Proof. intros H1 (x'&H2&HP). exists x'. split; [by eapply touched_trans|done]. Qed.

Lemma ready_ends w w' sid c P : ready w w' sid (spot_of c) -> P (state (pcb c)) -> ends P w w' sid.
Proof. intros (x'&Ht&(_&_&_&_&_&_&_&E&_)) HP. exists x'. split; [done|]. by rewrite E. Qed.

Lemma touched_closed w sid c :
  world_ok w -> get w sid = Some c -> is_Some (fd_entry (sock c)) ->
  touched w (put w sid (c <|p state := TCP_STATE_CLOSED |>)) sid
    (spot_of (c <|p state := TCP_STATE_CLOSED |>)).
Proof.
  intros Hw Hg Hfd. destruct (cmap_get _ _ _ Hg) as [Hx _]. split; [split|apply cmap_put|done].
  - rewrite cmap_put. apply (links_closed _ _ (spot_of c)); [apply Hw|done..].
  - apply (tables_put _ _ _ (spot_of c)); [apply Hw|done|]. unfold same_address. by split_and!.
Qed.

Lemma connect_exit_ok w sid c ret P :
  world_ok w -> get w sid = Some c -> is_Some (fd_entry (sock c)) ->
  P (state (pcb c)) -> P TCP_STATE_CLOSED ->
  gives (connect_exit w sid ret) (fun '(r, w') => ends P w w' sid).
Proof.
  intros Hw Hg Hfd HP HC. unfold connect_exit. case_if.
  2: { apply gives_ret. exists (spot_of c). split; [|done]. apply touched_refl; [done|]. by apply cmap_get in Hg as [? _]. }
  unfold on. rewrite Hg. pose proof (touched_closed w sid c Hw Hg Hfd) as Ht.
  destruct (abort_ok _ sid _ (tc_ok _ _ _ _ Ht) (get_put_same _ _ _)) as (w2&->&Hr).
  { split_and!; [done| |done]. by apply (held_root w sid c). }
  apply gives_ret. eapply ends_after; [exact Ht|]. by eapply ready_ends.
Qed.

Lemma connect_retry_ok w sid c r P :
  world_ok w -> get w sid = Some c -> is_Some (fd_entry (sock c)) ->
  P (state (pcb c)) -> P TCP_STATE_CLOSED ->
  gives (connect_retry w sid r) (fun '(r, w') => ends P w w' sid).
Proof.
  intros Hw Hg Hfd HP HC. unfold connect_retry. rewrite Hg. case_if; [|by eapply connect_exit_ok].
  unfold on. rewrite Hg. set (c1 := c <|s error := 0 |>).
  pose proof (touched_put w sid c c1 Hw Hg eq_refl) as Ht.
  destruct (connect_exit_ok (put w sid c1) sid c1 (- error (sock c)) P (tc_ok _ _ _ _ Ht) (get_put_same _ _ _))
    as ([r' w2]&->&H); [done..|]. apply gives_ret. by eapply ends_after.
Qed.

(** SYN_SENT is reached only from here. *)
Definition begun (st : tcp_state) : Prop := st = TCP_STATE_CLOSED \/ st = TCP_STATE_SYN_SENT.

Lemma connect_start_ok w sid c r :
  world_ok w -> get w sid = Some c -> idle (spot_of c) ->
  gives (connect_start w sid r) (fun '(r, w') => ends begun w w' sid).
Proof.
  intros Hw Hg Hi. destruct (cmap_get _ _ _ Hg) as [Hx Hs]. destruct Hi as (Hst&Hp&Hfd).
  unfold connect_start.
  destruct (w_install_ok w sid _ _ (wo_tables _ Hw) Hs) as ([b w1]&->&Ht1&Hc1&_&Hn1&Hk1).
  set (s1 := (sock c) <| is_hash := b |>) in *.
  assert (Htc1 : touched w w1 sid (spot_at (pcb c) s1)).
  { eapply touched_idle; [apply Hw|exact Hx|done| |done|by apply cmap_conns|done].
    unfold same_socket. by split_and!. }
  assert (Hg1 : get w1 sid = Some (mk_conn (pcb c) s1 (w_env w1)))
    by (apply get_lookup; by rewrite Hc1, lookup_insert_eq).
  destruct b.
  2: { destruct (connect_exit_ok w1 sid _ (- EADDRINUSE) begun (tc_ok _ _ _ _ Htc1) Hg1)
         as ([r' w2]&->&H); [done|by left|by left|]. apply gives_ret. by eapply ends_after. }
  unfold on_ret at 1. rewrite Hg1. cbn zeta. set (c1 := mk_conn (pcb c) s1 (w_env w1)) in *.
  match goal with |- context [tcp_send_flag ?a ?b ?d ?f] =>
    pose proof (spot_send_flag a b d f) as E; destruct (tcp_send_flag a b d f) as [ret c2] end.
  cbn [snd] in E. rewrite spot_set_state in E.
  assert (Htc2 : touched w1 (put w1 sid c2) sid (spot_of c2)).
  { split; [|apply cmap_put|done]. eapply (put_open w1 sid c2 (spot_of c1)); [apply Htc1|by apply cmap_get in Hg1 as [? _]|exact E|done| |done|done].
    intros _. exact (Hk1 eq_refl). }
  pose proof (touched_trans _ _ _ _ _ _ Htc1 Htc2) as Htc.
  assert (Hfd2 : is_Some (fd_entry (sock c2))) by (by rewrite (f_equal p_fd E : fd_entry (sock c2) = _)).
  assert (Hst2 : state (pcb c2) = TCP_STATE_SYN_SENT) by exact (f_equal p_state E).
  case_if.
  - unfold on. rewrite get_put_same.
    pose proof (touched_closed _ sid c2 (tc_ok _ _ _ _ Htc) (get_put_same _ _ _) Hfd2) as Htc3.
    match goal with |- context [connect_exit _ sid ?e] =>
      destruct (connect_exit_ok _ sid (c2 <|p state := TCP_STATE_CLOSED |>) e begun (tc_ok _ _ _ _ Htc3) (get_put_same _ _ _) Hfd2)
        as ([r' w2]&->&H); [by left|by left|] end.
    apply gives_ret. eapply ends_after; [exact Htc|]. by eapply ends_after.
  - unfold on at 1. rewrite get_put_same, put_put. set (c3 := c2 <|s is_connected := true |>).
    assert (E3 : spot_of c3 = spot_of c2) by done.
    assert (Htc3 : touched w (put w1 sid c3) sid (spot_of c2)).
    { eapply touched_trans; [exact Htc1|]. rewrite <- (put_put w1 sid c2 c3).
      eapply touched_trans; [exact Htc2|]. apply touched_put; [apply Htc2|apply get_put_same|done]. }
    rewrite get_put_same. change (state (pcb c3)) with (state (pcb c2)). rewrite Hst2.
    case_if; [by vm_compute in Heqb0|]. unfold on_ret. rewrite get_put_same.
    assert (Hfin : forall c4, spot_of c4 = spot_of c2 -> ends begun w (put (put w1 sid c3) sid c4) sid).
    { intros c4 E4. exists (spot_of c2). split; [|right; exact Hst2].
      eapply touched_trans; [exact Htc3|]. apply (touched_put _ sid c3); [apply Htc3|apply get_put_same|by rewrite E4]. }
    case_if; apply gives_ret; apply Hfin; [done|]. by rewrite spot_wait_for.
Qed.

Lemma ends_safe w w' sid c P :
  get w sid = Some c -> ends P w w' sid -> (forall st, P st -> event_edge (state (pcb c)) st) ->
  world_ok w' /\ evolves_to event_edge w w'.
Proof.
  intros [Hx _]%cmap_get (x'&Ht&HP) HE. split; [apply Ht|].
  eapply touched_evolves; [apply _|exact Hx|exact Ht|]. by apply HE.
Qed.

(** The destination is set; then SYN, or on to the worker of the tuple. *)
Lemma connect_go_ok w sid c a r :
  world_ok w -> get w sid = Some c -> idle (spot_of c) ->
  length (sa_addr a) = addr_len (is_v6 (sock c)) ->
  gives (match on w sid (fun c' => c' <|s dip := sa_addr a |> <|s dport := sa_port a |>
             <|s dip_scope := if is_v6 (sock c) then sa_scope a else dip_scope (sock c') |>) with
         | None => None
         | Some w =>
             match w_conns w !! sid with
             | None => None
             | Some (_, s) =>
                 if negb (mine (sip s) (dip s) (sport s) (sa_port a))
                 then returning REQ_PENDING (on w sid (set_socket_worker false))
                 else connect_start w sid r
             end
         end) (fun '(r, w') => ends begun w w' sid).
Proof.
  intros Hw Hg Hi Hl. destruct (cmap_get _ _ _ Hg) as [Hx _]. unfold on at 1. rewrite Hg.
  match goal with |- context [put w sid ?x] => set (c1 := x) end.
  assert (Hss : same_socket (spot_of c) (spot_of c1)) by (unfold same_socket; by split_and!).
  destruct (tb_len _ _ _ _ _ (wo_tables _ Hw) _ _ Hx) as [L1 L2].
  assert (Ht1 : touched w (put w sid c1) sid (spot_of c1)).
  { eapply touched_idle; [apply Hw|exact Hx|done|done| |apply cmap_put|done].
    unfold tables_of. rewrite cmap_put. cbn [w_tuples w_binds w_reserved w_next put].
    eapply tables_insert; [apply Hw|exact Hx|done..|]. intros _ Hn. destruct Hn. apply Hi. }
  destruct (cmap_get _ _ _ (get_put_same w sid c1)) as [_ Hs1]. rewrite Hs1.
  pose proof (idle_same _ _ Hi Hss) as Hi1. clearbody c1. case_if.
  - unfold on. rewrite get_put_same. apply gives_ret. exists (spot_of c1). split; [|left; apply Hi1].
    eapply touched_trans; [exact Ht1|]. apply touched_put; [apply Ht1|apply get_put_same|done].
  - destruct (connect_start_ok (put w sid c1) sid c1 r (tc_ok _ _ _ _ Ht1) (get_put_same _ _ _) Hi1)
      as ([r' w2]&->&H). apply gives_ret. by eapply ends_after.
Qed.

Lemma tcp_connect_safe w sid c r addr :
  world_ok w -> room w -> get w sid = Some c -> is_Some (fd_entry (sock c)) ->
  (forall a, addr = Some a -> length (sa_addr a) = addr_len (is_v6 (sock c))) ->
  safe event_edge w (drop_ret (tcp_connect if_best_saddr best_saddr mine w sid r addr)).
Proof.
  intros Hw Hroom Hg Hfd Hlen. unfold tcp_connect. rewrite Hg. cbn zeta. case_if.
  { destruct (connect_retry_ok w sid c r (fun st => st = state (pcb c) \/ st = TCP_STATE_CLOSED) Hw Hg Hfd)
      as ([r' w2]&->&H); [by left|by right|]. apply gives_ret.
    eapply ends_safe; [done|exact H|]. intros st [-> | ->]; [done|]. left. apply rtc_once, te_close. }
  destruct addr as [a|]; [|by apply safe_calm, safe_ret]. specialize (Hlen a eq_refl).
  do 4 (case_if; [by apply safe_calm, safe_ret|]). case_if; [by apply safe_calm, safe_ret|].
  assert (Hst : state (pcb c) = TCP_STATE_CLOSED) by (by destruct (state (pcb c))).
  assert (Hi : idle (spot_of c)) by (split_and!; [done|by eapply held_root|done]).
  assert (Hedge : forall st, begun st -> event_edge (state (pcb c)) st).
  { intros st [-> | ->]; rewrite Hst; [done|]. right. constructor. }
  assert (Hfin : forall o, gives o (fun '(_, w') => ends begun w w' sid) -> safe event_edge w (drop_ret (A := Z) o)).
  { intros o ([z w']&->&H). apply gives_ret. by eapply ends_safe. }
  apply Hfin. unfold on_ret at 1. rewrite Hg.
  pose proof (f_set_tcp_socket_route spot_of c) as E. destruct (set_tcp_socket_route c) as [ret c1].
  cbn [snd] in E. pose proof (touched_put w sid c c1 Hw Hg E) as Ht1. pose proof (tc_ok _ _ _ _ Ht1) as Hw1.
  assert (Hafter : forall o : option (Z * world),
    gives o (fun '(_, w') => ends begun (put w sid c1) w' sid) ->
    gives o (fun '(_, w') => ends begun w w' sid)).
  { intros o H. apply (gives_mono _ _ _ H). intros [z w']. by eapply ends_after. }
  apply Hafter. assert (Hi1 : idle (spot_of c1)) by (by rewrite E).
  assert (Hfd1 : is_Some (fd_entry (sock c1))) by apply Hi1.
  assert (Hv1 : is_v6 (sock c1) = is_v6 (sock c)) by (unfold is_v6; by rewrite (f_equal p_family E : family (sock c1) = _)).
  case_if.
  { eapply connect_exit_ok; [done|apply get_put_same|done|left; apply Hi1|by left]. }
  destruct (connect_bind_ok (put w sid c1) sid c1 a Hw1 Hroom (get_put_same _ _ _) Hi1 ltac:(by rewrite Hv1))
    as ([r2 w2]&->&x2&Ht2&Hs2).
  destruct (get_cmap _ _ _ (touched_self _ _ _ _ Ht2)) as (c2&Hg2&<-&_).
  pose proof (idle_same _ _ Hi1 Hs2) as Hi2. pose proof (tc_ok _ _ _ _ Ht2) as Hw2.
  assert (Hv2 : is_v6 (sock c2) = is_v6 (sock c))
    by (rewrite <- Hv1; destruct Hs2 as (_&_&_&_&_&_&E7&_); unfold is_v6; by rewrite (E7 : family (sock c2) = _)).
  case_if.
  - destruct (connect_exit_ok w2 sid c2 r2 begun Hw2 Hg2) as ([r3 w3]&->&H); [apply Hi2|left; apply Hi2|by left|].
    apply gives_ret. by eapply ends_after.
  - pose proof (connect_go_ok w2 sid c2 a r Hw2 Hg2 Hi2 ltac:(by rewrite Hv2)) as H. rewrite Hv2 in H.
    apply (gives_mono _ _ _ H). intros [z w']. by eapply ends_after.
Qed.

End safe.
