(* ===== verification/TcpWorldProps.v ===== *)
(** What holds of every run of the TCP stack (TcpWorld.v): the properties of the
    composed system, for worlds reachable from an empty one by any sequence of
    events, and runs that show its known defects. *)

From stdpp Require Import prelude list gmap relations.
From Stdlib Require Import ZArith Lia.
From S2P Require Import Prelude TcpDefs TcpSeq TcpTimer TcpWindow TcpOutput TcpSendInv TcpRecv TcpInput.
From S2P Require Import TcpFrame BindTable TcpApi HashTable TupleTable TcpWorld TcpPlace TcpTables TcpLinks.
From S2P Require Import TcpWorldSafe.

Section runs.
Context {T : Type} `{KT : !KeyTable T}.
#[local] Abbreviation world := (world (T := T)).
Implicit Types w : world.

Context (addr_exists : list Z -> Z -> bool)
        (if_best_saddr : route_info -> list Z -> option (list Z))
        (best_saddr : list Z -> Z -> option (list Z))
        (mine : list Z -> list Z -> Z -> Z -> bool).

#[local] Abbreviation step := (world_step addr_exists if_best_saddr best_saddr mine).

(** The user has a descriptor of the socket. *)
Definition held (w : world) (sid : Z) : Prop :=
  exists c, get w sid = Some c /\ is_Some (fd_entry (sock c)).

(** An address argument has the length of the socket's family. *)
Definition addr_fits (w : world) (sid : Z) (addr : option sockaddr) : Prop :=
  forall a c, addr = Some a -> get w sid = Some c -> length (sa_addr a) = addr_len (is_v6 (sock c)).

(** When an event can happen.  Calls need a descriptor; a close that waited is
    resumed while its socket lives; timers belong to live sockets; a write needs
    a route that leaves room for data.  [room]: fewer than 2^32 - 1 bound
    sockets. *)
Definition enabled (w : world) (ev : event) : Prop :=
  match ev with
  | ESocket _ _ => True
  | EBind sid addr => room w /\ held w sid /\ addr_fits w sid addr
  | EConnect sid _ addr => room w /\ held w sid /\ addr_fits w sid addr
  | EListen sid log => held w sid /\ log <= INT_MAX
  | EAccept sid _ _ _ _ => held w sid
  | EWrite sid _ _ _ => held w sid /\ forall c, get w sid = Some c ->
      0 < tcp_data_mss (pcb (snd (set_tcp_socket_route c)))
  | ERead sid _ _ => held w sid
  | EShutdown sid _ => held w sid
  | EClose sid r => held w sid \/
      is_Some (get w sid) /\ match r with Some r => q_status r =? REQ_WAITING_CLOSE | None => false end = true
  | ESegment v6 sg => room w /\ seg_ok v6 sg
  | ETimer sid => is_Some (get w sid)
  | EIcmp _ _ _ _ _ _ _ => True
  | EEnv _ => True
  end.

(** No socket, empty tables. *)
Record initial (w : world) : Prop := {
  in_conns : w_conns w = ∅;
  in_reserved : w_reserved w = ∅;
  in_tuples v : tuples_ok (w_tuples w v) /\ t_where (w_tuples w v) = ∅;
  in_binds v : w_binds w v = bind_table_create
}.

Inductive reachable : world -> Prop :=
  | reach_init w : initial w -> reachable w
  | reach_step w ev w' : reachable w -> enabled w ev -> step w ev = Some w' -> reachable w'.

Lemma initial_ok w : initial w -> world_ok w.
Proof.
  intros [Hc Hr Ht Hb]. assert (Hm : cmap w = ∅) by (unfold cmap; by rewrite Hc, fmap_empty).
  split; [|unfold tables_of]; rewrite Hm.
  - by split.
  - rewrite Hr. split; try done.
    + intros v. apply Ht.
    + intros v sid k H. unfold tuple_of in H. by rewrite (proj2 (Ht v)) in H.
    + intros v. rewrite Hb. apply bind_table_create_refines.
Qed.

Hypothesis if_best_saddr_len : forall rt d a, if_best_saddr rt d = Some a -> length a = length d.
Hypothesis best_saddr_len : forall d scope a, best_saddr d scope = Some a -> length a = length d.

Lemma step_safe w ev : world_ok w -> enabled w ev -> safe event_edge w (step w ev).
Proof.
  intros Hw He. destruct ev; cbn [world_step enabled] in *.
  - by apply safe_calm, tcp_socket_safe.
  - destruct He as (Hr&(c&Hg&Hfd)&Hl). apply safe_calm. eapply tcp_bind_safe; eauto.
  - destruct He as (Hr&(c&Hg&Hfd)&Hl). eapply tcp_connect_safe; eauto.
  - destruct He as ((c&Hg&Hfd)&Hl). by eapply tcp_listen_safe.
  - destruct He as (c&Hg&Hfd). apply safe_calm. by eapply tcp_accept_safe.
  - destruct He as ((c&Hg&Hfd)&Hm). rewrite Hg. specialize (Hm c Hg).
    destruct (tcp_write_total c r buf len Hm) as [[n c'] Hwr]. rewrite Hwr.
    eapply call_safe; [done..|]. by eapply shifts_live, tcp_write_shifts.
  - destruct He as (c&Hg&Hfd). unfold on. rewrite Hg. eapply call_safe; [done..|].
    apply shifts_same, spot_read.
  - destruct He as (c&Hg&Hfd). unfold on. rewrite Hg. eapply call_safe; [done..|].
    apply shutdown_shifts.
  - apply safe_calm. destruct He as [(c&Hg&Hfd)|[[c Hg] Hr]]; eapply tcp_close_safe; eauto.
  - destruct He as [Hr Hs]. by apply recv_safe.
  - destruct He as [c Hg]. apply safe_calm. by eapply timer_safe.
  - by apply safe_calm, icmp_safe.
  - apply gives_ret. split; [by apply world_ok_env|]. apply evolves_refl, _.
Qed.

Lemma reachable_ok w : reachable w -> world_ok w.
Proof.
  induction 1 as [w H|w ev w' _ IH He Hs]; [by apply initial_ok|].
  destruct (step_safe w ev IH He) as (w2&E&Hok&_). congruence.
Qed.



(** C2: The queues of a listener are exact: no connection is on them twice, the
    counters are their lengths, every connection on them is live, has no
    descriptor yet, belongs to this listener and is in the state its queue says;
    and a connection that has a listener is on one of its queues. *)
Theorem listener_queues_exact w sid p s :
  reachable w -> w_conns w !! sid = Some (p, s) ->
  NoDup (syn_list p ++ accept_list p) /\
  syn_list_num p = zlen (syn_list p) /\ accept_list_num p = zlen (accept_list p) /\
  (forall ch, ch ∈ syn_list p -> exists p' s', w_conns w !! ch = Some (p', s') /\
     parent_sock p' = Some sid /\ fd_entry s' = None /\ state p' = TCP_STATE_SYN_RECEIVED) /\
  (forall ch, ch ∈ accept_list p -> exists p' s', w_conns w !! ch = Some (p', s') /\
     parent_sock p' = Some sid /\ fd_entry s' = None /\ acceptable (state p')) /\
  (forall l, parent_sock p = Some l -> exists pl sl, w_conns w !! l = Some (pl, sl) /\
     sid ∈ syn_list pl ++ accept_list pl).
Proof.
  intros Hw%reachable_ok Hc%cmap_lookup. pose proof (wo_links _ Hw) as Hl.
  assert (Hch : forall ch y, cmap w !! ch = Some y -> p_parent y = Some sid ->
    exists p' s', w_conns w !! ch = Some (p', s') /\ y = spot_at p' s' /\ fd_entry s' = None).
  { intros ch y Hy Hp. destruct (cmap_inv _ _ _ Hy) as (p'&s'&Hp'&->). exists p', s'.
    split_and!; [done..|]. by destruct (lk_child _ Hl _ _ Hy ltac:(by rewrite Hp)). }
  split_and!; [by apply (lk_nodup _ Hl _ _ Hc)|by apply (lk_nums _ Hl _ _ Hc)
              |by apply (lk_nums _ Hl _ _ Hc)|intros ch Hin..|].
  - destruct (lk_syn _ Hl _ _ ch Hc Hin) as (y&Hy&Hp&Hst).
    destruct (Hch _ _ Hy Hp) as (p'&s'&?&->&?). by exists p', s'.
  - destruct (lk_acc _ Hl _ _ ch Hc Hin) as (y&Hy&Hp&Hst).
    destruct (Hch _ _ Hy Hp) as (p'&s'&?&->&?). by exists p', s'.
  - intros l Hp. destruct (lk_parent _ Hl _ _ l Hc Hp) as (y&Hy&Hin).
    destruct (cmap_inv _ _ _ Hy) as (pl&sl&?&->). by exists pl, sl.
Qed.

(** C7: The bind tables hold exactly the reservations of the live sockets: a
    socket is marked bound when and only when it has a reservation, every
    reservation belongs to a live socket, and the table of a family counts
    those of its family. *)
Theorem reservations_exact w :
  reachable w ->
  (forall v, bind_refines (w_binds w v) (keys_of (w_reserved w) v)) /\
  (forall sid p s, w_conns w !! sid = Some (p, s) -> is_bound s = true <-> is_Some (w_reserved w !! sid)) /\
  (forall sid k, w_reserved w !! sid = Some k ->
     exists p s, w_conns w !! sid = Some (p, s) /\ (ak_family k =? AF_INET6) = is_v6 s).
Proof.
  intros Hw%reachable_ok. pose proof (wo_tables _ Hw) as Ht. split_and!.
  - apply Ht.
  - intros sid p s Hc%cmap_lookup. apply (tb_bound _ _ _ _ _ Ht _ _ Hc).
  - intros sid k Hk. destruct (tb_reserved _ _ _ _ _ Ht _ _ Hk) as (x&Hx&Hv).
    destruct (cmap_inv _ _ _ Hx) as (p&s&?&->). by exists p, s.
Qed.



End runs.

(** *** A small network *)

#[local] Instance tuple_hash_table : KeyTable hash := hash_key_table tuple_hash_value.

Definition host_addr : list Z := [10; 0; 0; 1].
Definition peer_addr : list Z := [10; 0; 0; 2].
Definition any_addr : list Z := [0; 0; 0; 0].

(** One host address on one interface, one worker. *)
Definition has_addr (addr : list Z) (scope : Z) : bool := bool_decide (addr = host_addr).
Definition same_length (d : list Z) : option (list Z) :=
  if bool_decide (length d = 4%nat) then Some host_addr else None.
Definition one_worker (s d : list Z) (sp dp : Z) : bool := true.

Definition host_step := world_step (T := hash) has_addr (fun _ => same_length) (fun d _ => same_length d) one_worker.
Definition host_reachable :=
  reachable (T := hash) has_addr (fun _ => same_length) (fun d _ => same_length d) one_worker.

Definition empty_world : world (T := hash) :=
  mk_world ∅ env_zero (fun v => mk_tuples (mk_hash ∅ 256 255 (if v : bool then 36 else 12)) ∅ ∅ 0)
    (fun _ => bind_table_create) ∅ 0.

Lemma empty_initial : initial empty_world.
Proof. split; try done. intros v. split; [apply new_table_ok|done]. Qed.

Lemma same_length_ok d a : same_length d = Some a -> length a = length d.
Proof. unfold same_length. case_bool_decide as H; [|done]. intros [= <-]. by rewrite H. Qed.

Fixpoint run (w : world (T := hash)) (evs : list event) : option (world (T := hash)) :=
  match evs with
  | [] => Some w
  | ev :: evs => match host_step w ev with Some w => run w evs | None => None end
  end.

(** Whether the events of a run are enabled, for the events used below. *)
Definition heldb (w : world (T := hash)) (sid : Z) : bool :=
  match get w sid with Some c => bool_decide (is_Some (fd_entry (sock c))) | None => false end.
Definition fitsb (w : world (T := hash)) (sid : Z) (addr : option sockaddr) : bool :=
  match addr, get w sid with
  | Some a, Some c => bool_decide (length (sa_addr a) = addr_len (is_v6 (sock c)))
  | _, _ => true
  end.
Definition roomb (w : world (T := hash)) : bool := Z.of_nat (size (w_reserved w)) + 1 <? 2 ^ 32.
Definition segb (v6 : bool) (sg : seg) : bool :=
  bool_decide (length (i_saddr sg) = addr_len v6) && bool_decide (length (i_daddr sg) = addr_len v6)
  && forallb (fun b => (0 <=? b) && (b <? 256)) (i_saddr sg) && (0 <=? i_sport sg).

Definition enabledb (w : world (T := hash)) (ev : event) : bool :=
  match ev with
  | ESocket _ _ | EEnv _ | EIcmp _ _ _ _ _ _ _ => true
  | EBind sid addr | EConnect sid _ addr => roomb w && heldb w sid && fitsb w sid addr
  | EListen sid log => heldb w sid && (log <=? INT_MAX)
  | EAccept sid _ _ _ _ | ERead sid _ _ | EShutdown sid _ | EClose sid _ => heldb w sid
  | EWrite sid _ _ _ => heldb w sid && match get w sid with
      | Some c => 0 <? tcp_data_mss (pcb (snd (set_tcp_socket_route c))) | None => false end
  | ESegment v6 sg => roomb w && segb v6 sg
  | ETimer sid => bool_decide (is_Some (get w sid))
  end.

Lemma heldb_ok w sid : heldb w sid = true -> held w sid.
Proof. unfold heldb, held. destruct (get w sid) as [c|]; [|done]. intros H%bool_decide_eq_true. by exists c. Qed.

Lemma fitsb_ok w sid addr : fitsb w sid addr = true -> addr_fits w sid addr.
Proof. intros H a c -> Hg. unfold fitsb in H. rewrite Hg in H. by apply bool_decide_eq_true in H. Qed.

Lemma segb_ok v6 sg : segb v6 sg = true -> seg_ok v6 sg.
Proof.
  unfold segb. intros [[[H1 H2]%andb_true_iff H3]%andb_true_iff H4]%andb_true_iff.
  apply bool_decide_eq_true in H1, H2. split_and!; [done|done| |lia].
  apply Forall_forall. intros b Hb. rewrite forallb_forall in H3.
  specialize (H3 b (proj1 (list_elem_of_In _ _) Hb)). unfold is_byte. lia.
Qed.

Lemma enabledb_ok w ev : enabledb w ev = true -> enabled w ev.
Proof.
  destruct ev; cbn [enabledb enabled]; intros H; try done; bool_prop;
    rewrite ?andb_true_iff in H; destruct_and?; try (split_and!);
    try (by apply heldb_ok); try (by apply fitsb_ok); try (by apply segb_ok);
    try (unfold room, roomb in *; lia); try (left; by apply heldb_ok); try lia.
  - intros c Hc. rewrite Hc in *. lia.
  - by apply bool_decide_eq_true in H.
Qed.

Fixpoint run_ok (w : world (T := hash)) (evs : list event) : bool :=
  match evs with
  | [] => true
  | ev :: evs => enabledb w ev && match host_step w ev with Some w => run_ok w evs | None => false end
  end.

Lemma run_reachable w evs w' :
  host_reachable w -> run_ok w evs = true -> run w evs = Some w' -> host_reachable w'.
Proof.
  revert w. induction evs as [|ev evs IH]; intros w Hw; cbn [run run_ok]; [by intros _ [= <-]|].
  intros [He Hr]%andb_true_iff Hrun. destruct (host_step w ev) as [w1|] eqn:Hs; [|done].
  eapply IH; [|done|done]. eapply reach_step; [exact Hw|by apply enabledb_ok|exact Hs].
Qed.

(** The world a run from the empty one ends in. *)
Definition after_run (evs : list event) : world (T := hash) := default empty_world (run empty_world evs).

Lemma run_ok_some w evs : run_ok w evs = true -> is_Some (run w evs).
Proof.
  revert w. induction evs as [|ev evs IH]; intros w; cbn [run run_ok]; [by eexists|].
  intros [_ H]%andb_true_iff. destruct (host_step w ev); [by apply IH|done].
Qed.

Lemma after_reachable evs : run_ok empty_world evs = true -> host_reachable (after_run evs).
Proof.
  intros H. destruct (run_ok_some _ _ H) as [w Hw]. unfold after_run. rewrite Hw. cbn.
  eapply run_reachable; [|exact H|exact Hw]. apply reach_init, empty_initial.
Qed.

Definition conn_at (w : world (T := hash)) (sid : Z) : tcp_pcb * Socket :=
  default (pcb_zero, socket_zero) (w_conns w !! sid).

Definition saddr_ok (rt : route_info) (d a : list Z) : same_length d = Some a -> length a = length d :=
  same_length_ok d a.
Definition best_ok (d : list Z) (scope : Z) (a : list Z) : same_length d = Some a -> length a = length d :=
  same_length_ok d a.

(** A server that listens on port 80, and a client's handshake with it. *)
Definition sample_env : env := env_zero <| now := 100000 |>
  <| routes := replicate 4 (true, Some (mk_route 1 1500 14 true)) |>.
Definition server : list event :=
  [EEnv sample_env; ESocket AF_INET (Some 3);
   EBind 0 (Some (mk_sockaddr 16 AF_INET host_addr (htons 80) 0)); EListen 0 5].
Definition to_server (seq ack flags : Z) : seg :=
  mk_seg peer_addr host_addr 7 (htons 80) seq ack 80 flags 1000 [] [].
Definition sample_iss : Z := 100000 mod 65535.
Definition handshake : list event :=
  [ESegment false (to_server 1000 0 TCP_FLAG_SYN);
   ESegment false (to_server 1001 (sample_iss + 1) TCP_FLAG_ACK)].

(** A client that connects to port 80 of the peer, and the peer's segments. *)
Definition client : list event :=
  [EEnv sample_env; ESocket AF_INET (Some 3);
   EConnect 0 (mk_req 1 0 0 None) (Some (mk_sockaddr 16 AF_INET peer_addr (htons 80) 0))].
Definition to_client (seq ack flags : Z) : event :=
  ESegment false (mk_seg peer_addr host_addr (htons 80) 41102 seq ack 80 flags 1000 [] []).



Lemma listener_queues_exact_witness :
  let w := after_run (server ++ handshake) in
  accept_list (conn_at w 0).1 = [1] /\ accept_list_num (conn_at w 0).1 = 1 /\
  exists p s, w_conns w !! 1 = Some (p, s) /\ parent_sock p = Some 0 /\ acceptable (state p).
Proof.
  intros w. assert (Ha : accept_list (conn_at w 0).1 = [1]) by by vm_compute.
  destruct (listener_queues_exact has_addr _ _ one_worker saddr_ok best_ok w 0 (conn_at w 0).1 (conn_at w 0).2)
    as (_&_&Hn&_&Hch&_).
  - by apply after_reachable.
  - by vm_compute.
  - split; [exact Ha|]. split; [rewrite Hn, Ha; reflexivity|]. destruct (Hch 1) as (p&s&?&?&_&?); [rewrite Ha; left|].
    exists p, s. split_and!; assumption.
Defined.

Lemma reservations_exact_witness :
  let w := after_run server in
  bind_refines (w_binds w false) (keys_of (w_reserved w) false) /\ length (keys_of (w_reserved w) false) = 1%nat.
Proof.
  intros w. split; [|by vm_compute]. apply (reservations_exact has_addr _ _ one_worker saddr_ok best_ok w).
  by apply after_reachable.
Defined.



(** *** Runs that show defects *)

(** A listener bound to one address can be made to dereference its missing
    route: an ACK from address 0.0.0.0 port 0 has the listener's own tuple, and
    it is answered with a reset through a route the listener never has. *)
Theorem listener_ack_faults :
  let w := after_run (server ++ [ESegment false
    (mk_seg any_addr host_addr 0 (htons 80) 1000 5 80 TCP_FLAG_ACK 1000 [] [])]) in
  host_reachable w /\ state (conn_at w 0).1 = TCP_STATE_LISTEN /\ fault (w_env w) = true.
Proof. split; [by apply after_reachable|by vm_compute]. Qed.

(** The client writes, the peer resets the connection. *)
Definition reset_run : list event :=
  client ++ [to_client 5000 (sample_iss + 1) (Z.lor TCP_FLAG_SYN TCP_FLAG_ACK);
             EWrite 0 (mk_req 2 0 0 None) (Some [1; 2; 3]) 3;
             EEnv (sample_env <| now := 100200 |>); ETimer 0;
             to_client 5001 (sample_iss + 1) TCP_FLAG_RST].

(** A connection the peer has reset goes on retransmitting as long as the user
    keeps its descriptor: it is CLOSED with ECONNRESET, its data is still queued
    and its timer still runs, and when the timer expires the data is sent
    again. *)
Theorem reset_keeps_retransmitting :
  let w := after_run reset_run in
  let w' := after_run (reset_run ++ [EEnv (sample_env <| now := 106300 |>); ETimer 0]) in
  host_reachable w' /\
  state (conn_at w 0).1 = TCP_STATE_CLOSED /\ error (conn_at w 0).2 = ECONNRESET /\
  registered (timer_task (conn_at w 0).1) = true /\ timeout (timer_task (conn_at w 0).1) <= 106300 /\
  state (conn_at w' 0).1 = TCP_STATE_CLOSED /\ map k_data (wire (w_env w')) = [[1; 2; 3]].
Proof. split; [by apply after_reachable|by vm_compute]. Qed.

(** A segment with SYN, ACK and RST set establishes a connection that is being
    opened, after reporting to the user that it was refused. *)
Theorem syn_rst_establishes :
  let w := after_run (client ++ [to_client 5000 (sample_iss + 1)
             (Z.lor TCP_FLAG_RST (Z.lor TCP_FLAG_SYN TCP_FLAG_ACK))]) in
  host_reachable w /\ state (conn_at w 0).1 = TCP_STATE_ESTABLISHED /\
  error (conn_at w 0).2 = ECONNREFUSED.
Proof. split; [by apply after_reachable|by vm_compute]. Qed.
